(* ===== verification/_CoqProject ===== *)
-Q . S2P
Prelude.v
Program.v
Text.v
Wire.v
WorkGraphTypes.v
WorkGraphErrors.v
WorkGraphWire.v
Planning.v
Material.v
ToolOutput.v
Completion.v
RecordProofs.v
RecordTheorems.v
Frontier.v
FrontierProofs.v
FrontierTheorems.v
Journal.v
AgentLoop.v
Plans.v
Effects.v
StepMachine.v
Reducer.v
Scenario.v
RunInvariant.v
JournalTheorems.v
ReducerTheorems.v
Domain.v
Receipt.v
DomainWire.v
Resolution.v
ResolutionTheorems.v
Broker.v
BrokerTheorems.v
Registry.v
Router.v
RouterTheorems.v
PolicyWitnesses.v
StoreTypes.v
StoreBundles.v
StoreIndex.v
StoreSidecars.v
MemoryStore.v
Host.v
Invocation.v
Admission.v
Recovery.v
Adapters.v
DurableRuntime.v
Verification.v
VerificationTheorems.v
Executor.v
PlanningContext.v
Proposals.v
Agent.v
Driver.v
Workspace.v
WorkspaceTheorems.v
ProposalProofs.v
StoreSpec.v
Attempts.v
StoreProofs.v
StoreAppends.v
ContextProofs.v
StoreRuns.v
StoreTheorems.v
MachineLogic.v
RuntimeSafety.v
AgentSafety.v
DriverSafety.v
AdmissionProofs.v
AdmissionTheorems.v
Scripts.v
AgentScripts.v
RuntimeTheorems.v
AgentTheorems.v
DriverTheorems.v
StoreEvidence.v
StoreScenario.v
RuntimeScenario.v
AgentScenario.v
