(* ===== verification/Prelude.v ===== *)
(** * XGENy: a verification library for the durable WorkGraph, its store, its policy core, the
    runtime and the agent loop

    XGENy runs agent plans as a durable, single-writer WorkGraph: every change of a run is an
    event in a hash-chained journal, the projection of the run is a pure fold of that journal,
    and everything that may touch the outside world is authorized, committed and accounted for
    in it before it happens.  This library models that core, the runtime that drives it, the
    driver that composes them and the adapter that edits files, and proves them correct.  All
    paths below are under src/crates.

    ** Parts, files and sources

    - Prelude, Text, Wire: Rust's results, checked integers, ordered maps, sorts and lawful
      comparisons, [f64] by its bits, [str] over UTF-8 bytes, JSON values and the [Serialize]
      interface.  They model the language and its standard library; the generic lemmas, tactics
      and hint databases ([rust], [wire]) the components share live here.  Wire also builds the
      reference [Crypto] instance.
    - xgeny-workgraph/src/lib.rs: WorkGraphTypes (the data model), WorkGraphErrors, WorkGraphWire
      (the serialized form of every hashed type, proved injective), Planning (contracts and
      model-call reservations), Material, ToolOutput, Completion (the sidecar records), Frontier
      (dependency validation and the work frontier), Journal (records and their chain),
      AgentLoop, Plans, Effects (the event handlers) and Reducer ([apply_body], [apply_record],
      [replay]).
    - xgeny-domain/src/{common,capability,policy}.rs: Domain, the wire types the next files read,
      and DomainWire, their JSON documents.
    - xgeny-domain/src/{common,execution}.rs and xgeny-protocol/src/lib.rs: Receipt, the receipt
      document, the Core Receipt profiles and the validation of a receipt.
    - xgeny-local-store/src/lib.rs: StoreTypes (heads, snapshots, anchors and the verified run
      index), StoreBundles (an event against its sidecars, a receipt against its intent),
      StoreIndex (the index of a journal and its incremental update), StoreSidecars (audits, point
      lookups, completion output, planning snapshot) and MemoryStore (the [RunStore] trait).
      xgeny-local-store/src/memory.rs: MemoryStore, the in-memory store that implements it.
    - xgeny-policy/src/resolution.rs: Resolution.  xgeny-policy/src/broker.rs: Broker.
    - xgeny-runtime/src: registry.rs is Registry, router.rs Router, lib.rs and lease.rs Host,
      admission.rs Invocation (what touches no store) and Admission, material.rs Recovery,
      executor.rs and frontier.rs Adapters and Executor, runtime.rs DurableRuntime,
      verification.rs Verification, agent_loop.rs and invocation_diagnostic.rs PlanningContext,
      Proposals and Agent.
    - xgeny-cli/src/driver.rs: Driver, the bounded coordinator that composes all of these.
    - xgeny-adapter-filesystem/src/{path,lib,apply_patch,atomic_commit,read_text,write_atomic}.rs:
      Workspace, the paths of a workspace and their resolver, exact edits, reading a text file and
      replacing one atomically, and the adapters and verifiers that instantiate the runtime's.

    Each Rust type is a Module holding a type of the same name with the source's constructors or
    fields ([mk] builds a record), each Rust function a definition of the same name, composed as
    the source composes them; a method is [Type_method] or a definition of the type's Module.
    Mutation of [&mut self] is state passing.  A computation that can fail is a [res]: [Ok],
    [Err] with the source's error value, or [Panic] where the Rust code would panic or a loop
    would run out of fuel.

    A function of the runtime that is given a store and ports by [&mut] is a program (Program):
    a tree of atomic calls on a machine, the store beside the rest of the world.  A call reads the
    store, appends to it, or asks a port; between two calls other clients may append and the world
    may change, and the process may die.  [run] executes a program alone; a pool of programs
    interleaves call by call.

    ** What the theorems show

    - ReducerTheorems, JournalTheorems (proofs in RunInvariant, StepMachine, AgentLoop, Plans):
      along every journal the reducer accepts, effects are authorized once and by the right
      authorization, budgets hold, step histories follow the status diagram, completion freezes
      the run, the head digest commits to the journal, and the reducer is total.  The lifecycle
      handlers refine the abstract step machine of StepMachine.
    - FrontierTheorems (FrontierProofs): the topological classification equals the declarative
      specification, with its errors, its totality and its order.
    - RecordTheorems (RecordProofs): records verify exactly when their constructors build them,
      and digests commit to them.
    - ResolutionTheorems: a permission request names exactly the resources the executed arguments
      select.  BrokerTheorems: the broker takes the strictest decision of its layers.
      RouterTheorems: a route selects safely.
    - StoreTheorems, StoreEvidence: the contract of the store.  A store is reachable when
      successful appends of the six kinds built it (StoreRuns); such a store passes its own audit
      and loads its journal and projection, its appends are a compare-and-swap on the head, a lost
      race stays lost, no method panics, every step has the evidence its projection refers to, and
      a planning snapshot is complete.  StoreSpec relates the incremental index to the audited one
      and to the projection, StoreProofs and StoreAppends prove the invariant of each append.
    - RuntimeTheorems, AdmissionTheorems, VerificationTheorems (Attempts, MachineLogic,
      RuntimeSafety, AdmissionProofs, Scripts): effects are performed at most once per announced
      execution under any interleaving and any crash, adapters see only sanctioned requests,
      executed arguments are the authorized ones, drive steps write fixed scripts and report the
      truth, and receipts bind their intents.  MachineLogic is a rely-guarantee logic with tokens:
      an append of an announcing event is the credit for one use of a resource of the world.
    - AgentTheorems (ProposalProofs, ContextProofs, AgentSafety, AgentScripts): the planner's
      provider is asked at most as often as the journal reserves, under any interleaving; a tick
      writes what it reports; untrusted proposals are checked; planning contexts are bounded.
    - DriverTheorems (DriverSafety): whole drives keep what the runtime and the loop guarantee, and
      call no model without the host's consent.
    - WorkspaceTheorems: the resolver accepts exactly the spellings of paths below the root and
      gives each path one name; exact edits replace contexts that occur once, or fail for the
      reason they state; a commit leaves its target with the old text or the whole new one wherever
      it stops, touches no other file but its temporary one, and reports what it did.
    - Scenario, StoreScenario, RuntimeScenario, AgentScenario, PolicyWitnesses: concrete journals,
      stores, machines, policies and catalogs at which the theorems are applied.  The workspace
      theorems are applied at the end of their own file, to a directory of named texts.

    ** Third-party code and the host

    serde_jcs and sha2 are the operations of the class [Crypto]; [CryptoLaws] states what the code
    relies on: RFC 8785 output determines an I-JSON value, and SHA-256 yields 32 bytes. Collision
    resistance is not assumed: tamper-evidence theorems conclude equality, or that two inputs they
    name, which the code hashed, collide ([digests_collide]). serde_json pointers are the class
    [JsonPointer] with [JsonPointerLaws]; the JSON-Schema validator is [JsonSchema],
    [JsonSchemaErrors], [ReceiptSchema] and [PolicyDecisionSchema], RFC 3339 parsing is [Rfc3339],
    host resource resolvers are the class [ResourceResolver], with no law at all. Event factories,
    leases, adapters, verifiers, material providers, planners, materializers, routes, approvals and
    progress observers are classes with one operation per trait method. The calls to cap_std and
    getrandom are the class [Directory]; [DirectoryLaws] is the documented behaviour of a local file
    system nobody else writes to. The laws the concurrency theorems need of them are classes too:
    [OneShotAdapter] (a prepared invocation performs its effect at most once), the [Passive] classes
    (the other ports perform none), [LoggedPlanner] and [LoggedHost] (only the planner asks its
    provider). The scenarios give concrete instances of all of them.

    ** Bounds and fuel

    [u32], [u64] and [usize] (64 bits) are [N] with checked operations at their bounds.  The
    classification loop of the frontier runs with one unit of fuel per step and one more, and
    [replay_total] shows it never runs out; the bounded JSON walks of [validate_tool_output] and
    of a planning value have two passes more than their node bounds as fuel, and the visit of
    the ready keys of a proposal one more than its keys; [validate_tool_output_errors],
    [planning_contexts_are_bounded] and [proposal_structure_checked] show that they never run
    out.  A drive runs as many passes
    as its tick budget.  The store's loops run over finite maps and lists; [store_never_panics]
    shows none of its expectations fails.  The byte budget of a planning snapshot is capped by
    the width of its counter.  Sorting uses [merge_sort] of stdpp; the orders are proved total, so
    the result is that of Rust's stable sort.

    ** Not modelled

    Operating-system and network code (the SQLite store, the lease file, the queries of the
    filesystem adapter and the identity of its root, the process adapter, the provider client, the
    rest of the command line; of the modelled part of the filesystem adapter, the Windows reparse
    checks and the [sync_parent] of systems other than Unix), JSON-schema assets and their
    third-party validator, [Debug] output, test counters (FrontierMetrics, AuditMetrics) and the
    arguments of formatted error texts, which appear as their literals. *)

From stdpp Require Export base gmap strings list sorting.
From Stdlib Require Export NArith Lia.

Declare Scope rust_scope.
Delimit Scope rust_scope with rust.

(** ** Rust results

    [Ok] and [Err] are the constructors of [Result].  [Panic] stands for an
    evaluation that yields no Rust value at all: a failed [expect], an indexing
    panic, an [unreachable!], or a loop whose fuel ran out.  The development
    proves that the modelled entry points never reach it. *)
Inductive res (E A : Type) : Type :=
| Ok (a : A)
| Err (e : E)
| Panic (why : string).
Arguments Ok {E A} a.
Arguments Err {E A} e.
Arguments Panic {E A} why.

Definition rbind {E A B : Type} (c : res E A) (k : A → res E B) : res E B :=
  match c with
  | Ok a => k a
  | Err e => Err e
  | Panic why => Panic why
  end.

Notation "'let?' x ':=' c 'in' k" := (rbind c (λ x, k))
  (at level 10, x pattern, c at level 100, k at level 200,
   format "'[hv' 'let?'  x  ':='  c  'in'  '/' k ']'") : rust_scope.

Notation "'bail_if' b 'with' e ';;' k" := (if b then Err e else k)
  (at level 10, b at level 99, e at level 99, k at level 200,
   format "'[v' 'bail_if'  b  'with'  e  ';;' '/' k ']'") : rust_scope.

Open Scope rust_scope.

(** The [?] operator with a [From] conversion. *)
Definition map_err {E F A : Type} (f : E → F) (c : res E A) : res F A :=
  match c with
  | Ok a => Ok a
  | Err e => Err (f e)
  | Panic why => Panic why
  end.

Definition rmap {E A B : Type} (f : A → B) (c : res E A) : res E B :=
  rbind c (λ a, Ok (f a)).

Definition ok_or {E A : Type} (o : option A) (e : E) : res E A :=
  match o with Some a => Ok a | None => Err e end.

Definition expect {E A : Type} (o : option A) (why : string) : res E A :=
  match o with Some a => Ok a | None => Panic why end.

Definition is_ok {E A : Type} (c : res E A) : Prop := ∃ a, c = Ok a.
Definition no_panic {E A : Type} (c : res E A) : Prop := ∀ why, c ≠ Panic why.

(** A [for] loop over a slice whose body may return early. *)
Fixpoint for_each {E S A : Type} (f : S → A → res E S) (l : list A) (s : S) : res E S :=
  match l with
  | [] => Ok s
  | a :: l' => let? s' := f s a in for_each f l' s'
  end.

(** The recurring [for (field, matches) in [..] { if !matches { return Err(..) } }]:
    the first field whose comparison is false. *)
Fixpoint first_mismatch (l : list (string * bool)) : option string :=
  match l with
  | [] => None
  | (field, ok) :: l' => if ok then first_mismatch l' else Some field
  end.

(** ** Machine integers: naturals with an explicit upper bound *)
Definition u32_max : N := 4294967295%N.
Definition u64_max : N := 18446744073709551615%N.
(** [usize] on the supported 64-bit targets. *)
Definition usize_max : N := u64_max.

Definition checked_add (max a b : N) : option N :=
  if bool_decide (a + b ≤ max)%N then Some (a + b)%N else None.

Definition checked_sub (a b : N) : option N :=
  if bool_decide (b ≤ a)%N then Some (a - b)%N else None.

Definition try_from (max n : N) : option N :=
  if bool_decide (n ≤ max)%N then Some n else None.

Definition len {A : Type} (l : list A) : N := N.of_nat (length l).
Definition strlen (s : string) : N := N.of_nat (String.length s).
Definition is_empty (s : string) : bool := bool_decide (s = EmptyString).

(** ** Ordered maps and sets: [BTreeMap]/[BTreeSet] keyed by strings are [gmap]/[gset],
    traversed in the byte-wise order of Rust's [Ord for str]. *)
Definition btree_keys {V : Type} (m : gmap string V) : list string :=
  merge_sort String.le (map_to_list m).*1.

Definition btree_entries {V : Type} (m : gmap string V) : list (string * V) :=
  omap (λ k, v ← m !! k; Some (k, v)) (btree_keys m).

Definition btree_values {V : Type} (m : gmap string V) : list V :=
  (btree_entries m).*2.

Definition bset_elements (s : gset string) : list string :=
  merge_sort String.le (elements s).

Definition pop_first (s : gset string) : option (string * gset string) :=
  match bset_elements s with
  | [] => None
  | x :: _ => Some (x, s ∖ {[x]})
  end.

(** [Vec::dedup]: drop an element equal to its predecessor. *)
Fixpoint dedup {A} `{EqDecision A} (l : list A) : list A :=
  match l with
  | a :: ((b :: _) as l') => if bool_decide (a = b) then dedup l' else a :: dedup l'
  | _ => l
  end.

(** ** Automation *)

(** Read a monadic or guarded computation known to return [Ok], [Err] or [Panic]. *)
Ltac res_step :=
  match goal with
  | H : Ok _ = Ok _ |- _ => injection H as H; subst
  | H : Err _ = Err _ |- _ => injection H as H; subst
  | H : Ok _ = Err _ |- _ => discriminate H
  | H : Ok _ = Panic _ |- _ => discriminate H
  | H : Err _ = Ok _ |- _ => discriminate H
  | H : Err _ = Panic _ |- _ => discriminate H
  | H : Panic _ = Ok _ |- _ => discriminate H
  | H : Panic _ = Err _ |- _ => discriminate H
  | H : Some _ = Some _ |- _ => injection H as H; subst
  | H : Some _ = None |- _ => discriminate H
  | H : None = Some _ |- _ => discriminate H
  | H : ¬ (_ ≠ _) |- _ => apply dec_stable in H
  | H : rbind ?c _ = _ |- _ => destruct c eqn:?; cbn [rbind] in H
  | H : map_err _ ?c = _ |- _ => destruct c eqn:?; cbn [map_err] in H
  | H : ok_or ?o _ = _ |- _ => destruct o eqn:?; cbn [ok_or] in H
  | H : expect ?o _ = _ |- _ => destruct o eqn:?; cbn [expect] in H
  | H : (if bool_decide ?P then _ else _) = _ |- _ =>
      let Hb := fresh "Hb" in
      destruct (decide P) as [Hb|Hb];
      [rewrite (bool_decide_eq_true_2 _ Hb) in H | rewrite (bool_decide_eq_false_2 _ Hb) in H]
  | H : (if ?b then _ else _) = _ |- _ => destruct b eqn:?
  | H : (match ?o with Some _ => _ | None => _ end) = _ |- _ => destruct o eqn:?
  end.

Ltac res_inv := repeat res_step; simplify_eq.

(** Case on every test a goal is guarded by. *)
Ltac res_cases :=
  repeat match goal with
  | |- context [if ?b then _ else _] => destruct b eqn:?
  | |- context [match ?o with Some _ => _ | None => _ end] => destruct o eqn:?
  end.

Create HintDb rust discriminated.
#[export] Hint Constants Opaque : rust.
#[export] Hint Variables Opaque : rust.

(** ** Results *)

Lemma rbind_ok {E A B : Type} (c : res E A) (k : A → res E B) b :
  rbind c k = Ok b ↔ ∃ a, c = Ok a ∧ k a = Ok b.
Proof.
  split.
  - destruct c as [a| |]; simpl; [|done|done]. by exists a.
  - intros (a & -> & Hk). done.
Qed.

Lemma map_err_ok {E F A : Type} (f : E → F) (c : res E A) a :
  map_err f c = Ok a ↔ c = Ok a.
Proof. destruct c; simpl; split; congruence. Qed.

Lemma no_panic_bind {E A B : Type} (c : res E A) (k : A → res E B) :
  no_panic c → (∀ a, c = Ok a → no_panic (k a)) → no_panic (rbind c k).
Proof. intros Hc Hk. destruct c; simpl; [by apply Hk|done|]. by destruct (Hc why). Qed.

Lemma no_panic_map_err {E F A : Type} (f : E → F) (c : res E A) :
  no_panic c → no_panic (map_err f c).
Proof. intros Hc. destruct c; simpl; [done|done|]. by destruct (Hc why). Qed.

Lemma no_panic_ok {E A : Type} (a : A) : no_panic (Ok a : res E A).
Proof. done. Qed.

Lemma no_panic_err {E A : Type} (e : E) : no_panic (Err e : res E A).
Proof. done. Qed.

Lemma no_panic_ok_or {E A : Type} (o : option A) (e : E) : no_panic (ok_or o e).
Proof. by destruct o. Qed.

Lemma no_panic_if {E A : Type} (b : bool) (c d : res E A) :
  no_panic c → no_panic d → no_panic (if b then c else d).
Proof. by destruct b. Qed.

#[export] Hint Resolve no_panic_ok no_panic_err no_panic_ok_or no_panic_map_err : rust.

Lemma for_each_app {E S A : Type} (f : S → A → res E S) l1 l2 s :
  for_each f (l1 ++ l2) s = rbind (for_each f l1 s) (for_each f l2).
Proof.
  revert s. induction l1 as [|a l1 IH]; intros s; simpl; [done|].
  destruct (f s a); simpl; auto.
Qed.

(** Loop rule: an invariant of the consumed prefix. *)
Lemma for_each_inv {E S A : Type} (f : S → A → res E S) (I : list A → S → Prop) l s s' :
  I [] s →
  (∀ pre a rest t t', l = pre ++ a :: rest → I pre t → f t a = Ok t' → I (pre ++ [a]) t') →
  for_each f l s = Ok s' → I l s'.
Proof.
  intros H0 Hstep.
  assert (Hgen : ∀ rest pre t, l = pre ++ rest → I pre t →
            for_each f rest t = Ok s' → I l s').
  { induction rest as [|a rest IH]; intros pre t Hl HI Hrun; simpl in Hrun.
    - injection Hrun as ->. by rewrite Hl, app_nil_r.
    - apply rbind_ok in Hrun as (t' & Ht' & Hrun).
      apply (IH (pre ++ [a]) t'); [by rewrite <-app_assoc|by eapply Hstep|done]. }
  intros Hrun. by apply (Hgen l [] s).
Qed.

(** A loop whose every pass succeeds and keeps the invariant succeeds. *)
Lemma for_each_ok {E S A : Type} (f : S → A → res E S) (I : list A → S → Prop) l s :
  I [] s →
  (∀ pre a rest t, l = pre ++ a :: rest → I pre t → ∃ t', f t a = Ok t' ∧ I (pre ++ [a]) t') →
  ∃ s', for_each f l s = Ok s' ∧ I l s'.
Proof.
  intros H0 Hstep.
  assert (Hgen : ∀ rest pre t, l = pre ++ rest → I pre t →
            ∃ s', for_each f rest t = Ok s' ∧ I l s').
  { induction rest as [|a rest IH]; intros pre t Hl HI; simpl.
    - exists t. by rewrite Hl, app_nil_r.
    - destruct (Hstep pre a rest t Hl HI) as (t' & -> & HI'). simpl.
      apply (IH (pre ++ [a])); [by rewrite <-app_assoc|done]. }
  by apply (Hgen l []).
Qed.

(** A loop that fails stops at its first failing element. *)
Lemma for_each_err {E S A : Type} (f : S → A → res E S) l s e :
  for_each f l s = Err e →
  ∃ pre a rest t, l = pre ++ a :: rest ∧ for_each f pre s = Ok t ∧ f t a = Err e.
Proof.
  revert s. induction l as [|a l IH]; intros s; simpl; [done|].
  destruct (f s a) as [s'|e'|w] eqn:Hf; simpl; [|intros [= ->]; by exists [], a, l, s|done].
  intros (pre & b & rest & t & -> & Hpre & Hb)%IH.
  exists (a :: pre), b, rest, t. simpl. by rewrite Hf.
Qed.

Lemma for_each_panic {E S A : Type} (f : S → A → res E S) l s w :
  for_each f l s = Panic w →
  ∃ pre a rest t, l = pre ++ a :: rest ∧ for_each f pre s = Ok t ∧ f t a = Panic w.
Proof.
  revert s. induction l as [|a l IH]; intros s; simpl; [done|].
  destruct (f s a) as [s'|e'|w'] eqn:Hf; simpl; [|done|intros [= ->]; by exists [], a, l, s].
  intros (pre & b & rest & t & -> & Hpre & Hb)%IH.
  exists (a :: pre), b, rest, t. simpl. by rewrite Hf.
Qed.

Lemma first_mismatch_None l :
  first_mismatch l = None ↔ Forall (λ p, p.2 = true) l.
Proof.
  induction l as [|[f b] l IH]; simpl; [naive_solver|].
  rewrite Forall_cons. destruct b; naive_solver.
Qed.

(** ** Checked arithmetic *)

Lemma checked_add_Some max a b c :
  checked_add max a b = Some c ↔ c = (a + b)%N ∧ (c ≤ max)%N.
Proof. unfold checked_add. case_bool_decide; naive_solver lia. Qed.

Lemma checked_add_None max a b : checked_add max a b = None ↔ (max < a + b)%N.
Proof. unfold checked_add. case_bool_decide; split; try done; lia. Qed.

Lemma checked_sub_Some a b c : checked_sub a b = Some c ↔ c = (a - b)%N ∧ (b ≤ a)%N.
Proof. unfold checked_sub. case_bool_decide; naive_solver lia. Qed.

Lemma try_from_Some max n m : try_from max n = Some m ↔ m = n ∧ (n ≤ max)%N.
Proof. unfold try_from. case_bool_decide; naive_solver lia. Qed.

Lemma is_empty_true s : is_empty s = true ↔ s = EmptyString.
Proof. apply bool_decide_eq_true. Qed.

Lemma is_empty_false s : is_empty s = false ↔ s ≠ EmptyString.
Proof. apply bool_decide_eq_false. Qed.

(** ** Ordered traversal *)

Section btree.
Context {V : Type}.
Implicit Types (m : gmap string V) (k : string) (v : V).

Lemma btree_keys_perm m : btree_keys m ≡ₚ (map_to_list m).*1.
Proof. apply merge_sort_Permutation. Qed.

Lemma elem_of_btree_keys m k : k ∈ btree_keys m ↔ is_Some (m !! k).
Proof.
  rewrite btree_keys_perm, list_elem_of_fmap. split.
  - intros ([k' v] & -> & Hin). apply elem_of_map_to_list in Hin. by exists v.
  - intros [v Hv]. exists (k, v). by rewrite elem_of_map_to_list.
Qed.

Lemma NoDup_btree_keys m : NoDup (btree_keys m).
Proof. rewrite btree_keys_perm. apply NoDup_fst_map_to_list. Qed.

Lemma btree_keys_sorted m : StronglySorted String.le (btree_keys m).
Proof. apply (StronglySorted_merge_sort String.le). Qed.

Lemma length_btree_keys m : length (btree_keys m) = size m.
Proof. by rewrite btree_keys_perm, length_fmap, length_map_to_list. Qed.

Lemma btree_entries_keys m : (btree_entries m).*1 = btree_keys m.
Proof.
  unfold btree_entries.
  assert (H : ∀ k, k ∈ btree_keys m → is_Some (m !! k)) by (intros k; apply elem_of_btree_keys).
  revert H. generalize (btree_keys m). intros l Hl.
  induction l as [|k l IH]; [done|]. simpl.
  destruct (Hl k) as [v Hv]; [left|]. rewrite Hv. simpl. f_equal.
  apply IH. intros k' Hk'. apply Hl. by right.
Qed.

Lemma elem_of_btree_entries m k v : (k, v) ∈ btree_entries m ↔ m !! k = Some v.
Proof.
  unfold btree_entries. rewrite list_elem_of_omap. split.
  - intros (k' & _ & Hk'). by destruct (m !! k') eqn:E; simplify_eq/=.
  - intros Hv. exists k. rewrite elem_of_btree_keys, Hv. naive_solver.
Qed.

Lemma NoDup_btree_entries m : NoDup (btree_entries m).
Proof. apply (NoDup_fmap_1 fst). rewrite btree_entries_keys. apply NoDup_btree_keys. Qed.

Lemma elem_of_btree_values m v : v ∈ btree_values m ↔ ∃ k, m !! k = Some v.
Proof.
  unfold btree_values. rewrite list_elem_of_fmap. split.
  - intros ([k v'] & -> & Hin). exists k. by apply elem_of_btree_entries.
  - intros [k Hk]. exists (k, v). by rewrite elem_of_btree_entries.
Qed.

Lemma length_btree_entries m : length (btree_entries m) = size m.
Proof. by rewrite <-(length_fmap fst), btree_entries_keys, length_btree_keys. Qed.

End btree.

Lemma elem_of_bset_elements (s : gset string) x : x ∈ bset_elements s ↔ x ∈ s.
Proof. unfold bset_elements. rewrite merge_sort_Permutation. apply elem_of_elements. Qed.

Lemma pop_first_None (s : gset string) : pop_first s = None ↔ s = ∅.
Proof.
  unfold pop_first. destruct (bset_elements s) as [|x l] eqn:E; split; try done.
  - intros _. apply set_eq. intros x. rewrite <-elem_of_bset_elements, E. set_solver.
  - intros ->. assert (x ∈ bset_elements ∅) as Hx by (rewrite E; left).
    rewrite elem_of_bset_elements in Hx. set_solver.
Qed.

(** [pop_first] removes the least element. *)
Lemma pop_first_Some (s s' : gset string) x :
  pop_first s = Some (x, s') → x ∈ s ∧ s' = s ∖ {[x]} ∧ ∀ y, y ∈ s → String.le x y.
Proof.
  unfold pop_first. destruct (bset_elements s) as [|x0 l] eqn:E; [done|].
  intros [= -> <-]. split_and!; [|done|].
  - apply elem_of_bset_elements. rewrite E. left.
  - intros y Hy. apply elem_of_bset_elements in Hy. rewrite E in Hy.
    pose proof (StronglySorted_merge_sort String.le (elements s)) as Hs.
    fold (bset_elements s) in Hs. rewrite E in Hs.
    apply StronglySorted_inv in Hs as [_ Hall]. rewrite Forall_forall in Hall.
    apply elem_of_cons in Hy as [->|Hy]; [done|]. by apply Hall.
Qed.

(** Read the checked operations that succeeded. *)
Ltac checked_inv :=
  repeat match goal with
  | H : checked_add _ _ _ = Some _ |- _ => apply checked_add_Some in H as [? ?]; subst
  | H : checked_sub _ _ = Some _ |- _ => apply checked_sub_Some in H as [? ?]; subst
  | H : try_from _ _ = Some _ |- _ => apply try_from_Some in H as [? ?]; subst
  end.

(** Read boolean connectives and decided propositions. *)
Ltac bool_inv :=
  repeat match goal with
  | H : _ || _ = false |- _ => apply orb_false_iff in H as [? ?]
  | H : _ && _ = true |- _ => apply andb_true_iff in H as [? ?]
  | H : negb _ = false |- _ => apply negb_false_iff in H
  | H : negb _ = true |- _ => apply negb_true_iff in H
  | H : bool_decide _ = true |- _ => apply bool_decide_eq_true_1 in H
  | H : bool_decide _ = false |- _ => apply bool_decide_eq_false_1 in H
  | H : ¬ is_Some _ |- _ => apply eq_None_not_Some in H
  | H : ¬ (_ ≠ _) |- _ => apply dec_stable in H
  end.

Lemma btree_entries_perm {V} (m : gmap string V) : btree_entries m ≡ₚ map_to_list m.
Proof.
  apply NoDup_Permutation; [apply NoDup_btree_entries|apply NoDup_map_to_list|].
  intros [k v]. by rewrite elem_of_btree_entries, elem_of_map_to_list.
Qed.

Lemma btree_values_insert {V} (m : gmap string V) k v :
  m !! k = None → btree_values (<[k := v]> m) ≡ₚ v :: btree_values m.
Proof.
  intros Hk. unfold btree_values. by rewrite !btree_entries_perm, map_to_list_insert.
Qed.

Lemma btree_values_update {V} (m : gmap string V) k v v' :
  m !! k = Some v →
  ∃ l, btree_values m ≡ₚ v :: l ∧ btree_values (<[k := v']> m) ≡ₚ v' :: l.
Proof.
  intros Hk. exists (btree_values (delete k m)).
  rewrite <-(btree_values_insert (delete k m) k v), <-(btree_values_insert (delete k m) k v')
    by apply lookup_delete_eq.
  by rewrite insert_delete_id, insert_delete_eq.
Qed.

(** ** Sorting and removing repeats *)

Lemma elem_of_dedup {A} `{EqDecision A} (l : list A) x : x ∈ dedup l ↔ x ∈ l.
Proof.
  induction l as [|a [|b l] IH]; [done..|].
  change (dedup (a :: b :: l))
    with (if bool_decide (a = b) then dedup (b :: l) else a :: dedup (b :: l)).
  case_bool_decide as Hab; rewrite ?elem_of_cons, IH, !elem_of_cons; naive_solver.
Qed.

Lemma dedup_cons {A} `{EqDecision A} (a b : A) l :
  dedup (a :: b :: l) = if bool_decide (a = b) then dedup (b :: l) else a :: dedup (b :: l).
Proof. done. Qed.

(** Removing repeats from a sorted list leaves a strictly sorted list. *)
Lemma dedup_sorted {A} `{EqDecision A} (R : A → A → Prop) `{!AntiSymm (=) R} l :
  StronglySorted R l → StronglySorted R (dedup l) ∧ NoDup (dedup l).
Proof.
  induction l as [|a [|b l] IH]; [repeat constructor|intros _; repeat constructor; set_solver|].
  intros Hs. apply StronglySorted_inv in Hs as [Hs Ha]. destruct (IH Hs) as [IHs IHn].
  rewrite dedup_cons. case_bool_decide as Hab; [done|].
  assert (Ha' : Forall (R a) (dedup (b :: l))).
  { rewrite Forall_forall in Ha |- *. intros x. rewrite elem_of_dedup. apply Ha. }
  split; [by constructor|]. constructor; [|done]. rewrite elem_of_dedup.
  intros [->|Hin]%elem_of_cons; [done|]. apply Hab.
  apply StronglySorted_inv in Hs as [_ Hb]. rewrite Forall_forall in Ha, Hb.
  apply (anti_symm R); [apply Ha; left|by apply Hb].
Qed.

(** The result depends on the elements only. *)
Lemma dedup_sort_ext {A} `{EqDecision A} (R : A → A → Prop) `{!RelDecision R, !Transitive R,
    !Total R, !AntiSymm (=) R} l1 l2 :
  (∀ x, x ∈ l1 ↔ x ∈ l2) → dedup (merge_sort R l1) = dedup (merge_sort R l2).
Proof.
  intros Hl.
  destruct (dedup_sorted R (merge_sort R l1)) as [S1 N1]; [by apply StronglySorted_merge_sort|].
  destruct (dedup_sorted R (merge_sort R l2)) as [S2 N2]; [by apply StronglySorted_merge_sort|].
  apply (StronglySorted_unique R); [done..|]. apply NoDup_Permutation; [done..|].
  intros x. by rewrite !elem_of_dedup, !merge_sort_Permutation.
Qed.

(** Rust's comparisons: [Ordering::then_with], lawful comparison functions and the order they
    sort by, and [f64] held by its IEEE-754 bits with [total_cmp]. *)

(** ** Comparison functions *)

Definition then_with (a b : comparison) : comparison :=
  match a with Eq => b | _ => a end.

(** The order [sort_by] sorts by. *)
Definition cmp_le {A} (cmp : A → A → comparison) (a b : A) : Prop := cmp a b ≠ Gt.
#[export] Instance cmp_le_dec {A} (cmp : A → A → comparison) : RelDecision (cmp_le cmp).
Proof. intros a b. unfold cmp_le. apply _. Defined.

(** [slice::sort_by]. *)
Definition sort_by {A} (cmp : A → A → comparison) (l : list A) : list A := merge_sort (cmp_le cmp) l.

(** What [sort_by] asks of its comparison: a total preorder. *)
Class Lawful {A} (cmp : A → A → comparison) : Prop := {
  lawful_opp a b : cmp b a = CompOpp (cmp a b);
  lawful_trans a b c : cmp a b ≠ Gt → cmp b c ≠ Gt → cmp a c ≠ Gt;
}.
#[export] Hint Mode Lawful + ! : typeclass_instances.

Definition on {A B} (f : A → B) (cmp : B → B → comparison) (a a' : A) : comparison := cmp (f a) (f a').
Definition desc {A} (cmp : A → A → comparison) (a a' : A) : comparison := cmp a' a.
Definition lexi {A} (cmp1 cmp2 : A → A → comparison) (a a' : A) : comparison :=
  then_with (cmp1 a a') (cmp2 a a').
(** [None] after every [Some]. *)
Definition none_last {A} (cmp : A → A → comparison) (o o' : option A) : comparison :=
  match o, o' with
  | Some a, Some a' => cmp a a'
  | Some _, None => Lt
  | None, Some _ => Gt
  | None, None => Eq
  end.

#[global] Typeclasses Opaque on desc lexi none_last.

(** ** [f64] *)

(** The 64 bits of an IEEE-754 double. *)
Definition f64 : Type := N.
Definition f64_sign (v : f64) : bool := N.testbit v 63.
Definition f64_magnitude (v : f64) : N := (v mod 9223372036854775808)%N.
Definition f64_infinity : N := 9218868437227405312%N.
Definition f64_one : f64 := 4607182418800017408%N.

(** [f64::is_finite]: the exponent is not all ones. *)
Definition is_finite (v : f64) : bool := bool_decide (f64_magnitude v < f64_infinity)%N.
Definition is_nan (v : f64) : bool := bool_decide (f64_infinity < f64_magnitude v)%N.

(** [f64::total_cmp]: the bits as [i64], the lower 63 flipped when the sign bit is set. *)
Definition total_key (v : f64) : Z :=
  if f64_sign v then (- Z.of_N (f64_magnitude v) - 1)%Z else Z.of_N (f64_magnitude v).
Definition total_cmp : f64 → f64 → comparison := on total_key Z.compare.

(** [v == 0.0], [v < 0.0], [v <= w]: both zeros are equal and NaN is unordered. *)
Definition is_zero (v : f64) : bool := bool_decide (f64_magnitude v = 0)%N.
Definition f64_lt_zero (v : f64) : bool := f64_sign v && negb (is_zero v) && negb (is_nan v).
Definition f64_le (v w : f64) : bool :=
  negb (is_nan v) && negb (is_nan w) &&
  (is_zero v && is_zero w || bool_decide (total_key v ≤ total_key w)%Z).

(** ** Lemmas *)

Section lawful.
Context {A : Type}.

Lemma lawful_swap (cmp : A → A → comparison) `{!Lawful cmp} a b : cmp a b = Gt ↔ cmp b a = Lt.
Proof. rewrite (lawful_opp (cmp := cmp) b a). destruct (cmp b a); naive_solver. Qed.

#[global] Instance lawful_on {B} (f : A → B) (cmp : B → B → comparison) `{!Lawful cmp} :
  Lawful (on f cmp).
Proof. split; unfold on; intros *; [apply (lawful_opp (cmp := cmp))|apply (lawful_trans (cmp := cmp))]. Qed.

#[global] Instance lawful_desc (cmp : A → A → comparison) `{!Lawful cmp} : Lawful (desc cmp).
Proof.
  split; unfold desc; intros *; [apply (lawful_opp (cmp := cmp))|].
  intros H1 H2. by apply (lawful_trans (cmp := cmp) c b a).
Qed.

#[global] Instance lawful_lexi (cmp1 cmp2 : A → A → comparison) `{!Lawful cmp1, !Lawful cmp2} :
  Lawful (lexi cmp1 cmp2).
Proof.
  split; unfold lexi, then_with.
  - intros a b. rewrite (lawful_opp (cmp := cmp1) a b), (lawful_opp (cmp := cmp2) a b).
    by destruct (cmp1 a b).
  - intros a b c Hab Hbc.
    assert (H1 : cmp1 a b ≠ Gt) by (destruct (cmp1 a b); [done..|]; by destruct Hab).
    assert (H2 : cmp1 b c ≠ Gt) by (destruct (cmp1 b c); [done..|]; by destruct Hbc).
    pose proof (lawful_trans (cmp := cmp1) a b c H1 H2) as H3.
    destruct (cmp1 a c) eqn:Hac; [|done..].
    assert (Hca : cmp1 c a ≠ Gt) by (rewrite (lawful_opp (cmp := cmp1) a c), Hac; done).
    assert (cmp1 b a ≠ Gt) by by apply (lawful_trans (cmp := cmp1) b c a).
    assert (cmp1 c b ≠ Gt) by by apply (lawful_trans (cmp := cmp1) c a b).
    rewrite (lawful_opp (cmp := cmp1) a b) in *. rewrite (lawful_opp (cmp := cmp1) b c) in *.
    destruct (cmp1 a b), (cmp1 b c); try done. by apply (lawful_trans (cmp := cmp2) a b c).
Qed.

#[global] Instance lawful_none_last (cmp : A → A → comparison) `{!Lawful cmp} :
  Lawful (none_last cmp).
Proof.
  split; unfold none_last.
  - intros [a|] [b|]; try done. apply (lawful_opp (cmp := cmp)).
  - intros [a|] [b|] [c|]; try done. apply (lawful_trans (cmp := cmp)).
Qed.

#[global] Instance cmp_le_trans (cmp : A → A → comparison) `{!Lawful cmp} : Transitive (cmp_le cmp).
Proof. intros a b c. apply (lawful_trans (cmp := cmp)). Qed.
#[global] Instance cmp_le_total (cmp : A → A → comparison) `{!Lawful cmp} : Total (cmp_le cmp).
Proof. intros a b. unfold cmp_le. rewrite (lawful_opp (cmp := cmp) a b). destruct (cmp a b); cbn; auto. Qed.

Lemma sort_by_sorted (cmp : A → A → comparison) `{!Lawful cmp} l :
  StronglySorted (cmp_le cmp) (sort_by cmp l).
Proof. apply StronglySorted_merge_sort; apply _. Qed.

Lemma sort_by_perm (cmp : A → A → comparison) l : sort_by cmp l ≡ₚ l.
Proof. apply merge_sort_Permutation. Qed.

End lawful.

#[export] Instance lawful_N : Lawful N.compare.
Proof.
  split; intros *; [apply N.compare_antisym|]. rewrite !N.compare_ngt_iff. lia.
Qed.
#[export] Instance lawful_Z : Lawful Z.compare.
Proof.
  split; intros *; [apply Z.compare_antisym|]. rewrite !Z.compare_ngt_iff. lia.
Qed.
#[export] Instance lawful_string : Lawful String.compare.
Proof.
  split; intros a b; [apply String.compare_antisym|]. intros c.
  assert (Hle : ∀ s t, String.compare s t ≠ Gt ↔ String.le s t).
  { intros s t. unfold String.le, String.leb. destruct (String.compare s t); naive_solver. }
  rewrite !Hle. apply transitivity.
Qed.
#[export] Instance lawful_total_cmp : Lawful total_cmp.
Proof. unfold total_cmp. apply _. Qed.
