(* ===== verification/Program.v ===== *)
(** Programs over a shared machine: the runtime's operations drive a store and external
    collaborators (event factory, adapters, verifiers, providers) through mutable borrows, may
    fail between two calls, and may lose the process at any moment.

    A program is a tree of atomic steps on the machine state.  [run] executes it to its end,
    [states] lists every state the machine passes through, which are the states a crash can
    leave behind.  [along I Q] is the program logic: [I] holds after every step, [Q] at the
    end. *)

From S2P Require Import Prelude.

Inductive prog (M A : Type) : Type :=
| Ret (a : A)
| Step (X : Type) (f : M → X * M) (k : X → prog M A).
Arguments Ret {M A} a.
Arguments Step {M A X} f k.

Section prog.
Context {M : Type}.

Fixpoint bind {A B} (p : prog M A) (k : A → prog M B) : prog M B :=
  match p with
  | Ret a => k a
  | Step f j => Step f (λ x, bind (j x) k)
  end.

Fixpoint run {A} (p : prog M A) (m : M) : A * M :=
  match p with
  | Ret a => (a, m)
  | Step f k => let '(x, m') := f m in run (k x) m'
  end.

(** The states after each step. *)
Fixpoint states {A} (p : prog M A) (m : M) : list M :=
  match p with
  | Ret _ => []
  | Step f k => let '(x, m') := f m in m' :: states (k x) m'
  end.

(** The states the machine is in when the process dies before, during or after the program. *)
Definition stops {A} (p : prog M A) (m m' : M) : Prop := m' = m ∨ m' ∈ states p m.

Fixpoint along {A} (I : M → Prop) (Q : A → M → Prop) (p : prog M A) (m : M) : Prop :=
  match p with
  | Ret a => Q a m
  | Step f k => let '(x, m') := f m in I m' ∧ along I Q (k x) m'
  end.

(** ** Fallible programs: [?] over a call that may change the machine *)

Definition pbind {E A B} (p : prog M (res E A)) (k : A → prog M (res E B)) : prog M (res E B) :=
  bind p (λ r, match r with
               | Ok a => k a
               | Err e => Ret (Err e)
               | Panic why => Ret (Panic why)
               end).

Definition pmap_err {E F A} (f : E → F) (p : prog M (res E A)) : prog M (res F A) :=
  bind p (λ r, Ret (map_err f r)).

(** One atomic call. *)
Definition call {X} (f : M → X * M) : prog M X := Step f Ret.
End prog.

Notation "'let!' x ':=' c 'in' k" := (pbind c (λ x, k))
  (at level 10, x pattern, c at level 100, k at level 200,
   format "'[hv' 'let!'  x  ':='  c  'in'  '/' k ']'") : rust_scope.

(** A pure [?] inside a program. *)
Notation "'try' x ':=' c 'in' k" :=
  (match c with Ok x => k | Err e => Ret (Err e) | Panic why => Ret (Panic why) end)
  (at level 10, x pattern, c at level 100, k at level 200,
   format "'[hv' 'try'  x  ':='  c  'in'  '/' k ']'") : rust_scope.

Notation "'stop_if' b 'with' e ';;' k" := (if b then Ret (Err e) else k)
  (at level 10, b at level 99, e at level 99, k at level 200,
   format "'[v' 'stop_if'  b  'with'  e  ';;' '/' k ']'") : rust_scope.

(** ** Laws *)

Section laws.
Context {M : Type}.

Lemma run_bind {A B} (p : prog M A) (k : A → prog M B) m :
  run (bind p k) m = run (k (run p m).1) (run p m).2.
Proof.
  revert m. induction p as [a|X f j IH]; intros m; cbn; [done|].
  destruct (f m) as [x m']. apply IH.
Qed.

Lemma states_bind {A B} (p : prog M A) (k : A → prog M B) m :
  states (bind p k) m = states p m ++ states (k (run p m).1) (run p m).2.
Proof.
  revert m. induction p as [a|X f j IH]; intros m; cbn; [done|].
  destruct (f m) as [x m']. cbn. f_equal. apply IH.
Qed.

Lemma run_pbind {E A B} (p : prog M (res E A)) (k : A → prog M (res E B)) m :
  run (pbind p k) m =
    match (run p m).1 with
    | Ok a => run (k a) (run p m).2
    | Err e => (Err e, (run p m).2)
    | Panic why => (Panic why, (run p m).2)
    end.
Proof. unfold pbind. rewrite run_bind. by destruct (run p m).1. Qed.

Lemma run_pmap_err {E F A} (f : E → F) (p : prog M (res E A)) m :
  run (pmap_err f p) m = (map_err f (run p m).1, (run p m).2).
Proof. unfold pmap_err. by rewrite run_bind. Qed.

Lemma along_bind {A B} I Q (p : prog M A) (k : A → prog M B) m :
  along I Q (bind p k) m ↔ along I (λ a m', along I Q (k a) m') p m.
Proof.
  revert m. induction p as [a|X f j IH]; intros m; cbn; [done|].
  destruct (f m) as [x m']. by rewrite IH.
Qed.

Lemma along_weaken {A} (I I' : M → Prop) (Q Q' : A → M → Prop) (p : prog M A) m :
  (∀ m', I m' → I' m') → (∀ a m', Q a m' → Q' a m') → along I Q p m → along I' Q' p m.
Proof.
  intros HI HQ. revert m. induction p as [a|X f j IH]; intros m; cbn; [apply HQ|].
  destruct (f m) as [x m']. intros [Hm Hk]. split; [by apply HI|by apply IH].
Qed.

(** The postcondition may use the invariant of the last state. *)
Lemma along_end {A} (I : M → Prop) (Q : A → M → Prop) (p : prog M A) m :
  I m → along I Q p m → along I (λ a m', Q a m' ∧ I m') p m.
Proof.
  revert m. induction p as [a|X f j IH]; intros m Hm; cbn; [done|].
  destruct (f m) as [x m']. intros [Hm' Hk]. split; [done|by apply IH].
Qed.

Lemma along_run {A} (I : M → Prop) (Q : A → M → Prop) (p : prog M A) m :
  along I Q p m → Q (run p m).1 (run p m).2.
Proof.
  revert m. induction p as [a|X f j IH]; intros m; cbn; [done|].
  destruct (f m) as [x m']. intros [_ Hk]. by apply IH.
Qed.

Lemma along_states {A} (I : M → Prop) (Q : A → M → Prop) (p : prog M A) m m' :
  along I Q p m → m' ∈ states p m → I m'.
Proof.
  revert m. induction p as [a|X f j IH]; intros m; cbn; [by intros _ ?%elem_of_nil|].
  destruct (f m) as [x m1]. intros [Hm1 Hk] [->|Hin]%elem_of_cons; [done|by eapply IH].
Qed.

Lemma along_stops {A} (I : M → Prop) (Q : A → M → Prop) (p : prog M A) m m' :
  I m → along I Q p m → stops p m m' → I m'.
Proof. intros Hm Hp [->|Hin]; [done|by eapply along_states]. Qed.

(** What the program's states and result satisfy, it satisfies along. *)
Lemma along_intro {A} (I : M → Prop) (Q : A → M → Prop) (p : prog M A) m :
  (∀ m', m' ∈ states p m → I m') → Q (run p m).1 (run p m).2 → along I Q p m.
Proof.
  revert m. induction p as [a|X f j IH]; intros m; cbn; [done|].
  destruct (f m) as [x m1]. intros Hs HQ. split; [apply Hs; left|].
  apply IH; [|done]. intros m' Hm'. apply Hs. by right.
Qed.

Lemma along_true {A} (p : prog M A) m : along (λ _, True) (λ _ _, True) p m.
Proof. by apply along_intro. Qed.

Lemma along_pbind {E A B} I Q (p : prog M (res E A)) (k : A → prog M (res E B)) m :
  along I Q (pbind p k) m ↔
  along I (λ r m', match r with
                   | Ok a => along I Q (k a) m'
                   | Err e => Q (Err e) m'
                   | Panic why => Q (Panic why) m'
                   end) p m.
Proof.
  unfold pbind. rewrite along_bind. split; apply along_weaken; try done; by intros [].
Qed.

Lemma along_pmap_err {E F A} I Q (f : E → F) (p : prog M (res E A)) m :
  along I Q (pmap_err f p) m ↔ along I (λ r m', Q (map_err f r) m') p m.
Proof. unfold pmap_err. apply along_bind. Qed.

Lemma stops_run {A} (p : prog M A) m : stops p m (run p m).2.
Proof.
  unfold stops. revert m. induction p as [a|X f j IH]; intros m; cbn; [by left|].
  destruct (f m) as [x m']. right. destruct (IH x m') as [->|Hin]; [left|by right].
Qed.
End laws.

(** Programs that run concurrently on one machine: their steps interleave, any of them may die
    between two steps, and other clients change the machine in between.

    [safe] is a rely-guarantee logic with tokens.  Between two of its steps a program may rely
    on [Inv] and [Rely] only.  Each of its steps must keep [Inv] and [Rely] and pay for what it
    spends: a step may spend [n] of a resource when it gives up [n] tokens of it, and it gets
    tokens by raising the credit.  Whatever interleaves, no more is spent than was credited. *)

(** Tokens of the resource named by a string. *)
Definition tokens : Type := string → N.
Definition no_tokens : tokens := λ _, 0%N.

Fixpoint total (l : list tokens) (e : string) : N :=
  match l with
  | [] => 0
  | t :: l => t e + total l e
  end.

Lemma total_app l1 l2 e : total (l1 ++ l2) e = (total l1 e + total l2 e)%N.
Proof. induction l1 as [|t l1 IH]; cbn; [done|]. rewrite IH. lia. Qed.

Section safety.
Context {M : Type} (Inv : M → Prop) (Rely : M → M → Prop) (credit spent : M → tokens).
Context `{!PreOrder Rely}.

(** One step of a program that held [t] and holds [t'] after it. *)
Definition allowed (t t' : tokens) (m m' : M) : Prop :=
  Inv m' ∧ Rely m m' ∧ ∀ e, (spent m' e + t' e + credit m e ≤ spent m e + t e + credit m' e)%N.

Lemma allowed_intro t t' m m' :
  Inv m' → Rely m m' →
  (∀ e, (spent m' e + t' e + credit m e ≤ spent m e + t e + credit m' e)%N) → allowed t t' m m'.
Proof. done. Qed.

Lemma allowed_refl t m : Inv m → allowed t t m m.
Proof. intros Hm. apply allowed_intro; [done|done|lia]. Qed.

Fixpoint safe {A} (Q : A → tokens → M → Prop) (p : prog M A) (t : tokens) (m0 : M) : Prop :=
  match p with
  | Ret a => Q a t m0
  | Step f k => ∀ m, Inv m → Rely m0 m →
      let '(x, m') := f m in ∃ t', allowed t t' m m' ∧ safe Q (k x) t' m'
  end.

Lemma safe_bind {A B} Q (p : prog M A) (k : A → prog M B) t m :
  safe (λ a, safe Q (k a)) p t m → safe Q (bind p k) t m.
Proof.
  revert t m. induction p as [a|X f j IH]; intros t m0; cbn; [done|].
  intros Hs m Hm Hr. specialize (Hs m Hm Hr). destruct (f m) as [x m'].
  destruct Hs as (t' & Ha & Hs). exists t'. auto.
Qed.

Lemma safe_weaken {A} (Q Q' : A → tokens → M → Prop) (p : prog M A) t m :
  (∀ a t' m', Q a t' m' → Q' a t' m') → safe Q p t m → safe Q' p t m.
Proof.
  intros HQ. revert t m. induction p as [a|X f j IH]; intros t m0; cbn; [apply HQ|].
  intros Hs m Hm Hr. specialize (Hs m Hm Hr). destruct (f m) as [x m'].
  destruct Hs as (t' & Ha & Hs). exists t'. auto.
Qed.

Lemma safe_pbind {E A B} Q (p : prog M (res E A)) (k : A → prog M (res E B)) t m :
  safe (λ r t' m', match r with
                   | Ok a => safe Q (k a) t' m'
                   | Err e => Q (Err e) t' m'
                   | Panic why => Q (Panic why) t' m'
                   end) p t m →
  safe Q (pbind p k) t m.
Proof. intros Hs. apply safe_bind. eapply safe_weaken; [|exact Hs]. by intros []. Qed.

Lemma safe_pmap_err {E F A} Q (f : E → F) (p : prog M (res E A)) t m :
  safe (λ r, Q (map_err f r)) p t m → safe Q (pmap_err f p) t m.
Proof. intros Hs. apply safe_bind. by eapply safe_weaken; [|exact Hs]. Qed.

Lemma safe_call {X} Q (f : M → X * M) t m0 :
  (∀ m, Inv m → Rely m0 m → ∃ t', allowed t t' m (f m).2 ∧ Q (f m).1 t' (f m).2) →
  safe Q (call f) t m0.
Proof. intros Hf m Hm Hr. specialize (Hf m Hm Hr). by destruct (f m). Qed.

(** A program is safe from every later state. *)
Lemma safe_rely {A} Q (p : prog M A) t m0 m :
  (∀ a t' m1 m2, Rely m1 m2 → Q a t' m1 → Q a t' m2) → Rely m0 m → safe Q p t m0 → safe Q p t m.
Proof.
  intros HQ Hr. destruct p as [a|X f k]; cbn; [by apply HQ|].
  intros Hs m' Hm' Hr'. apply Hs; [done|by etrans].
Qed.

(** ** Pools *)

(** The programs in flight. *)
Abbreviation pool := (list (prog M unit)).

Context (spawns : prog M unit → Prop) (env : M → M → Prop).

Inductive pool_step : pool * M → pool * M → Prop :=
| ps_progress X (f : M → X * M) k ts1 ts2 m x m' : f m = (x, m') →
    pool_step (ts1 ++ Step f k :: ts2, m) (ts1 ++ k x :: ts2, m')
| ps_death p ts1 ts2 m : pool_step (ts1 ++ p :: ts2, m) (ts1 ++ ts2, m)
| ps_spawn p ts m : spawns p → pool_step (ts, m) (p :: ts, m)
| ps_env ts m m' : env m m' → pool_step (ts, m) (ts, m').

Definition anything {A} (_ : A) (_ : tokens) (_ : M) : Prop := True.

(** More tokens never hurt. *)
Lemma safe_more {A} (p : prog M A) t t2 m :
  (∀ e, t e ≤ t2 e)%N → safe anything p t m → safe anything p t2 m.
Proof.
  revert t t2 m. induction p as [a|X f j IH]; intros t t2 m0 Ht; cbn; [done|].
  intros Hs m Hm Hr. specialize (Hs m Hm Hr). destruct (f m) as [x m'].
  destruct Hs as (t' & (Hinv & Hr' & Hle) & Hs). exists (λ e, t' e + (t2 e - t e))%N. split.
  - apply allowed_intro; [done..|]. intros e. specialize (Hle e). specialize (Ht e). lia.
  - eapply IH; [|exact Hs]. intros e. cbn. lia.
Qed.

(** One program after another. *)
Lemma safe_then {A B} (p : prog M A) (k : A → prog M B) m :
  safe anything p no_tokens m → (∀ a m', safe anything (k a) no_tokens m') →
  safe anything (bind p k) no_tokens m.
Proof.
  intros Hp Hk. apply safe_bind. eapply safe_weaken; [|exact Hp]. intros a t' m' _.
  eapply safe_more; [|apply Hk]. intros e. unfold no_tokens. lia.
Qed.

(** What a program run alone leaves. *)
Lemma safe_run {A} (p : prog M A) t m :
  Inv m → safe anything p t m →
  Inv (run p m).2 ∧ Rely m (run p m).2 ∧
  ∀ e, (spent (run p m).2 e + credit m e ≤ spent m e + t e + credit (run p m).2 e)%N.
Proof.
  revert t m. induction p as [a|X f j IH]; intros t m Hm; cbn.
  - intros _. split_and!; [done..|]. lia.
  - intros Hs. specialize (Hs m Hm ltac:(done)). destruct (f m) as [x m'].
    destruct Hs as (t' & (Hinv & Hr & Hle) & Hs). destruct (IH x t' m' Hinv Hs) as (Hi & Hr' & Hle').
    split_and!; [done|by etrans|]. intros e. specialize (Hle e). specialize (Hle' e). lia.
Qed.

Hypothesis spawns_safe : ∀ p m, spawns p → safe anything p no_tokens m.
Hypothesis env_allowed : ∀ m m', Inv m → env m m' → allowed no_tokens no_tokens m m'.

(** Each program in flight is safe with the tokens it holds, and these are covered. *)
Definition pool_ok (c : pool * M) : Prop :=
  Inv c.2 ∧ ∃ held, Forall2 (λ p t, safe anything p t c.2) c.1 held ∧
    ∀ e, (spent c.2 e + total held e ≤ credit c.2 e)%N.

Lemma safe_later (ts : pool) held m m' :
  Rely m m' → Forall2 (λ p t, safe anything p t m) ts held → Forall2 (λ p t, safe anything p t m') ts held.
Proof. intros Hr Hs. eapply Forall2_impl; [exact Hs|]. intros p t. by apply safe_rely. Qed.

Lemma pool_step_ok c c' : pool_ok c → pool_step c c' → pool_ok c'.
Proof.
  intros (Hinv & held & Hsafe & Hsum) Hs. destruct Hs as [X f k ts1 ts2 m x m' Hf|p ts1 ts2 m|p ts m Hp|ts m m' He];
    cbn in *.
  - apply Forall2_app_inv_l in Hsafe as (h1 & h2' & H1 & H2 & ->).
    apply Forall2_cons_inv_l in H2 as (t & h2 & Hp & H2 & ->).
    specialize (Hp m Hinv ltac:(done)). rewrite Hf in Hp.
    destruct Hp as (t' & (Hinv' & Hr & Hle) & Hp). split; [done|]. exists (h1 ++ t' :: h2). split.
    + apply Forall2_app; [by eapply safe_later|]. constructor; [done|by eapply safe_later].
    + intros e. specialize (Hsum e). specialize (Hle e). rewrite total_app in *. cbn in *. lia.
  - apply Forall2_app_inv_l in Hsafe as (h1 & h2' & H1 & H2 & ->).
    apply Forall2_cons_inv_l in H2 as (t & h2 & _ & H2 & ->).
    split; [done|]. exists (h1 ++ h2). split; [by apply Forall2_app|].
    intros e. specialize (Hsum e). rewrite total_app in *. cbn in *. lia.
  - split; [done|]. exists (no_tokens :: held). split; [|done].
    constructor; [by apply spawns_safe|done].
  - destruct (env_allowed _ _ Hinv He) as (Hinv' & Hr & Hle). split; [done|]. exists held.
    split; [by eapply safe_later|]. intros e. specialize (Hsum e). specialize (Hle e).
    unfold no_tokens in Hle. cbn in *. lia.
Qed.

(** What is spent is covered, however the programs interleave. *)
Lemma pool_covered m ts m' :
  Inv m → (∀ e, spent m e ≤ credit m e)%N → rtc pool_step ([], m) (ts, m') →
  Inv m' ∧ ∀ e, (spent m' e ≤ credit m' e)%N.
Proof.
  intros Hm Hle Hs. assert (pool_ok ([], m)) as Hok.
  { split; [done|]. exists []. split; [constructor|]. intros e. cbn. specialize (Hle e). lia. }
  assert (pool_ok (ts, m')) as (Hinv & held & _ & Hsum).
  { clear Hm Hle. remember ([], m) as c. remember (ts, m') as c'. clear Heqc Heqc'.
    induction Hs as [|c1 c2 c3 Hs _ IH]; [done|]. by eapply IH, pool_step_ok. }
  split; [done|]. intros e. specialize (Hsum e). cbn in *. lia.
Qed.
End safety.

(** A program spawned into the pool can run to its end. *)
Lemma pool_runs {M} (spawns : prog M unit → Prop) env (p : prog M unit) m :
  spawns p → rtc (pool_step spawns env) ([], m) ([Ret tt], (run p m).2).
Proof.
  intros Hp. eapply rtc_l; [by apply ps_spawn|]. clear Hp. revert m.
  induction p as [[]|X f k IH]; intros m; cbn [run]; [done|].
  destruct (f m) as [x m'] eqn:Hf. eapply rtc_l; [by apply (ps_progress spawns env X f k [] [] m x m')|]. apply IH.
Qed.
