(* ===== verification/Text.v ===== *)
(** Rust's [str] over UTF-8 bytes: character decoding, [char::is_control], prefixes,
    ASCII classes, lowercase hexadecimal and the shape of a SHA-256 digest.

    A Rust [String] is its UTF-8 byte sequence, held in a Rocq [string]. *)

From Stdlib Require Import Ascii.
From S2P Require Import Prelude.

(** The payload bits of a continuation byte. *)
Definition continuation (a : ascii) : N := (N_of_ascii a mod 64)%N.

(** [str::chars]: the scalar values of a UTF-8 byte string.  A Rust [str] is always
    well formed; a truncated sequence decodes to the replacement character. *)
Fixpoint chars (s : string) : list N :=
  match s with
  | EmptyString => []
  | String a s1 =>
      let b := N_of_ascii a in
      if bool_decide (b < 128)%N then b :: chars s1
      else if bool_decide (b < 224)%N then
        match s1 with
        | String c s2 => ((b mod 32) * 64 + continuation c)%N :: chars s2
        | _ => [65533%N]
        end
      else if bool_decide (b < 240)%N then
        match s1 with
        | String c (String d s3) =>
            ((b mod 16) * 4096 + continuation c * 64 + continuation d)%N :: chars s3
        | _ => [65533%N]
        end
      else
        match s1 with
        | String c (String d (String e s4)) =>
            ((b mod 8) * 262144 + continuation c * 4096
             + continuation d * 64 + continuation e)%N :: chars s4
        | _ => [65533%N]
        end
  end.

(** [char::is_control]: the Unicode general category Cc. *)
Definition is_control (c : N) : bool :=
  bool_decide (c < 32)%N || bool_decide (127 ≤ c ≤ 159)%N.

Definition any_control (s : string) : bool := existsb is_control (chars s).

(** [char::is_whitespace]: the Unicode property White_Space. *)
Definition is_whitespace (c : N) : bool :=
  bool_decide (9 ≤ c ≤ 13)%N || bool_decide (8192 ≤ c ≤ 8202)%N
  || bool_decide (c ∈ [32; 133; 160; 5760; 8232; 8233; 8239; 8287; 12288]%N).

Fixpoint skip_whitespace (l : list N) : list N :=
  match l with
  | c :: l' => if is_whitespace c then skip_whitespace l' else l
  | [] => []
  end.

(** [str::trim], on the decoded characters. *)
Definition trim (l : list N) : list N :=
  reverse (skip_whitespace (reverse (skip_whitespace l))).

Fixpoint all_bytes (f : N → bool) (s : string) : bool :=
  match s with
  | EmptyString => true
  | String a s' => f (N_of_ascii a) && all_bytes f s'
  end.

Fixpoint strip_prefix (p s : string) : option string :=
  match p, s with
  | EmptyString, _ => Some s
  | String a p', String b s' => if bool_decide (a = b) then strip_prefix p' s' else None
  | String _ _, EmptyString => None
  end.

Definition is_ascii_digit (b : N) : bool := bool_decide (48 ≤ b ≤ 57)%N.
Definition is_ascii_lowercase (b : N) : bool := bool_decide (97 ≤ b ≤ 122)%N.
Definition is_ascii_uppercase (b : N) : bool := bool_decide (65 ≤ b ≤ 90)%N.
Definition is_ascii_alphanumeric (b : N) : bool :=
  is_ascii_digit b || is_ascii_lowercase b || is_ascii_uppercase b.
(** [b'a'..=b'f']. *)
Definition is_lower_af (b : N) : bool := bool_decide (97 ≤ b ≤ 102)%N.
(** [b'.' | b'_' | b'-']. *)
Definition is_name_punct (b : N) : bool :=
  bool_decide (b = 46)%N || bool_decide (b = 95)%N || bool_decide (b = 45)%N.

(** [format!("{byte:02x}")]. *)
Definition hex_digit (n : N) : ascii :=
  ascii_of_N (if bool_decide (n < 10)%N then 48 + n else 87 + n)%N.

Fixpoint hex (s : string) : string :=
  match s with
  | EmptyString => EmptyString
  | String a s' =>
      String (hex_digit (N_of_ascii a / 16)) (String (hex_digit (N_of_ascii a mod 16)) (hex s'))
  end.

(** Sixty-four lowercase hexadecimal bytes. *)
Definition is_lower_hex64 (s : string) : bool :=
  bool_decide (strlen s = 64)%N && all_bytes (λ b, is_ascii_digit b || is_lower_af b) s.

(** ** Lemmas *)

Lemma strip_prefix_Some p s t : strip_prefix p s = Some t ↔ s = (p +:+ t)%string.
Proof.
  revert s. induction p as [|a p IH]; intros s; cbn.
  - split; intros H; [by injection H|by rewrite H].
  - destruct s as [|b s]; [split; discriminate|].
    case_bool_decide as Hab; [|split; [discriminate|intros [= -> _]; done]].
    subst b. rewrite IH. split; [by intros ->|by intros [=]].
Qed.

Lemma strip_prefix_app p t : strip_prefix p (p +:+ t)%string = Some t.
Proof. by apply strip_prefix_Some. Qed.

Lemma string_app_inj_r (p s t : string) : (p +:+ s)%string = (p +:+ t)%string → s = t.
Proof. apply (inj (String.append p)). Qed.

Lemma string_app_assoc (a b c : string) : ((a +:+ b) +:+ c = a +:+ (b +:+ c))%string.
Proof.
  induction a as [|x a IH]; [done|].
  change (String x ((a +:+ b) +:+ c) = String x (a +:+ (b +:+ c)))%string. by rewrite IH.
Qed.

Lemma string_app_cons a (s r : string) : (String a s +:+ r = String a (s +:+ r))%string.
Proof. done. Qed.

Lemma string_app_nil (r : string) : (EmptyString +:+ r = r)%string.
Proof. done. Qed.

Lemma string_length_app (s t : string) :
  String.length (s +:+ t) = String.length s + String.length t.
Proof. induction s as [|a s IH]; [done|]. rewrite string_app_cons. cbn. by rewrite IH. Qed.

Lemma all_bytes_app f s t : all_bytes f (s +:+ t) = all_bytes f s && all_bytes f t.
Proof.
  induction s as [|a s IH]; [done|]. rewrite string_app_cons. cbn. by rewrite IH, andb_assoc.
Qed.

Lemma all_bytes_impl (f g : N → bool) s :
  (∀ b, f b = true → g b = true) → all_bytes f s = true → all_bytes g s = true.
Proof. intros Hfg. induction s as [|a s IH]; cbn; [done|]. rewrite !andb_true_iff. naive_solver. Qed.

Lemma length_hex s : String.length (hex s) = 2 * String.length s.
Proof. induction s as [|a s IH]; simpl; [done|]. rewrite IH. lia. Qed.

Lemma N_of_ascii_lt a : (N_of_ascii a < 256)%N.
Proof. apply N_ascii_bounded. Qed.

Lemma hex_digit_class n :
  (n < 16)%N →
  is_ascii_digit (N_of_ascii (hex_digit n)) || is_lower_af (N_of_ascii (hex_digit n)) = true.
Proof.
  intros Hn. unfold hex_digit, is_ascii_digit, is_lower_af.
  rewrite N_ascii_embedding by (case_bool_decide; lia).
  rewrite orb_true_iff, !bool_decide_eq_true. case_bool_decide; lia.
Qed.

Lemma all_bytes_hex s : all_bytes (λ b, is_ascii_digit b || is_lower_af b) (hex s) = true.
Proof.
  induction s as [|a s IH]; [done|].
  cbn [hex all_bytes]. pose proof (N_of_ascii_lt a).
  rewrite !hex_digit_class, IH; [done|..].
  - apply N.mod_lt. done.
  - apply N.Div0.div_lt_upper_bound. lia.
Qed.

Lemma is_lower_hex64_hex s : String.length s = 32 → is_lower_hex64 (hex s) = true.
Proof.
  intros Hs. unfold is_lower_hex64, strlen.
  rewrite length_hex, Hs, all_bytes_hex. done.
Qed.

Lemma hex_digit_inj m n : (m < 16)%N → (n < 16)%N → hex_digit m = hex_digit n → m = n.
Proof.
  intros Hm Hn H. apply (f_equal N_of_ascii) in H. revert H. unfold hex_digit.
  rewrite !N_ascii_embedding by (case_bool_decide; lia).
  do 2 case_bool_decide; lia.
Qed.

(** Hexadecimal encoding loses nothing. *)
Lemma hex_inj s t : hex s = hex t → s = t.
Proof.
  revert t. induction s as [|a s IH]; intros [|b t]; try done.
  cbn [hex]. intros [= H1 H2 H3].
  pose proof (N_of_ascii_lt a). pose proof (N_of_ascii_lt b).
  apply hex_digit_inj in H1; [|by apply N.Div0.div_lt_upper_bound; lia..].
  apply hex_digit_inj in H2; [|by apply N.mod_lt..].
  f_equal; [|by apply IH].
  rewrite <-(ascii_N_embedding a), <-(ascii_N_embedding b). f_equal.
  rewrite (N.div_mod' (N_of_ascii a) 16), (N.div_mod' (N_of_ascii b) 16). congruence.
Qed.

Lemma is_lower_hex64_not_nil s : is_lower_hex64 s = true → s ≠ EmptyString.
Proof. intros H ->. done. Qed.

(** Lowercase hexadecimal is a name. *)
Lemma lower_hex64_name s :
  is_lower_hex64 s = true →
  strlen s = 64%N ∧ all_bytes (λ b, is_ascii_alphanumeric b || is_name_punct b) s = true.
Proof.
  unfold is_lower_hex64. rewrite andb_true_iff, bool_decide_eq_true. intros [Hl Hs].
  split; [done|]. revert Hs. apply all_bytes_impl. intros n.
  unfold is_ascii_alphanumeric, is_ascii_lowercase, is_lower_af.
  rewrite !orb_true_iff, !bool_decide_eq_true. intros [?|?]; [tauto|]. left. left. right. lia.
Qed.

(** A name holds no control character. *)
Lemma name_no_control s :
  all_bytes (λ b, is_ascii_alphanumeric b || is_name_punct b) s = true → any_control s = false.
Proof.
  unfold any_control. induction s as [|a s IH]; [done|]. cbn [all_bytes chars].
  intros [Ha Hs]%andb_true_iff.
  assert (45 ≤ N_of_ascii a ≤ 122)%N as Hr.
  { revert Ha. unfold is_ascii_alphanumeric, is_ascii_digit, is_ascii_lowercase, is_ascii_uppercase,
      is_name_punct. rewrite !orb_true_iff, !bool_decide_eq_true. lia. }
  rewrite bool_decide_eq_true_2 by lia. cbn [existsb]. rewrite (IH Hs), orb_false_r.
  unfold is_control. rewrite !bool_decide_eq_false_2 by lia. done.
Qed.

#[export] Hint Resolve N_of_ascii_lt is_lower_hex64_hex : rust.

(** Decoding checks: LF is a control character, U+0085 (C2 85) is one, U+00E9 and an
    emoji are not. *)
Example chars_two_bytes :
  chars (String (ascii_of_nat 194) (String (ascii_of_nat 133) EmptyString)) = [133%N].
Proof. reflexivity. Qed.

Example chars_four_bytes :
  chars (String (ascii_of_nat 240) (String (ascii_of_nat 159)
        (String (ascii_of_nat 152) (String (ascii_of_nat 128) EmptyString)))) = [128512%N].
Proof. reflexivity. Qed.

Example any_control_nel :
  any_control (String (ascii_of_nat 194) (String (ascii_of_nat 133) EmptyString)) = true.
Proof. reflexivity. Qed.
