(* ===== verification/Wire.v ===== *)
(** JSON values, the [Serialize] interface and the cryptographic boundary.

    [serde], [serde_jcs] and [sha2] are third-party.  A type's [Serialize] instance gives
    the JSON value its derived implementation denotes (field renaming, skipped fields and
    enum tags are those the source's attributes ask for); RFC 8785 canonicalisation and
    SHA-256 themselves are the operations of the class [Crypto], which every definition
    that computes a digest takes as an argument. *)

From Stdlib Require Import Ascii.
From S2P Require Import Prelude Text.

Module Value.
(** [serde_json::Number]. *)
Inductive Number : Type :=
| PosInt (n : N)
| NegInt (n : positive)
| Float (bits : N).

(** [serde_json::Value]; an object lists its members in key order, as the
    [BTreeMap]-backed [serde_json::Map] does. *)
Inductive Value : Type :=
| Null
| Bool (b : bool)
| Num (n : Number)
| Str (s : string)
| Array (l : list Value)
| Object (l : list (string * Value)).
End Value.
Abbreviation Value := Value.Value.

(** Members compared by key. *)
Definition member_le (p q : string * Value) : Prop := String.le p.1 q.1.
#[export] Instance member_le_dec : RelDecision member_le.
Proof. intros p q. unfold member_le. apply _. Defined.

(** Build an object from members in declaration order. *)
Definition obj (l : list (string * Value)) : Value := Value.Object (merge_sort member_le l).

Class Serialize (A : Type) : Type := ser : A → Value.
Arguments ser {A} {_} a : simpl never.
Arguments obj l : simpl never.

#[export] Instance ser_string : Serialize string := Value.Str.
#[export] Instance ser_N : Serialize N := λ n, Value.Num (Value.PosInt n).
#[export] Instance ser_bool : Serialize bool := Value.Bool.
#[export] Instance ser_list {A} `{Serialize A} : Serialize (list A) :=
  λ l, Value.Array (map ser l).
#[export] Instance ser_option {A} `{Serialize A} : Serialize (option A) :=
  λ o, match o with Some a => ser a | None => Value.Null end.
#[export] Instance ser_value : Serialize Value := λ v, v.

(** One member; a member skipped by [skip_serializing_if = "Option::is_none"]; and one
    skipped by [skip_serializing_if = "Vec::is_empty"]. *)
Definition field {A} `{Serialize A} (k : string) (a : A) : list (string * Value) :=
  [(k, ser a)].
Definition field_opt {A} `{Serialize A} (k : string) (o : option A) : list (string * Value) :=
  match o with Some a => [(k, ser a)] | None => [] end.
Definition field_vec {A} `{Serialize A} (k : string) (l : list A) : list (string * Value) :=
  match l with [] => [] | _ => [(k, ser l)] end.

(** The third-party boundary: [serde_jcs::to_vec] (an error carries its message) and
    [Sha256::digest]. *)
Class Crypto : Type := {
  jcs_to_vec : Value → string + string;
  sha256 : string → string;
}.

(** Every number is an integer that IEEE-754 doubles represent exactly (the I-JSON range
    RFC 8785 is defined on). *)
Fixpoint ijson_numbers (v : Value) : bool :=
  match v with
  | Value.Num (Value.PosInt n) => bool_decide (n < 9007199254740992)%N
  | Value.Num (Value.NegInt n) => bool_decide (N.pos n < 9007199254740992)%N
  | Value.Num (Value.Float _) => false
  | Value.Array l => forallb ijson_numbers l
  | Value.Object l => forallb (λ p, ijson_numbers p.2) l
  | _ => true
  end.

(** Members in strictly increasing key order, at every depth. *)
Fixpoint members_sorted (v : Value) : Prop :=
  match v with
  | Value.Array l => foldr (λ w P, members_sorted w ∧ P) True l
  | Value.Object l =>
      StronglySorted member_le l ∧ NoDup l.*1 ∧ foldr (λ p P, members_sorted p.2 ∧ P) True l
  | _ => True
  end.

(** What the code relies on: RFC 8785 output determines an I-JSON value, and SHA-256
    yields 32 bytes.  Collision resistance is deliberately not assumed. *)
Class CryptoLaws `{Crypto} : Prop := {
  jcs_injective v w b :
    members_sorted v → members_sorted w → ijson_numbers v = true → ijson_numbers w = true →
    jcs_to_vec v = inr b → jcs_to_vec w = inr b → v = w;
  sha256_length b : String.length (sha256 b) = 32;
}.

(** The canonical bytes of these two values are different and have one SHA-256 digest. *)
Definition digests_collide `{Crypto} (v w : Value) : Prop :=
  ∃ a b, jcs_to_vec v = inr a ∧ jcs_to_vec w = inr b ∧ a ≠ b ∧ sha256 a = sha256 b.

Definition sha256_prefix : string := "sha256:".

(** [fn sha256_digest]: the prefix and 64 lowercase hexadecimal digits. *)
Definition sha256_digest `{Crypto} (value : string) : string :=
  sha256_prefix +:+ hex (sha256 value).

(** The recurring [serde_jcs::to_vec(..).map_err(..)?] followed by [sha256_digest]. *)
Definition canonical_digest `{Crypto} {E} (mk : string → E) (v : Value) : res E string :=
  match jcs_to_vec v with
  | inl e => Err (mk e)
  | inr canonical => Ok (sha256_digest canonical)
  end.

(** [digest.strip_prefix("sha256:").unwrap_or(&digest)]. *)
Definition encoded_digest (digest : string) : string :=
  match strip_prefix sha256_prefix digest with Some e => e | None => digest end.

(** [is_sha256_digest] and [is_canonical_sha256]: the same check written twice. *)
Definition is_sha256_digest (value : string) : bool :=
  match strip_prefix sha256_prefix value with
  | Some encoded => is_lower_hex64 encoded
  | None => false
  end.
Definition is_canonical_sha256 (value : string) : bool := is_sha256_digest value.

(** ** Digests *)

Lemma is_sha256_digest_sha256_digest `{Crypto} `{!CryptoLaws} v :
  is_sha256_digest (sha256_digest v) = true.
Proof.
  unfold is_sha256_digest, sha256_digest. rewrite strip_prefix_app.
  apply is_lower_hex64_hex, sha256_length.
Qed.

Lemma encoded_sha256_digest `{Crypto} v : encoded_digest (sha256_digest v) = hex (sha256 v).
Proof. unfold encoded_digest, sha256_digest. by rewrite strip_prefix_app. Qed.

Lemma sha256_digest_inj `{Crypto} a b :
  sha256_digest a = sha256_digest b → sha256 a = sha256 b.
Proof. by intros Heq%string_app_inj_r%hex_inj. Qed.

(** A value does not collide with itself. *)
Lemma digests_collide_irrefl `{Crypto} v : ¬ digests_collide v v.
Proof. intros (a & b & Ha & Hb & Hne & _). congruence. Qed.

Lemma canonical_digest_Ok `{Crypto} {E} (mk : string → E) v d :
  canonical_digest mk v = Ok d ↔ ∃ b, jcs_to_vec v = inr b ∧ d = sha256_digest b.
Proof.
  unfold canonical_digest. destruct (jcs_to_vec v) as [e|b]; split.
  - done.
  - by intros (b & ? & _).
  - intros [= <-]. by exists b.
  - intros (b' & [= <-] & ->). done.
Qed.

Lemma no_panic_canonical_digest `{Crypto} {E} (mk : string → E) v :
  no_panic (canonical_digest mk v).
Proof. unfold canonical_digest. by destruct (jcs_to_vec v). Qed.

(** Equal digests mean equal values, unless those two values collide. *)
Lemma canonical_digest_inj `{Crypto} `{!CryptoLaws} {E F} (mk : string → E) (mk' : string → F) v w d :
  members_sorted v → members_sorted w → ijson_numbers v = true → ijson_numbers w = true →
  canonical_digest mk v = Ok d → canonical_digest mk' w = Ok d →
  v = w ∨ digests_collide v w.
Proof.
  intros Hv Hw Nv Nw (b & Hb & ->)%canonical_digest_Ok (c & Hc & Hd%sha256_digest_inj)%canonical_digest_Ok.
  destruct (decide (b = c)) as [->|Hne]; [left; by eapply jcs_injective|right; by exists b, c].
Qed.

#[export] Hint Resolve no_panic_canonical_digest is_sha256_digest_sha256_digest : rust.

(** ** Objects *)

#[export] Instance member_le_total : Total member_le.
Proof. intros p q. unfold member_le. apply (total String.le). Qed.
#[export] Instance member_le_trans : Transitive member_le.
Proof. intros p q r. unfold member_le. apply (transitivity (R := String.le)). Qed.

Lemma obj_perm l1 l2 : obj l1 = obj l2 → l1 ≡ₚ l2.
Proof.
  unfold obj. intros [= H].
  rewrite <-(merge_sort_Permutation member_le l1), H. apply merge_sort_Permutation.
Qed.

(** The value of a member. *)
Fixpoint member (k : string) (l : list (string * Value)) : option Value :=
  match l with
  | [] => None
  | (k', v) :: l' => if String.eqb k k' then Some v else member k l'
  end.

Lemma member_elem_of k v l : member k l = Some v → (k, v) ∈ l.
Proof.
  induction l as [|[k' v'] l IH]; simpl; [done|].
  destruct (String.eqb_spec k k') as [->|Hk]; [|intros H%IH; by right].
  intros [= ->]. left.
Qed.

Lemma member_complete k v l : NoDup l.*1 → (k, v) ∈ l → member k l = Some v.
Proof.
  induction l as [|[k' v'] l IH]; simpl; [by intros _ ?%elem_of_nil|].
  intros [Hk' Hnd]%NoDup_cons [[= -> ->]|Hin]%elem_of_cons.
  - by rewrite String.eqb_refl.
  - destruct (String.eqb_spec k k') as [->|]; [|by apply IH].
    destruct Hk'. apply list_elem_of_fmap. by exists (k', v).
Qed.

(** Objects with distinct keys agree on every member. *)
Lemma obj_member k l1 l2 :
  obj l1 = obj l2 → NoDup l1.*1 → NoDup l2.*1 → member k l1 = member k l2.
Proof.
  intros Hp%obj_perm N1 N2. apply option_eq. intros v. split; intros Hm%member_elem_of.
  - apply member_complete; [done|]. by rewrite <-Hp.
  - apply member_complete; [done|]. by rewrite Hp.
Qed.

Lemma members_sorted_array l : Forall members_sorted l → members_sorted (Value.Array l).
Proof. induction 1; simpl; auto. Qed.

Lemma members_sorted_obj l :
  NoDup l.*1 → Forall (λ p, members_sorted p.2) l → members_sorted (obj l).
Proof.
  intros Hnd Hall. unfold obj. cbn [members_sorted].
  pose proof (merge_sort_Permutation member_le l) as Hp.
  split_and!.
  - apply (StronglySorted_merge_sort member_le).
  - by rewrite Hp.
  - rewrite <-Hp in Hall. clear Hp. revert Hall.
    generalize (merge_sort member_le l). intros l' Hall.
    induction Hall; simpl; auto.
Qed.

Lemma members_sorted_ser_list {A} `{Serialize A} (l : list A) :
  (∀ a, members_sorted (ser a)) → members_sorted (ser l).
Proof.
  intros Ha. apply members_sorted_array, Forall_forall. intros v Hv.
  change (v ∈ ser <$> l) in Hv.
  apply list_elem_of_fmap in Hv as (a & -> & _). apply Ha.
Qed.

#[export] Instance ser_string_inj : Inj (=) (=) (ser : string → Value).
Proof. by intros s t [= ->]. Qed.
#[export] Instance ser_N_inj : Inj (=) (=) (ser : N → Value).
Proof. by intros s t [= ->]. Qed.
#[export] Instance ser_bool_inj : Inj (=) (=) (ser : bool → Value).
Proof. by intros s t [= ->]. Qed.
#[export] Instance ser_list_inj {A} `{Serialize A} :
  Inj (=) (=) (ser : A → Value) → Inj (=) (=) (ser : list A → Value).
Proof.
  intros Hinj l1 l2 [= H1]. revert l2 H1.
  induction l1 as [|a l1 IH]; intros [|b l2]; simpl; try done.
  intros [= ->%Hinj ->%IH]. done.
Qed.

(** A nullable member is injective when no value serialises to [null]. *)
Lemma ser_option_inj {A} `{Serialize A} (o1 o2 : option A) :
  Inj (=) (=) (ser : A → Value) → (∀ a : A, ser a ≠ Value.Null) → ser o1 = ser o2 → o1 = o2.
Proof.
  intros Hinj Hnn. destruct o1 as [a|], o2 as [b|]; unfold ser at 1 2, ser_option; intros Heq.
  - by apply Hinj in Heq as ->.
  - by destruct (Hnn a).
  - by destruct (Hnn b).
  - done.
Qed.

Lemma ser_string_not_null (s : string) : ser s ≠ Value.Null.
Proof. done. Qed.

(** Compare two objects with concrete keys member by member. *)
Ltac obj_keys := by apply (bool_decide_unpack _); vm_compute.

Ltac obj_reduce H :=
  cbn in H.

Ltac obj_field H k :=
  let Hk := fresh "Hk" in
  pose proof (obj_member k _ _ H ltac:(obj_keys) ltac:(obj_keys)) as Hk;
  obj_reduce Hk.

Ltac obj_fields H l :=
  lazymatch l with
  | (?k, _) :: ?l' => obj_field H k; obj_fields H l'
  | _ => idtac
  end.

(** Replace an equation between two objects by the equations of its members. *)
Ltac obj_inv H :=
  cbv [app field field_opt field_vec] in H; cbn in H;
  lazymatch type of H with
  | obj ?l1 = obj ?l2 => obj_fields H l1; obj_fields H l2; clear H
  end.

Ltac sorted_obj :=
  apply members_sorted_obj;
  cbv [app field field_opt field_vec]; cbn;
  [obj_keys|repeat apply Forall_cons_2; [cbn; auto with wire..|apply Forall_nil_2]].

Create HintDb wire discriminated.

Lemma members_sorted_string (s : string) : members_sorted (ser s).
Proof. done. Qed.
Lemma members_sorted_N (n : N) : members_sorted (ser n).
Proof. done. Qed.
Lemma members_sorted_bool (b : bool) : members_sorted (ser b).
Proof. done. Qed.
Lemma members_sorted_option {A} `{Serialize A} (o : option A) :
  (∀ a, members_sorted (ser a)) → members_sorted (ser o).
Proof. intros Ha. destruct o; [apply Ha|done]. Qed.

#[export] Hint Resolve members_sorted_string members_sorted_N members_sorted_bool
  members_sorted_ser_list members_sorted_option ser_string_not_null : wire.

(** A concrete instance of the cryptographic boundary, for evaluating examples: an
    injective self-delimiting encoding in place of RFC 8785 and a 48-bit polynomial
    checksum in place of SHA-256.  It satisfies [CryptoLaws], so the hypotheses of the
    theorems about digests can all hold together; no theorem depends on it. *)

(** ** Encoding *)

(** Every byte is announced by an apostrophe; a full stop ends the string. *)
Fixpoint enc_string (s : string) : string :=
  match s with
  | EmptyString => "."
  | String a s' => String "'" (String a (enc_string s'))
  end.

Fixpoint enc_pos (p : positive) : string :=
  match p with
  | xH => ";"
  | xO p => String "0" (enc_pos p)
  | xI p => String "1" (enc_pos p)
  end.

Definition enc_N (n : N) : string := match n with N0 => "z" | Npos p => enc_pos p end.

Fixpoint enc (v : Value) : string :=
  match v with
  | Value.Null => "n"
  | Value.Bool true => "t"
  | Value.Bool false => "f"
  | Value.Num (Value.PosInt n) => String "p" (enc_N n)
  | Value.Num (Value.NegInt p) => String "m" (enc_pos p)
  | Value.Num (Value.Float b) => String "d" (enc_N b)
  | Value.Str s => String "s" (enc_string s)
  | Value.Array l => String "a" (foldr (λ w r, String "," (enc w +:+ r)) "]" l)
  | Value.Object l => String "o" (foldr (λ p r, String "," (enc_string p.1 +:+ enc p.2 +:+ r)) "}" l)
  end.

(** ** Checksum *)

Definition mask : N := 2 ^ 48 - 1.

Fixpoint checksum (h : N) (s : string) : N :=
  match s with
  | EmptyString => h
  | String a s' => checksum (N.land (N.shiftl h 8 + h + N_of_ascii a + 1) mask) s'
  end.

Fixpoint bytes (n : nat) (h : N) : string :=
  match n with
  | O => EmptyString
  | S n => String (ascii_of_N (h mod 256)) (bytes n (N.shiftr h 8))
  end.

Definition reference_crypto : Crypto := {|
  jcs_to_vec v := inr (enc v);
  sha256 s := bytes 32 (checksum 7 s);
|}.

(** ** The laws *)

Lemma enc_string_inj s1 s2 r1 r2 :
  (enc_string s1 +:+ r1)%string = (enc_string s2 +:+ r2)%string → s1 = s2 ∧ r1 = r2.
Proof.
  revert s2. induction s1 as [|a s1 IH]; intros [|b s2]; cbn; try done.
  - intros [= H]. by split.
  - intros [= -> H]. by apply IH in H as [-> ->].
Qed.

Lemma enc_pos_inj p q r1 r2 :
  (enc_pos p +:+ r1)%string = (enc_pos q +:+ r2)%string → p = q ∧ r1 = r2.
Proof.
  revert q. induction p as [p IH|p IH|]; intros [q|q|]; cbn; try done;
    intros [= H]; first [apply IH in H as [-> ->]; done | by split].
Qed.

Lemma enc_N_inj m n r1 r2 :
  (enc_N m +:+ r1)%string = (enc_N n +:+ r2)%string → m = n ∧ r1 = r2.
Proof.
  destruct m as [|p], n as [|q]; cbn; [intros [= H]; by split|by destruct q|by destruct p|].
  intros H. by apply enc_pos_inj in H as [-> ->].
Qed.

(** Nested induction on values. *)
Lemma Value_nested_ind (P : Value → Prop) :
  P Value.Null → (∀ b, P (Value.Bool b)) → (∀ n, P (Value.Num n)) → (∀ s, P (Value.Str s)) →
  (∀ l, Forall P l → P (Value.Array l)) →
  (∀ l, Forall (λ p, P p.2) l → P (Value.Object l)) → ∀ v, P v.
Proof.
  intros Hnull Hb Hn Hs Ha Ho. fix IH 1. intros [|b|n|s|l|l]; [done|by auto..| |].
  - apply Ha. induction l; constructor; [apply IH|done].
  - apply Ho. induction l as [|[k w] l IHl]; constructor; [apply IH|done].
Qed.

Ltac enc_norm :=
  cbn [enc foldr fst snd]; rewrite ?string_app_cons, ?string_app_nil, ?string_app_assoc.

Lemma enc_inj_gen v :
  ∀ w r1 r2, (enc v +:+ r1)%string = (enc w +:+ r2)%string → v = w ∧ r1 = r2.
Proof.
  induction v as [| | | |l IH|l IH] using Value_nested_ind.
  - intros [|[]|[]| | |] r1 r2; cbn; try done. intros [= H]. by split.
  - destruct b; intros [|[]|[]| | |] r1 r2; cbn; try done; intros [= H]; by split.
  - destruct n; intros [|[]|[]| | |] r1 r2; cbn; try done; intros [= H];
      first [apply enc_N_inj in H as [-> ->] | apply enc_pos_inj in H as [-> ->]]; done.
  - intros [|[]|[]| | |] r1 r2; cbn; try done. intros [= H].
    by apply enc_string_inj in H as [-> ->].
  - intros [|[]|[]| |l2|] r1 r2; enc_norm; try done. intros [= H]. revert l2 H.
    induction IH as [|v l Hv IH IHl]; intros [|w l2]; enc_norm; try done; [intros [= H]; by split|].
    intros [= [-> H]%Hv]. by apply IHl in H as [[= ->] ->].
  - intros [|[]|[]| | |l2] r1 r2; enc_norm; try done. intros [= H]. revert l2 H.
    induction IH as [|[k v] l Hv IH IHl]; intros [|[k2 w] l2]; enc_norm; try done;
      [intros [= H]; by split|].
    cbn in Hv. intros [= [-> [-> H]%Hv]%enc_string_inj]. by apply IHl in H as [[= ->] ->].
Qed.

Lemma enc_inj v w : enc v = enc w → v = w.
Proof.
  intros H. destruct (enc_inj_gen v w EmptyString EmptyString) as [? _]; [by rewrite H|done].
Qed.

Lemma bytes_length n h : String.length (bytes n h) = n.
Proof. revert h. induction n; intros h; cbn; [done|by f_equal]. Qed.

Lemma reference_laws : @CryptoLaws reference_crypto.
Proof.
  split.
  - intros v w b _ _ _ _ Hv Hw. cbn in Hv, Hw. apply enc_inj. congruence.
  - intros b. apply bytes_length.
Qed.

(** A digest of the reference instance is well formed. *)
Example reference_digest_ok : is_sha256_digest (@sha256_digest reference_crypto "abc") = true.
Proof. vm_compute. reflexivity. Qed.
