(* ===== verification/WorkGraphTypes.v ===== *)
(** The data of the [xgeny-workgraph] crate: enumerations, records, journal events and the run
    projection, one module per Rust type so that a constructor or field reads as in the source
    ([StepStatus.Planned], [RunState.steps]); and the decidable equalities the store compares
    with. *)

From S2P Require Import Prelude Text Wire.

(** ** Enumerations *)

Module ReceiptPlacement.
Inductive ReceiptPlacement : Type := Local | Device | Remote.
#[global] Instance ReceiptPlacement_eq_dec : EqDecision ReceiptPlacement.
Proof. solve_decision. Defined.
End ReceiptPlacement.
Abbreviation ReceiptPlacement := ReceiptPlacement.ReceiptPlacement.

Module ReceiptVerificationStrategy.
Inductive ReceiptVerificationStrategy : Type :=
| OutputSchema
| Postcondition
| ArtifactDigest
| Receipt
| Human.
#[global] Instance ReceiptVerificationStrategy_eq_dec : EqDecision ReceiptVerificationStrategy.
Proof. solve_decision. Defined.
End ReceiptVerificationStrategy.
Abbreviation ReceiptVerificationStrategy :=
  ReceiptVerificationStrategy.ReceiptVerificationStrategy.

Module VerificationDisposition.
Inductive VerificationDisposition : Type := Passed | Failed | Inconclusive.
#[global] Instance VerificationDisposition_eq_dec : EqDecision VerificationDisposition.
Proof. solve_decision. Defined.
End VerificationDisposition.
Abbreviation VerificationDisposition := VerificationDisposition.VerificationDisposition.

Module EffectClass.
Inductive EffectClass : Type := ReadOnly | Reversible | Idempotent | NonIdempotent.
#[global] Instance EffectClass_eq_dec : EqDecision EffectClass.
Proof. solve_decision. Defined.
End EffectClass.
Abbreviation EffectClass := EffectClass.EffectClass.

Module SinkGuarantee.
Inductive SinkGuarantee : Type := None | DeduplicateByKey | QueryByKey | DeduplicateAndQuery.
End SinkGuarantee.
Abbreviation SinkGuarantee := SinkGuarantee.SinkGuarantee.
#[export] Instance SinkGuarantee_eq_dec : EqDecision SinkGuarantee.
Proof. solve_decision. Defined.

Module ReconciliationResolution.
Inductive ReconciliationResolution : Type := ProvedApplied | ProvedNotApplied | Failed.
#[global] Instance ReconciliationResolution_eq_dec : EqDecision ReconciliationResolution.
Proof. solve_decision. Defined.
End ReconciliationResolution.
Abbreviation ReconciliationResolution := ReconciliationResolution.ReconciliationResolution.

Module InvocationMaterialUnavailableReason.
Inductive InvocationMaterialUnavailableReason : Type :=
| EphemeralMaterialLost
| ReferenceUnavailable
| ReferenceChanged
| AdapterBindingUnavailable
| CredentialBindingChanged
| UnsupportedMaterialVersion.
Definition code (r : InvocationMaterialUnavailableReason) : string :=
  match r with
  | EphemeralMaterialLost => "ephemeral_material_lost"
  | ReferenceUnavailable => "reference_unavailable"
  | ReferenceChanged => "reference_changed"
  | AdapterBindingUnavailable => "adapter_binding_unavailable"
  | CredentialBindingChanged => "credential_binding_changed"
  | UnsupportedMaterialVersion => "unsupported_material_version"
  end.
End InvocationMaterialUnavailableReason.
Abbreviation InvocationMaterialUnavailableReason :=
  InvocationMaterialUnavailableReason.InvocationMaterialUnavailableReason.

Module ModelCallUnknownReason.
Inductive ModelCallUnknownReason : Type := Timeout | TransportUnavailable | Interrupted.
#[global] Instance ModelCallUnknownReason_eq_dec : EqDecision ModelCallUnknownReason.
Proof. solve_decision. Defined.
End ModelCallUnknownReason.
Abbreviation ModelCallUnknownReason := ModelCallUnknownReason.ModelCallUnknownReason.

Module ModelCallRejectionReason.
Inductive ModelCallRejectionReason : Type :=
| PlannerInvalidResponse
| ProviderLimit
| RequestTooLarge
| RateLimited
| OutputTruncated
| ProviderRejected
| ProposalRejected
| MaterializationFailed
| StaleHead.
#[global] Instance ModelCallRejectionReason_eq_dec : EqDecision ModelCallRejectionReason.
Proof. solve_decision. Defined.
End ModelCallRejectionReason.
Abbreviation ModelCallRejectionReason := ModelCallRejectionReason.ModelCallRejectionReason.

Module ModelCallAbandonmentReason.
Inductive ModelCallAbandonmentReason : Type := RecoveryDiscarded.
End ModelCallAbandonmentReason.
Abbreviation ModelCallAbandonmentReason := ModelCallAbandonmentReason.ModelCallAbandonmentReason.

Module ModelCallStatus.
Inductive ModelCallStatus : Type := Reserved | Unknown (reason : ModelCallUnknownReason).
#[global] Instance ModelCallStatus_eq_dec : EqDecision ModelCallStatus.
Proof. solve_decision. Defined.
End ModelCallStatus.
Abbreviation ModelCallStatus := ModelCallStatus.ModelCallStatus.

Module ModelCallSettlement.
Inductive ModelCallSettlement : Type :=
| Rejected (reason : ModelCallRejectionReason)
| Abandoned (reason : ModelCallAbandonmentReason).
End ModelCallSettlement.
Abbreviation ModelCallSettlement := ModelCallSettlement.ModelCallSettlement.

Module PlannedExecutionProfile.
Inductive PlannedExecutionProfile : Type :=
| LocalSyncOnceV1
| LocalSyncReadOnlyV1
| LocalSyncOnceOccurrenceV1
| LocalSyncReadOnlyOccurrenceV1.
#[global] Instance PlannedExecutionProfile_eq_dec : EqDecision PlannedExecutionProfile.
Proof. solve_decision. Defined.
End PlannedExecutionProfile.
Abbreviation PlannedExecutionProfile := PlannedExecutionProfile.PlannedExecutionProfile.

Module StepStatus.
Inductive StepStatus : Type :=
| Planned
| IntentCommitted
| Executing
| EffectUnknown
| Reconciling
| Validating
| Completed
| Failed
| ManualRequired.
#[global] Instance StepStatus_eq_dec : EqDecision StepStatus.
Proof. solve_decision. Defined.
End StepStatus.
Abbreviation StepStatus := StepStatus.StepStatus.

Module ContinuationAction.
Inductive ContinuationAction : Type := DriveEffect | Verify | Admit.
#[global] Instance ContinuationAction_eq_dec : EqDecision ContinuationAction.
Proof. solve_decision. Defined.
End ContinuationAction.
Abbreviation ContinuationAction := ContinuationAction.ContinuationAction.

Module DependencyBlockReason.
Inductive DependencyBlockReason : Type :=
| NotCompleted
| Failed
| ManualRequired
| ReceiptMissing
| DependencyBlocked.
#[global] Instance DependencyBlockReason_eq_dec : EqDecision DependencyBlockReason.
Proof. solve_decision. Defined.
(** The position of a variant, which derives [Ord]. *)
Definition rank (r : DependencyBlockReason) : N :=
  match r with
  | NotCompleted => 0
  | Failed => 1
  | ManualRequired => 2
  | ReceiptMissing => 3
  | DependencyBlocked => 4
  end.
End DependencyBlockReason.
Abbreviation DependencyBlockReason := DependencyBlockReason.DependencyBlockReason.

(** ** Effect intents and their bindings *)

Module ReceiptVerificationRule.
Record ReceiptVerificationRule : Type := mk {
  strategy : ReceiptVerificationStrategy;
  required : bool;
}.
End ReceiptVerificationRule.
Abbreviation ReceiptVerificationRule := ReceiptVerificationRule.ReceiptVerificationRule.

Module ReceiptProvenance.
Record ReceiptProvenance : Type := mk {
  profile_version : string;
  tool_output_profile : option string;
  invocation_id : string;
  plan_id : string;
  policy_decision_id : string;
  policy_decision_digest : string;
  executor_id : string;
  executor_placement : ReceiptPlacement;
  executor_platform : string;
  input_summary : string;
  verification_plan : list ReceiptVerificationRule;
}.
End ReceiptProvenance.
Abbreviation ReceiptProvenance := ReceiptProvenance.ReceiptProvenance.

Module InvocationBinding.
Record InvocationBinding : Type := mk {
  capability_id : string;
  contract_version : string;
  definition_digest : string;
  instance_id : string;
  instance_binding_digest : string;
}.
#[global] Instance InvocationBinding_eq_dec : EqDecision InvocationBinding.
Proof. solve_decision. Defined.
End InvocationBinding.
Abbreviation InvocationBinding := InvocationBinding.InvocationBinding.

Module AuthorizationBinding.
Record AuthorizationBinding : Type := mk {
  run_id : string;
  step_id : string;
  authority : string;
  authority_epoch : N;
  issued_at_sequence : N;
  issued_at_head_digest : string;
  capability_id : string;
  contract_version : string;
  definition_digest : string;
  instance_id : string;
  instance_binding_digest : string;
  action_digest : string;
  material_digest : string;
  material_retention_digest : string;
  policy_evidence_digest : string;
  receipt_provenance_digest : option string;
}.
End AuthorizationBinding.
Abbreviation AuthorizationBinding := AuthorizationBinding.AuthorizationBinding.

Module AuthorizationUse.
Record AuthorizationUse : Type := mk {
  grant_id : string;
  grant_digest : string;
  max_uses : N;
  binding : AuthorizationBinding;
}.
End AuthorizationUse.
Abbreviation AuthorizationUse := AuthorizationUse.AuthorizationUse.

Module EffectIntent.
Record EffectIntent : Type := mk {
  effect_id : string;
  action_digest : string;
  invocation : InvocationBinding;
  effect_class : EffectClass;
  idempotency_key : option string;
  sink_guarantee : SinkGuarantee;
  authorization : AuthorizationUse;
  receipt_provenance : option ReceiptProvenance;
}.
End EffectIntent.
Abbreviation EffectIntent := EffectIntent.EffectIntent.

(** ** Planning records *)

Module ModelCallBudget.
Record ModelCallBudget : Type := mk { max_model_calls : N }.
End ModelCallBudget.
Abbreviation ModelCallBudget := ModelCallBudget.ModelCallBudget.

Module ModelCallReservation.
Record ModelCallReservation : Type := mk {
  format_version : N;
  call_id : string;
  planner_id : string;
  call_index : N;
  turn_index : N;
  base_sequence : N;
  base_head_digest : string;
  context_digest : string;
  request_digest : string;
}.
End ModelCallReservation.
Abbreviation ModelCallReservation := ModelCallReservation.ModelCallReservation.

Module ModelCallState.
Record ModelCallState : Type := mk {
  reservation : ModelCallReservation;
  status : ModelCallStatus;
}.
End ModelCallState.
Abbreviation ModelCallState := ModelCallState.ModelCallState.

Module ModelCallLifecycleState.
Record ModelCallLifecycleState : Type := mk {
  budget : ModelCallBudget;
  reserved_calls : N;
  settled_calls : N;
  unknown_calls : N;
  active_call : option ModelCallState;
}.
End ModelCallLifecycleState.
Abbreviation ModelCallLifecycleState := ModelCallLifecycleState.ModelCallLifecycleState.

Module AgentLoopBudget.
Record AgentLoopBudget : Type := mk {
  max_model_turns : N;
  max_planned_steps : N;
  max_tool_calls : N;
  max_context_bytes : N;
}.
End AgentLoopBudget.
Abbreviation AgentLoopBudget := AgentLoopBudget.AgentLoopBudget.

Module ExpectedPlanningTurn.
Record ExpectedPlanningTurn : Type := mk {
  turn_index : N;
  model_call_id : option string;
  context_digest : string;
  proposal_digest : string;
}.
End ExpectedPlanningTurn.
Abbreviation ExpectedPlanningTurn := ExpectedPlanningTurn.ExpectedPlanningTurn.

Module PlannedInvocationSpec.
Record PlannedInvocationSpec : Type := mk {
  capability_id : string;
  contract_version : string;
  definition_digest : string;
  action_digest : string;
  plan_input_digest : string;
  execution_profile : PlannedExecutionProfile;
  target_os : string;
  target_arch : string;
}.
End PlannedInvocationSpec.
Abbreviation PlannedInvocationSpec := PlannedInvocationSpec.PlannedInvocationSpec.

Module PlannedInvocationBinding.
Record PlannedInvocationBinding : Type := mk {
  format_version : N;
  plan_id : string;
  proposal_digest : string;
  capability_id : string;
  contract_version : string;
  definition_digest : string;
  action_digest : string;
  plan_input_digest : string;
  execution_profile : PlannedExecutionProfile;
  target_os : string;
  target_arch : string;
  spec_digest : string;
  plan_input_record_digest : string;
}.
End PlannedInvocationBinding.
Abbreviation PlannedInvocationBinding := PlannedInvocationBinding.PlannedInvocationBinding.

Module AcceptedPlanStep.
Record AcceptedPlanStep : Type := mk {
  step_id : string;
  objective : string;
  depends_on : list string;
  invocation : PlannedInvocationBinding;
}.
End AcceptedPlanStep.
Abbreviation AcceptedPlanStep := AcceptedPlanStep.AcceptedPlanStep.

Module CompletionCandidateState.
Record CompletionCandidateState : Type := mk {
  candidate_id : string;
  context_digest : string;
  proposal_digest : string;
  summary_digest : string;
  completion_output_record_digest : option string;
}.
End CompletionCandidateState.
Abbreviation CompletionCandidateState := CompletionCandidateState.CompletionCandidateState.

Module AgentLoopState.
Record AgentLoopState : Type := mk {
  budget : AgentLoopBudget;
  accepted_model_turns : N;
  model_calls : option ModelCallLifecycleState;
  completion_candidate : option CompletionCandidateState;
}.
End AgentLoopState.
Abbreviation AgentLoopState := AgentLoopState.AgentLoopState.

(** ** Journal events *)

Module RunEventBody.
Inductive RunEventBody : Type :=
| RunCreated (goal : string)
| AgentLoopConfigured (budget : AgentLoopBudget)
| ModelCallLifecycleConfigured (budget : ModelCallBudget)
| ModelCallReserved (reservation : ModelCallReservation)
| ModelCallBecameUnknown (call_id : string) (reason : ModelCallUnknownReason)
| ModelCallSettled (call_id : string) (settlement : ModelCallSettlement)
| PlanAccepted (decision : ExpectedPlanningTurn) (steps : list AcceptedPlanStep)
| CompletionCandidateRecorded (decision : ExpectedPlanningTurn) (candidate_id : string)
    (summary_digest : string) (completion_output_record_digest : option string)
| StepPlanned (step_id objective : string) (depends_on : list string)
| EffectIntentCommitted (step_id : string) (intent : EffectIntent)
| InvocationMaterialUnavailable (step_id effect_id : string)
    (reason : InvocationMaterialUnavailableReason)
| EffectExecutionStarted (step_id effect_id : string)
| EffectSucceeded (step_id effect_id evidence_digest : string)
    (output_record_digest : option string)
| EffectFailed (step_id effect_id evidence_digest : string)
| EffectBecameUnknown (step_id effect_id reason : string)
| ReconciliationStarted (step_id effect_id : string)
| ReconciliationResolved (step_id effect_id : string) (resolution : ReconciliationResolution)
    (evidence_digest : string)
| ManualInterventionRequired (step_id effect_id reason : string)
| VerificationPassed (step_id : string)
| VerificationFailed (step_id reason : string)
| VerificationRecorded (step_id effect_id : string) (disposition : VerificationDisposition)
    (receipt_id receipt_digest : string).

(** [fn kind]: the wire name of the variant. *)
Definition kind (body : RunEventBody) : string :=
  match body with
  | RunCreated _ => "run_created"
  | AgentLoopConfigured _ => "agent_loop_configured"
  | ModelCallLifecycleConfigured _ => "model_call_lifecycle_configured"
  | ModelCallReserved _ => "model_call_reserved"
  | ModelCallBecameUnknown _ _ => "model_call_became_unknown"
  | ModelCallSettled _ _ => "model_call_settled"
  | PlanAccepted _ _ => "plan_accepted"
  | CompletionCandidateRecorded _ _ _ _ => "completion_candidate_recorded"
  | StepPlanned _ _ _ => "step_planned"
  | EffectIntentCommitted _ _ => "effect_intent_committed"
  | InvocationMaterialUnavailable _ _ _ => "invocation_material_unavailable"
  | EffectExecutionStarted _ _ => "effect_execution_started"
  | EffectSucceeded _ _ _ _ => "effect_succeeded"
  | EffectFailed _ _ _ => "effect_failed"
  | EffectBecameUnknown _ _ _ => "effect_became_unknown"
  | ReconciliationStarted _ _ => "reconciliation_started"
  | ReconciliationResolved _ _ _ _ => "reconciliation_resolved"
  | ManualInterventionRequired _ _ _ => "manual_intervention_required"
  | VerificationPassed _ => "verification_passed"
  | VerificationFailed _ _ => "verification_failed"
  | VerificationRecorded _ _ _ _ _ => "verification_recorded"
  end.
End RunEventBody.
Abbreviation RunEventBody := RunEventBody.RunEventBody.

Module RunEvent.
Record RunEvent : Type := mk {
  event_id : string;
  run_id : string;
  authority : string;
  authority_epoch : N;
  recorded_at : string;
  body : RunEventBody;
}.
End RunEvent.
Abbreviation RunEvent := RunEvent.RunEvent.

Module EventRecord.
Record EventRecord : Type := mk {
  sequence : N;
  previous_digest : option string;
  event : RunEvent;
  digest : string;
}.
End EventRecord.
Abbreviation EventRecord := EventRecord.EventRecord.

(** ** The run projection *)

Module StepState.
Record StepState : Type := mk {
  step_id : string;
  objective : string;
  depends_on : list string;
  planned_invocation : option PlannedInvocationBinding;
  status : StepStatus;
  attempts : N;
  intent : option EffectIntent;
  effect_evidence_digest : option string;
  output_record_digest : option string;
  execution_receipt_id : option string;
  execution_receipt_digest : option string;
  uncertainty_reason : option string;
  reconciliation_evidence_digest : option string;
}.

(** A step as the planner leaves it. *)
Definition planned (id objective : string) (depends_on : list string)
    (invocation : option PlannedInvocationBinding) : StepState :=
  mk id objective depends_on invocation StepStatus.Planned 0 None None None None None None None.

(** Field assignments of the reducer. *)
Definition set_status (v : StepStatus) (s : StepState) : StepState :=
  mk (step_id s) (objective s) (depends_on s) (planned_invocation s) v (attempts s) (intent s)
    (effect_evidence_digest s) (output_record_digest s) (execution_receipt_id s)
    (execution_receipt_digest s) (uncertainty_reason s) (reconciliation_evidence_digest s).
Definition set_attempts (v : N) (s : StepState) : StepState :=
  mk (step_id s) (objective s) (depends_on s) (planned_invocation s) (status s) v (intent s)
    (effect_evidence_digest s) (output_record_digest s) (execution_receipt_id s)
    (execution_receipt_digest s) (uncertainty_reason s) (reconciliation_evidence_digest s).
Definition set_intent (v : option EffectIntent) (s : StepState) : StepState :=
  mk (step_id s) (objective s) (depends_on s) (planned_invocation s) (status s) (attempts s) v
    (effect_evidence_digest s) (output_record_digest s) (execution_receipt_id s)
    (execution_receipt_digest s) (uncertainty_reason s) (reconciliation_evidence_digest s).
Definition set_observation (evidence output : option string) (s : StepState) : StepState :=
  mk (step_id s) (objective s) (depends_on s) (planned_invocation s) (status s) (attempts s)
    (intent s) evidence output (execution_receipt_id s)
    (execution_receipt_digest s) (uncertainty_reason s) (reconciliation_evidence_digest s).
Definition set_receipt (id digest : option string) (s : StepState) : StepState :=
  mk (step_id s) (objective s) (depends_on s) (planned_invocation s) (status s) (attempts s)
    (intent s) (effect_evidence_digest s) (output_record_digest s) id digest
    (uncertainty_reason s) (reconciliation_evidence_digest s).
Definition set_uncertainty (v : option string) (s : StepState) : StepState :=
  mk (step_id s) (objective s) (depends_on s) (planned_invocation s) (status s) (attempts s)
    (intent s) (effect_evidence_digest s) (output_record_digest s) (execution_receipt_id s)
    (execution_receipt_digest s) v (reconciliation_evidence_digest s).
Definition set_reconciliation (v : option string) (s : StepState) : StepState :=
  mk (step_id s) (objective s) (depends_on s) (planned_invocation s) (status s) (attempts s)
    (intent s) (effect_evidence_digest s) (output_record_digest s) (execution_receipt_id s)
    (execution_receipt_digest s) (uncertainty_reason s) v.
End StepState.
Abbreviation StepState := StepState.StepState.

Module AuthorizationConsumption.
Record AuthorizationConsumption : Type := mk {
  grant_digest : string;
  max_uses : N;
  uses : N;
  effect_ids : gset string;
}.
End AuthorizationConsumption.
Abbreviation AuthorizationConsumption := AuthorizationConsumption.AuthorizationConsumption.

Module RunState.
Record RunState : Type := mk {
  run_id : string;
  authority : string;
  authority_epoch : N;
  goal : string;
  revision : N;
  journal_sequence : N;
  journal_head_digest : string;
  steps : gmap string StepState;
  authorization_consumption : gmap string AuthorizationConsumption;
  agent_loop : option AgentLoopState;
}.

Definition set_steps (v : gmap string StepState) (s : RunState) : RunState :=
  mk (run_id s) (authority s) (authority_epoch s) (goal s) (revision s) (journal_sequence s)
    (journal_head_digest s) v (authorization_consumption s) (agent_loop s).
Definition set_consumption (v : gmap string AuthorizationConsumption) (s : RunState) : RunState :=
  mk (run_id s) (authority s) (authority_epoch s) (goal s) (revision s) (journal_sequence s)
    (journal_head_digest s) (steps s) v (agent_loop s).
Definition set_agent_loop (v : option AgentLoopState) (s : RunState) : RunState :=
  mk (run_id s) (authority s) (authority_epoch s) (goal s) (revision s) (journal_sequence s)
    (journal_head_digest s) (steps s) (authorization_consumption s) v.
(** [revision], [journal_sequence] and [journal_head_digest] after a record. *)
Definition set_head (sequence : N) (digest : string) (s : RunState) : RunState :=
  mk (run_id s) (authority s) (authority_epoch s) (goal s) sequence sequence digest
    (steps s) (authorization_consumption s) (agent_loop s).
End RunState.
Abbreviation RunState := RunState.RunState.

(** Decidable equality ([derive(PartialEq, Eq)]) of the journal records and of the run
    projection, which the local store compares. *)

#[export] Instance ReceiptVerificationRule_eq_dec : EqDecision ReceiptVerificationRule.
Proof. solve_decision. Defined.
#[export] Instance ReceiptProvenance_eq_dec : EqDecision ReceiptProvenance.
Proof. solve_decision. Defined.
#[export] Instance AuthorizationBinding_eq_dec : EqDecision AuthorizationBinding.
Proof. solve_decision. Defined.
#[export] Instance AuthorizationUse_eq_dec : EqDecision AuthorizationUse.
Proof. solve_decision. Defined.
#[export] Instance EffectIntent_eq_dec : EqDecision EffectIntent.
Proof. solve_decision. Defined.
#[export] Instance ModelCallBudget_eq_dec : EqDecision ModelCallBudget.
Proof. solve_decision. Defined.
#[export] Instance ModelCallReservation_eq_dec : EqDecision ModelCallReservation.
Proof. solve_decision. Defined.
#[export] Instance ModelCallState_eq_dec : EqDecision ModelCallState.
Proof. solve_decision. Defined.
#[export] Instance ModelCallLifecycleState_eq_dec : EqDecision ModelCallLifecycleState.
Proof. solve_decision. Defined.
#[export] Instance ModelCallAbandonmentReason_eq_dec : EqDecision ModelCallAbandonmentReason.
Proof. solve_decision. Defined.
#[export] Instance ModelCallSettlement_eq_dec : EqDecision ModelCallSettlement.
Proof. solve_decision. Defined.
#[export] Instance AgentLoopBudget_eq_dec : EqDecision AgentLoopBudget.
Proof. solve_decision. Defined.
#[export] Instance ExpectedPlanningTurn_eq_dec : EqDecision ExpectedPlanningTurn.
Proof. solve_decision. Defined.
#[export] Instance PlannedInvocationBinding_eq_dec : EqDecision PlannedInvocationBinding.
Proof. solve_decision. Defined.
#[export] Instance AcceptedPlanStep_eq_dec : EqDecision AcceptedPlanStep.
Proof. solve_decision. Defined.
#[export] Instance CompletionCandidateState_eq_dec : EqDecision CompletionCandidateState.
Proof. solve_decision. Defined.
#[export] Instance AgentLoopState_eq_dec : EqDecision AgentLoopState.
Proof. solve_decision. Defined.
#[export] Instance InvocationMaterialUnavailableReason_eq_dec :
  EqDecision InvocationMaterialUnavailableReason.
Proof. solve_decision. Defined.
#[export] Instance RunEventBody_eq_dec : EqDecision RunEventBody.
Proof. solve_decision. Defined.
#[export] Instance RunEvent_eq_dec : EqDecision RunEvent.
Proof. solve_decision. Defined.
#[export] Instance EventRecord_eq_dec : EqDecision EventRecord.
Proof. solve_decision. Defined.
#[export] Instance StepState_eq_dec : EqDecision StepState.
Proof. solve_decision. Defined.
#[export] Instance AuthorizationConsumption_eq_dec : EqDecision AuthorizationConsumption.
Proof. solve_decision. Defined.
#[export] Instance RunState_eq_dec : EqDecision RunState.
Proof. solve_decision. Defined.
