(* ===== verification/WorkGraphErrors.v ===== *)
(** The error types of the [xgeny-workgraph] crate, with the [From] conversions as their
    wrapping constructors. *)

From S2P Require Import Prelude Text Wire WorkGraphTypes.

Module FrontierError.
Inductive FrontierError : Type :=
| SelfDependency (step_id : string)
| DuplicateDependency (step_id dependency_id : string)
| UnknownDependency (step_id dependency_id : string)
| DependencyCycle
| ActiveDependencyNotReleased (step_id dependency_id : string) (reason : DependencyBlockReason).
End FrontierError.
Abbreviation FrontierError := FrontierError.FrontierError.

Module InvocationMaterialError.
Inductive InvocationMaterialError : Type :=
| UnsupportedFormatVersion (version : N)
| EmptyField (field : string)
| InvalidReferenceComponent (field : string)
| BindingMismatch (field : string)
| MaterialIdMismatch
| RecordDigestMismatch
| Canonicalization (message : string).
End InvocationMaterialError.
Abbreviation InvocationMaterialError := InvocationMaterialError.InvocationMaterialError.

Module PlanningContractError.
Inductive PlanningContractError : Type :=
| ZeroBudget (field : string)
| TurnIndexZero
| ModelCallIndexZero
| InvalidIdentifier (field : string)
| UnsupportedTarget (field : string)
| InvalidDigest (field : string)
| UnsupportedFormatVersion (version : N)
| UnsupportedModelCallFormatVersion (version : N)
| ModelCallIdMismatch
| SpecDigestMismatch
| BindingMismatch (field : string)
| PlanIdMismatch
| RecordDigestMismatch
| Canonicalization (message : string)
| InvocationMaterial (error : InvocationMaterialError).
End PlanningContractError.
Abbreviation PlanningContractError := PlanningContractError.PlanningContractError.

Module CompletionOutputError.
Inductive CompletionOutputError : Type :=
| UnsupportedFormatVersion (version : N)
| MissingModelCallBinding
| InvalidSummary
| SummaryTooLarge
| BindingMismatch (field : string)
| SummarySizeMismatch
| SummaryDigestMismatch
| ProposalDigestMismatch
| CandidateIdMismatch
| RecordDigestMismatch
| Canonicalization
| PlanningContract (error : PlanningContractError).
End CompletionOutputError.
Abbreviation CompletionOutputError := CompletionOutputError.CompletionOutputError.

Module ToolOutputError.
Inductive ToolOutputError : Type :=
| UnsupportedFormatVersion (version : N)
| UnsupportedProfile
| UnsupportedEffectClass
| InvalidIdentity (field : string)
| InvalidExecutionAttempt
| InvalidEvidenceDigest
| DepthExceeded
| NodeCountExceeded
| TextBytesExceeded
| CanonicalSizeExceeded
| Canonicalization
| BindingMismatch (field : string)
| CanonicalSizeMismatch
| OutputDigestMismatch
| OutputIdMismatch
| RecordDigestMismatch.
End ToolOutputError.
Abbreviation ToolOutputError := ToolOutputError.ToolOutputError.

Module RecordError.
Inductive RecordError : Type :=
| Canonicalization (message : string)
| DigestMismatch (sequence : N) (expected actual : string)
| SequenceOverflow.
End RecordError.
Abbreviation RecordError := RecordError.RecordError.

Module AuthorizationDigestError.
Inductive AuthorizationDigestError : Type := Canonicalization (message : string).
End AuthorizationDigestError.
Abbreviation AuthorizationDigestError := AuthorizationDigestError.AuthorizationDigestError.

Module TransitionError.
Inductive TransitionError : Type :=
| Record_ (error : RecordError)
| FirstEventMustCreateRun
| RunAlreadyCreated
| PlanningContract (error : PlanningContractError)
| AgentLoopAlreadyConfigured
| AgentLoopNotConfigured
| ModelCallLifecycleAlreadyConfigured
| ModelCallLifecycleNotConfigured
| ModelCallBudgetBelowHistoricalAcceptedTurns (max_model_calls accepted_model_turns : N)
| ModelCallBudgetExceeded
| ModelCallActive
| UnexpectedModelCallIndex (expected actual : N)
| UnexpectedModelCallTurn (expected actual : N)
| ModelCallBaseHeadMismatch
| ModelCallIdMismatch
| ModelCallContextMismatch
| ModelCallDecisionRequired
| ModelCallNotReserved
| StaleModelCallResponse
| ModelCallSettlementHeadMismatch
| ModelCallCounterOverflow
| ModelCallCounterInvariant
| UnexpectedPlanningTurn (expected actual : N)
| ModelTurnBudgetExceeded
| PlannedStepBudgetExceeded
| ToolCallBudgetExceeded
| AcceptedPlanStepCountInvalid (actual : N)
| AcceptedPlanEdgeBudgetExceeded
| InvalidAcceptedObjective
| PlanProposalDigestMismatch (step_id : string)
| PlanDependencyBlocked (step_id dependency_id : string) (reason : DependencyBlockReason)
| DependencyCycle
| CompletionCandidateAlreadyRecorded
| CompletionCandidateRequiresReceiptCompletedPlan
| UnexpectedSequence (expected actual : N)
| PreviousDigestMismatch (sequence : N) (expected actual : option string)
| RunIdMismatch
| AuthorityMismatch
| AuthorityEpochMismatch
| DuplicateStep (step_id : string)
| SelfDependency (step_id : string)
| DuplicateDependency (step_id dependency_id : string)
| UnknownDependency (step_id dependency_id : string)
| UnknownStep (step_id : string)
| DependencyNotReleased (step_id dependency_id : string) (reason : DependencyBlockReason)
| DuplicateEffect (effect_id : string)
| PlannedInvocationMismatch (step_id field : string)
| DuplicatePlannedAction (step_id existing_step_id : string)
| EffectMismatch (step_id : string) (expected : option string) (actual : string)
| InvalidStepTransition (step_id : string) (from : StepStatus) (event : string)
| InvalidAuthorizationBudget (grant_id : string)
| AuthorizationRunMismatch (grant_id : string)
| AuthorizationStepMismatch (grant_id : string)
| AuthorizationAuthorityMismatch (grant_id : string)
| AuthorizationEpochMismatch (grant_id : string)
| AuthorizationHeadMismatch (grant_id : string)
| AuthorizationActionMismatch (grant_id : string)
| AuthorizationInvocationMismatch (grant_id : string)
| AuthorizationIdMismatch (grant_id : string)
| AuthorizationDigestMismatch (grant_id : string)
| AuthorizationDigest (error : AuthorizationDigestError)
| AuthorizationGrantChanged (grant_id : string)
| AuthorizationBudgetExceeded (grant_id : string) (max_uses : N)
| SinkGuaranteeRequiresIdempotencyKey (effect_id : string)
| ReadOnlyEffectSemanticsInvalid (effect_id : string)
| ReceiptProvenanceBindingMismatch (effect_id : string)
| ReceiptProvenanceDigestMismatch (effect_id : string)
| UnsupportedToolOutputProfile (effect_id : string)
| ToolOutputRecordRequired (effect_id : string)
| UnexpectedToolOutputRecord (effect_id : string)
| InvalidToolOutputRecordDigest (effect_id : string)
| AttemptOverflow (step_id : string).
End TransitionError.
Abbreviation TransitionError := TransitionError.TransitionError.

Module ReplayError.
Inductive ReplayError : Type :=
| EmptyJournal
| UnexpectedSequence (expected actual : N)
| PreviousDigestMismatch (sequence : N) (expected actual : option string)
| Record_ (error : RecordError)
| Transition (error : TransitionError).
End ReplayError.
Abbreviation ReplayError := ReplayError.ReplayError.
