(* ===== verification/WorkGraphWire.v ===== *)
(** The JSON documents of the journal: a [Serialize] instance per event type, each with
    its injectivity and the fact that its members are in key order. *)

From Stdlib Require Import Ascii.
From S2P Require Import Prelude Text Wire WorkGraphTypes.

(** ** Enumerations: [rename_all = "snake_case"] *)

#[export] Instance ser_ReceiptPlacement : Serialize ReceiptPlacement := λ p,
  Value.Str match p with
  | ReceiptPlacement.Local => "local"
  | ReceiptPlacement.Device => "device"
  | ReceiptPlacement.Remote => "remote"
  end.

#[export] Instance ser_ReceiptVerificationStrategy : Serialize ReceiptVerificationStrategy := λ p,
  Value.Str match p with
  | ReceiptVerificationStrategy.OutputSchema => "output_schema"
  | ReceiptVerificationStrategy.Postcondition => "postcondition"
  | ReceiptVerificationStrategy.ArtifactDigest => "artifact_digest"
  | ReceiptVerificationStrategy.Receipt => "receipt"
  | ReceiptVerificationStrategy.Human => "human"
  end.

#[export] Instance ser_VerificationDisposition : Serialize VerificationDisposition := λ p,
  Value.Str match p with
  | VerificationDisposition.Passed => "passed"
  | VerificationDisposition.Failed => "failed"
  | VerificationDisposition.Inconclusive => "inconclusive"
  end.

#[export] Instance ser_EffectClass : Serialize EffectClass := λ p,
  Value.Str match p with
  | EffectClass.ReadOnly => "read_only"
  | EffectClass.Reversible => "reversible"
  | EffectClass.Idempotent => "idempotent"
  | EffectClass.NonIdempotent => "non_idempotent"
  end.

#[export] Instance ser_SinkGuarantee : Serialize SinkGuarantee := λ p,
  Value.Str match p with
  | SinkGuarantee.None => "none"
  | SinkGuarantee.DeduplicateByKey => "deduplicate_by_key"
  | SinkGuarantee.QueryByKey => "query_by_key"
  | SinkGuarantee.DeduplicateAndQuery => "deduplicate_and_query"
  end.

#[export] Instance ser_ReconciliationResolution : Serialize ReconciliationResolution := λ p,
  Value.Str match p with
  | ReconciliationResolution.ProvedApplied => "proved_applied"
  | ReconciliationResolution.ProvedNotApplied => "proved_not_applied"
  | ReconciliationResolution.Failed => "failed"
  end.

#[export] Instance ser_InvocationMaterialUnavailableReason :
    Serialize InvocationMaterialUnavailableReason := λ r,
  Value.Str (InvocationMaterialUnavailableReason.code r).

#[export] Instance ser_ModelCallUnknownReason : Serialize ModelCallUnknownReason := λ p,
  Value.Str match p with
  | ModelCallUnknownReason.Timeout => "timeout"
  | ModelCallUnknownReason.TransportUnavailable => "transport_unavailable"
  | ModelCallUnknownReason.Interrupted => "interrupted"
  end.

#[export] Instance ser_ModelCallRejectionReason : Serialize ModelCallRejectionReason := λ p,
  Value.Str match p with
  | ModelCallRejectionReason.PlannerInvalidResponse => "planner_invalid_response"
  | ModelCallRejectionReason.ProviderLimit => "provider_limit"
  | ModelCallRejectionReason.RequestTooLarge => "request_too_large"
  | ModelCallRejectionReason.RateLimited => "rate_limited"
  | ModelCallRejectionReason.OutputTruncated => "output_truncated"
  | ModelCallRejectionReason.ProviderRejected => "provider_rejected"
  | ModelCallRejectionReason.ProposalRejected => "proposal_rejected"
  | ModelCallRejectionReason.MaterializationFailed => "materialization_failed"
  | ModelCallRejectionReason.StaleHead => "stale_head"
  end.

#[export] Instance ser_ModelCallAbandonmentReason : Serialize ModelCallAbandonmentReason := λ p,
  Value.Str match p with
  | ModelCallAbandonmentReason.RecoveryDiscarded => "recovery_discarded"
  end.

#[export] Instance ser_PlannedExecutionProfile : Serialize PlannedExecutionProfile := λ p,
  Value.Str match p with
  | PlannedExecutionProfile.LocalSyncOnceV1 => "local_sync_once_v1"
  | PlannedExecutionProfile.LocalSyncReadOnlyV1 => "local_sync_read_only_v1"
  | PlannedExecutionProfile.LocalSyncOnceOccurrenceV1 => "local_sync_once_occurrence_v1"
  | PlannedExecutionProfile.LocalSyncReadOnlyOccurrenceV1 =>
      "local_sync_read_only_occurrence_v1"
  end.

(** [tag = "disposition"]. *)
#[export] Instance ser_ModelCallSettlement : Serialize ModelCallSettlement := λ s,
  match s with
  | ModelCallSettlement.Rejected reason =>
      obj (field "disposition" ("rejected" : string) ++ field "reason" reason)
  | ModelCallSettlement.Abandoned reason =>
      obj (field "disposition" ("abandoned" : string) ++ field "reason" reason)
  end.

(** ** Records: [rename_all = "camelCase"] *)

#[export] Instance ser_ReceiptVerificationRule : Serialize ReceiptVerificationRule := λ r,
  obj (field "strategy" (ReceiptVerificationRule.strategy r)
    ++ field "required" (ReceiptVerificationRule.required r)).

#[export] Instance ser_ReceiptProvenance : Serialize ReceiptProvenance := λ p,
  obj (field "profileVersion" (ReceiptProvenance.profile_version p)
    ++ field_opt "toolOutputProfile" (ReceiptProvenance.tool_output_profile p)
    ++ field "invocationId" (ReceiptProvenance.invocation_id p)
    ++ field "planId" (ReceiptProvenance.plan_id p)
    ++ field "policyDecisionId" (ReceiptProvenance.policy_decision_id p)
    ++ field "policyDecisionDigest" (ReceiptProvenance.policy_decision_digest p)
    ++ field "executorId" (ReceiptProvenance.executor_id p)
    ++ field "executorPlacement" (ReceiptProvenance.executor_placement p)
    ++ field "executorPlatform" (ReceiptProvenance.executor_platform p)
    ++ field "inputSummary" (ReceiptProvenance.input_summary p)
    ++ field "verificationPlan" (ReceiptProvenance.verification_plan p)).

#[export] Instance ser_InvocationBinding : Serialize InvocationBinding := λ b,
  obj (field "capabilityId" (InvocationBinding.capability_id b)
    ++ field "contractVersion" (InvocationBinding.contract_version b)
    ++ field "definitionDigest" (InvocationBinding.definition_digest b)
    ++ field "instanceId" (InvocationBinding.instance_id b)
    ++ field "instanceBindingDigest" (InvocationBinding.instance_binding_digest b)).

#[export] Instance ser_AuthorizationBinding : Serialize AuthorizationBinding := λ b,
  obj (field "runId" (AuthorizationBinding.run_id b)
    ++ field "stepId" (AuthorizationBinding.step_id b)
    ++ field "authority" (AuthorizationBinding.authority b)
    ++ field "authorityEpoch" (AuthorizationBinding.authority_epoch b)
    ++ field "issuedAtSequence" (AuthorizationBinding.issued_at_sequence b)
    ++ field "issuedAtHeadDigest" (AuthorizationBinding.issued_at_head_digest b)
    ++ field "capabilityId" (AuthorizationBinding.capability_id b)
    ++ field "contractVersion" (AuthorizationBinding.contract_version b)
    ++ field "definitionDigest" (AuthorizationBinding.definition_digest b)
    ++ field "instanceId" (AuthorizationBinding.instance_id b)
    ++ field "instanceBindingDigest" (AuthorizationBinding.instance_binding_digest b)
    ++ field "actionDigest" (AuthorizationBinding.action_digest b)
    ++ field "materialDigest" (AuthorizationBinding.material_digest b)
    ++ field "materialRetentionDigest" (AuthorizationBinding.material_retention_digest b)
    ++ field "policyEvidenceDigest" (AuthorizationBinding.policy_evidence_digest b)
    ++ field_opt "receiptProvenanceDigest" (AuthorizationBinding.receipt_provenance_digest b)).

#[export] Instance ser_AuthorizationUse : Serialize AuthorizationUse := λ u,
  obj (field "grantId" (AuthorizationUse.grant_id u)
    ++ field "grantDigest" (AuthorizationUse.grant_digest u)
    ++ field "maxUses" (AuthorizationUse.max_uses u)
    ++ field "binding" (AuthorizationUse.binding u)).

#[export] Instance ser_EffectIntent : Serialize EffectIntent := λ i,
  obj (field "effectId" (EffectIntent.effect_id i)
    ++ field "actionDigest" (EffectIntent.action_digest i)
    ++ field "invocation" (EffectIntent.invocation i)
    ++ field "effectClass" (EffectIntent.effect_class i)
    ++ field "idempotencyKey" (EffectIntent.idempotency_key i)
    ++ field "sinkGuarantee" (EffectIntent.sink_guarantee i)
    ++ field "authorization" (EffectIntent.authorization i)
    ++ field_opt "receiptProvenance" (EffectIntent.receipt_provenance i)).

#[export] Instance ser_ModelCallBudget : Serialize ModelCallBudget := λ b,
  obj (field "maxModelCalls" (ModelCallBudget.max_model_calls b)).

#[export] Instance ser_ModelCallReservation : Serialize ModelCallReservation := λ r,
  obj (field "formatVersion" (ModelCallReservation.format_version r)
    ++ field "callId" (ModelCallReservation.call_id r)
    ++ field "plannerId" (ModelCallReservation.planner_id r)
    ++ field "callIndex" (ModelCallReservation.call_index r)
    ++ field "turnIndex" (ModelCallReservation.turn_index r)
    ++ field "baseSequence" (ModelCallReservation.base_sequence r)
    ++ field "baseHeadDigest" (ModelCallReservation.base_head_digest r)
    ++ field "contextDigest" (ModelCallReservation.context_digest r)
    ++ field "requestDigest" (ModelCallReservation.request_digest r)).

#[export] Instance ser_AgentLoopBudget : Serialize AgentLoopBudget := λ b,
  obj (field "maxModelTurns" (AgentLoopBudget.max_model_turns b)
    ++ field "maxPlannedSteps" (AgentLoopBudget.max_planned_steps b)
    ++ field "maxToolCalls" (AgentLoopBudget.max_tool_calls b)
    ++ field "maxContextBytes" (AgentLoopBudget.max_context_bytes b)).

#[export] Instance ser_ExpectedPlanningTurn : Serialize ExpectedPlanningTurn := λ t,
  obj (field "turnIndex" (ExpectedPlanningTurn.turn_index t)
    ++ field_opt "modelCallId" (ExpectedPlanningTurn.model_call_id t)
    ++ field "contextDigest" (ExpectedPlanningTurn.context_digest t)
    ++ field "proposalDigest" (ExpectedPlanningTurn.proposal_digest t)).

#[export] Instance ser_PlannedInvocationBinding : Serialize PlannedInvocationBinding := λ b,
  obj (field "formatVersion" (PlannedInvocationBinding.format_version b)
    ++ field "planId" (PlannedInvocationBinding.plan_id b)
    ++ field "proposalDigest" (PlannedInvocationBinding.proposal_digest b)
    ++ field "capabilityId" (PlannedInvocationBinding.capability_id b)
    ++ field "contractVersion" (PlannedInvocationBinding.contract_version b)
    ++ field "definitionDigest" (PlannedInvocationBinding.definition_digest b)
    ++ field "actionDigest" (PlannedInvocationBinding.action_digest b)
    ++ field "planInputDigest" (PlannedInvocationBinding.plan_input_digest b)
    ++ field "executionProfile" (PlannedInvocationBinding.execution_profile b)
    ++ field "targetOs" (PlannedInvocationBinding.target_os b)
    ++ field "targetArch" (PlannedInvocationBinding.target_arch b)
    ++ field "specDigest" (PlannedInvocationBinding.spec_digest b)
    ++ field "planInputRecordDigest" (PlannedInvocationBinding.plan_input_record_digest b)).

#[export] Instance ser_AcceptedPlanStep : Serialize AcceptedPlanStep := λ s,
  obj (field "stepId" (AcceptedPlanStep.step_id s)
    ++ field "objective" (AcceptedPlanStep.objective s)
    ++ field "dependsOn" (AcceptedPlanStep.depends_on s)
    ++ field "invocation" (AcceptedPlanStep.invocation s)).

(** The members of an event body besides its tag. *)
Definition body_members (b : RunEventBody) : list (string * Value) :=
  match b with
  | RunEventBody.RunCreated goal => field "goal" goal
  | RunEventBody.AgentLoopConfigured budget => field "budget" budget
  | RunEventBody.ModelCallLifecycleConfigured budget => field "budget" budget
  | RunEventBody.ModelCallReserved reservation => field "reservation" reservation
  | RunEventBody.ModelCallBecameUnknown call_id reason =>
      field "callId" call_id ++ field "reason" reason
  | RunEventBody.ModelCallSettled call_id settlement =>
      field "callId" call_id ++ field "settlement" settlement
  | RunEventBody.PlanAccepted decision steps =>
      field "decision" decision ++ field "steps" steps
  | RunEventBody.CompletionCandidateRecorded decision candidate_id summary_digest output =>
      field "decision" decision ++ field "candidateId" candidate_id
      ++ field "summaryDigest" summary_digest
      ++ field_opt "completionOutputRecordDigest" output
  | RunEventBody.StepPlanned step_id objective depends_on =>
      field "stepId" step_id ++ field "objective" objective ++ field_vec "dependsOn" depends_on
  | RunEventBody.EffectIntentCommitted step_id intent =>
      field "stepId" step_id ++ field "intent" intent
  | RunEventBody.InvocationMaterialUnavailable step_id effect_id reason =>
      field "stepId" step_id ++ field "effectId" effect_id ++ field "reason" reason
  | RunEventBody.EffectExecutionStarted step_id effect_id =>
      field "stepId" step_id ++ field "effectId" effect_id
  | RunEventBody.EffectSucceeded step_id effect_id evidence_digest output =>
      field "stepId" step_id ++ field "effectId" effect_id
      ++ field "receiptDigest" evidence_digest ++ field_opt "outputRecordDigest" output
  | RunEventBody.EffectFailed step_id effect_id evidence_digest =>
      field "stepId" step_id ++ field "effectId" effect_id
      ++ field "receiptDigest" evidence_digest
  | RunEventBody.EffectBecameUnknown step_id effect_id reason =>
      field "stepId" step_id ++ field "effectId" effect_id ++ field "reason" reason
  | RunEventBody.ReconciliationStarted step_id effect_id =>
      field "stepId" step_id ++ field "effectId" effect_id
  | RunEventBody.ReconciliationResolved step_id effect_id resolution evidence_digest =>
      field "stepId" step_id ++ field "effectId" effect_id
      ++ field "resolution" resolution ++ field "evidenceDigest" evidence_digest
  | RunEventBody.ManualInterventionRequired step_id effect_id reason =>
      field "stepId" step_id ++ field "effectId" effect_id ++ field "reason" reason
  | RunEventBody.VerificationPassed step_id => field "stepId" step_id
  | RunEventBody.VerificationFailed step_id reason =>
      field "stepId" step_id ++ field "reason" reason
  | RunEventBody.VerificationRecorded step_id effect_id disposition receipt_id receipt_digest =>
      field "stepId" step_id ++ field "effectId" effect_id
      ++ field "disposition" disposition ++ field "receiptId" receipt_id
      ++ field "receiptDigest" receipt_digest
  end.

(** [tag = "type"]; the snake-case tag is the string [RunEventBody::kind] returns. *)
#[export] Instance ser_RunEventBody : Serialize RunEventBody := λ b,
  obj (field "type" (RunEventBody.kind b) ++ body_members b).

#[export] Instance ser_RunEvent : Serialize RunEvent := λ e,
  obj (field "eventId" (RunEvent.event_id e)
    ++ field "runId" (RunEvent.run_id e)
    ++ field "authority" (RunEvent.authority e)
    ++ field "authorityEpoch" (RunEvent.authority_epoch e)
    ++ field "recordedAt" (RunEvent.recorded_at e)
    ++ field "body" (RunEvent.body e)).

(** [struct DigestInput]: what an event record's digest covers. *)
Definition DigestInput (sequence : N) (previous_digest : option string) (event : RunEvent) : Value :=
  obj (field "sequence" sequence ++ field "previousDigest" previous_digest
    ++ field "event" event).

(** ** Injectivity *)

(** An enumeration with distinct tags. *)
Ltac enum_inj := intros [] []; try done; intros H; vm_compute in H; discriminate H.

#[export] Instance ser_ReceiptPlacement_inj : Inj (=) (=) (ser : ReceiptPlacement → Value).
Proof. enum_inj. Qed.
#[export] Instance ser_ReceiptVerificationStrategy_inj :
  Inj (=) (=) (ser : ReceiptVerificationStrategy → Value).
Proof. enum_inj. Qed.
#[export] Instance ser_VerificationDisposition_inj :
  Inj (=) (=) (ser : VerificationDisposition → Value).
Proof. enum_inj. Qed.
#[export] Instance ser_EffectClass_inj : Inj (=) (=) (ser : EffectClass → Value).
Proof. enum_inj. Qed.
#[export] Instance ser_SinkGuarantee_inj : Inj (=) (=) (ser : SinkGuarantee → Value).
Proof. enum_inj. Qed.
#[export] Instance ser_ReconciliationResolution_inj :
  Inj (=) (=) (ser : ReconciliationResolution → Value).
Proof. enum_inj. Qed.
#[export] Instance ser_InvocationMaterialUnavailableReason_inj :
  Inj (=) (=) (ser : InvocationMaterialUnavailableReason → Value).
Proof. enum_inj. Qed.
#[export] Instance ser_ModelCallUnknownReason_inj :
  Inj (=) (=) (ser : ModelCallUnknownReason → Value).
Proof. enum_inj. Qed.
#[export] Instance ser_ModelCallRejectionReason_inj :
  Inj (=) (=) (ser : ModelCallRejectionReason → Value).
Proof. enum_inj. Qed.
#[export] Instance ser_ModelCallAbandonmentReason_inj :
  Inj (=) (=) (ser : ModelCallAbandonmentReason → Value).
Proof. enum_inj. Qed.
#[export] Instance ser_PlannedExecutionProfile_inj :
  Inj (=) (=) (ser : PlannedExecutionProfile → Value).
Proof. enum_inj. Qed.

Lemma ser_option_string_inj (o1 o2 : option string) : ser o1 = ser o2 → o1 = o2.
Proof. apply ser_option_inj; [apply _|apply ser_string_not_null]. Qed.

(** Two serialised values: unfold their instance once. *)
Ltac ser_unfold H :=
  lazymatch type of H with
  | @ser _ ?i ?x = @ser _ ?i ?y => change (i x = i y) in H; unfold i in H; cbv beta in H
  end.

(** Cancel the injective [ser] of every member. *)
Ltac ser_cancel :=
  repeat match goal with
  | H : Some _ = Some _ |- _ => apply (inj Some) in H
  | H : Some _ = None |- _ => discriminate H
  | H : None = Some _ |- _ => discriminate H
  | H : @ser (option string) _ _ = ser _ |- _ => apply ser_option_string_inj in H
  | H : ser _ = ser _ |- _ => apply (inj ser) in H
  end.

Ltac record_inj :=
  let H := fresh "H" in
  intros H; ser_unfold H;
  obj_inv H; ser_cancel; by subst.

#[export] Instance ser_ModelCallSettlement_inj : Inj (=) (=) (ser : ModelCallSettlement → Value).
Proof.
  intros [r1|r1] [r2|r2] H; ser_unfold H; obj_inv H;
    first [discriminate | ser_cancel; by subst].
Qed.

#[export] Instance ser_ReceiptVerificationRule_inj :
  Inj (=) (=) (ser : ReceiptVerificationRule → Value).
Proof. intros [] []. record_inj. Qed.

#[export] Instance ser_ReceiptProvenance_inj : Inj (=) (=) (ser : ReceiptProvenance → Value).
Proof. intros [? []] [? []]; record_inj. Qed.

#[export] Instance ser_InvocationBinding_inj : Inj (=) (=) (ser : InvocationBinding → Value).
Proof. intros [] []. record_inj. Qed.

#[export] Instance ser_AuthorizationBinding_inj :
  Inj (=) (=) (ser : AuthorizationBinding → Value).
Proof.
  intros [? ? ? ? ? ? ? ? ? ? ? ? ? ? ? []] [? ? ? ? ? ? ? ? ? ? ? ? ? ? ? []]; record_inj.
Qed.

#[export] Instance ser_AuthorizationUse_inj : Inj (=) (=) (ser : AuthorizationUse → Value).
Proof. intros [] []. record_inj. Qed.

#[export] Instance ser_EffectIntent_inj : Inj (=) (=) (ser : EffectIntent → Value).
Proof. intros [? ? ? ? ? ? ? []] [? ? ? ? ? ? ? []]; record_inj. Qed.

#[export] Instance ser_ModelCallBudget_inj : Inj (=) (=) (ser : ModelCallBudget → Value).
Proof. intros [] []. record_inj. Qed.

#[export] Instance ser_ModelCallReservation_inj :
  Inj (=) (=) (ser : ModelCallReservation → Value).
Proof. intros [] []. record_inj. Qed.

#[export] Instance ser_AgentLoopBudget_inj : Inj (=) (=) (ser : AgentLoopBudget → Value).
Proof. intros [] []. record_inj. Qed.

#[export] Instance ser_ExpectedPlanningTurn_inj :
  Inj (=) (=) (ser : ExpectedPlanningTurn → Value).
Proof. intros [? []] [? []]; record_inj. Qed.

#[export] Instance ser_PlannedInvocationBinding_inj :
  Inj (=) (=) (ser : PlannedInvocationBinding → Value).
Proof. intros [] []. record_inj. Qed.

#[export] Instance ser_AcceptedPlanStep_inj : Inj (=) (=) (ser : AcceptedPlanStep → Value).
Proof. intros [] []. record_inj. Qed.

Lemma NoDup_body_members (b : RunEventBody) :
  NoDup (field "type" (RunEventBody.kind b) ++ body_members b).*1.
Proof.
  destruct b as [| | | | | | |? ? ? []|? ? []| | | |? ? ? []| | | | | | | |]; cbn; obj_keys.
Qed.

Lemma ser_RunEventBody_kind (b1 b2 : RunEventBody) :
  ser b1 = ser b2 → RunEventBody.kind b1 = RunEventBody.kind b2.
Proof.
  intros H. ser_unfold H.
  pose proof (obj_member "type" _ _ H (NoDup_body_members b1) (NoDup_body_members b2)) as Hk.
  cbn in Hk. by ser_cancel.
Qed.

(** The tag determines the variant, the members its fields. *)
#[export] Instance ser_RunEventBody_inj : Inj (=) (=) (ser : RunEventBody → Value).
Proof.
  intros b1 b2 H. pose proof (ser_RunEventBody_kind b1 b2 H) as Hkind. ser_unfold H.
  destruct b1 as [| | | | | | |? ? ? o1|? ? l1| | | |? ? ? o1| | | | | | | |], b2 as [| | | | | | |? ? ? o2|? ? l2| | | |? ? ? o2| | | | | | | |];
    try discriminate Hkind; clear Hkind;
    try (destruct o1, o2); try (destruct l1, l2);
    unfold body_members, RunEventBody.kind in H; obj_inv H; ser_cancel; congruence.
Qed.

#[export] Instance ser_RunEvent_inj : Inj (=) (=) (ser : RunEvent → Value).
Proof. intros [] []. record_inj. Qed.

Lemma DigestInput_inj s1 p1 e1 s2 p2 e2 :
  DigestInput s1 p1 e1 = DigestInput s2 p2 e2 → s1 = s2 ∧ p1 = p2 ∧ e1 = e2.
Proof. intros H. unfold DigestInput in H. obj_inv H. ser_cancel. by subst. Qed.

(** ** Members in key order *)

Ltac sorted_record :=
  lazymatch goal with
  | |- members_sorted (@ser _ ?i ?x) => change (members_sorted (i x)); unfold i
  end; sorted_obj.

Lemma sorted_ModelCallSettlement (s : ModelCallSettlement) : members_sorted (ser s).
Proof. destruct s; sorted_record; done. Qed.
Lemma sorted_ReceiptVerificationRule (s : ReceiptVerificationRule) : members_sorted (ser s).
Proof. destruct s. sorted_record; done. Qed.
#[export] Hint Resolve sorted_ModelCallSettlement sorted_ReceiptVerificationRule : wire.
Lemma sorted_ReceiptProvenance (s : ReceiptProvenance) : members_sorted (ser s).
Proof. destruct s as [? []]; sorted_record; done. Qed.
Lemma sorted_InvocationBinding (s : InvocationBinding) : members_sorted (ser s).
Proof. destruct s; sorted_record; done. Qed.
Lemma sorted_AuthorizationBinding (s : AuthorizationBinding) : members_sorted (ser s).
Proof. destruct s as [? ? ? ? ? ? ? ? ? ? ? ? ? ? ? []]; sorted_record; done. Qed.
#[export] Hint Resolve sorted_ReceiptProvenance sorted_InvocationBinding
  sorted_AuthorizationBinding : wire.
Lemma sorted_AuthorizationUse (s : AuthorizationUse) : members_sorted (ser s).
Proof. destruct s; sorted_record; done. Qed.
#[export] Hint Resolve sorted_AuthorizationUse : wire.
Lemma sorted_EffectIntent (s : EffectIntent) : members_sorted (ser s).
Proof. destruct s as [? ? ? ? ? ? ? []]; sorted_record; done. Qed.
Lemma sorted_ModelCallBudget (s : ModelCallBudget) : members_sorted (ser s).
Proof. destruct s; sorted_record; done. Qed.
Lemma sorted_ModelCallReservation (s : ModelCallReservation) : members_sorted (ser s).
Proof. destruct s; sorted_record; done. Qed.
Lemma sorted_AgentLoopBudget (s : AgentLoopBudget) : members_sorted (ser s).
Proof. destruct s; sorted_record; done. Qed.
Lemma sorted_ExpectedPlanningTurn (s : ExpectedPlanningTurn) : members_sorted (ser s).
Proof. destruct s as [? []]; sorted_record; done. Qed.
Lemma sorted_PlannedInvocationBinding (s : PlannedInvocationBinding) : members_sorted (ser s).
Proof. destruct s; sorted_record; done. Qed.
#[export] Hint Resolve sorted_EffectIntent sorted_ModelCallBudget sorted_ModelCallReservation
  sorted_AgentLoopBudget sorted_ExpectedPlanningTurn sorted_PlannedInvocationBinding : wire.
Lemma sorted_AcceptedPlanStep (s : AcceptedPlanStep) : members_sorted (ser s).
Proof. destruct s; sorted_record; done. Qed.
#[export] Hint Resolve sorted_AcceptedPlanStep : wire.
Lemma sorted_RunEventBody (s : RunEventBody) : members_sorted (ser s).
Proof.
  destruct s as [| | | | | | |? ? ? []|? ? []| | | |? ? ? []| | | | | | | |];
    sorted_record; done.
Qed.
#[export] Hint Resolve sorted_RunEventBody : wire.
Lemma sorted_RunEvent (s : RunEvent) : members_sorted (ser s).
Proof. destruct s; sorted_record; done. Qed.
#[export] Hint Resolve sorted_RunEvent : wire.
Lemma sorted_DigestInput s p e : members_sorted (DigestInput s p e).
Proof. unfold DigestInput. sorted_obj; done. Qed.
#[export] Hint Resolve sorted_DigestInput : wire.
