(* ===== verification/Planning.v ===== *)
(** Planning contracts of [xgeny-workgraph]: identifier and digest syntax, budgets,
    model-call reservations, accepted-turn decisions and planned invocations. *)

From Stdlib Require Import Ascii.
From S2P Require Import Prelude Text Wire WorkGraphTypes WorkGraphErrors WorkGraphWire.

Definition PLANNED_INVOCATION_FORMAT_VERSION : N := 1.
Definition MODEL_CALL_FORMAT_VERSION : N := 1.
Definition MAX_ACCEPTED_PLAN_STEPS : N := 32.
Definition MAX_ACCEPTED_PLAN_EDGES : N := 128.
Definition MAX_ACCEPTED_OBJECTIVE_BYTES : N := 5000.

(** ** Syntax checks *)

Definition require_planning_identifier (field value : string) : res PlanningContractError unit :=
  bail_if is_empty value || bool_decide (256 < strlen value)%N || any_control value
    with PlanningContractError.InvalidIdentifier field;;
  Ok tt.

Definition require_model_call_identifier (field value : string) : res PlanningContractError unit :=
  bail_if is_empty value || bool_decide (256 < strlen value)%N
          || negb (all_bytes (λ b, is_ascii_alphanumeric b || is_name_punct b) value)
    with PlanningContractError.InvalidIdentifier field;;
  Ok tt.

Definition require_model_call_id (field value : string) : res PlanningContractError unit :=
  let? _ := require_model_call_identifier field value in
  let? encoded := ok_or (strip_prefix "model-call-" value)
                    (PlanningContractError.InvalidIdentifier field) in
  bail_if negb (is_lower_hex64 encoded) with PlanningContractError.InvalidIdentifier field;;
  Ok tt.

Definition require_planning_digest (field value : string) : res PlanningContractError unit :=
  bail_if negb (is_sha256_digest value) with PlanningContractError.InvalidDigest field;;
  Ok tt.

(** ** Budgets *)

Definition ModelCallBudget_validate (b : ModelCallBudget) : res PlanningContractError unit :=
  bail_if bool_decide (ModelCallBudget.max_model_calls b = 0)%N
    with PlanningContractError.ZeroBudget "max_model_calls";;
  Ok tt.

Definition ModelCallBudget_new (max_model_calls : N) : res PlanningContractError ModelCallBudget :=
  let budget := ModelCallBudget.mk max_model_calls in
  let? _ := ModelCallBudget_validate budget in
  Ok budget.

Definition AgentLoopBudget_validate (b : AgentLoopBudget) : res PlanningContractError unit :=
  let nonzero v := bool_decide (v ≠ 0)%N in
  match first_mismatch [
      ("max_model_turns", nonzero (AgentLoopBudget.max_model_turns b));
      ("max_planned_steps", nonzero (AgentLoopBudget.max_planned_steps b));
      ("max_tool_calls", nonzero (AgentLoopBudget.max_tool_calls b));
      ("max_context_bytes", nonzero (AgentLoopBudget.max_context_bytes b))] with
  | Some field => Err (PlanningContractError.ZeroBudget field)
  | None => Ok tt
  end.

Definition AgentLoopBudget_new (max_model_turns max_planned_steps max_tool_calls
    max_context_bytes : N) : res PlanningContractError AgentLoopBudget :=
  let budget := AgentLoopBudget.mk max_model_turns max_planned_steps max_tool_calls
                  max_context_bytes in
  let? _ := AgentLoopBudget_validate budget in
  Ok budget.

(** ** Model-call reservations *)

Definition ModelCallIdDigestInput (run_id : string) (authority_epoch : N) (planner_id : string)
    (call_index turn_index base_sequence : N)
    (base_head_digest context_digest request_digest : string) : Value :=
  obj (field "domain" ("xgeny.model-call.id/v1" : string)
    ++ field "formatVersion" MODEL_CALL_FORMAT_VERSION
    ++ field "runId" run_id
    ++ field "authorityEpoch" authority_epoch
    ++ field "plannerId" planner_id
    ++ field "callIndex" call_index
    ++ field "turnIndex" turn_index
    ++ field "baseSequence" base_sequence
    ++ field "baseHeadDigest" base_head_digest
    ++ field "contextDigest" context_digest
    ++ field "requestDigest" request_digest).

Definition model_call_id `{Crypto} (run_id : string) (authority_epoch : N) (planner_id : string)
    (call_index turn_index base_sequence : N)
    (base_head_digest context_digest request_digest : string)
    : res PlanningContractError string :=
  let? digest := canonical_digest PlanningContractError.Canonicalization
    (ModelCallIdDigestInput run_id authority_epoch planner_id call_index turn_index
       base_sequence base_head_digest context_digest request_digest) in
  Ok ("model-call-" +:+ encoded_digest digest).

Definition ModelCallReservation_new `{Crypto} (run_id : string) (authority_epoch : N)
    (planner_id : string) (call_index turn_index base_sequence : N)
    (base_head_digest context_digest request_digest : string)
    : res PlanningContractError ModelCallReservation :=
  let? _ := require_planning_identifier "run_id" run_id in
  let? _ := require_model_call_identifier "planner_id" planner_id in
  bail_if bool_decide (call_index = 0)%N with PlanningContractError.ModelCallIndexZero;;
  bail_if bool_decide (turn_index = 0)%N with PlanningContractError.TurnIndexZero;;
  let? _ := require_planning_digest "base_head_digest" base_head_digest in
  let? _ := require_planning_digest "context_digest" context_digest in
  let? _ := require_planning_digest "request_digest" request_digest in
  let? call_id := model_call_id run_id authority_epoch planner_id call_index turn_index
                    base_sequence base_head_digest context_digest request_digest in
  Ok (ModelCallReservation.mk MODEL_CALL_FORMAT_VERSION call_id planner_id call_index
        turn_index base_sequence base_head_digest context_digest request_digest).

Definition ModelCallReservation_validate_for `{Crypto} (r : ModelCallReservation)
    (run_id : string) (authority_epoch : N) : res PlanningContractError unit :=
  bail_if bool_decide (ModelCallReservation.format_version r ≠ MODEL_CALL_FORMAT_VERSION)
    with PlanningContractError.UnsupportedModelCallFormatVersion
           (ModelCallReservation.format_version r);;
  let? _ := require_planning_identifier "run_id" run_id in
  let? _ := require_model_call_id "call_id" (ModelCallReservation.call_id r) in
  let? _ := require_model_call_identifier "planner_id" (ModelCallReservation.planner_id r) in
  bail_if bool_decide (ModelCallReservation.call_index r = 0)%N
    with PlanningContractError.ModelCallIndexZero;;
  bail_if bool_decide (ModelCallReservation.turn_index r = 0)%N
    with PlanningContractError.TurnIndexZero;;
  let? _ := require_planning_digest "base_head_digest" (ModelCallReservation.base_head_digest r) in
  let? _ := require_planning_digest "context_digest" (ModelCallReservation.context_digest r) in
  let? _ := require_planning_digest "request_digest" (ModelCallReservation.request_digest r) in
  let? expected := model_call_id run_id authority_epoch
    (ModelCallReservation.planner_id r) (ModelCallReservation.call_index r)
    (ModelCallReservation.turn_index r) (ModelCallReservation.base_sequence r)
    (ModelCallReservation.base_head_digest r) (ModelCallReservation.context_digest r)
    (ModelCallReservation.request_digest r) in
  bail_if bool_decide (ModelCallReservation.call_id r ≠ expected)
    with PlanningContractError.ModelCallIdMismatch;;
  Ok tt.

(** ** Accepted-turn decisions *)

Definition ExpectedPlanningTurn_validate (t : ExpectedPlanningTurn)
    : res PlanningContractError unit :=
  bail_if bool_decide (ExpectedPlanningTurn.turn_index t = 0)%N
    with PlanningContractError.TurnIndexZero;;
  let? _ := match ExpectedPlanningTurn.model_call_id t with
            | Some call_id => require_model_call_id "model_call_id" call_id
            | None => Ok tt
            end in
  let? _ := require_planning_digest "context_digest" (ExpectedPlanningTurn.context_digest t) in
  require_planning_digest "proposal_digest" (ExpectedPlanningTurn.proposal_digest t).

Definition ExpectedPlanningTurn_new (turn_index : N) (context_digest proposal_digest : string)
    : res PlanningContractError ExpectedPlanningTurn :=
  let turn := ExpectedPlanningTurn.mk turn_index None context_digest proposal_digest in
  let? _ := ExpectedPlanningTurn_validate turn in
  Ok turn.

Definition ExpectedPlanningTurn_for_model_call (turn_index : N)
    (call_id context_digest proposal_digest : string)
    : res PlanningContractError ExpectedPlanningTurn :=
  let turn := ExpectedPlanningTurn.mk turn_index (Some call_id) context_digest proposal_digest in
  let? _ := ExpectedPlanningTurn_validate turn in
  Ok turn.

(** ** Planned invocations *)

Definition PlannedInvocationSpec_validate (s : PlannedInvocationSpec)
    : res PlanningContractError unit :=
  let? _ := require_planning_identifier "capability_id" (PlannedInvocationSpec.capability_id s) in
  let? _ := require_planning_identifier "contract_version"
              (PlannedInvocationSpec.contract_version s) in
  let? _ := require_planning_identifier "target_os" (PlannedInvocationSpec.target_os s) in
  let? _ := require_planning_identifier "target_arch" (PlannedInvocationSpec.target_arch s) in
  bail_if negb (bool_decide (PlannedInvocationSpec.target_os s ∈ ["linux"; "macos"; "windows"]))
    with PlanningContractError.UnsupportedTarget "target_os";;
  bail_if negb (bool_decide (PlannedInvocationSpec.target_arch s ∈ ["x86_64"; "aarch64"]))
    with PlanningContractError.UnsupportedTarget "target_arch";;
  let? _ := require_planning_digest "definition_digest"
              (PlannedInvocationSpec.definition_digest s) in
  let? _ := require_planning_digest "action_digest" (PlannedInvocationSpec.action_digest s) in
  require_planning_digest "plan_input_digest" (PlannedInvocationSpec.plan_input_digest s).

Definition PlannedInvocationSpec_new (capability_id contract_version definition_digest
    action_digest plan_input_digest : string) (execution_profile : PlannedExecutionProfile)
    (target_os target_arch : string) : res PlanningContractError PlannedInvocationSpec :=
  let spec := PlannedInvocationSpec.mk capability_id contract_version definition_digest
    action_digest plan_input_digest execution_profile target_os target_arch in
  let? _ := PlannedInvocationSpec_validate spec in
  Ok spec.

Definition PlannedInvocationSpecDigestInput (s : PlannedInvocationSpec) : Value :=
  obj (field "domain" ("xgeny.planned-invocation.spec/v1" : string)
    ++ field "capabilityId" (PlannedInvocationSpec.capability_id s)
    ++ field "contractVersion" (PlannedInvocationSpec.contract_version s)
    ++ field "definitionDigest" (PlannedInvocationSpec.definition_digest s)
    ++ field "actionDigest" (PlannedInvocationSpec.action_digest s)
    ++ field "planInputDigest" (PlannedInvocationSpec.plan_input_digest s)
    ++ field "executionProfile" (PlannedInvocationSpec.execution_profile s)
    ++ field "targetOs" (PlannedInvocationSpec.target_os s)
    ++ field "targetArch" (PlannedInvocationSpec.target_arch s)).

Definition planned_invocation_spec_digest `{Crypto} (s : PlannedInvocationSpec)
    : res PlanningContractError string :=
  canonical_digest PlanningContractError.Canonicalization (PlannedInvocationSpecDigestInput s).

Definition PlannedInvocationIdInput (run_id step_id proposal_digest spec_digest : string) : Value :=
  obj (field "domain" ("xgeny.planned-invocation.id/v1" : string)
    ++ field "runId" run_id ++ field "stepId" step_id
    ++ field "proposalDigest" proposal_digest ++ field "specDigest" spec_digest).

Definition planned_invocation_id `{Crypto} (run_id step_id proposal_digest spec_digest : string)
    : res PlanningContractError string :=
  let? digest := canonical_digest PlanningContractError.Canonicalization
    (PlannedInvocationIdInput run_id step_id proposal_digest spec_digest) in
  Ok ("plan-" +:+ encoded_digest digest).

Definition as_spec (b : PlannedInvocationBinding) : PlannedInvocationSpec :=
  PlannedInvocationSpec.mk
    (PlannedInvocationBinding.capability_id b) (PlannedInvocationBinding.contract_version b)
    (PlannedInvocationBinding.definition_digest b) (PlannedInvocationBinding.action_digest b)
    (PlannedInvocationBinding.plan_input_digest b)
    (PlannedInvocationBinding.execution_profile b)
    (PlannedInvocationBinding.target_os b) (PlannedInvocationBinding.target_arch b).

Definition PlannedInvocationBinding_validate `{Crypto} (b : PlannedInvocationBinding)
    : res PlanningContractError unit :=
  bail_if bool_decide
      (PlannedInvocationBinding.format_version b ≠ PLANNED_INVOCATION_FORMAT_VERSION)
    with PlanningContractError.UnsupportedFormatVersion
           (PlannedInvocationBinding.format_version b);;
  let? _ := require_planning_identifier "plan_id" (PlannedInvocationBinding.plan_id b) in
  let? _ := require_planning_digest "proposal_digest"
              (PlannedInvocationBinding.proposal_digest b) in
  let? _ := require_planning_digest "spec_digest" (PlannedInvocationBinding.spec_digest b) in
  let? _ := require_planning_digest "plan_input_record_digest"
              (PlannedInvocationBinding.plan_input_record_digest b) in
  let? _ := PlannedInvocationSpec_validate (as_spec b) in
  let? expected := planned_invocation_spec_digest (as_spec b) in
  bail_if bool_decide (expected ≠ PlannedInvocationBinding.spec_digest b)
    with PlanningContractError.SpecDigestMismatch;;
  Ok tt.

(** ** No check panics *)

Ltac no_panic_tac :=
  repeat first
    [ apply no_panic_ok | apply no_panic_err | apply no_panic_ok_or
    | apply no_panic_canonical_digest
    | progress auto with rust
    | apply no_panic_map_err
    | apply no_panic_bind; [|intros ? ?]
    | apply no_panic_if
    | case_match ].

Lemma no_panic_identifier f v : no_panic (require_planning_identifier f v).
Proof. unfold require_planning_identifier. no_panic_tac. Qed.
Lemma no_panic_model_call_identifier f v : no_panic (require_model_call_identifier f v).
Proof. unfold require_model_call_identifier. no_panic_tac. Qed.
#[export] Hint Resolve no_panic_identifier no_panic_model_call_identifier : rust.
Lemma no_panic_model_call_id f v : no_panic (require_model_call_id f v).
Proof. unfold require_model_call_id. no_panic_tac. Qed.
Lemma no_panic_digest f v : no_panic (require_planning_digest f v).
Proof. unfold require_planning_digest. no_panic_tac. Qed.
#[export] Hint Resolve no_panic_model_call_id no_panic_digest : rust.

Section no_panic.
Context `{Crypto}.

Lemma no_panic_ModelCallBudget b : no_panic (ModelCallBudget_validate b).
Proof. unfold ModelCallBudget_validate. no_panic_tac. Qed.
Lemma no_panic_AgentLoopBudget b : no_panic (AgentLoopBudget_validate b).
Proof. unfold AgentLoopBudget_validate. no_panic_tac. Qed.
Lemma no_panic_reservation r run_id epoch : no_panic (ModelCallReservation_validate_for r run_id epoch).
Proof. unfold ModelCallReservation_validate_for, model_call_id. no_panic_tac. Qed.
Lemma no_panic_turn t : no_panic (ExpectedPlanningTurn_validate t).
Proof. unfold ExpectedPlanningTurn_validate. no_panic_tac. Qed.
Lemma no_panic_spec s : no_panic (PlannedInvocationSpec_validate s).
Proof. unfold PlannedInvocationSpec_validate. no_panic_tac. Qed.
Lemma no_panic_binding b : no_panic (PlannedInvocationBinding_validate b).
Proof.
  unfold PlannedInvocationBinding_validate, planned_invocation_spec_digest,
    PlannedInvocationSpec_validate. no_panic_tac.
Qed.
End no_panic.

#[export] Hint Resolve no_panic_ModelCallBudget no_panic_AgentLoopBudget no_panic_reservation
  no_panic_turn no_panic_spec no_panic_binding : rust.
