(* ===== verification/Material.v ===== *)
(** Content-addressed sidecars and identities: the planned-invocation recipe record, the
    invocation-material record, and the authorization and provenance digests the reducer
    checks (crates/xgeny-workgraph/src/lib.rs). *)

From Stdlib Require Import Ascii.
From S2P Require Import Prelude Text Wire WorkGraphTypes WorkGraphErrors WorkGraphWire Planning.

Definition INVOCATION_MATERIAL_FORMAT_VERSION : N := 1.
Definition MAX_MATERIAL_REFERENCE_COMPONENT_BYTES : N := 128.

(** ** References *)

Module ReconstructableMaterialReference.
Record ReconstructableMaterialReference : Type := mk {
  provider_id : string;
  reference_id : string;
  revision : string;
}.
End ReconstructableMaterialReference.
Abbreviation ReconstructableMaterialReference :=
  ReconstructableMaterialReference.ReconstructableMaterialReference.

Module InvocationMaterialRetention.
Inductive InvocationMaterialRetention : Type :=
| Ephemeral
| ReconstructableReference (reference : ReconstructableMaterialReference).
End InvocationMaterialRetention.
Abbreviation InvocationMaterialRetention := InvocationMaterialRetention.InvocationMaterialRetention.

Definition validate_reference_component (field value : string) : res InvocationMaterialError unit :=
  bail_if is_empty value with InvocationMaterialError.InvalidReferenceComponent field;;
  bail_if bool_decide (value ∈ ["."; ".."])
          || bool_decide (MAX_MATERIAL_REFERENCE_COMPONENT_BYTES < strlen value)%N
          || negb (all_bytes (λ b, is_ascii_alphanumeric b || is_name_punct b) value)
    with InvocationMaterialError.InvalidReferenceComponent field;;
  Ok tt.

Definition ReconstructableMaterialReference_validate (r : ReconstructableMaterialReference)
    : res InvocationMaterialError unit :=
  let? _ := validate_reference_component "provider_id"
              (ReconstructableMaterialReference.provider_id r) in
  let? _ := validate_reference_component "reference_id"
              (ReconstructableMaterialReference.reference_id r) in
  validate_reference_component "revision" (ReconstructableMaterialReference.revision r).

Definition ReconstructableMaterialReference_new (provider_id reference_id revision : string)
    : res InvocationMaterialError ReconstructableMaterialReference :=
  let reference := ReconstructableMaterialReference.mk provider_id reference_id revision in
  let? _ := validate_reference_component "provider_id" provider_id in
  let? _ := validate_reference_component "reference_id" reference_id in
  let? _ := validate_reference_component "revision" revision in
  Ok reference.

#[export] Instance ser_ReconstructableMaterialReference :
    Serialize ReconstructableMaterialReference := λ r,
  obj (field "providerId" (ReconstructableMaterialReference.provider_id r)
    ++ field "referenceId" (ReconstructableMaterialReference.reference_id r)
    ++ field "revision" (ReconstructableMaterialReference.revision r)).

(** [tag = "mode", content = "reference"]. *)
#[export] Instance ser_InvocationMaterialRetention : Serialize InvocationMaterialRetention := λ r,
  match r with
  | InvocationMaterialRetention.Ephemeral => obj (field "mode" ("ephemeral" : string))
  | InvocationMaterialRetention.ReconstructableReference reference =>
      obj (field "mode" ("reconstructable_reference" : string) ++ field "reference" reference)
  end.

(** ** Planned-invocation recipes *)

Module PlannedInvocationMaterialRecord.
Record PlannedInvocationMaterialRecord : Type := mk {
  format_version : N;
  run_id : string;
  step_id : string;
  plan_id : string;
  proposal_digest : string;
  spec_digest : string;
  reference : ReconstructableMaterialReference;
  record_digest : string;
}.
Definition set_record_digest (v : string) (r : PlannedInvocationMaterialRecord) :=
  mk (format_version r) (run_id r) (step_id r) (plan_id r) (proposal_digest r) (spec_digest r)
    (reference r) v.
End PlannedInvocationMaterialRecord.
Abbreviation PlannedInvocationMaterialRecord :=
  PlannedInvocationMaterialRecord.PlannedInvocationMaterialRecord.

Definition PlannedInvocationMaterialRecordDigestInput (r : PlannedInvocationMaterialRecord) : Value :=
  obj (field "domain" ("xgeny.planned-invocation.material-record/v1" : string)
    ++ field "formatVersion" (PlannedInvocationMaterialRecord.format_version r)
    ++ field "runId" (PlannedInvocationMaterialRecord.run_id r)
    ++ field "stepId" (PlannedInvocationMaterialRecord.step_id r)
    ++ field "planId" (PlannedInvocationMaterialRecord.plan_id r)
    ++ field "proposalDigest" (PlannedInvocationMaterialRecord.proposal_digest r)
    ++ field "specDigest" (PlannedInvocationMaterialRecord.spec_digest r)
    ++ field "reference" (PlannedInvocationMaterialRecord.reference r)).

Definition planned_invocation_material_record_digest `{Crypto}
    (r : PlannedInvocationMaterialRecord) : res PlanningContractError string :=
  canonical_digest PlanningContractError.Canonicalization
    (PlannedInvocationMaterialRecordDigestInput r).

Definition PlannedInvocationMaterialRecord_verify_for `{Crypto}
    (r : PlannedInvocationMaterialRecord) (run_id step_id : string)
    (binding : PlannedInvocationBinding) : res PlanningContractError unit :=
  bail_if bool_decide (PlannedInvocationMaterialRecord.format_version r
                       ≠ PLANNED_INVOCATION_FORMAT_VERSION)
    with PlanningContractError.UnsupportedFormatVersion
           (PlannedInvocationMaterialRecord.format_version r);;
  let? _ := PlannedInvocationBinding_validate binding in
  let? _ := map_err PlanningContractError.InvocationMaterial
    (ReconstructableMaterialReference_validate (PlannedInvocationMaterialRecord.reference r)) in
  bail_if bool_decide (PlannedInvocationMaterialRecord.run_id r ≠ run_id)
    with PlanningContractError.BindingMismatch "run_id";;
  bail_if bool_decide (PlannedInvocationMaterialRecord.step_id r ≠ step_id)
    with PlanningContractError.BindingMismatch "step_id";;
  bail_if bool_decide (PlannedInvocationMaterialRecord.plan_id r
                       ≠ PlannedInvocationBinding.plan_id binding)
    with PlanningContractError.BindingMismatch "plan_id";;
  bail_if bool_decide (PlannedInvocationMaterialRecord.proposal_digest r
                       ≠ PlannedInvocationBinding.proposal_digest binding)
    with PlanningContractError.BindingMismatch "proposal_digest";;
  bail_if bool_decide (PlannedInvocationMaterialRecord.spec_digest r
                       ≠ PlannedInvocationBinding.spec_digest binding)
    with PlanningContractError.BindingMismatch "spec_digest";;
  let? expected_plan_id := planned_invocation_id run_id step_id
    (PlannedInvocationMaterialRecord.proposal_digest r)
    (PlannedInvocationMaterialRecord.spec_digest r) in
  bail_if bool_decide (expected_plan_id ≠ PlannedInvocationMaterialRecord.plan_id r)
    with PlanningContractError.PlanIdMismatch;;
  let? expected_record_digest := planned_invocation_material_record_digest r in
  bail_if bool_decide (expected_record_digest ≠ PlannedInvocationMaterialRecord.record_digest r)
          || bool_decide (PlannedInvocationMaterialRecord.record_digest r
                          ≠ PlannedInvocationBinding.plan_input_record_digest binding)
    with PlanningContractError.RecordDigestMismatch;;
  Ok tt.

Definition PlannedInvocationMaterialRecord_bind `{Crypto}
    (run_id step_id proposal_digest : string) (spec : PlannedInvocationSpec)
    (reference : ReconstructableMaterialReference)
    : res PlanningContractError (PlannedInvocationBinding * PlannedInvocationMaterialRecord) :=
  let? _ := require_planning_identifier "run_id" run_id in
  let? _ := require_planning_identifier "step_id" step_id in
  let? _ := require_planning_digest "proposal_digest" proposal_digest in
  let? _ := PlannedInvocationSpec_validate spec in
  let? _ := map_err PlanningContractError.InvocationMaterial
              (ReconstructableMaterialReference_validate reference) in
  let? spec_digest := planned_invocation_spec_digest spec in
  let? plan_id := planned_invocation_id run_id step_id proposal_digest spec_digest in
  let record := PlannedInvocationMaterialRecord.mk PLANNED_INVOCATION_FORMAT_VERSION run_id step_id
                  plan_id proposal_digest spec_digest reference EmptyString in
  let? record_digest := planned_invocation_material_record_digest record in
  let record := PlannedInvocationMaterialRecord.set_record_digest record_digest record in
  let binding := PlannedInvocationBinding.mk PLANNED_INVOCATION_FORMAT_VERSION plan_id
    proposal_digest
    (PlannedInvocationSpec.capability_id spec) (PlannedInvocationSpec.contract_version spec)
    (PlannedInvocationSpec.definition_digest spec) (PlannedInvocationSpec.action_digest spec)
    (PlannedInvocationSpec.plan_input_digest spec)
    (PlannedInvocationSpec.execution_profile spec)
    (PlannedInvocationSpec.target_os spec) (PlannedInvocationSpec.target_arch spec)
    spec_digest (PlannedInvocationMaterialRecord.record_digest record) in
  let? _ := PlannedInvocationMaterialRecord_verify_for record
    (PlannedInvocationMaterialRecord.run_id record)
    (PlannedInvocationMaterialRecord.step_id record) binding in
  Ok (binding, record).

(** ** Invocation material *)

Module InvocationMaterialRecord.
Record InvocationMaterialRecord : Type := mk {
  format_version : N;
  material_id : string;
  run_id : string;
  step_id : string;
  effect_id : string;
  action_digest : string;
  invocation : InvocationBinding;
  material_digest : string;
  retention : InvocationMaterialRetention;
  record_digest : string;
}.
Definition set_material_id (v : string) (r : InvocationMaterialRecord) :=
  mk (format_version r) v (run_id r) (step_id r) (effect_id r) (action_digest r) (invocation r)
    (material_digest r) (retention r) (record_digest r).
Definition set_record_digest (v : string) (r : InvocationMaterialRecord) :=
  mk (format_version r) (material_id r) (run_id r) (step_id r) (effect_id r) (action_digest r)
    (invocation r) (material_digest r) (retention r) v.
End InvocationMaterialRecord.
Abbreviation InvocationMaterialRecord := InvocationMaterialRecord.InvocationMaterialRecord.

Definition InvocationMaterialDigestInput {T} `{Serialize T} (domain : string) (material : T) : Value :=
  obj (field "domain" domain ++ field "material" material).

Definition InvocationMaterialIdInput (run_id effect_id material_digest : string) : Value :=
  obj (field "domain" ("xgeny.invocation-material.id/v1" : string)
    ++ field "runId" run_id ++ field "effectId" effect_id
    ++ field "materialDigest" material_digest).

Definition InvocationMaterialRecordDigestInput (r : InvocationMaterialRecord) : Value :=
  obj (field "domain" ("xgeny.invocation-material.record/v1" : string)
    ++ field "formatVersion" (InvocationMaterialRecord.format_version r)
    ++ field "materialId" (InvocationMaterialRecord.material_id r)
    ++ field "runId" (InvocationMaterialRecord.run_id r)
    ++ field "stepId" (InvocationMaterialRecord.step_id r)
    ++ field "effectId" (InvocationMaterialRecord.effect_id r)
    ++ field "actionDigest" (InvocationMaterialRecord.action_digest r)
    ++ field "invocation" (InvocationMaterialRecord.invocation r)
    ++ field "materialDigest" (InvocationMaterialRecord.material_digest r)
    ++ field "retention" (InvocationMaterialRecord.retention r)).

Definition invocation_material_digest `{Crypto} {T} `{Serialize T} (material : T)
    : res InvocationMaterialError string :=
  canonical_digest InvocationMaterialError.Canonicalization
    (InvocationMaterialDigestInput "xgeny.invocation-material.payload/v1" material).

Definition invocation_material_retention_digest `{Crypto} (retention : InvocationMaterialRetention)
    : res InvocationMaterialError string :=
  canonical_digest InvocationMaterialError.Canonicalization
    (InvocationMaterialDigestInput "xgeny.invocation-material.retention/v1" retention).

Definition invocation_material_id `{Crypto} (run_id effect_id material_digest : string)
    : res InvocationMaterialError string :=
  let? digest := canonical_digest InvocationMaterialError.Canonicalization
                   (InvocationMaterialIdInput run_id effect_id material_digest) in
  Ok ("material-" +:+ encoded_digest digest).

Definition invocation_material_record_digest `{Crypto} (r : InvocationMaterialRecord)
    : res InvocationMaterialError string :=
  canonical_digest InvocationMaterialError.Canonicalization (InvocationMaterialRecordDigestInput r).

Definition InvocationMaterialRecord_validate_shape (r : InvocationMaterialRecord)
    : res InvocationMaterialError unit :=
  match first_mismatch [
      ("run_id", negb (is_empty (InvocationMaterialRecord.run_id r)));
      ("step_id", negb (is_empty (InvocationMaterialRecord.step_id r)));
      ("effect_id", negb (is_empty (InvocationMaterialRecord.effect_id r)));
      ("action_digest", negb (is_empty (InvocationMaterialRecord.action_digest r)));
      ("material_digest", negb (is_empty (InvocationMaterialRecord.material_digest r)))] with
  | Some field => Err (InvocationMaterialError.EmptyField field)
  | None =>
      match InvocationMaterialRecord.retention r with
      | InvocationMaterialRetention.ReconstructableReference reference =>
          let? _ := ReconstructableMaterialReference_validate reference in
          Ok tt
      | InvocationMaterialRetention.Ephemeral => Ok tt
      end
  end.

Definition InvocationMaterialRecord_verify_for `{Crypto} (r : InvocationMaterialRecord)
    (run_id step_id : string) (intent : EffectIntent) : res InvocationMaterialError unit :=
  bail_if bool_decide (InvocationMaterialRecord.format_version r
                       ≠ INVOCATION_MATERIAL_FORMAT_VERSION)
    with InvocationMaterialError.UnsupportedFormatVersion
           (InvocationMaterialRecord.format_version r);;
  let? _ := InvocationMaterialRecord_validate_shape r in
  bail_if bool_decide (InvocationMaterialRecord.run_id r ≠ run_id)
    with InvocationMaterialError.BindingMismatch "run_id";;
  bail_if bool_decide (InvocationMaterialRecord.step_id r ≠ step_id)
    with InvocationMaterialError.BindingMismatch "step_id";;
  bail_if bool_decide (InvocationMaterialRecord.effect_id r ≠ EffectIntent.effect_id intent)
    with InvocationMaterialError.BindingMismatch "effect_id";;
  bail_if bool_decide (InvocationMaterialRecord.action_digest r ≠ EffectIntent.action_digest intent)
    with InvocationMaterialError.BindingMismatch "action_digest";;
  bail_if bool_decide (InvocationMaterialRecord.invocation r ≠ EffectIntent.invocation intent)
    with InvocationMaterialError.BindingMismatch "invocation";;
  let binding := AuthorizationUse.binding (EffectIntent.authorization intent) in
  bail_if bool_decide (AuthorizationBinding.material_digest binding
                       ≠ InvocationMaterialRecord.material_digest r)
    with InvocationMaterialError.BindingMismatch "material_digest";;
  let? retention_digest :=
    invocation_material_retention_digest (InvocationMaterialRecord.retention r) in
  bail_if bool_decide (AuthorizationBinding.material_retention_digest binding ≠ retention_digest)
    with InvocationMaterialError.BindingMismatch "material_retention_digest";;
  let? expected_id := invocation_material_id (InvocationMaterialRecord.run_id r)
    (InvocationMaterialRecord.effect_id r) (InvocationMaterialRecord.material_digest r) in
  bail_if bool_decide (InvocationMaterialRecord.material_id r ≠ expected_id)
    with InvocationMaterialError.MaterialIdMismatch;;
  let? expected_digest := invocation_material_record_digest r in
  bail_if bool_decide (InvocationMaterialRecord.record_digest r ≠ expected_digest)
    with InvocationMaterialError.RecordDigestMismatch;;
  Ok tt.

Definition InvocationMaterialRecord_new `{Crypto} (run_id step_id : string) (intent : EffectIntent)
    (material_digest : string) (retention : InvocationMaterialRetention)
    : res InvocationMaterialError InvocationMaterialRecord :=
  let record := InvocationMaterialRecord.mk INVOCATION_MATERIAL_FORMAT_VERSION EmptyString
    run_id step_id (EffectIntent.effect_id intent) (EffectIntent.action_digest intent)
    (EffectIntent.invocation intent) material_digest retention EmptyString in
  let? _ := InvocationMaterialRecord_validate_shape record in
  let? material_id := invocation_material_id (InvocationMaterialRecord.run_id record)
    (InvocationMaterialRecord.effect_id record)
    (InvocationMaterialRecord.material_digest record) in
  let record := InvocationMaterialRecord.set_material_id material_id record in
  let? record_digest := invocation_material_record_digest record in
  let record := InvocationMaterialRecord.set_record_digest record_digest record in
  let? _ := InvocationMaterialRecord_verify_for record (InvocationMaterialRecord.run_id record)
    (InvocationMaterialRecord.step_id record) intent in
  Ok record.

(** ** Authorization and provenance digests *)

Definition receipt_provenance_digest `{Crypto} (provenance : ReceiptProvenance)
    : res AuthorizationDigestError string :=
  canonical_digest AuthorizationDigestError.Canonicalization (ser provenance).

Definition OnceAuthorizationIdInput (run_id action_digest : string) : Value :=
  obj (field "domain" ("xgeny.authorization-budget.once/v1" : string)
    ++ field "runId" run_id ++ field "actionDigest" action_digest).

Definition once_authorization_id `{Crypto} (run_id action_digest : string)
    : res AuthorizationDigestError string :=
  let? digest := canonical_digest AuthorizationDigestError.Canonicalization
                   (OnceAuthorizationIdInput run_id action_digest) in
  Ok ("authorization-" +:+ encoded_digest digest).

Definition AuthorizationDigestInput (binding : AuthorizationBinding) (max_uses : N) : Value :=
  obj (field "domain" ("xgeny.authorization.once/v2" : string)
    ++ field "binding" binding ++ field "maxUses" max_uses).

Definition authorization_digest `{Crypto} (binding : AuthorizationBinding) (max_uses : N)
    : res AuthorizationDigestError string :=
  canonical_digest AuthorizationDigestError.Canonicalization
    (AuthorizationDigestInput binding max_uses).
