(* ===== verification/ToolOutput.v ===== *)
(** Bounded tool observations: the structural bounds check of a raw JSON output and the
    self-verifying [ToolOutputRecord] (crates/xgeny-workgraph/src/lib.rs). *)

From Stdlib Require Import Ascii.
From S2P Require Import Prelude Text Wire WorkGraphTypes WorkGraphErrors WorkGraphWire Material.

Definition TOOL_OUTPUT_PROFILE_V1 : string := "xgeny.tool-output/v1".
Definition TOOL_OUTPUT_FORMAT_VERSION : N := 1.
Definition MAX_TOOL_OUTPUT_CANONICAL_BYTES : N := 1048576.
Definition MAX_TOOL_OUTPUT_DEPTH : N := 64.
Definition MAX_TOOL_OUTPUT_NODES : N := 32768.
Definition MAX_TOOL_OUTPUT_TEXT_BYTES : N := MAX_TOOL_OUTPUT_CANONICAL_BYTES.

(** ** Structural bounds *)

Module ValidatedToolOutput.
Record ValidatedToolOutput : Type := mk { canonical_size_bytes : N; output_digest : string }.
End ValidatedToolOutput.
Abbreviation ValidatedToolOutput := ValidatedToolOutput.ValidatedToolOutput.

(** [.filter(|n| *n <= max)]. *)
Definition at_most (max : N) (o : option N) : option N :=
  n ← o; if bool_decide (n ≤ max)%N then Some n else None.

Definition ensure_tool_output_pending_bound (visited pending children : N)
    : res ToolOutputError unit :=
  let? _ := ok_or (at_most MAX_TOOL_OUTPUT_NODES
                     (scheduled ← checked_add usize_max visited pending;
                      checked_add usize_max scheduled children))
              ToolOutputError.NodeCountExceeded in
  Ok tt.

Definition bounded_tool_output_text_add (current added : N) : res ToolOutputError N :=
  ok_or (at_most MAX_TOOL_OUTPUT_TEXT_BYTES (checked_add usize_max current added))
    ToolOutputError.TextBytesExceeded.

(** A pending value with its depth; the stack's top is the head of the list. *)
Definition pending_stack : Type := list (Value * N).

(** One member of an object: count its key, push its value. *)
Definition push_member (child_depth : N) (s : N * pending_stack) (entry : string * Value)
    : res ToolOutputError (N * pending_stack) :=
  let '(text_bytes, pending) := s in
  let? text_bytes := bounded_tool_output_text_add text_bytes (strlen entry.1) in
  Ok (text_bytes, (entry.2, child_depth) :: pending).

(** The [while let Some((value, depth)) = pending.pop()] loop.  Each pass counts a node, so
    two passes more than the node bound are enough fuel. *)
Fixpoint visit_tool_output (fuel : nat) (pending : pending_stack) (nodes text_bytes : N)
    : res ToolOutputError unit :=
  match fuel with
  | O => Panic "fuel"
  | S fuel =>
      match pending with
      | [] => Ok tt
      | (value, depth) :: pending =>
          bail_if bool_decide (MAX_TOOL_OUTPUT_DEPTH < depth)%N
            with ToolOutputError.DepthExceeded;;
          let? nodes := ok_or (at_most MAX_TOOL_OUTPUT_NODES (checked_add usize_max nodes 1))
                          ToolOutputError.NodeCountExceeded in
          match value with
          | Value.Str s =>
              let? text_bytes := bounded_tool_output_text_add text_bytes (strlen s) in
              visit_tool_output fuel pending nodes text_bytes
          | Value.Array values =>
              let? _ := ensure_tool_output_pending_bound nodes (len pending) (len values) in
              let? child_depth := ok_or (checked_add usize_max depth 1)
                                    ToolOutputError.DepthExceeded in
              visit_tool_output fuel
                (foldl (λ pending value, (value, child_depth) :: pending) pending (rev values))
                nodes text_bytes
          | Value.Object values =>
              let? _ := ensure_tool_output_pending_bound nodes (len pending) (len values) in
              let? child_depth := ok_or (checked_add usize_max depth 1)
                                    ToolOutputError.DepthExceeded in
              let? pushed := for_each (push_member child_depth) (rev values)
                               (text_bytes, pending) in
              visit_tool_output fuel pushed.2 nodes pushed.1
          | Value.Null | Value.Bool _ | Value.Num _ =>
              visit_tool_output fuel pending nodes text_bytes
          end
      end
  end.

Definition validate_tool_output `{Crypto} (output : Value) : res ToolOutputError ValidatedToolOutput :=
  let? _ := visit_tool_output (N.to_nat (MAX_TOOL_OUTPUT_NODES + 2)) [(output, 0%N)] 0 0 in
  match jcs_to_vec output with
  | inl _ => Err ToolOutputError.Canonicalization
  | inr canonical =>
      bail_if bool_decide (MAX_TOOL_OUTPUT_CANONICAL_BYTES < strlen canonical)%N
        with ToolOutputError.CanonicalSizeExceeded;;
      let? size := ok_or (try_from u64_max (strlen canonical))
                     ToolOutputError.CanonicalSizeExceeded in
      Ok (ValidatedToolOutput.mk size (sha256_digest canonical))
  end.

Definition validate_tool_output_candidate `{Crypto} (output : Value) : res ToolOutputError unit :=
  rmap (λ _, tt) (validate_tool_output output).

(** ** Identity checks *)

Definition required_tool_output_provenance (intent : EffectIntent)
    : res ToolOutputError ReceiptProvenance :=
  bail_if negb (bool_decide (EffectIntent.effect_class intent
                  ∈ [EffectClass.ReadOnly; EffectClass.Idempotent; EffectClass.NonIdempotent]))
    with ToolOutputError.UnsupportedEffectClass;;
  let? provenance := ok_or (EffectIntent.receipt_provenance intent)
                       ToolOutputError.UnsupportedProfile in
  bail_if bool_decide (ReceiptProvenance.profile_version provenance ≠ "xgeny.core-receipt/v2")
          || bool_decide (ReceiptProvenance.tool_output_profile provenance
                          ≠ Some TOOL_OUTPUT_PROFILE_V1)
    with ToolOutputError.UnsupportedProfile;;
  bail_if is_empty (ReceiptProvenance.plan_id provenance)
          || bool_decide (512 < strlen (ReceiptProvenance.plan_id provenance))%N
          || any_control (ReceiptProvenance.plan_id provenance)
    with ToolOutputError.InvalidIdentity "plan_id";;
  Ok provenance.

Definition identity_ok (value : string) : bool :=
  negb (is_empty value || bool_decide (512 < strlen value)%N || any_control value).

Definition validate_tool_output_identity (run_id step_id : string) (intent : EffectIntent)
    (execution_attempt : N) : res ToolOutputError unit :=
  let invocation := EffectIntent.invocation intent in
  match first_mismatch [
      ("run_id", identity_ok run_id);
      ("step_id", identity_ok step_id);
      ("effect_id", identity_ok (EffectIntent.effect_id intent));
      ("action_digest", identity_ok (EffectIntent.action_digest intent));
      ("capability_id", identity_ok (InvocationBinding.capability_id invocation));
      ("contract_version", identity_ok (InvocationBinding.contract_version invocation));
      ("definition_digest", identity_ok (InvocationBinding.definition_digest invocation));
      ("instance_id", identity_ok (InvocationBinding.instance_id invocation));
      ("instance_binding_digest",
        identity_ok (InvocationBinding.instance_binding_digest invocation))] with
  | Some field => Err (ToolOutputError.InvalidIdentity field)
  | None =>
      bail_if bool_decide (execution_attempt = 0)%N
        with ToolOutputError.InvalidExecutionAttempt;;
      Ok tt
  end.

(** ** The record *)

Module ToolOutputRecord.
Record ToolOutputRecord : Type := mk {
  format_version : N;
  output_id : string;
  run_id : string;
  step_id : string;
  effect_id : string;
  action_digest : string;
  invocation : InvocationBinding;
  plan_id : string;
  execution_attempt : N;
  evidence_digest : string;
  canonical_size_bytes : N;
  output_digest : string;
  output : Value;
  record_digest : string;
}.
Definition set_output_id (v : string) (r : ToolOutputRecord) :=
  mk (format_version r) v (run_id r) (step_id r) (effect_id r) (action_digest r) (invocation r)
    (plan_id r) (execution_attempt r) (evidence_digest r) (canonical_size_bytes r)
    (output_digest r) (output r) (record_digest r).
Definition set_record_digest (v : string) (r : ToolOutputRecord) :=
  mk (format_version r) (output_id r) (run_id r) (step_id r) (effect_id r) (action_digest r)
    (invocation r) (plan_id r) (execution_attempt r) (evidence_digest r)
    (canonical_size_bytes r) (output_digest r) (output r) v.
End ToolOutputRecord.
Abbreviation ToolOutputRecord := ToolOutputRecord.ToolOutputRecord.

Definition ToolOutputIdInput (r : ToolOutputRecord) : Value :=
  obj (field "domain" ("xgeny.tool-output.id/v1" : string)
    ++ field "runId" (ToolOutputRecord.run_id r)
    ++ field "stepId" (ToolOutputRecord.step_id r)
    ++ field "effectId" (ToolOutputRecord.effect_id r)
    ++ field "executionAttempt" (ToolOutputRecord.execution_attempt r)
    ++ field "outputDigest" (ToolOutputRecord.output_digest r)).

Definition ToolOutputRecordDigestInput (r : ToolOutputRecord) : Value :=
  obj (field "domain" ("xgeny.tool-output.record/v1" : string)
    ++ field "formatVersion" (ToolOutputRecord.format_version r)
    ++ field "outputId" (ToolOutputRecord.output_id r)
    ++ field "runId" (ToolOutputRecord.run_id r)
    ++ field "stepId" (ToolOutputRecord.step_id r)
    ++ field "effectId" (ToolOutputRecord.effect_id r)
    ++ field "actionDigest" (ToolOutputRecord.action_digest r)
    ++ field "invocation" (ToolOutputRecord.invocation r)
    ++ field "planId" (ToolOutputRecord.plan_id r)
    ++ field "executionAttempt" (ToolOutputRecord.execution_attempt r)
    ++ field "evidenceDigest" (ToolOutputRecord.evidence_digest r)
    ++ field "canonicalSizeBytes" (ToolOutputRecord.canonical_size_bytes r)
    ++ field "outputDigest" (ToolOutputRecord.output_digest r)).

Definition tool_output_id `{Crypto} (r : ToolOutputRecord) : res ToolOutputError string :=
  let? digest := canonical_digest (λ _, ToolOutputError.Canonicalization) (ToolOutputIdInput r) in
  Ok ("output-" +:+ encoded_digest digest).

Definition tool_output_record_digest `{Crypto} (r : ToolOutputRecord) : res ToolOutputError string :=
  canonical_digest (λ _, ToolOutputError.Canonicalization) (ToolOutputRecordDigestInput r).

Definition ToolOutputRecord_verify_for `{Crypto} (r : ToolOutputRecord) (run_id step_id : string)
    (intent : EffectIntent) (execution_attempt : N) (evidence_digest : string)
    : res ToolOutputError unit :=
  bail_if bool_decide (ToolOutputRecord.format_version r ≠ TOOL_OUTPUT_FORMAT_VERSION)
    with ToolOutputError.UnsupportedFormatVersion (ToolOutputRecord.format_version r);;
  let? provenance := required_tool_output_provenance intent in
  let? _ := validate_tool_output_identity run_id step_id intent execution_attempt in
  match first_mismatch [
      ("run_id", bool_decide (ToolOutputRecord.run_id r = run_id));
      ("step_id", bool_decide (ToolOutputRecord.step_id r = step_id));
      ("effect_id", bool_decide (ToolOutputRecord.effect_id r = EffectIntent.effect_id intent));
      ("action_digest",
        bool_decide (ToolOutputRecord.action_digest r = EffectIntent.action_digest intent));
      ("invocation", bool_decide (ToolOutputRecord.invocation r = EffectIntent.invocation intent));
      ("plan_id", bool_decide (ToolOutputRecord.plan_id r = ReceiptProvenance.plan_id provenance));
      ("execution_attempt",
        bool_decide (ToolOutputRecord.execution_attempt r = execution_attempt));
      ("evidence_digest", bool_decide (ToolOutputRecord.evidence_digest r = evidence_digest))] with
  | Some field => Err (ToolOutputError.BindingMismatch field)
  | None =>
      bail_if negb (is_canonical_sha256 (ToolOutputRecord.evidence_digest r))
        with ToolOutputError.InvalidEvidenceDigest;;
      let? validated := validate_tool_output (ToolOutputRecord.output r) in
      bail_if bool_decide (ToolOutputRecord.canonical_size_bytes r
                           ≠ ValidatedToolOutput.canonical_size_bytes validated)
        with ToolOutputError.CanonicalSizeMismatch;;
      bail_if bool_decide (ToolOutputRecord.output_digest r
                           ≠ ValidatedToolOutput.output_digest validated)
        with ToolOutputError.OutputDigestMismatch;;
      let? expected_id := tool_output_id r in
      bail_if bool_decide (ToolOutputRecord.output_id r ≠ expected_id)
        with ToolOutputError.OutputIdMismatch;;
      let? expected_digest := tool_output_record_digest r in
      bail_if bool_decide (ToolOutputRecord.record_digest r ≠ expected_digest)
        with ToolOutputError.RecordDigestMismatch;;
      Ok tt
  end.

Definition ToolOutputRecord_new `{Crypto} (run_id step_id : string) (intent : EffectIntent)
    (execution_attempt : N) (evidence_digest : string) (output : Value)
    : res ToolOutputError ToolOutputRecord :=
  let? provenance := required_tool_output_provenance intent in
  let? _ := validate_tool_output_identity run_id step_id intent execution_attempt in
  bail_if negb (is_canonical_sha256 evidence_digest) with ToolOutputError.InvalidEvidenceDigest;;
  let? validated := validate_tool_output output in
  let record := ToolOutputRecord.mk TOOL_OUTPUT_FORMAT_VERSION EmptyString run_id step_id
    (EffectIntent.effect_id intent) (EffectIntent.action_digest intent)
    (EffectIntent.invocation intent) (ReceiptProvenance.plan_id provenance) execution_attempt
    evidence_digest (ValidatedToolOutput.canonical_size_bytes validated)
    (ValidatedToolOutput.output_digest validated) output EmptyString in
  let? output_id := tool_output_id record in
  let record := ToolOutputRecord.set_output_id output_id record in
  let? record_digest := tool_output_record_digest record in
  let record := ToolOutputRecord.set_record_digest record_digest record in
  let? _ := ToolOutputRecord_verify_for record (ToolOutputRecord.run_id record)
    (ToolOutputRecord.step_id record) intent execution_attempt evidence_digest in
  Ok record.
