(* ===== verification/Completion.v ===== *)
(** The completion summary sidecar: [CompletionOutputRecord], its identities and its
    reconstruction of the accepted decision (crates/xgeny-workgraph/src/lib.rs). *)

From Stdlib Require Import Ascii.
From S2P Require Import Prelude Text Wire WorkGraphTypes WorkGraphErrors WorkGraphWire Planning.

Definition COMPLETION_OUTPUT_FORMAT_VERSION : N := 1.
Definition MAX_COMPLETION_SUMMARY_BYTES : N := 5000.

Module CompletionOutputRecord.
Record CompletionOutputRecord : Type := mk {
  format_version : N;
  candidate_id : string;
  run_id : string;
  turn_index : N;
  model_call_id : string;
  context_digest : string;
  proposal_digest : string;
  summary_size_bytes : N;
  summary_digest : string;
  summary : string;
  record_digest : string;
}.
Definition set_record_digest (v : string) (r : CompletionOutputRecord) :=
  mk (format_version r) (candidate_id r) (run_id r) (turn_index r) (model_call_id r)
    (context_digest r) (proposal_digest r) (summary_size_bytes r) (summary_digest r)
    (summary r) v.
End CompletionOutputRecord.
Abbreviation CompletionOutputRecord := CompletionOutputRecord.CompletionOutputRecord.

(** ** Digest inputs *)

Definition CompletionSummaryDigestInput (summary : string) : Value :=
  obj (field "domain" ("xgeny.completion-summary/v1" : string) ++ field "summary" summary).

Definition CompletionProposalDigestInput (context_digest summary : string) : Value :=
  obj (field "domain" ("xgeny.completion-proposal/v1" : string)
    ++ field "contextDigest" context_digest ++ field "summary" summary).

Definition CompletionCandidateIdDigestInput (run_id context_digest proposal_digest : string)
    : Value :=
  obj (field "domain" ("xgeny.completion-candidate-id/v1" : string)
    ++ field "runId" run_id ++ field "contextDigest" context_digest
    ++ field "proposalDigest" proposal_digest).

Definition CompletionOutputRecordDigestInput (r : CompletionOutputRecord) : Value :=
  obj (field "domain" ("xgeny.completion-output.record/v1" : string)
    ++ field "formatVersion" (CompletionOutputRecord.format_version r)
    ++ field "candidateId" (CompletionOutputRecord.candidate_id r)
    ++ field "runId" (CompletionOutputRecord.run_id r)
    ++ field "turnIndex" (CompletionOutputRecord.turn_index r)
    ++ field "modelCallId" (CompletionOutputRecord.model_call_id r)
    ++ field "contextDigest" (CompletionOutputRecord.context_digest r)
    ++ field "proposalDigest" (CompletionOutputRecord.proposal_digest r)
    ++ field "summarySizeBytes" (CompletionOutputRecord.summary_size_bytes r)
    ++ field "summaryDigest" (CompletionOutputRecord.summary_digest r)).

Section completion.
Context `{Crypto}.

Definition completion_summary_digest (summary : string) : res CompletionOutputError string :=
  canonical_digest (λ _, CompletionOutputError.Canonicalization)
    (CompletionSummaryDigestInput summary).

Definition completion_proposal_digest (context_digest summary : string)
    : res CompletionOutputError string :=
  canonical_digest (λ _, CompletionOutputError.Canonicalization)
    (CompletionProposalDigestInput context_digest summary).

Definition completion_candidate_id (run_id context_digest proposal_digest : string)
    : res CompletionOutputError string :=
  let? digest := canonical_digest (λ _, CompletionOutputError.Canonicalization)
    (CompletionCandidateIdDigestInput run_id context_digest proposal_digest) in
  Ok ("completion-" +:+ encoded_digest digest).

Definition completion_output_record_digest (r : CompletionOutputRecord)
    : res CompletionOutputError string :=
  canonical_digest (λ _, CompletionOutputError.Canonicalization)
    (CompletionOutputRecordDigestInput r).

(** ** Summary syntax: LF and TAB are the only control characters allowed *)

Definition validate_completion_summary_candidate (summary : string)
    : res CompletionOutputError unit :=
  bail_if is_empty summary
          || existsb (λ c, is_control c && negb (bool_decide (c = 10)%N || bool_decide (c = 9)%N))
               (chars summary)
    with CompletionOutputError.InvalidSummary;;
  bail_if bool_decide (MAX_COMPLETION_SUMMARY_BYTES < strlen summary)%N
    with CompletionOutputError.SummaryTooLarge;;
  Ok tt.

(** ** Verification and construction *)

Definition CompletionOutputRecord_verify_for (r : CompletionOutputRecord) (run_id : string)
    (decision : ExpectedPlanningTurn) (candidate_id summary_digest : string)
    : res CompletionOutputError unit :=
  bail_if bool_decide (CompletionOutputRecord.format_version r ≠ COMPLETION_OUTPUT_FORMAT_VERSION)
    with CompletionOutputError.UnsupportedFormatVersion
           (CompletionOutputRecord.format_version r);;
  let? _ := map_err CompletionOutputError.PlanningContract
              (ExpectedPlanningTurn_validate decision) in
  let? model_call_id := ok_or (ExpectedPlanningTurn.model_call_id decision)
                          CompletionOutputError.MissingModelCallBinding in
  let? _ := map_err CompletionOutputError.PlanningContract
              (require_planning_identifier "run_id" run_id) in
  let? _ := map_err CompletionOutputError.PlanningContract
              (require_planning_identifier "candidate_id" candidate_id) in
  let? _ := map_err CompletionOutputError.PlanningContract
              (require_planning_digest "summary_digest" summary_digest) in
  match first_mismatch [
      ("run_id", bool_decide (CompletionOutputRecord.run_id r = run_id));
      ("candidate_id", bool_decide (CompletionOutputRecord.candidate_id r = candidate_id));
      ("turn_index", bool_decide (CompletionOutputRecord.turn_index r
                                  = ExpectedPlanningTurn.turn_index decision));
      ("model_call_id", bool_decide (CompletionOutputRecord.model_call_id r = model_call_id));
      ("context_digest", bool_decide (CompletionOutputRecord.context_digest r
                                      = ExpectedPlanningTurn.context_digest decision));
      ("proposal_digest", bool_decide (CompletionOutputRecord.proposal_digest r
                                       = ExpectedPlanningTurn.proposal_digest decision));
      ("summary_digest", bool_decide (CompletionOutputRecord.summary_digest r
                                      = summary_digest))] with
  | Some field => Err (CompletionOutputError.BindingMismatch field)
  | None =>
      let summary := CompletionOutputRecord.summary r in
      let? _ := validate_completion_summary_candidate summary in
      let? summary_size_bytes := ok_or (try_from u64_max (strlen summary))
                                   CompletionOutputError.SummaryTooLarge in
      bail_if bool_decide (CompletionOutputRecord.summary_size_bytes r ≠ summary_size_bytes)
        with CompletionOutputError.SummarySizeMismatch;;
      let? expected_summary_digest := completion_summary_digest summary in
      bail_if bool_decide (CompletionOutputRecord.summary_digest r ≠ expected_summary_digest)
        with CompletionOutputError.SummaryDigestMismatch;;
      let? expected_proposal_digest :=
        completion_proposal_digest (CompletionOutputRecord.context_digest r) summary in
      bail_if bool_decide (CompletionOutputRecord.proposal_digest r ≠ expected_proposal_digest)
        with CompletionOutputError.ProposalDigestMismatch;;
      let? expected_candidate_id := completion_candidate_id (CompletionOutputRecord.run_id r)
        (CompletionOutputRecord.context_digest r) (CompletionOutputRecord.proposal_digest r) in
      bail_if bool_decide (CompletionOutputRecord.candidate_id r ≠ expected_candidate_id)
        with CompletionOutputError.CandidateIdMismatch;;
      let? expected_record_digest := completion_output_record_digest r in
      bail_if bool_decide (CompletionOutputRecord.record_digest r ≠ expected_record_digest)
        with CompletionOutputError.RecordDigestMismatch;;
      Ok tt
  end.

Definition CompletionOutputRecord_new (run_id : string) (decision : ExpectedPlanningTurn)
    (candidate_id summary_digest summary : string)
    : res CompletionOutputError CompletionOutputRecord :=
  let? model_call_id := ok_or (ExpectedPlanningTurn.model_call_id decision)
                          CompletionOutputError.MissingModelCallBinding in
  let? summary_size_bytes := ok_or (try_from u64_max (strlen summary))
                               CompletionOutputError.SummaryTooLarge in
  let record := CompletionOutputRecord.mk COMPLETION_OUTPUT_FORMAT_VERSION candidate_id run_id
    (ExpectedPlanningTurn.turn_index decision) model_call_id
    (ExpectedPlanningTurn.context_digest decision)
    (ExpectedPlanningTurn.proposal_digest decision)
    summary_size_bytes summary_digest summary EmptyString in
  let? record_digest := completion_output_record_digest record in
  let record := CompletionOutputRecord.set_record_digest record_digest record in
  let? _ := CompletionOutputRecord_verify_for record (CompletionOutputRecord.run_id record)
    decision (CompletionOutputRecord.candidate_id record)
    (CompletionOutputRecord.summary_digest record) in
  Ok record.

Definition CompletionOutputRecord_bind (run_id : string) (turn_index : N)
    (model_call_id context_digest summary : string)
    : res CompletionOutputError CompletionOutputRecord :=
  let? _ := validate_completion_summary_candidate summary in
  let? _ := map_err CompletionOutputError.PlanningContract
              (require_planning_identifier "run_id" run_id) in
  let? _ := map_err CompletionOutputError.PlanningContract
              (require_planning_digest "context_digest" context_digest) in
  let? proposal_digest := completion_proposal_digest context_digest summary in
  let? decision := map_err CompletionOutputError.PlanningContract
    (ExpectedPlanningTurn_for_model_call turn_index model_call_id context_digest
       proposal_digest) in
  let? candidate_id := completion_candidate_id run_id context_digest proposal_digest in
  let? summary_digest := completion_summary_digest summary in
  CompletionOutputRecord_new run_id decision candidate_id summary_digest summary.

Definition CompletionOutputRecord_decision (r : CompletionOutputRecord)
    : res CompletionOutputError ExpectedPlanningTurn :=
  map_err CompletionOutputError.PlanningContract
    (ExpectedPlanningTurn_for_model_call (CompletionOutputRecord.turn_index r)
       (CompletionOutputRecord.model_call_id r) (CompletionOutputRecord.context_digest r)
       (CompletionOutputRecord.proposal_digest r)).

End completion.
