(* ===== verification/RecordProofs.v ===== *)
(** Proofs about the sidecar records: the explicit-stack walk over a tool output against the
    recursive measures of the value, and what the constructors and verifiers of the records of
    plans, invocations, outputs and completions decide. *)

From S2P Require Import Prelude Text Wire WorkGraphTypes WorkGraphErrors ToolOutput WorkGraphWire.
From S2P Require Import Planning Material Completion.

(** ** Measures of a JSON value *)

Section measures.
#[local] Open Scope N_scope.

(** Nesting depth: a value without children has depth 0. *)
Fixpoint depth (v : Value) : N :=
  match v with
  | Value.Array l => foldr (λ w d, N.max (depth w + 1) d) 0 l
  | Value.Object l => foldr (λ p d, N.max (depth p.2 + 1) d) 0 l
  | _ => 0
  end.

Fixpoint nodes (v : Value) : N :=
  match v with
  | Value.Array l => 1 + foldr (λ w n, nodes w + n) 0 l
  | Value.Object l => 1 + foldr (λ p n, nodes p.2 + n) 0 l
  | _ => 1
  end.

(** Bytes of string values and object keys. *)
Fixpoint text (v : Value) : N :=
  match v with
  | Value.Str s => strlen s
  | Value.Array l => foldr (λ w n, text w + n) 0 l
  | Value.Object l => foldr (λ p n, strlen p.1 + text p.2 + n) 0 l
  | _ => 0
  end.

(** The same over the values pending on the stack. *)
Definition pending_nodes (p : pending_stack) : N := foldr (λ e n, nodes e.1 + n) 0 p.
Definition pending_text (p : pending_stack) : N := foldr (λ e n, text e.1 + n) 0 p.
Definition shallow (e : Value * N) : Prop := e.2 + depth e.1 ≤ MAX_TOOL_OUTPUT_DEPTH.

End measures.

Section pending.
#[local] Open Scope N_scope.
Implicit Types (p : pending_stack).

Lemma pending_nodes_cons e p : pending_nodes (e :: p) = nodes e.1 + pending_nodes p.
Proof. done. Qed.
Lemma pending_text_cons e p : pending_text (e :: p) = text e.1 + pending_text p.
Proof. done. Qed.

Lemma nodes_pos v : 1 ≤ nodes v.
Proof. destruct v; simpl; lia. Qed.

Lemma pending_nodes_len p : len p ≤ pending_nodes p.
Proof.
  unfold len. induction p as [|e p IH]; [done|]. rewrite pending_nodes_cons.
  pose proof (nodes_pos e.1). cbn [length]. lia.
Qed.

(** Pushing the children of an array. *)
Lemma push_array d (l : list Value) p :
  foldl (λ pending value, (value, d) :: pending) p (rev l) = map (λ v, (v, d)) l ++ p.
Proof.
  induction l as [|v l IH]; [done|]. cbn [rev]. by rewrite foldl_app, IH.
Qed.

Lemma push_array_nodes d l p :
  pending_nodes (map (λ v, (v, d)) l ++ p) + 1 = nodes (Value.Array l) + pending_nodes p.
Proof.
  cbn [nodes]. induction l as [|v l IH]; [cbn [map app foldr]; lia|].
  cbn [map app foldr]. rewrite pending_nodes_cons. cbn [fst]. lia.
Qed.

Lemma push_array_text d l p :
  pending_text (map (λ v, (v, d)) l ++ p) = text (Value.Array l) + pending_text p.
Proof.
  cbn [text]. induction l as [|v l IH]; [done|].
  cbn [map app foldr]. rewrite pending_text_cons. cbn [fst]. lia.
Qed.

Lemma push_array_shallow d l p :
  (d ≤ MAX_TOOL_OUTPUT_DEPTH)%N →
  Forall shallow (map (λ v, (v, d + 1)) l ++ p) ↔ shallow (Value.Array l, d) ∧ Forall shallow p.
Proof.
  intros Hd. unfold shallow at 2. cbn [depth fst snd]. rewrite Forall_app.
  enough (Forall shallow (map (λ v, (v, d + 1)) l) ↔
          d + foldr (λ w m, N.max (depth w + 1) m) 0 l ≤ MAX_TOOL_OUTPUT_DEPTH) by tauto.
  induction l as [|v l IH]; cbn [map foldr].
  - split; [lia|by constructor].
  - rewrite Forall_cons, IH. unfold shallow. cbn [fst snd]. lia.
Qed.

(** The checked counters, without the machine-width detour. *)
Lemma text_add_eq c a :
  bounded_tool_output_text_add c a =
  if bool_decide (c + a ≤ MAX_TOOL_OUTPUT_TEXT_BYTES) then Ok (c + a)
  else Err ToolOutputError.TextBytesExceeded.
Proof.
  unfold bounded_tool_output_text_add, at_most, checked_add.
  unfold MAX_TOOL_OUTPUT_TEXT_BYTES, MAX_TOOL_OUTPUT_CANONICAL_BYTES, usize_max, u64_max.
  repeat case_bool_decide; cbn; try case_bool_decide; try done; lia.
Qed.

Lemma pending_bound_eq (v q c : N) :
  ensure_tool_output_pending_bound v q c =
  if bool_decide (v + q + c ≤ MAX_TOOL_OUTPUT_NODES) then Ok tt
  else Err ToolOutputError.NodeCountExceeded.
Proof.
  unfold ensure_tool_output_pending_bound, at_most, checked_add.
  unfold MAX_TOOL_OUTPUT_NODES, usize_max, u64_max.
  repeat first [case_bool_decide; cbn|done|lia].
Qed.

Lemma node_count_eq n :
  ok_or (at_most MAX_TOOL_OUTPUT_NODES (checked_add usize_max n 1)) ToolOutputError.NodeCountExceeded =
  if bool_decide (n + 1 ≤ MAX_TOOL_OUTPUT_NODES) then Ok (n + 1)
  else Err ToolOutputError.NodeCountExceeded.
Proof.
  unfold at_most, checked_add, MAX_TOOL_OUTPUT_NODES, usize_max, u64_max.
  repeat first [case_bool_decide; cbn|done|lia].
Qed.

Definition keys_text (l : list (string * Value)) : N := foldr (λ e n, strlen e.1 + n) 0 l.

(** Pushing the members of an object counts every key. *)
Lemma push_members d (l : list (string * Value)) t p :
  t ≤ MAX_TOOL_OUTPUT_TEXT_BYTES →
  for_each (push_member d) (rev l) (t, p) =
  if bool_decide (t + keys_text l ≤ MAX_TOOL_OUTPUT_TEXT_BYTES)
  then Ok (t + keys_text l, map (λ e, (e.2, d)) l ++ p)
  else Err ToolOutputError.TextBytesExceeded.
Proof.
  intros Ht. induction l as [|[k v] l IH]; unfold keys_text; cbn [rev foldr map app].
  - rewrite N.add_0_r. by rewrite bool_decide_eq_true_2.
  - rewrite for_each_app, IH. fold (keys_text l). cbn [fst snd].
    case_bool_decide; [|by rewrite bool_decide_eq_false_2 by lia].
    cbn [rbind for_each push_member fst snd]. rewrite text_add_eq.
    replace (t + keys_text l + strlen k) with (t + (strlen k + keys_text l)) by lia.
    by case_bool_decide.
Qed.

Lemma object_text l :
  text (Value.Object l) = keys_text l + foldr (λ e n, text e.2 + n) 0 l.
Proof.
  unfold keys_text. cbn [text]. induction l as [|e l IH]; [done|]. cbn [foldr]. lia.
Qed.

Lemma push_object_nodes d (l : list (string * Value)) p :
  pending_nodes (map (λ e, (e.2, d)) l ++ p) + 1 = nodes (Value.Object l) + pending_nodes p.
Proof.
  cbn [nodes]. induction l as [|v l IH]; [cbn [map app foldr]; lia|].
  cbn [map app foldr]. rewrite pending_nodes_cons. cbn [fst]. lia.
Qed.

Lemma push_object_text d (l : list (string * Value)) p :
  pending_text (map (λ e, (e.2, d)) l ++ p) = foldr (λ e n, text e.2 + n) 0 l + pending_text p.
Proof.
  induction l as [|v l IH]; [done|].
  cbn [map app foldr]. rewrite pending_text_cons. cbn [fst]. lia.
Qed.

Lemma push_object_shallow d (l : list (string * Value)) p :
  (d ≤ MAX_TOOL_OUTPUT_DEPTH)%N →
  Forall shallow (map (λ e, (e.2, d + 1)) l ++ p) ↔ shallow (Value.Object l, d) ∧ Forall shallow p.
Proof.
  intros Hd. unfold shallow at 2. cbn [depth fst snd]. rewrite Forall_app.
  enough (Forall shallow (map (λ e, (e.2, d + 1)) l) ↔
          d + foldr (λ w m, N.max (depth w.2 + 1) m) 0 l ≤ MAX_TOOL_OUTPUT_DEPTH) by tauto.
  induction l as [|v l IH]; cbn [map foldr].
  - split; [lia|by constructor].
  - rewrite Forall_cons, IH. unfold shallow. cbn [fst snd]. lia.
Qed.

(** ** The walk *)

(** What an outcome of the walk says about the values it was given. *)
Definition walk_outcome p (n t : N) (r : res ToolOutputError unit) : Prop :=
  match r with
  | Ok _ => Forall shallow p ∧ n + pending_nodes p ≤ MAX_TOOL_OUTPUT_NODES ∧
            t + pending_text p ≤ MAX_TOOL_OUTPUT_TEXT_BYTES
  | Err ToolOutputError.DepthExceeded => ¬ Forall shallow p
  | Err ToolOutputError.NodeCountExceeded => MAX_TOOL_OUTPUT_NODES < n + pending_nodes p
  | Err ToolOutputError.TextBytesExceeded => MAX_TOOL_OUTPUT_TEXT_BYTES < t + pending_text p
  | _ => False
  end.

(** An outcome on the stack after one pass is the outcome on the stack before it. *)
Lemma walk_outcome_step p n t p' n' t' r :
  n' + pending_nodes p' = n + pending_nodes p → t' + pending_text p' = t + pending_text p →
  (Forall shallow p' ↔ Forall shallow p) →
  walk_outcome p' n' t' r → walk_outcome p n t r.
Proof.
  intros Hn Ht Hs. unfold walk_outcome.
  destruct r as [|[]|]; rewrite ?Hs; try done; rewrite ?Hn, ?Ht; tauto.
Qed.

Lemma shallow_leaf v d p :
  depth v = 0 → (d ≤ MAX_TOOL_OUTPUT_DEPTH)%N → Forall shallow p ↔ Forall shallow ((v, d) :: p).
Proof. intros Hv Hd. rewrite Forall_cons. unfold shallow at 2. cbn [fst snd]. rewrite Hv. intuition lia. Qed.

Lemma child_depth_eq d :
  d ≤ MAX_TOOL_OUTPUT_DEPTH → checked_add usize_max d 1 = Some (d + 1).
Proof.
  intros Hd. apply checked_add_Some. split; [done|].
  unfold MAX_TOOL_OUTPUT_DEPTH, usize_max, u64_max in *. lia.
Qed.

Lemma visit_outcome fuel p n t :
  n ≤ MAX_TOOL_OUTPUT_NODES → t ≤ MAX_TOOL_OUTPUT_TEXT_BYTES →
  MAX_TOOL_OUTPUT_NODES + 1 < N.of_nat fuel + n →
  walk_outcome p n t (visit_tool_output fuel p n t).
Proof.
  revert p n t. induction fuel as [|fuel IH]; intros p n t Hn Ht Hf; [cbn in Hf; lia|].
  cbn [visit_tool_output]. destruct p as [|[v d] p].
  { cbn. split_and!; [constructor|lia..]. }
  case_bool_decide as Hd.
  { cbn. intros [Hs _]%Forall_cons. unfold shallow in Hs. cbn in Hs. lia. }
  apply N.nlt_ge in Hd. pose proof (nodes_pos v) as Hpos. rewrite node_count_eq.
  case_bool_decide as Hc; cbn [rbind]; [|unfold walk_outcome; rewrite pending_nodes_cons; cbn [fst]; lia].
  assert (Hleaf : depth v = 0 → nodes v = 1 → text v = 0 →
    walk_outcome ((v, d) :: p) n t (visit_tool_output fuel p (n + 1) t)).
  { intros H0 H1 H2. apply (walk_outcome_step _ _ _ p (n + 1) t); [..|apply IH; lia];
      [rewrite pending_nodes_cons; cbn [fst]; lia|rewrite pending_text_cons; cbn [fst]; lia|].
    by apply shallow_leaf. }
  destruct v as [| | |s|l|l]; [by apply Hleaf..| | |]; clear Hleaf.
  - rewrite text_add_eq. case_bool_decide as Hs; cbn [rbind].
    + apply (walk_outcome_step _ _ _ p (n + 1) (t + strlen s)); [..|apply IH; lia];
        [rewrite pending_nodes_cons; cbn [fst nodes]; lia
        |rewrite pending_text_cons; cbn [fst text]; lia|].
      by apply shallow_leaf.
    + unfold walk_outcome. rewrite pending_text_cons. cbn [fst text]. lia.
  - rewrite pending_bound_eq, child_depth_eq by done. case_bool_decide as Hp; cbn [rbind ok_or].
    + rewrite push_array.
      apply (walk_outcome_step _ _ _ (map (λ v, (v, d + 1)) l ++ p) (n + 1) t); [..|apply IH; lia].
      * pose proof (push_array_nodes (d + 1) l p). rewrite pending_nodes_cons. cbn [fst]. lia.
      * by rewrite push_array_text, pending_text_cons.
      * by rewrite push_array_shallow, Forall_cons.
    + unfold walk_outcome. rewrite pending_nodes_cons. cbn [fst].
      pose proof (push_array_nodes (d + 1) l p). pose proof (pending_nodes_len (map (λ v, (v, d + 1)) l ++ p)) as Hl.
      unfold len in *. rewrite length_app, length_map in Hl. lia.
  - rewrite pending_bound_eq, child_depth_eq by done. case_bool_decide as Hp; cbn [rbind ok_or].
    + rewrite push_members by done. pose proof (push_object_text (d + 1) l p) as Htx.
      pose proof (object_text l) as Hob.
      case_bool_decide as Hk; cbn [rbind fst snd].
      * apply (walk_outcome_step _ _ _ (map (λ e, (e.2, d + 1)) l ++ p) (n + 1) (t + keys_text l));
          [..|apply IH; lia].
        -- pose proof (push_object_nodes (d + 1) l p). rewrite pending_nodes_cons. cbn [fst]. lia.
        -- rewrite pending_text_cons. cbn [fst]. lia.
        -- by rewrite push_object_shallow, Forall_cons.
      * unfold walk_outcome. rewrite pending_text_cons. cbn [fst]. lia.
    + unfold walk_outcome. rewrite pending_nodes_cons. cbn [fst].
      pose proof (push_object_nodes (d + 1) l p). pose proof (pending_nodes_len (map (λ e, (e.2, d + 1)) l ++ p)) as Hl.
      unfold len in *. rewrite length_app, length_map in Hl. lia.
Qed.
End pending.

(** Digest inputs of the content-addressed records: each is injective in its fields and an
    object with sorted members, so that an equal digest means equal fields unless the two inputs
    collide. *)

(** ** Values small enough for RFC 8785 *)

(** An integer in the range I-JSON represents exactly. *)
Definition ijson_N (n : N) : Prop := (n < 9007199254740992)%N.

Lemma ijson_ser_N n : ijson_N n → ijson_numbers (ser n) = true.
Proof. apply bool_decide_eq_true. Qed.

(** ** Injective members *)

#[export] Instance ser_ReconstructableMaterialReference_inj :
  Inj (=) (=) (ser : ReconstructableMaterialReference → Value).
Proof. intros [] []. record_inj. Qed.

#[export] Instance ser_InvocationMaterialRetention_inj :
  Inj (=) (=) (ser : InvocationMaterialRetention → Value).
Proof.
  intros [|r1] [|r2] H; ser_unfold H; try done; obj_inv H; first [discriminate|ser_cancel; by subst].
Qed.

Lemma sorted_ReconstructableMaterialReference (r : ReconstructableMaterialReference) :
  members_sorted (ser r).
Proof. destruct r; sorted_record; done. Qed.
#[export] Hint Resolve sorted_ReconstructableMaterialReference : wire.

Lemma sorted_InvocationMaterialRetention (r : InvocationMaterialRetention) : members_sorted (ser r).
Proof. destruct r; sorted_record; done. Qed.
#[export] Hint Resolve sorted_InvocationMaterialRetention : wire.

(** ** Digest inputs *)

Ltac input_inj := let H := fresh "H" in intros H; obj_inv H; ser_cancel; by subst.

Lemma ModelCallIdDigestInput_inj r1 e1 p1 c1 t1 s1 h1 x1 q1 r2 e2 p2 c2 t2 s2 h2 x2 q2 :
  ModelCallIdDigestInput r1 e1 p1 c1 t1 s1 h1 x1 q1 = ModelCallIdDigestInput r2 e2 p2 c2 t2 s2 h2 x2 q2 →
  (r1, e1, p1, c1, t1, s1, h1, x1, q1) = (r2, e2, p2, c2, t2, s2, h2, x2, q2).
Proof. unfold ModelCallIdDigestInput. input_inj. Qed.

Lemma PlannedInvocationIdInput_inj r1 s1 p1 d1 r2 s2 p2 d2 :
  PlannedInvocationIdInput r1 s1 p1 d1 = PlannedInvocationIdInput r2 s2 p2 d2 →
  (r1, s1, p1, d1) = (r2, s2, p2, d2).
Proof. unfold PlannedInvocationIdInput. input_inj. Qed.

Lemma OnceAuthorizationIdInput_inj r1 a1 r2 a2 :
  OnceAuthorizationIdInput r1 a1 = OnceAuthorizationIdInput r2 a2 → (r1, a1) = (r2, a2).
Proof. unfold OnceAuthorizationIdInput. input_inj. Qed.

Lemma AuthorizationDigestInput_inj b1 m1 b2 m2 :
  AuthorizationDigestInput b1 m1 = AuthorizationDigestInput b2 m2 → (b1, m1) = (b2, m2).
Proof. unfold AuthorizationDigestInput. input_inj. Qed.

Lemma InvocationMaterialDigestInput_inj {T} `{Serialize T} `{!Inj (=) (=) (ser : T → Value)} d (a b : T) :
  InvocationMaterialDigestInput d a = InvocationMaterialDigestInput d b → a = b.
Proof. unfold InvocationMaterialDigestInput. input_inj. Qed.

Lemma CompletionProposalDigestInput_inj c1 s1 c2 s2 :
  CompletionProposalDigestInput c1 s1 = CompletionProposalDigestInput c2 s2 → (c1, s1) = (c2, s2).
Proof. unfold CompletionProposalDigestInput. input_inj. Qed.

Lemma CompletionSummaryDigestInput_inj s1 s2 :
  CompletionSummaryDigestInput s1 = CompletionSummaryDigestInput s2 → s1 = s2.
Proof. unfold CompletionSummaryDigestInput. input_inj. Qed.

(** The digested part of a record together with its digest is the whole record. *)
Lemma PlannedInvocationMaterialRecordDigestInput_inj r1 r2 :
  PlannedInvocationMaterialRecordDigestInput r1 = PlannedInvocationMaterialRecordDigestInput r2 →
  PlannedInvocationMaterialRecord.record_digest r1 = PlannedInvocationMaterialRecord.record_digest r2 →
  r1 = r2.
Proof.
  destruct r1, r2. unfold PlannedInvocationMaterialRecordDigestInput. cbn.
  intros H Hd. obj_inv H; ser_cancel; by subst.
Qed.

Lemma InvocationMaterialRecordDigestInput_inj r1 r2 :
  InvocationMaterialRecordDigestInput r1 = InvocationMaterialRecordDigestInput r2 →
  InvocationMaterialRecord.record_digest r1 = InvocationMaterialRecord.record_digest r2 →
  r1 = r2.
Proof.
  destruct r1, r2. unfold InvocationMaterialRecordDigestInput. cbn.
  intros H Hd. obj_inv H; ser_cancel; by subst.
Qed.

Lemma ToolOutputRecordDigestInput_inj r1 r2 :
  ToolOutputRecordDigestInput r1 = ToolOutputRecordDigestInput r2 →
  ToolOutputRecord.output r1 = ToolOutputRecord.output r2 →
  ToolOutputRecord.record_digest r1 = ToolOutputRecord.record_digest r2 →
  r1 = r2.
Proof.
  destruct r1, r2. unfold ToolOutputRecordDigestInput. cbn.
  intros H Ho Hd. obj_inv H; ser_cancel; by subst.
Qed.

Lemma ToolOutputRecordDigestInput_output r1 r2 :
  ToolOutputRecordDigestInput r1 = ToolOutputRecordDigestInput r2 →
  ToolOutputRecord.output_digest r1 = ToolOutputRecord.output_digest r2.
Proof. unfold ToolOutputRecordDigestInput. intros H. obj_inv H. by ser_cancel. Qed.

Lemma CompletionOutputRecordDigestInput_inj r1 r2 :
  CompletionOutputRecordDigestInput r1 = CompletionOutputRecordDigestInput r2 →
  CompletionOutputRecord.summary r1 = CompletionOutputRecord.summary r2 →
  CompletionOutputRecord.record_digest r1 = CompletionOutputRecord.record_digest r2 →
  r1 = r2.
Proof.
  destruct r1, r2. unfold CompletionOutputRecordDigestInput. cbn.
  intros H Ho Hd. obj_inv H; ser_cancel; by subst.
Qed.

(** ** Digest inputs in the domain of RFC 8785 *)

Lemma ijson_obj l : ijson_numbers (obj l) = true ↔ Forall (λ p, ijson_numbers p.2 = true) l.
Proof.
  unfold obj. cbn [ijson_numbers]. rewrite forallb_forall, Forall_forall.
  setoid_rewrite <-list_elem_of_In. by setoid_rewrite (merge_sort_Permutation member_le l).
Qed.

Lemma ijson_string (s : string) : ijson_numbers (ser s) = true.
Proof. done. Qed.
#[export] Hint Resolve ijson_string ijson_ser_N : wire.

Ltac ijson_members :=
  apply ijson_obj; cbv [app field field_opt field_vec]; cbn;
  repeat apply Forall_cons_2; [cbn; auto with wire..|apply Forall_nil_2].

Ltac ijson_record :=
  lazymatch goal with
  | |- ijson_numbers (@ser _ ?i ?x) = true => change (ijson_numbers (i x) = true); unfold i
  end; ijson_members.

Lemma ijson_InvocationBinding (b : InvocationBinding) : ijson_numbers (ser b) = true.
Proof. destruct b. ijson_record. Qed.
Lemma ijson_ReconstructableMaterialReference (r : ReconstructableMaterialReference) :
  ijson_numbers (ser r) = true.
Proof. destruct r. ijson_record. Qed.
#[export] Hint Resolve ijson_InvocationBinding ijson_ReconstructableMaterialReference : wire.
Lemma ijson_InvocationMaterialRetention (r : InvocationMaterialRetention) :
  ijson_numbers (ser r) = true.
Proof. destruct r; ijson_record. Qed.
#[export] Hint Resolve ijson_InvocationMaterialRetention : wire.

(** An RFC 8785 input: members sorted, integers exact. *)
Definition canonical_input (v : Value) : Prop := members_sorted v ∧ ijson_numbers v = true.

Ltac canonical_tac :=
  match goal with |- canonical_input ?v => try unfold v end;
  split; [sorted_obj|ijson_members].

Lemma canonical_ModelCallIdDigestInput r e p c t s h x q :
  ijson_N e → ijson_N c → ijson_N t → ijson_N s →
  canonical_input (ModelCallIdDigestInput r e p c t s h x q).
Proof. intros. unfold ModelCallIdDigestInput, MODEL_CALL_FORMAT_VERSION. canonical_tac. Qed.

Lemma canonical_PlannedInvocationIdInput r s p d :
  canonical_input (PlannedInvocationIdInput r s p d).
Proof. unfold PlannedInvocationIdInput. canonical_tac. Qed.

Lemma canonical_PlannedInvocationSpecDigestInput s : canonical_input (PlannedInvocationSpecDigestInput s).
Proof. unfold PlannedInvocationSpecDigestInput. destruct s as [? ? ? ? ? []]; canonical_tac; done. Qed.

Lemma canonical_OnceAuthorizationIdInput r a : canonical_input (OnceAuthorizationIdInput r a).
Proof. unfold OnceAuthorizationIdInput. canonical_tac. Qed.

Lemma canonical_AuthorizationDigestInput b m :
  ijson_numbers (ser b) = true → ijson_N m → canonical_input (AuthorizationDigestInput b m).
Proof.
  intros. unfold AuthorizationDigestInput. canonical_tac.
Qed.

Lemma canonical_RetentionDigestInput d (r : InvocationMaterialRetention) :
  canonical_input (InvocationMaterialDigestInput d r).
Proof. unfold InvocationMaterialDigestInput. canonical_tac. Qed.

Lemma canonical_CompletionProposalDigestInput c s :
  canonical_input (CompletionProposalDigestInput c s).
Proof. unfold CompletionProposalDigestInput. canonical_tac. Qed.

Lemma canonical_CompletionSummaryDigestInput s : canonical_input (CompletionSummaryDigestInput s).
Proof. unfold CompletionSummaryDigestInput. canonical_tac. Qed.

Lemma canonical_PlannedInvocationMaterialRecordDigestInput r :
  ijson_N (PlannedInvocationMaterialRecord.format_version r) →
  canonical_input (PlannedInvocationMaterialRecordDigestInput r).
Proof. intros. unfold PlannedInvocationMaterialRecordDigestInput. canonical_tac. Qed.

Lemma canonical_InvocationMaterialRecordDigestInput r :
  ijson_N (InvocationMaterialRecord.format_version r) →
  canonical_input (InvocationMaterialRecordDigestInput r).
Proof. intros. unfold InvocationMaterialRecordDigestInput. canonical_tac. Qed.

Lemma canonical_ToolOutputRecordDigestInput r :
  ijson_N (ToolOutputRecord.format_version r) → ijson_N (ToolOutputRecord.execution_attempt r) →
  ijson_N (ToolOutputRecord.canonical_size_bytes r) →
  canonical_input (ToolOutputRecordDigestInput r).
Proof. intros. unfold ToolOutputRecordDigestInput. canonical_tac. Qed.

Lemma canonical_CompletionOutputRecordDigestInput r :
  ijson_N (CompletionOutputRecord.format_version r) → ijson_N (CompletionOutputRecord.turn_index r) →
  ijson_N (CompletionOutputRecord.summary_size_bytes r) →
  canonical_input (CompletionOutputRecordDigestInput r).
Proof. intros. unfold CompletionOutputRecordDigestInput. canonical_tac. Qed.

(** Equal digests of canonical inputs mean equal inputs, unless those inputs collide. *)
Lemma digest_commits `{Crypto} `{!CryptoLaws} {E F} (mk : string → E) (mk' : string → F) v w d :
  canonical_digest mk v = Ok d → canonical_digest mk' w = Ok d →
  canonical_input v → canonical_input w → v = w ∨ digests_collide v w.
Proof. intros Dv Dw [Sv Nv] [Sw Nw]. by eapply canonical_digest_inj. Qed.

(** An identifier built from a digest commits to the digest. *)
Lemma prefixed_digest_inj `{Crypto} {E F} (mk : string → E) (mk' : string → F) p v w i :
  (let? d := canonical_digest mk v in Ok (p +:+ encoded_digest d)) = Ok i →
  (let? d := canonical_digest mk' w in Ok (p +:+ encoded_digest d)) = Ok i →
  ∃ d, canonical_digest mk v = Ok d ∧ canonical_digest mk' w = Ok d.
Proof.
  intros (d1 & H1 & [= <-])%rbind_ok (d2 & H2 & E2)%rbind_ok.
  exists d1. pose proof H1 as H1'. pose proof H2 as H2'.
  apply canonical_digest_Ok in H1' as (b1 & _ & ->), H2' as (b2 & _ & ->).
  injection E2 as E2. apply string_app_inj_r in E2. rewrite !encoded_sha256_digest in E2.
  apply hex_inj in E2. split; [done|].
  rewrite H2. unfold sha256_digest. by rewrite E2.
Qed.

(** Run the next operation of a constructor with the outcome a verified record gives for it. *)
Ltac run_step :=
  match goal with
  | |- rbind (map_err _ ?c) _ = _ =>
      match goal with
      | H : ?c' = Ok ?x |- _ => change c with c'; rewrite H; cbn [rbind map_err]
      end
  | |- rbind ?c _ = _ =>
      match goal with
      | H : ?c' = Ok ?x |- _ => change c with c'; rewrite H; cbn [rbind map_err ok_or]
      end
  | |- rbind (ok_or (Some _) _) _ = _ => cbn [rbind ok_or]
  | |- rbind (Ok _) _ = _ => cbn [rbind]
  end.

(** Pass a comparison of two fields that are the same by construction. *)
Ltac run_guard :=
  match goal with
  | |- context [bool_decide (?a ≠ ?b)] =>
      rewrite (bool_decide_eq_false_2 (a ≠ b)) by (intros Hne; by apply Hne); cbn [orb]
  end.

Ltac run_record := repeat first [run_step|progress run_guard].
