(* ===== verification/RecordTheorems.v ===== *)
(** What the self-verifying records promise: plan and invocation material, tool outputs and
    completion outputs.  A record passes its verification exactly when its constructor builds it
    from the same inputs, and a digest commits to its inputs. *)

From Stdlib Require Import Ascii.
From S2P Require Import Prelude Text Wire WorkGraphTypes WorkGraphErrors WorkGraphWire Planning.
From S2P Require Import Material ToolOutput Completion RecordProofs.

(** ** Identifiers built from digests *)

Section ids.
Context `{Crypto} `{!CryptoLaws}.

Lemma model_call_id_shape run e p c t s h x q i :
  model_call_id run e p c t s h x q = Ok i → require_model_call_id "call_id" i = Ok tt.
Proof.
  intros (d & (b & _ & ->)%canonical_digest_Ok & [= <-])%rbind_ok.
  rewrite encoded_sha256_digest. set (k := hex (sha256 b)).
  assert (Hk : is_lower_hex64 k = true) by apply is_lower_hex64_hex, sha256_length.
  unfold require_model_call_id, require_model_call_identifier.
  destruct (lower_hex64_name k Hk) as [Hlen Hname]. unfold strlen in *.
  rewrite strip_prefix_app, all_bytes_app, Hname, string_length_app.
  rewrite (bool_decide_eq_false_2 (256 < _)%N) by (cbn; lia).
  cbn. by rewrite Hk.
Qed.

Lemma planned_id_shape run step p d i :
  planned_invocation_id run step p d = Ok i → require_planning_identifier "plan_id" i = Ok tt.
Proof.
  intros (e & (b & _ & ->)%canonical_digest_Ok & [= <-])%rbind_ok.
  rewrite encoded_sha256_digest.
  destruct (lower_hex64_name (hex (sha256 b))) as [Hlen Hname];
    [apply is_lower_hex64_hex, sha256_length|].
  unfold require_planning_identifier. rewrite (name_no_control ("plan-" +:+ _)).
  - unfold strlen in *. rewrite string_length_app, bool_decide_eq_false_2 by (cbn; lia). done.
  - by rewrite all_bytes_app, Hname.
Qed.

Lemma planning_digest_shape {E} (mk : string → E) v d field :
  canonical_digest mk v = Ok d → require_planning_digest field d = Ok tt.
Proof.
  intros (b & _ & ->)%canonical_digest_Ok. unfold require_planning_digest.
  by rewrite is_sha256_digest_sha256_digest.
Qed.
End ids.

(** The canonicalizer accepts every value in its domain. *)
Definition jcs_total `{Crypto} : Prop := ∀ v, canonical_input v → is_ok (canonical_digest (E := unit) (λ _, tt) v).

Lemma canonical_digest_total `{Crypto} {E} (mk : string → E) v :
  jcs_total → canonical_input v → ∃ d, canonical_digest mk v = Ok d.
Proof.
  intros Ht Hv. destruct (Ht v Hv) as (d & (b & Hb & ->)%canonical_digest_Ok).
  exists (sha256_digest b). apply canonical_digest_Ok. by exists b.
Qed.

(** ** Model-call reservations *)

(** A model-call reservation is valid for a run and an authority epoch exactly when
    [ModelCallReservation::new] builds it from its own fields for that run and epoch. *)
Lemma reservation_valid_iff_new `{Crypto} `{!CryptoLaws} (r : ModelCallReservation)
    (run_id : string) (epoch : N) :
  ModelCallReservation_validate_for r run_id epoch = Ok tt ↔
  ModelCallReservation_new run_id epoch (ModelCallReservation.planner_id r)
    (ModelCallReservation.call_index r) (ModelCallReservation.turn_index r)
    (ModelCallReservation.base_sequence r) (ModelCallReservation.base_head_digest r)
    (ModelCallReservation.context_digest r) (ModelCallReservation.request_digest r) = Ok r.
Proof.
  destruct r as [v c p ci ti bs bh cx rq]. cbn. split; intros Hr.
  - unfold ModelCallReservation_validate_for in Hr. cbn in Hr. res_inv.
    unfold ModelCallReservation_new.
    repeat match goal with H : ?c = Ok _ |- context [?c] => rewrite H; cbn [rbind] end.
    by rewrite !bool_decide_eq_false_2.
  - unfold ModelCallReservation_new in Hr. res_inv.
    match goal with H : model_call_id _ _ _ _ _ _ _ _ _ = Ok _ |- _ =>
      pose proof (model_call_id_shape _ _ _ _ _ _ _ _ _ _ H) end.
    unfold ModelCallReservation_validate_for. cbn.
    repeat match goal with H : ?c = Ok _ |- context [?c] => rewrite H; cbn [rbind] end.
    by rewrite !bool_decide_eq_false_2; [|naive_solver..].
Qed.

Lemma reservation_call_id `{Crypto} r run_id epoch :
  ModelCallReservation_validate_for r run_id epoch = Ok tt →
  model_call_id run_id epoch (ModelCallReservation.planner_id r)
    (ModelCallReservation.call_index r) (ModelCallReservation.turn_index r)
    (ModelCallReservation.base_sequence r) (ModelCallReservation.base_head_digest r)
    (ModelCallReservation.context_digest r) (ModelCallReservation.request_digest r)
  = Ok (ModelCallReservation.call_id r).
Proof. intros Hr. unfold ModelCallReservation_validate_for in Hr. res_inv. congruence. Qed.

(** What the call id of a reservation is the digest of. *)
Definition call_id_input (run_id : string) (epoch : N) (r : ModelCallReservation) : Value :=
  ModelCallIdDigestInput run_id epoch (ModelCallReservation.planner_id r)
    (ModelCallReservation.call_index r) (ModelCallReservation.turn_index r)
    (ModelCallReservation.base_sequence r) (ModelCallReservation.base_head_digest r)
    (ModelCallReservation.context_digest r) (ModelCallReservation.request_digest r).

(** A reservation is bound to one run and one authority epoch: it is valid for two of
    them only if they are equal or the inputs of its call id collide. *)
Theorem reservation_bound_to_run `{Crypto} `{!CryptoLaws} (r : ModelCallReservation)
    (run1 run2 : string) (epoch1 epoch2 : N) :
  ijson_N epoch1 → ijson_N epoch2 → ijson_N (ModelCallReservation.call_index r) →
  ijson_N (ModelCallReservation.turn_index r) → ijson_N (ModelCallReservation.base_sequence r) →
  ModelCallReservation_validate_for r run1 epoch1 = Ok tt →
  ModelCallReservation_validate_for r run2 epoch2 = Ok tt →
  run1 = run2 ∧ epoch1 = epoch2 ∨ digests_collide (call_id_input run1 epoch1 r) (call_id_input run2 epoch2 r).
Proof.
  intros ? ? ? ? ? H1%reservation_call_id H2%reservation_call_id.
  destruct (prefixed_digest_inj _ _ _ _ _ _ H1 H2) as (d & D1 & D2).
  destruct (digest_commits _ _ _ _ _ D1 D2) as [Heq%ModelCallIdDigestInput_inj|];
    [by apply canonical_ModelCallIdDigestInput..|left|by right].
  by simplify_eq.
Qed.

(** ** Planned-invocation recipes *)

(** A validated binding's digests are those of its own specification. *)
Lemma binding_valid_parts `{Crypto} b :
  PlannedInvocationBinding_validate b = Ok tt →
  PlannedInvocationBinding.format_version b = PLANNED_INVOCATION_FORMAT_VERSION ∧
  require_planning_digest "proposal_digest" (PlannedInvocationBinding.proposal_digest b) = Ok tt ∧
  PlannedInvocationSpec_validate (as_spec b) = Ok tt ∧
  planned_invocation_spec_digest (as_spec b) = Ok (PlannedInvocationBinding.spec_digest b).
Proof.
  intros Hb. unfold PlannedInvocationBinding_validate in Hb. res_inv.
  repeat match goal with u : unit |- _ => destruct u end. split_and!; congruence.
Qed.

Lemma bind_verifies `{Crypto} run_id step_id proposal spec reference b r :
  PlannedInvocationMaterialRecord_bind run_id step_id proposal spec reference = Ok (b, r) →
  PlannedInvocationMaterialRecord_verify_for r run_id step_id b = Ok tt.
Proof.
  intros Hv. unfold PlannedInvocationMaterialRecord_bind in Hv. res_inv.
  by repeat match goal with u : unit |- _ => destruct u end.
Qed.

(** A recipe record verifies for a run, a step and a planned-invocation binding exactly
    when [PlannedInvocationMaterialRecord::bind] builds that binding and that record from the
    run, the step, the binding's proposal and specification and the record's reference. *)
Theorem planned_material_verify_iff_bind `{Crypto} (r : PlannedInvocationMaterialRecord)
    (run_id step_id : string) (b : PlannedInvocationBinding) :
  require_planning_identifier "run_id" run_id = Ok tt →
  require_planning_identifier "step_id" step_id = Ok tt →
  PlannedInvocationMaterialRecord_verify_for r run_id step_id b = Ok tt ↔
  PlannedInvocationMaterialRecord_bind run_id step_id (PlannedInvocationBinding.proposal_digest b)
    (as_spec b) (PlannedInvocationMaterialRecord.reference r) = Ok (b, r).
Proof.
  intros Hrun Hstep. split; intros Hv.
  - pose proof Hv as Hv'. unfold PlannedInvocationMaterialRecord_verify_for in Hv. res_inv.
    destruct r as [v rn st pl pr sp rf rd], b as [bv bp bpr bc bcv bd ba bi be bo bar bs br].
    cbn in *. bool_inv. subst.
    match goal with H : PlannedInvocationBinding_validate _ = Ok ?u |- _ => destruct u;
      destruct (binding_valid_parts _ H) as (Hver & Hprop & Hspec & Hdig) end.
    unfold PlannedInvocationMaterialRecord_bind. cbn [PlannedInvocationBinding.proposal_digest
      PlannedInvocationBinding.spec_digest PlannedInvocationMaterialRecord.reference] in *.
    rewrite Hrun, Hstep, Hprop, Hspec, Hdig. cbn [rbind].
    repeat match goal with
      | H : ReconstructableMaterialReference_validate _ = _ |- _ => rewrite H; cbn [rbind map_err]; clear H
      | H : planned_invocation_id _ _ _ _ = _ |- _ => rewrite H; cbn [rbind]; clear H
      | H : planned_invocation_material_record_digest (PlannedInvocationMaterialRecord.mk ?v ?a ?b ?c ?d ?e ?f _) = Ok ?x |- _ =>
          change (planned_invocation_material_record_digest
            (PlannedInvocationMaterialRecord.mk v a b c d e f EmptyString) = Ok x) in H; rewrite H; cbn [rbind]; clear H
      end.
    cbn in Hver. subst bv.
    match goal with |- rbind ?c _ = _ => change c with (PlannedInvocationMaterialRecord_verify_for
      (PlannedInvocationMaterialRecord.mk PLANNED_INVOCATION_FORMAT_VERSION rn st bp bpr bs rf br) rn st
      (PlannedInvocationBinding.mk PLANNED_INVOCATION_FORMAT_VERSION bp bpr bc bcv bd ba bi be bo bar bs br)) end.
    by rewrite Hv'.
  - by apply bind_verifies in Hv.
Qed.

Lemma planned_material_parts `{Crypto} r run_id step_id b :
  PlannedInvocationMaterialRecord_verify_for r run_id step_id b = Ok tt →
  PlannedInvocationMaterialRecord.format_version r = PLANNED_INVOCATION_FORMAT_VERSION ∧
  PlannedInvocationMaterialRecord.run_id r = run_id ∧
  PlannedInvocationMaterialRecord.step_id r = step_id ∧
  PlannedInvocationMaterialRecord.record_digest r = PlannedInvocationBinding.plan_input_record_digest b ∧
  planned_invocation_material_record_digest r = Ok (PlannedInvocationMaterialRecord.record_digest r).
Proof.
  intros Hv. unfold PlannedInvocationMaterialRecord_verify_for in Hv. res_inv. bool_inv.
  by split_and!; congruence.
Qed.

(** A planned-invocation binding commits to one run, one step and one recipe record: two
    records that verify for it are equal, for the same run and step, or their digest inputs
    collide. *)
Theorem planned_binding_commits `{Crypto} `{!CryptoLaws} (r1 r2 : PlannedInvocationMaterialRecord)
    (run1 run2 step1 step2 : string) (b : PlannedInvocationBinding) :
  PlannedInvocationMaterialRecord_verify_for r1 run1 step1 b = Ok tt →
  PlannedInvocationMaterialRecord_verify_for r2 run2 step2 b = Ok tt →
  (r1 = r2 ∧ run1 = run2 ∧ step1 = step2) ∨
  digests_collide (PlannedInvocationMaterialRecordDigestInput r1)
    (PlannedInvocationMaterialRecordDigestInput r2).
Proof.
  intros (V1 & <- & <- & E1 & D1)%planned_material_parts (V2 & <- & <- & E2 & D2)%planned_material_parts.
  rewrite E1 in D1. rewrite E2 in D2.
  destruct (digest_commits _ _ _ _ _ D1 D2) as [Heq|Hc]; [..|left|by right].
  1,2: apply canonical_PlannedInvocationMaterialRecordDigestInput; by rewrite ?V1, ?V2.
  apply PlannedInvocationMaterialRecordDigestInput_inj in Heq as ->; [done|congruence].
Qed.

Lemma ok_unit {E} (c : res E unit) : is_ok c ↔ c = Ok tt.
Proof. split; [by intros [[] ?]|by exists tt]. Qed.

(** The binding and record of a bind whose digests are known verify. *)
Lemma bound_record_verifies `{Crypto} `{!CryptoLaws} run_id step_id proposal_digest spec reference
    spec_digest plan_id record_digest :
  let record := PlannedInvocationMaterialRecord.mk PLANNED_INVOCATION_FORMAT_VERSION run_id step_id
    plan_id proposal_digest spec_digest reference record_digest in
  let binding := PlannedInvocationBinding.mk PLANNED_INVOCATION_FORMAT_VERSION plan_id proposal_digest
    (PlannedInvocationSpec.capability_id spec) (PlannedInvocationSpec.contract_version spec)
    (PlannedInvocationSpec.definition_digest spec) (PlannedInvocationSpec.action_digest spec)
    (PlannedInvocationSpec.plan_input_digest spec) (PlannedInvocationSpec.execution_profile spec)
    (PlannedInvocationSpec.target_os spec) (PlannedInvocationSpec.target_arch spec)
    spec_digest record_digest in
  require_planning_digest "proposal_digest" proposal_digest = Ok tt →
  PlannedInvocationSpec_validate spec = Ok tt →
  ReconstructableMaterialReference_validate reference = Ok tt →
  planned_invocation_spec_digest spec = Ok spec_digest →
  planned_invocation_id run_id step_id proposal_digest spec_digest = Ok plan_id →
  planned_invocation_material_record_digest record = Ok record_digest →
  PlannedInvocationMaterialRecord_verify_for record run_id step_id binding = Ok tt.
Proof.
  intros record binding Hp Hspec Href Hsd Hpi Hrd.
  pose proof (planning_digest_shape _ _ _ "spec_digest" Hsd) as Vsd.
  pose proof (planning_digest_shape _ _ _ "plan_input_record_digest" Hrd) as Vrd.
  pose proof (planned_id_shape _ _ _ _ _ Hpi) as Vpi.
  assert (Has : as_spec binding = spec) by by destruct spec.
  assert (Hb : PlannedInvocationBinding_validate binding = Ok tt).
  { unfold PlannedInvocationBinding_validate. rewrite Has. by run_record. }
  unfold PlannedInvocationMaterialRecord_verify_for. by run_record.
Qed.

(** C39: Binding a recipe never fails on valid inputs: it succeeds exactly when the run and
    step ids, the proposal digest, the specification and the reference pass their own checks. *)
Theorem planned_bind_total `{Crypto} `{!CryptoLaws} (run_id step_id proposal_digest : string)
    (spec : PlannedInvocationSpec) (reference : ReconstructableMaterialReference) :
  jcs_total →
  is_ok (PlannedInvocationMaterialRecord_bind run_id step_id proposal_digest spec reference) ↔
  is_ok (require_planning_identifier "run_id" run_id) ∧
  is_ok (require_planning_identifier "step_id" step_id) ∧
  is_ok (require_planning_digest "proposal_digest" proposal_digest) ∧
  is_ok (PlannedInvocationSpec_validate spec) ∧
  is_ok (ReconstructableMaterialReference_validate reference).
Proof.
  intros Ht. rewrite !ok_unit. split.
  - intros [[b r] Hb]. unfold PlannedInvocationMaterialRecord_bind in Hb. res_inv.
    by repeat match goal with u : unit |- _ => destruct u end.
  - intros (Hr & Hs & Hp & Hspec & Href).
    destruct (canonical_digest_total PlanningContractError.Canonicalization _ Ht
      (canonical_PlannedInvocationSpecDigestInput spec)) as [sd Hsd].
    destruct (canonical_digest_total PlanningContractError.Canonicalization _ Ht
      (canonical_PlannedInvocationIdInput run_id step_id proposal_digest sd)) as [pd Hpd].
    assert (Hpi : planned_invocation_id run_id step_id proposal_digest sd
                  = Ok ("plan-" +:+ encoded_digest pd))
      by (unfold planned_invocation_id; by rewrite Hpd).
    destruct (canonical_digest_total PlanningContractError.Canonicalization _ Ht
      (canonical_PlannedInvocationMaterialRecordDigestInput (PlannedInvocationMaterialRecord.mk
        PLANNED_INVOCATION_FORMAT_VERSION run_id step_id ("plan-" +:+ encoded_digest pd)
        proposal_digest sd reference EmptyString) ltac:(done))) as [rd Hrd].
    pose proof (bound_record_verifies run_id step_id proposal_digest spec reference sd
      ("plan-" +:+ encoded_digest pd) rd Hp Hspec Href Hsd Hpi Hrd) as Hv.
    unfold is_ok, PlannedInvocationMaterialRecord_bind. eexists. repeat run_step. done.
Qed.

(** ** Invocation material *)

Lemma material_new_verifies `{Crypto} run_id step_id intent digest retention r :
  InvocationMaterialRecord_new run_id step_id intent digest retention = Ok r →
  InvocationMaterialRecord_verify_for r run_id step_id intent = Ok tt.
Proof.
  intros Hv. unfold InvocationMaterialRecord_new in Hv. res_inv.
  by repeat match goal with u : unit |- _ => destruct u end.
Qed.

(** A material record verifies for a run, a step and an effect intent exactly when
    [InvocationMaterialRecord::new] builds it from them and the record's own material digest
    and retention; in particular the intent's authorization covers both. *)
Lemma material_verify_iff_new `{Crypto} (r : InvocationMaterialRecord) (run_id step_id : string)
    (intent : EffectIntent) :
  InvocationMaterialRecord_verify_for r run_id step_id intent = Ok tt ↔
  InvocationMaterialRecord_new run_id step_id intent (InvocationMaterialRecord.material_digest r)
    (InvocationMaterialRecord.retention r) = Ok r.
Proof.
  split; intros Hv; [|by apply material_new_verifies in Hv].
  pose proof Hv as Hv'. unfold InvocationMaterialRecord_verify_for in Hv. res_inv.
  destruct r as [v mi rn st ef ac iv md rt rd]. cbn in *. subst.
  unfold InvocationMaterialRecord_new.
  cbn [InvocationMaterialRecord.material_digest InvocationMaterialRecord.retention].
  repeat match goal with u : unit |- _ => destruct u end. by repeat run_step.
Qed.

(** The authorization of an effect intent commits to the invocation material: two records
    that verify for the same run, step and intent are equal, or the digest inputs of their retentions
    collide. *)
Theorem authorization_covers_material `{Crypto} `{!CryptoLaws} (r1 r2 : InvocationMaterialRecord)
    (run_id step_id : string) (intent : EffectIntent) :
  InvocationMaterialRecord_verify_for r1 run_id step_id intent = Ok tt →
  InvocationMaterialRecord_verify_for r2 run_id step_id intent = Ok tt →
  let input r := InvocationMaterialDigestInput "xgeny.invocation-material.retention/v1"
                   (InvocationMaterialRecord.retention r) in
  r1 = r2 ∨ digests_collide (input r1) (input r2).
Proof.
  intros H1 H2 input. unfold InvocationMaterialRecord_verify_for in H1, H2. res_inv.
  match goal with
  | D1 : invocation_material_retention_digest (InvocationMaterialRecord.retention r1) = Ok ?d1,
    D2 : invocation_material_retention_digest (InvocationMaterialRecord.retention r2) = Ok ?d2 |- _ =>
      replace d2 with d1 in D2 by congruence;
      destruct (digest_commits _ _ _ _ _ D1 D2) as [Heq%InvocationMaterialDigestInput_inj|];
        [apply canonical_RetentionDigestInput..|left|by right]
  end.
  assert (Hin : InvocationMaterialRecordDigestInput r1 = InvocationMaterialRecordDigestInput r2).
  { unfold InvocationMaterialRecordDigestInput. congruence. }
  apply InvocationMaterialRecordDigestInput_inj; [done|].
  unfold invocation_material_record_digest in *. congruence.
Qed.

(** ** Authorizations *)

(** A grant digest commits to the whole authorization, binding and number of uses: nothing of what
    was authorized can be replaced under the digest unless the two authorizations collide. *)
Theorem grant_digest_commits `{Crypto} `{!CryptoLaws} (b1 b2 : AuthorizationBinding) (uses1 uses2 : N)
    (digest : string) :
  authorization_digest b1 uses1 = Ok digest → authorization_digest b2 uses2 = Ok digest →
  ijson_numbers (ser b1) = true → ijson_numbers (ser b2) = true → ijson_N uses1 → ijson_N uses2 →
  (b1 = b2 ∧ uses1 = uses2) ∨
  digests_collide (AuthorizationDigestInput b1 uses1) (AuthorizationDigestInput b2 uses2).
Proof.
  intros D1 D2 ? ? ? ?.
  destruct (digest_commits _ _ _ _ _ D1 D2) as [Heq%AuthorizationDigestInput_inj|];
    [by apply canonical_AuthorizationDigestInput..|left|by right].
  by simplify_eq.
Qed.

(** A one-shot grant id names one action of one run, unless the two pairs collide. *)
Lemma once_grant_names_action `{Crypto} `{!CryptoLaws} (run1 run2 action1 action2 grant : string) :
  once_authorization_id run1 action1 = Ok grant → once_authorization_id run2 action2 = Ok grant →
  (run1 = run2 ∧ action1 = action2) ∨
  digests_collide (OnceAuthorizationIdInput run1 action1) (OnceAuthorizationIdInput run2 action2).
Proof.
  intros H1 H2. destruct (prefixed_digest_inj _ _ _ _ _ _ H1 H2) as (d & D1 & D2).
  destruct (digest_commits _ _ _ _ _ D1 D2) as [Heq%OnceAuthorizationIdInput_inj|];
    [apply canonical_OnceAuthorizationIdInput..|left|by right].
  by simplify_eq.
Qed.

(** Tool outputs: the bounds a raw JSON output must meet, the errors that name the bound it
    misses, and the self-verifying record. *)

(** ** Bounds of the raw output *)

Definition within_bounds (output : Value) : Prop :=
  (depth output ≤ MAX_TOOL_OUTPUT_DEPTH)%N ∧ (nodes output ≤ MAX_TOOL_OUTPUT_NODES)%N ∧
  (text output ≤ MAX_TOOL_OUTPUT_TEXT_BYTES)%N.

Lemma visit_root (output : Value) :
  match visit_tool_output (N.to_nat (MAX_TOOL_OUTPUT_NODES + 2)) [(output, 0%N)] 0 0 with
  | Ok _ => within_bounds output
  | Err ToolOutputError.DepthExceeded => (MAX_TOOL_OUTPUT_DEPTH < depth output)%N
  | Err ToolOutputError.NodeCountExceeded => (MAX_TOOL_OUTPUT_NODES < nodes output)%N
  | Err ToolOutputError.TextBytesExceeded => (MAX_TOOL_OUTPUT_TEXT_BYTES < text output)%N
  | _ => False
  end.
Proof.
  assert (Hf : (MAX_TOOL_OUTPUT_NODES + 1 < N.of_nat (N.to_nat (MAX_TOOL_OUTPUT_NODES + 2)) + 0)%N)
    by (rewrite N2Nat.id; lia).
  pose proof (visit_outcome (N.to_nat (MAX_TOOL_OUTPUT_NODES + 2)) [(output, 0%N)] 0 0
    ltac:(apply N.le_0_l) ltac:(apply N.le_0_l) Hf) as Ho.
  clear Hf. revert Ho. generalize (visit_tool_output (N.to_nat (MAX_TOOL_OUTPUT_NODES + 2)) [(output, 0%N)] 0 0).
  intros r. unfold walk_outcome, within_bounds.
  destruct r as [|[]|]; rewrite ?Forall_singleton; try done;
    unfold shallow, pending_nodes, pending_text; cbn [fst snd foldr]; lia.
Qed.

(** [validate_tool_output] accepts exactly the outputs nested at most 64 deep, with at
    most 32768 nodes and 1 MiB of text, whose canonical form exists and fits in 1 MiB; it
    reports that form's size and digest.  The explicit stack computes the recursive measures. *)
Theorem validate_tool_output_bounds `{Crypto} (output : Value) (v : ValidatedToolOutput) :
  validate_tool_output output = Ok v ↔
  within_bounds output ∧
  ∃ canonical, jcs_to_vec output = inr canonical ∧
    (strlen canonical ≤ MAX_TOOL_OUTPUT_CANONICAL_BYTES)%N ∧
    v = ValidatedToolOutput.mk (strlen canonical) (sha256_digest canonical).
Proof.
  unfold validate_tool_output. pose proof (visit_root output) as Hr.
  destruct (visit_tool_output _ _ _ _) as [u|e|w]; cbn [rbind].
  - destruct (jcs_to_vec output) as [|c]; [naive_solver|].
    case_bool_decide as Hc; [split; [done|intros (_ & c' & [= <-] & Hle & _); lia]|].
    apply N.nlt_ge in Hc. unfold try_from. rewrite bool_decide_eq_true_2.
    2:{ unfold MAX_TOOL_OUTPUT_CANONICAL_BYTES, u64_max in *. lia. }
    cbn. naive_solver.
  - split; [done|]. intros [(? & ? & ?) _]. destruct e; try done; lia.
  - done.
Qed.

(** What a rejected output did wrong. *)
Definition output_fault `{Crypto} (output : Value) (e : ToolOutputError) : Prop :=
  match e with
  | ToolOutputError.DepthExceeded => (MAX_TOOL_OUTPUT_DEPTH < depth output)%N
  | ToolOutputError.NodeCountExceeded => (MAX_TOOL_OUTPUT_NODES < nodes output)%N
  | ToolOutputError.TextBytesExceeded => (MAX_TOOL_OUTPUT_TEXT_BYTES < text output)%N
  | ToolOutputError.Canonicalization =>
      within_bounds output ∧ ∃ message, jcs_to_vec output = inl message
  | ToolOutputError.CanonicalSizeExceeded =>
      within_bounds output ∧ ∃ canonical, jcs_to_vec output = inr canonical ∧
        (MAX_TOOL_OUTPUT_CANONICAL_BYTES < strlen canonical)%N
  | _ => False
  end.

(** [validate_tool_output] always returns, and its error is the bound the output misses:
    depth, nodes and text are judged before canonicalisation is attempted. *)
Theorem validate_tool_output_errors `{Crypto} (output : Value) :
  match validate_tool_output output with
  | Ok _ => within_bounds output
  | Err e => output_fault output e
  | Panic _ => False
  end.
Proof.
  unfold validate_tool_output. pose proof (visit_root output) as Hr.
  destruct (visit_tool_output _ _ _ _) as [u|e|w]; cbn [rbind]; [|by destruct e|done].
  destruct (jcs_to_vec output) as [m|c] eqn:E; [by split; [|exists m]|].
  case_bool_decide as Hc; [by split; [|exists c]|].
  apply N.nlt_ge in Hc. unfold try_from. rewrite bool_decide_eq_true_2; [done|].
  unfold MAX_TOOL_OUTPUT_CANONICAL_BYTES, u64_max in *. lia.
Qed.

(** ** The record *)

Lemma tool_output_new_verifies `{Crypto} run_id step_id intent attempt evidence output r :
  ToolOutputRecord_new run_id step_id intent attempt evidence output = Ok r →
  ToolOutputRecord_verify_for r run_id step_id intent attempt evidence = Ok tt.
Proof.
  intros Hv. unfold ToolOutputRecord_new in Hv. res_inv.
  by repeat match goal with u : unit |- _ => destruct u end.
Qed.

Lemma identity_not_zero run_id step_id intent attempt :
  validate_tool_output_identity run_id step_id intent attempt = Ok tt → attempt ≠ 0%N.
Proof. intros Hv. unfold validate_tool_output_identity in Hv. by res_inv. Qed.

(** What a verified record says about its fields. *)
Lemma tool_output_parts `{Crypto} r run_id step_id intent attempt evidence :
  ToolOutputRecord_verify_for r run_id step_id intent attempt evidence = Ok tt →
  ∃ provenance v, required_tool_output_provenance intent = Ok provenance ∧
    validate_tool_output_identity run_id step_id intent attempt = Ok tt ∧
    is_canonical_sha256 evidence = true ∧
    validate_tool_output (ToolOutputRecord.output r) = Ok v ∧
    tool_output_id r = Ok (ToolOutputRecord.output_id r) ∧
    tool_output_record_digest r = Ok (ToolOutputRecord.record_digest r) ∧
    r = ToolOutputRecord.mk TOOL_OUTPUT_FORMAT_VERSION (ToolOutputRecord.output_id r) run_id step_id
      (EffectIntent.effect_id intent) (EffectIntent.action_digest intent)
      (EffectIntent.invocation intent) (ReceiptProvenance.plan_id provenance) attempt evidence
      (ValidatedToolOutput.canonical_size_bytes v) (ValidatedToolOutput.output_digest v)
      (ToolOutputRecord.output r) (ToolOutputRecord.record_digest r).
Proof.
  intros Hv. unfold ToolOutputRecord_verify_for in Hv.
  destruct (bool_decide (ToolOutputRecord.format_version r ≠ TOOL_OUTPUT_FORMAT_VERSION)) eqn:Hver;
    [done|]. apply bool_decide_eq_false_1, dec_stable in Hver.
  apply rbind_ok in Hv as (p & Hp & Hv). apply rbind_ok in Hv as ([] & Hid & Hv).
  destruct (first_mismatch _) eqn:Hf; [done|]. apply first_mismatch_None in Hf.
  rewrite !Forall_cons in Hf. cbn in Hf. rewrite !bool_decide_eq_true in Hf.
  destruct Hf as (F1 & F2 & F3 & F4 & F5 & F6 & F7 & F8 & _).
  res_inv. bool_inv. destruct r. cbn in *. subst. eexists _, _. split_and!; try done; congruence.
Qed.

(** A tool-output record verifies for a run, a step, an intent, an attempt and an evidence
    digest exactly when [ToolOutputRecord::new] builds it from them and its own output. *)
Theorem tool_output_verify_iff_new `{Crypto} (r : ToolOutputRecord) (run_id step_id : string)
    (intent : EffectIntent) (attempt : N) (evidence : string) :
  ToolOutputRecord_verify_for r run_id step_id intent attempt evidence = Ok tt ↔
  ToolOutputRecord_new run_id step_id intent attempt evidence (ToolOutputRecord.output r) = Ok r.
Proof.
  split; intros Hv; [|by apply tool_output_new_verifies in Hv].
  destruct (tool_output_parts _ _ _ _ _ _ Hv) as (p & v & Hp & Hid & He & Ho & Hi & Hd & Hr).
  unfold ToolOutputRecord_new. rewrite Hp, Hid. cbn [rbind]. rewrite He. cbn [negb].
  rewrite Hr in Hi, Hd, Hv. rewrite Hr. cbn in Ho. by repeat run_step.
Qed.

Lemma validated_size `{Crypto} output v :
  validate_tool_output output = Ok v →
  ijson_N (ValidatedToolOutput.canonical_size_bytes v) ∧
  canonical_digest (λ _ : string, ToolOutputError.Canonicalization) output
  = Ok (ValidatedToolOutput.output_digest v).
Proof.
  unfold validate_tool_output. intros (u & _ & Hv)%rbind_ok. unfold canonical_digest.
  destruct (jcs_to_vec output) as [|c]; [done|]. res_inv. checked_inv. cbn.
  split; [|done]. unfold ijson_N, MAX_TOOL_OUTPUT_CANONICAL_BYTES in *. lia.
Qed.

(** A verified record: its digest input is in the domain of RFC 8785, and its output digest
    is that of its output. *)
Lemma tool_output_digests `{Crypto} r run_id step_id intent attempt evidence :
  ToolOutputRecord_verify_for r run_id step_id intent attempt evidence = Ok tt → ijson_N attempt →
  canonical_input (ToolOutputRecordDigestInput r) ∧
  tool_output_record_digest r = Ok (ToolOutputRecord.record_digest r) ∧
  canonical_digest (λ _ : string, ToolOutputError.Canonicalization) (ToolOutputRecord.output r)
  = Ok (ToolOutputRecord.output_digest r).
Proof.
  intros Hv Ha. destruct (tool_output_parts _ _ _ _ _ _ Hv) as (p & v & _ & _ & _ & Ho & _ & Hd & Hr).
  destruct (validated_size _ _ Ho) as [Hs Hc].
  pose proof (f_equal ToolOutputRecord.format_version Hr) as E1.
  pose proof (f_equal ToolOutputRecord.execution_attempt Hr) as E2.
  pose proof (f_equal ToolOutputRecord.canonical_size_bytes Hr) as E3.
  pose proof (f_equal ToolOutputRecord.output_digest Hr) as E4.
  cbn in E1, E2, E3, E4. split_and!; [|done|by rewrite E4].
  by apply canonical_ToolOutputRecordDigestInput; rewrite ?E1, ?E2, ?E3.
Qed.

(** The record digest, which is what the journal's success event carries, commits to the
    whole record, the output included: two records that verify and share it are equal, or
    their digest inputs or their outputs collide.  Outputs and attempts are taken in the range RFC 8785 is exact on. *)
Theorem tool_output_digest_commits `{Crypto} `{!CryptoLaws} (r1 r2 : ToolOutputRecord)
    (run1 step1 : string) (intent1 : EffectIntent) (attempt1 : N) (evidence1 : string)
    (run2 step2 : string) (intent2 : EffectIntent) (attempt2 : N) (evidence2 : string) :
  ToolOutputRecord_verify_for r1 run1 step1 intent1 attempt1 evidence1 = Ok tt →
  ToolOutputRecord_verify_for r2 run2 step2 intent2 attempt2 evidence2 = Ok tt →
  canonical_input (ToolOutputRecord.output r1) → canonical_input (ToolOutputRecord.output r2) →
  ijson_N attempt1 → ijson_N attempt2 →
  ToolOutputRecord.record_digest r1 = ToolOutputRecord.record_digest r2 →
  r1 = r2 ∨ digests_collide (ToolOutputRecordDigestInput r1) (ToolOutputRecordDigestInput r2) ∨
  digests_collide (ToolOutputRecord.output r1) (ToolOutputRecord.output r2).
Proof.
  intros H1 H2 C1 C2 A1 A2 Heq.
  destruct (tool_output_digests _ _ _ _ _ _ H1 A1) as (I1 & D1 & O1).
  destruct (tool_output_digests _ _ _ _ _ _ H2 A2) as (I2 & D2 & O2).
  rewrite Heq in D1. destruct (digest_commits _ _ _ _ _ D1 D2 I1 I2) as [Hin|]; [|by right; left].
  rewrite (ToolOutputRecordDigestInput_output _ _ Hin) in O1.
  destruct (digest_commits _ _ _ _ _ O1 O2 C1 C2) as [Ho|]; [left|by right; right].
  by apply ToolOutputRecordDigestInput_inj.
Qed.

(** Completion outputs: the record against its constructors, the decision it reconstructs and
    what its digests commit to. *)

Lemma completion_new_verifies `{Crypto} run_id decision candidate_id summary_digest summary r :
  CompletionOutputRecord_new run_id decision candidate_id summary_digest summary = Ok r →
  CompletionOutputRecord_verify_for r run_id decision candidate_id summary_digest = Ok tt.
Proof.
  intros Hv. unfold CompletionOutputRecord_new in Hv. res_inv.
  by repeat match goal with u : unit |- _ => destruct u end.
Qed.

(** What a verified record says about its fields. *)
Lemma completion_parts `{Crypto} r run_id decision candidate_id summary_digest :
  CompletionOutputRecord_verify_for r run_id decision candidate_id summary_digest = Ok tt →
  ∃ call, ExpectedPlanningTurn.model_call_id decision = Some call ∧
    ExpectedPlanningTurn_validate decision = Ok tt ∧
    validate_completion_summary_candidate (CompletionOutputRecord.summary r) = Ok tt ∧
    completion_summary_digest (CompletionOutputRecord.summary r) = Ok summary_digest ∧
    completion_proposal_digest (ExpectedPlanningTurn.context_digest decision)
      (CompletionOutputRecord.summary r) = Ok (ExpectedPlanningTurn.proposal_digest decision) ∧
    completion_candidate_id run_id (ExpectedPlanningTurn.context_digest decision)
      (ExpectedPlanningTurn.proposal_digest decision) = Ok candidate_id ∧
    require_planning_identifier "run_id" run_id = Ok tt ∧
    completion_output_record_digest r = Ok (CompletionOutputRecord.record_digest r) ∧
    r = CompletionOutputRecord.mk COMPLETION_OUTPUT_FORMAT_VERSION candidate_id run_id
      (ExpectedPlanningTurn.turn_index decision) call (ExpectedPlanningTurn.context_digest decision)
      (ExpectedPlanningTurn.proposal_digest decision) (strlen (CompletionOutputRecord.summary r))
      summary_digest (CompletionOutputRecord.summary r) (CompletionOutputRecord.record_digest r).
Proof.
  intros Hv. unfold CompletionOutputRecord_verify_for in Hv.
  destruct (bool_decide (CompletionOutputRecord.format_version r ≠ COMPLETION_OUTPUT_FORMAT_VERSION)) eqn:Hver;
    [done|]. apply bool_decide_eq_false_1, dec_stable in Hver.
  apply rbind_ok in Hv as ([] & Ht & Hv). apply map_err_ok in Ht.
  apply rbind_ok in Hv as (call & Hc & Hv).
  apply rbind_ok in Hv as ([] & Hrun & Hv). apply map_err_ok in Hrun.
  do 2 apply rbind_ok in Hv as (? & _ & Hv).
  destruct (first_mismatch _) eqn:Hf; [done|]. apply first_mismatch_None in Hf.
  res_inv. checked_inv.
  rewrite !Forall_cons in Hf. cbn in Hf. rewrite !bool_decide_eq_true in Hf.
  destruct Hf as (F1 & F2 & F3 & F4 & F5 & F6 & F7 & _).
  destruct r. cbn in *. subst. eexists.
  repeat match goal with u : unit |- _ => destruct u end.
  split_and!; try done; congruence.
Qed.

Lemma completion_verified_new `{Crypto} r run_id decision candidate_id summary_digest :
  CompletionOutputRecord_verify_for r run_id decision candidate_id summary_digest = Ok tt →
  CompletionOutputRecord_new run_id decision candidate_id summary_digest
    (CompletionOutputRecord.summary r) = Ok r.
Proof.
  intros Hv.
  destruct (completion_parts _ _ _ _ _ Hv) as (call & Hc & Ht & Hs & Hsd & Hp & Hci & Hrun & Hd & Hr).
  assert (Hlen : try_from u64_max (strlen (CompletionOutputRecord.summary r))
                 = Some (strlen (CompletionOutputRecord.summary r))).
  { apply try_from_Some. split; [done|]. unfold validate_completion_summary_candidate in Hs. res_inv.
    match goal with H : ¬ (_ < _)%N |- _ => apply N.nlt_ge in H end.
    unfold MAX_COMPLETION_SUMMARY_BYTES, u64_max in *. lia. }
  unfold CompletionOutputRecord_new. rewrite Hc, Hlen. cbn [rbind ok_or].
  rewrite Hr in Hd, Hv. rewrite Hr. by repeat run_step.
Qed.

(** A completion output verifies for a run, a decision, a candidate and a summary digest
    exactly when [CompletionOutputRecord::new] builds it from them and its own summary. *)
Lemma completion_verify_iff_new `{Crypto} (r : CompletionOutputRecord) (run_id : string)
    (decision : ExpectedPlanningTurn) (candidate_id summary_digest : string) :
  CompletionOutputRecord_verify_for r run_id decision candidate_id summary_digest = Ok tt ↔
  CompletionOutputRecord_new run_id decision candidate_id summary_digest
    (CompletionOutputRecord.summary r) = Ok r.
Proof. split; [apply completion_verified_new|apply completion_new_verifies]. Qed.

(** A decision for a model call is its fields, checked. *)
Lemma turn_for_call turn call context proposal d :
  map_err CompletionOutputError.PlanningContract
    (ExpectedPlanningTurn_for_model_call turn call context proposal) = Ok d ↔
  d = ExpectedPlanningTurn.mk turn (Some call) context proposal ∧ ExpectedPlanningTurn_validate d = Ok tt.
Proof.
  rewrite map_err_ok. unfold ExpectedPlanningTurn_for_model_call. rewrite rbind_ok.
  split; [by intros ([] & Hv & [= <-])|]. intros [-> Hv]. by exists tt.
Qed.

(** [CompletionOutputRecord::bind] builds exactly the records that verify: a record is
    bound from its own run, turn, call, context and summary just when it verifies for the run
    and the decision, candidate and summary digest it carries; [decision] then reconstructs
    the decision it was bound under. *)
Theorem completion_bind_decides `{Crypto} (r : CompletionOutputRecord) (run_id : string) :
  CompletionOutputRecord_bind run_id (CompletionOutputRecord.turn_index r)
    (CompletionOutputRecord.model_call_id r) (CompletionOutputRecord.context_digest r)
    (CompletionOutputRecord.summary r) = Ok r ↔
  ∃ decision, CompletionOutputRecord_decision r = Ok decision ∧
    CompletionOutputRecord_verify_for r run_id decision (CompletionOutputRecord.candidate_id r)
      (CompletionOutputRecord.summary_digest r) = Ok tt.
Proof.
  split.
  - intros Hb. unfold CompletionOutputRecord_bind in Hb.
    do 3 apply rbind_ok in Hb as (? & _ & Hb).
    apply rbind_ok in Hb as (proposal & Hp & Hb).
    apply rbind_ok in Hb as (decision & [Hd Ht]%turn_for_call & Hb).
    apply rbind_ok in Hb as (cid & Hcid & Hb). apply rbind_ok in Hb as (sd & Hsd & Hb).
    apply completion_new_verifies in Hb.
    destruct (completion_parts _ _ _ _ _ Hb) as (call & Hc & _ & _ & _ & _ & _ & _ & _ & Hr).
    pose proof (f_equal CompletionOutputRecord.candidate_id Hr) as E1.
    pose proof (f_equal CompletionOutputRecord.summary_digest Hr) as E2.
    pose proof (f_equal CompletionOutputRecord.proposal_digest Hr) as E3. cbn in E1, E2, E3.
    exists decision. rewrite E1, E2. split; [|done]. apply turn_for_call. split; [|done].
    by rewrite E3, Hd.
  - intros (decision & [Hdec Hv]%turn_for_call & Hr).
    destruct (completion_parts _ _ _ _ _ Hr) as (call & Hc & Ht & Hs & Hsd & Hp & Hci & Hrun & _ & _).
    apply completion_verified_new in Hr. subst decision. cbn in Hp, Hci, Hv.
    unfold CompletionOutputRecord_bind. run_step. run_step.
    assert (Hx : require_planning_digest "context_digest" (CompletionOutputRecord.context_digest r) = Ok tt).
    { unfold ExpectedPlanningTurn_validate in Hv. res_inv.
      by repeat match goal with u : unit |- _ => destruct u end. }
    run_step. run_step.
    assert (Hf : ExpectedPlanningTurn_for_model_call (CompletionOutputRecord.turn_index r)
      (CompletionOutputRecord.model_call_id r) (CompletionOutputRecord.context_digest r)
      (CompletionOutputRecord.proposal_digest r) = Ok (ExpectedPlanningTurn.mk
        (CompletionOutputRecord.turn_index r) (Some (CompletionOutputRecord.model_call_id r))
        (CompletionOutputRecord.context_digest r) (CompletionOutputRecord.proposal_digest r))).
    { apply (map_err_ok CompletionOutputError.PlanningContract), turn_for_call. by split. }
    run_step. run_step. run_step. done.
Qed.

(** The accepted decision commits to the completion output: two records that verify for
    the same run and decision are equal, summary included, or their proposal inputs collide. *)
Lemma decision_commits_summary `{Crypto} `{!CryptoLaws} (r1 r2 : CompletionOutputRecord)
    (run_id : string) (decision : ExpectedPlanningTurn)
    (candidate1 candidate2 summary_digest1 summary_digest2 : string) :
  CompletionOutputRecord_verify_for r1 run_id decision candidate1 summary_digest1 = Ok tt →
  CompletionOutputRecord_verify_for r2 run_id decision candidate2 summary_digest2 = Ok tt →
  let input r := CompletionProposalDigestInput (ExpectedPlanningTurn.context_digest decision)
                   (CompletionOutputRecord.summary r) in
  r1 = r2 ∨ digests_collide (input r1) (input r2).
Proof.
  intros H1%completion_verified_new H2%completion_verified_new.
  pose proof (completion_new_verifies _ _ _ _ _ _ H1) as V1.
  pose proof (completion_new_verifies _ _ _ _ _ _ H2) as V2.
  destruct (completion_parts _ _ _ _ _ V1) as (? & _ & _ & _ & S1 & P1 & C1 & _ & _ & _).
  destruct (completion_parts _ _ _ _ _ V2) as (? & _ & _ & _ & S2 & P2 & C2 & _ & _ & _).
  destruct (digest_commits _ _ _ _ _ P1 P2) as [Heq%CompletionProposalDigestInput_inj|];
    [apply canonical_CompletionProposalDigestInput..|left|by right].
  injection Heq as Heq. congruence.
Qed.
