(* ===== verification/Frontier.v ===== *)
(** The derived work frontier: dependency validation, topological classification and the
    ordered coordination view ([derive_frontier] and its helpers in
    crates/xgeny-workgraph/src/lib.rs).

    [FrontierMetrics] only counts under [cfg(test)] and is left out. *)

From S2P Require Import Prelude Text Wire WorkGraphTypes WorkGraphErrors.

(** ** Data *)

Module FrontierAction.
Record FrontierAction : Type := mk { step_id : string; action : ContinuationAction }.
End FrontierAction.
Abbreviation FrontierAction := FrontierAction.FrontierAction.

Module DependencyBlocker.
Record DependencyBlocker : Type := mk { step_id : string; reason : DependencyBlockReason }.
#[global] Instance DependencyBlocker_eq_dec : EqDecision DependencyBlocker.
Proof. solve_decision. Defined.
(** The derived [Ord]: step id, then reason. *)
Definition le (a b : DependencyBlocker) : Prop :=
  if bool_decide (step_id a = step_id b)
  then (DependencyBlockReason.rank (reason a) ≤ DependencyBlockReason.rank (reason b))%N
  else String.le (step_id a) (step_id b).
#[global] Instance le_dec : RelDecision le.
Proof. intros a b. unfold le. case_match; apply _. Defined.
End DependencyBlocker.
Abbreviation DependencyBlocker := DependencyBlocker.DependencyBlocker.

Module WaitingStep.
Record WaitingStep : Type := mk { step_id : string; pending_dependencies : list string }.
Definition le (a b : WaitingStep) : Prop := String.le (step_id a) (step_id b).
#[global] Instance le_dec : RelDecision le.
Proof. intros a b. unfold le. apply _. Defined.
End WaitingStep.
Abbreviation WaitingStep := WaitingStep.WaitingStep.

Module BlockedStep.
Record BlockedStep : Type := mk { step_id : string; blockers : list DependencyBlocker }.
Definition le (a b : BlockedStep) : Prop := String.le (step_id a) (step_id b).
#[global] Instance le_dec : RelDecision le.
Proof. intros a b. unfold le. apply _. Defined.
End BlockedStep.
Abbreviation BlockedStep := BlockedStep.BlockedStep.

Module WorkFrontier.
Record WorkFrontier : Type := mk {
  run_id : string;
  revision : N;
  journal_sequence : N;
  journal_head_digest : string;
  total_steps : N;
  actionable : list FrontierAction;
  waiting : list WaitingStep;
  blocked : list BlockedStep;
  verified_completed_step_ids : list string;
  unverified_completed_step_ids : list string;
  failed_step_ids : list string;
  manual_required_step_ids : list string;
}.
Definition next_action (f : WorkFrontier) : option FrontierAction := head (actionable f).
Definition all_steps_receipt_completed (f : WorkFrontier) : bool :=
  bool_decide (0 < total_steps f)%N
  && bool_decide (len (verified_completed_step_ids f) = total_steps f).
End WorkFrontier.
Abbreviation WorkFrontier := WorkFrontier.WorkFrontier.

Module DependencyOutcome.
Inductive DependencyOutcome : Type := Satisfied | Pending | Blocked.
#[global] Instance DependencyOutcome_eq_dec : EqDecision DependencyOutcome.
Proof. solve_decision. Defined.
End DependencyOutcome.
Abbreviation DependencyOutcome := DependencyOutcome.DependencyOutcome.

Module ValidatedFrontierGraph.
Record ValidatedFrontierGraph : Type := mk {
  remaining_dependencies : gmap string N;
  dependents : gmap string (list string);
  zero_indegree : gset string;
}.
End ValidatedFrontierGraph.
Abbreviation ValidatedFrontierGraph := ValidatedFrontierGraph.ValidatedFrontierGraph.

Definition RankedAction : Type := (N * string) * ContinuationAction.

Module FrontierAssembly.
Record FrontierAssembly : Type := mk {
  outcomes : gmap string DependencyOutcome;
  ranked_actions : list RankedAction;
  waiting : list WaitingStep;
  blocked : list BlockedStep;
  verified_completed_step_ids : list string;
  unverified_completed_step_ids : list string;
  failed_step_ids : list string;
  manual_required_step_ids : list string;
  processed : N;
}.
Definition default : FrontierAssembly := mk ∅ [] [] [] [] [] [] [] 0.

Definition set_processed (n : N) (a : FrontierAssembly) : FrontierAssembly :=
  mk (outcomes a) (ranked_actions a) (waiting a) (blocked a) (verified_completed_step_ids a)
    (unverified_completed_step_ids a) (failed_step_ids a) (manual_required_step_ids a) n.
Definition set_outcome (id : string) (o : DependencyOutcome) (a : FrontierAssembly) : FrontierAssembly :=
  mk (<[id := o]> (outcomes a)) (ranked_actions a) (waiting a) (blocked a)
    (verified_completed_step_ids a) (unverified_completed_step_ids a) (failed_step_ids a)
    (manual_required_step_ids a) (processed a).
Definition push_action (r : RankedAction) (a : FrontierAssembly) : FrontierAssembly :=
  mk (outcomes a) (ranked_actions a ++ [r]) (waiting a) (blocked a)
    (verified_completed_step_ids a) (unverified_completed_step_ids a) (failed_step_ids a)
    (manual_required_step_ids a) (processed a).
Definition push_waiting (w : WaitingStep) (a : FrontierAssembly) : FrontierAssembly :=
  mk (outcomes a) (ranked_actions a) (waiting a ++ [w]) (blocked a)
    (verified_completed_step_ids a) (unverified_completed_step_ids a) (failed_step_ids a)
    (manual_required_step_ids a) (processed a).
Definition push_blocked (b : BlockedStep) (a : FrontierAssembly) : FrontierAssembly :=
  mk (outcomes a) (ranked_actions a) (waiting a) (blocked a ++ [b])
    (verified_completed_step_ids a) (unverified_completed_step_ids a) (failed_step_ids a)
    (manual_required_step_ids a) (processed a).
Definition push_verified (id : string) (a : FrontierAssembly) : FrontierAssembly :=
  mk (outcomes a) (ranked_actions a) (waiting a) (blocked a)
    (verified_completed_step_ids a ++ [id]) (unverified_completed_step_ids a)
    (failed_step_ids a) (manual_required_step_ids a) (processed a).
Definition push_unverified (id : string) (a : FrontierAssembly) : FrontierAssembly :=
  mk (outcomes a) (ranked_actions a) (waiting a) (blocked a) (verified_completed_step_ids a)
    (unverified_completed_step_ids a ++ [id]) (failed_step_ids a)
    (manual_required_step_ids a) (processed a).
Definition push_failed (id : string) (a : FrontierAssembly) : FrontierAssembly :=
  mk (outcomes a) (ranked_actions a) (waiting a) (blocked a) (verified_completed_step_ids a)
    (unverified_completed_step_ids a) (failed_step_ids a ++ [id])
    (manual_required_step_ids a) (processed a).
Definition push_manual (id : string) (a : FrontierAssembly) : FrontierAssembly :=
  mk (outcomes a) (ranked_actions a) (waiting a) (blocked a) (verified_completed_step_ids a)
    (unverified_completed_step_ids a) (failed_step_ids a)
    (manual_required_step_ids a ++ [id]) (processed a).
End FrontierAssembly.
Abbreviation FrontierAssembly := FrontierAssembly.FrontierAssembly.

(** ** Receipt release *)

Definition receipt_releases_dependency (step : StepState) : bool :=
  bool_decide (StepState.status step = StepStatus.Completed)
  && match StepState.execution_receipt_id step with
     | Some receipt_id => negb (is_empty receipt_id)
     | None => false
     end
  && match StepState.execution_receipt_digest step with
     | Some digest => is_sha256_digest digest
     | None => false
     end.

Definition dependency_release_block_reason (step : StepState) : option DependencyBlockReason :=
  if receipt_releases_dependency step then None
  else Some match StepState.status step with
            | StepStatus.Failed => DependencyBlockReason.Failed
            | StepStatus.ManualRequired => DependencyBlockReason.ManualRequired
            | StepStatus.Completed => DependencyBlockReason.ReceiptMissing
            | _ => DependencyBlockReason.NotCompleted
            end.

Definition blocker_reason (step : StepState) : DependencyBlockReason :=
  match StepState.status step with
  | StepStatus.Failed => DependencyBlockReason.Failed
  | StepStatus.ManualRequired => DependencyBlockReason.ManualRequired
  | StepStatus.Completed =>
      if receipt_releases_dependency step then DependencyBlockReason.DependencyBlocked
      else DependencyBlockReason.ReceiptMissing
  | _ => DependencyBlockReason.DependencyBlocked
  end.

(** ** Validation *)

(** The body of the inner loop over one step's dependencies: the loop state is the set of
    dependencies seen and the dependents map. *)
Definition validate_dependency (step_id : string) (s : gset string * gmap string (list string))
    (dependency_id : string)
    : res FrontierError (gset string * gmap string (list string)) :=
  let '(unique, dependents) := s in
  bail_if bool_decide (dependency_id = step_id) with FrontierError.SelfDependency step_id;;
  bail_if bool_decide (dependency_id ∈ unique)
    with FrontierError.DuplicateDependency step_id dependency_id;;
  match dependents !! dependency_id with
  | None => Err (FrontierError.UnknownDependency step_id dependency_id)
  | Some children =>
      Ok ({[dependency_id]} ∪ unique, <[dependency_id := children ++ [step_id]]> dependents)
  end.

(** The body of the outer loop over steps in key order. *)
Definition validate_step (s : gmap string N * gmap string (list string))
    (entry : string * StepState)
    : res FrontierError (gmap string N * gmap string (list string)) :=
  let '(remaining, dependents) := s in
  let '(step_id, step) := entry in
  let? inner := for_each (validate_dependency step_id) (StepState.depends_on step)
                  (∅, dependents) in
  Ok (<[step_id := len (StepState.depends_on step)]> remaining, inner.2).

Definition validate_frontier_graph (state : RunState) : res FrontierError ValidatedFrontierGraph :=
  let dependents := (λ _, []) <$> RunState.steps state in
  let? loops := for_each validate_step (btree_entries (RunState.steps state)) (∅, dependents) in
  let '(remaining, dependents) := loops in
  Ok (ValidatedFrontierGraph.mk remaining
        (merge_sort String.le <$> dependents)
        (dom (filter (λ p, p.2 = 0%N) remaining))).

(** ** Classification *)

(** The partition loop: pending dependencies and blockers in dependency order. *)
Definition partition_dependency (assembly : FrontierAssembly) (state : RunState)
    (s : list string * list DependencyBlocker) (dependency_id : string)
    : res FrontierError (list string * list DependencyBlocker) :=
  let '(pending, blockers) := s in
  let? outcome := expect (FrontierAssembly.outcomes assembly !! dependency_id)
                    "topological traversal processes dependencies first" in
  match outcome with
  | DependencyOutcome.Satisfied => Ok (pending, blockers)
  | DependencyOutcome.Pending => Ok (pending ++ [dependency_id], blockers)
  | DependencyOutcome.Blocked =>
      let? dependency := expect (RunState.steps state !! dependency_id) "BTreeMap index" in
      Ok (pending, blockers ++ [DependencyBlocker.mk dependency_id (blocker_reason dependency)])
  end.

Definition partition_dependencies (assembly : FrontierAssembly) (state : RunState)
    (step : StepState) : res FrontierError (list string * list DependencyBlocker) :=
  let? parts := for_each (partition_dependency assembly state) (StepState.depends_on step) ([], []) in
  let '(pending, blockers) := parts in
  Ok (merge_sort String.le pending, dedup (merge_sort DependencyBlocker.le blockers)).

Definition record_status (step_id : string) (step : StepState) (pending : list string)
    (blockers : list DependencyBlocker) (a : FrontierAssembly)
    : FrontierAssembly * DependencyOutcome :=
  let act rank action :=
    (FrontierAssembly.push_action ((rank, step_id), action) a, DependencyOutcome.Pending) in
  match StepState.status step with
  | StepStatus.Planned =>
      match blockers, pending with
      | _ :: _, _ =>
          (FrontierAssembly.push_blocked (BlockedStep.mk step_id blockers) a,
           DependencyOutcome.Blocked)
      | [], _ :: _ =>
          (FrontierAssembly.push_waiting (WaitingStep.mk step_id pending) a,
           DependencyOutcome.Pending)
      | [], [] => act 5%N ContinuationAction.Admit
      end
  | StepStatus.IntentCommitted => act 4%N ContinuationAction.DriveEffect
  | StepStatus.Executing => act 0%N ContinuationAction.DriveEffect
  | StepStatus.EffectUnknown => act 1%N ContinuationAction.DriveEffect
  | StepStatus.Reconciling => act 2%N ContinuationAction.DriveEffect
  | StepStatus.Validating => act 3%N ContinuationAction.Verify
  | StepStatus.Completed =>
      if receipt_releases_dependency step
      then (FrontierAssembly.push_verified step_id a, DependencyOutcome.Satisfied)
      else (FrontierAssembly.push_unverified step_id a, DependencyOutcome.Blocked)
  | StepStatus.Failed => (FrontierAssembly.push_failed step_id a, DependencyOutcome.Blocked)
  | StepStatus.ManualRequired =>
      (FrontierAssembly.push_manual step_id a, DependencyOutcome.Blocked)
  end.

Definition record_step (assembly : FrontierAssembly) (state : RunState) (step_id : string)
    : res FrontierError FrontierAssembly :=
  let assembly := FrontierAssembly.set_processed
                    (N.min usize_max (FrontierAssembly.processed assembly + 1)) assembly in
  let? step := expect (RunState.steps state !! step_id) "BTreeMap index" in
  let? parts := partition_dependencies assembly state step in
  let '(pending, blockers) := parts in
  let dependencies_released :=
    match blockers, pending with [], [] => true | _, _ => false end in
  if negb (bool_decide (StepState.status step = StepStatus.Planned)) && negb dependencies_released
  then
    match blockers with
    | blocker :: _ =>
        Err (FrontierError.ActiveDependencyNotReleased step_id
               (DependencyBlocker.step_id blocker) (DependencyBlocker.reason blocker))
    | [] =>
        let? first := expect (head pending) "unreleased dependency must be classified" in
        Err (FrontierError.ActiveDependencyNotReleased step_id first
               DependencyBlockReason.NotCompleted)
    end
  else
    let '(assembly, outcome) := record_status step_id step pending blockers assembly in
    Ok (FrontierAssembly.set_outcome step_id outcome assembly).

Definition ranked_le (a b : RankedAction) : Prop :=
  if bool_decide (a.1.1 = b.1.1) then String.le a.1.2 b.1.2 else (a.1.1 ≤ b.1.1)%N.
#[export] Instance ranked_le_dec : RelDecision ranked_le.
Proof. intros a b. unfold ranked_le. case_match; apply _. Defined.

Definition finish (a : FrontierAssembly) (state : RunState) : WorkFrontier :=
  WorkFrontier.mk (RunState.run_id state) (RunState.revision state)
    (RunState.journal_sequence state) (RunState.journal_head_digest state)
    (N.of_nat (size (RunState.steps state)))
    (map (λ r, FrontierAction.mk r.1.2 r.2)
       (merge_sort ranked_le (FrontierAssembly.ranked_actions a)))
    (merge_sort WaitingStep.le (FrontierAssembly.waiting a))
    (merge_sort BlockedStep.le (FrontierAssembly.blocked a))
    (merge_sort String.le (FrontierAssembly.verified_completed_step_ids a))
    (merge_sort String.le (FrontierAssembly.unverified_completed_step_ids a))
    (merge_sort String.le (FrontierAssembly.failed_step_ids a))
    (merge_sort String.le (FrontierAssembly.manual_required_step_ids a)).

(** The loop over the dependents of a processed step. *)
Definition release_child (s : gmap string N * gset string) (child : string)
    : res FrontierError (gmap string N * gset string) :=
  let '(remaining, zero) := s in
  let? count := expect (remaining !! child) "dependent was indexed during validation" in
  let? count := expect (checked_sub count 1) "dependency count cannot underflow" in
  Ok (<[child := count]> remaining,
      if bool_decide (count = 0)%N then {[child]} ∪ zero else zero).

(** The [while let Some(step_id) = zero_indegree.pop_first()] loop.  Each pass processes
    a step not processed before, so one pass more than there are steps is enough fuel. *)
Fixpoint classify_loop (fuel : nat) (state : RunState) (dependents : gmap string (list string))
    (remaining : gmap string N) (zero : gset string) (assembly : FrontierAssembly)
    : res FrontierError FrontierAssembly :=
  match fuel with
  | O => Panic "fuel"
  | S fuel =>
      match pop_first zero with
      | None => Ok assembly
      | Some (step_id, zero) =>
          let? assembly := record_step assembly state step_id in
          let? children := expect (dependents !! step_id) "BTreeMap index" in
          let? loop := for_each release_child children (remaining, zero) in
          classify_loop fuel state dependents loop.1 loop.2 assembly
      end
  end.

Definition derive_frontier (state : RunState) : res FrontierError WorkFrontier :=
  let? graph := validate_frontier_graph state in
  let? assembly := classify_loop (S (size (RunState.steps state))) state
    (ValidatedFrontierGraph.dependents graph)
    (ValidatedFrontierGraph.remaining_dependencies graph)
    (ValidatedFrontierGraph.zero_indegree graph) FrontierAssembly.default in
  bail_if bool_decide (FrontierAssembly.processed assembly
                       ≠ N.of_nat (size (RunState.steps state)))
    with FrontierError.DependencyCycle;;
  Ok (finish assembly state).
