(* ===== verification/FrontierProofs.v ===== *)
(** What the frontier computation promises, declaratively: the dependency relation of a step map
    and the placement of its steps; and the proofs about the validation pass, the classification
    loop and the assembly. *)

From S2P Require Import Prelude Text Wire WorkGraphTypes WorkGraphErrors Frontier.

Abbreviation steps_map := (gmap string StepState).

(** [d] is a dependency of step [id]. *)
Definition edge (steps : steps_map) (d id : string) : Prop :=
  ∃ st, steps !! id = Some st ∧ d ∈ StepState.depends_on st.

Definition released (steps : steps_map) (d : string) : Prop :=
  ∃ st, steps !! d = Some st ∧ receipt_releases_dependency st = true.

Record graph_ok (steps : steps_map) : Prop := {
  graph_no_self id : ¬ edge steps id id;
  graph_no_dup id st : steps !! id = Some st → NoDup (StepState.depends_on st);
  graph_known d id : edge steps d id → is_Some (steps !! d);
}.

(** A ranking that increases along every edge. *)
Definition acyclic (steps : steps_map) : Prop :=
  ∃ rank : string → nat, ∀ d id, edge steps d id → rank d < rank id.

(** Only a step whose dependencies are all receipt-released may have left [Planned]. *)
Definition active_released (steps : steps_map) : Prop :=
  ∀ id st d, steps !! id = Some st → StepState.status st ≠ StepStatus.Planned →
    d ∈ StepState.depends_on st → released steps d.

Record frontier_wf (steps : steps_map) : Prop := {
  wf_graph : graph_ok steps;
  wf_acyclic : acyclic steps;
  wf_active : active_released steps;
}.

(** The length of a Rust map is a [usize]. *)
Definition fits_usize (steps : steps_map) : Prop := (N.of_nat (size steps) ≤ usize_max)%N.

(** A set of steps each of which waits on another member: nothing in it can ever start. *)
Definition deadlocked (steps : steps_map) (U : gset string) : Prop :=
  U ≠ ∅ ∧ ∀ id, id ∈ U → is_Some (steps !! id) ∧ ∃ d, d ∈ U ∧ edge steps d id.

(** What an error of [derive_frontier] reports. *)
Definition frontier_fault (steps : steps_map) (e : FrontierError) : Prop :=
  match e with
  | FrontierError.SelfDependency id => edge steps id id
  | FrontierError.DuplicateDependency id d =>
      ∃ st, steps !! id = Some st ∧ d ∈ StepState.depends_on st ∧ ¬ NoDup (StepState.depends_on st)
  | FrontierError.UnknownDependency id d => edge steps d id ∧ steps !! d = None
  | FrontierError.DependencyCycle => ∃ U, deadlocked steps U
  | FrontierError.ActiveDependencyNotReleased id d _ =>
      ∃ st, steps !! id = Some st ∧ StepState.status st ≠ StepStatus.Planned ∧
        d ∈ StepState.depends_on st ∧ ¬ released steps d
  end.

(** A step that can never release its dependents, unless it is replanned. *)
Inductive blocked (steps : steps_map) : string → Prop :=
| blocked_terminal id st :
    steps !! id = Some st →
    StepState.status st ∈ [StepStatus.Failed; StepStatus.ManualRequired; StepStatus.Completed] →
    receipt_releases_dependency st = false → blocked steps id
| blocked_dependency id st d :
    steps !! id = Some st → StepState.status st = StepStatus.Planned →
    d ∈ StepState.depends_on st → blocked steps d → blocked steps id.

(** Where a frontier lists a step. *)
Inductive place : Type :=
| InActionable (rank : N) (action : ContinuationAction)
| InWaiting
| InBlocked
| InVerified
| InUnverified
| InFailed
| InManual.

(** The place a step belongs to. *)
Definition classified (steps : steps_map) (id : string) (p : place) : Prop :=
  ∃ st, steps !! id = Some st ∧
  match StepState.status st with
  | StepStatus.Planned =>
      (p = InBlocked ∧ ∃ d, d ∈ StepState.depends_on st ∧ blocked steps d) ∨
      (p = InWaiting ∧ (∀ d, d ∈ StepState.depends_on st → ¬ blocked steps d) ∧
        ∃ d, d ∈ StepState.depends_on st ∧ ¬ released steps d) ∨
      (p = InActionable 5 ContinuationAction.Admit ∧
        ∀ d, d ∈ StepState.depends_on st → released steps d)
  | StepStatus.IntentCommitted => p = InActionable 4 ContinuationAction.DriveEffect
  | StepStatus.Executing => p = InActionable 0 ContinuationAction.DriveEffect
  | StepStatus.EffectUnknown => p = InActionable 1 ContinuationAction.DriveEffect
  | StepStatus.Reconciling => p = InActionable 2 ContinuationAction.DriveEffect
  | StepStatus.Validating => p = InActionable 3 ContinuationAction.Verify
  | StepStatus.Completed => p = if receipt_releases_dependency st then InVerified else InUnverified
  | StepStatus.Failed => p = InFailed
  | StepStatus.ManualRequired => p = InManual
  end.

(** Everything an assembly lists. *)
Definition listed (a : FrontierAssembly) : list (string * place) :=
  map (λ r : RankedAction, (r.1.2, InActionable r.1.1 r.2)) (FrontierAssembly.ranked_actions a)
  ++ map (λ w, (WaitingStep.step_id w, InWaiting)) (FrontierAssembly.waiting a)
  ++ map (λ b, (BlockedStep.step_id b, InBlocked)) (FrontierAssembly.blocked a)
  ++ map (λ i, (i, InVerified)) (FrontierAssembly.verified_completed_step_ids a)
  ++ map (λ i, (i, InUnverified)) (FrontierAssembly.unverified_completed_step_ids a)
  ++ map (λ i, (i, InFailed)) (FrontierAssembly.failed_step_ids a)
  ++ map (λ i, (i, InManual)) (FrontierAssembly.manual_required_step_ids a).

(** The meaning of a recorded outcome. *)
Definition outcome_spec (steps : steps_map) (id : string) (o : DependencyOutcome) : Prop :=
  match o with
  | DependencyOutcome.Satisfied => released steps id
  | DependencyOutcome.Blocked => blocked steps id
  | DependencyOutcome.Pending =>
      is_Some (steps !! id) ∧ ¬ released steps id ∧ ¬ blocked steps id
  end.

(** The steps that list [d] as a dependency, in the order the validation visits them. *)
Definition children_of (entries : list (string * StepState)) (d : string) : list string :=
  (filter (λ e : string * StepState, d ∈ StepState.depends_on e.2) entries).*1.

(** ** Blocked and released are exclusive *)

Lemma deadlocked_not_acyclic steps U : deadlocked steps U → ¬ acyclic steps.
Proof.
  intros [HU Hstep] [rank Hrank].
  assert (Hdesc : ∀ n id, id ∈ U → rank id < n → False).
  { induction n as [|n IH]; intros id Hid Hlt; [lia|].
    destruct (Hstep id Hid) as (_ & d & Hd & He). apply (IH d Hd).
    pose proof (Hrank d id He). lia. }
  apply set_choose_L in HU as [id Hid]. apply (Hdesc (S (rank id)) id Hid). lia.
Qed.

Lemma releases_completed st :
  receipt_releases_dependency st = true → StepState.status st = StepStatus.Completed.
Proof.
  unfold receipt_releases_dependency. intros H.
  apply andb_prop in H as [H _]. apply andb_prop in H as [H _].
  by apply bool_decide_eq_true in H.
Qed.

Lemma released_not_blocked steps id : released steps id → ¬ blocked steps id.
Proof.
  intros (st & Hst & Hr) Hb. destruct Hb as [id st' Hst' _ Hr'|id st' d Hst' Hp _ _];
    simplify_map_eq; [congruence|].
  apply releases_completed in Hr. congruence.
Qed.

(** ** The validation pass *)

Lemma children_of_app e1 e2 d : children_of (e1 ++ e2) d = children_of e1 d ++ children_of e2 d.
Proof. unfold children_of. by rewrite filter_app, fmap_app. Qed.

Lemma elem_of_children steps d c :
  c ∈ children_of (btree_entries steps) d ↔ edge steps d c.
Proof.
  unfold children_of, edge. rewrite list_elem_of_fmap. split.
  - intros ([c' st] & -> & [Hd Hin]%list_elem_of_filter).
    apply elem_of_btree_entries in Hin. by exists st.
  - intros (st & Hst & Hd). exists (c, st). split; [done|].
    apply list_elem_of_filter. by rewrite elem_of_btree_entries.
Qed.

Lemma NoDup_children steps d : NoDup (children_of (btree_entries steps) d).
Proof.
  pose proof (NoDup_btree_keys steps) as H. rewrite <-btree_entries_keys in H.
  unfold children_of. revert H. generalize (btree_entries steps).
  induction l as [|e l IH]; [done|].
  rewrite fmap_cons, filter_cons. intros [He Hl]%NoDup_cons.
  case_decide; [|by apply IH].
  rewrite fmap_cons. apply NoDup_cons. split; [|by apply IH].
  intros (e' & Heq & [_ Hin]%list_elem_of_filter)%list_elem_of_fmap.
  apply He. apply list_elem_of_fmap. by exists e'.
Qed.

Section validate.
Context (steps : steps_map).

(** The inner loop accepts exactly the duplicate-free lists of known other steps. *)
Definition dependencies_read (id : string) (D : gmap string (list string)) (l : list string)
    (s : gset string * gmap string (list string)) : Prop :=
  s.1 = list_to_set l ∧ NoDup l ∧ id ∉ l ∧ (∀ d, d ∈ l → is_Some (D !! d)) ∧
  ∀ d, s.2 !! d = (λ c, c ++ (if bool_decide (d ∈ l) then [id] else [])) <$> (D !! d).

Lemma validate_dependencies_inv id l D s :
  for_each (validate_dependency id) l (∅, D) = Ok s → dependencies_read id D l s.
Proof.
  apply (for_each_inv _ (dependencies_read id D)).
  - split_and!; cbn; try done; [constructor|by intros ?%elem_of_nil|by intros ? ?%elem_of_nil|].
    intros d. destruct (D !! d); cbn; [by rewrite app_nil_r|done].
  - intros pre d rest [U D1] s' _ (HU & Hnd & Hid & Hk & HD) Hstep.
    unfold validate_dependency in Hstep. cbn in *. res_inv. rename l0 into children.
    assert (d ∉ pre) as Hd by set_solver.
    pose proof (HD d) as HDd. rewrite Heqo in HDd.
    destruct (D !! d) as [c0|] eqn:HDd0; [|done]. cbn in HDd.
    rewrite bool_decide_eq_false_2, app_nil_r in HDd by done. simplify_eq.
    split_and!; cbn.
    + rewrite list_to_set_app_L. set_solver.
    + apply NoDup_app. split_and!; [done|set_solver|by apply NoDup_singleton].
    + set_solver.
    + intros d' [Hd'| ->%list_elem_of_singleton]%elem_of_app; eauto.
    + intros d'. destruct (decide (d' = d)) as [->|Hne].
      * rewrite lookup_insert_eq, HDd0, bool_decide_eq_true_2 by set_solver. done.
      * rewrite lookup_insert_ne, HD by done. destruct (D !! d'); [|done]. cbn.
        do 2 f_equal. erewrite bool_decide_ext; [done|set_solver].
Qed.

(** Why the inner loop rejects a dependency list. *)
Definition dependency_fault (id : string) (l : list string) (known : string → Prop)
    (e : FrontierError) : Prop :=
  match e with
  | FrontierError.SelfDependency id' => id' = id ∧ id ∈ l
  | FrontierError.DuplicateDependency id' d => id' = id ∧ d ∈ l ∧ ¬ NoDup l
  | FrontierError.UnknownDependency id' d => id' = id ∧ d ∈ l ∧ ¬ known d
  | _ => False
  end.

Lemma validate_dependencies_err id l D e :
  for_each (validate_dependency id) l (∅, D) = Err e →
  dependency_fault id l (λ d, is_Some (D !! d)) e.
Proof.
  intros (pre & d & rest & [U D1] & -> & Hpre & Hd)%for_each_err.
  apply validate_dependencies_inv in Hpre as (HU & Hnd & Hid & Hk & HD). cbn in *.
  unfold validate_dependency in Hd. res_inv; cbn.
  - split; [done|set_solver].
  - split_and!; [done|set_solver|].
    rewrite NoDup_app. intros (_ & Hdis & _). apply (Hdis d); set_solver.
  - split_and!; [done|set_solver|]. intros [c Hc]. rewrite HD, Hc in Heqo. done.
Qed.

Lemma validate_dependencies_no_panic id l D :
  no_panic (for_each (validate_dependency id) l (∅, D)).
Proof.
  intros w (pre & d & rest & [U D1] & _ & _ & Hd)%for_each_panic.
  unfold validate_dependency in Hd. res_inv.
Qed.

(** The outer loop: what has been checked and recorded after some entries. *)
Record graph_read (entries : list (string * StepState))
    (s : gmap string N * gmap string (list string)) : Prop := {
  read_ok id st : (id, st) ∈ entries →
    NoDup (StepState.depends_on st) ∧ id ∉ StepState.depends_on st ∧
    ∀ d, d ∈ StepState.depends_on st → is_Some (steps !! d);
  read_remaining id st : (id, st) ∈ entries → s.1 !! id = Some (len (StepState.depends_on st));
  read_remaining_dom id : is_Some (s.1 !! id) → id ∈ entries.*1;
  read_dependents d : s.2 !! d = (λ _, children_of entries d) <$> (steps !! d);
}.

Lemma graph_read_known entries s d :
  graph_read entries s → is_Some (s.2 !! d) ↔ is_Some (steps !! d).
Proof. intros Hr. rewrite (read_dependents _ _ Hr). apply fmap_is_Some. Qed.

Lemma graph_read_step pre id st rest s s' :
  NoDup (pre ++ (id, st) :: rest).*1 →
  graph_read pre s → validate_step s (id, st) = Ok s' → graph_read (pre ++ [(id, st)]) s'.
Proof.
  intros Hnd Hr Hstep. destruct s as [R D]. unfold validate_step in Hstep. res_inv.
  apply validate_dependencies_inv in Heqr as (_ & Hnd' & Hid & Hk & HD).
  rewrite fmap_app, fmap_cons in Hnd. apply NoDup_app in Hnd as (_ & Hfresh & _).
  assert (id ∉ pre.*1) as Hid'.
  { intros Hin. apply (Hfresh id Hin). cbn. set_solver. }
  split.
  - intros i t [Hin|Hin]%elem_of_app; [by eapply read_ok|].
    apply list_elem_of_singleton in Hin. simplify_eq. split_and!; [done..|].
    intros d Hd. apply (graph_read_known pre (R, D)); auto.
  - cbn. intros i t [Hin|Hin]%elem_of_app.
    + rewrite lookup_insert_ne.
      * by eapply (read_remaining pre (R, D)).
      * intros <-. apply Hid', list_elem_of_fmap. by exists (id, t).
    + apply list_elem_of_singleton in Hin. simplify_eq. apply lookup_insert_eq.
  - cbn. intros i. rewrite fmap_app, elem_of_app. cbn.
    destruct (decide (i = id)) as [->|Hne]; [intros _; right; left|].
    rewrite lookup_insert_ne by done. intros Hi. left.
    by apply (read_remaining_dom pre (R, D)).
  - cbn. intros d. rewrite HD. cbn in *. pose proof (read_dependents _ _ Hr d) as Hd. cbn in Hd.
    rewrite Hd. destruct (steps !! d); [|done]. cbn. rewrite children_of_app. do 2 f_equal.
    unfold children_of. rewrite filter_cons, filter_nil. cbn.
    case_bool_decide; case_decide; done.
Qed.

Lemma graph_read_init : graph_read [] (∅, (λ _, []) <$> steps).
Proof.
  split; cbn.
  - by intros ? ? ?%elem_of_nil.
  - by intros ? ? ?%elem_of_nil.
  - intros id. rewrite lookup_empty. by intros [].
  - intros d. by rewrite lookup_fmap.
Qed.

Lemma NoDup_entries : NoDup (btree_entries steps).*1.
Proof. rewrite btree_entries_keys. apply NoDup_btree_keys. Qed.

Lemma graph_read_prefix pre rest s :
  btree_entries steps = pre ++ rest →
  for_each validate_step pre (∅, (λ _, []) <$> steps) = Ok s → graph_read pre s.
Proof.
  intros Heq. apply (for_each_inv _ graph_read); [apply graph_read_init|].
  intros pre' [id st] rest' t t' -> Ht Hstep. eapply graph_read_step; [|done..].
  pose proof NoDup_entries as Hnd. rewrite Heq, fmap_app in Hnd.
  apply NoDup_app in Hnd as (Hnd & _). exact Hnd.
Qed.

(** Why validation rejects a graph. *)
Definition graph_fault (e : FrontierError) : Prop :=
  match e with
  | FrontierError.SelfDependency id => edge steps id id
  | FrontierError.DuplicateDependency id d =>
      ∃ st, steps !! id = Some st ∧ d ∈ StepState.depends_on st ∧ ¬ NoDup (StepState.depends_on st)
  | FrontierError.UnknownDependency id d => edge steps d id ∧ steps !! d = None
  | _ => False
  end.

Lemma graph_fault_not_ok e : graph_fault e → ¬ graph_ok steps.
Proof.
  intros Hf [Hself Hdup Hk]. destruct e; cbn in Hf; try done.
  - by eapply Hself.
  - destruct Hf as (st & Hst & _ & Hnd). by apply Hnd, (Hdup step_id).
  - destruct Hf as [He Hn]. apply Hk in He. rewrite Hn in He. by destruct He.
Qed.

Lemma validate_loop_err e :
  for_each validate_step (btree_entries steps) (∅, (λ _, []) <$> steps) = Err e → graph_fault e.
Proof.
  intros (pre & [id st] & rest & [R D] & Heq & Hpre & Hstep)%for_each_err.
  apply (graph_read_prefix pre ((id, st) :: rest)) in Hpre; [|done].
  assert (steps !! id = Some st) as Hst.
  { apply elem_of_btree_entries. rewrite Heq. set_solver. }
  unfold validate_step in Hstep. res_inv.
  apply validate_dependencies_err in Heqr. destruct e; cbn in *; try done.
  - destruct Heqr as [-> Hin]. by exists st.
  - destruct Heqr as (-> & Hin & Hnd). by exists st.
  - destruct Heqr as (-> & Hin & Hnk). split; [by exists st|].
    apply eq_None_not_Some. by rewrite <-(graph_read_known _ _ _ Hpre).
Qed.

Lemma validate_loop_no_panic s0 : no_panic (for_each validate_step (btree_entries steps) s0).
Proof.
  intros w (pre & [id st] & rest & [R D] & _ & _ & Hstep)%for_each_panic.
  unfold validate_step in Hstep. res_inv.
  by eapply (validate_dependencies_no_panic id (StepState.depends_on st) D).
Qed.

Lemma graph_read_ok s : graph_read (btree_entries steps) s → graph_ok steps.
Proof.
  intros Hr. split.
  - intros id (st & Hst & Hin). apply elem_of_btree_entries in Hst.
    apply (read_ok _ _ Hr) in Hst as (_ & Hid & _). done.
  - intros id st Hst. apply elem_of_btree_entries in Hst. by eapply read_ok.
  - intros d id (st & Hst & Hin). apply elem_of_btree_entries in Hst.
    apply (read_ok _ _ Hr) in Hst as (_ & _ & Hk). by apply Hk.
Qed.
End validate.

(** The validated graph, exactly. *)
Record validated (steps : steps_map) (g : ValidatedFrontierGraph) : Prop := {
  validated_remaining id :
    ValidatedFrontierGraph.remaining_dependencies g !! id
    = (λ st, len (StepState.depends_on st)) <$> (steps !! id);
  validated_dependents d :
    ValidatedFrontierGraph.dependents g !! d
    = (λ _, merge_sort String.le (children_of (btree_entries steps) d)) <$> (steps !! d);
  validated_zero id :
    id ∈ ValidatedFrontierGraph.zero_indegree g
    ↔ ∃ st, steps !! id = Some st ∧ StepState.depends_on st = [];
}.

Lemma graph_read_remaining steps s id :
  graph_read steps (btree_entries steps) s →
  s.1 !! id = (λ st, len (StepState.depends_on st)) <$> (steps !! id).
Proof.
  intros Hr. destruct (steps !! id) as [st|] eqn:Hst; cbn.
  - by apply (read_remaining _ _ _ Hr), elem_of_btree_entries.
  - destruct (s.1 !! id) eqn:Hs; [|done].
    assert (is_Some (s.1 !! id)) as Hin by (by rewrite Hs).
    apply (read_remaining_dom _ _ _ Hr) in Hin.
    rewrite btree_entries_keys, elem_of_btree_keys, Hst in Hin. by destruct Hin.
Qed.

Lemma validate_frontier_graph_ok state g :
  validate_frontier_graph state = Ok g →
  graph_ok (RunState.steps state) ∧ validated (RunState.steps state) g.
Proof.
  unfold validate_frontier_graph. intros H. res_inv. destruct a as [R D]. res_inv.
  apply (graph_read_prefix _ _ []) in Heqr; [|by rewrite app_nil_r].
  split; [by eapply graph_read_ok|].
  split; cbn.
  - intros id. by apply (graph_read_remaining _ (R, D)).
  - intros d. rewrite lookup_fmap. pose proof (read_dependents _ _ _ Heqr d) as Hd.
    cbn in Hd. rewrite Hd. by destruct (RunState.steps state !! d).
  - intros id. rewrite elem_of_dom.
    pose proof (graph_read_remaining _ _ id Heqr) as HR. cbn in HR.
    unfold is_Some. setoid_rewrite map_lookup_filter_Some. rewrite HR. split.
    + intros (n & Hn & Hz). cbn in Hz. subst.
      destruct (RunState.steps state !! id) as [st|] eqn:Hst; [|done]. cbn in Hn.
      exists st. split; [done|]. injection Hn as Hn. unfold len in Hn.
      by destruct (StepState.depends_on st).
    + intros (st & -> & Hd). exists 0%N. cbn. by rewrite Hd.
Qed.

Lemma validate_frontier_graph_err state e :
  validate_frontier_graph state = Err e → graph_fault (RunState.steps state) e.
Proof.
  unfold validate_frontier_graph. intros H. res_inv.
  - destruct a. res_inv.
  - by apply validate_loop_err.
Qed.

Lemma validate_frontier_graph_no_panic state : no_panic (validate_frontier_graph state).
Proof.
  unfold validate_frontier_graph. apply no_panic_bind; [apply validate_loop_no_panic|].
  intros [] _. apply no_panic_ok.
Qed.

(** Correctness of the classification pass: the loop of [derive_frontier] is Kahn's
    algorithm, it never panics nor runs out of fuel, and its result is the declarative
    classification of [FrontierSpec]. *)

(** ** Small list facts *)

Lemma length_filter_remove (P : gset string) l id :
  NoDup l → id ∉ P →
  length (filter (λ d, d ∉ P) l)
  = length (filter (λ d, d ∉ {[id]} ∪ P) l) + (if bool_decide (id ∈ l) then 1 else 0).
Proof.
  intros Hnd Hid. induction l as [|d l IH]; [done|].
  apply NoDup_cons in Hnd as [Hd Hnd]. specialize (IH Hnd).
  rewrite !filter_cons. destruct (decide (d = id)) as [->|Hne].
  - rewrite decide_True by done. rewrite decide_False by set_solver.
    rewrite bool_decide_eq_true_2 by set_solver.
    rewrite bool_decide_eq_false_2 in IH by done. cbn. lia.
  - replace (bool_decide (id ∈ d :: l)) with (bool_decide (id ∈ l))
      by (apply bool_decide_ext; set_solver).
    destruct (decide (d ∈ P)).
    + rewrite !decide_False by set_solver. lia.
    + rewrite !decide_True by set_solver. cbn. lia.
Qed.

Lemma filter_nil_forall (P : gset string) l :
  filter (λ d, d ∉ P) l = [] ↔ ∀ d, d ∈ l → d ∈ P.
Proof.
  split.
  - intros Hf d Hd. destruct (decide (d ∈ P)) as [|Hn]; [done|].
    assert (d ∈ filter (λ d, d ∉ P) l) as Hin by (by apply list_elem_of_filter).
    rewrite Hf in Hin. by apply elem_of_nil in Hin.
  - intros Hall. destruct (filter (λ d, d ∉ P) l) as [|d l'] eqn:E; [done|].
    assert (d ∈ filter (λ d, d ∉ P) l) as Hin by (rewrite E; left).
    apply list_elem_of_filter in Hin as [Hn Hd]. by destruct Hn; apply Hall.
Qed.

Section classify.
Context (state : RunState).
Abbreviation steps := (RunState.steps state).

(** ** Partitioning the dependencies of one step *)

Definition dependencies_classified (a : FrontierAssembly) (l : list string) : Prop :=
  ∀ d, d ∈ l → ∃ o, FrontierAssembly.outcomes a !! d = Some o ∧ outcome_spec steps d o.

Definition parts_of (a : FrontierAssembly) (l : list string)
    (s : list string * list DependencyBlocker) : Prop :=
  (∀ d, d ∈ s.1 ↔ d ∈ l ∧ FrontierAssembly.outcomes a !! d = Some DependencyOutcome.Pending) ∧
  (∀ d, (∃ r, DependencyBlocker.mk d r ∈ s.2) ↔
        d ∈ l ∧ FrontierAssembly.outcomes a !! d = Some DependencyOutcome.Blocked).

Lemma blocked_is_step id : blocked steps id → is_Some (steps !! id).
Proof. intros []; by eexists. Qed.

Lemma partition_step a pre d s :
  parts_of a pre s → dependencies_classified a [d] →
  ∃ s', partition_dependency a state s d = Ok s' ∧ parts_of a (pre ++ [d]) s'.
Proof.
  intros [Hp Hb] Hd. destruct s as [p b]. cbn in Hp, Hb.
  destruct (Hd d) as (o & Ho & Hspec); [left|].
  unfold partition_dependency, expect. rewrite Ho. cbn. destruct o.
  - eexists. split; [done|]. split; cbn; intros d'.
    + rewrite Hp, elem_of_app, list_elem_of_singleton. naive_solver congruence.
    + rewrite Hb, elem_of_app, list_elem_of_singleton. naive_solver congruence.
  - eexists. split; [done|]. split; cbn; intros d'.
    + rewrite !elem_of_app, !list_elem_of_singleton, Hp. naive_solver congruence.
    + rewrite Hb, elem_of_app, list_elem_of_singleton. naive_solver congruence.
  - destruct (blocked_is_step d Hspec) as [dt Hdt]. rewrite Hdt. cbn.
    eexists. split; [done|]. split; cbn; intros d'.
    + rewrite Hp, elem_of_app, list_elem_of_singleton. naive_solver congruence.
    + rewrite elem_of_app, list_elem_of_singleton.
      setoid_rewrite elem_of_app. setoid_rewrite list_elem_of_singleton. split.
      * intros (r & [Hr|Hr]).
        -- assert (∃ r, DependencyBlocker.mk d' r ∈ b) as Hex by eauto.
           apply Hb in Hex. naive_solver.
        -- simplify_eq. naive_solver.
      * intros [[Hd'| ->] Ho'].
        -- destruct (proj2 (Hb d')) as [r Hr]; eauto.
        -- eexists. by right.
Qed.

Lemma partition_run a l :
  dependencies_classified a l →
  ∃ s, for_each (partition_dependency a state) l ([], []) = Ok s ∧ parts_of a l s.
Proof.
  intros Hl. apply (for_each_ok _ (parts_of a)).
  - split; cbn; intros d; [by rewrite elem_of_nil; split; intros []|].
    split; [intros [r Hr]; by apply elem_of_nil in Hr|intros [Hd _]; by apply elem_of_nil in Hd].
  - intros pre d rest t -> Ht. apply partition_step; [done|].
    intros d' ->%list_elem_of_singleton. apply Hl. set_solver.
Qed.

Lemma partition_dependencies_run a st :
  dependencies_classified a (StepState.depends_on st) →
  ∃ s, partition_dependencies a state st = Ok s ∧ parts_of a (StepState.depends_on st) s.
Proof.
  intros Hd. destruct (partition_run a _ Hd) as ([p b] & Hrun & Hp & Hb). cbn in Hp, Hb.
  unfold partition_dependencies. rewrite Hrun. cbn.
  eexists. split; [done|]. split; cbn; intros d.
  - rewrite merge_sort_Permutation. apply Hp.
  - setoid_rewrite elem_of_dedup. setoid_rewrite merge_sort_Permutation. apply Hb.
Qed.

(** ** Recording one step *)

(** Everything but the steps' statuses: the two lists a step is classified by are empty
    exactly when its dependencies are released. *)
Lemma parts_released a l p b :
  dependencies_classified a l → parts_of a l (p, b) →
  (p = [] ∧ b = []) ↔ ∀ d, d ∈ l → released steps d.
Proof.
  intros Hl [Hp Hb]. cbn in Hp, Hb. split.
  - intros [-> ->] d Hd. destruct (Hl d Hd) as (o & Ho & Hspec). destruct o; [done|..].
    + assert (d ∈ []) as Hin by (by apply Hp). by apply elem_of_nil in Hin.
    + destruct (proj2 (Hb d)) as [r Hr]; [done|]. by apply elem_of_nil in Hr.
  - intros Hall. split.
    + destruct p as [|d p]; [done|]. destruct (proj1 (Hp d)) as [Hd Ho]; [left|].
      destruct (Hl d Hd) as (o & Ho' & Hspec). simplify_eq.
      destruct Hspec as (_ & Hn & _). by destruct Hn; apply Hall.
    + destruct b as [|[d r] b]; [done|].
      destruct (proj1 (Hb d)) as [Hd Ho]; [exists r; left|].
      destruct (Hl d Hd) as (o & Ho' & Hspec). simplify_eq.
      exfalso. by eapply released_not_blocked; [apply Hall|].
Qed.

Lemma parts_blocked a l p b :
  dependencies_classified a l → parts_of a l (p, b) →
  b = [] ↔ ∀ d, d ∈ l → ¬ blocked steps d.
Proof.
  intros Hl [Hp Hb]. cbn in Hp, Hb. split.
  - intros -> d Hd Hblk. destruct (Hl d Hd) as (o & Ho & Hspec). destruct o.
    + by eapply released_not_blocked.
    + by destruct Hspec as (_ & _ & ?).
    + destruct (proj2 (Hb d)) as [r Hr]; [done|]. by apply elem_of_nil in Hr.
  - intros Hall. destruct b as [|[d r] b]; [done|].
    destruct (proj1 (Hb d)) as [Hd Ho]; [exists r; left|].
    destruct (Hl d Hd) as (o & Ho' & Hspec). simplify_eq. by destruct (Hall d).
Qed.

(** A non-planned step is not blocked through its dependencies. *)
Lemma blocked_inv id st :
  steps !! id = Some st → blocked steps id →
  (receipt_releases_dependency st = false ∧
   StepState.status st ∈ [StepStatus.Failed; StepStatus.ManualRequired; StepStatus.Completed]) ∨
  (StepState.status st = StepStatus.Planned ∧
   ∃ d, d ∈ StepState.depends_on st ∧ blocked steps d).
Proof.
  intros Hst Hb. destruct Hb as [id st' Hst' Hin Hr|id st' d Hst' Hp Hd Hb];
    simplify_map_eq; [by left|right; eauto].
Qed.

Lemma released_inv id st :
  steps !! id = Some st → released steps id → receipt_releases_dependency st = true.
Proof. intros Hst (st' & Hst' & Hr). by simplify_map_eq. Qed.

Lemma pending_outcome id st :
  steps !! id = Some st →
  StepState.status st ∉ [StepStatus.Failed; StepStatus.ManualRequired; StepStatus.Completed] →
  (StepState.status st = StepStatus.Planned →
   ∀ d, d ∈ StepState.depends_on st → ¬ blocked steps d) →
  outcome_spec steps id DependencyOutcome.Pending.
Proof.
  intros Hst Hs Hd. cbn. split_and!.
  - by eexists.
  - intros Hr%(released_inv _ _ Hst)%releases_completed. apply Hs. rewrite Hr. set_solver.
  - intros [[_ Hin]|(Hp & d & Hin & Hb)]%(blocked_inv _ _ Hst); [done|]. by eapply Hd.
Qed.

(** What recording a step does to the assembly. *)
Record recorded (id : string) (a a' : FrontierAssembly) (o : DependencyOutcome) (p : place)
    : Prop := {
  rec_outcomes : FrontierAssembly.outcomes a' = <[id := o]> (FrontierAssembly.outcomes a);
  rec_outcome : outcome_spec steps id o;
  rec_place : classified steps id p;
  rec_listed : listed a' ≡ₚ (id, p) :: listed a;
  rec_processed : FrontierAssembly.processed a'
                  = N.min usize_max (FrontierAssembly.processed a + 1);
}.

(** Pushing onto any of the seven lists lists one more step. *)
Ltac listed_push :=
  unfold listed; cbn; rewrite ?map_app; cbn; solve_Permutation.

Lemma listed_push_action r a :
  listed (FrontierAssembly.push_action r a) ≡ₚ (r.1.2, InActionable r.1.1 r.2) :: listed a.
Proof. listed_push. Qed.
Lemma listed_push_waiting w a :
  listed (FrontierAssembly.push_waiting w a) ≡ₚ (WaitingStep.step_id w, InWaiting) :: listed a.
Proof. listed_push. Qed.
Lemma listed_push_blocked b a :
  listed (FrontierAssembly.push_blocked b a) ≡ₚ (BlockedStep.step_id b, InBlocked) :: listed a.
Proof. listed_push. Qed.
Lemma listed_push_verified i a :
  listed (FrontierAssembly.push_verified i a) ≡ₚ (i, InVerified) :: listed a.
Proof. listed_push. Qed.
Lemma listed_push_unverified i a :
  listed (FrontierAssembly.push_unverified i a) ≡ₚ (i, InUnverified) :: listed a.
Proof. listed_push. Qed.
Lemma listed_push_failed i a :
  listed (FrontierAssembly.push_failed i a) ≡ₚ (i, InFailed) :: listed a.
Proof. listed_push. Qed.
Lemma listed_push_manual i a :
  listed (FrontierAssembly.push_manual i a) ≡ₚ (i, InManual) :: listed a.
Proof. listed_push. Qed.
Lemma listed_set_processed n a : listed (FrontierAssembly.set_processed n a) = listed a.
Proof. done. Qed.
Lemma listed_set_outcome id o a : listed (FrontierAssembly.set_outcome id o a) = listed a.
Proof. done. Qed.

Ltac place_case perm :=
  eexists; cbn [fst snd]; split_and!;
  [done|done|apply perm|eexists; split; [eassumption|]|];
  repeat match goal with H : StepState.status _ = _ |- context [StepState.status _] => rewrite H end.

(** The classification of a step whose dependencies have outcomes. *)
Lemma record_status_spec id st pend blk a :
  steps !! id = Some st →
  dependencies_classified a (StepState.depends_on st) →
  parts_of a (StepState.depends_on st) (pend, blk) →
  let r := record_status id st pend blk a in
  ∃ p, FrontierAssembly.outcomes r.1 = FrontierAssembly.outcomes a ∧
       FrontierAssembly.processed r.1 = FrontierAssembly.processed a ∧
       listed r.1 ≡ₚ (id, p) :: listed a ∧ classified steps id p ∧ outcome_spec steps id r.2.
Proof.
  intros Hst Hd Hparts r. subst r.
  pose proof (parts_released _ _ _ _ Hd Hparts) as Hreleased.
  pose proof (parts_blocked _ _ _ _ Hd Hparts) as Hblocked.
  pose proof (pending_outcome id st Hst) as Hpend.
  pose proof (blocked_terminal steps id st Hst) as Hterm.
  assert (Hnr : StepState.status st ≠ StepStatus.Completed → receipt_releases_dependency st = false).
  { intros Hn. destruct (receipt_releases_dependency st) eqn:E; [|done].
    by apply releases_completed in E. }
  unfold record_status, classified. destruct (StepState.status st) eqn:Hs.
  - destruct blk as [|b blk]; [destruct pend as [|w pend]|].
    + place_case listed_push_action; [right; right|].
      * split; [done|]. by apply Hreleased.
      * apply Hpend; [set_solver|]. intros _. by apply Hblocked.
    + place_case listed_push_waiting; [right; left|].
      * split; [done|]. split; [by apply Hblocked|].
        destruct Hparts as [Hp _]. destruct (proj1 (Hp w)) as [Hw Ho]; [left|].
        destruct (Hd w Hw) as (o & Ho' & Hspec). simplify_eq.
        exists w. split; [done|]. by destruct Hspec as (_ & ? & _).
      * apply Hpend; [set_solver|]. intros _. by apply Hblocked.
    + destruct Hparts as [_ Hb]. destruct b as [d r].
      destruct (proj1 (Hb d)) as [Hin Ho]; [exists r; left|].
      destruct (Hd d Hin) as (o & Ho' & Hspec). simplify_eq.
      place_case listed_push_blocked; [left; eauto|].
      by eapply blocked_dependency.
  - place_case listed_push_action; [done|]. apply Hpend; [set_solver|done].
  - place_case listed_push_action; [done|]. apply Hpend; [set_solver|done].
  - place_case listed_push_action; [done|]. apply Hpend; [set_solver|done].
  - place_case listed_push_action; [done|]. apply Hpend; [set_solver|done].
  - place_case listed_push_action; [done|]. apply Hpend; [set_solver|done].
  - destruct (receipt_releases_dependency st) eqn:Hr.
    + place_case listed_push_verified; [by rewrite Hr|]. by exists st.
    + place_case listed_push_unverified; [by rewrite Hr|]. apply Hterm; [set_solver|done].
  - place_case listed_push_failed; [done|]. apply Hterm; [set_solver|by apply Hnr].
  - place_case listed_push_manual; [done|]. apply Hterm; [set_solver|by apply Hnr].
Qed.

(** Recording a step, on every branch. *)
Lemma record_step_spec id st a :
  steps !! id = Some st →
  dependencies_classified a (StepState.depends_on st) →
  match record_step a state id with
  | Ok a' =>
      (∃ o p, recorded id a a' o p) ∧
      (StepState.status st ≠ StepStatus.Planned →
       ∀ d, d ∈ StepState.depends_on st → released steps d)
  | Err e =>
      ∃ d r, e = FrontierError.ActiveDependencyNotReleased id d r ∧
        StepState.status st ≠ StepStatus.Planned ∧
        d ∈ StepState.depends_on st ∧ ¬ released steps d
  | Panic _ => False
  end.
Proof.
  intros Hst Hd. unfold record_step, expect. rewrite Hst. cbn [rbind].
  set (a1 := FrontierAssembly.set_processed _ a).
  destruct (partition_dependencies_run a1 st Hd) as ([pend blk] & -> & Hparts). cbn [rbind].
  pose proof (parts_released a1 _ _ _ Hd Hparts) as Hreleased.
  pose proof (record_status_spec id st pend blk a1 Hst Hd Hparts) as (p & Ho & Hn & Hl & Hp & Hspec).
  destruct (record_status id st pend blk a1) as [a2 o]. cbn in Ho, Hn, Hl, Hspec.
  assert (Hrec : recorded id a (FrontierAssembly.set_outcome id o a2) o p).
  { split; cbn; [by rewrite Ho|done|done|done|by rewrite Hn]. }
  case_bool_decide as Hplanned; cbn [negb andb].
  { split; [by exists o, p|done]. }
  destruct blk as [|[d r] blk]; [destruct pend as [|d pend]|]; cbn [negb].
  - split; [by exists o, p|]. intros _. by apply Hreleased.
  - cbn. exists d, DependencyBlockReason.NotCompleted.
    destruct Hparts as [Hpp _]. destruct (proj1 (Hpp d)) as [Hin Hout]; [left|].
    destruct (Hd d Hin) as (o' & Ho' & Hs'). cbn in Hout. simplify_eq.
    split_and!; [done..|]. by destruct Hs' as (_ & ? & _).
  - exists d, r.
    destruct Hparts as [_ Hb]. destruct (proj1 (Hb d)) as [Hin Hout]; [exists r; left|].
    destruct (Hd d Hin) as (o' & Ho' & Hs'). cbn in Hout. simplify_eq.
    split_and!; [done..|]. intros Hr. by eapply released_not_blocked.
Qed.

(** ** Releasing the dependents of a processed step *)

Lemma release_children_run l R Z :
  NoDup l → (∀ c, c ∈ l → ∃ n, R !! c = Some n ∧ (0 < n)%N) →
  ∃ R' Z', for_each release_child l (R, Z) = Ok (R', Z') ∧
    (∀ c, R' !! c = if bool_decide (c ∈ l) then (λ n, (n - 1)%N) <$> (R !! c) else R !! c) ∧
    (∀ c, c ∈ Z' ↔ c ∈ Z ∨ (c ∈ l ∧ R !! c = Some 1%N)).
Proof.
  intros Hnd Hpos.
  destruct (for_each_ok release_child (λ pre s,
    (∀ c, s.1 !! c = if bool_decide (c ∈ pre) then (λ n, (n - 1)%N) <$> (R !! c) else R !! c) ∧
    (∀ c, c ∈ s.2 ↔ c ∈ Z ∨ (c ∈ pre ∧ R !! c = Some 1%N))) l (R, Z)) as ([R' Z'] & Hrun & HR & HZ).
  - split; cbn; intros c; [by rewrite bool_decide_eq_false_2 by apply not_elem_of_nil|].
    split; [by left|]. intros [|[Hc _]]; [done|]. by apply elem_of_nil in Hc.
  - intros pre c rest [R1 Z1] Heq [HR HZ]. cbn in HR, HZ.
    rewrite Heq in Hnd. apply NoDup_app in Hnd as (_ & Hdis & _).
    assert (c ∉ pre) as Hc by (intros Hc; apply (Hdis c Hc); left).
    destruct (Hpos c) as (n & Hn & Hlt); [rewrite Heq; set_solver|].
    pose proof (HR c) as HRc. rewrite bool_decide_eq_false_2, Hn in HRc by done.
    unfold release_child, expect, checked_sub. rewrite HRc. cbn.
    rewrite bool_decide_eq_true_2 by lia. cbn.
    eexists. split; [done|]. split; cbn; intros c'.
    + destruct (decide (c' = c)) as [->|Hne].
      * rewrite lookup_insert_eq, bool_decide_eq_true_2, Hn by set_solver. done.
      * rewrite lookup_insert_ne, HR by done.
        erewrite (bool_decide_ext (c' ∈ pre ++ [c]) (c' ∈ pre)) by set_solver. done.
    + rewrite elem_of_app, list_elem_of_singleton.
      destruct (decide (c' = c)) as [->|Hne].
      * rewrite Hn. case_bool_decide as H1.
        -- split; [|set_solver]. intros _. right. split; [by right|]. f_equal. lia.
        -- rewrite HZ. split; [naive_solver|]. intros [?|[_ [= ->]]]; [by left|]. lia.
      * case_bool_decide; [rewrite elem_of_union, elem_of_singleton|]; rewrite HZ; naive_solver.
  - exists R', Z'. split_and!; [done|exact HR|exact HZ].
Qed.

(** ** The loop invariant of Kahn's algorithm *)

Record loop_inv (g : ValidatedFrontierGraph) (R : gmap string N) (Z : gset string)
    (a : FrontierAssembly) : Prop := {
  inv_steps id : id ∈ dom (FrontierAssembly.outcomes a) → is_Some (steps !! id);
  inv_closed d id : id ∈ dom (FrontierAssembly.outcomes a) → edge steps d id →
    d ∈ dom (FrontierAssembly.outcomes a);
  inv_outcomes id o : FrontierAssembly.outcomes a !! id = Some o → outcome_spec steps id o;
  inv_remaining id st : steps !! id = Some st →
    R !! id = Some (len (filter (λ d, d ∉ dom (FrontierAssembly.outcomes a))
                           (StepState.depends_on st)));
  inv_zero id : id ∈ Z ↔ ∃ st, steps !! id = Some st ∧
    id ∉ dom (FrontierAssembly.outcomes a) ∧
    ∀ d, d ∈ StepState.depends_on st → d ∈ dom (FrontierAssembly.outcomes a);
  inv_processed : FrontierAssembly.processed a
    = N.min usize_max (N.of_nat (size (FrontierAssembly.outcomes a)));
  inv_rank : ∃ rank : string → nat,
    (∀ id, id ∈ dom (FrontierAssembly.outcomes a) → rank id < size (FrontierAssembly.outcomes a)) ∧
    ∀ d id, id ∈ dom (FrontierAssembly.outcomes a) → edge steps d id → rank d < rank id;
  inv_active id st d : id ∈ dom (FrontierAssembly.outcomes a) → steps !! id = Some st →
    StepState.status st ≠ StepStatus.Planned → d ∈ StepState.depends_on st → released steps d;
  inv_listed : NoDup (listed a).*1 ∧
    (∀ id p, (id, p) ∈ listed a → classified steps id p) ∧
    (∀ id, id ∈ (listed a).*1 ↔ id ∈ dom (FrontierAssembly.outcomes a));
}.

Lemma loop_inv_init g :
  validated steps g →
  loop_inv g (ValidatedFrontierGraph.remaining_dependencies g)
    (ValidatedFrontierGraph.zero_indegree g) FrontierAssembly.default.
Proof.
  intros Hg. split; cbn; try (rewrite dom_empty_L; set_solver).
  - intros id o. by rewrite lookup_empty.
  - intros id st Hst. rewrite (validated_remaining _ _ Hg), Hst. cbn. do 2 f_equal.
    rewrite dom_empty_L. induction (StepState.depends_on st) as [|d l IH]; [done|].
    rewrite filter_cons_True by set_solver. by f_equal.
  - intros id. rewrite (validated_zero _ _ Hg), dom_empty_L. split.
    + intros (st & Hst & Hd). exists st. rewrite Hd. set_solver.
    + intros (st & Hst & _ & Hd). exists st. split; [done|].
      destruct (StepState.depends_on st) as [|d l]; [done|]. set_solver.
  - by rewrite map_size_empty.
  - exists (λ _, 0). rewrite dom_empty_L. set_solver.
  - split_and!; [constructor|set_solver|]. rewrite dom_empty_L. set_solver.
Qed.

Lemma inv_dependencies g R Z a id st :
  loop_inv g R Z a → id ∈ Z → steps !! id = Some st →
  dependencies_classified a (StepState.depends_on st).
Proof.
  intros Hinv (st' & Hst' & _ & Hd)%(inv_zero _ _ _ _ Hinv) Hst d Hin. simplify_map_eq.
  apply Hd, elem_of_dom in Hin as [o Ho]. exists o. split; [done|].
  by eapply inv_outcomes.
Qed.

Lemma edge_not_processed d id st (P : gset string) :
  steps !! id = Some st → d ∈ StepState.depends_on st → d ∉ P →
  (0 < len (filter (λ d, d ∉ P) (StepState.depends_on st)))%N.
Proof.
  intros Hst Hd Hn. unfold len.
  destruct (filter (λ d, d ∉ P) (StepState.depends_on st)) as [|x l] eqn:E; [|cbn; lia].
  assert (d ∈ []) as Hin by (rewrite <-E; by apply list_elem_of_filter).
  by apply elem_of_nil in Hin.
Qed.

(** The children of the step just processed. *)
Lemma release_step g R Z a id :
  graph_ok steps → validated steps g → loop_inv g R Z a → id ∈ Z →
  ∃ children R' Z', ValidatedFrontierGraph.dependents g !! id = Some children ∧
    for_each release_child children (R, Z ∖ {[id]}) = Ok (R', Z') ∧
    (∀ c st, steps !! c = Some st →
       R' !! c = Some (len (filter (λ d, d ∉ {[id]} ∪ dom (FrontierAssembly.outcomes a))
                              (StepState.depends_on st)))) ∧
    (∀ c, c ∈ Z' ↔ ∃ st, steps !! c = Some st ∧
       c ∉ {[id]} ∪ dom (FrontierAssembly.outcomes a) ∧
       ∀ d, d ∈ StepState.depends_on st → d ∈ {[id]} ∪ dom (FrontierAssembly.outcomes a)).
Proof.
  intros Hok Hg Hinv Hid.
  destruct (proj1 (inv_zero _ _ _ _ Hinv id) Hid) as (st & Hst & Hnew & _).
  set (P := dom (FrontierAssembly.outcomes a)) in *.
  set (children := merge_sort String.le (children_of (btree_entries steps) id)).
  assert (Hch : ∀ c, c ∈ children ↔ edge steps id c).
  { intros c. unfold children. rewrite merge_sort_Permutation. apply elem_of_children. }
  assert (Hcount : ∀ c t, steps !! c = Some t →
    R !! c = Some (len (filter (λ d, d ∉ {[id]} ∪ P) (StepState.depends_on t))
                   + (if bool_decide (c ∈ children) then 1 else 0))%N).
  { intros c t Ht. rewrite (inv_remaining _ _ _ _ Hinv c t Ht). fold P. f_equal.
    unfold len. rewrite (length_filter_remove P _ id); [|by eapply graph_no_dup|done].
    rewrite Nat2N.inj_add. f_equal.
    rewrite (bool_decide_ext (c ∈ children) (id ∈ StepState.depends_on t)); [by case_bool_decide|].
    rewrite Hch. unfold edge. split; [intros (t' & Ht' & ?); by simplify_map_eq|by exists t]. }
  destruct (release_children_run children R (Z ∖ {[id]})) as (R' & Z' & Hrun & HR & HZ).
  { unfold children. rewrite merge_sort_Permutation. apply NoDup_children. }
  { intros c Hc. destruct (proj1 (Hch c) Hc) as (t & Ht & _).
    rewrite (Hcount c t Ht), bool_decide_eq_true_2 by done. eexists. split; [done|lia]. }
  exists children, R', Z'. split_and!; [|done| |].
  - rewrite (validated_dependents _ _ Hg), Hst. done.
  - intros c t Ht. rewrite HR, (Hcount c t Ht). case_bool_decide; cbn; f_equal; lia.
  - intros c. rewrite HZ, elem_of_difference, elem_of_singleton, (inv_zero _ _ _ _ Hinv).
    fold P. split.
    + intros [[(t & Ht & Hc & Hall) Hne]|[Hc Hone]].
      * exists t. split_and!; [done|set_solver|]. intros d Hd. set_solver.
      * destruct (proj1 (Hch c) Hc) as (t & Ht & Hin). exists t.
        rewrite (Hcount c t Ht), bool_decide_eq_true_2 in Hone by done.
        split_and!; [done| |].
        -- intros [->%elem_of_singleton|Hp]%elem_of_union.
           ++ by eapply graph_no_self; [|exists t].
           ++ apply Hnew. eapply inv_closed; [done..|by exists t].
        -- apply filter_nil_forall. apply length_zero_iff_nil.
           unfold len in Hone. injection Hone as Hone. lia.
    + intros (t & Ht & Hc & Hall). destruct (decide (c ∈ children)) as [Hin|Hout].
      * right. split; [done|]. rewrite (Hcount c t Ht), bool_decide_eq_true_2 by done.
        apply filter_nil_forall in Hall. rewrite Hall. done.
      * left. split; [|set_solver]. exists t. split_and!; [done|set_solver|].
        intros d Hd. specialize (Hall d Hd). apply elem_of_union in Hall as [->%elem_of_singleton|]; [|done].
        destruct Hout. apply Hch. by exists t.
Qed.

(** ** The loop *)

Lemma recorded_dom id a a' o p :
  recorded id a a' o p →
  dom (FrontierAssembly.outcomes a') = {[id]} ∪ dom (FrontierAssembly.outcomes a).
Proof. intros Hr. by rewrite (rec_outcomes _ _ _ _ _ Hr), dom_insert_L. Qed.

Lemma recorded_size id a a' o p :
  recorded id a a' o p → id ∉ dom (FrontierAssembly.outcomes a) →
  size (FrontierAssembly.outcomes a') = S (size (FrontierAssembly.outcomes a)).
Proof.
  intros Hr Hn. rewrite (rec_outcomes _ _ _ _ _ Hr).
  apply map_size_insert_None. by apply not_elem_of_dom.
Qed.

Lemma loop_inv_step g R Z a a' id st o p children R' Z' :
  graph_ok steps → validated steps g → loop_inv g R Z a → id ∈ Z →
  steps !! id = Some st → recorded id a a' o p →
  (StepState.status st ≠ StepStatus.Planned →
   ∀ d, d ∈ StepState.depends_on st → released steps d) →
  ValidatedFrontierGraph.dependents g !! id = Some children →
  for_each release_child children (R, Z ∖ {[id]}) = Ok (R', Z') →
  loop_inv g R' Z' a'.
Proof.
  intros Hok Hg Hinv Hid Hst Hrec Hact Hch Hrun.
  destruct (release_step g R Z a id Hok Hg Hinv Hid) as (ch & R1 & Z1 & Hch1 & Hrun1 & HR & HZ).
  rewrite Hch in Hch1. injection Hch1 as <-. rewrite Hrun in Hrun1. injection Hrun1 as <- <-.
  destruct (proj1 (inv_zero _ _ _ _ Hinv id) Hid) as (st' & Hst' & Hnew & Hdeps). simplify_map_eq.
  pose proof (recorded_dom _ _ _ _ _ Hrec) as Hdom.
  pose proof (recorded_size _ _ _ _ _ Hrec Hnew) as Hsize.
  assert (Hedge : ∀ d, edge steps d id → d ∈ dom (FrontierAssembly.outcomes a)).
  { intros d (t & Ht & Hd). simplify_map_eq. by apply Hdeps. }
  assert (Hold : ∀ i, i ∈ {[id]} ∪ dom (FrontierAssembly.outcomes a) →
            i = id ∨ i ∈ dom (FrontierAssembly.outcomes a)) by set_solver.
  split; rewrite ?Hdom; try done.
  - intros i [->|Hi]%Hold; [by exists st|]. by eapply inv_steps.
  - intros d i [->|Hi]%Hold He; apply elem_of_union_r; [by apply Hedge|by eapply inv_closed].
  - intros i o'. rewrite (rec_outcomes _ _ _ _ _ Hrec).
    destruct (decide (i = id)) as [->|Hne].
    + rewrite lookup_insert_eq. intros [= <-]. apply (rec_outcome _ _ _ _ _ Hrec).
    + rewrite lookup_insert_ne by done. by eapply inv_outcomes.
  - rewrite (rec_processed _ _ _ _ _ Hrec), (inv_processed _ _ _ _ Hinv), Hsize. lia.
  - destruct (inv_rank _ _ _ _ Hinv) as (rank & Hbound & Hrank).
    exists (λ i, if bool_decide (i = id) then size (FrontierAssembly.outcomes a) else rank i).
    rewrite Hsize. split.
    + intros i Hi%Hold. case_bool_decide; [lia|]. destruct Hi as [->|Hi]; [done|].
      specialize (Hbound i Hi). lia.
    + intros d i Hi He. rewrite (bool_decide_eq_false_2 (d = id)).
      2: { intros ->. apply Hold in Hi as [->|Hi]; [by eapply graph_no_self|].
           apply Hnew. by eapply inv_closed. }
      case_bool_decide as Hii; [subst; by apply Hbound, Hedge|].
      apply Hold in Hi as [->|Hi]; [done|]. by apply Hrank.
  - intros i t d [->|Hi]%Hold Ht; [|by eapply inv_active]. rewrite Hst in Ht. injection Ht as <-. intros ? ?. by apply Hact.
  - destruct (inv_listed _ _ _ _ Hinv) as (Hnd & Hcl & Hl).
    pose proof (rec_listed _ _ _ _ _ Hrec) as Hperm. rewrite Hperm. cbn. split_and!.
    + apply NoDup_cons. split; [by rewrite Hl|done].
    + intros i q. rewrite Hperm, elem_of_cons. intros [[= -> ->]|Hin]; [|by apply Hcl].
      apply (rec_place _ _ _ _ _ Hrec).
    + intros i. rewrite Hperm. cbn. rewrite elem_of_cons, Hl. set_solver.
Qed.

Definition active_fault (e : FrontierError) : Prop :=
  match e with FrontierError.ActiveDependencyNotReleased _ _ _ => frontier_fault steps e | _ => False end.

Lemma inv_size g R Z a :
  loop_inv g R Z a → size (FrontierAssembly.outcomes a) ≤ size steps.
Proof.
  intros Hinv. rewrite <-!size_dom. apply subseteq_size. intros id Hid.
  apply elem_of_dom. by eapply inv_steps.
Qed.

Lemma inv_size_lt g R Z a id :
  loop_inv g R Z a → id ∈ Z → size (FrontierAssembly.outcomes a) < size steps.
Proof.
  intros Hinv (st & Hst & Hn & _)%(inv_zero _ _ _ _ Hinv).
  rewrite <-!size_dom. apply subset_size. split.
  - intros i Hi. apply elem_of_dom. by eapply inv_steps.
  - intros Hsub. apply Hn, Hsub, elem_of_dom. by exists st.
Qed.

(** With fuel for the steps not yet processed the loop ends, by emptying the queue or by
    meeting an active step whose dependency is not released. *)
Lemma classify_loop_spec g fuel R Z a :
  graph_ok steps → validated steps g → loop_inv g R Z a →
  size steps - size (FrontierAssembly.outcomes a) < fuel →
  match classify_loop fuel state (ValidatedFrontierGraph.dependents g) R Z a with
  | Ok a' => ∃ R', loop_inv g R' ∅ a'
  | Err e => active_fault e
  | Panic _ => False
  end.
Proof.
  intros Hok Hg. revert R Z a. induction fuel as [|fuel IH]; intros R Z a Hinv Hfuel; [lia|].
  cbn [classify_loop]. destruct (pop_first Z) as [[id Z0]|] eqn:Hpop.
  2: { apply pop_first_None in Hpop as ->. by exists R. }
  apply pop_first_Some in Hpop as (Hid & -> & _).
  destruct (proj1 (inv_zero _ _ _ _ Hinv id) Hid) as (st & Hst & Hnew & _).
  pose proof (record_step_spec id st a Hst (inv_dependencies _ _ _ _ _ _ Hinv Hid Hst)) as Hrec.
  destruct (record_step a state id) as [a'|e|w] eqn:Hrun; cbn [rbind]; [|..|done].
  2: { destruct Hrec as (d & r & -> & Hs & Hd & Hr). by exists st. }
  destruct Hrec as [(o & p & Hrec) Hact].
  destruct (release_step g R Z a id Hok Hg Hinv Hid) as (ch & R1 & Z1 & Hch & Hrel & _).
  rewrite Hch. cbn [expect rbind]. rewrite Hrel. cbn [rbind fst snd].
  apply IH; [by eapply loop_inv_step|].
  rewrite (recorded_size _ _ _ _ _ Hrec Hnew). pose proof (inv_size_lt _ _ _ _ _ Hinv Hid). lia.
Qed.

(** When the queue is empty, what is left is deadlocked. *)
Lemma inv_exhausted g R a :
  loop_inv g R ∅ a → graph_ok steps →
  size (FrontierAssembly.outcomes a) ≠ size steps →
  deadlocked steps (dom steps ∖ dom (FrontierAssembly.outcomes a)).
Proof.
  intros Hinv Hok Hne. split.
  - intros Hempty. apply Hne. rewrite <-!size_dom. f_equal. apply set_eq. intros i. split.
    + intros Hi. apply elem_of_dom. by eapply inv_steps.
    + intros Hi. destruct (decide (i ∈ dom (FrontierAssembly.outcomes a))); [done|]. set_solver.
  - intros id [Hid Hn]%elem_of_difference. apply elem_of_dom in Hid as [st Hst].
    split; [by exists st|].
    destruct (decide (Exists (λ d, d ∉ dom (FrontierAssembly.outcomes a)) (StepState.depends_on st)))
      as [Hex|Hnex].
    + apply Exists_exists in Hex as (d & Hd & Hdn). exists d.
      assert (edge steps d id) as He by (by exists st).
      split; [|done]. apply elem_of_difference. split; [|done].
      apply elem_of_dom. by eapply graph_known.
    + exfalso. assert (id ∈ (∅ : gset string)) as Hin; [|set_solver].
      apply (inv_zero _ _ _ _ Hinv). exists st. split_and!; [done..|].
      intros d Hd. destruct (decide (d ∈ dom (FrontierAssembly.outcomes a))); [done|].
      destruct Hnex. apply Exists_exists. by exists d.
Qed.

Lemma inv_complete_dom g R a :
  loop_inv g R ∅ a → size (FrontierAssembly.outcomes a) = size steps →
  dom (FrontierAssembly.outcomes a) = dom steps.
Proof.
  intros Hinv Hsz. apply set_eq. intros i. split.
  - intros Hi. apply elem_of_dom. by eapply inv_steps.
  - intros Hi. destruct (decide (i ∈ dom (FrontierAssembly.outcomes a))) as [|Hn]; [done|].
    exfalso. rewrite <-!size_dom in Hsz.
    assert (size (dom (FrontierAssembly.outcomes a)) < size (dom steps)); [|lia].
    apply subset_size. split; [|intros Hsub; by apply Hn, Hsub].
    intros j Hj. apply elem_of_dom. by eapply inv_steps.
Qed.

(** ** [derive_frontier] *)

(** Its result, on every branch. *)
Lemma derive_frontier_spec :
  fits_usize steps →
  match derive_frontier state with
  | Ok f => ∃ g R a, validated steps g ∧ graph_ok steps ∧ loop_inv g R ∅ a ∧
              dom (FrontierAssembly.outcomes a) = dom steps ∧ f = finish a state
  | Err e => frontier_fault steps e
  | Panic _ => False
  end.
Proof.
  intros Hfits. unfold derive_frontier.
  destruct (validate_frontier_graph state) as [g|e|w] eqn:Hval; cbn [rbind].
  2: { apply validate_frontier_graph_err in Hval. by destruct e. }
  2: { by eapply validate_frontier_graph_no_panic. }
  apply validate_frontier_graph_ok in Hval as [Hok Hg].
  pose proof (classify_loop_spec g (S (size steps)) _ _ _ Hok Hg (loop_inv_init g Hg)) as Hloop.
  cbn [FrontierAssembly.outcomes FrontierAssembly.default] in Hloop.
  destruct (classify_loop _ _ _ _ _ _) as [a|e|w]; cbn [rbind];
    (specialize (Hloop ltac:(lia)); cbn in Hloop); [|by destruct e|done].
  destruct Hloop as [R Hinv]. pose proof (inv_processed _ _ _ _ Hinv) as Hproc.
  pose proof (inv_size _ _ _ _ Hinv) as Hle. unfold fits_usize in Hfits.
  case_bool_decide as Hne.
  - eexists. eapply inv_exhausted; [done..|]. intros Heq. apply Hne. rewrite Hproc, Heq. lia.
  - exists g, R, a. split_and!; try done. eapply inv_complete_dom; [done|].
    rewrite Hproc in Hne. lia.
Qed.
End classify.
