(* ===== verification/FrontierTheorems.v ===== *)
(** What [derive_frontier] guarantees to its callers (the reducer's plan acceptance, the
    runtime's continuation loop): when it succeeds, what its errors mean, where every step
    is listed and in which order work is offered. *)

From S2P Require Import Prelude Text Wire WorkGraphTypes WorkGraphErrors Frontier FrontierProofs.

(** ** Reading a frontier *)

(** The priority of a status, most urgent first. *)
Definition status_rank (s : StepStatus) : N :=
  match s with
  | StepStatus.Executing => 0
  | StepStatus.EffectUnknown => 1
  | StepStatus.Reconciling => 2
  | StepStatus.Validating => 3
  | StepStatus.IntentCommitted => 4
  | _ => 5
  end.

Definition step_rank (steps : steps_map) (id : string) : N :=
  from_option (λ st, status_rank (StepState.status st)) 5%N (steps !! id).

(** The places a frontier puts a step in. *)
Definition in_frontier (steps : steps_map) (f : WorkFrontier) (id : string) (p : place) : Prop :=
  match p with
  | InActionable rank action =>
      rank = step_rank steps id ∧ FrontierAction.mk id action ∈ WorkFrontier.actionable f
  | InWaiting => id ∈ map WaitingStep.step_id (WorkFrontier.waiting f)
  | InBlocked => id ∈ map BlockedStep.step_id (WorkFrontier.blocked f)
  | InVerified => id ∈ WorkFrontier.verified_completed_step_ids f
  | InUnverified => id ∈ WorkFrontier.unverified_completed_step_ids f
  | InFailed => id ∈ WorkFrontier.failed_step_ids f
  | InManual => id ∈ WorkFrontier.manual_required_step_ids f
  end.

(** Every id a frontier mentions as a step, list after list. *)
Definition frontier_ids (f : WorkFrontier) : list string :=
  map FrontierAction.step_id (WorkFrontier.actionable f)
  ++ map WaitingStep.step_id (WorkFrontier.waiting f)
  ++ map BlockedStep.step_id (WorkFrontier.blocked f)
  ++ WorkFrontier.verified_completed_step_ids f
  ++ WorkFrontier.unverified_completed_step_ids f
  ++ WorkFrontier.failed_step_ids f
  ++ WorkFrontier.manual_required_step_ids f.

(** ** Ordering lemmas *)

#[export] Instance ranked_le_total : Total ranked_le.
Proof.
  intros a b. unfold ranked_le. do 2 case_bool_decide; try lia.
  apply (total String.le).
Qed.

#[export] Instance ranked_le_trans : Transitive ranked_le.
Proof.
  intros a b c. unfold ranked_le. repeat case_bool_decide; try lia.
  apply (transitivity (R := String.le)).
Qed.

Lemma elem_of_listed a id p :
  (id, p) ∈ listed a ↔
  match p with
  | InActionable rank action => ((rank, id), action) ∈ FrontierAssembly.ranked_actions a
  | InWaiting => id ∈ map WaitingStep.step_id (FrontierAssembly.waiting a)
  | InBlocked => id ∈ map BlockedStep.step_id (FrontierAssembly.blocked a)
  | InVerified => id ∈ FrontierAssembly.verified_completed_step_ids a
  | InUnverified => id ∈ FrontierAssembly.unverified_completed_step_ids a
  | InFailed => id ∈ FrontierAssembly.failed_step_ids a
  | InManual => id ∈ FrontierAssembly.manual_required_step_ids a
  end.
Proof.
  assert (Happ : ∀ {A B} (g : A → B) (l : list A) q, q ∈ map g l ↔ ∃ x, q = g x ∧ x ∈ l)
    by (intros; apply list_elem_of_fmap).
  unfold listed. rewrite !elem_of_app, !Happ. split.
  - intros H. repeat destruct H as [H|H]; destruct H as (x & Hx & Hin); destruct p;
      try discriminate Hx; rewrite ?Happ; simplify_eq/=; eauto.
    by destruct x as [[r i] c].
  - destruct p; rewrite ?Happ; [intros Hin; left; by exists ((rank, id), action)|intros Hin; right..].
    + destruct Hin as (x & -> & Hin). left. eauto.
    + destruct Hin as (x & -> & Hin). right; left. eauto.
    + do 2 right; left. eauto.
    + do 3 right; left. eauto.
    + do 4 right; left. eauto.
    + do 5 right. eauto.
Qed.

Lemma elem_of_listed_action a id rank action :
  (id, InActionable rank action) ∈ listed a ↔
  ((rank, id), action) ∈ FrontierAssembly.ranked_actions a.
Proof. apply (elem_of_listed a id (InActionable rank action)). Qed.

Lemma listed_verified_NoDup a :
  NoDup (listed a).*1 → NoDup (FrontierAssembly.verified_completed_step_ids a).
Proof.
  unfold listed. rewrite !fmap_app. unfold fmap. cbn. rewrite !map_map, !map_id.
  intros (_ & _ & H)%NoDup_app. apply NoDup_app in H as (_ & _ & H).
  apply NoDup_app in H as (_ & _ & H). by apply NoDup_app in H as (H & _).
Qed.

Lemma frontier_ids_finish a state : frontier_ids (finish a state) ≡ₚ (listed a).*1.
Proof.
  unfold frontier_ids, finish, listed. cbn.
  rewrite !fmap_app. unfold fmap. cbn. rewrite !map_map. cbn.
  rewrite !merge_sort_Permutation, !map_id. done.
Qed.

(** ** A derived frontier *)

Section derived.
Context (state : RunState) (f : WorkFrontier).
Abbreviation steps := (RunState.steps state).

Lemma derived_inv :
  fits_usize steps → derive_frontier state = Ok f →
  ∃ a, f = finish a state ∧ frontier_wf steps ∧ NoDup (listed a).*1 ∧
    (∀ id p, (id, p) ∈ listed a → classified steps id p) ∧
    (∀ id, id ∈ (listed a).*1 ↔ is_Some (steps !! id)).
Proof.
  intros Hfits Hf. pose proof (derive_frontier_spec state Hfits) as Hspec. rewrite Hf in Hspec.
  destruct Hspec as (g & R & a & _ & Hok & Hinv & Hdom & ->). exists a.
  destruct (inv_listed _ _ _ _ _ Hinv) as (Hnd & Hcl & Hl).
  split_and!; [done| |done|done|intros id; by rewrite Hl, Hdom, elem_of_dom].
  split; [done| |].
  - destruct (inv_rank _ _ _ _ _ Hinv) as (rank & _ & Hrank). exists rank.
    intros d id He. apply Hrank; [|done]. rewrite Hdom. destruct He as (st & Hst & _).
    apply elem_of_dom. by exists st.
  - intros id st d Hst. eapply (inv_active _ _ _ _ _ Hinv); [|done].
    rewrite Hdom. apply elem_of_dom. by exists st.
Qed.

(** A step has one place. *)
Lemma classified_functional id p q : classified steps id p → classified steps id q → p = q.
Proof.
  intros (st & Hst & Hp) (st' & Hst' & Hq). simplify_map_eq.
  destruct (StepState.status st); try congruence.
  destruct Hp as [(-> & d & Hd & Hb)|[(-> & Hnb & d & Hd & Hr)|[-> Hr]]],
    Hq as [(-> & d' & Hd' & Hb')|[(-> & Hnb' & d' & Hd' & Hr')|[-> Hr']]]; try done.
  - by destruct (Hnb' d Hd).
  - exfalso. eapply released_not_blocked; [by apply (Hr' d)|done].
  - by destruct (Hnb d' Hd').
  - by destruct Hr; apply Hr'.
  - exfalso. eapply released_not_blocked; [by apply (Hr d')|done].
  - by destruct Hr'; apply Hr.
Qed.

Lemma classified_rank id r c : classified steps id (InActionable r c) → r = step_rank steps id.
Proof.
  intros (st & Hst & Hp). unfold step_rank. rewrite Hst. cbn.
  destruct (StepState.status st); try (by simplify_eq); [|by case_match].
  destruct Hp as [[? _]|[[? _]|[? _]]]; by simplify_eq.
Qed.

(** A place of the assembly is a place of the frontier. *)
Lemma in_frontier_finish a id p :
  (∀ id p, (id, p) ∈ listed a → classified steps id p) →
  in_frontier steps (finish a state) id p ↔ (id, p) ∈ listed a.
Proof.
  intros Hcl. destruct p; cbn;
    [|by rewrite elem_of_listed, merge_sort_Permutation..].
  rewrite list_elem_of_fmap. split.
  - intros (-> & [[r i] c] & [= -> ->] & Hin). rewrite merge_sort_Permutation in Hin.
    apply elem_of_listed_action in Hin.
    by rewrite <-(classified_rank _ _ _ (Hcl _ _ Hin)).
  - intros Hin. split; [by eapply classified_rank, Hcl|].
    apply elem_of_listed_action in Hin. exists ((rank, id), action).
    by rewrite merge_sort_Permutation.
Qed.
End derived.

(** Exactly the receipt-completed runs have every step verified. *)
Lemma all_completed_iff (state : RunState) (f : WorkFrontier) :
  fits_usize (RunState.steps state) → derive_frontier state = Ok f →
  WorkFrontier.all_steps_receipt_completed f = true ↔
  RunState.steps state ≠ ∅ ∧ ∀ id, is_Some (RunState.steps state !! id) → released (RunState.steps state) id.
Proof.
  intros Hfits Hf. destruct (derived_inv state f Hfits Hf) as (a & -> & _ & Hnd & Hcl & Hl).
  apply listed_verified_NoDup in Hnd as HV.
  unfold WorkFrontier.all_steps_receipt_completed, len. cbn.
  rewrite (Permutation_length (merge_sort_Permutation String.le _)).
  rewrite andb_true_iff, !bool_decide_eq_true, Nat2N.inj_iff.
  set (V := FrontierAssembly.verified_completed_step_ids a) in *.
  assert (Hin : ∀ id, id ∈ V ↔ released (RunState.steps state) id).
  { intros id. transitivity ((id, InVerified) ∈ listed a);
      [symmetry; apply (elem_of_listed a id InVerified)|]. split.
    - intros (st & Hst & Hp)%Hcl. exists st. split; [done|].
      destruct (StepState.status st); try done; [|by destruct (receipt_releases_dependency st)].
      by destruct Hp as [[? _]|[[? _]|[? _]]].
    - intros (st & Hst & Hr). assert (id ∈ (listed a).*1) as ([i q] & -> & Hq)%list_elem_of_fmap.
      { apply Hl. by exists st. }
      pose proof (Hcl _ _ Hq) as (st' & Hst' & Hp). cbn in *. simplify_map_eq.
      rewrite (releases_completed _ Hr), Hr in Hp. by subst q. }
  assert (Hkeys : V ⊆+ btree_keys (RunState.steps state)).
  { apply NoDup_submseteq; [done|]. intros id (st & Hst & _)%Hin.
    apply elem_of_btree_keys. by exists st. }
  rewrite <-map_size_non_empty_iff. split.
  - intros [Hpos Hlen]. split; [lia|]. intros id Hid. apply Hin.
    rewrite <-length_btree_keys in Hlen. apply submseteq_length_Permutation in Hkeys; [|lia].
    rewrite Hkeys. by apply elem_of_btree_keys.
  - intros [Hne Hall]. split; [lia|]. rewrite <-length_btree_keys.
    apply Permutation_length, NoDup_Permutation; [done|apply NoDup_btree_keys|].
    intros id. rewrite elem_of_btree_keys, Hin. split; [|by apply Hall].
    intros (st & Hst & _). by exists st.
Qed.

(** A fault excludes well-formedness. *)
Lemma frontier_fault_not_wf steps e : frontier_fault steps e → ¬ frontier_wf steps.
Proof.
  intros Hspec Hwf.
  destruct Hwf as [[Hself Hdup Hknown] Hac Hact]. destruct e; cbn in Hspec.
  - by eapply Hself.
  - destruct Hspec as (st & Hst & _ & Hn). by eapply Hn, Hdup.
  - destruct Hspec as [He Hn]. apply Hknown in He as [? ?]. congruence.
  - destruct Hspec as [U HU]. by eapply deadlocked_not_acyclic.
  - destruct Hspec as (st & Hst & Hs & Hd & Hr). by eapply Hr, Hact.
Qed.

(** ** The guarantees *)

(** C22: [derive_frontier] succeeds exactly on the well-formed runs: dependency lists are
    duplicate-free lists of other known steps, the graph is acyclic, and no step has left
    [Planned] before its dependencies were released by a passed receipt. *)
Theorem derive_frontier_iff_wf (state : RunState) :
  fits_usize (RunState.steps state) →
  is_ok (derive_frontier state) ↔ frontier_wf (RunState.steps state).
Proof.
  intros Hfits. split.
  - intros [f Hf]. by destruct (derived_inv state f Hfits Hf) as (a & _ & Hwf & _).
  - intros Hwf. pose proof (derive_frontier_spec state Hfits) as Hspec.
    destruct (derive_frontier state) as [f|e|w]; [by exists f| |done].
    by destruct (frontier_fault_not_wf _ _ Hspec).
Qed.

(** C40: [derive_frontier] never panics (no failed [expect], no map-index panic, no
    unbounded loop), and every error it returns names a real fault of the run: in
    particular [DependencyCycle] is returned only when a non-empty set of steps wait on
    one another. *)
Theorem derive_frontier_errors (state : RunState) :
  fits_usize (RunState.steps state) →
  no_panic (derive_frontier state) ∧
  ∀ e, derive_frontier state = Err e → frontier_fault (RunState.steps state) e.
Proof.
  intros Hfits. pose proof (derive_frontier_spec state Hfits) as Hspec.
  split; [intros w Hw; by rewrite Hw in Hspec|intros e He; by rewrite He in Hspec].
Qed.

(** C28: A derived frontier lists every step of the run exactly once, and in the one place
    its status, its receipt and the state of its dependencies call for: [Admit] is offered
    only when every dependency is released, a planned step is blocked exactly when some
    dependency can never be released, and waits otherwise. *)
Theorem derive_frontier_places (state : RunState) (f : WorkFrontier) :
  fits_usize (RunState.steps state) → derive_frontier state = Ok f →
  frontier_ids f ≡ₚ btree_keys (RunState.steps state) ∧
  ∀ id p, in_frontier (RunState.steps state) f id p ↔ classified (RunState.steps state) id p.
Proof.
  intros Hfits Hf. destruct (derived_inv state f Hfits Hf) as (a & -> & Hwf & Hnd & Hcl & Hl).
  split.
  - rewrite frontier_ids_finish. apply NoDup_Permutation; [done|apply NoDup_btree_keys|].
    intros id. by rewrite Hl, elem_of_btree_keys.
  - intros id p. rewrite in_frontier_finish by done. split; [apply Hcl|].
    intros Hp. assert (id ∈ (listed a).*1) as ([i q] & -> & Hq)%list_elem_of_fmap.
    { apply Hl. destruct Hp as (st & Hst & _). by exists st. }
    by rewrite (classified_functional state _ _ _ Hp (Hcl _ _ Hq)).
Qed.

(** Work is offered most urgent first: the actionable list is ordered by the status
    priority (executing, unknown, reconciling, validating, committed, planned) and then by
    step id, so the next action never overtakes a more urgent one. *)
Theorem derive_frontier_order (state : RunState) (f : WorkFrontier) :
  fits_usize (RunState.steps state) → derive_frontier state = Ok f →
  StronglySorted (λ x y : FrontierAction,
    let rank i := step_rank (RunState.steps state) i in
    let i := FrontierAction.step_id x in
    let j := FrontierAction.step_id y in
    (rank i < rank j)%N ∨ rank i = rank j ∧ String.le i j) (WorkFrontier.actionable f).
Proof.
  intros Hfits Hf. destruct (derived_inv state f Hfits Hf) as (a & -> & _ & _ & Hcl & _).
  cbn. set (l := merge_sort ranked_le _).
  assert (Hs : StronglySorted ranked_le l) by apply (StronglySorted_merge_sort ranked_le).
  assert (Hr : ∀ x, x ∈ l → x.1.1 = step_rank (RunState.steps state) x.1.2).
  { intros [[r i] c] Hx. unfold l in Hx. rewrite merge_sort_Permutation in Hx.
    apply (classified_rank state _ _ c), Hcl. by apply elem_of_listed_action. }
  induction Hs as [|x l' Hs IH Hx]; cbn; [constructor|]. constructor.
  - apply IH. intros y Hy. apply Hr. by right.
  - apply Forall_map, Forall_forall. intros y Hy. cbn.
    rewrite <-(Hr x), <-(Hr y) by set_solver. rewrite Forall_forall in Hx.
    specialize (Hx y Hy). unfold ranked_le in Hx. case_bool_decide; [by right|left; lia].
Qed.

(** [all_steps_receipt_completed], the condition under which a completion candidate
    is accepted, holds exactly when the run has steps and every one of them is completed
    with a receipt that releases its dependents. *)
Theorem all_steps_receipt_completed_spec (state : RunState) (f : WorkFrontier) :
  fits_usize (RunState.steps state) → derive_frontier state = Ok f →
  WorkFrontier.all_steps_receipt_completed f = true ↔
  RunState.steps state ≠ ∅ ∧ ∀ id, is_Some (RunState.steps state !! id) → released (RunState.steps state) id.
Proof. apply all_completed_iff. Qed.

(** ** A concrete run *)

Module Sample.
Definition digest : string :=
  "sha256:0123456789abcdef0123456789abcdef0123456789abcdef0123456789abcdef".

Definition step (id : string) (status : StepStatus) (depends_on : list string)
    (receipt : bool) : StepState :=
  let s := StepState.set_status status (StepState.planned id "work" depends_on None) in
  if receipt then StepState.set_receipt (Some "receipt-1") (Some digest) s else s.

Definition run (steps : list StepState) : RunState :=
  RunState.mk "run" "local" 1 "goal" 9 9 digest
    (list_to_map (map (λ s, (StepState.step_id s, s)) steps)) ∅ None.

(** Two actionable steps, one waiting, one blocked, one verified, one failed. *)
Definition mixed : RunState := run [
  step "a" StepStatus.Completed [] true;
  step "b" StepStatus.Executing ["a"] false;
  step "c" StepStatus.Planned ["a"] false;
  step "d" StepStatus.Planned ["a"; "b"] false;
  step "e" StepStatus.Failed [] false;
  step "f" StepStatus.Planned ["e"; "a"] false].

(** Three steps of which two wait on each other. *)
Definition cyclic : RunState := run [
  step "a" StepStatus.Completed [] true;
  step "b" StepStatus.Planned ["c"; "a"] false;
  step "c" StepStatus.Planned ["b"] false].

(** A run all of whose steps are receipt-completed. *)
Definition finished : RunState := run [
  step "a" StepStatus.Completed [] true; step "b" StepStatus.Completed ["a"] true].
End Sample.

Definition mixed_frontier : WorkFrontier :=
  match derive_frontier Sample.mixed with Ok f => f | _ => WorkFrontier.mk "" 0 0 "" 0 [] [] [] [] [] [] [] end.

Example mixed_actionable :
  WorkFrontier.actionable mixed_frontier =
  [FrontierAction.mk "b" ContinuationAction.DriveEffect; FrontierAction.mk "c" ContinuationAction.Admit].
Proof. vm_compute. reflexivity. Qed.

Example mixed_blocked :
  WorkFrontier.blocked mixed_frontier =
  [BlockedStep.mk "f" [DependencyBlocker.mk "e" DependencyBlockReason.Failed]].
Proof. vm_compute. reflexivity. Qed.

Lemma derive_frontier_iff_wf_witness :
  is_ok (derive_frontier Sample.mixed) ∧ frontier_wf (RunState.steps Sample.mixed).
Proof.
  assert (is_ok (derive_frontier Sample.mixed)) as H by (eexists; vm_compute; reflexivity).
  split; [exact H|]. apply (derive_frontier_iff_wf Sample.mixed); [by vm_compute|exact H].
Defined.

Lemma derive_frontier_errors_witness :
  frontier_fault (RunState.steps Sample.cyclic) FrontierError.DependencyCycle.
Proof.
  apply (derive_frontier_errors Sample.cyclic); [by vm_compute|]. vm_compute. reflexivity.
Defined.

Lemma derive_frontier_places_witness :
  classified (RunState.steps Sample.mixed) "d" InWaiting.
Proof.
  apply (derive_frontier_places Sample.mixed mixed_frontier); [by vm_compute|vm_compute; reflexivity|].
  change ("d" ∈ map WaitingStep.step_id (WorkFrontier.waiting mixed_frontier)).
  apply (bool_decide_unpack _). vm_compute. exact I.
Defined.
