(* ===== verification/Journal.v ===== *)
(** The hash-chained journal: building a record, recomputing its digest and checking it
    against the projection it extends (crates/xgeny-workgraph/src/lib.rs). *)

From S2P Require Import Prelude Text Wire WorkGraphTypes WorkGraphErrors WorkGraphWire.

Section journal.
Context `{Crypto}.

Definition record_digest (sequence : N) (previous_digest : option string) (event : RunEvent)
    : res RecordError string :=
  canonical_digest RecordError.Canonicalization (DigestInput sequence previous_digest event).

(** [EventRecord::next]. *)
Definition EventRecord_next (previous : option EventRecord) (event : RunEvent)
    : res RecordError EventRecord :=
  let? sequence := match previous with
                   | None => Ok 1%N
                   | Some record => ok_or (checked_add u64_max (EventRecord.sequence record) 1)
                                      RecordError.SequenceOverflow
                   end in
  let previous_digest := EventRecord.digest <$> previous in
  let? digest := record_digest sequence previous_digest event in
  Ok (EventRecord.mk sequence previous_digest event digest).

Definition EventRecord_verify_digest (r : EventRecord) : res RecordError unit :=
  let? actual := record_digest (EventRecord.sequence r) (EventRecord.previous_digest r)
                   (EventRecord.event r) in
  bail_if bool_decide (actual ≠ EventRecord.digest r)
    with RecordError.DigestMismatch (EventRecord.sequence r) (EventRecord.digest r) actual;;
  Ok tt.

Definition verify_record_against_state (current : option RunState) (record : EventRecord)
    : res TransitionError unit :=
  let? expected_sequence :=
    match current with
    | None => Ok 1%N
    | Some state => ok_or (checked_add u64_max (RunState.journal_sequence state) 1)
                      (TransitionError.Record_ RecordError.SequenceOverflow)
    end in
  bail_if bool_decide (EventRecord.sequence record ≠ expected_sequence)
    with TransitionError.UnexpectedSequence expected_sequence (EventRecord.sequence record);;
  let expected_previous := RunState.journal_head_digest <$> current in
  bail_if bool_decide (EventRecord.previous_digest record ≠ expected_previous)
    with TransitionError.PreviousDigestMismatch (EventRecord.sequence record) expected_previous
           (EventRecord.previous_digest record);;
  let? _ := map_err TransitionError.Record_ (EventRecord_verify_digest record) in
  match current with
  | Some state =>
      bail_if bool_decide (RunEvent.run_id (EventRecord.event record) ≠ RunState.run_id state)
        with TransitionError.RunIdMismatch;;
      bail_if bool_decide (RunEvent.authority (EventRecord.event record) ≠ RunState.authority state)
        with TransitionError.AuthorityMismatch;;
      bail_if bool_decide (RunEvent.authority_epoch (EventRecord.event record)
                           ≠ RunState.authority_epoch state)
        with TransitionError.AuthorityEpochMismatch;;
      Ok tt
  | None => Ok tt
  end.

End journal.
