(* ===== verification/AgentLoop.v ===== *)
(** The agent-loop part of the reducer: budgets, model-call reservations and their settlement
    (crates/xgeny-workgraph/src/lib.rs), and what each handler does.

    A Rust handler takes [&mut RunState] and its caller drops the state on an error, so a
    handler is a function to a result that carries the updated state. *)

From S2P Require Import Prelude Text Wire WorkGraphTypes WorkGraphErrors WorkGraphWire Planning.

(** Field updates of the loop state. *)
Definition set_model_calls (v : option ModelCallLifecycleState) (l : AgentLoopState)
    : AgentLoopState :=
  AgentLoopState.mk (AgentLoopState.budget l) (AgentLoopState.accepted_model_turns l) v
    (AgentLoopState.completion_candidate l).
Definition set_accepted_model_turns (v : N) (l : AgentLoopState) : AgentLoopState :=
  AgentLoopState.mk (AgentLoopState.budget l) v (AgentLoopState.model_calls l)
    (AgentLoopState.completion_candidate l).
Definition set_completion_candidate (v : option CompletionCandidateState) (l : AgentLoopState)
    : AgentLoopState :=
  AgentLoopState.mk (AgentLoopState.budget l) (AgentLoopState.accepted_model_turns l)
    (AgentLoopState.model_calls l) v.

(** [loop_state.model_calls.as_ref().active_call.as_ref()] with their [ok_or]s. *)
Definition require_calls (l : AgentLoopState) : res TransitionError ModelCallLifecycleState :=
  ok_or (AgentLoopState.model_calls l) TransitionError.ModelCallLifecycleNotConfigured.
Definition require_loop (state : RunState) : res TransitionError AgentLoopState :=
  ok_or (RunState.agent_loop state) TransitionError.AgentLoopNotConfigured.
Definition require_active (calls : ModelCallLifecycleState) : res TransitionError ModelCallState :=
  ok_or (ModelCallLifecycleState.active_call calls) TransitionError.ModelCallNotReserved.

(** [try_fold(0_u32, checked_add)] over the attempts of the steps. *)
Definition total_attempts (state : RunState) : res TransitionError N :=
  for_each (λ total step, ok_or (checked_add u32_max total (StepState.attempts step))
                            TransitionError.ToolCallBudgetExceeded)
    (btree_values (RunState.steps state)) 0%N.

Definition validate_model_call_counters (l : AgentLoopState) : res TransitionError unit :=
  match AgentLoopState.model_calls l with
  | None => Ok tt
  | Some calls =>
      bail_if bool_decide (ModelCallLifecycleState.settled_calls calls
                           < AgentLoopState.accepted_model_turns l)%N
              || bool_decide (ModelCallLifecycleState.reserved_calls calls
                              < ModelCallLifecycleState.settled_calls calls)%N
              || bool_decide (ModelCallLifecycleState.reserved_calls calls
                              < ModelCallLifecycleState.unknown_calls calls)%N
        with TransitionError.ModelCallCounterInvariant;;
      Ok tt
  end.

(** The loop state written back after the closing counter check. *)
Definition store_loop (l : AgentLoopState) (state : RunState) : res TransitionError RunState :=
  let? _ := validate_model_call_counters l in
  Ok (RunState.set_agent_loop (Some l) state).

Definition configure_agent_loop (state : RunState) (budget : AgentLoopBudget)
    : res TransitionError RunState :=
  let? _ := map_err TransitionError.PlanningContract (AgentLoopBudget_validate budget) in
  bail_if bool_decide (is_Some (RunState.agent_loop state))
    with TransitionError.AgentLoopAlreadyConfigured;;
  let? planned_steps := ok_or (try_from u32_max (N.of_nat (size (RunState.steps state))))
                          TransitionError.PlannedStepBudgetExceeded in
  bail_if bool_decide (AgentLoopBudget.max_planned_steps budget < planned_steps)%N
    with TransitionError.PlannedStepBudgetExceeded;;
  let? tool_calls := total_attempts state in
  bail_if bool_decide (AgentLoopBudget.max_tool_calls budget < tool_calls)%N
    with TransitionError.ToolCallBudgetExceeded;;
  Ok (RunState.set_agent_loop (Some (AgentLoopState.mk budget 0 None None)) state).

Definition configure_model_call_lifecycle (state : RunState) (budget : ModelCallBudget)
    : res TransitionError RunState :=
  let? _ := map_err TransitionError.PlanningContract (ModelCallBudget_validate budget) in
  let? loop_state := require_loop state in
  bail_if bool_decide (is_Some (AgentLoopState.model_calls loop_state))
    with TransitionError.ModelCallLifecycleAlreadyConfigured;;
  let accepted := AgentLoopState.accepted_model_turns loop_state in
  bail_if bool_decide (ModelCallBudget.max_model_calls budget < accepted)%N
    with TransitionError.ModelCallBudgetBelowHistoricalAcceptedTurns
           (ModelCallBudget.max_model_calls budget) accepted;;
  store_loop (set_model_calls (Some (ModelCallLifecycleState.mk budget accepted accepted 0 None))
                loop_state) state.

Definition reserve_model_call `{Crypto} (state : RunState) (reservation : ModelCallReservation)
    : res TransitionError RunState :=
  let? _ := map_err TransitionError.PlanningContract
    (ModelCallReservation_validate_for reservation (RunState.run_id state)
       (RunState.authority_epoch state)) in
  let? loop_state := require_loop state in
  bail_if bool_decide (is_Some (AgentLoopState.completion_candidate loop_state))
    with TransitionError.CompletionCandidateAlreadyRecorded;;
  bail_if bool_decide (AgentLoopBudget.max_model_turns (AgentLoopState.budget loop_state)
                       ≤ AgentLoopState.accepted_model_turns loop_state)%N
    with TransitionError.ModelTurnBudgetExceeded;;
  let? calls := require_calls loop_state in
  bail_if bool_decide (is_Some (ModelCallLifecycleState.active_call calls))
    with TransitionError.ModelCallActive;;
  let reserved := ModelCallLifecycleState.reserved_calls calls in
  bail_if bool_decide (ModelCallBudget.max_model_calls (ModelCallLifecycleState.budget calls)
                       ≤ reserved)%N
    with TransitionError.ModelCallBudgetExceeded;;
  let? expected_call_index := ok_or (checked_add u32_max reserved 1)
                                TransitionError.ModelCallBudgetExceeded in
  bail_if bool_decide (ModelCallReservation.call_index reservation ≠ expected_call_index)
    with TransitionError.UnexpectedModelCallIndex expected_call_index
           (ModelCallReservation.call_index reservation);;
  let? expected_turn_index :=
    ok_or (checked_add u32_max (AgentLoopState.accepted_model_turns loop_state) 1)
      TransitionError.ModelTurnBudgetExceeded in
  bail_if bool_decide (ModelCallReservation.turn_index reservation ≠ expected_turn_index)
    with TransitionError.UnexpectedModelCallTurn expected_turn_index
           (ModelCallReservation.turn_index reservation);;
  bail_if bool_decide (ModelCallReservation.base_sequence reservation
                       ≠ RunState.journal_sequence state)
          || bool_decide (ModelCallReservation.base_head_digest reservation
                          ≠ RunState.journal_head_digest state)
    with TransitionError.ModelCallBaseHeadMismatch;;
  store_loop (set_model_calls (Some (ModelCallLifecycleState.mk
      (ModelCallLifecycleState.budget calls) expected_call_index
      (ModelCallLifecycleState.settled_calls calls)
      (ModelCallLifecycleState.unknown_calls calls)
      (Some (ModelCallState.mk reservation ModelCallStatus.Reserved)))) loop_state) state.

Definition mark_model_call_unknown (state : RunState) (call_id : string)
    (reason : ModelCallUnknownReason) : res TransitionError RunState :=
  let? _ := map_err TransitionError.PlanningContract (require_model_call_id "call_id" call_id) in
  let? loop_state := require_loop state in
  let? calls := require_calls loop_state in
  let? active := require_active calls in
  bail_if bool_decide (ModelCallReservation.call_id (ModelCallState.reservation active) ≠ call_id)
    with TransitionError.ModelCallIdMismatch;;
  bail_if bool_decide (ModelCallState.status active ≠ ModelCallStatus.Reserved)
    with TransitionError.ModelCallNotReserved;;
  let? unknown_calls :=
    ok_or (checked_add u32_max (ModelCallLifecycleState.unknown_calls calls) 1)
      TransitionError.ModelCallCounterOverflow in
  store_loop (set_model_calls (Some (ModelCallLifecycleState.mk
      (ModelCallLifecycleState.budget calls) (ModelCallLifecycleState.reserved_calls calls)
      (ModelCallLifecycleState.settled_calls calls) unknown_calls
      (Some (ModelCallState.mk (ModelCallState.reservation active)
               (ModelCallStatus.Unknown reason))))) loop_state) state.

(** [calls.settled_calls.checked_add(1)?; calls.active_call = None]. *)
Definition settle_calls (calls : ModelCallLifecycleState)
    : res TransitionError ModelCallLifecycleState :=
  let? settled_calls := ok_or (checked_add u32_max (ModelCallLifecycleState.settled_calls calls) 1)
                          TransitionError.ModelCallCounterOverflow in
  Ok (ModelCallLifecycleState.mk (ModelCallLifecycleState.budget calls)
        (ModelCallLifecycleState.reserved_calls calls) settled_calls
        (ModelCallLifecycleState.unknown_calls calls) None).

Definition settle_model_call (state : RunState) (call_id : string)
    (settlement : ModelCallSettlement) : res TransitionError RunState :=
  let? _ := map_err TransitionError.PlanningContract (require_model_call_id "call_id" call_id) in
  let? loop_state := require_loop state in
  let? calls := require_calls loop_state in
  let? active := require_active calls in
  bail_if bool_decide (ModelCallReservation.call_id (ModelCallState.reservation active) ≠ call_id)
    with TransitionError.ModelCallIdMismatch;;
  let? _ :=
    match settlement with
    | ModelCallSettlement.Rejected reason =>
        bail_if bool_decide (ModelCallState.status active ≠ ModelCallStatus.Reserved)
          with TransitionError.ModelCallNotReserved;;
        let? immediate_sequence := ok_or (checked_add u64_max
            (ModelCallReservation.base_sequence (ModelCallState.reservation active)) 1)
          TransitionError.ModelCallCounterOverflow in
        let is_immediate := bool_decide (RunState.journal_sequence state = immediate_sequence) in
        bail_if negb (Bool.eqb is_immediate
                        (bool_decide (reason ≠ ModelCallRejectionReason.StaleHead)))
          with TransitionError.ModelCallSettlementHeadMismatch;;
        Ok tt
    | ModelCallSettlement.Abandoned _ => Ok tt
    end in
  let? calls := settle_calls calls in
  store_loop (set_model_calls (Some calls) loop_state) state.

Definition validate_model_call_success (state : RunState) (decision : ExpectedPlanningTurn)
    : res TransitionError unit :=
  let? loop_state := require_loop state in
  match AgentLoopState.model_calls loop_state, ExpectedPlanningTurn.model_call_id decision with
  | None, None => Ok tt
  | None, Some _ => Err TransitionError.ModelCallLifecycleNotConfigured
  | Some _, None => Err TransitionError.ModelCallDecisionRequired
  | Some calls, Some call_id =>
      let? active := require_active calls in
      let reservation := ModelCallState.reservation active in
      bail_if bool_decide (ModelCallReservation.call_id reservation ≠ call_id)
        with TransitionError.ModelCallIdMismatch;;
      bail_if bool_decide (ModelCallState.status active ≠ ModelCallStatus.Reserved)
        with TransitionError.ModelCallNotReserved;;
      bail_if bool_decide (ModelCallReservation.turn_index reservation
                           ≠ ExpectedPlanningTurn.turn_index decision)
        with TransitionError.UnexpectedModelCallTurn
               (ModelCallReservation.turn_index reservation)
               (ExpectedPlanningTurn.turn_index decision);;
      bail_if bool_decide (ModelCallReservation.context_digest reservation
                           ≠ ExpectedPlanningTurn.context_digest decision)
        with TransitionError.ModelCallContextMismatch;;
      let? immediate_sequence :=
        ok_or (checked_add u64_max (ModelCallReservation.base_sequence reservation) 1)
          TransitionError.ModelCallCounterOverflow in
      bail_if bool_decide (RunState.journal_sequence state ≠ immediate_sequence)
        with TransitionError.StaleModelCallResponse;;
      Ok tt
  end.

Definition settle_successful_model_call (loop_state : AgentLoopState)
    : res TransitionError AgentLoopState :=
  match AgentLoopState.model_calls loop_state with
  | None => Ok loop_state
  | Some calls =>
      let? active := require_active calls in
      bail_if bool_decide (ModelCallState.status active ≠ ModelCallStatus.Reserved)
        with TransitionError.ModelCallNotReserved;;
      let? calls := settle_calls calls in
      let loop_state := set_model_calls (Some calls) loop_state in
      let? _ := validate_model_call_counters loop_state in
      Ok loop_state
  end.

(** The agent loop keeps its budgets: what each loop handler does when it succeeds, and the
    counter invariant it preserves. *)

(** ** The counter invariant *)

Definition active_count (c : ModelCallLifecycleState) : N :=
  match ModelCallLifecycleState.active_call c with Some _ => 1 | None => 0 end.

(** An active call that has not been marked unknown. *)
Definition undecided_count (c : ModelCallLifecycleState) : N :=
  match ModelCallLifecycleState.active_call c with
  | Some a => if bool_decide (ModelCallState.status a = ModelCallStatus.Reserved) then 1 else 0
  | None => 0
  end.

(** The model-call counters of a loop whose journal has [seq] records. *)
Record calls_ok (seq : N) (l : AgentLoopState) (c : ModelCallLifecycleState) : Prop := {
  calls_accepted : (AgentLoopState.accepted_model_turns l ≤ ModelCallLifecycleState.settled_calls c)%N;
  calls_reserved : (ModelCallLifecycleState.reserved_calls c
                    = ModelCallLifecycleState.settled_calls c + active_count c)%N;
  calls_unknown : (ModelCallLifecycleState.unknown_calls c + undecided_count c
                   ≤ ModelCallLifecycleState.reserved_calls c)%N;
  calls_budget : (ModelCallLifecycleState.reserved_calls c
                  ≤ ModelCallBudget.max_model_calls (ModelCallLifecycleState.budget c))%N;
  calls_active a : ModelCallLifecycleState.active_call c = Some a →
    ModelCallReservation.call_index (ModelCallState.reservation a)
      = ModelCallLifecycleState.reserved_calls c ∧
    ModelCallReservation.turn_index (ModelCallState.reservation a)
      = (AgentLoopState.accepted_model_turns l + 1)%N ∧
    (ModelCallReservation.base_sequence (ModelCallState.reservation a) < seq)%N ∧
    AgentLoopState.completion_candidate l = None;
}.

Record turns_ok (seq : N) (l : AgentLoopState) : Prop := {
  turns_budget : (AgentLoopState.accepted_model_turns l
                  ≤ AgentLoopBudget.max_model_turns (AgentLoopState.budget l))%N;
  turns_calls c : AgentLoopState.model_calls l = Some c → calls_ok seq l c;
}.

Lemma turns_ok_later seq seq' l : (seq ≤ seq')%N → turns_ok seq l → turns_ok seq' l.
Proof.
  intros Hle [Hb Hc]. split; [done|]. intros c [? ? ? ? Ha]%Hc. split; try done.
  intros a (? & ? & ? & ?)%Ha. split_and!; try done. lia.
Qed.

(** ** What each handler does *)

Lemma require_loop_Ok state l : require_loop state = Ok l ↔ RunState.agent_loop state = Some l.
Proof. unfold require_loop. destruct (RunState.agent_loop state); naive_solver. Qed.
Lemma require_calls_Ok l c : require_calls l = Ok c ↔ AgentLoopState.model_calls l = Some c.
Proof. unfold require_calls. destruct (AgentLoopState.model_calls l); naive_solver. Qed.
Lemma require_active_Ok c a :
  require_active c = Ok a ↔ ModelCallLifecycleState.active_call c = Some a.
Proof. unfold require_active. destruct (ModelCallLifecycleState.active_call c); naive_solver. Qed.

Ltac require_inv :=
  repeat match goal with
  | H : require_loop _ = Ok _ |- _ => apply require_loop_Ok in H
  | H : require_calls _ = Ok _ |- _ => apply require_calls_Ok in H
  | H : require_active _ = Ok _ |- _ => apply require_active_Ok in H
  end.

Lemma store_loop_Ok l state state' :
  store_loop l state = Ok state' → state' = RunState.set_agent_loop (Some l) state.
Proof. unfold store_loop. intros H. by res_inv. Qed.

Lemma configure_agent_loop_Ok state budget state' :
  configure_agent_loop state budget = Ok state' →
  RunState.agent_loop state = None ∧
  state' = RunState.set_agent_loop (Some (AgentLoopState.mk budget 0 None None)) state ∧
  (N.of_nat (size (RunState.steps state)) ≤ u32_max)%N ∧
  (N.of_nat (size (RunState.steps state)) ≤ AgentLoopBudget.max_planned_steps budget)%N ∧
  ∃ n, total_attempts state = Ok n ∧ (n ≤ AgentLoopBudget.max_tool_calls budget)%N.
Proof.
  unfold configure_agent_loop. intros H. res_inv. checked_inv.
  split_and!; try done; [|lia|].
  - destruct (RunState.agent_loop state); [|done]. by destruct Hb.
  - eexists. split; [done|lia].
Qed.

Section handlers.
Context (state : RunState) (l : AgentLoopState).
Hypothesis Hl : RunState.agent_loop state = Some l.

Lemma turns_configure_calls budget state' :
  turns_ok (RunState.journal_sequence state) l →
  configure_model_call_lifecycle state budget = Ok state' →
  ∃ l', state' = RunState.set_agent_loop (Some l') state ∧
    AgentLoopState.budget l' = AgentLoopState.budget l ∧
    AgentLoopState.completion_candidate l' = AgentLoopState.completion_candidate l ∧
    turns_ok (RunState.journal_sequence state) l'.
Proof.
  intros [Hb _]. unfold configure_model_call_lifecycle, require_loop. rewrite Hl. cbn.
  intros H. res_inv. apply store_loop_Ok in H as ->.
  eexists. split_and!; [done..|]. split; [done|]. cbn. intros c [= <-].
  split; cbn; try done; unfold active_count, undecided_count; cbn; lia.
Qed.

Lemma turns_reserve `{Crypto} reservation state' :
  turns_ok (RunState.journal_sequence state) l →
  reserve_model_call state reservation = Ok state' →
  ∃ l', state' = RunState.set_agent_loop (Some l') state ∧
    AgentLoopState.budget l' = AgentLoopState.budget l ∧
    AgentLoopState.completion_candidate l' = AgentLoopState.completion_candidate l ∧
    turns_ok (RunState.journal_sequence state + 1) l'.
Proof.
  intros [Hb Hc]. unfold reserve_model_call, require_loop. rewrite Hl. cbn.
  intros H1. res_inv. checked_inv. bool_inv. apply store_loop_Ok in H1 as ->.
  require_inv. destruct (Hc _ Heqr) as [Ha Hr Hu Hbud _].
  unfold active_count, undecided_count in *. rewrite Hb2 in *.
  eexists. split_and!; [done..|]. split; [done|]. cbn. intros c [= <-].
  split; cbn; unfold active_count, undecided_count; cbn; try lia.
  - rewrite bool_decide_eq_true_2 by done. lia.
  - intros x [= <-]. cbn. split_and!; [done|done|lia|done].
Qed.

(** The counters once the active call is settled, for a loop that may have accepted it. *)
Lemma settled_ok seq c c' l' :
  calls_ok seq l c → settle_calls c = Ok c' → is_Some (ModelCallLifecycleState.active_call c) →
  (AgentLoopState.accepted_model_turns l' ≤ AgentLoopState.accepted_model_turns l + 1)%N →
  calls_ok seq l' c' ∧ ModelCallLifecycleState.active_call c' = None.
Proof.
  intros [Ha Hr Hu Hbud _] Hs [x Hx] Hle. unfold settle_calls in Hs. res_inv. checked_inv.
  unfold active_count, undecided_count in *. rewrite Hx in *. split; [|done].
  split; cbn; unfold active_count, undecided_count; cbn; try done; try lia.
Qed.

Lemma turns_unknown call_id reason state' :
  turns_ok (RunState.journal_sequence state) l →
  mark_model_call_unknown state call_id reason = Ok state' →
  ∃ l', state' = RunState.set_agent_loop (Some l') state ∧
    AgentLoopState.budget l' = AgentLoopState.budget l ∧
    AgentLoopState.completion_candidate l' = AgentLoopState.completion_candidate l ∧
    turns_ok (RunState.journal_sequence state) l'.
Proof.
  intros [Hb Hc]. unfold mark_model_call_unknown, require_loop. rewrite Hl. cbn.
  intros H1. res_inv. checked_inv. apply store_loop_Ok in H1 as ->.
  require_inv. destruct (Hc _ ltac:(eassumption)) as [Ha Hr Hu Hbud Hact].
  eexists. split_and!; [done..|]. split; [done|]. cbn. intros c [= <-].
  unfold active_count, undecided_count in *.
  repeat match goal with H : ModelCallLifecycleState.active_call _ = Some _ |- _ => rewrite H in *; clear H end.
  split; cbn; unfold active_count, undecided_count; cbn; try done.
  - rewrite bool_decide_eq_true_2 in Hu by done. rewrite bool_decide_eq_false_2 by done. lia.
  - intros x [= <-]. cbn. by apply Hact.
Qed.

Lemma turns_settle call_id settlement state' :
  turns_ok (RunState.journal_sequence state) l →
  settle_model_call state call_id settlement = Ok state' →
  ∃ l', state' = RunState.set_agent_loop (Some l') state ∧
    AgentLoopState.budget l' = AgentLoopState.budget l ∧
    AgentLoopState.completion_candidate l' = AgentLoopState.completion_candidate l ∧
    turns_ok (RunState.journal_sequence state) l'.
Proof.
  intros [Hb Hc]. unfold settle_model_call, require_loop. rewrite Hl. cbn.
  intros H1. res_inv; require_inv; apply store_loop_Ok in H1 as ->;
    (edestruct (settled_ok (RunState.journal_sequence state)) as [Hok _];
     [by apply Hc|eassumption|by eexists| |
      eexists; split_and!; [done..|]; split; [done|]; cbn; intros c [= <-]; exact Hok]; cbn; lia).
Qed.
End handlers.
