(* ===== verification/Plans.v ===== *)
(** The planning part of the reducer: accepted plans, planned steps and completion candidates
    (crates/xgeny-workgraph/src/lib.rs), and what each handler does. *)

From Stdlib Require Import Ascii.
From S2P Require Import Prelude Text Wire WorkGraphTypes WorkGraphErrors WorkGraphWire Planning.
From S2P Require Import Frontier AgentLoop FrontierProofs.

Definition map_plan_frontier_error (error : FrontierError) : TransitionError :=
  match error with
  | FrontierError.SelfDependency step_id => TransitionError.SelfDependency step_id
  | FrontierError.DuplicateDependency step_id dependency_id =>
      TransitionError.DuplicateDependency step_id dependency_id
  | FrontierError.UnknownDependency step_id dependency_id =>
      TransitionError.UnknownDependency step_id dependency_id
  | FrontierError.DependencyCycle => TransitionError.DependencyCycle
  | FrontierError.ActiveDependencyNotReleased step_id dependency_id reason =>
      TransitionError.DependencyNotReleased step_id dependency_id reason
  end.

Definition validate_accepted_objective (objective : string) : res TransitionError unit :=
  bail_if is_empty objective
          || bool_decide (MAX_ACCEPTED_OBJECTIVE_BYTES < strlen objective)%N
          || any_control objective
    with TransitionError.InvalidAcceptedObjective;;
  Ok tt.

(** ** Action owners *)

(** The actions a step stands for: its planned one, then its committed one. *)
Definition step_actions (step : StepState) : list string :=
  option_list (PlannedInvocationBinding.action_digest <$> StepState.planned_invocation step)
  ++ option_list (EffectIntent.action_digest <$> StepState.intent step).

(** [owners.insert(action, step_id).filter(|existing| existing != step_id)]. *)
Definition claim_action (step_id : string) (owners : gmap string string) (action_digest : string)
    : res TransitionError (gmap string string) :=
  match owners !! action_digest with
  | Some existing_step_id =>
      bail_if bool_decide (existing_step_id ≠ step_id)
        with TransitionError.DuplicatePlannedAction step_id existing_step_id;;
      Ok (<[action_digest := step_id]> owners)
  | None => Ok (<[action_digest := step_id]> owners)
  end.

Definition existing_action_owners (state : RunState) : res TransitionError (gmap string string) :=
  for_each (λ owners step, for_each (claim_action (StepState.step_id step)) (step_actions step) owners)
    (btree_values (RunState.steps state)) ∅.

(** ** Accepted plans *)

Definition validate_accepted_plan_header `{Crypto} (state : RunState)
    (decision : ExpectedPlanningTurn) (s : gset string * gmap string string)
    (step : AcceptedPlanStep) : res TransitionError (gset string * gmap string string) :=
  let '(proposed_ids, action_owners) := s in
  let step_id := AcceptedPlanStep.step_id step in
  let invocation := AcceptedPlanStep.invocation step in
  let? _ := map_err TransitionError.PlanningContract (require_planning_identifier "step_id" step_id) in
  let? _ := validate_accepted_objective (AcceptedPlanStep.objective step) in
  let? _ := map_err TransitionError.PlanningContract (PlannedInvocationBinding_validate invocation) in
  let? action_owners := claim_action step_id action_owners
                          (PlannedInvocationBinding.action_digest invocation) in
  bail_if bool_decide (PlannedInvocationBinding.proposal_digest invocation
                       ≠ ExpectedPlanningTurn.proposal_digest decision)
    with TransitionError.PlanProposalDigestMismatch step_id;;
  bail_if bool_decide (is_Some (RunState.steps state !! step_id))
          || bool_decide (step_id ∈ proposed_ids)
    with TransitionError.DuplicateStep step_id;;
  Ok ({[step_id]} ∪ proposed_ids, action_owners).

Definition validate_accepted_plan_headers `{Crypto} (state : RunState)
    (decision : ExpectedPlanningTurn) (steps : list AcceptedPlanStep)
    : res TransitionError (gset string) :=
  let? action_owners := existing_action_owners state in
  let? loop := for_each (validate_accepted_plan_header state decision) steps (∅, action_owners) in
  Ok loop.1.

(** Why an existing dependency refuses new dependents. *)
Definition plan_block_reason (blocked_existing : gset string) (dependency_id : string)
    (existing : StepState) : option DependencyBlockReason :=
  if bool_decide (dependency_id ∈ blocked_existing)
  then Some DependencyBlockReason.DependencyBlocked
  else dependency_release_block_reason existing.

(** The body of the inner loop over one new step's dependencies. *)
Definition check_plan_dependency (state : RunState) (blocked_existing proposed_ids : gset string)
    (step_id : string) (s : N * gset string) (dependency_id : string)
    : res TransitionError (N * gset string) :=
  let '(edge_count, unique) := s in
  let? edge_count := ok_or (checked_add usize_max edge_count 1)
                       TransitionError.AcceptedPlanEdgeBudgetExceeded in
  bail_if bool_decide (MAX_ACCEPTED_PLAN_EDGES < edge_count)%N
    with TransitionError.AcceptedPlanEdgeBudgetExceeded;;
  bail_if bool_decide (dependency_id = step_id) with TransitionError.SelfDependency step_id;;
  bail_if bool_decide (dependency_id ∈ unique)
    with TransitionError.DuplicateDependency step_id dependency_id;;
  bail_if negb (bool_decide (is_Some (RunState.steps state !! dependency_id)))
          && negb (bool_decide (dependency_id ∈ proposed_ids))
    with TransitionError.UnknownDependency step_id dependency_id;;
  match RunState.steps state !! dependency_id with
  | Some existing =>
      match plan_block_reason blocked_existing dependency_id existing with
      | Some ((DependencyBlockReason.Failed | DependencyBlockReason.ManualRequired
              | DependencyBlockReason.ReceiptMissing
              | DependencyBlockReason.DependencyBlocked) as reason) =>
          Err (TransitionError.PlanDependencyBlocked step_id dependency_id reason)
      | _ => Ok (edge_count, {[dependency_id]} ∪ unique)
      end
  | None => Ok (edge_count, {[dependency_id]} ∪ unique)
  end.

(** The [StepState] an accepted plan step becomes. *)
Definition accepted_step_state (step : AcceptedPlanStep) : StepState :=
  StepState.planned (AcceptedPlanStep.step_id step) (AcceptedPlanStep.objective step)
    (AcceptedPlanStep.depends_on step) (Some (AcceptedPlanStep.invocation step)).

Definition build_accepted_step (state : RunState) (blocked_existing proposed_ids : gset string)
    (s : N * gmap string StepState) (step : AcceptedPlanStep)
    : res TransitionError (N * gmap string StepState) :=
  let '(edge_count, candidate_steps) := s in
  let? inner := for_each (check_plan_dependency state blocked_existing proposed_ids
                            (AcceptedPlanStep.step_id step))
                  (AcceptedPlanStep.depends_on step) (edge_count, ∅) in
  Ok (inner.1, <[AcceptedPlanStep.step_id step := accepted_step_state step]> candidate_steps).

Definition build_accepted_plan_candidate (state : RunState) (steps : list AcceptedPlanStep)
    (proposed_ids : gset string) : res TransitionError RunState :=
  let? frontier := map_err map_plan_frontier_error (derive_frontier state) in
  let blocked_existing : gset string :=
    list_to_set (map BlockedStep.step_id (WorkFrontier.blocked frontier)) in
  let? loop := for_each (build_accepted_step state blocked_existing proposed_ids) steps
                 (0%N, RunState.steps state) in
  Ok (RunState.set_steps loop.2 state).

(** [expected_turn] and the two checks of the decision's turn index. *)
Definition check_turn (loop_state : AgentLoopState) (decision : ExpectedPlanningTurn)
    : res TransitionError N :=
  let? expected_turn :=
    ok_or (checked_add u32_max (AgentLoopState.accepted_model_turns loop_state) 1)
      TransitionError.ModelTurnBudgetExceeded in
  bail_if bool_decide (ExpectedPlanningTurn.turn_index decision ≠ expected_turn)
    with TransitionError.UnexpectedPlanningTurn expected_turn
           (ExpectedPlanningTurn.turn_index decision);;
  bail_if bool_decide (AgentLoopBudget.max_model_turns (AgentLoopState.budget loop_state)
                       < expected_turn)%N
    with TransitionError.ModelTurnBudgetExceeded;;
  Ok expected_turn.

(** [u32::try_from(total).map_or(true, |total| total > max)]. *)
Definition exceeds (max total : N) : bool :=
  match try_from u32_max total with
  | None => true
  | Some total => bool_decide (max < total)%N
  end.

Definition accept_plan `{Crypto} (state : RunState) (decision : ExpectedPlanningTurn)
    (steps : list AcceptedPlanStep) : res TransitionError RunState :=
  let? _ := map_err TransitionError.PlanningContract (ExpectedPlanningTurn_validate decision) in
  let? _ := validate_model_call_success state decision in
  let? loop_state := require_loop state in
  bail_if bool_decide (is_Some (AgentLoopState.completion_candidate loop_state))
    with TransitionError.CompletionCandidateAlreadyRecorded;;
  let? expected_turn := check_turn loop_state decision in
  bail_if bool_decide (len steps = 0)%N || bool_decide (MAX_ACCEPTED_PLAN_STEPS < len steps)%N
    with TransitionError.AcceptedPlanStepCountInvalid (len steps);;
  let? total_steps :=
    ok_or (checked_add usize_max (N.of_nat (size (RunState.steps state))) (len steps))
      TransitionError.PlannedStepBudgetExceeded in
  bail_if exceeds (AgentLoopBudget.max_planned_steps (AgentLoopState.budget loop_state)) total_steps
    with TransitionError.PlannedStepBudgetExceeded;;
  let? proposed_ids := validate_accepted_plan_headers state decision steps in
  let? candidate := build_accepted_plan_candidate state steps proposed_ids in
  let? _ := map_err map_plan_frontier_error (derive_frontier candidate) in
  let? candidate_loop := expect (RunState.agent_loop candidate)
                           "candidate retains configured loop" in
  let? candidate_loop :=
    settle_successful_model_call (set_accepted_model_turns expected_turn candidate_loop) in
  Ok (RunState.set_agent_loop (Some candidate_loop) candidate).

(** ** Completion candidates *)

Definition record_completion_candidate (state : RunState)
    (decision : ExpectedPlanningTurn) (candidate_id summary_digest : string)
    (completion_output_record_digest : option string) : res TransitionError RunState :=
  let? _ := map_err TransitionError.PlanningContract (ExpectedPlanningTurn_validate decision) in
  let? _ := validate_model_call_success state decision in
  let? _ := map_err TransitionError.PlanningContract
              (require_planning_identifier "candidate_id" candidate_id) in
  let? _ := map_err TransitionError.PlanningContract
              (require_planning_digest "summary_digest" summary_digest) in
  let? _ := match completion_output_record_digest with
            | Some record_digest =>
                map_err TransitionError.PlanningContract
                  (require_planning_digest "completion_output_record_digest" record_digest)
            | None => Ok tt
            end in
  let? frontier := map_err map_plan_frontier_error (derive_frontier state) in
  bail_if negb (WorkFrontier.all_steps_receipt_completed frontier)
    with TransitionError.CompletionCandidateRequiresReceiptCompletedPlan;;
  let? loop_state := require_loop state in
  bail_if bool_decide (is_Some (AgentLoopState.completion_candidate loop_state))
    with TransitionError.CompletionCandidateAlreadyRecorded;;
  let? expected_turn := check_turn loop_state decision in
  let candidate := CompletionCandidateState.mk candidate_id
    (ExpectedPlanningTurn.context_digest decision) (ExpectedPlanningTurn.proposal_digest decision)
    summary_digest completion_output_record_digest in
  let? loop_state := settle_successful_model_call
    (set_completion_candidate (Some candidate) (set_accepted_model_turns expected_turn loop_state)) in
  Ok (RunState.set_agent_loop (Some loop_state) state).

(** ** Planned steps *)

Definition check_step_dependency (state : RunState) (step_id : string) (unique : gset string)
    (dependency_id : string) : res TransitionError (gset string) :=
  bail_if bool_decide (dependency_id = step_id) with TransitionError.SelfDependency step_id;;
  bail_if bool_decide (dependency_id ∈ unique)
    with TransitionError.DuplicateDependency step_id dependency_id;;
  bail_if negb (bool_decide (is_Some (RunState.steps state !! dependency_id)))
    with TransitionError.UnknownDependency step_id dependency_id;;
  Ok ({[dependency_id]} ∪ unique).

Definition plan_step (state : RunState) (step_id objective : string) (depends_on : list string)
    (planned_invocation : option PlannedInvocationBinding) : res TransitionError RunState :=
  let? _ :=
    match RunState.agent_loop state with
    | Some loop_state =>
        bail_if bool_decide (is_Some (AgentLoopState.completion_candidate loop_state))
          with TransitionError.CompletionCandidateAlreadyRecorded;;
        let? total_steps := ok_or (checked_add usize_max (N.of_nat (size (RunState.steps state))) 1)
                              TransitionError.PlannedStepBudgetExceeded in
        bail_if exceeds (AgentLoopBudget.max_planned_steps (AgentLoopState.budget loop_state))
                  total_steps
          with TransitionError.PlannedStepBudgetExceeded;;
        Ok tt
    | None => Ok tt
    end in
  bail_if bool_decide (is_Some (RunState.steps state !! step_id))
    with TransitionError.DuplicateStep step_id;;
  let? _ := for_each (check_step_dependency state step_id) depends_on ∅ in
  Ok (RunState.set_steps
        (<[step_id := StepState.planned step_id objective depends_on planned_invocation]>
           (RunState.steps state)) state).

(** What accepting a plan, planning a step and recording a completion candidate do when
    they succeed. *)

(** ** The loop side of an accepted turn *)

Lemma check_turn_Ok l decision t :
  check_turn l decision = Ok t →
  t = (AgentLoopState.accepted_model_turns l + 1)%N ∧
  t = ExpectedPlanningTurn.turn_index decision ∧
  (t ≤ AgentLoopBudget.max_model_turns (AgentLoopState.budget l))%N.
Proof. unfold check_turn. intros H. res_inv. checked_inv. split_and!; [congruence..|lia]. Qed.

Lemma settle_successful_Ok seq l l0 l' t :
  turns_ok seq l →
  AgentLoopState.budget l0 = AgentLoopState.budget l →
  AgentLoopState.model_calls l0 = AgentLoopState.model_calls l →
  AgentLoopState.accepted_model_turns l0 = t →
  t = (AgentLoopState.accepted_model_turns l + 1)%N →
  (t ≤ AgentLoopBudget.max_model_turns (AgentLoopState.budget l))%N →
  settle_successful_model_call l0 = Ok l' →
  turns_ok seq l' ∧ AgentLoopState.budget l' = AgentLoopState.budget l ∧
  AgentLoopState.accepted_model_turns l' = t ∧
  AgentLoopState.completion_candidate l' = AgentLoopState.completion_candidate l0 ∧
  ∀ c, AgentLoopState.model_calls l' = Some c → ModelCallLifecycleState.active_call c = None.
Proof.
  intros [Hb Hc] Hbud Hcalls Ht -> Hle Hs. unfold settle_successful_model_call in Hs.
  rewrite Hcalls in Hs. destruct (AgentLoopState.model_calls l) as [c|] eqn:Ec.
  - res_inv. require_inv. cbn.
    match goal with Hs : settle_calls c = Ok ?c' |- _ =>
      destruct (settled_ok l seq c c' (set_model_calls (Some c') l0)) as [Hok Hnone];
        [by apply Hc|exact Hs|by eexists|cbn; lia|] end.
    split_and!; [split; cbn; [by rewrite Ht, Hbud|]|done..|].
    + intros c' [= <-]. exact Hok.
    + intros c' [= <-]. exact Hnone.
  - res_inv. split_and!; [split|done..|]; rewrite ?Hcalls; try done.
    rewrite Hbud. lia.
Qed.

(** ** Steps a plan adds *)

Definition planned_into (old : gmap string StepState) (plan : list AcceptedPlanStep)
    : gmap string StepState :=
  foldl (λ m p, <[AcceptedPlanStep.step_id p := accepted_step_state p]> m) old plan.

Definition plan_ids (plan : list AcceptedPlanStep) : list string := map AcceptedPlanStep.step_id plan.
Definition plan_actions (plan : list AcceptedPlanStep) : list string :=
  map (λ p, PlannedInvocationBinding.action_digest (AcceptedPlanStep.invocation p)) plan.

Lemma plan_ids_snoc pre p : plan_ids (pre ++ [p]) = plan_ids pre ++ [AcceptedPlanStep.step_id p].
Proof. apply map_app. Qed.
Lemma plan_actions_snoc pre p :
  plan_actions (pre ++ [p])
  = plan_actions pre ++ [PlannedInvocationBinding.action_digest (AcceptedPlanStep.invocation p)].
Proof. apply map_app. Qed.

Lemma planned_into_app old p1 p2 :
  planned_into old (p1 ++ p2) = planned_into (planned_into old p1) p2.
Proof. apply foldl_app. Qed.

Lemma planned_into_old old plan id :
  id ∉ plan_ids plan → planned_into old plan !! id = old !! id.
Proof.
  revert old. induction plan as [|p plan IH]; intros old Hid; [done|]. cbn in Hid |- *.
  apply not_elem_of_cons in Hid as [Hne Hid]. rewrite IH by done.
  by rewrite lookup_insert_ne.
Qed.

Lemma planned_into_inv old plan id st :
  planned_into old plan !! id = Some st →
  old !! id = Some st ∨ ∃ p, p ∈ plan ∧ id = AcceptedPlanStep.step_id p ∧ st = accepted_step_state p.
Proof.
  revert old. induction plan as [|p plan IH]; intros old; [by left|]. cbn.
  intros [Hold|(q & Hq & Hid & Hst)]%IH; [|right; exists q; set_solver].
  apply lookup_insert_Some in Hold as [[<- <-]|[_ Hold]]; [|by left].
  right. exists p. set_solver.
Qed.

Lemma planned_into_new old plan p :
  NoDup (plan_ids plan) → p ∈ plan →
  planned_into old plan !! AcceptedPlanStep.step_id p = Some (accepted_step_state p).
Proof.
  revert old. induction plan as [|q plan IH]; intros old Hnd Hp; [by apply elem_of_nil in Hp|].
  cbn in Hnd |- *. apply NoDup_cons in Hnd as [Hq Hnd].
  apply elem_of_cons in Hp as [->|Hp]; [|by apply IH].
  change (planned_into (<[AcceptedPlanStep.step_id q:=accepted_step_state q]> old) plan
            !! AcceptedPlanStep.step_id q = Some (accepted_step_state q)).
  rewrite planned_into_old by done. by rewrite lookup_insert_eq.
Qed.

Lemma planned_into_size old plan :
  NoDup (plan_ids plan) → (∀ id, id ∈ plan_ids plan → old !! id = None) →
  size (planned_into old plan) = size old + length plan.
Proof.
  revert old. induction plan as [|p plan IH]; intros old Hnd Hfresh; cbn; [lia|].
  cbn in Hnd, Hfresh. apply NoDup_cons in Hnd as [Hp Hnd].
  change (size (planned_into (<[AcceptedPlanStep.step_id p:=accepted_step_state p]> old) plan)
          = size old + S (length plan)).
  rewrite IH; [|done|].
  - rewrite map_size_insert_None by (apply Hfresh; left). lia.
  - intros id Hid. rewrite lookup_insert_ne by set_solver. apply Hfresh. by right.
Qed.

(** ** Headers *)

(** The steps an action may already belong to. *)
Definition owners_within (owners : gmap string string) (known : string → Prop) : Prop :=
  ∀ a o, owners !! a = Some o → known o.

Lemma claim_action_Ok id owners a owners' :
  claim_action id owners a = Ok owners' →
  owners' = <[a := id]> owners ∧ (owners !! a = None ∨ owners !! a = Some id).
Proof. unfold claim_action. intros H. res_inv; eauto. Qed.

(** The actions of the steps of a run. *)
Definition run_actions (state : RunState) : list string :=
  concat (map step_actions (btree_values (RunState.steps state))).

Lemma existing_owners_Ok state owners :
  (∀ id st, RunState.steps state !! id = Some st → StepState.step_id st = id) →
  existing_action_owners state = Ok owners →
  owners_within owners (λ o, is_Some (RunState.steps state !! o)) ∧
  ∀ a, a ∈ run_actions state → is_Some (owners !! a).
Proof.
  intros Hkeys. unfold existing_action_owners, run_actions. intros Hrun.
  apply (for_each_inv _ (λ pre owners,
    owners_within owners (λ o, is_Some (RunState.steps state !! o)) ∧
    ∀ a, a ∈ concat (map step_actions pre) → is_Some (owners !! a))) in Hrun; [done| |].
  - split; [intros a o; by rewrite lookup_empty|]. cbn. intros a Ha. by apply elem_of_nil in Ha.
  - intros pre st rest t t' Hl [Hw Hd] Hinner.
    assert (Hst : is_Some (RunState.steps state !! StepState.step_id st)).
    { assert (st ∈ btree_values (RunState.steps state)) as [id Hid]%elem_of_btree_values.
      { rewrite Hl. set_solver. }
      rewrite (Hkeys _ _ Hid). by exists st. }
    apply (for_each_inv _ (λ done_ owners,
      owners_within owners (λ o, is_Some (RunState.steps state !! o)) ∧
      ∀ a, a ∈ concat (map step_actions pre) ++ done_ → is_Some (owners !! a))) in Hinner.
    + rewrite map_app, concat_app. cbn. rewrite app_nil_r. exact Hinner.
    + by rewrite app_nil_r.
    + intros pre' a rest' o o' _ [Hw' Hd'] [-> _]%claim_action_Ok. split.
      * intros b i. rewrite lookup_insert_Some. intros [[_ <-]|[_ ?]]; [done|by eapply Hw'].
      * intros b Hb. destruct (decide (a = b)) as [->|Hne]; [by rewrite lookup_insert_eq|].
        rewrite lookup_insert_ne by done. apply Hd'. set_solver.
Qed.

Section headers.
Context `{Crypto} (state : RunState) (decision : ExpectedPlanningTurn).

Record headers_ok (pre : list AcceptedPlanStep) (ids : gset string) : Prop := {
  hd_ids : ids = list_to_set (plan_ids pre);
  hd_NoDup : NoDup (plan_ids pre);
  hd_fresh id : id ∈ plan_ids pre → RunState.steps state !! id = None;
  hd_actions : NoDup (plan_actions pre);
  hd_foreign a : a ∈ plan_actions pre → a ∉ run_actions state;
  hd_valid p : p ∈ pre → PlannedInvocationBinding_validate (AcceptedPlanStep.invocation p) = Ok tt ∧
    PlannedInvocationBinding.proposal_digest (AcceptedPlanStep.invocation p)
      = ExpectedPlanningTurn.proposal_digest decision ∧
    validate_accepted_objective (AcceptedPlanStep.objective p) = Ok tt;
}.

Lemma headers_step pre ids owners p s' :
  (∀ a, a ∈ run_actions state → is_Some (owners !! a)) →
  (∀ a, a ∈ plan_actions pre → is_Some (owners !! a)) →
  owners_within owners (λ o, is_Some (RunState.steps state !! o) ∨ o ∈ plan_ids pre) →
  headers_ok pre ids →
  validate_accepted_plan_header state decision (ids, owners) p = Ok s' →
  headers_ok (pre ++ [p]) s'.1 ∧
  s'.2 = <[PlannedInvocationBinding.action_digest (AcceptedPlanStep.invocation p)
           := AcceptedPlanStep.step_id p]> owners.
Proof.
  intros Hrun Hpre Hw [-> Hnd Hfresh Hact Hforeign Hvalid] Hs.
  unfold validate_accepted_plan_header in Hs. res_inv. bool_inv.
  match goal with Hc : claim_action _ _ _ = Ok _ |- _ => apply claim_action_Ok in Hc as [-> Hown] end.
  set (id := AcceptedPlanStep.step_id p) in *.
  set (act := PlannedInvocationBinding.action_digest (AcceptedPlanStep.invocation p)) in *.
  assert (Hid : id ∉ plan_ids pre) by set_solver.
  assert (Hnone : owners !! act = None).
  { destruct Hown as [|Ho]; [done|]. destruct (Hw _ _ Ho) as [[? ?]|?]; [congruence|done]. }
  split; [|done]. split; rewrite ?plan_ids_snoc, ?plan_actions_snoc; fold id act.
  - rewrite list_to_set_app_L. cbn. set_solver.
  - apply NoDup_app. split_and!; [done|set_solver|apply NoDup_singleton].
  - intros i.
    intros [Hi| ->%list_elem_of_singleton]%elem_of_app; [by apply Hfresh|done].
  - apply NoDup_app. split_and!; [done| |apply NoDup_singleton].
    intros a' Ha ->%list_elem_of_singleton. destruct (Hpre _ Ha) as [? Hs]. fold act in Hs. congruence.
  - intros a'.
    intros [Ha| ->%list_elem_of_singleton]%elem_of_app; [by apply Hforeign|].
    intros Ha. destruct (Hrun _ Ha) as [? Hs]. fold act in Hs. congruence.
  - intros q [Hq| ->%list_elem_of_singleton]%elem_of_app; [by apply Hvalid|].
    destruct a, a0, a1. done.
Qed.
End headers.

Section accept.
Context `{Crypto} (state : RunState).
Hypothesis Hkeys : ∀ id st, RunState.steps state !! id = Some st → StepState.step_id st = id.

Lemma headers_run decision plan ids :
  validate_accepted_plan_headers state decision plan = Ok ids →
  headers_ok state decision plan ids.
Proof.
  unfold validate_accepted_plan_headers. intros Hv. res_inv.
  match goal with Ho : existing_action_owners _ = Ok _ |- _ =>
    apply existing_owners_Ok in Ho as [Hw Hrun]; [|exact Hkeys] end.
  match goal with Hl : for_each _ _ _ = Ok ?s |- _ => rename Hl into Hloop end.
  apply (for_each_inv _ (λ pre s, headers_ok state decision pre s.1 ∧
    (∀ a, a ∈ run_actions state → is_Some (s.2 !! a)) ∧
    (∀ a, a ∈ plan_actions pre → is_Some (s.2 !! a)) ∧
    owners_within s.2 (λ o, is_Some (RunState.steps state !! o) ∨ o ∈ plan_ids pre)))
    in Hloop as [? _]; [done| |].
  - split_and!; cbn; [split; cbn; try constructor; set_solver|done|set_solver|].
    intros b o Ho. left. by eapply Hw.
  - intros pre p rest [ids1 ow1] s' _ (Hok & Hr & Hp & Hwi) Hs. cbn in *.
    destruct (headers_step state decision pre ids1 ow1 p s' Hr Hp Hwi Hok Hs) as [Hok' Hs2].
    split_and!; [done|..]; rewrite Hs2.
    + intros b Hb. rewrite lookup_insert_is_Some. destruct (decide (PlannedInvocationBinding.action_digest (AcceptedPlanStep.invocation p) = b)); [by left|right; split; [done|by apply Hr]].
    + intros b. rewrite plan_actions_snoc. intros Hb. rewrite lookup_insert_is_Some.
      destruct (decide (PlannedInvocationBinding.action_digest (AcceptedPlanStep.invocation p) = b)) as [|Hne]; [by left|].
      right. split; [done|]. apply Hp. set_solver.
    + intros b o. rewrite lookup_insert_Some, plan_ids_snoc. intros [[_ <-]|[_ Ho]]; [set_solver|].
      destruct (Hwi _ _ Ho); [by left|set_solver].
Qed.

Lemma build_candidate_Ok plan ids candidate :
  build_accepted_plan_candidate state plan ids = Ok candidate →
  candidate = RunState.set_steps (planned_into (RunState.steps state) plan) state ∧
  is_ok (derive_frontier state).
Proof.
  unfold build_accepted_plan_candidate. intros Hb. res_inv. split; [|by eexists].
  f_equal. match goal with Hl : for_each _ _ _ = Ok ?s |- _ => rename Hl into Hloop end.
  apply (for_each_inv _ (λ pre s, s.2 = planned_into (RunState.steps state) pre)) in Hloop; [done|done|].
  intros pre p rest [n m] s' _ Hm Hs. cbn in Hm. subst m. unfold build_accepted_step in Hs.
  res_inv. by rewrite planned_into_app.
Qed.

(** What an accepted plan has passed and what it changes. *)
Record plan_accepted (decision : ExpectedPlanningTurn) (plan : list AcceptedPlanStep)
    (l l' : AgentLoopState) (f : WorkFrontier) : Prop := {
  pa_loop : RunState.agent_loop state = Some l;
  pa_open : AgentLoopState.completion_candidate l = None;
  pa_budget : AgentLoopState.budget l' = AgentLoopState.budget l;
  pa_turn : AgentLoopState.accepted_model_turns l' = (AgentLoopState.accepted_model_turns l + 1)%N;
  pa_turn_index : ExpectedPlanningTurn.turn_index decision
                  = (AgentLoopState.accepted_model_turns l + 1)%N;
  pa_open' : AgentLoopState.completion_candidate l' = None;
  pa_turns : turns_ok (RunState.journal_sequence state) l →
             turns_ok (RunState.journal_sequence state) l';
  pa_nonempty : 1 ≤ length plan ≤ 32;
  pa_size : (N.of_nat (size (RunState.steps state) + length plan) ≤ u32_max)%N ∧
            (N.of_nat (size (RunState.steps state) + length plan)
             ≤ AgentLoopBudget.max_planned_steps (AgentLoopState.budget l))%N;
  pa_headers : headers_ok state decision plan (list_to_set (plan_ids plan));
  pa_before : is_ok (derive_frontier state);
  pa_frontier : derive_frontier
    (RunState.set_steps (planned_into (RunState.steps state) plan) state) = Ok f;
}.

Lemma exceeds_false max n : exceeds max n = false → (n ≤ u32_max)%N ∧ (n ≤ max)%N.
Proof. unfold exceeds. intros H1. res_inv. checked_inv. bool_inv. lia. Qed.

(** The loop written back, whatever the counters were before. *)
Lemma settle_successful_shape l0 l' :
  settle_successful_model_call l0 = Ok l' →
  AgentLoopState.budget l' = AgentLoopState.budget l0 ∧
  AgentLoopState.accepted_model_turns l' = AgentLoopState.accepted_model_turns l0 ∧
  AgentLoopState.completion_candidate l' = AgentLoopState.completion_candidate l0.
Proof. unfold settle_successful_model_call. intros H1. by res_inv. Qed.

Lemma accept_plan_Ok decision plan state' :
  accept_plan state decision plan = Ok state' →
  ∃ l l' f, plan_accepted decision plan l l' f ∧
    state' = RunState.set_agent_loop (Some l')
               (RunState.set_steps (planned_into (RunState.steps state) plan) state).
Proof.
  unfold accept_plan. intros Ha. res_inv. require_inv. checked_inv. bool_inv.
  repeat match goal with
  | Hh : validate_accepted_plan_headers _ _ _ = Ok _ |- _ => apply headers_run in Hh
  | Hb : build_accepted_plan_candidate _ _ _ = Ok _ |- _ => apply build_candidate_Ok in Hb as [-> ?]
  | He : exceeds _ _ = false |- _ => apply exceeds_false in He as [? ?]
  | Ht : check_turn _ _ = Ok _ |- _ => apply check_turn_Ok in Ht as (? & ? & ?)
  end.
  match goal with Hc : RunState.agent_loop (RunState.set_steps _ _) = Some ?l' |- _ =>
    change (RunState.agent_loop state = Some l') in Hc end. simplify_eq.
  match goal with Hs : settle_successful_model_call _ = Ok _ |- _ => rename Hs into Hsettle end.
  match goal with Hh : headers_ok _ _ _ ?ids |- _ =>
    pose proof (hd_ids _ _ _ _ Hh); subst ids; rename Hh into Hheaders end.
  destruct (settle_successful_shape _ _ Hsettle) as (Hbud & Hacc & Hcand). cbn in Hbud, Hacc, Hcand.
  do 3 eexists. split; [|reflexivity]. unfold len, MAX_ACCEPTED_PLAN_STEPS in *.
  split; try done; try congruence; try lia.
  intros Ht. eapply settle_successful_Ok in Hsettle as [Hok _]; [exact Hok|exact Ht|reflexivity|reflexivity|reflexivity|cbn; congruence|cbn; lia].
Qed.

End accept.

(** A recorded completion candidate. *)
Lemma record_completion_Ok state decision cid summary output state' :
  record_completion_candidate state decision cid summary output = Ok state' →
  ∃ l l' f, RunState.agent_loop state = Some l ∧
    state' = RunState.set_agent_loop (Some l') state ∧
    AgentLoopState.budget l' = AgentLoopState.budget l ∧
    AgentLoopState.completion_candidate l = None ∧
    AgentLoopState.completion_candidate l' = Some (CompletionCandidateState.mk cid
      (ExpectedPlanningTurn.context_digest decision)
      (ExpectedPlanningTurn.proposal_digest decision) summary output) ∧
    (turns_ok (RunState.journal_sequence state) l → turns_ok (RunState.journal_sequence state) l') ∧
    derive_frontier state = Ok f ∧ WorkFrontier.all_steps_receipt_completed f = true.
Proof.
  unfold record_completion_candidate. intros Ha. res_inv. all: require_inv; bool_inv.
  all: match goal with Ht : check_turn _ _ = Ok _ |- _ => apply check_turn_Ok in Ht as (? & ? & ?) end.
  all: match goal with Hs : settle_successful_model_call _ = Ok _ |- _ => rename Hs into Hsettle end.
  all: destruct (settle_successful_shape _ _ Hsettle) as (Hbud & Hacc & Hcand); cbn in Hbud, Hacc, Hcand.
  all: do 3 eexists; split_and!; try done.
  all: intros Ht; eapply settle_successful_Ok in Hsettle as [Hok _]; [exact Hok|exact Ht|reflexivity|reflexivity|reflexivity|cbn; congruence|cbn; lia].
Qed.

(** ** Planned steps *)

Lemma check_dependencies_Ok state id deps u :
  for_each (check_step_dependency state id) deps ∅ = Ok u →
  NoDup deps ∧ id ∉ deps ∧ ∀ d, d ∈ deps → is_Some (RunState.steps state !! d).
Proof.
  intros Hl. apply (for_each_inv _ (λ pre u, u = list_to_set pre ∧ NoDup pre ∧ id ∉ pre ∧
    ∀ d, d ∈ pre → is_Some (RunState.steps state !! d))) in Hl as (_ & ?); [done| |].
  - split_and!; [done|constructor|set_solver|set_solver].
  - intros pre d rest s s' _ (-> & Hnd & Hid & Hk) Hs. unfold check_step_dependency in Hs.
    res_inv. bool_inv. split_and!.
    + rewrite list_to_set_app_L. cbn. set_solver.
    + apply NoDup_app. split_and!; [done|set_solver|apply NoDup_singleton].
    + set_solver.
    + intros d' [?| ->%list_elem_of_singleton]%elem_of_app; by eauto.
Qed.

Lemma plan_step_Ok state id objective deps inv state' :
  plan_step state id objective deps inv = Ok state' →
  state' = RunState.set_steps
             (<[id := StepState.planned id objective deps inv]> (RunState.steps state)) state ∧
  RunState.steps state !! id = None ∧ NoDup deps ∧ id ∉ deps ∧
  (∀ d, d ∈ deps → is_Some (RunState.steps state !! d)) ∧
  ∀ l, RunState.agent_loop state = Some l →
    AgentLoopState.completion_candidate l = None ∧
    (N.of_nat (S (size (RunState.steps state))) ≤ u32_max)%N ∧
    (N.of_nat (S (size (RunState.steps state)))
     ≤ AgentLoopBudget.max_planned_steps (AgentLoopState.budget l))%N.
Proof.
  unfold plan_step. intros Hp. res_inv; checked_inv; bool_inv;
    match goal with Hl : for_each _ _ _ = Ok _ |- _ => apply check_dependencies_Ok in Hl as (? & ? & ?) end;
    split_and!; try done; intros l Hl; simplify_eq.
  match goal with He : exceeds _ _ = false |- _ => apply exceeds_false in He as [? ?] end.
  split_and!; [done|lia|lia].
Qed.
