(* ===== verification/Effects.v ===== *)
(** The effect part of the reducer: committing an intent under a one-shot authorization and
    the lifecycle events of a committed effect (crates/xgeny-workgraph/src/lib.rs). *)

From Stdlib Require Import Ascii.
From S2P Require Import Prelude Text Wire WorkGraphTypes WorkGraphErrors WorkGraphWire Planning.
From S2P Require Import Material ToolOutput Frontier AgentLoop.

(** ** Access to steps *)

Definition step_mut (state : RunState) (step_id : string) : res TransitionError StepState :=
  ok_or (RunState.steps state !! step_id) (TransitionError.UnknownStep step_id).

Definition matching_step_mut (state : RunState) (step_id effect_id : string)
    : res TransitionError StepState :=
  let? step := step_mut state step_id in
  let actual := EffectIntent.effect_id <$> StepState.intent step in
  bail_if bool_decide (actual ≠ Some effect_id)
    with TransitionError.EffectMismatch step_id actual effect_id;;
  Ok step.

(** Writing through the [&mut StepState]. *)
Definition put_step (state : RunState) (step_id : string) (step : StepState) : RunState :=
  RunState.set_steps (<[step_id := step]> (RunState.steps state)) state.

Definition invalid_transition {T} (step : StepState) (body : RunEventBody) : res TransitionError T :=
  Err (TransitionError.InvalidStepTransition (StepState.step_id step) (StepState.status step)
         (RunEventBody.kind body)).

Definition require_status (step : StepState) (required : StepStatus) (body : RunEventBody)
    : res TransitionError unit :=
  if bool_decide (StepState.status step ≠ required) then invalid_transition step body else Ok tt.

(** [intent.as_ref().and_then(receipt_provenance).and_then(tool_output_profile)]. *)
Definition tool_output_profile_of (step : StepState) : option string :=
  intent ← StepState.intent step;
  provenance ← EffectIntent.receipt_provenance intent;
  ReceiptProvenance.tool_output_profile provenance.

(** ** Committing an intent *)

Definition validate_tool_output_profile (intent : EffectIntent) : res TransitionError unit :=
  match EffectIntent.receipt_provenance intent ≫= ReceiptProvenance.tool_output_profile with
  | Some profile =>
      bail_if bool_decide (profile ≠ TOOL_OUTPUT_PROFILE_V1)
              || negb (bool_decide (EffectIntent.effect_class intent
                   ∈ [EffectClass.ReadOnly; EffectClass.Idempotent; EffectClass.NonIdempotent]))
        with TransitionError.UnsupportedToolOutputProfile (EffectIntent.effect_id intent);;
      Ok tt
  | None => Ok tt
  end.

(** [idempotency_key.as_ref().is_none_or(String::is_empty)]. *)
Definition key_missing (key : option string) : bool :=
  match key with None => true | Some key => is_empty key end.

Definition validate_planned_execution_profile (step : StepState)
    (planned : PlannedInvocationBinding) (intent : EffectIntent) (provenance : ReceiptProvenance)
    : res TransitionError unit :=
  let mismatch field := TransitionError.PlannedInvocationMismatch (StepState.step_id step) field in
  let? _ :=
    match PlannedInvocationBinding.execution_profile planned with
    | PlannedExecutionProfile.LocalSyncOnceV1
    | PlannedExecutionProfile.LocalSyncOnceOccurrenceV1 =>
        bail_if bool_decide (EffectIntent.effect_class intent = EffectClass.ReadOnly)
          with mismatch "effect_class";;
        bail_if key_missing (EffectIntent.idempotency_key intent)
          with mismatch "idempotency_key";;
        Ok tt
    | PlannedExecutionProfile.LocalSyncReadOnlyV1
    | PlannedExecutionProfile.LocalSyncReadOnlyOccurrenceV1 =>
        bail_if bool_decide (EffectIntent.effect_class intent ≠ EffectClass.ReadOnly)
          with mismatch "effect_class";;
        bail_if bool_decide (is_Some (EffectIntent.idempotency_key intent))
          with mismatch "idempotency_key";;
        bail_if bool_decide (EffectIntent.sink_guarantee intent ≠ SinkGuarantee.None)
          with mismatch "sink_guarantee";;
        Ok tt
    end in
  bail_if bool_decide (ReceiptProvenance.executor_placement provenance ≠ ReceiptPlacement.Local)
    with mismatch "receipt_provenance.executor_placement";;
  let expected_platform := (PlannedInvocationBinding.target_os planned +:+ "-"
                            +:+ PlannedInvocationBinding.target_arch planned)%string in
  bail_if bool_decide (ReceiptProvenance.executor_platform provenance ≠ expected_platform)
    with mismatch "receipt_provenance.executor_platform";;
  Ok tt.

Definition validate_planned_invocation_binding `{Crypto} (step : StepState) (intent : EffectIntent)
    : res TransitionError unit :=
  match StepState.planned_invocation step with
  | None => Ok tt
  | Some planned =>
      let mismatch field :=
        TransitionError.PlannedInvocationMismatch (StepState.step_id step) field in
      let invocation := EffectIntent.invocation intent in
      let? _ := map_err TransitionError.PlanningContract (PlannedInvocationBinding_validate planned) in
      match first_mismatch [
          ("capability_id", bool_decide (PlannedInvocationBinding.capability_id planned
                                         = InvocationBinding.capability_id invocation));
          ("contract_version", bool_decide (PlannedInvocationBinding.contract_version planned
                                            = InvocationBinding.contract_version invocation));
          ("definition_digest", bool_decide (PlannedInvocationBinding.definition_digest planned
                                             = InvocationBinding.definition_digest invocation));
          ("action_digest", bool_decide (PlannedInvocationBinding.action_digest planned
                                         = EffectIntent.action_digest intent));
          ("plan_input_digest", bool_decide (PlannedInvocationBinding.plan_input_digest planned
             = AuthorizationBinding.material_digest
                 (AuthorizationUse.binding (EffectIntent.authorization intent))))] with
      | Some field => Err (mismatch field)
      | None =>
          let? provenance := ok_or (EffectIntent.receipt_provenance intent)
                               (mismatch "receipt_provenance.plan_id") in
          bail_if bool_decide (ReceiptProvenance.plan_id provenance
                               ≠ PlannedInvocationBinding.plan_id planned)
            with mismatch "receipt_provenance.plan_id";;
          validate_planned_execution_profile step planned intent provenance
      end
  end.

(** The derived [candidate < current]. *)
Definition blocker_lt (a b : DependencyBlocker) : bool :=
  bool_decide (DependencyBlocker.le a b) && negb (bool_decide (a = b)).

Definition keep_least_blocker (state : RunState) (step : StepState)
    (first : option DependencyBlocker) (dependency_id : string)
    : res TransitionError (option DependencyBlocker) :=
  let? dependency := ok_or (RunState.steps state !! dependency_id)
    (TransitionError.UnknownDependency (StepState.step_id step) dependency_id) in
  match dependency_release_block_reason dependency with
  | Some reason =>
      let candidate := DependencyBlocker.mk dependency_id reason in
      Ok (match first with
          | Some current => if blocker_lt candidate current then Some candidate else first
          | None => Some candidate
          end)
  | None => Ok first
  end.

Definition first_unreleased_dependency (state : RunState) (step : StepState)
    : res TransitionError (option DependencyBlocker) :=
  for_each (keep_least_blocker state step) (StepState.depends_on step) None.

Definition validate_authorization_binding `{Crypto} (state : RunState) (step_id : string)
    (intent : EffectIntent) : res TransitionError unit :=
  let authorization := EffectIntent.authorization intent in
  let binding := AuthorizationUse.binding authorization in
  let invocation := EffectIntent.invocation intent in
  let grant_id := AuthorizationUse.grant_id authorization in
  bail_if bool_decide (AuthorizationBinding.run_id binding ≠ RunState.run_id state)
    with TransitionError.AuthorizationRunMismatch grant_id;;
  bail_if bool_decide (AuthorizationBinding.step_id binding ≠ step_id)
    with TransitionError.AuthorizationStepMismatch grant_id;;
  bail_if bool_decide (AuthorizationBinding.authority binding ≠ RunState.authority state)
    with TransitionError.AuthorizationAuthorityMismatch grant_id;;
  bail_if bool_decide (AuthorizationBinding.authority_epoch binding ≠ RunState.authority_epoch state)
    with TransitionError.AuthorizationEpochMismatch grant_id;;
  bail_if bool_decide (AuthorizationBinding.issued_at_sequence binding
                       ≠ RunState.journal_sequence state)
          || bool_decide (AuthorizationBinding.issued_at_head_digest binding
                          ≠ RunState.journal_head_digest state)
    with TransitionError.AuthorizationHeadMismatch grant_id;;
  bail_if bool_decide (AuthorizationBinding.action_digest binding ≠ EffectIntent.action_digest intent)
    with TransitionError.AuthorizationActionMismatch grant_id;;
  bail_if bool_decide (AuthorizationBinding.capability_id binding
                       ≠ InvocationBinding.capability_id invocation)
          || bool_decide (AuthorizationBinding.contract_version binding
                          ≠ InvocationBinding.contract_version invocation)
          || bool_decide (AuthorizationBinding.definition_digest binding
                          ≠ InvocationBinding.definition_digest invocation)
          || bool_decide (AuthorizationBinding.instance_id binding
                          ≠ InvocationBinding.instance_id invocation)
          || bool_decide (AuthorizationBinding.instance_binding_digest binding
                          ≠ InvocationBinding.instance_binding_digest invocation)
    with TransitionError.AuthorizationInvocationMismatch grant_id;;
  let? expected_id := map_err TransitionError.AuthorizationDigest
    (once_authorization_id (AuthorizationBinding.run_id binding)
       (AuthorizationBinding.action_digest binding)) in
  bail_if bool_decide (grant_id ≠ expected_id)
    with TransitionError.AuthorizationIdMismatch grant_id;;
  let? expected := map_err TransitionError.AuthorizationDigest
    (authorization_digest binding (AuthorizationUse.max_uses authorization)) in
  bail_if bool_decide (AuthorizationUse.grant_digest authorization ≠ expected)
    with TransitionError.AuthorizationDigestMismatch grant_id;;
  Ok tt.

(** The provenance of the intent against the digest the authorization covers. *)
Definition check_receipt_provenance `{Crypto} (intent : EffectIntent) : res TransitionError unit :=
  match EffectIntent.receipt_provenance intent,
        AuthorizationBinding.receipt_provenance_digest
          (AuthorizationUse.binding (EffectIntent.authorization intent)) with
  | Some provenance, Some expected =>
      let? actual := map_err TransitionError.AuthorizationDigest
                       (receipt_provenance_digest provenance) in
      bail_if bool_decide (actual ≠ expected)
        with TransitionError.ReceiptProvenanceDigestMismatch (EffectIntent.effect_id intent);;
      Ok tt
  | None, None => Ok tt
  | _, _ => Err (TransitionError.ReceiptProvenanceBindingMismatch (EffectIntent.effect_id intent))
  end.

(** [state.steps.values().any(..)]: some step already has this effect. *)
Definition effect_known (state : RunState) (effect_id : string) : bool :=
  existsb (λ step, match StepState.intent step with
                   | Some existing => bool_decide (EffectIntent.effect_id existing = effect_id)
                   | None => false
                   end) (btree_values (RunState.steps state)).

(** The authorization budget after one more use: [entry(..).or_insert_with(..)], the two
    checks, [uses += 1] and the effect id. *)
Definition consume_authorization (state : RunState) (intent : EffectIntent)
    : res TransitionError (gmap string AuthorizationConsumption) :=
  let authorization := EffectIntent.authorization intent in
  let grant_id := AuthorizationUse.grant_id authorization in
  let consumption :=
    default (AuthorizationConsumption.mk (AuthorizationUse.grant_digest authorization)
               (AuthorizationUse.max_uses authorization) 0 ∅)
      (RunState.authorization_consumption state !! grant_id) in
  bail_if bool_decide (AuthorizationConsumption.grant_digest consumption
                       ≠ AuthorizationUse.grant_digest authorization)
          || bool_decide (AuthorizationConsumption.max_uses consumption
                          ≠ AuthorizationUse.max_uses authorization)
    with TransitionError.AuthorizationGrantChanged grant_id;;
  bail_if bool_decide (AuthorizationConsumption.max_uses consumption
                       ≤ AuthorizationConsumption.uses consumption)%N
    with TransitionError.AuthorizationBudgetExceeded grant_id
           (AuthorizationConsumption.max_uses consumption);;
  Ok (<[grant_id := AuthorizationConsumption.mk
          (AuthorizationConsumption.grant_digest consumption)
          (AuthorizationConsumption.max_uses consumption)
          (AuthorizationConsumption.uses consumption + 1)
          ({[EffectIntent.effect_id intent]} ∪ AuthorizationConsumption.effect_ids consumption)]>
        (RunState.authorization_consumption state)).

Definition commit_effect_intent `{Crypto} (state : RunState) (step_id : string)
    (intent : EffectIntent) : res TransitionError RunState :=
  let effect_id := EffectIntent.effect_id intent in
  let? _ := validate_tool_output_profile intent in
  let? _ := check_receipt_provenance intent in
  bail_if bool_decide (AuthorizationUse.max_uses (EffectIntent.authorization intent) ≠ 1)%N
    with TransitionError.InvalidAuthorizationBudget
           (AuthorizationUse.grant_id (EffectIntent.authorization intent));;
  bail_if bool_decide (EffectIntent.sink_guarantee intent ≠ SinkGuarantee.None)
          && key_missing (EffectIntent.idempotency_key intent)
    with TransitionError.SinkGuaranteeRequiresIdempotencyKey effect_id;;
  bail_if bool_decide (EffectIntent.effect_class intent = EffectClass.ReadOnly)
          && (bool_decide (is_Some (EffectIntent.idempotency_key intent))
              || bool_decide (EffectIntent.sink_guarantee intent ≠ SinkGuarantee.None))
    with TransitionError.ReadOnlyEffectSemanticsInvalid effect_id;;
  bail_if effect_known state effect_id with TransitionError.DuplicateEffect effect_id;;
  let? step := ok_or (RunState.steps state !! step_id) (TransitionError.UnknownStep step_id) in
  let? _ := require_status step StepStatus.Planned
              (RunEventBody.EffectIntentCommitted step_id intent) in
  let? blocker := first_unreleased_dependency state step in
  match blocker with
  | Some blocker =>
      Err (TransitionError.DependencyNotReleased step_id (DependencyBlocker.step_id blocker)
             (DependencyBlocker.reason blocker))
  | None =>
      let? _ := validate_planned_invocation_binding step intent in
      let? _ := validate_authorization_binding state step_id intent in
      let? consumption := consume_authorization state intent in
      let? step := expect (RunState.steps state !! step_id)
                     "step was checked before authorization mutation" in
      Ok (put_step (RunState.set_consumption consumption state) step_id
            (StepState.set_status StepStatus.IntentCommitted
               (StepState.set_intent (Some intent) step)))
  end.

(** ** Lifecycle events *)

Definition mark_material_unavailable (state : RunState) (step_id effect_id : string)
    (reason : InvocationMaterialUnavailableReason) (body : RunEventBody)
    : res TransitionError RunState :=
  let? step := matching_step_mut state step_id effect_id in
  let? _ := require_status step StepStatus.IntentCommitted body in
  Ok (put_step state step_id
        (StepState.set_uncertainty (Some (InvocationMaterialUnavailableReason.code reason))
           (StepState.set_status StepStatus.ManualRequired step))).

Definition record_execution_started (state : RunState) (step_id effect_id : string)
    (body : RunEventBody) : res TransitionError RunState :=
  let? _ :=
    match RunState.agent_loop state with
    | Some loop_state =>
        let? starts := total_attempts state in
        bail_if bool_decide (AgentLoopBudget.max_tool_calls (AgentLoopState.budget loop_state)
                             ≤ starts)%N
          with TransitionError.ToolCallBudgetExceeded;;
        Ok tt
    | None => Ok tt
    end in
  let? step := matching_step_mut state step_id effect_id in
  let? _ := require_status step StepStatus.IntentCommitted body in
  let? attempts := ok_or (checked_add u32_max (StepState.attempts step) 1)
                     (TransitionError.AttemptOverflow step_id) in
  Ok (put_step state step_id
        (StepState.set_attempts attempts (StepState.set_status StepStatus.Executing step))).

Definition record_effect_observation (state : RunState) (step_id effect_id evidence_digest : string)
    (output_record_digest : option string) (next_status : StepStatus) (body : RunEventBody)
    : res TransitionError RunState :=
  let? step := matching_step_mut state step_id effect_id in
  let? _ := require_status step StepStatus.Executing body in
  let? _ :=
    match output_record_digest with
    | Some output_record_digest =>
        bail_if bool_decide (tool_output_profile_of step ≠ Some TOOL_OUTPUT_PROFILE_V1)
          with TransitionError.UnexpectedToolOutputRecord effect_id;;
        bail_if negb (is_canonical_sha256 output_record_digest)
          with TransitionError.InvalidToolOutputRecordDigest effect_id;;
        Ok tt
    | None =>
        bail_if bool_decide (tool_output_profile_of step = Some TOOL_OUTPUT_PROFILE_V1)
                && bool_decide (next_status = StepStatus.Validating)
          with TransitionError.ToolOutputRecordRequired effect_id;;
        Ok tt
    end in
  Ok (put_step state step_id
        (StepState.set_observation (Some evidence_digest) output_record_digest
           (StepState.set_status next_status step))).

Definition record_effect_unknown (state : RunState) (step_id effect_id reason : string)
    (body : RunEventBody) : res TransitionError RunState :=
  let? step := matching_step_mut state step_id effect_id in
  let? _ := require_status step StepStatus.Executing body in
  Ok (put_step state step_id
        (StepState.set_uncertainty (Some reason)
           (StepState.set_status StepStatus.EffectUnknown step))).

(** The [ReconciliationStarted] arm. *)
Definition record_reconciliation_started (state : RunState) (step_id effect_id : string)
    (body : RunEventBody) : res TransitionError RunState :=
  let? step := matching_step_mut state step_id effect_id in
  let? _ := require_status step StepStatus.EffectUnknown body in
  Ok (put_step state step_id (StepState.set_status StepStatus.Reconciling step)).

Definition record_reconciliation (state : RunState) (step_id effect_id : string)
    (resolution : ReconciliationResolution) (evidence_digest : string) (body : RunEventBody)
    : res TransitionError RunState :=
  let? step := matching_step_mut state step_id effect_id in
  let? _ := require_status step StepStatus.Reconciling body in
  bail_if bool_decide (resolution = ReconciliationResolution.ProvedApplied)
          && bool_decide (tool_output_profile_of step = Some TOOL_OUTPUT_PROFILE_V1)
    with TransitionError.ToolOutputRecordRequired effect_id;;
  let status := match resolution with
                | ReconciliationResolution.ProvedApplied => StepStatus.Validating
                | ReconciliationResolution.ProvedNotApplied => StepStatus.IntentCommitted
                | ReconciliationResolution.Failed => StepStatus.Failed
                end in
  Ok (put_step state step_id
        (StepState.set_status status
           (StepState.set_uncertainty None
              (StepState.set_reconciliation (Some evidence_digest) step)))).

Definition record_manual_required (state : RunState) (step_id effect_id reason : string)
    (body : RunEventBody) : res TransitionError RunState :=
  let? step := matching_step_mut state step_id effect_id in
  if negb (bool_decide (StepState.status step
             ∈ [StepStatus.EffectUnknown; StepStatus.Reconciling]))
  then invalid_transition step body
  else Ok (put_step state step_id
             (StepState.set_uncertainty (Some reason)
                (StepState.set_status StepStatus.ManualRequired step))).

Definition record_legacy_verification (state : RunState) (step_id : string)
    (next_status : StepStatus) (body : RunEventBody) : res TransitionError RunState :=
  let? step := step_mut state step_id in
  let? _ := require_status step StepStatus.Validating body in
  Ok (put_step state step_id (StepState.set_status next_status step)).

Definition record_verification (state : RunState) (step_id effect_id : string)
    (disposition : VerificationDisposition) (receipt_id receipt_digest : string)
    (body : RunEventBody) : res TransitionError RunState :=
  let? step := matching_step_mut state step_id effect_id in
  let? _ := require_status step StepStatus.Validating body in
  let step := StepState.set_receipt (Some receipt_id) (Some receipt_digest) step in
  let step :=
    match disposition with
    | VerificationDisposition.Passed =>
        StepState.set_status StepStatus.Completed (StepState.set_uncertainty None step)
    | VerificationDisposition.Failed =>
        StepState.set_status StepStatus.Failed (StepState.set_uncertainty None step)
    | VerificationDisposition.Inconclusive =>
        StepState.set_status StepStatus.ManualRequired
          (StepState.set_uncertainty (Some "verification_inconclusive") step)
    end in
  Ok (put_step state step_id step).

Definition apply_effect_lifecycle (state : RunState) (body : RunEventBody)
    : res TransitionError RunState :=
  match body with
  | RunEventBody.InvocationMaterialUnavailable step_id effect_id reason =>
      mark_material_unavailable state step_id effect_id reason body
  | RunEventBody.EffectExecutionStarted step_id effect_id =>
      record_execution_started state step_id effect_id body
  | RunEventBody.EffectSucceeded step_id effect_id evidence_digest output_record_digest =>
      record_effect_observation state step_id effect_id evidence_digest output_record_digest
        StepStatus.Validating body
  | RunEventBody.EffectFailed step_id effect_id evidence_digest =>
      record_effect_observation state step_id effect_id evidence_digest None
        StepStatus.Failed body
  | RunEventBody.EffectBecameUnknown step_id effect_id reason =>
      record_effect_unknown state step_id effect_id reason body
  | RunEventBody.ReconciliationStarted step_id effect_id =>
      record_reconciliation_started state step_id effect_id body
  | RunEventBody.ReconciliationResolved step_id effect_id resolution evidence_digest =>
      record_reconciliation state step_id effect_id resolution evidence_digest body
  | RunEventBody.ManualInterventionRequired step_id effect_id reason =>
      record_manual_required state step_id effect_id reason body
  | RunEventBody.VerificationPassed step_id =>
      record_legacy_verification state step_id StepStatus.Completed body
  | RunEventBody.VerificationFailed step_id _ =>
      record_legacy_verification state step_id StepStatus.Failed body
  | RunEventBody.VerificationRecorded step_id effect_id disposition receipt_id receipt_digest =>
      record_verification state step_id effect_id disposition receipt_id receipt_digest body
  | _ => Panic "handled by apply_body"
  end.
