(* ===== verification/StepMachine.v ===== *)
(** The step state machine: the life of one effect as a relation on [StepState], the proof that
    the reducer's lifecycle handlers implement exactly that relation, and what the commit of an
    effect intent checks and writes. *)

From S2P Require Import Prelude Text Wire WorkGraphTypes WorkGraphErrors WorkGraphWire Planning.
From S2P Require Import Material ToolOutput Frontier AgentLoop Effects FrontierProofs.

(** ** The machine *)

Definition effect_of (st : StepState) : option string := EffectIntent.effect_id <$> StepState.intent st.

(** The step a lifecycle event is about. *)
Definition lifecycle_step (body : RunEventBody) : option string :=
  match body with
  | RunEventBody.InvocationMaterialUnavailable id _ _ | RunEventBody.EffectExecutionStarted id _
  | RunEventBody.EffectSucceeded id _ _ _ | RunEventBody.EffectFailed id _ _
  | RunEventBody.EffectBecameUnknown id _ _ | RunEventBody.ReconciliationStarted id _
  | RunEventBody.ReconciliationResolved id _ _ _ | RunEventBody.ManualInterventionRequired id _ _
  | RunEventBody.VerificationPassed id | RunEventBody.VerificationFailed id _
  | RunEventBody.VerificationRecorded id _ _ _ _ => Some id
  | _ => None
  end.

Definition profiled (st : StepState) : Prop := tool_output_profile_of st = Some TOOL_OUTPUT_PROFILE_V1.

(** One event of a committed effect: the status it needs, the observation rules of the
    tool-output profile, and everything it writes. *)
Inductive lifecycle : RunEventBody → StepState → StepState → Prop :=
| lc_unavailable id e reason st :
    effect_of st = Some e → StepState.status st = StepStatus.IntentCommitted →
    lifecycle (RunEventBody.InvocationMaterialUnavailable id e reason) st
      (StepState.set_uncertainty (Some (InvocationMaterialUnavailableReason.code reason))
         (StepState.set_status StepStatus.ManualRequired st))
| lc_started id e st :
    effect_of st = Some e → StepState.status st = StepStatus.IntentCommitted →
    (StepState.attempts st + 1 ≤ u32_max)%N →
    lifecycle (RunEventBody.EffectExecutionStarted id e) st
      (StepState.set_attempts (StepState.attempts st + 1)
         (StepState.set_status StepStatus.Executing st))
| lc_succeeded_output id e evidence output st :
    effect_of st = Some e → StepState.status st = StepStatus.Executing →
    profiled st → is_canonical_sha256 output = true →
    lifecycle (RunEventBody.EffectSucceeded id e evidence (Some output)) st
      (StepState.set_observation (Some evidence) (Some output)
         (StepState.set_status StepStatus.Validating st))
| lc_succeeded id e evidence st :
    effect_of st = Some e → StepState.status st = StepStatus.Executing → ¬ profiled st →
    lifecycle (RunEventBody.EffectSucceeded id e evidence None) st
      (StepState.set_observation (Some evidence) None
         (StepState.set_status StepStatus.Validating st))
| lc_failed id e evidence st :
    effect_of st = Some e → StepState.status st = StepStatus.Executing →
    lifecycle (RunEventBody.EffectFailed id e evidence) st
      (StepState.set_observation (Some evidence) None
         (StepState.set_status StepStatus.Failed st))
| lc_unknown id e reason st :
    effect_of st = Some e → StepState.status st = StepStatus.Executing →
    lifecycle (RunEventBody.EffectBecameUnknown id e reason) st
      (StepState.set_uncertainty (Some reason)
         (StepState.set_status StepStatus.EffectUnknown st))
| lc_reconciling id e st :
    effect_of st = Some e → StepState.status st = StepStatus.EffectUnknown →
    lifecycle (RunEventBody.ReconciliationStarted id e) st
      (StepState.set_status StepStatus.Reconciling st)
| lc_proved_applied id e evidence st :
    effect_of st = Some e → StepState.status st = StepStatus.Reconciling → ¬ profiled st →
    lifecycle (RunEventBody.ReconciliationResolved id e ReconciliationResolution.ProvedApplied evidence)
      st (StepState.set_status StepStatus.Validating
            (StepState.set_uncertainty None (StepState.set_reconciliation (Some evidence) st)))
| lc_proved_not_applied id e evidence st :
    effect_of st = Some e → StepState.status st = StepStatus.Reconciling →
    lifecycle (RunEventBody.ReconciliationResolved id e ReconciliationResolution.ProvedNotApplied evidence)
      st (StepState.set_status StepStatus.IntentCommitted
            (StepState.set_uncertainty None (StepState.set_reconciliation (Some evidence) st)))
| lc_proved_failed id e evidence st :
    effect_of st = Some e → StepState.status st = StepStatus.Reconciling →
    lifecycle (RunEventBody.ReconciliationResolved id e ReconciliationResolution.Failed evidence)
      st (StepState.set_status StepStatus.Failed
            (StepState.set_uncertainty None (StepState.set_reconciliation (Some evidence) st)))
| lc_manual id e reason st :
    effect_of st = Some e →
    StepState.status st ∈ [StepStatus.EffectUnknown; StepStatus.Reconciling] →
    lifecycle (RunEventBody.ManualInterventionRequired id e reason) st
      (StepState.set_uncertainty (Some reason)
         (StepState.set_status StepStatus.ManualRequired st))
| lc_legacy_passed id st :
    StepState.status st = StepStatus.Validating →
    lifecycle (RunEventBody.VerificationPassed id) st
      (StepState.set_status StepStatus.Completed st)
| lc_legacy_failed id reason st :
    StepState.status st = StepStatus.Validating →
    lifecycle (RunEventBody.VerificationFailed id reason) st
      (StepState.set_status StepStatus.Failed st)
| lc_verified id e receipt digest st :
    effect_of st = Some e → StepState.status st = StepStatus.Validating →
    lifecycle (RunEventBody.VerificationRecorded id e VerificationDisposition.Passed receipt digest) st
      (StepState.set_status StepStatus.Completed
         (StepState.set_uncertainty None (StepState.set_receipt (Some receipt) (Some digest) st)))
| lc_refuted id e receipt digest st :
    effect_of st = Some e → StepState.status st = StepStatus.Validating →
    lifecycle (RunEventBody.VerificationRecorded id e VerificationDisposition.Failed receipt digest) st
      (StepState.set_status StepStatus.Failed
         (StepState.set_uncertainty None (StepState.set_receipt (Some receipt) (Some digest) st)))
| lc_inconclusive id e receipt digest st :
    effect_of st = Some e → StepState.status st = StepStatus.Validating →
    lifecycle (RunEventBody.VerificationRecorded id e VerificationDisposition.Inconclusive receipt digest)
      st (StepState.set_status StepStatus.ManualRequired
            (StepState.set_uncertainty (Some "verification_inconclusive")
               (StepState.set_receipt (Some receipt) (Some digest) st))).

(** ** Counting attempts *)

Definition attempts_of (l : list StepState) : N := foldr (λ st n, StepState.attempts st + n)%N 0%N l.

Definition run_attempts (state : RunState) : N := attempts_of (btree_values (RunState.steps state)).

Lemma fold_attempts l t n :
  for_each (λ total step, ok_or (checked_add u32_max total (StepState.attempts step))
                            TransitionError.ToolCallBudgetExceeded) l t = Ok n ↔
  (n = t + attempts_of l ∧ (l = [] ∨ n ≤ u32_max))%N.
Proof.
  revert t n. induction l as [|st l IH]; intros t n; cbn [for_each attempts_of foldr].
  - rewrite N.add_0_r. split; [intros [=]; by auto|by intros [-> _]].
  - destruct (checked_add u32_max t (StepState.attempts st)) as [t'|] eqn:E; cbn [ok_or rbind].
    + apply checked_add_Some in E as [-> Hle]. rewrite IH. fold (attempts_of l). split.
      * intros [-> [->|H]]; (split; [lia|right; cbn in *; lia]).
      * intros [-> [H|H]]; [done|]. split; [lia|by right].
    + apply checked_add_None in E. fold (attempts_of l). split; [done|].
      intros [-> [H|H]]; [done|]. lia.
Qed.

Lemma total_attempts_Ok state n :
  total_attempts state = Ok n → n = run_attempts state.
Proof. intros [Hn _]%fold_attempts. exact Hn. Qed.

Lemma total_attempts_small state :
  (run_attempts state ≤ u32_max)%N → total_attempts state = Ok (run_attempts state).
Proof. intros Hle. apply fold_attempts. split; [done|by right]. Qed.

Lemma total_attempts_no_panic state : no_panic (total_attempts state).
Proof. intros w (pre & a & rest & t & _ & _ & Ha)%for_each_panic. by apply no_panic_ok_or in Ha. Qed.

(** The tool-call budget an execution start must respect. *)
Definition start_allowed (state : RunState) (body : RunEventBody) : Prop :=
  match body, RunState.agent_loop state with
  | RunEventBody.EffectExecutionStarted _ _, Some l =>
      total_attempts state = Ok (run_attempts state) ∧
      (run_attempts state < AgentLoopBudget.max_tool_calls (AgentLoopState.budget l))%N
  | _, _ => True
  end.

(** ** The handlers implement the machine *)

Lemma matching_step_Ok state id e st :
  matching_step_mut state id e = Ok st ↔
  RunState.steps state !! id = Some st ∧ effect_of st = Some e.
Proof.
  unfold matching_step_mut, step_mut. split.
  - intros H. res_inv. done.
  - intros [-> He]. cbn [ok_or rbind]. fold (effect_of st). rewrite He.
    by rewrite bool_decide_eq_false_2 by (by intros []).
Qed.

Lemma require_status_Ok st s body u :
  require_status st s body = Ok u ↔ StepState.status st = s.
Proof.
  unfold require_status, invalid_transition. destruct u. case_bool_decide; naive_solver.
Qed.

Lemma step_mut_Ok state id st :
  step_mut state id = Ok st ↔ RunState.steps state !! id = Some st.
Proof. unfold step_mut. destruct (RunState.steps state !! id); cbn; naive_solver. Qed.

(** Read the two checks every handler starts with. *)
Ltac handler_inv :=
  repeat first
    [ match goal with
      | H : matching_step_mut _ _ _ = Ok _ |- _ => apply matching_step_Ok in H as [? ?]
      | H : step_mut _ _ = Ok _ |- _ => apply step_mut_Ok in H
      | H : require_status _ _ _ = Ok _ |- _ => apply require_status_Ok in H
      end
    | progress res_inv ].

(** Name the step and its change, then find the constructor. *)
Ltac lifecycle_step_done :=
  do 3 eexists; (split; [|split; [|split; [|split]]]);
  [reflexivity|eassumption| |try exact I|reflexivity];
  try (econstructor; eassumption).

Ltac not_profiled :=
  let Hp := fresh "Hp" in
  intros Hp; unfold profiled in Hp;
  match goal with
  | Hb : _ && _ = false |- _ => rewrite Hp in Hb; vm_compute in Hb; discriminate Hb
  end.

Lemma lifecycle_sound state body state' :
  apply_effect_lifecycle state body = Ok state' →
  ∃ id st st', lifecycle_step body = Some id ∧ RunState.steps state !! id = Some st ∧
    lifecycle body st st' ∧ start_allowed state body ∧ state' = put_step state id st'.
Proof.
  destruct body; cbn; try done; intros H.
  - unfold mark_material_unavailable in H. handler_inv. lifecycle_step_done.
  - unfold record_execution_started in H. handler_inv; checked_inv; lifecycle_step_done.
    match goal with Ht : total_attempts _ = Ok _ |- _ =>
      apply total_attempts_Ok in Ht; subst end.
    split; [done|lia].
  - unfold record_effect_observation in H. destruct output_record_digest; handler_inv;
      lifecycle_step_done.
    + apply lc_succeeded_output; try done. by apply negb_false_iff.
    + apply lc_succeeded; try done. by not_profiled.
  - unfold record_effect_observation in H. handler_inv; lifecycle_step_done.
  - unfold record_effect_unknown in H. handler_inv. lifecycle_step_done.
  - unfold record_reconciliation_started in H. handler_inv. lifecycle_step_done.
  - unfold record_reconciliation in H. destruct resolution; handler_inv; lifecycle_step_done.
    apply lc_proved_applied; try done. by not_profiled.
  - unfold record_manual_required in H. handler_inv. lifecycle_step_done.
    apply lc_manual; [done|].
    match goal with Hn : negb (bool_decide _) = false |- _ =>
      by apply negb_false_iff, bool_decide_eq_true in Hn end.
  - unfold record_legacy_verification in H. handler_inv. lifecycle_step_done.
  - unfold record_legacy_verification in H. handler_inv. lifecycle_step_done.
  - unfold record_verification in H. destruct disposition; handler_inv; lifecycle_step_done.
Qed.

(** Run the two checks of a handler whose step satisfies them. *)
Ltac handler_run :=
  repeat match goal with
  | H : RunState.steps _ !! _ = Some ?st, He : effect_of ?st = Some _
      |- context [matching_step_mut ?s ?i ?e] =>
      rewrite (proj2 (matching_step_Ok s i e st) (conj H He)); cbn [rbind]
  | H : RunState.steps _ !! _ = Some _ |- context [step_mut ?s ?i] =>
      rewrite (proj2 (step_mut_Ok s i _) H); cbn [rbind]
  | H : StepState.status ?st = ?s |- context [require_status ?st ?s ?b] =>
      rewrite (proj2 (require_status_Ok st s b tt) H); cbn [rbind]
  end.

Lemma lifecycle_complete state body id st st' :
  lifecycle_step body = Some id → RunState.steps state !! id = Some st →
  lifecycle body st st' → start_allowed state body →
  apply_effect_lifecycle state body = Ok (put_step state id st').
Proof.
  intros Hid Hst Hlc Hstart. destruct Hlc; cbn in Hid; injection Hid as ->;
    cbn [apply_effect_lifecycle].
  - unfold mark_material_unavailable. by handler_run.
  - unfold record_execution_started. cbn in Hstart.
    assert (Hadd : checked_add u32_max (StepState.attempts st) 1 = Some (StepState.attempts st + 1)%N)
      by (by apply checked_add_Some).
    destruct (RunState.agent_loop state) as [l|]; cbn [rbind].
    + destruct Hstart as [-> Hlt]. cbn [rbind].
      rewrite bool_decide_eq_false_2 by lia. cbn [rbind]. handler_run. by rewrite Hadd.
    + handler_run. by rewrite Hadd.
  - unfold record_effect_observation. handler_run.
    rewrite bool_decide_eq_false_2 by (intros Hn; by apply Hn). by rewrite H2.
  - unfold record_effect_observation. handler_run.
    rewrite (bool_decide_eq_false_2 (tool_output_profile_of st = _)) by done. done.
  - unfold record_effect_observation. handler_run. by rewrite andb_false_r.
  - unfold record_effect_unknown. by handler_run.
  - unfold record_reconciliation_started. by handler_run.
  - unfold record_reconciliation. handler_run.
    by rewrite (bool_decide_eq_false_2 (tool_output_profile_of st = _)).
  - unfold record_reconciliation. by handler_run.
  - unfold record_reconciliation. by handler_run.
  - unfold record_manual_required. handler_run. by rewrite bool_decide_eq_true_2.
  - unfold record_legacy_verification. by handler_run.
  - unfold record_legacy_verification. by handler_run.
  - unfold record_verification. by handler_run.
  - unfold record_verification. by handler_run.
  - unfold record_verification. by handler_run.
Qed.

(** ** What an event can and cannot change *)

(** The edges of the status diagram. *)
Definition next_status (s s' : StepStatus) : bool :=
  match s with
  | StepStatus.Planned => bool_decide (s' = StepStatus.IntentCommitted)
  | StepStatus.IntentCommitted => bool_decide (s' ∈ [StepStatus.Executing; StepStatus.ManualRequired])
  | StepStatus.Executing =>
      bool_decide (s' ∈ [StepStatus.Validating; StepStatus.Failed; StepStatus.EffectUnknown])
  | StepStatus.EffectUnknown =>
      bool_decide (s' ∈ [StepStatus.Reconciling; StepStatus.ManualRequired])
  | StepStatus.Reconciling =>
      bool_decide (s' ∈ [StepStatus.Validating; StepStatus.IntentCommitted; StepStatus.Failed;
                         StepStatus.ManualRequired])
  | StepStatus.Validating =>
      bool_decide (s' ∈ [StepStatus.Completed; StepStatus.Failed; StepStatus.ManualRequired])
  | StepStatus.Completed | StepStatus.Failed | StepStatus.ManualRequired => false
  end.

(** The identity of a step: what no lifecycle event rewrites. *)
Definition same_identity (st st' : StepState) : Prop :=
  StepState.step_id st' = StepState.step_id st ∧
  StepState.objective st' = StepState.objective st ∧
  StepState.depends_on st' = StepState.depends_on st ∧
  StepState.planned_invocation st' = StepState.planned_invocation st.

Record lifecycle_facts (body : RunEventBody) (st st' : StepState) : Prop := {
  lf_identity : same_identity st st';
  lf_intent : StepState.intent st' = StepState.intent st;
  lf_next : next_status (StepState.status st) (StepState.status st') = true;
  lf_started : StepState.status st ≠ StepStatus.Planned;
  lf_attempts : StepState.attempts st' =
    (StepState.attempts st + match body with
                             | RunEventBody.EffectExecutionStarted _ _ => 1 | _ => 0 end)%N;
}.

Lemma lifecycle_read body st st' : lifecycle body st st' → lifecycle_facts body st st'.
Proof.
  intros Hlc. destruct Hlc;
    try match goal with H : StepState.status _ ∈ _ |- _ =>
      apply elem_of_cons in H as [H|H%list_elem_of_singleton] end;
    (split; cbn; try match goal with H : StepState.status _ = _ |- _ => rewrite H end;
     [done|done|reflexivity|discriminate|lia]).
Qed.

(** What committing an effect intent guarantees: dependency gating, the exact authorization
    and the one-shot budget. *)

(** ** Dependency gating *)

Lemma block_reason_None st :
  dependency_release_block_reason st = None ↔ receipt_releases_dependency st = true.
Proof. unfold dependency_release_block_reason. destruct (receipt_releases_dependency st); naive_solver. Qed.

Lemma keep_least_some state st b d r :
  keep_least_blocker state st (Some b) d = Ok r → is_Some r.
Proof.
  unfold keep_least_blocker. intros H. res_inv; [|by eexists].
  destruct (blocker_lt _ _); by eexists.
Qed.

Lemma first_unreleased_None state st :
  first_unreleased_dependency state st = Ok None →
  ∀ d, d ∈ StepState.depends_on st → released (RunState.steps state) d.
Proof.
  intros Hf.
  cut ((None : option DependencyBlocker) = None →
    ∀ d, d ∈ StepState.depends_on st → released (RunState.steps state) d).
  { intros Hgen d Hd. exact (Hgen eq_refl d Hd). }
  refine (for_each_inv _ (λ pre b, b = None →
    ∀ d, d ∈ pre → released (RunState.steps state) d) _ _ _ _ _ Hf).
  - intros _ d Hd. by apply elem_of_nil in Hd.
  - intros pre d rest b b' _ Hpre Hs ->. destruct b as [b|].
    { apply keep_least_some in Hs as [? ?]. done. }
    unfold keep_least_blocker in Hs. res_inv.
    intros d' [Hd'| ->%list_elem_of_singleton]%elem_of_app; [by apply Hpre|].
    eexists. split; [eassumption|]. by apply block_reason_None.
Qed.

(** ** Authorization *)

Section commit.
Context `{Crypto}.

(** The authorization of [intent] is issued for this run, step, authority, epoch, journal
    head, action and executable binding, and is the one-shot grant of its action. *)
Record authorized (state : RunState) (id : string) (intent : EffectIntent) : Prop := {
  au_run : AuthorizationBinding.run_id (AuthorizationUse.binding (EffectIntent.authorization intent))
           = RunState.run_id state;
  au_step : AuthorizationBinding.step_id (AuthorizationUse.binding (EffectIntent.authorization intent))
            = id;
  au_authority : AuthorizationBinding.authority (AuthorizationUse.binding (EffectIntent.authorization intent))
                 = RunState.authority state;
  au_epoch : AuthorizationBinding.authority_epoch (AuthorizationUse.binding (EffectIntent.authorization intent))
             = RunState.authority_epoch state;
  au_action : AuthorizationBinding.action_digest (AuthorizationUse.binding (EffectIntent.authorization intent))
              = EffectIntent.action_digest intent;
  au_invocation : EffectIntent.invocation intent = let b := AuthorizationUse.binding (EffectIntent.authorization intent) in
    InvocationBinding.mk (AuthorizationBinding.capability_id b) (AuthorizationBinding.contract_version b)
      (AuthorizationBinding.definition_digest b) (AuthorizationBinding.instance_id b)
      (AuthorizationBinding.instance_binding_digest b);
  au_once : AuthorizationUse.max_uses (EffectIntent.authorization intent) = 1%N;
  au_grant : once_authorization_id (RunState.run_id state) (EffectIntent.action_digest intent)
             = Ok (AuthorizationUse.grant_id (EffectIntent.authorization intent));
  au_digest : authorization_digest (AuthorizationUse.binding (EffectIntent.authorization intent)) 1
              = Ok (AuthorizationUse.grant_digest (EffectIntent.authorization intent));
}.

(** The head the authorization was issued at is the current one. *)
Definition issued_at_head (state : RunState) (intent : EffectIntent) : Prop :=
  let b := AuthorizationUse.binding (EffectIntent.authorization intent) in
  AuthorizationBinding.issued_at_sequence b = RunState.journal_sequence state ∧
  AuthorizationBinding.issued_at_head_digest b = RunState.journal_head_digest state.

Lemma validate_authorization_Ok state id intent u :
  AuthorizationUse.max_uses (EffectIntent.authorization intent) = 1%N →
  validate_authorization_binding state id intent = Ok u →
  authorized state id intent ∧ issued_at_head state intent.
Proof.
  intros Hmax. unfold validate_authorization_binding. intros Hv. res_inv. bool_inv.
  repeat match goal with
  | Hm : map_err _ _ = Ok _ |- _ => apply map_err_ok in Hm
  end.
  rewrite Hmax in *. split; [|done].
  split; try done; try congruence.
  destruct (EffectIntent.invocation intent); cbn in *. congruence.
Qed.

Definition consumed (state : RunState) (intent : EffectIntent) (uses : N) (effects : gset string)
    : gmap string AuthorizationConsumption :=
  <[AuthorizationUse.grant_id (EffectIntent.authorization intent) :=
      AuthorizationConsumption.mk (AuthorizationUse.grant_digest (EffectIntent.authorization intent)) 1
        (uses + 1) ({[EffectIntent.effect_id intent]} ∪ effects)]>
    (RunState.authorization_consumption state).

Lemma consume_Ok state intent m :
  AuthorizationUse.max_uses (EffectIntent.authorization intent) = 1%N →
  consume_authorization state intent = Ok m →
  ∃ effects,
    m = consumed state intent 0 effects ∧
    match RunState.authorization_consumption state
            !! AuthorizationUse.grant_id (EffectIntent.authorization intent) with
    | None => effects = ∅
    | Some c => AuthorizationConsumption.uses c = 0%N ∧ effects = AuthorizationConsumption.effect_ids c
    end.
Proof.
  intros Hmax. unfold consume_authorization, consumed. rewrite Hmax. intros Hc. res_inv. bool_inv.
  destruct (_ !! _) as [c|] eqn:E; cbn in *.
  - assert (AuthorizationConsumption.uses c = 0%N) as Hu by lia.
    exists (AuthorizationConsumption.effect_ids c). split; [|done]. f_equal. f_equal; congruence.
  - by exists ∅.
Qed.

Lemma effect_known_false state e :
  effect_known state e = false →
  ∀ i st a, RunState.steps state !! i = Some st → StepState.intent st = Some a →
    EffectIntent.effect_id a ≠ e.
Proof.
  unfold effect_known. intros He i st a Hst Ha Heq.
  assert (existsb (λ step, match StepState.intent step with
                   | Some existing => bool_decide (EffectIntent.effect_id existing = e)
                   | None => false end) (btree_values (RunState.steps state)) = true); [|congruence].
  apply existsb_exists. exists st. split.
  - apply list_elem_of_In, elem_of_btree_values. by exists i.
  - rewrite Ha. by apply bool_decide_eq_true.
Qed.

(** Everything a committed intent has passed. *)
Record committed (state : RunState) (id : string) (intent : EffectIntent) (st : StepState) : Prop := {
  cm_step : RunState.steps state !! id = Some st;
  cm_planned : StepState.status st = StepStatus.Planned;
  cm_released d : d ∈ StepState.depends_on st → released (RunState.steps state) d;
  cm_fresh i si a : RunState.steps state !! i = Some si → StepState.intent si = Some a →
    EffectIntent.effect_id a ≠ EffectIntent.effect_id intent;
  cm_authorized : authorized state id intent;
  cm_head : issued_at_head state intent;
  cm_plan : validate_planned_invocation_binding st intent = Ok tt;
  cm_provenance : check_receipt_provenance intent = Ok tt;
  cm_profile : validate_tool_output_profile intent = Ok tt;
}.

Lemma commit_Ok state id intent state' :
  commit_effect_intent state id intent = Ok state' →
  ∃ st effects, committed state id intent st ∧
    match RunState.authorization_consumption state
            !! AuthorizationUse.grant_id (EffectIntent.authorization intent) with
    | None => effects = ∅
    | Some c => AuthorizationConsumption.uses c = 0%N ∧ effects = AuthorizationConsumption.effect_ids c
    end ∧
    state' = put_step (RunState.set_consumption (consumed state intent 0 effects) state) id
               (StepState.set_status StepStatus.IntentCommitted
                  (StepState.set_intent (Some intent) st)).
Proof.
  unfold commit_effect_intent. intros Hc.
  repeat res_step. all: repeat match goal with u : unit |- _ => destruct u end.
  match goal with Hr : require_status _ _ _ = Ok _ |- _ => apply require_status_Ok in Hr end.
  match goal with Hv : validate_authorization_binding _ _ _ = Ok _ |- _ =>
    apply validate_authorization_Ok in Hv as [? ?]; [|done] end.
  match goal with Hv : consume_authorization _ _ = Ok _ |- _ =>
    apply consume_Ok in Hv as (effects & -> & ?); [|done] end.
  simplify_eq. do 2 eexists. split; [|split; [eassumption|reflexivity]].
  split; try done.
  - by apply first_unreleased_None.
  - by apply effect_known_false.
Qed.
End commit.
