(* ===== verification/Reducer.v ===== *)
(** The reducer: dispatch of an event body, application of a journal record and replay of a
    journal (crates/xgeny-workgraph/src/lib.rs). *)

From S2P Require Import Prelude Text Wire WorkGraphTypes WorkGraphErrors WorkGraphWire Planning.
From S2P Require Import Material Frontier Journal AgentLoop Plans Effects.

Section reducer.
Context `{Crypto}.

Definition apply_body (state : RunState) (body : RunEventBody) : res TransitionError RunState :=
  match body with
  | RunEventBody.RunCreated _ => Panic "handled by apply_record"
  | RunEventBody.AgentLoopConfigured budget => configure_agent_loop state budget
  | RunEventBody.ModelCallLifecycleConfigured budget => configure_model_call_lifecycle state budget
  | RunEventBody.ModelCallReserved reservation => reserve_model_call state reservation
  | RunEventBody.ModelCallBecameUnknown call_id reason => mark_model_call_unknown state call_id reason
  | RunEventBody.ModelCallSettled call_id settlement => settle_model_call state call_id settlement
  | RunEventBody.PlanAccepted decision steps => accept_plan state decision steps
  | RunEventBody.CompletionCandidateRecorded decision candidate_id summary_digest output =>
      record_completion_candidate state decision candidate_id summary_digest output
  | RunEventBody.StepPlanned step_id objective depends_on =>
      plan_step state step_id objective depends_on None
  | RunEventBody.EffectIntentCommitted step_id intent => commit_effect_intent state step_id intent
  | _ => apply_effect_lifecycle state body
  end.

(** The projection a [RunCreated] record starts. *)
Definition created (event : RunEvent) (goal : string) : RunState :=
  RunState.mk (RunEvent.run_id event) (RunEvent.authority event) (RunEvent.authority_epoch event)
    goal 0 0 EmptyString ∅ ∅ None.

Definition apply_record (current : option RunState) (record : EventRecord)
    : res TransitionError RunState :=
  let? _ := verify_record_against_state current record in
  let event := EventRecord.event record in
  let? state :=
    match current, RunEvent.body event with
    | None, RunEventBody.RunCreated goal => Ok (created event goal)
    | None, _ => Err TransitionError.FirstEventMustCreateRun
    | Some _, RunEventBody.RunCreated _ => Err TransitionError.RunAlreadyCreated
    | Some state, _ => Ok state
    end in
  let? state := match current with
                | Some _ => apply_body state (RunEvent.body event)
                | None => Ok state
                end in
  Ok (RunState.set_head (EventRecord.sequence record) (EventRecord.digest record) state).

Definition replay_transition_error (error : TransitionError) : ReplayError :=
  match error with
  | TransitionError.UnexpectedSequence expected actual =>
      ReplayError.UnexpectedSequence expected actual
  | TransitionError.PreviousDigestMismatch sequence expected actual =>
      ReplayError.PreviousDigestMismatch sequence expected actual
  | TransitionError.Record_ error => ReplayError.Record_ error
  | error => ReplayError.Transition error
  end.

(** The body of [replay]'s loop. *)
Definition replay_record (state : option RunState) (record : EventRecord)
    : res ReplayError (option RunState) :=
  rmap Some (map_err replay_transition_error (apply_record state record)).

Definition replay (records : list EventRecord) : res ReplayError RunState :=
  let? state := for_each replay_record records None in
  ok_or state ReplayError.EmptyJournal.

End reducer.
