(* ===== verification/Scenario.v ===== *)
(** A complete run, evaluated: a planner reserves a call, an accepted plan of two steps is
    executed under one-shot authorizations, one effect is reconciled and retried, and a
    completion candidate is recorded.  The witnesses of the reducer's theorems instantiate
    them at this journal. *)

From S2P Require Import Prelude Text Wire WorkGraphTypes WorkGraphErrors WorkGraphWire Planning.
From S2P Require Import Material ToolOutput Completion Frontier Journal AgentLoop Plans Effects.
From S2P Require Import Reducer RecordProofs RecordTheorems.

#[local] Existing Instance reference_crypto.

(** ** Driving the reducer *)

Definition erase {E A} (c : res E A) : res unit A := map_err (λ _, tt) c.

Definition scenario : Type := list EventRecord * option RunState.

Definition event_of (n : N) (body : RunEventBody) : RunEvent :=
  RunEvent.mk "event" "run-1" "local" 1 "2025-01-01T00:00:00Z" body.

(** Append the event a state asks for, through [EventRecord_next] and [apply_record]. *)
Definition extend (sc : scenario) (mk : option RunState → res unit RunEventBody)
    : res unit scenario :=
  let? body := mk sc.2 in
  let? record := erase (EventRecord_next (last sc.1) (event_of 0 body)) in
  let? state := erase (apply_record sc.2 record) in
  Ok (sc.1 ++ [record], Some state).

Definition run_scenario (events : list (option RunState → res unit RunEventBody)) : res unit scenario :=
  for_each extend events ([], None).

Definition always (body : RunEventBody) (_ : option RunState) : res unit RunEventBody := Ok body.

Definition with_state (f : RunState → res unit RunEventBody) (s : option RunState)
    : res unit RunEventBody :=
  match s with Some s => f s | None => Err tt end.

(** ** Planning *)

Definition digest_of (s : string) : string := sha256_digest s.

Definition reserve : option RunState → res unit RunEventBody := with_state (λ s,
  let? r := erase (ModelCallReservation_new (RunState.run_id s) 1 "planner" 1 1
    (RunState.journal_sequence s) (RunState.journal_head_digest s) (digest_of "context")
    (digest_of "request")) in
  Ok (RunEventBody.ModelCallReserved r)).

Definition active_id (s : RunState) : string :=
  match (l ← RunState.agent_loop s; c ← AgentLoopState.model_calls l;
         ModelCallLifecycleState.active_call c) with
  | Some a => ModelCallReservation.call_id (ModelCallState.reservation a)
  | None => ""
  end.

Definition reserve_second : option RunState → res unit RunEventBody := with_state (λ s,
  let? r := erase (ModelCallReservation_new (RunState.run_id s) 1 "planner" 2 2
    (RunState.journal_sequence s) (RunState.journal_head_digest s) (digest_of "context")
    (digest_of "request")) in
  Ok (RunEventBody.ModelCallReserved r)).

Definition plan_spec (name : string) : PlannedInvocationSpec :=
  PlannedInvocationSpec.mk "fs.read" "1.0.0" (digest_of "definition") (digest_of name)
    (digest_of "input") PlannedExecutionProfile.LocalSyncReadOnlyV1 "linux" "x86_64".

Definition plan_reference : ReconstructableMaterialReference :=
  ReconstructableMaterialReference.mk "catalog" "item-1" "v1".

Definition accepted (id : string) (deps : list string) : res unit AcceptedPlanStep :=
  let? bound := erase (PlannedInvocationMaterialRecord_bind "run-1" id (digest_of "proposal")
                        (plan_spec id) plan_reference) in
  Ok (AcceptedPlanStep.mk id "read a file" deps bound.1).

Definition decision (turn : N) (s : RunState) : ExpectedPlanningTurn :=
  ExpectedPlanningTurn.mk turn (Some (active_id s)) (digest_of "context") (digest_of "proposal").

Definition accept : option RunState → res unit RunEventBody := with_state (λ s,
  let? a := accepted "a" [] in
  let? b := accepted "b" ["a"] in
  Ok (RunEventBody.PlanAccepted (decision 1 s) [a; b])).

(** ** Effects *)

Definition provenance (plan_id : string) : ReceiptProvenance :=
  ReceiptProvenance.mk "xgeny.core-receipt/v2" None "invocation" plan_id "decision"
    (digest_of "policy") "executor" ReceiptPlacement.Local "linux-x86_64" "summary" [].

Definition intent_for (s : RunState) (id effect : string) : res unit EffectIntent :=
  match RunState.steps s !! id ≫= StepState.planned_invocation with
  | None => Err tt
  | Some p =>
      let pr := provenance (PlannedInvocationBinding.plan_id p) in
      let? prd := erase (receipt_provenance_digest pr) in
      let b := AuthorizationBinding.mk "run-1" id "local" 1 (RunState.journal_sequence s)
        (RunState.journal_head_digest s) "fs.read" "1.0.0" (digest_of "definition") "instance"
        (digest_of "instance") (digest_of id) (digest_of "input") (digest_of "retention")
        (digest_of "evidence") (Some prd) in
      let? grant := erase (once_authorization_id "run-1" (digest_of id)) in
      let? gd := erase (authorization_digest b 1) in
      Ok (EffectIntent.mk effect (digest_of id)
            (InvocationBinding.mk "fs.read" "1.0.0" (digest_of "definition") "instance"
               (digest_of "instance"))
            EffectClass.ReadOnly None SinkGuarantee.None (AuthorizationUse.mk grant gd 1 b) (Some pr))
  end.

Definition commit (id effect : string) : option RunState → res unit RunEventBody := with_state (λ s,
  let? i := intent_for s id effect in Ok (RunEventBody.EffectIntentCommitted id i)).

Definition complete : option RunState → res unit RunEventBody := with_state (λ s,
  Ok (RunEventBody.CompletionCandidateRecorded (decision 2 s) "completion-1" (digest_of "summary") None)).

Definition events : list (option RunState → res unit RunEventBody) := [
  always (RunEventBody.RunCreated "goal");
  always (RunEventBody.AgentLoopConfigured (AgentLoopBudget.mk 2 4 3 4096));
  always (RunEventBody.ModelCallLifecycleConfigured (ModelCallBudget.mk 2));
  reserve;
  accept;
  commit "a" "effect-a";
  always (RunEventBody.EffectExecutionStarted "a" "effect-a");
  always (RunEventBody.EffectBecameUnknown "a" "effect-a" "lost");
  always (RunEventBody.ReconciliationStarted "a" "effect-a");
  always (RunEventBody.ReconciliationResolved "a" "effect-a"
            ReconciliationResolution.ProvedNotApplied "proof");
  always (RunEventBody.EffectExecutionStarted "a" "effect-a");
  always (RunEventBody.EffectSucceeded "a" "effect-a" "evidence" None);
  always (RunEventBody.VerificationRecorded "a" "effect-a" VerificationDisposition.Passed
            "receipt-a" (digest_of "receipt-a"));
  commit "b" "effect-b";
  always (RunEventBody.EffectExecutionStarted "b" "effect-b");
  always (RunEventBody.EffectSucceeded "b" "effect-b" "evidence" None);
  always (RunEventBody.VerificationRecorded "b" "effect-b" VerificationDisposition.Passed
            "receipt-b" (digest_of "receipt-b"));
  reserve_second;
  complete].

Definition empty_state : RunState := RunState.mk "" "" 0 "" 0 0 "" ∅ ∅ None.

(** A run without model-call accounting, where the lifecycle is configured after the
    completion candidate. *)
Definition plain_intent (s : RunState) : res unit EffectIntent :=
  let b := AuthorizationBinding.mk "run-1" "a" "local" 1 (RunState.journal_sequence s)
    (RunState.journal_head_digest s) "fs.write" "1.0.0" (digest_of "definition") "instance"
    (digest_of "instance") (digest_of "write") (digest_of "input") (digest_of "retention")
    (digest_of "evidence") None in
  let? grant := erase (once_authorization_id "run-1" (digest_of "write")) in
  let? gd := erase (authorization_digest b 1) in
  Ok (EffectIntent.mk "effect-a" (digest_of "write")
        (InvocationBinding.mk "fs.write" "1.0.0" (digest_of "definition") "instance"
           (digest_of "instance"))
        EffectClass.NonIdempotent None SinkGuarantee.None (AuthorizationUse.mk grant gd 1 b) None).

Definition plain_events : list (option RunState → res unit RunEventBody) := [
  always (RunEventBody.RunCreated "goal");
  always (RunEventBody.AgentLoopConfigured (AgentLoopBudget.mk 2 4 3 4096));
  always (RunEventBody.StepPlanned "a" "write a file" []);
  with_state (λ s, let? i := plain_intent s in Ok (RunEventBody.EffectIntentCommitted "a" i));
  always (RunEventBody.EffectExecutionStarted "a" "effect-a");
  always (RunEventBody.EffectSucceeded "a" "effect-a" "evidence" None);
  always (RunEventBody.VerificationRecorded "a" "effect-a" VerificationDisposition.Passed
            "receipt-a" (digest_of "receipt-a"));
  always (RunEventBody.CompletionCandidateRecorded
            (ExpectedPlanningTurn.mk 1 None (digest_of "context") (digest_of "proposal"))
            "completion-1" (digest_of "summary") None);
  always (RunEventBody.ModelCallLifecycleConfigured (ModelCallBudget.mk 2))].

(** The journal and projection after the first [n] of the events. *)
Definition after (evs : list (option RunState → res unit RunEventBody)) (n : nat) : scenario :=
  match run_scenario (take n evs) with Ok sc => sc | _ => ([], None) end.
Definition journal evs (n : nat) : list EventRecord := (after evs n).1.
Definition state evs (n : nat) : RunState := default empty_state (after evs n).2.

(** Every event of the scenario is accepted. *)
Lemma accepted_by {E A} (c : res E A) :
  match c with Ok _ => true | _ => false end = true → is_ok c.
Proof. destruct c as [a| |]; [by exists a|done..]. Qed.

Lemma scenario_accepted : is_ok (run_scenario events).
Proof. apply accepted_by. vm_compute. reflexivity. Qed.

Lemma plain_accepted : is_ok (run_scenario plain_events).
Proof. apply accepted_by. vm_compute. reflexivity. Qed.

Lemma erase_Ok {E A} (c : res E A) a : erase c = Ok a → c = Ok a.
Proof. apply map_err_ok. Qed.

Lemma extend_Ok sc mk sc' :
  extend sc mk = Ok sc' → ∃ record s, sc' = (sc.1 ++ [record], Some s) ∧ apply_record sc.2 record = Ok s.
Proof.
  unfold extend. intros He. res_inv.
  match goal with Ha : erase (apply_record _ _) = Ok _ |- _ => apply erase_Ok in Ha end. eauto.
Qed.

Lemma run_replayed mks sc :
  run_scenario mks = Ok sc → for_each replay_record sc.1 None = Ok sc.2.
Proof.
  intros Hr. refine (for_each_inv _ (λ _ sc, for_each replay_record sc.1 None = Ok sc.2) _ _ _ _ _ Hr);
    [done|].
  intros _ mk _ t t' _ Ht (record & s & -> & Ha)%extend_Ok. cbn.
  rewrite for_each_app, Ht. cbn. unfold replay_record, rmap. by rewrite Ha.
Qed.

(** The journal of every prefix replays to the projection built along with it. *)
Lemma journal_replays evs n :
  is_ok (run_scenario evs) → 0 < n → evs ≠ [] → replay (journal evs n) = Ok (state evs n).
Proof.
  intros [sc Hsc] Hn Hne. unfold journal, state, after, replay. unfold run_scenario in *.
  rewrite <-(take_drop n evs), for_each_app in Hsc. apply rbind_ok in Hsc as (sc0 & H0 & _).
  rewrite H0, (run_replayed (take n evs) sc0 H0). cbn.
  assert (is_Some sc0.2) as [s ->]; [|done].
  destruct n as [|n], evs as [|e evs]; try done; [lia|]. cbn in H0. apply rbind_ok in H0 as (sc1 & H1 & H0).
  apply extend_Ok in H1 as (r & s & -> & _).
  refine (for_each_inv _ (λ _ sc, is_Some sc.2) _ _ _ _ _ H0); [by eexists|].
  intros _ mk _ t t' _ _ (record & s' & -> & _)%extend_Ok. by eexists.
Qed.

(** A longer prefix extends the journal of a shorter one. *)
Lemma journal_prefix evs m n :
  is_ok (run_scenario evs) → m ≤ n → ∃ tail, journal evs n = journal evs m ++ tail.
Proof.
  intros [sc Hsc] Hmn. unfold journal, after, run_scenario in *.
  rewrite <-(take_drop n evs), for_each_app in Hsc. apply rbind_ok in Hsc as (scn & Hn & _).
  rewrite Hn. replace (take m evs) with (take m (take n evs)) by (rewrite take_take; f_equal; lia).
  rewrite <-(take_drop m (take n evs)), for_each_app in Hn. apply rbind_ok in Hn as (scm & Hm & Hrest).
  rewrite Hm. refine (for_each_inv _ (λ _ sc, ∃ tail, sc.1 = scm.1 ++ tail) _ _ _ _ _ Hrest).
  - exists []. by rewrite app_nil_r.
  - intros _ mk _ t t' _ [tail Ht] (record & s' & -> & _)%extend_Ok. exists (tail ++ [record]). cbn.
    by rewrite Ht, app_assoc.
Qed.

Lemma full n : 0 < n → replay (journal events n) = Ok (state events n).
Proof. intros Hn. by apply journal_replays; [apply scenario_accepted|..]. Qed.

Lemma plain n : 0 < n → replay (journal plain_events n) = Ok (state plain_events n).
Proof. intros Hn. by apply journal_replays; [apply plain_accepted|..]. Qed.

(** Replay of a prefix, with the rest of the longer journal spelled out. *)
Lemma full_suffix m n : m ≤ n → 0 < m →
  ∃ tail, replay (journal events m ++ tail) = Ok (state events n).
Proof.
  intros Hmn Hm. destruct (journal_prefix events m n scenario_accepted Hmn) as [tail Ht].
  exists tail. rewrite <-Ht. apply full. lia.
Qed.

Lemma plain_suffix m n : m ≤ n → 0 < m →
  ∃ tail, replay (journal plain_events m ++ tail) = Ok (state plain_events n).
Proof.
  intros Hmn Hm. destruct (journal_prefix plain_events m n plain_accepted Hmn) as [tail Ht].
  exists tail. rewrite <-Ht. apply plain. lia.
Qed.

(** The record theorems at concrete inputs, with the reference canonicalizer and digest. *)

Module Records.
#[local] Existing Instance reference_crypto.

Definition reservation : res PlanningContractError ModelCallReservation :=
  ModelCallReservation_new "run-1" 1 "planner" 1 1 4 (digest_of "head") (digest_of "context")
    (digest_of "request").

Definition bound : res PlanningContractError (PlannedInvocationBinding * PlannedInvocationMaterialRecord) :=
  PlannedInvocationMaterialRecord_bind "run-1" "a" (digest_of "proposal") (plan_spec "a") plan_reference.

(** An intent whose authorization covers a material digest and an ephemeral retention. *)
Definition intent : res InvocationMaterialError EffectIntent :=
  let? retention := invocation_material_retention_digest InvocationMaterialRetention.Ephemeral in
  Ok (EffectIntent.mk "effect-a" (digest_of "write")
        (InvocationBinding.mk "fs.write" "1.0.0" (digest_of "definition") "instance" (digest_of "instance"))
        EffectClass.NonIdempotent None SinkGuarantee.None
        (AuthorizationUse.mk "grant" (digest_of "grant") 1
           (AuthorizationBinding.mk "run-1" "a" "local" 1 3 (digest_of "head") "fs.write" "1.0.0"
              (digest_of "definition") "instance" (digest_of "instance") (digest_of "write")
              (digest_of "input") retention (digest_of "evidence") None))
        (Some (ReceiptProvenance.mk "xgeny.core-receipt/v2" (Some TOOL_OUTPUT_PROFILE_V1) "invocation"
           "plan-1" "decision" (digest_of "policy") "executor" ReceiptPlacement.Local "linux-x86_64"
           "summary" []))).

Definition material : res InvocationMaterialError (EffectIntent * InvocationMaterialRecord) :=
  let? i := intent in
  let? r := InvocationMaterialRecord_new "run-1" "a" i (digest_of "input")
              InvocationMaterialRetention.Ephemeral in
  Ok (i, r).

Definition output : Value :=
  obj (field "path" ("notes.txt" : string) ++ field "sizes" [3%N; 14%N] ++ field "ok" true).

Definition tool_output : res unit (EffectIntent * ToolOutputRecord) :=
  let? i := erase intent in
  let? r := erase (ToolOutputRecord_new "run-1" "a" i 1 (digest_of "evidence") output) in
  Ok (i, r).

Definition completion : res unit (CompletionOutputRecord * ExpectedPlanningTurn) :=
  let? reserved := erase reservation in
  let? r := erase (CompletionOutputRecord_bind "run-1" 1 (ModelCallReservation.call_id reserved)
                     (digest_of "context") "done") in
  let? d := erase (CompletionOutputRecord_decision r) in
  Ok (r, d).
End Records.

(** Evaluate the samples from left to right, so that each fixes what the next one reads. *)
Ltac evaluate := repeat (split; [vm_compute; reflexivity|]); vm_compute; reflexivity.

Section witnesses.
#[local] Existing Instance reference_crypto.
#[local] Existing Instance reference_laws.

Lemma reservation_built : ∃ r, Records.reservation = Ok r ∧
  ModelCallReservation_new "run-1" 1 (ModelCallReservation.planner_id r)
    (ModelCallReservation.call_index r) (ModelCallReservation.turn_index r)
    (ModelCallReservation.base_sequence r) (ModelCallReservation.base_head_digest r)
    (ModelCallReservation.context_digest r) (ModelCallReservation.request_digest r) = Ok r ∧
  ModelCallReservation_validate_for r "run-1" 1 = Ok tt ∧
  ijson_N (ModelCallReservation.call_index r) ∧ ijson_N (ModelCallReservation.turn_index r) ∧
  ijson_N (ModelCallReservation.base_sequence r).
Proof. eexists. evaluate. Qed.

Lemma ijson_one : ijson_N 1.
Proof. vm_compute. reflexivity. Qed.

Lemma bound_rebuilds : ∃ b r, Records.bound = Ok (b, r) ∧
  PlannedInvocationMaterialRecord_bind "run-1" "a" (PlannedInvocationBinding.proposal_digest b)
    (as_spec b) (PlannedInvocationMaterialRecord.reference r) = Ok (b, r).
Proof. eexists _, _. evaluate. Qed.

Lemma bound_verifies : ∃ b r, Records.bound = Ok (b, r) ∧
  PlannedInvocationMaterialRecord_verify_for r "run-1" "a" b = Ok tt.
Proof. eexists _, _. evaluate. Qed.

Lemma reference_jcs_total : jcs_total.
Proof. intros v _. eexists. reflexivity. Qed.

Lemma planned_bind_total_witness : is_ok Records.bound.
Proof.
  apply planned_bind_total; [exact reference_jcs_total|].
  split_and!; exists tt; vm_compute; reflexivity.
Defined.

Lemma material_verifies : ∃ i r, Records.material = Ok (i, r) ∧
  InvocationMaterialRecord_verify_for r "run-1" "a" i = Ok tt.
Proof. eexists _, _. evaluate. Qed.

Lemma grant_digested : ∃ i d, Records.intent = Ok i ∧
  authorization_digest (AuthorizationUse.binding (EffectIntent.authorization i)) 1 = Ok d ∧
  ijson_numbers (ser (AuthorizationUse.binding (EffectIntent.authorization i))) = true.
Proof. eexists _, _. evaluate. Qed.

Lemma grant_named : ∃ g, once_authorization_id "run-1" (digest_of "write") = Ok g.
Proof. eexists. vm_compute. reflexivity. Qed.

Lemma tool_output_verifies : ∃ i r, Records.tool_output = Ok (i, r) ∧
  ToolOutputRecord_verify_for r "run-1" "a" i 1 (digest_of "evidence") = Ok tt ∧
  ToolOutputRecord.output r = Records.output.
Proof. eexists _, _. evaluate. Qed.

Lemma completion_verifies : ∃ r d, Records.completion = Ok (r, d) ∧
  CompletionOutputRecord_verify_for r "run-1" d (CompletionOutputRecord.candidate_id r)
    (CompletionOutputRecord.summary_digest r) = Ok tt.
Proof. eexists _, _. evaluate. Qed.

End witnesses.
