(* ===== verification/RunInvariant.v ===== *)
(** The invariant of a run: the abstract run machine with the four kinds of change an event makes,
    the dependency-graph lemmas each needs, the proof that the reducer only makes such changes,
    and that it is total. *)

From S2P Require Import Prelude Text Wire WorkGraphTypes WorkGraphErrors WorkGraphWire Planning.
From S2P Require Import Material ToolOutput Frontier FrontierProofs FrontierTheorems Journal.
From S2P Require Import AgentLoop Plans Effects StepMachine Reducer.

(** ** Dependency graphs under change *)

(** Writing a step that keeps its dependencies, keeps a release, and starts only with its
    dependencies released. *)
Lemma frontier_wf_update steps id st st' :
  frontier_wf steps → steps !! id = Some st →
  StepState.depends_on st' = StepState.depends_on st →
  (receipt_releases_dependency st = true → receipt_releases_dependency st' = true) →
  (StepState.status st = StepStatus.Planned → StepState.status st' ≠ StepStatus.Planned →
   ∀ d, d ∈ StepState.depends_on st → released steps d) →
  frontier_wf (<[id := st']> steps).
Proof.
  intros [[Hself Hdup Hknown] [rank Hrank] Hact] Hst Hdeps Hrel Hstart.
  assert (Hedge : ∀ d i, edge (<[id := st']> steps) d i → edge steps d i).
  { intros d i (si & Hsi & Hd). apply lookup_insert_Some in Hsi as [[<- <-]|[_ Hsi]].
    - exists st. by rewrite <-Hdeps.
    - by exists si. }
  assert (Hrelease : ∀ d, released steps d → released (<[id := st']> steps) d).
  { intros d (sd & Hsd & Hr). destruct (decide (id = d)) as [<-|Hne].
    - exists st'. rewrite lookup_insert_eq. split; [done|]. apply Hrel. congruence.
    - exists sd. by rewrite lookup_insert_ne. }
  split.
  - split.
    + intros i He. by eapply Hself, Hedge.
    + intros i si Hsi. apply lookup_insert_Some in Hsi as [[<- <-]|[_ Hsi]]; [|by eapply Hdup].
      rewrite Hdeps. by eapply Hdup.
    + intros d i He%Hedge. rewrite lookup_insert_is_Some. destruct (decide (id = d)); [by left|].
      right. split; [done|]. by eapply Hknown.
  - exists rank. intros d i He. by apply Hrank, Hedge.
  - intros i si d Hsi Hs Hd. apply Hrelease.
    apply lookup_insert_Some in Hsi as [[<- <-]|[_ Hsi]]; [|by eapply Hact].
    rewrite Hdeps in Hd. destruct (decide (StepState.status st = StepStatus.Planned)) as [Hp|Hp].
    + by apply Hstart.
    + by eapply Hact.
Qed.

Definition rank_sum (rank : string → nat) (l : list string) : nat :=
  foldr (λ d n, rank d + n) 0 l.

Lemma rank_le_sum rank l d : d ∈ l → rank d ≤ rank_sum rank l.
Proof.
  unfold rank_sum. induction l as [|x l IH]; [by intros ?%elem_of_nil|].
  cbn. intros [->|Hd%IH]%elem_of_cons; lia.
Qed.

(** Adding a planned step that depends on known steps. *)
Lemma frontier_wf_insert steps id st :
  frontier_wf steps → steps !! id = None → StepState.status st = StepStatus.Planned →
  NoDup (StepState.depends_on st) → id ∉ StepState.depends_on st →
  (∀ d, d ∈ StepState.depends_on st → is_Some (steps !! d)) →
  frontier_wf (<[id := st]> steps).
Proof.
  intros [[Hself Hdup Hknown] [rank Hrank] Hact] Hid Hp Hnd Hno Hk.
  assert (Hne : ∀ d, released steps d → id ≠ d) by (intros d (sd & Hsd & _) ->; congruence).
  split.
  - split.
    + intros i (si & Hsi & Hd). apply lookup_insert_Some in Hsi as [[<- <-]|[_ Hsi]]; [done|].
      eapply (Hself i). by exists si.
    + intros i si Hsi. apply lookup_insert_Some in Hsi as [[<- <-]|[_ Hsi]]; [done|by eapply Hdup].
    + intros d i (si & Hsi & Hd). rewrite lookup_insert_is_Some. destruct (decide (id = d)); [by left|].
      right. split; [done|]. apply lookup_insert_Some in Hsi as [[<- <-]|[_ Hsi]]; [by apply Hk|].
      eapply Hknown. by exists si.
  - exists (λ i, if bool_decide (i = id)
                 then S (rank_sum rank (StepState.depends_on st)) else rank i).
    intros d i (si & Hsi & Hd). apply lookup_insert_Some in Hsi as [[<- <-]|[Hne' Hsi]].
    + rewrite bool_decide_eq_false_2 by (by intros ->). rewrite bool_decide_eq_true_2 by done.
      apply Nat.lt_succ_r. by apply rank_le_sum.
    + assert (edge steps d i) as He by (by exists si).
      rewrite !bool_decide_eq_false_2; [by apply Hrank| |]; [by intros ->|].
      intros ->. apply Hknown in He as [? ?]. congruence.
  - intros i si d Hsi Hs Hd. apply lookup_insert_Some in Hsi as [[<- <-]|[_ Hsi]]; [done|].
    pose proof (Hact i si d Hsi Hs Hd) as Hr. destruct Hr as (sd & Hsd & Hr).
    exists sd. split; [|done]. rewrite lookup_insert_ne; [done|]. apply Hne. by exists sd.
Qed.

(** ** Attempts under change *)

Lemma attempts_of_cons st l : attempts_of (st :: l) = (StepState.attempts st + attempts_of l)%N.
Proof. done. Qed.

Lemma attempts_of_perm l1 l2 : l1 ≡ₚ l2 → attempts_of l1 = attempts_of l2.
Proof. induction 1; rewrite ?attempts_of_cons; lia. Qed.

Lemma attempts_insert steps id st :
  steps !! id = None →
  attempts_of (btree_values (<[id := st]> steps))
  = (StepState.attempts st + attempts_of (btree_values steps))%N.
Proof. intros Hid. by rewrite (attempts_of_perm _ _ (btree_values_insert steps id st Hid)). Qed.

Lemma attempts_update steps id st st' :
  steps !! id = Some st →
  (attempts_of (btree_values (<[id := st']> steps)) + StepState.attempts st
   = attempts_of (btree_values steps) + StepState.attempts st')%N.
Proof.
  intros Hst. destruct (btree_values_update steps id st st' Hst) as (l & H1 & H2).
  rewrite (attempts_of_perm _ _ H1), (attempts_of_perm _ _ H2), !attempts_of_cons. lia.
Qed.

(** ** The machine *)

(** New steps are planned, under their own id; old ones are untouched. *)
Definition grown (old new : steps_map) : Prop :=
  (∀ id st, old !! id = Some st → new !! id = Some st) ∧
  ∀ id st, new !! id = Some st → old !! id = Some st ∨
    old !! id = None ∧ StepState.step_id st = id ∧ StepState.status st = StepStatus.Planned ∧
    StepState.intent st = None ∧ StepState.attempts st = 0%N.

Definition all_released (steps : steps_map) : Prop :=
  steps ≠ ∅ ∧ ∀ id, is_Some (steps !! id) → released steps id.

(** The loop state an event writes without touching the steps. *)
Definition loop_written (s : RunState) (l' : AgentLoopState) : Prop :=
  turns_ok (RunState.journal_sequence s + 1) l' ∧
  match RunState.agent_loop s with
  | None =>
      (N.of_nat (size (RunState.steps s)) ≤ u32_max)%N ∧
      (N.of_nat (size (RunState.steps s)) ≤ AgentLoopBudget.max_planned_steps (AgentLoopState.budget l'))%N ∧
      (run_attempts s ≤ AgentLoopBudget.max_tool_calls (AgentLoopState.budget l'))%N ∧
      AgentLoopState.completion_candidate l' = None
  | Some l =>
      AgentLoopState.budget l' = AgentLoopState.budget l ∧
      (AgentLoopState.completion_candidate l' = AgentLoopState.completion_candidate l ∨
       AgentLoopState.completion_candidate l = None ∧ all_released (RunState.steps s))
  end.

(** The loop state written along with new planned steps. *)
Definition loop_grown (s : RunState) (new : steps_map) (lo' : option AgentLoopState) : Prop :=
  match RunState.agent_loop s, lo' with
  | None, None => size new ≤ S (size (RunState.steps s))
  | Some l, Some l' =>
      AgentLoopState.budget l' = AgentLoopState.budget l ∧
      AgentLoopState.completion_candidate l = None ∧
      AgentLoopState.completion_candidate l' = None ∧
      turns_ok (RunState.journal_sequence s + 1) l' ∧
      (N.of_nat (size new) ≤ u32_max)%N ∧
      (N.of_nat (size new) ≤ AgentLoopBudget.max_planned_steps (AgentLoopState.budget l'))%N
  | _, _ => False
  end.

Inductive change `{Crypto} (s : RunState) (body : RunEventBody) : RunState → Prop :=
| ch_loop l' :
    lifecycle_step body = None → loop_written s l' →
    change s body (RunState.set_agent_loop (Some l') s)
| ch_plan new lo' :
    lifecycle_step body = None →
    grown (RunState.steps s) new → frontier_wf new → loop_grown s new lo' →
    attempts_of (btree_values new) = run_attempts s →
    change s body (RunState.set_agent_loop lo' (RunState.set_steps new s))
| ch_commit id intent st effects :
    lifecycle_step body = None → committed s id intent st →
    match RunState.authorization_consumption s
            !! AuthorizationUse.grant_id (EffectIntent.authorization intent) with
    | None => effects = ∅
    | Some c => AuthorizationConsumption.uses c = 0%N ∧ effects = AuthorizationConsumption.effect_ids c
    end →
    change s body (put_step (RunState.set_consumption (consumed s intent 0 effects) s) id
                     (StepState.set_status StepStatus.IntentCommitted
                        (StepState.set_intent (Some intent) st)))
| ch_lifecycle id st st' :
    lifecycle_step body = Some id →
    RunState.steps s !! id = Some st → lifecycle body st st' → start_allowed s body →
    change s body (put_step s id st').

(** The invariant of every reachable run, its preservation by the abstract machine and the
    induction principle for replayed journals. *)

(** ** The invariant *)

(** Steps: keys, dependency graph, and the size of the map. *)
Record steps_ok (s : RunState) : Prop := {
  so_keys id st : RunState.steps s !! id = Some st → StepState.step_id st = id;
  so_wf : frontier_wf (RunState.steps s);
  so_intent id st : RunState.steps s !! id = Some st →
    StepState.status st = StepStatus.Planned ↔ StepState.intent st = None;
  so_attempts id st : RunState.steps s !! id = Some st → (StepState.attempts st ≤ u32_max)%N;
  so_size : match RunState.agent_loop s with
            | None => (N.of_nat (size (RunState.steps s)) ≤ RunState.journal_sequence s)%N
            | Some l => (N.of_nat (size (RunState.steps s)) ≤ u32_max)%N ∧
                (N.of_nat (size (RunState.steps s))
                 ≤ AgentLoopBudget.max_planned_steps (AgentLoopState.budget l))%N
            end;
}.

(** The one use of a grant. *)
Definition used_once (intent : EffectIntent) : AuthorizationConsumption :=
  AuthorizationConsumption.mk (AuthorizationUse.grant_digest (EffectIntent.authorization intent)) 1 1
    {[EffectIntent.effect_id intent]}.

(** Effects: every intent is authorised for its step and owns its grant; effect ids are
    distinct; no grant is spent without an intent. *)
Record effects_ok `{Crypto} (s : RunState) : Prop := {
  eo_authorized id st a : RunState.steps s !! id = Some st → StepState.intent st = Some a →
    authorized s id a ∧
    RunState.authorization_consumption s !! AuthorizationUse.grant_id (EffectIntent.authorization a)
      = Some (used_once a) ∧
    (AuthorizationBinding.issued_at_sequence (AuthorizationUse.binding (EffectIntent.authorization a))
     < RunState.journal_sequence s)%N;
  eo_distinct i j si sj a b : RunState.steps s !! i = Some si → RunState.steps s !! j = Some sj →
    StepState.intent si = Some a → StepState.intent sj = Some b →
    EffectIntent.effect_id a = EffectIntent.effect_id b → i = j;
  eo_spent g c : RunState.authorization_consumption s !! g = Some c →
    ∃ id st a, RunState.steps s !! id = Some st ∧ StepState.intent st = Some a ∧
      g = AuthorizationUse.grant_id (EffectIntent.authorization a);
}.

(** The loop: budgets, and a completion candidate only over a released run. *)
Definition loop_ok (s : RunState) : Prop :=
  ∀ l, RunState.agent_loop s = Some l →
    turns_ok (RunState.journal_sequence s) l ∧
    (run_attempts s ≤ AgentLoopBudget.max_tool_calls (AgentLoopState.budget l))%N ∧
    (is_Some (AgentLoopState.completion_candidate l) → all_released (RunState.steps s)).

Record run_inv `{Crypto} (s : RunState) : Prop := {
  ri_steps : steps_ok s;
  ri_effects : effects_ok s;
  ri_loop : loop_ok s;
  ri_seq : (1 ≤ RunState.journal_sequence s ≤ u64_max)%N;
}.

Lemma run_inv_fits `{Crypto} s : run_inv s → fits_usize (RunState.steps s).
Proof.
  intros [[_ _ _ _ Hsize] _ _ Hseq]. unfold fits_usize, usize_max, u64_max, u32_max in *.
  destruct (RunState.agent_loop s); lia.
Qed.

(** ** The reducer makes only the changes of the machine *)

Lemma derived_wf state f :
  fits_usize (RunState.steps state) → derive_frontier state = Ok f →
  frontier_wf (RunState.steps state).
Proof. intros Hfits Hf. by destruct (derived_inv state f Hfits Hf) as (a & _ & Hwf & _). Qed.

Lemma planned_into_grown old plan :
  NoDup (plan_ids plan) → (∀ id, id ∈ plan_ids plan → old !! id = None) →
  grown old (planned_into old plan).
Proof.
  intros Hnd Hfresh. split.
  - intros id st Hst. rewrite planned_into_old; [done|]. intros Hid%Hfresh. congruence.
  - intros id st [Hst|(p & Hp & -> & ->)]%planned_into_inv; [by left|right].
    split_and!; try done. apply Hfresh. unfold plan_ids.
    apply list_elem_of_fmap. by exists p.
Qed.

Lemma planned_into_attempts old plan :
  NoDup (plan_ids plan) → (∀ id, id ∈ plan_ids plan → old !! id = None) →
  attempts_of (btree_values (planned_into old plan)) = attempts_of (btree_values old).
Proof.
  revert old. induction plan as [|p plan IH]; intros old Hnd Hfresh; [done|].
  cbn in Hnd, Hfresh. apply NoDup_cons in Hnd as [Hp Hnd].
  change (planned_into old (p :: plan))
    with (planned_into (<[AcceptedPlanStep.step_id p:=accepted_step_state p]> old) plan).
  rewrite IH; [|done|].
  - rewrite attempts_insert by (apply Hfresh; left). done.
  - intros id Hid. rewrite lookup_insert_ne by set_solver. apply Hfresh. by right.
Qed.

Section machine.
Context `{Crypto} (s : RunState).
Hypothesis Hinv : run_inv s.

Lemma loop_ok_turns l :
  RunState.agent_loop s = Some l → turns_ok (RunState.journal_sequence s) l.
Proof. intros Hl. by destruct (ri_loop _ Hinv l Hl). Qed.

(** Model-call events write the loop only. *)
Lemma change_calls body l l' :
  lifecycle_step body = None → RunState.agent_loop s = Some l →
  AgentLoopState.budget l' = AgentLoopState.budget l →
  AgentLoopState.completion_candidate l' = AgentLoopState.completion_candidate l →
  turns_ok (RunState.journal_sequence s + 1) l' →
  change s body (RunState.set_agent_loop (Some l') s).
Proof.
  intros Hbody Hl Hb Hc Ht. apply ch_loop; [done|]. split; [done|]. rewrite Hl. split; [done|by left].
Qed.

Lemma change_configure budget s' :
  configure_agent_loop s budget = Ok s' → change s (RunEventBody.AgentLoopConfigured budget) s'.
Proof.
  intros (Hl & -> & Hsz & Hmax & n & Hn & Hle)%configure_agent_loop_Ok.
  apply total_attempts_Ok in Hn as ->. apply ch_loop; [done|]. split.
  - split; cbn; [lia|done].
  - by rewrite Hl.
Qed.

Lemma change_model_call body s' l :
  RunState.agent_loop s = Some l →
  match body with
  | RunEventBody.ModelCallLifecycleConfigured b => configure_model_call_lifecycle s b = Ok s'
  | RunEventBody.ModelCallReserved r => reserve_model_call s r = Ok s'
  | RunEventBody.ModelCallBecameUnknown c r => mark_model_call_unknown s c r = Ok s'
  | RunEventBody.ModelCallSettled c x => settle_model_call s c x = Ok s'
  | _ => False
  end → change s body s'.
Proof.
  intros Hl Hb. pose proof (loop_ok_turns l Hl) as Ht.
  destruct body; try done.
  - eapply turns_configure_calls in Hb as (l' & -> & ? & ? & ?); [|done..].
    eapply change_calls; try done. eapply turns_ok_later; [|done]. lia.
  - eapply turns_reserve in Hb as (l' & -> & ? & ? & ?); [|done..]. by eapply change_calls.
  - eapply turns_unknown in Hb as (l' & -> & ? & ? & ?); [|done..].
    eapply change_calls; try done. eapply turns_ok_later; [|done]. lia.
  - eapply turns_settle in Hb as (l' & -> & ? & ? & ?); [|done..].
    eapply change_calls; try done. eapply turns_ok_later; [|done]. lia.
Qed.

Lemma change_accept decision plan s' :
  accept_plan s decision plan = Ok s' → change s (RunEventBody.PlanAccepted decision plan) s'.
Proof.
  intros (l & l' & f & Hpa & ->)%accept_plan_Ok; [|apply (ri_steps _ Hinv)].
  destruct Hpa as [Hl Hopen Hbud Hturn _ Hopen' Hturns Hne [Hs1 Hs2] Hhd _ Hf].
  destruct Hhd as [_ Hnd Hfresh _ _ _].
  pose proof (planned_into_size _ _ Hnd Hfresh) as Hsize.
  apply ch_plan; [done|..].
  - by apply planned_into_grown.
  - refine (derived_wf _ _ _ Hf).
    unfold fits_usize, usize_max, u64_max, u32_max in *.
    cbn [RunState.steps RunState.set_steps]. rewrite Hsize. lia.
  - unfold loop_grown. rewrite Hl, Hsize, Hbud. split_and!; try done.
    eapply turns_ok_later; [|apply Hturns, loop_ok_turns]; [lia|done].
  - by apply planned_into_attempts.
Qed.

Lemma change_completion decision cid summary output s' :
  record_completion_candidate s decision cid summary output = Ok s' →
  change s (RunEventBody.CompletionCandidateRecorded decision cid summary output) s'.
Proof.
  intros (l & l' & f & Hl & -> & Hbud & Hopen & Hcand & Ht & Hf & Hall)%record_completion_Ok.
  apply ch_loop; [done|]. split.
  - eapply turns_ok_later; [|apply Ht, loop_ok_turns]; [lia|done].
  - rewrite Hl. split; [done|]. right. split; [done|].
    eapply all_completed_iff; [by apply run_inv_fits|exact Hf|exact Hall].
Qed.

Lemma change_plan_step id objective deps s' :
  plan_step s id objective deps None = Ok s' →
  change s (RunEventBody.StepPlanned id objective deps) s'.
Proof.
  intros (-> & Hid & Hnd & Hno & Hk & Hloop)%plan_step_Ok.
  destruct (ri_steps _ Hinv) as [Hkeys Hwf _ _ _].
  set (new := <[id := _]> (RunState.steps s)).
  assert (Hsize : size new = S (size (RunState.steps s))) by (by apply map_size_insert_None).
  replace (RunState.set_steps new s)
    with (RunState.set_agent_loop (RunState.agent_loop s) (RunState.set_steps new s)) by (by destruct s).
  apply ch_plan; [done|..].
  - split; unfold new.
    + intros i st Hst. rewrite lookup_insert_ne; [done|]. congruence.
    + intros i st [[<- <-]|[_ Hst]]%lookup_insert_Some; [right|by left]. by split_and!.
  - by apply frontier_wf_insert.
  - unfold loop_grown. rewrite Hsize. destruct (RunState.agent_loop s) as [l|] eqn:Hl; [|lia].
    destruct (Hloop l eq_refl) as (? & ? & ?). split_and!; try done.
    eapply turns_ok_later; [|by apply loop_ok_turns]. lia.
  - unfold new. by rewrite attempts_insert.
Qed.

Lemma apply_body_change body s' : apply_body s body = Ok s' → change s body s'.
Proof.
  intros Hb. destruct body; cbn [apply_body] in Hb; try done.
  1: by eapply change_configure.
  1-4: destruct (RunState.agent_loop s) as [l|] eqn:Hl;
    [|exfalso; unfold configure_model_call_lifecycle, reserve_model_call, mark_model_call_unknown,
        settle_model_call, require_loop in Hb; rewrite Hl in Hb; by res_inv].
  1: by eapply (change_model_call (RunEventBody.ModelCallLifecycleConfigured budget)).
  1: by eapply (change_model_call (RunEventBody.ModelCallReserved reservation)).
  1: by eapply (change_model_call (RunEventBody.ModelCallBecameUnknown call_id reason)).
  1: by eapply (change_model_call (RunEventBody.ModelCallSettled call_id settlement)).
  1: by eapply change_accept.
  1: by eapply change_completion.
  1: by eapply change_plan_step.
  1: { apply commit_Ok in Hb as (st & effects & Hc & He & ->). by apply ch_commit. }
  all: apply lifecycle_sound in Hb as (id & st & st' & Hid & Hst & Hlc & Hstart & ->);
    by eapply ch_lifecycle.
Qed.
End machine.

(** ** Preservation *)

(** The step a commit or a lifecycle event writes. *)
Record step_written (s : RunState) (id : string) (st st' : StepState) : Prop := {
  sw_step : RunState.steps s !! id = Some st;
  sw_identity : same_identity st st';
  sw_open : StepState.status st ≠ StepStatus.Completed;
  sw_unplanned : StepState.status st' ≠ StepStatus.Planned ∧ is_Some (StepState.intent st');
  sw_attempts : (StepState.attempts st' ≤ u32_max)%N;
  sw_start : StepState.status st = StepStatus.Planned →
    ∀ d, d ∈ StepState.depends_on st → released (RunState.steps s) d;
}.

Lemma next_status_open s1 s2 :
  next_status s1 s2 = true → s1 ≠ StepStatus.Completed ∧ s2 ≠ StepStatus.Planned.
Proof. destruct s1, s2; done. Qed.

Lemma lifecycle_attempts body st st' :
  lifecycle body st st' → (StepState.attempts st ≤ u32_max)%N → (StepState.attempts st' ≤ u32_max)%N.
Proof. by destruct 1. Qed.

Section preserve.
Context `{Crypto} (s : RunState).
Hypothesis Hinv : run_inv s.

Lemma commit_written id intent st :
  committed s id intent st →
  step_written s id st (StepState.set_status StepStatus.IntentCommitted
                          (StepState.set_intent (Some intent) st)).
Proof.
  intros [Hst Hp Hrel _ _ _ _ _ _]. split; try done.
  - congruence.
  - exact (so_attempts _ (ri_steps _ Hinv) id st Hst).
Qed.

Lemma lifecycle_written body id st st' :
  RunState.steps s !! id = Some st → lifecycle body st st' → step_written s id st st'.
Proof.
  intros Hst Hlc. destruct (lifecycle_read _ _ _ Hlc) as [Hid Hint Hnext Hnp _].
  destruct (next_status_open _ _ Hnext) as [Hopen Hnp'].
  split; try done.
  - split; [done|]. rewrite Hint. apply not_eq_None_Some. intros Hnone.
    by apply Hnp, (so_intent _ (ri_steps _ Hinv) id st Hst).
  - eapply lifecycle_attempts; [done|]. exact (so_attempts _ (ri_steps _ Hinv) id st Hst).
Qed.

Lemma step_written_steps id st st' :
  step_written s id st st' →
  let new := <[id := st']> (RunState.steps s) in
  (∀ i si, new !! i = Some si → StepState.step_id si = i) ∧ frontier_wf new ∧
  (∀ i si, new !! i = Some si → StepState.status si = StepStatus.Planned ↔ StepState.intent si = None) ∧
  (∀ i si, new !! i = Some si → (StepState.attempts si ≤ u32_max)%N) ∧
  size new = size (RunState.steps s).
Proof.
  intros [Hst (Hid & _ & Hdeps & _) Hopen [Hnp Hint] Hatt Hstart] new.
  destruct (ri_steps _ Hinv) as [Hkeys Hwf Hintent Hattempts _]. unfold new. split_and!.
  - intros i si [[<- <-]|[_ Hsi]]%lookup_insert_Some; [|by apply Hkeys].
    rewrite Hid. by apply Hkeys.
  - eapply frontier_wf_update; [done..| |intros Hp _; by apply Hstart].
    intros Hr%releases_completed. done.
  - intros i si [[<- <-]|[_ Hsi]]%lookup_insert_Some; [|by eapply Hintent].
    destruct Hint as [? ->]. by split.
  - intros i si [[<- <-]|[_ Hsi]]%lookup_insert_Some; [done|by eapply Hattempts].
  - by eapply map_size_insert_Some.
Qed.

Lemma steps_ok_head body s' d :
  change s body s' → steps_ok (RunState.set_head (RunState.journal_sequence s + 1) d s').
Proof.
  intros Hch. destruct (ri_steps _ Hinv) as [Hkeys Hwf Hintent Hattempts Hsize].
  destruct Hch as [l' _ [Ht Hl]|new lo' _ [Hold Hnew] Hwf' Hlo Hatt|id intent st effects _ Hc He|id st st' _ Hst Hlc Hs].
  - split; cbn; try done. destruct (RunState.agent_loop s) as [l|].
    + destruct Hl as [-> _]. done.
    + by destruct Hl as (? & ? & _).
  - split; cbn; try done.
    + intros i si [Hsi|(_ & ? & _)]%Hnew; [by apply Hkeys|done].
    + intros i si [Hsi|(_ & _ & ? & ? & _)]%Hnew; [by eapply Hintent|by split].
    + intros i si [Hsi|(_ & _ & _ & _ & ->)]%Hnew; [by eapply Hattempts|done].
    + unfold loop_grown in Hlo. destruct (RunState.agent_loop s), lo'; try done; [|lia].
      by destruct Hlo as (_ & _ & _ & _ & ? & ?).
  - destruct (step_written_steps _ _ _ (commit_written _ _ _ Hc)) as (? & ? & ? & ? & Hsz).
    split; cbn; try done. cbn in Hsz. rewrite Hsz. destruct (RunState.agent_loop s); [done|lia].
  - destruct (step_written_steps _ _ _ (lifecycle_written _ _ _ _ Hst Hlc)) as (? & ? & ? & ? & Hsz).
    split; cbn; try done. cbn in Hsz. rewrite Hsz. destruct (RunState.agent_loop s); [done|lia].
Qed.

(** The intents of a step map. *)
Definition intent_at (steps : steps_map) (i : string) (a : EffectIntent) : Prop :=
  ∃ st, steps !! i = Some st ∧ StepState.intent st = Some a.

(** Effects survive any change that keeps identities, intents and consumption. *)
Lemma effects_ok_same s' :
  (∀ i a, intent_at (RunState.steps s') i a ↔ intent_at (RunState.steps s) i a) →
  RunState.authorization_consumption s' = RunState.authorization_consumption s →
  RunState.run_id s' = RunState.run_id s → RunState.authority s' = RunState.authority s →
  RunState.authority_epoch s' = RunState.authority_epoch s →
  (RunState.journal_sequence s ≤ RunState.journal_sequence s')%N →
  effects_ok s'.
Proof.
  intros Hint Hcons Hrun Haut Hep Hseq. destruct (ri_effects _ Hinv) as [Hauth Hdist Hspent].
  split.
  - intros id st a Hst Ha.
    destruct (proj1 (Hint id a)) as (st0 & Hst0 & Ha0); [by exists st|].
    destruct (Hauth _ _ _ Hst0 Ha0) as (Hau & Hc & Hlt). rewrite Hcons. split_and!; [|done|lia].
    destruct Hau. split; congruence.
  - intros i j si sj a b Hi Hj Ha Hb.
    destruct (proj1 (Hint i a)) as (? & ? & ?); [by exists si|].
    destruct (proj1 (Hint j b)) as (? & ? & ?); [by exists sj|]. by eapply Hdist.
  - rewrite Hcons. intros g c (id & st & a & Hst & Ha & ->)%Hspent.
    destruct (proj2 (Hint id a)) as (? & ? & ?); [by exists st|]. eauto 6.
Qed.

(** The grant of an intent being committed was never spent: a spent one has no use left. *)
Lemma fresh_grant g effects :
  match RunState.authorization_consumption s !! g with
  | None => effects = ∅
  | Some c => AuthorizationConsumption.uses c = 0%N ∧ effects = AuthorizationConsumption.effect_ids c
  end → RunState.authorization_consumption s !! g = None.
Proof.
  intros He. destruct (ri_effects _ Hinv) as [Hauth _ Hspent].
  destruct (_ !! g) as [c|] eqn:Hg; [|done]. exfalso.
  destruct (Hspent _ _ Hg) as (i & si & a & Hsi & Ha & Hga).
  destruct (Hauth _ _ _ Hsi Ha) as (_ & Hu & _). rewrite <-Hga, Hg in Hu.
  injection Hu as ->. by destruct He.
Qed.

(** A fresh effect spends a fresh grant. *)
Lemma effects_ok_commit id intent st effects d :
  committed s id intent st →
  match RunState.authorization_consumption s
          !! AuthorizationUse.grant_id (EffectIntent.authorization intent) with
  | None => effects = ∅
  | Some c => AuthorizationConsumption.uses c = 0%N ∧ effects = AuthorizationConsumption.effect_ids c
  end →
  effects_ok (RunState.set_head (RunState.journal_sequence s + 1) d
    (put_step (RunState.set_consumption (consumed s intent 0 effects) s) id
                (StepState.set_status StepStatus.IntentCommitted
                   (StepState.set_intent (Some intent) st)))).
Proof.
  intros Hc He. destruct (ri_effects _ Hinv) as [Hauth Hdist Hspent].
  set (g := AuthorizationUse.grant_id (EffectIntent.authorization intent)) in *.
  assert (Hnew : RunState.authorization_consumption s !! g = None).
  { by eapply fresh_grant. }
  rewrite Hnew in He. subst effects.
  assert (Hnone : StepState.intent st = None).
  { apply (so_intent _ (ri_steps _ Hinv) id); [apply (cm_step _ _ _ _ Hc)|apply (cm_planned _ _ _ _ Hc)]. }
  assert (Hcons : consumed s intent 0 ∅ = <[g := used_once intent]> (RunState.authorization_consumption s)).
  { unfold consumed, used_once. fold g. by rewrite union_empty_r_L. }
  split; cbn; rewrite ?Hcons.
  - intros i si a [[<- <-]|[Hne Hsi]]%lookup_insert_Some.
    + intros [= <-]. fold g. rewrite lookup_insert_eq. split_and!; [|done|].
      * destruct (cm_authorized _ _ _ _ Hc). by split.
      * destruct (cm_head _ _ _ _ Hc) as [-> _]. lia.
    + intros Ha. destruct (Hauth _ _ _ Hsi Ha) as (Hau & Hu & Hlt). split_and!; [|..|lia].
      * destruct Hau. by split.
      * rewrite lookup_insert_ne; [done|]. intros Heq. rewrite <-Heq, Hnew in Hu. done.
  - intros i j si sj a b [[<- <-]|[Hne Hsi]]%lookup_insert_Some [[<- <-]|[Hne' Hsj]]%lookup_insert_Some;
      [done|..|by eapply Hdist].
    + intros [= <-] Hb Heq. exfalso. by eapply (cm_fresh _ _ _ _ Hc).
    + intros Ha [= <-] Heq. exfalso. by eapply (cm_fresh _ _ _ _ Hc).
  - intros g' c [[<- <-]|[Hne Hg]]%lookup_insert_Some.
    + exists id. eexists. exists intent. by rewrite lookup_insert_eq.
    + destruct (Hspent _ _ Hg) as (i & si & a & Hsi & Ha & ->). exists i, si, a.
      split_and!; [|done..]. rewrite lookup_insert_ne; [done|]. intros ->.
      rewrite (cm_step _ _ _ _ Hc) in Hsi. injection Hsi as <-. congruence.
Qed.

Lemma effects_ok_head body s' d :
  change s body s' → effects_ok (RunState.set_head (RunState.journal_sequence s + 1) d s').
Proof.
  intros Hch.
  destruct Hch as [l' _ _|new lo' _ [Hold Hnew] _ _ _|id intent st effects _ Hc He|id st st' _ Hst Hlc _].
  - apply effects_ok_same; cbn; try done. lia.
  - apply effects_ok_same; cbn; try done; [|lia]. intros i a. unfold intent_at. split.
    + intros (si & [Hsi|(_ & _ & _ & Hn & _)]%Hnew & Ha); [by exists si|congruence].
    + intros (si & Hsi%Hold & Ha). by exists si.
  - by eapply effects_ok_commit.
  - apply effects_ok_same; cbn; try done; [|lia]. intros i a. unfold intent_at.
    pose proof (lf_intent _ _ _ (lifecycle_read _ _ _ Hlc)) as Hint. split.
    + intros (si & [[<- <-]|[_ Hsi]]%lookup_insert_Some & Ha); [exists st|by exists si].
      split; [done|congruence].
    + intros (si & Hsi & Ha). destruct (decide (id = i)) as [<-|Hne].
      * exists st'. rewrite lookup_insert_eq. split; [done|]. congruence.
      * exists si. by rewrite lookup_insert_ne.
Qed.

(** Writing a step never happens once every step is released. *)
Lemma written_not_all_released id st st' :
  step_written s id st st' → ¬ all_released (RunState.steps s).
Proof.
  intros [Hst _ Hopen _ _ _] [_ Hall]. destruct (Hall id) as (si & Hsi & Hr); [by exists st|].
  rewrite Hst in Hsi. injection Hsi as <-. by apply Hopen, releases_completed.
Qed.

Lemma loop_ok_written id st st' m d :
  step_written s id st st' →
  (∀ l, RunState.agent_loop s = Some l →
   (attempts_of (btree_values (<[id := st']> (RunState.steps s)))
    ≤ AgentLoopBudget.max_tool_calls (AgentLoopState.budget l))%N) →
  loop_ok (RunState.set_head (RunState.journal_sequence s + 1) d
             (put_step (RunState.set_consumption m s) id st')).
Proof.
  intros Hw Hatt l Hl. cbn in Hl. destruct (ri_loop _ Hinv l Hl) as (Ht & _ & Hc).
  split_and!; cbn.
  - eapply turns_ok_later; [|done]. lia.
  - by apply Hatt.
  - intros Hcand%Hc. by destruct (written_not_all_released _ _ _ Hw).
Qed.

Lemma loop_ok_head body s' d :
  change s body s' → loop_ok (RunState.set_head (RunState.journal_sequence s + 1) d s').
Proof.
  intros Hch.
  destruct Hch as [l' _ [Ht Hl]|new lo' _ _ _ Hlo Hatt|id intent st effects _ Hc He|id st st' _ Hst Hlc Hs].
  - intros l [= <-]. split; [done|]. cbn. change (run_attempts _) with (run_attempts s).
    destruct (RunState.agent_loop s) as [l|] eqn:El.
    + destruct (ri_loop _ Hinv l El) as (_ & Hatt & Hc). destruct Hl as [-> [->|[_ ?]]]; by split.
    + destruct Hl as (_ & _ & Hatt & ->). split; [done|]. by intros [? ?].
  - intros l Hl. cbn in Hl. subst lo'. unfold loop_grown in Hlo.
    destruct (RunState.agent_loop s) as [l0|] eqn:El; [|done].
    destruct Hlo as (Hb & _ & Hc & Ht & _). destruct (ri_loop _ Hinv l0 El) as (_ & Hle & _).
    split_and!; cbn; [done| |rewrite Hc; by intros [? ?]].
    unfold run_attempts at 1. cbn. rewrite Hatt, Hb. done.
  - eapply loop_ok_written; [by apply commit_written|]. intros l Hl.
    destruct (ri_loop _ Hinv l Hl) as (_ & Hle & _).
    pose proof (attempts_update _ _ st (StepState.set_status StepStatus.IntentCommitted
                   (StepState.set_intent (Some intent) st)) (cm_step _ _ _ _ Hc)) as Hu.
    unfold run_attempts in Hle. cbn in Hu. cbn. lia.
  - replace (put_step s id st') with (put_step (RunState.set_consumption
      (RunState.authorization_consumption s) s) id st') by (by destruct s).
    eapply loop_ok_written; [by eapply lifecycle_written|]. intros l Hl.
    destruct (ri_loop _ Hinv l Hl) as (_ & Hle & _).
    pose proof (attempts_update _ _ st st' Hst) as Hu.
    rewrite (lf_attempts _ _ _ (lifecycle_read _ _ _ Hlc)) in Hu.
    unfold run_attempts in Hle. destruct body; try lia.
    cbn in Hs. rewrite Hl in Hs. destruct Hs as [_ Hlt]. unfold run_attempts in Hlt. lia.
Qed.

(** The machine keeps the invariant. *)
Lemma change_run_inv body s' d :
  change s body s' → (RunState.journal_sequence s + 1 ≤ u64_max)%N →
  run_inv (RunState.set_head (RunState.journal_sequence s + 1) d s').
Proof.
  intros Hch Hseq. split.
  - by eapply steps_ok_head.
  - by eapply effects_ok_head.
  - by eapply loop_ok_head.
  - cbn. pose proof (ri_seq _ Hinv). lia.
Qed.
End preserve.

(** ** Records and replay *)

Section replay.
Context `{Crypto}.

Lemma verify_record_Ok state record u :
  verify_record_against_state (Some state) record = Ok u →
  EventRecord.sequence record = (RunState.journal_sequence state + 1)%N ∧
  (RunState.journal_sequence state + 1 ≤ u64_max)%N ∧
  EventRecord.previous_digest record = Some (RunState.journal_head_digest state) ∧
  EventRecord_verify_digest record = Ok tt ∧
  RunEvent.run_id (EventRecord.event record) = RunState.run_id state ∧
  RunEvent.authority (EventRecord.event record) = RunState.authority state ∧
  RunEvent.authority_epoch (EventRecord.event record) = RunState.authority_epoch state.
Proof.
  unfold verify_record_against_state. intros Hv. repeat res_step. checked_inv. bool_inv.
  repeat match goal with x : unit |- _ => destruct x end.
  split_and!; try done; congruence.
Qed.

Lemma verify_first_Ok record u :
  verify_record_against_state None record = Ok u →
  EventRecord.sequence record = 1%N ∧ EventRecord.previous_digest record = None ∧
  EventRecord_verify_digest record = Ok tt.
Proof.
  unfold verify_record_against_state. intros Hv. repeat res_step. bool_inv.
  repeat match goal with x : unit |- _ => destruct x end.
  split_and!; try done; congruence.
Qed.

Lemma apply_first_Ok record s :
  apply_record None record = Ok s →
  ∃ goal, RunEvent.body (EventRecord.event record) = RunEventBody.RunCreated goal ∧
    verify_record_against_state None record = Ok tt ∧
    s = RunState.set_head 1 (EventRecord.digest record) (created (EventRecord.event record) goal).
Proof.
  unfold apply_record. intros Ha. destruct (verify_record_against_state None record) as [[]| |] eqn:Hv;
    cbn [rbind] in Ha; try done.
  destruct (verify_first_Ok _ _ Hv) as (Hseq & _).
  destruct (RunEvent.body (EventRecord.event record)); cbn in Ha; try done.
  injection Ha as <-. rewrite Hseq. eauto.
Qed.

Lemma apply_next_Ok state record s :
  apply_record (Some state) record = Ok s →
  ∃ s1, verify_record_against_state (Some state) record = Ok tt ∧
    apply_body state (RunEvent.body (EventRecord.event record)) = Ok s1 ∧
    s = RunState.set_head (RunState.journal_sequence state + 1) (EventRecord.digest record) s1.
Proof.
  unfold apply_record. intros Ha.
  destruct (verify_record_against_state (Some state) record) as [[]| |] eqn:Hv;
    cbn [rbind] in Ha; try done.
  destruct (verify_record_Ok _ _ _ Hv) as (Hseq & _).
  destruct (RunEvent.body (EventRecord.event record)) eqn:Hb; cbn [rbind] in Ha; try done;
    res_inv; rewrite Hseq; eauto.
Qed.

Lemma run_inv_first record s : apply_record None record = Ok s → run_inv s.
Proof.
  intros (goal & _ & _ & ->)%apply_first_Ok. split.
  - split; cbn; try (by intros ? ?; rewrite lookup_empty); [|by rewrite map_size_empty].
    split; [split|..].
    + intros id (st & Hst & _). by rewrite lookup_empty in Hst.
    + intros id st Hst. by rewrite lookup_empty in Hst.
    + intros d id (st & Hst & _). by rewrite lookup_empty in Hst.
    + exists (λ _, 0). intros d id (st & Hst & _). by rewrite lookup_empty in Hst.
    + intros id st d Hst. by rewrite lookup_empty in Hst.
  - split; cbn.
    + intros id st a. by rewrite lookup_empty.
    + intros i j si sj a b. by rewrite lookup_empty.
    + intros g c. by rewrite lookup_empty.
  - intros l. done.
  - done.
Qed.

Lemma run_inv_next state record s :
  run_inv state → apply_record (Some state) record = Ok s → run_inv s.
Proof.
  intros Hinv (s1 & Hv & Hb & ->)%apply_next_Ok.
  apply verify_record_Ok in Hv as (_ & Hle & _).
  eapply change_run_inv; [done| |done]. by eapply apply_body_change.
Qed.

(** Replaying one more record. *)
Lemma replay_snoc records record s :
  replay (records ++ [record]) = Ok s →
  (records = [] ∧ apply_record None record = Ok s) ∨
  ∃ s0, replay records = Ok s0 ∧ apply_record (Some s0) record = Ok s.
Proof.
  unfold replay. rewrite for_each_app. intros Hr. apply rbind_ok in Hr as (o & Hr & Ho).
  destruct o as [s'|]; [|done]. injection Ho as ->.
  apply rbind_ok in Hr as (o & Hpre & Hlast). cbn in Hlast. apply rbind_ok in Hlast as (o' & Hlast & [= ->]).
  unfold replay_record, rmap in Hlast. apply rbind_ok in Hlast as (s' & Hs & [= ->]).
  apply map_err_ok in Hs. destruct o as [s0|].
  - right. exists s0. by rewrite Hpre.
  - left. split; [|done]. destruct records as [|r records]; [done|]. exfalso. clear -Hpre.
    assert (Hsome : ∀ l o o', is_Some o → for_each replay_record l o = Ok o' → is_Some o').
    { induction l as [|x l IH]; intros o o' Ho Hl; cbn in Hl; [by simplify_eq|].
      apply rbind_ok in Hl as (o1 & H1 & Hl). eapply IH; [|done].
      unfold replay_record, rmap in H1. apply rbind_ok in H1 as (? & _ & [= <-]). by eexists. }
    cbn in Hpre. apply rbind_ok in Hpre as (o1 & H1 & Hl).
    unfold replay_record, rmap in H1. apply rbind_ok in H1 as (? & _ & [= <-]).
    by destruct (Hsome _ _ _ ltac:(by eexists) Hl) as [? ?].
Qed.

(** Induction over a replayed journal. *)
Lemma replay_ind (P : list EventRecord → RunState → Prop) :
  (∀ record s, apply_record None record = Ok s → P [record] s) →
  (∀ records record s0 s, replay records = Ok s0 → run_inv s0 → P records s0 →
    apply_record (Some s0) record = Ok s → P (records ++ [record]) s) →
  ∀ records s, replay records = Ok s → run_inv s ∧ P records s.
Proof.
  intros Hfirst Hnext records. induction records as [|record records IH] using rev_ind; intros s Hr.
  - done.
  - apply replay_snoc in Hr as [[-> Ha]|(s0 & Hs0 & Ha)].
    + split; [by eapply run_inv_first|by apply Hfirst].
    + destruct (IH s0 Hs0) as [Hinv HP]. split; [by eapply run_inv_next|by eapply Hnext].
Qed.

Lemma replay_run_inv records s : replay records = Ok s → run_inv s.
Proof. intros Hr. by apply (replay_ind (λ _ _, True)) in Hr as [? _]. Qed.
End replay.

(** Totality of the reducer: no handler panics on a run that satisfies the invariant, so
    replaying any journal returns a state or an error. *)

Lemma no_panic_expect_some {E A} (o : option A) (why : string) :
  is_Some o → no_panic (expect o why : res E A).
Proof. intros [a ->]. done. Qed.

Lemma no_panic_for_each {E S A} (f : S → A → res E S) l s :
  (∀ s a, no_panic (f s a)) → no_panic (for_each f l s).
Proof. intros Hf w (pre & a & rest & t & _ & _ & Ha)%for_each_panic. by apply Hf in Ha. Qed.

Lemma no_panic_derive state : fits_usize (RunState.steps state) → no_panic (derive_frontier state).
Proof. intros Hf w Hw. pose proof (derive_frontier_spec state Hf) as Hs. by rewrite Hw in Hs. Qed.

#[export] Hint Resolve total_attempts_no_panic : rust.

(** ** Agent loop *)

Lemma no_panic_store_loop l s : no_panic (store_loop l s).
Proof. unfold store_loop, validate_model_call_counters. no_panic_tac. Qed.
#[export] Hint Resolve no_panic_store_loop : rust.

Section agent_loop.
Context `{Crypto} (s : RunState).

Lemma no_panic_configure b : no_panic (configure_agent_loop s b).
Proof. unfold configure_agent_loop. no_panic_tac. Qed.
Lemma no_panic_configure_calls b : no_panic (configure_model_call_lifecycle s b).
Proof. unfold configure_model_call_lifecycle, require_loop. no_panic_tac. Qed.
Lemma no_panic_reserve r : no_panic (reserve_model_call s r).
Proof. unfold reserve_model_call, require_loop, require_calls. no_panic_tac. Qed.
Lemma no_panic_unknown c r : no_panic (mark_model_call_unknown s c r).
Proof. unfold mark_model_call_unknown, require_loop, require_calls, require_active. no_panic_tac. Qed.
Lemma no_panic_settle c x : no_panic (settle_model_call s c x).
Proof.
  unfold settle_model_call, require_loop, require_calls, require_active, settle_calls. no_panic_tac.
Qed.
Lemma no_panic_success d : no_panic (validate_model_call_success s d).
Proof. unfold validate_model_call_success, require_loop, require_active. no_panic_tac. Qed.
Lemma no_panic_settle_successful l : no_panic (settle_successful_model_call l).
Proof.
  unfold settle_successful_model_call, require_active, settle_calls, validate_model_call_counters.
  no_panic_tac.
Qed.
End agent_loop.

#[export] Hint Resolve no_panic_success no_panic_settle_successful : rust.

(** ** Plans *)

Lemma no_panic_claim id o a : no_panic (claim_action id o a).
Proof. unfold claim_action. no_panic_tac. Qed.
Lemma no_panic_check_turn l d : no_panic (check_turn l d).
Proof. unfold check_turn. no_panic_tac. Qed.
#[export] Hint Resolve no_panic_claim no_panic_check_turn : rust.

Section plans.
Context `{Crypto} (s : RunState).

Lemma no_panic_headers d plan : no_panic (validate_accepted_plan_headers s d plan).
Proof.
  unfold validate_accepted_plan_headers, existing_action_owners.
  repeat (apply no_panic_bind; [apply no_panic_for_each; intros|intros]).
  - apply no_panic_for_each. intros. apply no_panic_claim.
  - unfold validate_accepted_plan_header, validate_accepted_objective.
    destruct s0. no_panic_tac.
  - done.
Qed.
Lemma no_panic_build plan ids :
  fits_usize (RunState.steps s) → no_panic (build_accepted_plan_candidate s plan ids).
Proof.
  intros Hf. unfold build_accepted_plan_candidate.
  apply no_panic_bind; [by apply no_panic_map_err, no_panic_derive|intros].
  apply no_panic_bind; [|done]. apply no_panic_for_each. intros [n m] p.
  unfold build_accepted_step. apply no_panic_bind; [|done].
  apply no_panic_for_each. intros [k u] d. unfold check_plan_dependency. no_panic_tac.
Qed.

Lemma no_panic_accept d plan : run_inv s → no_panic (accept_plan s d plan).
Proof.
  intros Hinv. unfold accept_plan.
  apply no_panic_bind; [auto with rust|intros _ _].
  apply no_panic_bind; [auto with rust|intros _ _].
  apply no_panic_bind; [unfold require_loop; auto with rust|intros l Hl].
  apply no_panic_if; [done|].
  apply no_panic_bind; [apply no_panic_check_turn|intros t _].
  apply no_panic_if; [done|].
  apply no_panic_bind; [auto with rust|intros total Htotal].
  destruct (exceeds _ _) eqn:Hex; [done|].
  apply no_panic_bind; [apply no_panic_headers|intros ids Hids].
  apply no_panic_bind; [by apply no_panic_build, run_inv_fits|intros c Hc].
  apply headers_run in Hids; [|apply (ri_steps _ Hinv)].
  apply build_candidate_Ok in Hc as [-> _].
  destruct Hids as [_ Hnd Hfresh _ _ _]. apply exceeds_false in Hex as [Hle _].
  unfold require_loop in Hl. res_inv. checked_inv.
  apply no_panic_bind; [apply no_panic_map_err, no_panic_derive|intros f _].
  - unfold fits_usize, usize_max, u64_max, u32_max, len in *.
    cbn [RunState.steps RunState.set_steps]. rewrite planned_into_size by done. lia.
  - apply no_panic_bind; [|intros; apply no_panic_bind; [auto with rust|done]].
    apply no_panic_expect_some. change (is_Some (RunState.agent_loop s)). by eexists.
Qed.

Lemma no_panic_completion d cid sd out : run_inv s → no_panic (record_completion_candidate s d cid sd out).
Proof.
  intros Hinv. unfold record_completion_candidate, require_loop.
  pose proof (no_panic_derive s (run_inv_fits _ Hinv)).
  no_panic_tac.
Qed.

Lemma no_panic_plan_step id o deps inv : no_panic (plan_step s id o deps inv).
Proof.
  unfold plan_step, check_step_dependency.
  repeat first [apply no_panic_for_each; intros | progress no_panic_tac].
Qed.
End plans.

(** ** Effects *)

Lemma no_panic_invalid {T} st body : no_panic (invalid_transition st body : res _ T).
Proof. done. Qed.
Lemma no_panic_require_status st q body : no_panic (require_status st q body).
Proof. unfold require_status. destruct (bool_decide _); [apply no_panic_invalid|done]. Qed.
Lemma no_panic_step_mut s id : no_panic (step_mut s id).
Proof. unfold step_mut. no_panic_tac. Qed.
Lemma no_panic_matching s id e : no_panic (matching_step_mut s id e).
Proof. unfold matching_step_mut, step_mut. no_panic_tac. Qed.
#[export] Hint Resolve no_panic_invalid no_panic_require_status no_panic_step_mut no_panic_matching : rust.

Lemma no_panic_lifecycle s body id :
  lifecycle_step body = Some id → no_panic (apply_effect_lifecycle s body).
Proof.
  intros Hid. destruct body; try done; cbn;
    unfold mark_material_unavailable, record_execution_started, record_effect_observation,
      record_effect_unknown, record_reconciliation_started, record_reconciliation,
      record_manual_required, record_legacy_verification, record_verification; no_panic_tac.
Qed.

Lemma no_panic_commit `{Crypto} s id intent : no_panic (commit_effect_intent s id intent).
Proof.
  unfold commit_effect_intent, validate_tool_output_profile, check_receipt_provenance.
  apply no_panic_bind; [no_panic_tac|intros _ _].
  apply no_panic_bind; [unfold receipt_provenance_digest; no_panic_tac|intros _ _].
  repeat (apply no_panic_if; [done|]).
  apply no_panic_bind; [auto with rust|intros st Hst].
  apply no_panic_bind; [auto with rust|intros _ _].
  apply no_panic_bind; [|intros b _].
  { apply no_panic_for_each. intros o d. unfold keep_least_blocker. no_panic_tac. }
  destruct b; [done|].
  apply no_panic_bind; [|intros _ _].
  { unfold validate_planned_invocation_binding, validate_planned_execution_profile. no_panic_tac. }
  apply no_panic_bind; [|intros _ _].
  { unfold validate_authorization_binding, once_authorization_id, authorization_digest. no_panic_tac. }
  apply no_panic_bind; [unfold consume_authorization; no_panic_tac|intros m _].
  apply no_panic_bind; [|done]. apply no_panic_expect_some. res_inv. by eexists.
Qed.

(** ** Dispatch and replay *)

Section total.
Context `{Crypto}.

Lemma no_panic_apply_body s body :
  run_inv s → (∀ goal, body ≠ RunEventBody.RunCreated goal) → no_panic (apply_body s body).
Proof.
  intros Hinv Hbody. destruct body; cbn [apply_body]; try (by eapply no_panic_lifecycle).
  - by destruct (Hbody goal).
  - apply no_panic_configure.
  - apply no_panic_configure_calls.
  - apply no_panic_reserve.
  - apply no_panic_unknown.
  - apply no_panic_settle.
  - by apply no_panic_accept.
  - by apply no_panic_completion.
  - apply no_panic_plan_step.
  - apply no_panic_commit.
Qed.

Lemma no_panic_apply_record current record :
  (∀ s, current = Some s → run_inv s) → no_panic (apply_record current record).
Proof.
  intros Hinv. unfold apply_record.
  apply no_panic_bind.
  { unfold verify_record_against_state, EventRecord_verify_digest, record_digest. no_panic_tac. }
  intros _ _. destruct current as [s|]; [|by destruct (RunEvent.body (EventRecord.event record))].
  destruct (RunEvent.body (EventRecord.event record)) eqn:Hb; cbn [rbind]; try done;
    (apply no_panic_bind; [|done]); apply no_panic_apply_body; try done; by apply Hinv.
Qed.

Lemma for_each_replay_no_panic records : no_panic (for_each replay_record records None).
Proof.
  intros w (pre & r & rest & o & _ & Hpre & Hr)%for_each_panic.
  revert Hr. unfold replay_record, rmap. apply no_panic_bind; [|done]. apply no_panic_map_err.
  apply no_panic_apply_record. intros s ->. eapply (replay_run_inv pre).
  unfold replay. by rewrite Hpre.
Qed.
End total.
