(* ===== verification/JournalTheorems.v ===== *)
(** The hash chain: a journal the reducer accepts is exactly one [EventRecord::next] builds,
    its head digest commits to all of it, and the next built record is accepted. *)

From S2P Require Import Prelude Text Wire WorkGraphTypes WorkGraphErrors WorkGraphWire Journal.
From S2P Require Import Reducer Scenario RunInvariant.

Section chain.
Context `{Crypto}.

(** Every record is the one [EventRecord::next] builds after its predecessors. *)
Definition linked (records : list EventRecord) : Prop :=
  ∀ pre r post, records = pre ++ r :: post → EventRecord_next (last pre) (EventRecord.event r) = Ok r.

(** The projection's journal position is that of the last record. *)
Definition at_head (records : list EventRecord) (s : RunState) : Prop :=
  RunState.journal_sequence s = len records ∧ RunState.revision s = len records ∧
  ∃ r, last records = Some r ∧ EventRecord.sequence r = RunState.journal_sequence s ∧
    EventRecord.digest r = RunState.journal_head_digest s.

Lemma verify_digest_Ok r :
  EventRecord_verify_digest r = Ok tt →
  record_digest (EventRecord.sequence r) (EventRecord.previous_digest r) (EventRecord.event r)
  = Ok (EventRecord.digest r).
Proof. unfold EventRecord_verify_digest. intros Hv. res_inv. by bool_inv; subst. Qed.

Lemma linked_nil : linked [].
Proof. intros pre r post Heq. by destruct pre. Qed.

Lemma linked_snoc records r :
  linked records → EventRecord_next (last records) (EventRecord.event r) = Ok r →
  linked (records ++ [r]).
Proof.
  intros Hl Hr pre x post Heq. destruct post as [|y post _] using rev_ind.
  - apply app_inj_tail in Heq as [<- <-]. exact Hr.
  - rewrite app_comm_cons, app_assoc in Heq. apply app_inj_tail in Heq as [-> _].
    by eapply Hl.
Qed.

Lemma linked_prefix r1 r2 : linked (r1 ++ r2) → linked r1.
Proof.
  intros Hl pre r post ->. apply (Hl pre r (post ++ r2)). by rewrite <-app_assoc.
Qed.

Lemma next_Ok prev e r :
  EventRecord_next prev e = Ok r ↔
  EventRecord.event r = e ∧ EventRecord.previous_digest r = EventRecord.digest <$> prev ∧
  match prev with
  | None => EventRecord.sequence r = 1%N
  | Some p => EventRecord.sequence r = (EventRecord.sequence p + 1)%N ∧
              (EventRecord.sequence p + 1 ≤ u64_max)%N
  end ∧
  record_digest (EventRecord.sequence r) (EventRecord.previous_digest r) e = Ok (EventRecord.digest r).
Proof.
  unfold EventRecord_next. split.
  - intros Hn. destruct prev as [p|]; res_inv; checked_inv; by split_and!.
  - destruct r as [sq pd ev d]; cbn. intros (-> & -> & Hseq & Hd). destruct prev as [p|].
    + destruct Hseq as [-> Hle].
      assert (checked_add u64_max (EventRecord.sequence p) 1 = Some (EventRecord.sequence p + 1)%N) as ->
        by (by apply checked_add_Some).
      cbn [ok_or rbind]. by rewrite Hd.
    + subst sq. cbn [rbind]. by rewrite Hd.
Qed.

Lemma replay_chain records s :
  replay records = Ok s → run_inv s ∧ linked records ∧ at_head records s.
Proof.
  apply (replay_ind (λ records s, linked records ∧ at_head records s)).
  - clear records s. intros r s (goal & _ & (Hs & Hp & Hd%verify_digest_Ok)%verify_first_Ok & ->)%apply_first_Ok.
    split.
    + apply (linked_snoc []); [apply linked_nil|]. by apply next_Ok.
    + split; [done|]. split; [done|]. by exists r.
  - clear records s. intros records r s0 s _ Hinv [Hl (Hseq & _ & p & Hp & Hps & Hpd)]
      (s1 & (Hs & Hle & Hprev & Hd%verify_digest_Ok & _)%verify_record_Ok & _ & ->)%apply_next_Ok.
    split.
    + apply linked_snoc; [done|]. apply next_Ok. rewrite Hp. cbn.
      split_and!; try done; congruence.
    + split; [cbn; rewrite Hseq; unfold len; rewrite length_app; cbn; lia|].
      split; [cbn; rewrite Hseq; unfold len; rewrite length_app; cbn; lia|].
      exists r. cbn. by rewrite last_snoc.
Qed.

(** What the digest of a record is the digest of. *)
Definition record_input (r : EventRecord) : Value :=
  DigestInput (EventRecord.sequence r) (EventRecord.previous_digest r) (EventRecord.event r).

(** The integers of a record are in the range RFC 8785 is exact on. *)
Definition record_ijson (r : EventRecord) : Prop := ijson_numbers (record_input r) = true.

(** Two linked records with one digest are one record, unless their digest inputs collide. *)
Lemma same_digest_record `{!CryptoLaws} p1 p2 r1 r2 :
  EventRecord_next p1 (EventRecord.event r1) = Ok r1 →
  EventRecord_next p2 (EventRecord.event r2) = Ok r2 →
  record_ijson r1 → record_ijson r2 → EventRecord.digest r1 = EventRecord.digest r2 →
  r1 = r2 ∨ digests_collide (record_input r1) (record_input r2).
Proof.
  intros (_ & _ & _ & H1)%next_Ok (_ & _ & _ & H2)%next_Ok I1 I2 Heq.
  unfold record_digest in *. rewrite Heq in H1.
  eapply canonical_digest_inj in H2; [|apply sorted_DigestInput|apply sorted_DigestInput|
    exact I1|exact I2|exact H1].
  destruct H2 as [(? & ? & ?)%DigestInput_inj|]; [left|by right].
  destruct r1, r2; cbn in *. congruence.
Qed.

Lemma linked_last records r : linked (records ++ [r]) →
  EventRecord_next (last records) (EventRecord.event r) = Ok r.
Proof. intros Hl. by apply (Hl records r []). Qed.

(** The journals agree after two records whose digest inputs collide. *)
Definition journals_collide (records1 records2 : list EventRecord) : Prop :=
  ∃ before1 r1 before2 r2 after, records1 = before1 ++ r1 :: after ∧ records2 = before2 ++ r2 :: after ∧
    digests_collide (record_input r1) (record_input r2).

Lemma journals_collide_snoc records1 records2 r :
  journals_collide records1 records2 → journals_collide (records1 ++ [r]) (records2 ++ [r]).
Proof.
  intros (b1 & r1 & b2 & r2 & after & -> & -> & Hc). exists b1, r1, b2, r2, (after ++ [r]).
  by rewrite <- !app_assoc.
Qed.

Lemma linked_same_head `{!CryptoLaws} records1 records2 r1 r2 :
  linked (records1 ++ [r1]) → linked (records2 ++ [r2]) →
  Forall record_ijson (records1 ++ [r1]) → Forall record_ijson (records2 ++ [r2]) →
  EventRecord.digest r1 = EventRecord.digest r2 →
  records1 ++ [r1] = records2 ++ [r2] ∨ journals_collide (records1 ++ [r1]) (records2 ++ [r2]).
Proof.
  revert records2 r1 r2. induction records1 as [|q1 records1 IH] using rev_ind; intros records2 r1 r2 L1 L2 I1 I2 Hd.
  all: pose proof (linked_last _ _ L1) as N1; pose proof (linked_last _ _ L2) as N2.
  all: apply Forall_app in I1 as [I1 [I1r _]%Forall_cons], I2 as [I2 [I2r _]%Forall_cons].
  all: destruct (same_digest_record _ _ _ _ N1 N2 I1r I2r Hd) as [->|Hc];
    [|by right; eexists _, r1, _, r2, []].
  all: apply next_Ok in N1 as (_ & P1 & _), N2 as (_ & P2 & _).
  all: destruct records2 as [|q2 records2 _] using rev_ind; rewrite ?last_snoc in *; cbn in P1, P2;
    [try congruence|try congruence].
  - by left.
  - rewrite P2 in P1. injection P1 as Hq.
    destruct (IH records2 q1 q2) as [->|]; [by eapply linked_prefix|by eapply linked_prefix|done|done|
      done|by left|right; by apply journals_collide_snoc].
Qed.

End chain.

(** ** Guarantees *)

(** A journal replays only if every record is exactly the one [EventRecord::next] builds
    after its predecessors (sequence, previous digest and digest), and the projection's
    sequence, revision and head digest are those of the last record. *)
Theorem replay_hash_chain `{Crypto} (records : list EventRecord) (s : RunState) :
  replay records = Ok s → linked records ∧ at_head records s.
Proof. intros Hr. by apply replay_chain in Hr as [_ ?]. Qed.

(** C26: The head digest commits to the whole journal: two replayable journals with the same
    head digest are equal record for record, unless each has a record such that the journals
    agree after the two and the digest inputs of these two very records collide under SHA-256.
    The integers are required to be in the range RFC 8785 is exact on. *)
Theorem head_digest_commits `{Crypto} `{!CryptoLaws} (records1 records2 : list EventRecord)
    (s1 s2 : RunState) :
  replay records1 = Ok s1 → replay records2 = Ok s2 →
  Forall record_ijson records1 → Forall record_ijson records2 →
  RunState.journal_head_digest s1 = RunState.journal_head_digest s2 →
  records1 = records2 ∨ journals_collide records1 records2.
Proof.
  intros (_ & L1 & _ & _ & r1 & E1 & _ & D1)%replay_chain (_ & L2 & _ & _ & r2 & E2 & _ & D2)%replay_chain I1 I2 Hd.
  apply last_Some in E1 as [l1 ->], E2 as [l2 ->].
  apply linked_same_head; try done. congruence.
Qed.

(** Building and checking agree: the record [EventRecord::next] builds after a replayed
    journal, for an event of the same run, authority and epoch, passes the chain
    verification of the state the journal replays to. *)
Theorem next_record_verifies `{Crypto} (records : list EventRecord) (s : RunState)
    (e : RunEvent) (r : EventRecord) :
  replay records = Ok s → EventRecord_next (last records) e = Ok r →
  RunEvent.run_id e = RunState.run_id s → RunEvent.authority e = RunState.authority s →
  RunEvent.authority_epoch e = RunState.authority_epoch s →
  verify_record_against_state (Some s) r = Ok tt.
Proof.
  intros (_ & _ & _ & _ & p & Hp & Hs & Hd)%replay_chain Hn Hrun Haut Hep.
  rewrite Hp in Hn. apply next_Ok in Hn as (<- & Hprev & [Hseq Hle] & Hdig).
  unfold verify_record_against_state. rewrite <-Hs.
  assert (checked_add u64_max (EventRecord.sequence p) 1 = Some (EventRecord.sequence p + 1)%N) as ->
    by (by apply checked_add_Some).
  cbn [ok_or rbind fmap option_fmap option_map]. rewrite Hseq, bool_decide_eq_false_2 by auto.
  rewrite Hprev. cbn. rewrite Hd, bool_decide_eq_false_2 by auto.
  unfold EventRecord_verify_digest. rewrite Hdig. cbn [rbind].
  rewrite bool_decide_eq_false_2 by auto. cbn [map_err rbind].
  by rewrite Hrun, Haut, Hep, !bool_decide_eq_false_2 by auto.
Qed.

(** ** Witnesses *)

(** The digest inputs of these records do not collide. *)
Definition digests_apart `{Crypto} (r1 r2 : EventRecord) : bool :=
  match jcs_to_vec (record_input r1), jcs_to_vec (record_input r2) with
  | inr a, inr b => bool_decide (a = b) || negb (bool_decide (sha256 a = sha256 b))
  | _, _ => true
  end.

Lemma no_journals_collide `{Crypto} records1 records2 :
  forallb (λ r1, forallb (digests_apart r1) records2) records1 = true →
  ¬ journals_collide records1 records2.
Proof.
  intros Hall (b1 & r1 & b2 & r2 & after & H1 & H2 & a & b & Ha & Hb & Hne & Hab).
  rewrite forallb_forall in Hall. specialize (Hall r1). rewrite forallb_forall in Hall.
  assert (digests_apart r1 r2 = true) as Happart.
  { apply Hall; apply list_elem_of_In; [rewrite H1|rewrite H2]; apply elem_of_app; right; left. }
  unfold digests_apart in Happart. rewrite Ha, Hb, bool_decide_false in Happart by done.
  by rewrite bool_decide_true in Happart.
Qed.

Section witnesses.
#[local] Existing Instance reference_crypto.

(** The plain run with another goal. *)
Definition tampered_events : list (option RunState → res unit RunEventBody) :=
  <[0 := always (RunEventBody.RunCreated "another goal")]> plain_events.

Lemma tampered_accepted : is_ok (run_scenario tampered_events).
Proof. apply accepted_by. vm_compute. reflexivity. Qed.
Lemma tampered : replay (journal tampered_events 9) = Ok (state tampered_events 9).
Proof. apply journal_replays; [apply tampered_accepted|lia|done]. Qed.

Lemma record_ijson_plain : Forall record_ijson (journal plain_events 9).
Proof. apply (bool_decide_unpack _). vm_compute. exact I. Qed.
Lemma record_ijson_tampered : Forall record_ijson (journal tampered_events 9).
Proof. apply (bool_decide_unpack _). vm_compute. exact I. Qed.

Lemma plain_tampered_apart : ¬ journals_collide (journal plain_events 9) (journal tampered_events 9).
Proof. apply no_journals_collide. vm_compute. reflexivity. Qed.
Lemma plain_tampered_differ : journal plain_events 9 ≠ journal tampered_events 9.
Proof.
  intros Heq%(f_equal (λ l, (λ r, ser (EventRecord.event r)) <$> head l)). vm_compute in Heq.
  discriminate Heq.
Qed.

(** A digest that is the same for every input. *)
Definition constant_crypto : Crypto := {|
  jcs_to_vec := @jcs_to_vec reference_crypto;
  sha256 _ := sha256 "constant";
|}.
Lemma constant_laws : @CryptoLaws constant_crypto.
Proof.
  split; [apply (@jcs_injective reference_crypto reference_laws)|].
  intros b. apply (@sha256_length reference_crypto reference_laws).
Qed.

(** The journal of a run that was only created, under the constant digest. *)
Definition created (goal : string) : list EventRecord :=
  match @EventRecord_next constant_crypto None (event_of 0 (RunEventBody.RunCreated goal)) with
  | Ok record => [record]
  | _ => []
  end.
Definition created_state (goal : string) : RunState :=
  match @replay constant_crypto (created goal) with Ok s => s | _ => state plain_events 9 end.
Lemma created_replays goal :
  match @replay constant_crypto (created goal) with Ok _ => true | _ => false end = true →
  @replay constant_crypto (created goal) = Ok (created_state goal).
Proof. unfold created_state. by destruct (replay _). Qed.

(** Another goal gives another head, and under a digest that is the same for every input the
    theorem names the two records whose inputs collide. *)
Lemma head_digest_commits_witness :
  RunState.journal_head_digest (state plain_events 9)
    ≠ RunState.journal_head_digest (state tampered_events 9) ∧
  created "one" ≠ created "another" ∧
  @journals_collide constant_crypto (created "one") (created "another").
Proof.
  assert (created "one" ≠ created "another") as Hdiffer by by vm_compute.
  split_and!; [|done|].
  - intros Heq. destruct (@head_digest_commits reference_crypto reference_laws _ _ _ _
      (plain 9 ltac:(lia)) tampered record_ijson_plain record_ijson_tampered Heq) as [Hsame|Hcollide].
    + exact (plain_tampered_differ Hsame).
    + exact (plain_tampered_apart Hcollide).
  - destruct (@head_digest_commits constant_crypto constant_laws (created "one") (created "another")
      (created_state "one") (created_state "another")
      (created_replays "one" ltac:(by vm_compute)) (created_replays "another" ltac:(by vm_compute))
      ltac:(by apply (bool_decide_unpack _); vm_compute) ltac:(by apply (bool_decide_unpack _); vm_compute)
      ltac:(by vm_compute)) as [Hsame|Hcollide]; [|exact Hcollide].
    exfalso. exact (Hdiffer Hsame).
Defined.

End witnesses.
