(* ===== verification/ReducerTheorems.v ===== *)
(** What the reducer guarantees of every replayed journal: totality, a derivable frontier,
    one-shot authorised effects, kept budgets, the step life cycle, and frozen completed
    runs. *)

From S2P Require Import Prelude Text Wire WorkGraphTypes WorkGraphErrors WorkGraphWire Planning.
From S2P Require Import Material ToolOutput Frontier FrontierProofs FrontierTheorems Journal.
From S2P Require Import AgentLoop Plans Effects StepMachine Reducer Scenario RunInvariant.

(** ** Two consecutive states *)

(** A step across one event. *)
Definition step_kept (st st' : StepState) : Prop :=
  same_identity st st' ∧
  (st' = st ∨ next_status (StepState.status st) (StepState.status st') = true) ∧
  ∀ a, StepState.intent st = Some a → StepState.intent st' = Some a.

Lemma same_identity_refl st : same_identity st st.
Proof. by split_and!. Qed.

Lemma same_identity_trans st1 st2 st3 :
  same_identity st1 st2 → same_identity st2 st3 → same_identity st1 st3.
Proof. intros (? & ? & ? & ?) (? & ? & ? & ?). split_and!; congruence. Qed.

Lemma step_kept_refl st : step_kept st st.
Proof. split_and!; [apply same_identity_refl|by left|done]. Qed.

Lemma change_step_kept `{Crypto} s body s' id st :
  run_inv s → change s body s' → RunState.steps s !! id = Some st →
  ∃ st', RunState.steps s' !! id = Some st' ∧ step_kept st st'.
Proof.
  intros Hinv Hch Hst.
  destruct Hch as [l' _ _|new lo' _ [Hold _] _ _ _|i intent si effects _ Hc _|i si si' _ Hsi Hlc _]; cbn.
  - exists st. split; [done|apply step_kept_refl].
  - exists st. split; [by apply Hold|apply step_kept_refl].
  - destruct (decide (i = id)) as [<-|Hne].
    + rewrite lookup_insert_eq. eexists. split; [done|].
      rewrite (cm_step _ _ _ _ Hc) in Hst. injection Hst as ->.
      pose proof (cm_planned _ _ _ _ Hc) as Hp. split_and!; [by split_and!| |].
      * right. cbn. by rewrite Hp.
      * intros a Ha. apply (so_intent _ (ri_steps _ Hinv) i) in Hp; [congruence|].
        apply (cm_step _ _ _ _ Hc).
    + rewrite lookup_insert_ne by done. exists st. split; [done|apply step_kept_refl].
  - destruct (decide (i = id)) as [<-|Hne].
    + rewrite lookup_insert_eq. eexists. split; [done|].
      rewrite Hsi in Hst. injection Hst as ->.
      destruct (lifecycle_read _ _ _ Hlc) as [? Hint Hnext _ _].
      split_and!; [done|by right|]. intros a Ha. congruence.
    + rewrite lookup_insert_ne by done. exists st. split; [done|apply step_kept_refl].
Qed.

(** ** Suffixes of a journal *)

(** Every property one event keeps is kept by the rest of the journal. *)
Lemma replay_suffix `{Crypto} (P : RunState → Prop) :
  (∀ s body s' d, run_inv s → P s → change s body s' →
    P (RunState.set_head (RunState.journal_sequence s + 1) d s')) →
  ∀ r1 r2 s1 s2, replay r1 = Ok s1 → replay (r1 ++ r2) = Ok s2 → P s1 → P s2.
Proof.
  intros Hstep r1 r2. induction r2 as [|r r2 IH] using rev_ind; intros s1 s2 H1 H2 HP.
  - rewrite app_nil_r, H1 in H2. by injection H2 as ->.
  - rewrite app_assoc in H2. apply replay_snoc in H2 as [[Hnil _]|(s0 & H0 & Ha)].
    + apply app_nil in Hnil as [-> _]. done.
    + pose proof (replay_run_inv _ _ H0) as Hinv.
      apply apply_next_Ok in Ha as (s3 & _ & Hb & ->).
      eapply Hstep; [done|by eapply IH|]. by eapply apply_body_change.
Qed.

(** ** Status histories *)

Definition status_edge (a b : StepStatus) : Prop := next_status a b = true.

Definition terminal (q : StepStatus) : Prop :=
  q ∈ [StepStatus.Completed; StepStatus.Failed; StepStatus.ManualRequired].

Lemma terminal_no_edge a b : terminal a → ¬ status_edge a b.
Proof. unfold terminal, status_edge. destruct a, b; set_solver. Qed.

(** A step over any number of events. *)
Definition step_history (st st' : StepState) : Prop :=
  same_identity st st' ∧ rtc status_edge (StepState.status st) (StepState.status st') ∧
  (terminal (StepState.status st) → st' = st) ∧
  ∀ a, StepState.intent st = Some a → StepState.intent st' = Some a.

Lemma step_history_kept st1 st2 st3 : step_history st1 st2 → step_kept st2 st3 → step_history st1 st3.
Proof.
  intros (Hid & Hs & Ht & Hi) (Hid' & Hs' & Hi'). split_and!.
  - by eapply same_identity_trans.
  - destruct Hs' as [->|Hs']; [done|]. by eapply rtc_r.
  - intros Hterm. specialize (Ht Hterm) as ->. destruct Hs' as [->|Hs']; [done|].
    by destruct (terminal_no_edge _ _ Hterm Hs').
  - auto.
Qed.

(** ** Starts *)

(** The execution starts a journal records for a step. *)
Definition starts (id : string) (records : list EventRecord) : N :=
  foldr (λ r n, match RunEvent.body (EventRecord.event r) with
                | RunEventBody.EffectExecutionStarted i _ => if bool_decide (i = id) then 1 else 0
                | _ => 0
                end + n)%N 0%N records.

Lemma starts_snoc id records r :
  starts id (records ++ [r]) = (starts id records +
    match RunEvent.body (EventRecord.event r) with
    | RunEventBody.EffectExecutionStarted i _ => if bool_decide (i = id) then 1 else 0
    | _ => 0
    end)%N.
Proof.
  unfold starts. induction records as [|x records IH]; cbn in *; [lia|]. rewrite IH. lia.
Qed.

Definition attempts_at (s : RunState) (id : string) : N :=
  from_option StepState.attempts 0%N (RunState.steps s !! id).

Lemma change_attempts `{Crypto} s body s' id :
  change s body s' →
  attempts_at s' id = (attempts_at s id +
    match body with
    | RunEventBody.EffectExecutionStarted i _ => if bool_decide (i = id) then 1 else 0
    | _ => 0
    end)%N.
Proof.
  intros Hch. unfold attempts_at.
  destruct Hch as [l' Hb _|new lo' Hb [Hold Hnew] _ _ _|i intent si effects Hb Hc _|i si si' Hb Hsi Hlc _]; cbn.
  - by destruct body; try discriminate Hb; rewrite N.add_0_r.
  - assert (from_option StepState.attempts 0%N (new !! id)
            = from_option StepState.attempts 0%N (RunState.steps s !! id)) as ->.
    { destruct (new !! id) as [st|] eqn:E.
      - apply Hnew in E as [->|(-> & _ & _ & _ & Hz)]; done.
      - destruct (RunState.steps s !! id) eqn:E'; [|done]. apply Hold in E'. congruence. }
    by destruct body; try discriminate Hb; rewrite N.add_0_r.
  - destruct (decide (i = id)) as [<-|Hne].
    + rewrite lookup_insert_eq, (cm_step _ _ _ _ Hc). cbn.
      by destruct body; try discriminate Hb; rewrite N.add_0_r.
    + rewrite lookup_insert_ne by done.
      by destruct body; try discriminate Hb; rewrite N.add_0_r.
  - pose proof (lf_attempts _ _ _ (lifecycle_read _ _ _ Hlc)) as Ha.
    destruct (decide (i = id)) as [<-|Hne].
    + rewrite lookup_insert_eq, Hsi. cbn. rewrite Ha. f_equal.
      destruct body; try done. injection Hb as ->. by rewrite bool_decide_eq_true_2.
    + rewrite lookup_insert_ne by done. destruct body; try lia.
      injection Hb as ->. rewrite bool_decide_eq_false_2 by done. lia.
Qed.

(** ** Guarantees *)

(** C25: Replaying any sequence of records, however malformed, returns a projection or an
    error: no [expect], [unreachable!], index or unbounded loop of the reducer can be reached. *)
Theorem replay_total `{Crypto} (records : list EventRecord) : no_panic (replay records).
Proof.
  unfold replay. apply no_panic_bind; [apply for_each_replay_no_panic|auto with rust].
Qed.

(** Every state a journal replays to has a derivable frontier: its dependency graph is
    well formed and acyclic, and no step has started before its dependencies were released. *)
Theorem replay_frontier `{Crypto} (records : list EventRecord) (s : RunState) :
  replay records = Ok s →
  is_ok (derive_frontier s) ∧ frontier_wf (RunState.steps s).
Proof.
  intros Hr. pose proof (replay_run_inv _ _ Hr) as Hinv.
  pose proof (run_inv_fits _ Hinv) as Hfits. pose proof (so_wf _ (ri_steps _ Hinv)) as Hwf.
  split; [|done]. pose proof (derive_frontier_spec s Hfits) as Hspec.
  destruct (derive_frontier s) as [f|e|w]; [by exists f| |done].
  by destruct (frontier_fault_not_wf _ _ Hspec).
Qed.

(** C4: In every replayed run each committed effect carries an authorization issued
    earlier in this run, for this step, authority, epoch, action and executable binding,
    whose grant is the one-shot grant of its action and is spent on this effect alone; no
    two steps share an effect id, an action or a grant. *)
Theorem effects_authorized_once `{Crypto} (records : list EventRecord) (s : RunState) :
  replay records = Ok s →
  (∀ id a, intent_at (RunState.steps s) id a →
    authorized s id a ∧
    RunState.authorization_consumption s !! AuthorizationUse.grant_id (EffectIntent.authorization a)
      = Some (used_once a) ∧
    (AuthorizationBinding.issued_at_sequence (AuthorizationUse.binding (EffectIntent.authorization a))
     < RunState.journal_sequence s)%N) ∧
  (∀ i j a b, intent_at (RunState.steps s) i a → intent_at (RunState.steps s) j b →
    EffectIntent.effect_id a = EffectIntent.effect_id b ∨
    EffectIntent.action_digest a = EffectIntent.action_digest b ∨
    AuthorizationUse.grant_id (EffectIntent.authorization a)
      = AuthorizationUse.grant_id (EffectIntent.authorization b) → i = j).
Proof.
  intros Hr. destruct (ri_effects _ (replay_run_inv _ _ Hr)) as [Hauth Hdist _].
  split; [intros id a (st & Hst & Ha); by eapply Hauth|].
  intros i j a b (si & Hsi & Ha) (sj & Hsj & Hb) Hsame.
  destruct (Hauth _ _ _ Hsi Ha) as (Hau & Hca & _), (Hauth _ _ _ Hsj Hb) as (Hbu & Hcb & _).
  assert (Hgrant : AuthorizationUse.grant_id (EffectIntent.authorization a)
                   = AuthorizationUse.grant_id (EffectIntent.authorization b) → i = j).
  { intros Heq. rewrite Heq, Hcb in Hca.
    assert (Heff : AuthorizationConsumption.effect_ids (used_once b)
                   = AuthorizationConsumption.effect_ids (used_once a)) by congruence.
    cbn in Heff. apply (Hdist i j si sj a b); try done. set_solver. }
  destruct Hsame as [|[Hact|]]; [by eapply Hdist| |by apply Hgrant].
  apply Hgrant. pose proof (au_grant _ _ _ Hau) as H1. rewrite Hact, (au_grant _ _ _ Hbu) in H1.
  by injection H1.
Qed.

(** C13: A configured agent loop never exceeds a budget: accepted turns, planned steps and
    execution starts stay within the loop's budget and reserved model calls within the
    call budget; reserved calls are exactly the settled ones plus the active one, accepted
    turns never outnumber settled calls, and an active call is for the next turn, was
    reserved at an earlier head, and excludes a completion candidate. *)
Theorem budgets_hold `{Crypto} (records : list EventRecord) (s : RunState) (l : AgentLoopState) :
  replay records = Ok s → RunState.agent_loop s = Some l →
  let b := AgentLoopState.budget l in
  (AgentLoopState.accepted_model_turns l ≤ AgentLoopBudget.max_model_turns b)%N ∧
  (N.of_nat (size (RunState.steps s)) ≤ AgentLoopBudget.max_planned_steps b)%N ∧
  (run_attempts s ≤ AgentLoopBudget.max_tool_calls b)%N ∧
  ∀ c, AgentLoopState.model_calls l = Some c → calls_ok (RunState.journal_sequence s) l c.
Proof.
  intros Hr Hl b. pose proof (replay_run_inv _ _ Hr) as Hinv.
  destruct (ri_loop _ Hinv l Hl) as ([Hturns Hcalls] & Hatt & _).
  pose proof (so_size _ (ri_steps _ Hinv)) as Hsize. rewrite Hl in Hsize.
  by destruct Hsize.
Qed.

(** The attempts of a step count exactly the execution starts its journal records for
    it, so retries after a proved non-application are accounted and nothing else is. *)
Theorem attempts_count_starts `{Crypto} (records : list EventRecord) (s : RunState) (id : string) :
  replay records = Ok s → attempts_at s id = starts id records.
Proof.
  intros Hr. apply (replay_ind (λ records s, attempts_at s id = starts id records)) in Hr as [_ ?]; [done|..].
  - clear. intros r s (goal & Hb & _ & ->)%apply_first_Ok. unfold attempts_at. cbn.
    by rewrite lookup_empty, Hb.
  - clear. intros records r s0 s _ Hinv IH (s1 & _ & Hb & ->)%apply_next_Ok.
    rewrite starts_snoc, <-IH. eapply apply_body_change in Hb; [|done].
    by apply (change_attempts _ _ _ id) in Hb.
Qed.

(** C29: Along any journal a step keeps its identity, objective, dependencies and planned
    invocation, moves only along the edges of the status diagram, never leaves a terminal
    status, and never has its committed intent replaced. *)
Theorem step_history_holds `{Crypto} (r1 r2 : list EventRecord) (s1 s2 : RunState)
    (id : string) (st1 : StepState) :
  replay r1 = Ok s1 → replay (r1 ++ r2) = Ok s2 → RunState.steps s1 !! id = Some st1 →
  ∃ st2, RunState.steps s2 !! id = Some st2 ∧ step_history st1 st2.
Proof.
  intros H1 H2 Hst.
  apply (replay_suffix (λ s, ∃ st, RunState.steps s !! id = Some st ∧ step_history st1 st))
    with r1 r2 s1; [|done|done|].
  - clear. intros s body s' d Hinv (st & Hst & Hh) Hch.
    destruct (change_step_kept _ _ _ _ _ Hinv Hch Hst) as (st' & Hst' & Hk).
    exists st'. split; [done|by eapply step_history_kept].
  - exists st1. split; [done|]. split_and!; [apply same_identity_refl|apply rtc_refl|done|done].
Qed.

(** C34: Recording a completion candidate freezes the run: from then on every accepted
    event leaves the steps, the spent authorizations and the candidate as they were, and
    every step is completed with a releasing receipt. *)
Theorem completion_freezes `{Crypto} (r1 r2 : list EventRecord) (s1 s2 : RunState)
    (l1 : AgentLoopState) (c : CompletionCandidateState) :
  replay r1 = Ok s1 → replay (r1 ++ r2) = Ok s2 → RunState.agent_loop s1 = Some l1 →
  AgentLoopState.completion_candidate l1 = Some c →
  RunState.steps s2 = RunState.steps s1 ∧
  RunState.authorization_consumption s2 = RunState.authorization_consumption s1 ∧
  (∃ l2, RunState.agent_loop s2 = Some l2 ∧ AgentLoopState.completion_candidate l2 = Some c) ∧
  all_released (RunState.steps s2).
Proof.
  intros H1 H2 Hl Hc.
  assert (Hall : all_released (RunState.steps s1)).
  { apply (ri_loop _ (replay_run_inv _ _ H1) l1 Hl). by exists c. }
  apply (replay_suffix (λ s, RunState.steps s = RunState.steps s1 ∧
    RunState.authorization_consumption s = RunState.authorization_consumption s1 ∧
    (∃ l2, RunState.agent_loop s = Some l2 ∧ AgentLoopState.completion_candidate l2 = Some c) ∧
    all_released (RunState.steps s))) with r1 r2 s1; [|done|done|eauto 6].
  clear. intros s body s' d Hinv (Hs & Hu & (l & Hl & Hc) & Hall) Hch.
  destruct Hch as [l' _ [_ Hw]|new lo' _ _ _ Hlo _|id intent st effects _ Hcm _|id st st' _ Hst Hlc _]; cbn.
  - rewrite Hl in Hw. destruct Hw as [_ [Hw|[Hw _]]]; [|congruence].
    split_and!; try done. exists l'. split; [done|congruence].
  - unfold loop_grown in Hlo. rewrite Hl in Hlo. destruct lo' as [l'|]; [|done].
    destruct Hlo as (_ & Hnone & _). congruence.
  - by destruct (written_not_all_released _ _ _ _ (commit_written _ Hinv _ _ _ Hcm)).
  - by destruct (written_not_all_released _ _ _ _ (lifecycle_written _ Hinv _ _ _ _ Hst Hlc)).
Qed.

(** C17: The lifecycle handlers implement the step machine exactly: an event succeeds just
    when its step exists, the machine has a transition for the event and the tool-call
    budget allows a start, and it then writes that step and nothing else. *)
Theorem lifecycle_refinement (s : RunState) (body : RunEventBody) (id : string) (s' : RunState) :
  lifecycle_step body = Some id →
  apply_effect_lifecycle s body = Ok s' ↔
  ∃ st st', RunState.steps s !! id = Some st ∧ lifecycle body st st' ∧ start_allowed s body ∧
    s' = put_step s id st'.
Proof.
  intros Hid. split.
  - intros (i & st & st' & Hi & Hst & Hlc & Hs & ->)%lifecycle_sound. simplify_eq. eauto 6.
  - intros (st & st' & Hst & Hlc & Hs & ->). by eapply lifecycle_complete.
Qed.

(** C6: An effect intent is committed only to a planned step all of whose dependencies are
    released, under an authorization bound to this run, step, authority, epoch, action,
    executable and the current journal head, with a new effect id; the commit writes the
    intent, the status and one use of the grant, and nothing else. *)
Theorem commit_effect_intent_spec `{Crypto} (s : RunState) (id : string) (intent : EffectIntent)
    (s' : RunState) :
  run_inv s → commit_effect_intent s id intent = Ok s' →
  ∃ st, committed s id intent st ∧
    RunState.authorization_consumption s
      !! AuthorizationUse.grant_id (EffectIntent.authorization intent) = None ∧
    s' = put_step (RunState.set_consumption
           (<[AuthorizationUse.grant_id (EffectIntent.authorization intent) := used_once intent]>
              (RunState.authorization_consumption s)) s) id
           (StepState.set_status StepStatus.IntentCommitted (StepState.set_intent (Some intent) st)).
Proof.
  intros Hinv (st & effects & Hc & He & ->)%commit_Ok. exists st. split; [done|].
  pose proof (fresh_grant _ Hinv _ _ He) as Hnone. rewrite Hnone in He. subst effects.
  split; [done|].
  unfold consumed, used_once. by rewrite union_empty_r_L.
Qed.

(** C33: An accepted plan takes the next turn of an open loop, adds between 1 and 32 new
    planned steps within the step budget, with fresh ids, pairwise distinct actions that no
    existing step has planned or committed and the decision's proposal digest, and leaves a
    derivable frontier; nothing else changes. *)
Theorem accept_plan_spec `{Crypto} (s : RunState) (decision : ExpectedPlanningTurn)
    (plan : list AcceptedPlanStep) (s' : RunState) :
  run_inv s → accept_plan s decision plan = Ok s' →
  ∃ l l' f, plan_accepted s decision plan l l' f ∧ turns_ok (RunState.journal_sequence s) l' ∧
    s' = RunState.set_agent_loop (Some l')
           (RunState.set_steps (planned_into (RunState.steps s) plan) s).
Proof.
  intros Hinv (l & l' & f & Hpa & ->)%accept_plan_Ok; [|apply (ri_steps _ Hinv)].
  exists l, l', f. split; [done|]. split; [|done].
  apply (pa_turns _ _ _ _ _ _ Hpa), loop_ok_turns; [done|]. apply (pa_loop _ _ _ _ _ _ Hpa).
Qed.

(** ** Witnesses *)

Section witnesses.
#[local] Existing Instance reference_crypto.

Lemma scenario_intent : ∃ a, intent_at (RunState.steps (state events 19)) "a" a.
Proof.
  assert (Hok : is_Some (st ← RunState.steps (state events 19) !! "a"; StepState.intent st))
    by (vm_compute; eexists; reflexivity).
  destruct Hok as (a & (st & Hst & Ha)%bind_Some). exists a, st. split; [exact Hst|exact Ha].
Qed.

Lemma effects_authorized_once_witness :
  ∃ a, intent_at (RunState.steps (state events 19)) "a" a ∧ authorized (state events 19) "a" a.
Proof.
  destruct scenario_intent as [a Ha]. exists a. split; [exact Ha|].
  destruct (effects_authorized_once (journal events 19) _ (full 19 ltac:(lia))) as [Hauth _].
  destruct (Hauth "a" a Ha) as [H _]. exact H.
Defined.

Lemma budgets_hold_witness :
  ∃ l, RunState.agent_loop (state plain_events 9) = Some l ∧
    (run_attempts (state plain_events 9)
     ≤ AgentLoopBudget.max_tool_calls (AgentLoopState.budget l))%N.
Proof.
  destruct (RunState.agent_loop (state plain_events 9)) as [l|] eqn:E;
    [|vm_compute in E; discriminate E].
  exists l. split; [reflexivity|].
  destruct (budgets_hold (journal plain_events 9) (state plain_events 9) l (plain 9 ltac:(lia)) E)
    as (_ & _ & Ha & _). exact Ha.
Defined.

Lemma step_history_holds_witness :
  ∃ st1 st2, RunState.steps (state plain_events 3) !! "a" = Some st1 ∧
    RunState.steps (state plain_events 9) !! "a" = Some st2 ∧ step_history st1 st2.
Proof.
  destruct (plain_suffix 3 9 ltac:(lia) ltac:(lia)) as [tail Ht].
  destruct (RunState.steps (state plain_events 3) !! "a") as [st1|] eqn:E;
    [|vm_compute in E; discriminate E].
  destruct (step_history_holds (journal plain_events 3) tail _ _ "a" st1 (plain 3 ltac:(lia)) Ht E)
    as (st2 & E2 & Hh).
  exists st1, st2. split; [reflexivity|]. split; [exact E2|exact Hh].
Defined.

Lemma completion_freezes_witness :
  RunState.steps (state plain_events 9) = RunState.steps (state plain_events 8).
Proof.
  destruct (plain_suffix 8 9 ltac:(lia) ltac:(lia)) as [tail Ht].
  destruct (l ← RunState.agent_loop (state plain_events 8);
            c ← AgentLoopState.completion_candidate l; Some (l, c)) as [[l c]|] eqn:E;
    [|vm_compute in E; discriminate E].
  destruct (RunState.agent_loop (state plain_events 8)) as [l'|] eqn:El; [|discriminate E].
  cbn in E. destruct (AgentLoopState.completion_candidate l') as [c'|] eqn:Ec; [|discriminate E].
  destruct (completion_freezes (journal plain_events 8) tail _ _ l' c' (plain 8 ltac:(lia)) Ht El Ec)
    as (Hsteps & _). exact Hsteps.
Defined.

Lemma lifecycle_refinement_witness :
  ∃ s', apply_effect_lifecycle (Sample.run [Sample.step "a" StepStatus.Validating [] false])
          (RunEventBody.VerificationPassed "a") = Ok s' ∧
    ∃ st st', lifecycle (RunEventBody.VerificationPassed "a") st st' ∧
      s' = put_step (Sample.run [Sample.step "a" StepStatus.Validating [] false]) "a" st'.
Proof.
  eexists. split; [vm_compute; reflexivity|].
  match goal with |- context [?s' = put_step _ _ _] =>
    destruct (proj1 (lifecycle_refinement (Sample.run [Sample.step "a" StepStatus.Validating [] false])
      (RunEventBody.VerificationPassed "a") "a" s' eq_refl)) as (st & st' & _ & Hlc & _ & Heq) end;
    [vm_compute; reflexivity|]. exists st, st'. split; [exact Hlc|exact Heq].
Defined.

Lemma commit_effect_intent_spec_witness :
  ∃ i s' st, commit_effect_intent (state plain_events 3) "a" i = Ok s' ∧
    committed (state plain_events 3) "a" i st.
Proof.
  assert (Hok : match plain_intent (state plain_events 3) with
                | Ok i => match commit_effect_intent (state plain_events 3) "a" i with
                          | Ok _ => true | _ => false end
                | _ => false
                end = true) by (vm_compute; reflexivity).
  destruct (plain_intent (state plain_events 3)) as [i| |]; [|discriminate Hok..].
  destruct (commit_effect_intent (state plain_events 3) "a" i) as [s'| |] eqn:E; [|discriminate Hok..].
  destruct (commit_effect_intent_spec _ "a" i s'
    (replay_run_inv _ _ (plain 3 ltac:(lia))) E) as (st & Hc & _).
  exists i, s', st. split; [exact E|exact Hc].
Defined.

Lemma accept_plan_spec_witness :
  ∃ d p s' l l' f, accept_plan (state events 4) d p = Ok s' ∧
    plan_accepted (state events 4) d p l l' f.
Proof.
  assert (Hok : match accept (Some (state events 4)) with
                | Ok (RunEventBody.PlanAccepted d p) =>
                    match accept_plan (state events 4) d p with Ok _ => true | _ => false end
                | _ => false
                end = true) by (vm_compute; reflexivity).
  destruct (accept (Some (state events 4))) as [[]| |]; try discriminate Hok.
  destruct (accept_plan (state events 4) decision steps) as [s'| |] eqn:E; [|discriminate Hok..].
  destruct (accept_plan_spec _ decision steps s' (replay_run_inv _ _ (full 4 ltac:(lia))) E)
    as (l & l' & f & Hp & _).
  exists decision, steps, s', l, l', f. split; [exact E|exact Hp].
Defined.
End witnesses.
