(* ===== verification/Domain.v ===== *)
(** The wire types of the [xgeny-domain] crate that policy resolution and composition read
    (crates/xgeny-domain/src/{common,capability,policy}.rs), one module per Rust type. *)

From S2P Require Import Prelude Text Wire.

Definition API_VERSION_V1ALPHA1 : string := "xgeny.io/v1alpha1".

(** [BTreeMap<String, Value>]. *)
Definition Extensions : Type := gmap string Value.
Definition Metadata : Type := gmap string Value.

(** ** Common *)

Module CapabilityRef.
Record CapabilityRef : Type := mk { capability_id : string; contract_version : string }.
#[global] Instance CapabilityRef_eq_dec : EqDecision CapabilityRef.
Proof. solve_decision. Defined.
End CapabilityRef.
Abbreviation CapabilityRef := CapabilityRef.CapabilityRef.

Module EffectClass.
Inductive EffectClass : Type := ReadOnly | Idempotent | Compensatable | NonIdempotent | Unknown.
#[global] Instance EffectClass_eq_dec : EqDecision EffectClass.
Proof. solve_decision. Defined.
End EffectClass.
Abbreviation EffectClass := EffectClass.EffectClass.

Module CriticalAction.
Inductive CriticalAction : Type :=
| IrreversibleDelete
| CredentialExport
| PaymentOrPurchase
| ExternalPublishOrMessage
| ProductionDeploy
| PrivilegeEscalation
| PersistentStartup.
#[global] Instance CriticalAction_eq_dec : EqDecision CriticalAction.
Proof. solve_decision. Defined.
End CriticalAction.
Abbreviation CriticalAction := CriticalAction.CriticalAction.

Module VerificationStrategy.
Inductive VerificationStrategy : Type :=
| OutputSchema
| Postcondition
| ArtifactDigest
| Receipt
| Human.
#[global] Instance VerificationStrategy_eq_dec : EqDecision VerificationStrategy.
Proof. solve_decision. Defined.
End VerificationStrategy.
Abbreviation VerificationStrategy := VerificationStrategy.VerificationStrategy.

Module GrantLifetime.
Inductive GrantLifetime : Type := Once | Run | Session | Project | Persistent.
#[global] Instance GrantLifetime_eq_dec : EqDecision GrantLifetime.
Proof. solve_decision. Defined.
End GrantLifetime.
Abbreviation GrantLifetime := GrantLifetime.GrantLifetime.

Module ResolvedResource.
Record ResolvedResource : Type := mk {
  scope : string;
  resource : string;
  normalized : bool;
  metadata : Metadata;
}.
End ResolvedResource.
Abbreviation ResolvedResource := ResolvedResource.ResolvedResource.

Module VerificationRule.
Record VerificationRule : Type := mk {
  strategy : VerificationStrategy;
  required : bool;
  description : option string;
}.
End VerificationRule.
Abbreviation VerificationRule := VerificationRule.VerificationRule.

(** ** Capabilities *)

Module CapabilityMetadata.
Record CapabilityMetadata : Type := mk {
  id : string;
  contract_version : string;
  display_name : string;
  labels : gmap string string;
}.
End CapabilityMetadata.
Abbreviation CapabilityMetadata := CapabilityMetadata.CapabilityMetadata.

Module ResourceSelector.
Record ResourceSelector : Type := mk { scope : string; argument_pointer : string }.
#[global] Instance ResourceSelector_eq_dec : EqDecision ResourceSelector.
Proof. solve_decision. Defined.
End ResourceSelector.
Abbreviation ResourceSelector := ResourceSelector.ResourceSelector.

Module CapabilityEffect.
Record CapabilityEffect : Type := mk {
  class : EffectClass;
  resource_selectors : list ResourceSelector;
  critical_actions : list CriticalAction;
}.
End CapabilityEffect.
Abbreviation CapabilityEffect := CapabilityEffect.CapabilityEffect.

Module ExecutionStyle.
Inductive ExecutionStyle : Type := Sync | Task.
#[global] Instance ExecutionStyle_eq_dec : EqDecision ExecutionStyle.
Proof. solve_decision. Defined.
End ExecutionStyle.
Abbreviation ExecutionStyle := ExecutionStyle.ExecutionStyle.

Module CapabilityExecution.
Record CapabilityExecution : Type := mk {
  styles : list ExecutionStyle;
  cancellable : bool;
  idempotency_key_supported : bool;
  durable_tool_output : bool;
  default_timeout_ms : N;
  max_timeout_ms : N;
}.
End CapabilityExecution.
Abbreviation CapabilityExecution := CapabilityExecution.CapabilityExecution.

Module CapabilityDiscovery.
Record CapabilityDiscovery : Type := mk {
  keywords : list string;
  examples : list string;
  details_ref : option string;
}.
End CapabilityDiscovery.
Abbreviation CapabilityDiscovery := CapabilityDiscovery.CapabilityDiscovery.

Module CapabilitySpec.
Record CapabilitySpec : Type := mk {
  summary : string;
  input_schema : Value;
  output_schema : Value;
  effect : CapabilityEffect;
  required_capabilities : list CapabilityRef;
  execution : CapabilityExecution;
  verification : list VerificationRule;
  discovery : option CapabilityDiscovery;
}.
End CapabilitySpec.
Abbreviation CapabilitySpec := CapabilitySpec.CapabilitySpec.

Module CapabilityDefinitionBody.
Record CapabilityDefinitionBody : Type := mk {
  api_version : string;
  extensions : Extensions;
  required_extensions : list string;
  metadata : CapabilityMetadata;
  spec : CapabilitySpec;
}.
End CapabilityDefinitionBody.
Abbreviation CapabilityDefinitionBody := CapabilityDefinitionBody.CapabilityDefinitionBody.

(** ** Instances *)

Module Placement.
Inductive Placement : Type := Local | Device | Remote.
#[global] Instance Placement_eq_dec : EqDecision Placement.
Proof. solve_decision. Defined.
End Placement.
Abbreviation Placement := Placement.Placement.

Module CapabilitySource.
Inductive CapabilitySource : Type := Builtin | LocalCli | Mcp | Connector | Xgen.
End CapabilitySource.
Abbreviation CapabilitySource := CapabilitySource.CapabilitySource.

Module OperatingSystem.
Inductive OperatingSystem : Type := Linux | Macos | Windows | Any.
#[global] Instance OperatingSystem_eq_dec : EqDecision OperatingSystem.
Proof. solve_decision. Defined.
End OperatingSystem.
Abbreviation OperatingSystem := OperatingSystem.OperatingSystem.

Module Architecture.
Inductive Architecture : Type := X86_64 | Aarch64 | Any.
#[global] Instance Architecture_eq_dec : EqDecision Architecture.
Proof. solve_decision. Defined.
End Architecture.
Abbreviation Architecture := Architecture.Architecture.

Module Platform.
Record Platform : Type := mk { os : OperatingSystem; arch : Architecture }.
End Platform.
Abbreviation Platform := Platform.Platform.

Module TrustLevel.
Inductive TrustLevel : Type := Untrusted | Configured | Verified | Managed.
#[global] Instance TrustLevel_eq_dec : EqDecision TrustLevel.
Proof. solve_decision. Defined.
End TrustLevel.
Abbreviation TrustLevel := TrustLevel.TrustLevel.

Module DataBoundary.
Inductive DataBoundary : Type := Local | Device | Organization | External.
#[global] Instance DataBoundary_eq_dec : EqDecision DataBoundary.
Proof. solve_decision. Defined.
End DataBoundary.
Abbreviation DataBoundary := DataBoundary.DataBoundary.

Module HealthStatus.
Inductive HealthStatus : Type := Available | Degraded | Unavailable | Unknown.
End HealthStatus.
Abbreviation HealthStatus := HealthStatus.HealthStatus.

Module Health.
Record Health : Type := mk { status : HealthStatus; observed_at : string; reason : option string }.
End Health.
Abbreviation Health := Health.Health.

Module AuthState.
Inductive AuthState : Type := NotRequired | Available | Required | Expired.
End AuthState.
Abbreviation AuthState := AuthState.AuthState.

Module Auth.
Record Auth : Type := mk { state : AuthState; auth_ref : option string }.
End Auth.
Abbreviation Auth := Auth.Auth.

Module InstanceFeatures.
Record InstanceFeatures : Type := mk {
  sync : bool;
  task : bool;
  cancellable : bool;
  idempotency_query : bool;
}.
End InstanceFeatures.
Abbreviation InstanceFeatures := InstanceFeatures.InstanceFeatures.

(** The [f64] hints are held by their bits. *)
Module InstanceHints.
Record InstanceHints : Type := mk {
  latency_ms : option N;
  monetary_cost : option f64;
  reliability : option f64;
}.
End InstanceHints.
Abbreviation InstanceHints := InstanceHints.InstanceHints.

Module InstanceBinding.
Record InstanceBinding : Type := mk {
  binding_ref : string;
  operation_ref : option string;
  protocol_version : option string;
}.
End InstanceBinding.
Abbreviation InstanceBinding := InstanceBinding.InstanceBinding.

Module CapabilityInstanceBody.
Record CapabilityInstanceBody : Type := mk {
  api_version : string;
  extensions : Extensions;
  required_extensions : list string;
  instance_id : string;
  definition : CapabilityRef;
  source : CapabilitySource;
  placement : Placement;
  platform : Platform;
  trust : TrustLevel;
  data_boundary : DataBoundary;
  health : Health;
  auth : Auth;
  features : InstanceFeatures;
  hints : option InstanceHints;
  binding : InstanceBinding;
}.
End CapabilityInstanceBody.
Abbreviation CapabilityInstanceBody := CapabilityInstanceBody.CapabilityInstanceBody.

(** ** Policy *)

Module PermissionRequestBody.
Record PermissionRequestBody : Type := mk {
  api_version : string;
  extensions : Extensions;
  required_extensions : list string;
  request_id : string;
  run_id : string;
  step_id : string;
  capability : CapabilityRef;
  effect_class : EffectClass;
  requested_scopes : list string;
  resolved_resources : list ResolvedResource;
  critical_actions : list CriticalAction;
  requested_lifetime : GrantLifetime;
  reason : string;
  created_at : string;
}.
End PermissionRequestBody.
Abbreviation PermissionRequestBody := PermissionRequestBody.PermissionRequestBody.

Module PolicySourceKind.
Inductive PolicySourceKind : Type := Host | UserProfile | RunGrant | ManagedLease.
#[global] Instance PolicySourceKind_eq_dec : EqDecision PolicySourceKind.
Proof. solve_decision. Defined.
End PolicySourceKind.
Abbreviation PolicySourceKind := PolicySourceKind.PolicySourceKind.

Module PolicySource.
Record PolicySource : Type := mk { kind : PolicySourceKind; id : string; digest : string }.
#[global] Instance PolicySource_eq_dec : EqDecision PolicySource.
Proof. solve_decision. Defined.
End PolicySource.
Abbreviation PolicySource := PolicySource.PolicySource.
