(* ===== verification/Receipt.v ===== *)
(** Execution receipts: the wire types of crates/xgeny-domain/src/{common,execution}.rs with
    their JSON form, and the receipt half of crates/xgeny-protocol/src/lib.rs, which is the
    Core Receipt profiles and the validation of a receipt document. *)

From Stdlib Require Import Ascii.
From S2P Require Import Prelude Text Wire Domain.

(** ** Wire types *)

Module VerificationResult.
Inductive VerificationResult : Type := Passed | Failed | Inconclusive.
#[global] Instance VerificationResult_eq_dec : EqDecision VerificationResult.
Proof. solve_decision. Defined.
End VerificationResult.
Abbreviation VerificationResult := VerificationResult.VerificationResult.

Module ArtifactProvenance.
Record ArtifactProvenance : Type := mk {
  run_id : string;
  step_id : string;
  receipt_id : option string;
}.
End ArtifactProvenance.
Abbreviation ArtifactProvenance := ArtifactProvenance.ArtifactProvenance.

Module ArtifactRef.
Record ArtifactRef : Type := mk {
  artifact_id : string;
  name : option string;
  media_type : string;
  size : N;
  digest : string;
  provenance : option ArtifactProvenance;
  extensions : Extensions;
  required_extensions : list string;
}.
End ArtifactRef.
Abbreviation ArtifactRef := ArtifactRef.ArtifactRef.

Module VerificationEvidence.
Record VerificationEvidence : Type := mk {
  strategy : VerificationStrategy;
  required : bool;
  result : VerificationResult;
  summary : string;
  evidence_digest : option string;
  artifact : option ArtifactRef;
}.
End VerificationEvidence.
Abbreviation VerificationEvidence := VerificationEvidence.VerificationEvidence.

Module ReceiptPolicy.
Record ReceiptPolicy : Type := mk {
  decision_id : string;
  decision_digest : string;
  lease_id : option string;
  lease_digest : option string;
}.
End ReceiptPolicy.
Abbreviation ReceiptPolicy := ReceiptPolicy.ReceiptPolicy.

Module Executor.
Record Executor : Type := mk { id : string; placement : Placement; platform : string }.
End Executor.
Abbreviation Executor := Executor.Executor.

Module ReceiptEffect.
Record ReceiptEffect : Type := mk {
  class : EffectClass;
  started : bool;
  started_at : option string;
  idempotency_key : option string;
}.
End ReceiptEffect.
Abbreviation ReceiptEffect := ReceiptEffect.ReceiptEffect.

Module ReceiptStatus.
Inductive ReceiptStatus : Type := Succeeded | Failed | Cancelled | Blocked | Unknown.
#[global] Instance ReceiptStatus_eq_dec : EqDecision ReceiptStatus.
Proof. solve_decision. Defined.
End ReceiptStatus.
Abbreviation ReceiptStatus := ReceiptStatus.ReceiptStatus.

Module ExecutionReceiptBody.
Record ExecutionReceiptBody : Type := mk {
  api_version : string;
  extensions : Extensions;
  required_extensions : list string;
  receipt_id : string;
  run_id : string;
  step_id : string;
  invocation_id : string;
  plan_id : string;
  capability : CapabilityRef;
  instance_id : string;
  input_digest : string;
  input_summary : string;
  policy : ReceiptPolicy;
  executor : Executor;
  effect : ReceiptEffect;
  status : ReceiptStatus;
  started_at : string;
  ended_at : string;
  output_digest : string;
  artifacts : list ArtifactRef;
  verification : list VerificationEvidence;
  redactions_applied : list string;
  previous_receipt_digest : option string;
  receipt_digest : string;
}.
End ExecutionReceiptBody.
Abbreviation ExecutionReceiptBody := ExecutionReceiptBody.ExecutionReceiptBody.

(** ** JSON form: [rename_all = "camelCase"] records, [snake_case] enumerations *)

#[export] Instance ser_EffectClass : Serialize EffectClass := λ c,
  Value.Str match c with
  | EffectClass.ReadOnly => "read_only"
  | EffectClass.Idempotent => "idempotent"
  | EffectClass.Compensatable => "compensatable"
  | EffectClass.NonIdempotent => "non_idempotent"
  | EffectClass.Unknown => "unknown"
  end.

#[export] Instance ser_VerificationStrategy : Serialize VerificationStrategy := λ s,
  Value.Str match s with
  | VerificationStrategy.OutputSchema => "output_schema"
  | VerificationStrategy.Postcondition => "postcondition"
  | VerificationStrategy.ArtifactDigest => "artifact_digest"
  | VerificationStrategy.Receipt => "receipt"
  | VerificationStrategy.Human => "human"
  end.

#[export] Instance ser_VerificationResult : Serialize VerificationResult := λ r,
  Value.Str match r with
  | VerificationResult.Passed => "passed"
  | VerificationResult.Failed => "failed"
  | VerificationResult.Inconclusive => "inconclusive"
  end.

#[export] Instance ser_Placement : Serialize Placement := λ p,
  Value.Str match p with
  | Placement.Local => "local"
  | Placement.Device => "device"
  | Placement.Remote => "remote"
  end.

#[export] Instance ser_ReceiptStatus : Serialize ReceiptStatus := λ s,
  Value.Str match s with
  | ReceiptStatus.Succeeded => "succeeded"
  | ReceiptStatus.Failed => "failed"
  | ReceiptStatus.Cancelled => "cancelled"
  | ReceiptStatus.Blocked => "blocked"
  | ReceiptStatus.Unknown => "unknown"
  end.

(** A [BTreeMap<String, Value>] member skipped when empty. *)
Definition field_map (k : string) (m : Extensions) : list (string * Value) :=
  if decide (m = ∅) then [] else [(k, Value.Object (btree_entries m))].

#[export] Instance ser_CapabilityRef : Serialize CapabilityRef := λ r,
  obj (field "capabilityId" (CapabilityRef.capability_id r)
    ++ field "contractVersion" (CapabilityRef.contract_version r)).

#[export] Instance ser_ArtifactProvenance : Serialize ArtifactProvenance := λ r,
  obj (field "runId" (ArtifactProvenance.run_id r)
    ++ field "stepId" (ArtifactProvenance.step_id r)
    ++ field_opt "receiptId" (ArtifactProvenance.receipt_id r)).

#[export] Instance ser_ArtifactRef : Serialize ArtifactRef := λ r,
  obj (field "artifactId" (ArtifactRef.artifact_id r)
    ++ field_opt "name" (ArtifactRef.name r)
    ++ field "mediaType" (ArtifactRef.media_type r)
    ++ field "size" (ArtifactRef.size r)
    ++ field "digest" (ArtifactRef.digest r)
    ++ field_opt "provenance" (ArtifactRef.provenance r)
    ++ field_map "extensions" (ArtifactRef.extensions r)
    ++ field_vec "requiredExtensions" (ArtifactRef.required_extensions r)).

#[export] Instance ser_VerificationEvidence : Serialize VerificationEvidence := λ r,
  obj (field "strategy" (VerificationEvidence.strategy r)
    ++ field "required" (VerificationEvidence.required r)
    ++ field "result" (VerificationEvidence.result r)
    ++ field "summary" (VerificationEvidence.summary r)
    ++ field_opt "evidenceDigest" (VerificationEvidence.evidence_digest r)
    ++ field_opt "artifact" (VerificationEvidence.artifact r)).

#[export] Instance ser_ReceiptPolicy : Serialize ReceiptPolicy := λ r,
  obj (field "decisionId" (ReceiptPolicy.decision_id r)
    ++ field "decisionDigest" (ReceiptPolicy.decision_digest r)
    ++ field_opt "leaseId" (ReceiptPolicy.lease_id r)
    ++ field_opt "leaseDigest" (ReceiptPolicy.lease_digest r)).

#[export] Instance ser_Executor : Serialize Executor := λ r,
  obj (field "id" (Executor.id r)
    ++ field "placement" (Executor.placement r)
    ++ field "platform" (Executor.platform r)).

#[export] Instance ser_ReceiptEffect : Serialize ReceiptEffect := λ r,
  obj (field "class" (ReceiptEffect.class r)
    ++ field "started" (ReceiptEffect.started r)
    ++ field_opt "startedAt" (ReceiptEffect.started_at r)
    ++ field "idempotencyKey" (ReceiptEffect.idempotency_key r)).

Definition receipt_members (r : ExecutionReceiptBody) : list (string * Value) :=
  field "apiVersion" (ExecutionReceiptBody.api_version r)
    ++ field_map "extensions" (ExecutionReceiptBody.extensions r)
    ++ field_vec "requiredExtensions" (ExecutionReceiptBody.required_extensions r)
    ++ field "receiptId" (ExecutionReceiptBody.receipt_id r)
    ++ field "runId" (ExecutionReceiptBody.run_id r)
    ++ field "stepId" (ExecutionReceiptBody.step_id r)
    ++ field "invocationId" (ExecutionReceiptBody.invocation_id r)
    ++ field "planId" (ExecutionReceiptBody.plan_id r)
    ++ field "capability" (ExecutionReceiptBody.capability r)
    ++ field "instanceId" (ExecutionReceiptBody.instance_id r)
    ++ field "inputDigest" (ExecutionReceiptBody.input_digest r)
    ++ field "inputSummary" (ExecutionReceiptBody.input_summary r)
    ++ field "policy" (ExecutionReceiptBody.policy r)
    ++ field "executor" (ExecutionReceiptBody.executor r)
    ++ field "effect" (ExecutionReceiptBody.effect r)
    ++ field "status" (ExecutionReceiptBody.status r)
    ++ field "startedAt" (ExecutionReceiptBody.started_at r)
    ++ field "endedAt" (ExecutionReceiptBody.ended_at r)
    ++ field "outputDigest" (ExecutionReceiptBody.output_digest r)
    ++ field "artifacts" (ExecutionReceiptBody.artifacts r)
    ++ field "verification" (ExecutionReceiptBody.verification r)
    ++ field "redactionsApplied" (ExecutionReceiptBody.redactions_applied r)
    ++ field "previousReceiptDigest" (ExecutionReceiptBody.previous_receipt_digest r)
    ++ field "receiptDigest" (ExecutionReceiptBody.receipt_digest r).

(** [ProtocolDocument::ExecutionReceipt]: the [kind] tag beside the body's members. *)
Definition ExecutionReceipt (r : ExecutionReceiptBody) : Value :=
  obj (field "kind" ("ExecutionReceipt" : string) ++ receipt_members r).

(** ** Core Receipt profiles *)

Definition CORE_RECEIPT_PROFILE_V1 : string := "xgeny.core-receipt/v1".
Definition CORE_RECEIPT_PROFILE_V2 : string := "xgeny.core-receipt/v2".
Definition CORE_RECEIPT_MAX_ARTIFACTS_V2 : N := 8.
Definition CORE_RECEIPT_MAX_ARTIFACT_SIZE_BYTES_V2 : N := 1048576.
Definition CORE_RECEIPT_MAX_ARTIFACT_TOTAL_BYTES_V2 : N := 4194304.
Definition CORE_RECEIPT_INPUT_SUMMARY_V1 : string := "Invocation input retained by digest only.".
Definition CORE_RECEIPT_REDACTIONS_V1 : list string :=
  ["raw invocation arguments omitted"; "raw tool output omitted"].

(** The bytes of an artifact identifier: alphanumeric, or past the first one of [._:-]. *)
Definition artifact_identifier_bytes (artifact_id : string) : bool :=
  match artifact_id with
  | EmptyString => true
  | String a rest =>
      is_ascii_alphanumeric (N_of_ascii a) &&
      all_bytes (λ b, is_ascii_alphanumeric b || is_name_punct b || bool_decide (b = 58)%N) rest
  end.

Definition core_artifact_descriptor_v2_is_valid (artifact_id : string) (name : option string)
    (media_type : string) (size : N) (digest : string) : bool :=
  let identifier_valid :=
    negb (is_empty artifact_id) && bool_decide (strlen artifact_id ≤ 200)%N &&
    artifact_identifier_bytes artifact_id in
  let name_valid :=
    match name with
    | None => true
    | Some name =>
        negb (is_empty name) && bool_decide (strlen name ≤ 512)%N && negb (any_control name)
    end in
  let media_type_valid :=
    bool_decide (3 ≤ strlen media_type ≤ 200)%N && negb (any_control media_type) in
  let digest_valid :=
    match strip_prefix "sha256:" digest with
    | Some encoded =>
        bool_decide (strlen encoded = 64)%N &&
        all_bytes (λ b, is_ascii_digit b || is_lower_af b) encoded
    | None => false
    end in
  identifier_valid && name_valid && media_type_valid &&
  bool_decide (size ≤ CORE_RECEIPT_MAX_ARTIFACT_SIZE_BYTES_V2)%N && digest_valid.

Module CoreVerificationOutcome.
Inductive CoreVerificationOutcome : Type := Passed | Failed | Inconclusive.
End CoreVerificationOutcome.
Abbreviation CoreVerificationOutcome := CoreVerificationOutcome.CoreVerificationOutcome.

Definition core_receipt_id_v1 (effect_id : string) : string :=
  "receipt-" +:+ match strip_prefix "effect-" effect_id with
                 | Some rest => rest
                 | None => effect_id
                 end.

Definition core_verification_summary_v1 (result : VerificationResult) : string :=
  match result with
  | VerificationResult.Passed => "Core-selected verification rule passed."
  | VerificationResult.Failed => "Core-selected verification rule failed."
  | VerificationResult.Inconclusive => "Core-selected verification rule was inconclusive."
  end.

Definition evaluate_core_verification_v1 (evidence : list VerificationEvidence)
    : CoreVerificationOutcome :=
  let has (result : VerificationResult) (item : VerificationEvidence) :=
    bool_decide (VerificationEvidence.result item = result) in
  let required_failed :=
    existsb (λ item, VerificationEvidence.required item && has VerificationResult.Failed item)
      evidence in
  let required_inconclusive :=
    existsb (λ item, VerificationEvidence.required item
                     && has VerificationResult.Inconclusive item) evidence in
  let any_passed := existsb (has VerificationResult.Passed) evidence in
  if required_failed then CoreVerificationOutcome.Failed
  else if required_inconclusive || negb any_passed then CoreVerificationOutcome.Inconclusive
  else CoreVerificationOutcome.Passed.

Definition core_receipt_status_v1 (outcome : CoreVerificationOutcome) : ReceiptStatus :=
  match outcome with
  | CoreVerificationOutcome.Passed => ReceiptStatus.Succeeded
  | CoreVerificationOutcome.Failed => ReceiptStatus.Failed
  | CoreVerificationOutcome.Inconclusive => ReceiptStatus.Unknown
  end.

(** ** Protocol validation *)

(** A [serde_json::Error] is its message; a message built with [format!] is its literal,
    placeholders included. *)
Module ProtocolError.
Inductive ProtocolError : Type :=
| Json (asset source : string)
| Schema (message : string)
| Fixture (message : string)
| Canonicalization (message : string)
| UnsupportedRequiredExtension (extension : string).
End ProtocolError.
Abbreviation ProtocolError := ProtocolError.ProtocolError.

(** The third-party boundary: the JSON Schema validator compiled once from the bundled
    [execution-receipt.schema.json] (or the message of its failure to compile); validation
    returns the message of a violation. *)
Class ReceiptSchema : Type :=
  execution_receipt_validator : string + (Value → option string).

Module Protocol.
Definition canonical_digest `{Crypto} (value : Value) : res ProtocolError string :=
  Wire.canonical_digest ProtocolError.Canonicalization value.

(** [serde_json::Map::remove]: the object without the member, when it had it. *)
Definition remove_member (field : string) (members : list (string * Value))
    : option (list (string * Value)) :=
  match member field members with
  | Some _ => Some (filter (λ p, p.1 ≠ field) members)
  | None => None
  end.

Definition canonical_digest_without_field `{Crypto} (value : Value) (field : string)
    : res ProtocolError string :=
  match value with
  | Value.Object members =>
      let? unsigned := ok_or (remove_member field members)
        (ProtocolError.Canonicalization "digest input has no `{field}` field") in
      canonical_digest (Value.Object unsigned)
  | _ => Err (ProtocolError.Canonicalization "digest input must be a JSON object")
  end.

Definition ensure_required_extensions_supported (required : list string)
    (supported : gset string) : res ProtocolError unit :=
  match list_find (λ extension, extension ∉ supported) required with
  | Some (_, extension) => Err (ProtocolError.UnsupportedRequiredExtension extension)
  | None => Ok tt
  end.

Definition verify_derived_digest `{Crypto} (value : Value) (field expected : string)
    : res ProtocolError unit :=
  let? actual := canonical_digest_without_field value field in
  bail_if bool_decide (actual ≠ expected)
    with ProtocolError.Fixture
           "`{fixture}` has `{field}` `{expected}`, recomputed value is `{actual}`";;
  Ok tt.

(** [cached_document_validator] on the execution-receipt schema. *)
Definition cached_receipt_validator `{ReceiptSchema}
    : res ProtocolError (Value → option string) :=
  match execution_receipt_validator with
  | inl message => Err (ProtocolError.Schema message)
  | inr validator => Ok validator
  end.
End Protocol.

Definition validate_execution_receipt `{Crypto} `{ReceiptSchema} (receipt : ExecutionReceiptBody)
    : res ProtocolError unit :=
  let? validate := Protocol.cached_receipt_validator in
  let value := ExecutionReceipt receipt in
  let? _ := match validate value with
            | Some _ => Err (ProtocolError.Fixture
                               "runtime ExecutionReceipt violates the schema at {}: {}")
            | None => Ok tt
            end in
  let? _ := Protocol.ensure_required_extensions_supported
              (ExecutionReceiptBody.required_extensions receipt) ∅ in
  Protocol.verify_derived_digest value "receiptDigest"
    (ExecutionReceiptBody.receipt_digest receipt).
