(* ===== verification/DomainWire.v ===== *)
(** The JSON documents of the domain types that runtime digests cover: policy decisions and
    the executable parts of capability definitions and instances
    (crates/xgeny-domain/src/{common,capability,policy}.rs), with their injectivity.  The
    reader's types of Receipt share the serializations declared there. *)

From S2P Require Import Prelude Text Wire WorkGraphWire Domain Receipt.

(** ** Policy decisions *)

Module Decision.
Inductive Decision : Type := Allow | Ask | Deny.
End Decision.
Abbreviation Decision := Decision.Decision.

Module Grant.
Record Grant : Type := mk {
  lifetime : GrantLifetime;
  expires_at : option string;
  scopes : list string;
  resources : list ResolvedResource;
  critical_actions : list CriticalAction;
}.
End Grant.
Abbreviation Grant := Grant.Grant.

Module PolicyDecisionBody.
Record PolicyDecisionBody : Type := mk {
  api_version : string;
  extensions : Extensions;
  required_extensions : list string;
  decision_id : string;
  request_id : string;
  decision : Decision;
  policy_sources : list PolicySource;
  grant : option Grant;
  interaction_id : option string;
  deny_reasons : list string;
  decided_at : string;
}.
End PolicyDecisionBody.
Abbreviation PolicyDecisionBody := PolicyDecisionBody.PolicyDecisionBody.

(** ** Enumerations *)

#[export] Instance ser_CriticalAction : Serialize CriticalAction := λ a,
  Value.Str match a with
  | CriticalAction.IrreversibleDelete => "irreversible_delete"
  | CriticalAction.CredentialExport => "credential_export"
  | CriticalAction.PaymentOrPurchase => "payment_or_purchase"
  | CriticalAction.ExternalPublishOrMessage => "external_publish_or_message"
  | CriticalAction.ProductionDeploy => "production_deploy"
  | CriticalAction.PrivilegeEscalation => "privilege_escalation"
  | CriticalAction.PersistentStartup => "persistent_startup"
  end.

#[export] Instance ser_GrantLifetime : Serialize GrantLifetime := λ l,
  Value.Str match l with
  | GrantLifetime.Once => "once"
  | GrantLifetime.Run => "run"
  | GrantLifetime.Session => "session"
  | GrantLifetime.Project => "project"
  | GrantLifetime.Persistent => "persistent"
  end.

#[export] Instance ser_ExecutionStyle : Serialize ExecutionStyle := λ s,
  Value.Str match s with ExecutionStyle.Sync => "sync" | ExecutionStyle.Task => "task" end.

#[export] Instance ser_CapabilitySource : Serialize CapabilitySource := λ s,
  Value.Str match s with
  | CapabilitySource.Builtin => "builtin"
  | CapabilitySource.LocalCli => "local_cli"
  | CapabilitySource.Mcp => "mcp"
  | CapabilitySource.Connector => "connector"
  | CapabilitySource.Xgen => "xgen"
  end.

#[export] Instance ser_OperatingSystem : Serialize OperatingSystem := λ s,
  Value.Str match s with
  | OperatingSystem.Linux => "linux"
  | OperatingSystem.Macos => "macos"
  | OperatingSystem.Windows => "windows"
  | OperatingSystem.Any => "any"
  end.

#[export] Instance ser_Architecture : Serialize Architecture := λ s,
  Value.Str match s with
  | Architecture.X86_64 => "x86_64"
  | Architecture.Aarch64 => "aarch64"
  | Architecture.Any => "any"
  end.

#[export] Instance ser_TrustLevel : Serialize TrustLevel := λ s,
  Value.Str match s with
  | TrustLevel.Untrusted => "untrusted"
  | TrustLevel.Configured => "configured"
  | TrustLevel.Verified => "verified"
  | TrustLevel.Managed => "managed"
  end.

#[export] Instance ser_DataBoundary : Serialize DataBoundary := λ s,
  Value.Str match s with
  | DataBoundary.Local => "local"
  | DataBoundary.Device => "device"
  | DataBoundary.Organization => "organization"
  | DataBoundary.External => "external"
  end.

#[export] Instance ser_PolicySourceKind : Serialize PolicySourceKind := λ s,
  Value.Str match s with
  | PolicySourceKind.Host => "host"
  | PolicySourceKind.UserProfile => "user_profile"
  | PolicySourceKind.RunGrant => "run_grant"
  | PolicySourceKind.ManagedLease => "managed_lease"
  end.

#[export] Instance ser_Decision : Serialize Decision := λ s,
  Value.Str match s with
  | Decision.Allow => "allow"
  | Decision.Ask => "ask"
  | Decision.Deny => "deny"
  end.

(** ** Records *)

(** A member skipped by [skip_serializing_if = "is_false"]. *)
Definition field_true (k : string) (b : bool) : list (string * Value) :=
  if b then field k b else [].

#[export] Instance ser_ResolvedResource : Serialize ResolvedResource := λ r,
  obj (field "scope" (ResolvedResource.scope r)
    ++ field "resource" (ResolvedResource.resource r)
    ++ field "normalized" (ResolvedResource.normalized r)
    ++ field_map "metadata" (ResolvedResource.metadata r)).

#[export] Instance ser_VerificationRule : Serialize VerificationRule := λ r,
  obj (field "strategy" (VerificationRule.strategy r)
    ++ field "required" (VerificationRule.required r)
    ++ field_opt "description" (VerificationRule.description r)).

#[export] Instance ser_ResourceSelector : Serialize ResourceSelector := λ r,
  obj (field "scope" (ResourceSelector.scope r)
    ++ field "argumentPointer" (ResourceSelector.argument_pointer r)).

#[export] Instance ser_CapabilityEffect : Serialize CapabilityEffect := λ r,
  obj (field "class" (CapabilityEffect.class r)
    ++ field "resourceSelectors" (CapabilityEffect.resource_selectors r)
    ++ field "criticalActions" (CapabilityEffect.critical_actions r)).

#[export] Instance ser_CapabilityExecution : Serialize CapabilityExecution := λ r,
  obj (field "styles" (CapabilityExecution.styles r)
    ++ field "cancellable" (CapabilityExecution.cancellable r)
    ++ field "idempotencyKeySupported" (CapabilityExecution.idempotency_key_supported r)
    ++ field_true "durableToolOutput" (CapabilityExecution.durable_tool_output r)
    ++ field "defaultTimeoutMs" (CapabilityExecution.default_timeout_ms r)
    ++ field "maxTimeoutMs" (CapabilityExecution.max_timeout_ms r)).

#[export] Instance ser_CapabilityDiscovery : Serialize CapabilityDiscovery := λ r,
  obj (field_vec "keywords" (CapabilityDiscovery.keywords r)
    ++ field_vec "examples" (CapabilityDiscovery.examples r)
    ++ field_opt "detailsRef" (CapabilityDiscovery.details_ref r)).

#[export] Instance ser_CapabilitySpec : Serialize CapabilitySpec := λ r,
  obj (field "summary" (CapabilitySpec.summary r)
    ++ field "inputSchema" (CapabilitySpec.input_schema r)
    ++ field "outputSchema" (CapabilitySpec.output_schema r)
    ++ field "effect" (CapabilitySpec.effect r)
    ++ field_vec "requiredCapabilities" (CapabilitySpec.required_capabilities r)
    ++ field "execution" (CapabilitySpec.execution r)
    ++ field "verification" (CapabilitySpec.verification r)
    ++ field_opt "discovery" (CapabilitySpec.discovery r)).

#[export] Instance ser_Platform : Serialize Platform := λ r,
  obj (field "os" (Platform.os r) ++ field "arch" (Platform.arch r)).

#[export] Instance ser_InstanceFeatures : Serialize InstanceFeatures := λ r,
  obj (field "sync" (InstanceFeatures.sync r)
    ++ field "task" (InstanceFeatures.task r)
    ++ field "cancellable" (InstanceFeatures.cancellable r)
    ++ field "idempotencyQuery" (InstanceFeatures.idempotency_query r)).

#[export] Instance ser_InstanceBinding : Serialize InstanceBinding := λ r,
  obj (field "bindingRef" (InstanceBinding.binding_ref r)
    ++ field_opt "operationRef" (InstanceBinding.operation_ref r)
    ++ field_opt "protocolVersion" (InstanceBinding.protocol_version r)).

#[export] Instance ser_PolicySource : Serialize PolicySource := λ r,
  obj (field "kind" (PolicySource.kind r)
    ++ field "id" (PolicySource.id r)
    ++ field "digest" (PolicySource.digest r)).

#[export] Instance ser_Grant : Serialize Grant := λ r,
  obj (field "lifetime" (Grant.lifetime r)
    ++ field_opt "expiresAt" (Grant.expires_at r)
    ++ field "scopes" (Grant.scopes r)
    ++ field "resources" (Grant.resources r)
    ++ field "criticalActions" (Grant.critical_actions r)).

(** [ProtocolDocument::PolicyDecision]: the [kind] tag beside the body's members. *)
Definition PolicyDecision (r : PolicyDecisionBody) : Value :=
  obj (field "kind" ("PolicyDecision" : string)
    ++ field "apiVersion" (PolicyDecisionBody.api_version r)
    ++ field_map "extensions" (PolicyDecisionBody.extensions r)
    ++ field_vec "requiredExtensions" (PolicyDecisionBody.required_extensions r)
    ++ field "decisionId" (PolicyDecisionBody.decision_id r)
    ++ field "requestId" (PolicyDecisionBody.request_id r)
    ++ field "decision" (PolicyDecisionBody.decision r)
    ++ field "policySources" (PolicyDecisionBody.policy_sources r)
    ++ field_opt "grant" (PolicyDecisionBody.grant r)
    ++ field_opt "interactionId" (PolicyDecisionBody.interaction_id r)
    ++ field_vec "denyReasons" (PolicyDecisionBody.deny_reasons r)
    ++ field "decidedAt" (PolicyDecisionBody.decided_at r)).

(** [validate_policy_decision] (crates/xgeny-protocol/src/lib.rs).  A policy decision has no
    semantic check of its own ([validate_document_semantics]); the compiled validator of the
    bundled schema is third-party, as for receipts. *)
Class PolicyDecisionSchema : Type :=
  policy_decision_validator : string + (Value → option string).

Definition validate_policy_decision `{PolicyDecisionSchema} (decision : PolicyDecisionBody)
    : res ProtocolError unit :=
  let? validate := match policy_decision_validator with
                   | inl message => Err (ProtocolError.Schema message)
                   | inr validator => Ok validator
                   end in
  let? _ := match validate (PolicyDecision decision) with
            | Some _ => Err (ProtocolError.Fixture
                               "runtime PolicyDecision violates the schema at {}: {}")
            | None => Ok tt
            end in
  Protocol.ensure_required_extensions_supported
    (PolicyDecisionBody.required_extensions decision) ∅.

(** ** Injectivity *)

#[export] Instance ser_value_inj : Inj (=) (=) (ser : Value → Value).
Proof. by intros v w. Qed.
#[export] Instance ser_DomainEffectClass_inj : Inj (=) (=) (ser : Domain.EffectClass → Value).
Proof. enum_inj. Qed.
#[export] Instance ser_DomainPlacement_inj : Inj (=) (=) (ser : Placement → Value).
Proof. enum_inj. Qed.
#[export] Instance ser_VerificationStrategy_inj : Inj (=) (=) (ser : VerificationStrategy → Value).
Proof. enum_inj. Qed.
#[export] Instance ser_CriticalAction_inj : Inj (=) (=) (ser : CriticalAction → Value).
Proof. enum_inj. Qed.
#[export] Instance ser_ExecutionStyle_inj : Inj (=) (=) (ser : ExecutionStyle → Value).
Proof. enum_inj. Qed.
#[export] Instance ser_CapabilitySource_inj : Inj (=) (=) (ser : CapabilitySource → Value).
Proof. enum_inj. Qed.
#[export] Instance ser_OperatingSystem_inj : Inj (=) (=) (ser : OperatingSystem → Value).
Proof. enum_inj. Qed.
#[export] Instance ser_Architecture_inj : Inj (=) (=) (ser : Architecture → Value).
Proof. enum_inj. Qed.
#[export] Instance ser_TrustLevel_inj : Inj (=) (=) (ser : TrustLevel → Value).
Proof. enum_inj. Qed.
#[export] Instance ser_DataBoundary_inj : Inj (=) (=) (ser : DataBoundary → Value).
Proof. enum_inj. Qed.
#[export] Instance ser_CapabilityRef_inj : Inj (=) (=) (ser : CapabilityRef → Value).
Proof. intros [] []. record_inj. Qed.
#[export] Instance ser_VerificationRule_inj : Inj (=) (=) (ser : VerificationRule → Value).
Proof. intros [? ? []] [? ? []]; record_inj. Qed.
#[export] Instance ser_ResourceSelector_inj : Inj (=) (=) (ser : ResourceSelector → Value).
Proof. intros [] []. record_inj. Qed.
#[export] Instance ser_CapabilityEffect_inj : Inj (=) (=) (ser : CapabilityEffect → Value).
Proof. intros [] []. record_inj. Qed.
#[export] Instance ser_CapabilityExecution_inj : Inj (=) (=) (ser : CapabilityExecution → Value).
Proof.
  intros [? ? ? [] ? ?] [? ? ? [] ? ?] H; ser_unfold H; unfold field_true in H; obj_inv H;
    ser_cancel; by subst.
Qed.
#[export] Instance ser_CapabilityDiscovery_inj : Inj (=) (=) (ser : CapabilityDiscovery → Value).
Proof.
  intros [[] [] []] [[] [] []] H; ser_unfold H; obj_inv H; ser_cancel; congruence.
Qed.
#[export] Instance ser_CapabilitySpec_inj : Inj (=) (=) (ser : CapabilitySpec → Value).
Proof.
  intros [? ? ? ? [] ? ? []] [? ? ? ? [] ? ? []] H; ser_unfold H; obj_inv H; ser_cancel; congruence.
Qed.
#[export] Instance ser_Platform_inj : Inj (=) (=) (ser : Platform → Value).
Proof. intros [] []. record_inj. Qed.
#[export] Instance ser_InstanceFeatures_inj : Inj (=) (=) (ser : InstanceFeatures → Value).
Proof. intros [] []. record_inj. Qed.
#[export] Instance ser_InstanceBinding_inj : Inj (=) (=) (ser : InstanceBinding → Value).
Proof. intros [? [] []] [? [] []]; record_inj. Qed.
