(* ===== verification/Resolution.v ===== *)
(** Policy resolution: a permission request is derived from a capability definition and the
    invocation's arguments, or checked from the wire, through a trusted resource resolver
    (crates/xgeny-policy/src/resolution.rs). *)

From S2P Require Import Prelude Text Wire Domain.

(** ** The trusted boundary *)

Module ResourceResolutionFailure.
Inductive ResourceResolutionFailure : Type :=
| InvalidResource
| OutsideHostBoundary
| UnsupportedScope
| ResolverUnavailable.
Definition code (e : ResourceResolutionFailure) : string :=
  match e with
  | InvalidResource => "invalid_resource"
  | OutsideHostBoundary => "outside_host_boundary"
  | UnsupportedScope => "unsupported_scope"
  | ResolverUnavailable => "resolver_unavailable"
  end.
End ResourceResolutionFailure.
Abbreviation ResourceResolutionFailure := ResourceResolutionFailure.ResourceResolutionFailure.

(** [trait ResourceResolver]: implemented by host adapters. *)
Class ResourceResolver (R : Type) : Type :=
  resolve : R → string → string → ResourceResolutionFailure + string.

(** [serde_json::Value::pointer], and an assignment through [Value::pointer_mut]. *)
Class JsonPointer : Type := {
  pointer : Value → string → option Value;
  assign_pointer : Value → string → Value → option Value;
}.

(** ** Resolved requests *)

Module ConcreteResource.
Record ConcreteResource : Type := mk { scope : string; canonical_resource : string }.
#[global] Instance ConcreteResource_eq_dec : EqDecision ConcreteResource.
Proof. solve_decision. Defined.
#[global] Program Instance ConcreteResource_countable : Countable ConcreteResource :=
  inj_countable' (λ r, (scope r, canonical_resource r)) (λ p, mk p.1 p.2) _.
Next Obligation. by intros []. Qed.

(** The derived [Ord]: by scope, then by canonical resource. *)
Definition le (a b : ConcreteResource) : Prop :=
  if bool_decide (scope a = scope b) then String.le (canonical_resource a) (canonical_resource b)
  else String.le (scope a) (scope b).
#[global] Instance le_dec : RelDecision le.
Proof. intros a b. unfold le. case_match; apply _. Defined.
End ConcreteResource.
Abbreviation ConcreteResource := ConcreteResource.ConcreteResource.

(** [BTreeSet<ConcreteResource>] collected into a [Vec]. *)
Definition resource_elements (s : gset ConcreteResource) : list ConcreteResource :=
  merge_sort ConcreteResource.le (elements s).

Module ResolvedPermissionRequest.
Record ResolvedPermissionRequest : Type := mk {
  api_version : string;
  request_id : string;
  run_id : string;
  step_id : string;
  capability : CapabilityRef;
  effect_class : EffectClass;
  requested_scopes : list string;
  resources : list ConcreteResource;
  critical_actions : list CriticalAction;
  requested_lifetime : GrantLifetime;
}.
#[global] Instance ResolvedPermissionRequest_eq_dec : EqDecision ResolvedPermissionRequest.
Proof. solve_decision. Defined.
End ResolvedPermissionRequest.
Abbreviation ResolvedPermissionRequest := ResolvedPermissionRequest.ResolvedPermissionRequest.

Module ResolvedInvocationRequest.
Record ResolvedInvocationRequest : Type := mk {
  permission_request : ResolvedPermissionRequest;
  normalized_arguments : Value;
}.
End ResolvedInvocationRequest.
Abbreviation ResolvedInvocationRequest := ResolvedInvocationRequest.ResolvedInvocationRequest.

Module PermissionRequestResolver.
Record PermissionRequestResolver (R : Type) : Type := mk { resolver : R }.
Arguments mk {R} resolver.
Arguments resolver {R} p.
Definition new {R} (r : R) : PermissionRequestResolver R := mk r.
End PermissionRequestResolver.
Abbreviation PermissionRequestResolver := PermissionRequestResolver.PermissionRequestResolver.

Module DerivedInvocationResources.
Record DerivedInvocationResources : Type := mk {
  normalized_arguments : Value;
  requested_scopes : list string;
  resources : list ConcreteResource;
}.
End DerivedInvocationResources.
Abbreviation DerivedInvocationResources := DerivedInvocationResources.DerivedInvocationResources.

(** ** Errors *)

Module InvocationResolutionError.
Inductive InvocationResolutionError : Type :=
| UnsupportedDefinitionApiVersion (actual : string)
| UnsupportedRequiredExtensions (extensions : list string)
| EmptyInvocationIdentity
| EmptyResourceSelectors
| MissingResourceArgument (scope argument_pointer : string)
| ResourceArgumentMustBeString (scope argument_pointer : string)
| EmptyResourceArgument (scope argument_pointer : string)
| ResolverRejected (scope code : string)
| EmptyCanonicalResource (scope : string)
| DuplicateConcreteResource (scope : string)
| ConflictingPointerCanonicalization (argument_pointer : string)
| NormalizationTargetLost (argument_pointer : string)
| DuplicateCriticalAction.
End InvocationResolutionError.
Abbreviation InvocationResolutionError := InvocationResolutionError.InvocationResolutionError.

Module RequestResolutionError.
Inductive RequestResolutionError : Type :=
| UnsupportedApiVersion (actual : string)
| UnsupportedRequiredExtensions (extensions : list string)
| EmptyRequestedScopes
| EmptyRequestedScope
| DuplicateRequestedScope (scope : string)
| EmptyResolvedResources
| UnnormalizedResource (scope : string)
| ResourceScopeNotRequested (scope : string)
| MissingResourceForScope (scope : string)
| EmptyResource (scope : string)
| ResolverRejected (scope code : string)
| EmptyCanonicalResource (scope : string)
| DuplicateConcreteResource (scope : string)
| DuplicateCriticalAction.
End RequestResolutionError.
Abbreviation RequestResolutionError := RequestResolutionError.RequestResolutionError.

(** ** Critical actions in rank order *)

Definition critical_action_rank (action : CriticalAction) : N :=
  match action with
  | CriticalAction.IrreversibleDelete => 0
  | CriticalAction.CredentialExport => 1
  | CriticalAction.PaymentOrPurchase => 2
  | CriticalAction.ExternalPublishOrMessage => 3
  | CriticalAction.ProductionDeploy => 4
  | CriticalAction.PrivilegeEscalation => 5
  | CriticalAction.PersistentStartup => 6
  end.

(** [sort_by_key]: a stable sort on the rank. *)
Definition action_le (a b : CriticalAction) : Prop :=
  (critical_action_rank a ≤ critical_action_rank b)%N.
#[export] Instance action_le_dec : RelDecision action_le.
Proof. intros a b. unfold action_le. apply _. Defined.

(** [windows(2).any(|pair| pair[0] == pair[1])]. *)
Fixpoint repeats {A} `{EqDecision A} (l : list A) : bool :=
  match l with
  | a :: ((b :: _) as l') => bool_decide (a = b) || repeats l'
  | _ => false
  end.

Definition normalized_critical_actions (definition : CapabilityDefinitionBody)
    : res InvocationResolutionError (list CriticalAction) :=
  let critical_actions := merge_sort action_le
    (CapabilityEffect.critical_actions
       (CapabilitySpec.effect (CapabilityDefinitionBody.spec definition))) in
  bail_if repeats critical_actions with InvocationResolutionError.DuplicateCriticalAction;;
  Ok critical_actions.

(** [extensions.cloned().collect::<BTreeSet<_>>().into_iter().collect()]. *)
Definition sorted_extensions (l : list string) : list string := bset_elements (list_to_set l).

(** ** Deriving a request from an invocation *)

Definition validate_derived_request_shape (request_id run_id step_id : string)
    (definition : CapabilityDefinitionBody) : res InvocationResolutionError unit :=
  bail_if bool_decide (CapabilityDefinitionBody.api_version definition ≠ API_VERSION_V1ALPHA1)
    with InvocationResolutionError.UnsupportedDefinitionApiVersion
           (CapabilityDefinitionBody.api_version definition);;
  bail_if negb (bool_decide (CapabilityDefinitionBody.required_extensions definition = []))
    with InvocationResolutionError.UnsupportedRequiredExtensions
           (sorted_extensions (CapabilityDefinitionBody.required_extensions definition));;
  bail_if is_empty request_id || is_empty run_id || is_empty step_id
    with InvocationResolutionError.EmptyInvocationIdentity;;
  bail_if bool_decide (CapabilityEffect.resource_selectors
            (CapabilitySpec.effect (CapabilityDefinitionBody.spec definition)) = [])
    with InvocationResolutionError.EmptyResourceSelectors;;
  Ok tt.

(** Selectors by scope, then by pointer. *)
Definition selector_le (a b : ResourceSelector) : Prop :=
  if bool_decide (ResourceSelector.scope a = ResourceSelector.scope b)
  then String.le (ResourceSelector.argument_pointer a) (ResourceSelector.argument_pointer b)
  else String.le (ResourceSelector.scope a) (ResourceSelector.scope b).
#[export] Instance selector_le_dec : RelDecision selector_le.
Proof. intros a b. unfold selector_le. case_match; apply _. Defined.

(** The state of the loop over the selectors. *)
Module Derived.
Record Derived : Type := mk {
  requested_scopes : gset string;
  resources : gset ConcreteResource;
  canonical_by_pointer : gmap string string;
}.
End Derived.

Section derive.
Context {R : Type} `{ResourceResolver R} `{JsonPointer}.

Definition resolve_selected_resource (resolver : R) (arguments : Value) (selector : ResourceSelector)
    : res InvocationResolutionError (string * string * ConcreteResource) :=
  let scope := ResourceSelector.scope selector in
  let argument_pointer := ResourceSelector.argument_pointer selector in
  let? value := ok_or (pointer arguments argument_pointer)
                  (InvocationResolutionError.MissingResourceArgument scope argument_pointer) in
  let? raw := ok_or (match value with Value.Str raw => Some raw | _ => None end)
                (InvocationResolutionError.ResourceArgumentMustBeString scope argument_pointer) in
  bail_if is_empty raw
    with InvocationResolutionError.EmptyResourceArgument scope argument_pointer;;
  let? canonical_resource :=
    match resolve resolver scope raw with
    | inr canonical => Ok canonical
    | inl error =>
        Err (InvocationResolutionError.ResolverRejected scope (ResourceResolutionFailure.code error))
    end in
  bail_if is_empty canonical_resource with InvocationResolutionError.EmptyCanonicalResource scope;;
  Ok (argument_pointer, canonical_resource, ConcreteResource.mk scope canonical_resource).

Definition derive_selected (resolver : R) (arguments : Value) (s : Derived.Derived)
    (selector : ResourceSelector) : res InvocationResolutionError Derived.Derived :=
  let? selected := resolve_selected_resource resolver arguments selector in
  let '(argument_pointer, canonical_resource, resource) := selected in
  bail_if match Derived.canonical_by_pointer s !! argument_pointer with
          | Some existing => negb (bool_decide (existing = canonical_resource))
          | None => false
          end
    with InvocationResolutionError.ConflictingPointerCanonicalization argument_pointer;;
  bail_if bool_decide (resource ∈ Derived.resources s)
    with InvocationResolutionError.DuplicateConcreteResource (ResourceSelector.scope selector);;
  Ok (Derived.mk ({[ResourceSelector.scope selector]} ∪ Derived.requested_scopes s)
        ({[resource]} ∪ Derived.resources s)
        (<[argument_pointer := canonical_resource]> (Derived.canonical_by_pointer s))).

(** The loop body of [normalize_resource_arguments]. *)
Definition normalize_argument (normalized : Value) (entry : string * string)
    : res InvocationResolutionError Value :=
  ok_or (assign_pointer normalized entry.1 (Value.Str entry.2))
    (InvocationResolutionError.NormalizationTargetLost entry.1).

Definition normalize_resource_arguments (arguments : Value) (canonical_by_pointer : gmap string string)
    : res InvocationResolutionError Value :=
  for_each normalize_argument (btree_entries canonical_by_pointer) arguments.

Definition derive_invocation_resources (resolver : R) (definition : CapabilityDefinitionBody)
    (arguments : Value) : res InvocationResolutionError DerivedInvocationResources :=
  let selectors := merge_sort selector_le
    (CapabilityEffect.resource_selectors
       (CapabilitySpec.effect (CapabilityDefinitionBody.spec definition))) in
  let? derived := for_each (derive_selected resolver arguments) selectors (Derived.mk ∅ ∅ ∅) in
  let? normalized_arguments :=
    normalize_resource_arguments arguments (Derived.canonical_by_pointer derived) in
  Ok (DerivedInvocationResources.mk normalized_arguments
        (bset_elements (Derived.requested_scopes derived))
        (resource_elements (Derived.resources derived))).

Definition resolve_invocation (self : PermissionRequestResolver R)
    (request_id run_id step_id : string) (definition : CapabilityDefinitionBody) (arguments : Value)
    (requested_lifetime : GrantLifetime) : res InvocationResolutionError ResolvedInvocationRequest :=
  let? _ := validate_derived_request_shape request_id run_id step_id definition in
  let? derived := derive_invocation_resources (PermissionRequestResolver.resolver self) definition
                    arguments in
  let? critical_actions := normalized_critical_actions definition in
  let metadata := CapabilityDefinitionBody.metadata definition in
  Ok (ResolvedInvocationRequest.mk
        (ResolvedPermissionRequest.mk API_VERSION_V1ALPHA1 request_id run_id step_id
           (CapabilityRef.mk (CapabilityMetadata.id metadata)
              (CapabilityMetadata.contract_version metadata))
           (CapabilityEffect.class
              (CapabilitySpec.effect (CapabilityDefinitionBody.spec definition)))
           (DerivedInvocationResources.requested_scopes derived)
           (DerivedInvocationResources.resources derived)
           critical_actions requested_lifetime)
        (DerivedInvocationResources.normalized_arguments derived)).

(** ** Resolving a request from the wire *)

Definition check_requested_scope (seen : gset string) (scope : string)
    : res RequestResolutionError (gset string) :=
  bail_if is_empty scope with RequestResolutionError.EmptyRequestedScope;;
  bail_if bool_decide (scope ∈ seen) with RequestResolutionError.DuplicateRequestedScope scope;;
  Ok ({[scope]} ∪ seen).

(** The loop over the wire resources: the concrete resources and the scopes represented. *)
Definition resolve_wire_resource (resolver : R) (requested_scopes : gset string)
    (s : gset ConcreteResource * gset string) (resource : ResolvedResource)
    : res RequestResolutionError (gset ConcreteResource * gset string) :=
  let '(concrete_resources, represented_scopes) := s in
  let scope := ResolvedResource.scope resource in
  bail_if negb (ResolvedResource.normalized resource)
    with RequestResolutionError.UnnormalizedResource scope;;
  bail_if negb (bool_decide (scope ∈ requested_scopes))
    with RequestResolutionError.ResourceScopeNotRequested scope;;
  bail_if is_empty (ResolvedResource.resource resource)
    with RequestResolutionError.EmptyResource scope;;
  let? canonical_resource :=
    match resolve resolver scope (ResolvedResource.resource resource) with
    | inr canonical => Ok canonical
    | inl error =>
        Err (RequestResolutionError.ResolverRejected scope (ResourceResolutionFailure.code error))
    end in
  bail_if is_empty canonical_resource with RequestResolutionError.EmptyCanonicalResource scope;;
  let concrete := ConcreteResource.mk scope canonical_resource in
  bail_if bool_decide (concrete ∈ concrete_resources)
    with RequestResolutionError.DuplicateConcreteResource scope;;
  Ok ({[concrete]} ∪ concrete_resources, {[scope]} ∪ represented_scopes).

Definition resolve_schema_validated (self : PermissionRequestResolver R)
    (request : PermissionRequestBody) : res RequestResolutionError ResolvedPermissionRequest :=
  bail_if bool_decide (PermissionRequestBody.api_version request ≠ API_VERSION_V1ALPHA1)
    with RequestResolutionError.UnsupportedApiVersion (PermissionRequestBody.api_version request);;
  let unsupported_extensions :=
    sorted_extensions (PermissionRequestBody.required_extensions request) in
  bail_if negb (bool_decide (unsupported_extensions = []))
    with RequestResolutionError.UnsupportedRequiredExtensions unsupported_extensions;;
  bail_if bool_decide (PermissionRequestBody.requested_scopes request = [])
    with RequestResolutionError.EmptyRequestedScopes;;
  let? requested_scopes :=
    for_each check_requested_scope (PermissionRequestBody.requested_scopes request) ∅ in
  bail_if bool_decide (PermissionRequestBody.resolved_resources request = [])
    with RequestResolutionError.EmptyResolvedResources;;
  let? resolved := for_each
    (resolve_wire_resource (PermissionRequestResolver.resolver self) requested_scopes)
    (PermissionRequestBody.resolved_resources request) (∅, ∅) in
  let '(concrete_resources, represented_scopes) := resolved in
  match List.find (λ scope, negb (bool_decide (scope ∈ represented_scopes)))
          (bset_elements requested_scopes) with
  | Some scope => Err (RequestResolutionError.MissingResourceForScope scope)
  | None =>
      let critical_actions := merge_sort action_le (PermissionRequestBody.critical_actions request) in
      bail_if repeats critical_actions with RequestResolutionError.DuplicateCriticalAction;;
      Ok (ResolvedPermissionRequest.mk (PermissionRequestBody.api_version request)
            (PermissionRequestBody.request_id request) (PermissionRequestBody.run_id request)
            (PermissionRequestBody.step_id request) (PermissionRequestBody.capability request)
            (PermissionRequestBody.effect_class request) (bset_elements requested_scopes)
            (resource_elements concrete_resources) critical_actions
            (PermissionRequestBody.requested_lifetime request))
  end.
End derive.
