(* ===== verification/ResolutionTheorems.v ===== *)
(** Policy resolution: what the code relies on of JSON pointers, the loops that derive resources
    from selectors, normalize the arguments and resolve the wire resources, and what a resolved
    permission request guarantees. *)

From Stdlib Require Import Ascii.
From S2P Require Import Prelude Text Wire Domain Resolution.

(** ** JSON pointers *)

(** The pattern the capability schema gives selector pointers,
    [^(?:/(?:[^~/]|~[01])* )*$]: RFC 6901's syntax. *)
Fixpoint token_syntax (s : string) : bool :=
  match s with
  | EmptyString => true
  | String "~" (String c s') => (bool_decide (c = "0") || bool_decide (c = "1"))%char && token_syntax s'
  | String "~" EmptyString => false
  | String _ s' => token_syntax s'
  end.
Definition pointer_syntax (s : string) : bool :=
  match s with
  | EmptyString => true
  | String "/" s' => token_syntax s'
  | _ => false
  end.

(** [serde_json]: [pointer_mut] reaches what [pointer] does; what is assigned is read back; and
    two distinct RFC 6901 pointers to strings reach different places. *)
Class JsonPointerLaws `{JsonPointer} : Prop := {
  assign_defined v p w : is_Some (pointer v p) → is_Some (assign_pointer v p w);
  assign_same v p w v' : assign_pointer v p w = Some v' → pointer v' p = Some w;
  assign_frame v p s v' q t w :
    pointer_syntax p = true → pointer_syntax q = true → p ≠ q →
    pointer v p = Some (Value.Str s) → pointer v q = Some (Value.Str t) →
    assign_pointer v p (Value.Str w) = Some v' → pointer v' q = Some (Value.Str t);
}.

(** ** Orders *)

#[export] Instance concrete_le_trans : Transitive ConcreteResource.le.
Proof.
  intros [s1 c1] [s2 c2] [s3 c3]. unfold ConcreteResource.le. cbn.
  repeat case_bool_decide; subst; try done; try apply transitivity.
  intros H1 H2. exfalso. apply H. by apply (anti_symm String.le).
Qed.
#[export] Instance concrete_le_total : Total ConcreteResource.le.
Proof.
  intros [s1 c1] [s2 c2]; unfold ConcreteResource.le; cbn.
  repeat case_bool_decide; subst; try done; apply (total String.le).
Qed.
#[export] Instance concrete_le_antisym : AntiSymm (=) ConcreteResource.le.
Proof.
  intros [s1 c1] [s2 c2]; unfold ConcreteResource.le; cbn.
  repeat case_bool_decide; subst; try done; intros; f_equal;
    try (by apply (anti_symm String.le)). exfalso. by apply H, (anti_symm String.le).
Qed.
#[export] Instance action_le_trans : Transitive action_le.
Proof. intros a b c. unfold action_le. lia. Qed.
#[export] Instance action_le_total : Total action_le.
Proof. intros a b. unfold action_le. lia. Qed.
#[export] Instance action_le_antisym : AntiSymm (=) action_le.
Proof. intros [] []; unfold action_le; cbn; intros; done || lia. Qed.

Lemma find_None {A} (f : A → bool) l : List.find f l = None ↔ ∀ x, x ∈ l → f x = false.
Proof.
  induction l as [|a l IH]; cbn; [set_solver|].
  destruct (f a) eqn:Ha; [|set_solver]. split; [done|]. intros H. rewrite H in Ha; [done|left].
Qed.

Lemma elem_of_resource_elements s r : r ∈ resource_elements s ↔ r ∈ s.
Proof. unfold resource_elements. rewrite merge_sort_Permutation. apply elem_of_elements. Qed.

Lemma NoDup_resource_elements s : NoDup (resource_elements s).
Proof. unfold resource_elements. rewrite merge_sort_Permutation. apply NoDup_elements. Qed.

Lemma NoDup_bset_elements s : NoDup (bset_elements s).
Proof. unfold bset_elements. rewrite merge_sort_Permutation. apply NoDup_elements. Qed.

(** Adjacent repeats are all the repeats of a sorted list. *)
Lemma repeats_sorted {A} `{EqDecision A} (R : A → A → Prop) `{!AntiSymm (=) R} l :
  StronglySorted R l → repeats l = false ↔ NoDup l.
Proof.
  induction l as [|a [|b l] IH]; [by repeat constructor|..].
  - intros _. split; [|done]. intros _. repeat constructor. set_solver.
  - intros [Hs Ha]%StronglySorted_inv.
    change (repeats (a :: b :: l)) with (bool_decide (a = b) || repeats (b :: l)).
    rewrite orb_false_iff, bool_decide_eq_false, (IH Hs), (NoDup_cons a).
    apply and_iff_compat_r. split; [|set_solver].
    intros Hab [->|Hin]%elem_of_cons; [done|]. apply Hab.
    apply StronglySorted_inv in Hs as [_ Hb]. rewrite Forall_forall in Ha, Hb.
    apply (anti_symm R); [apply Ha; left|by apply Hb].
Qed.

Lemma actions_distinct l : repeats (merge_sort action_le l) = false ↔ NoDup l.
Proof.
  rewrite (repeats_sorted action_le), merge_sort_Permutation; [done|].
  apply StronglySorted_merge_sort; apply _.
Qed.

Lemma sorted_extensions_nil l : sorted_extensions l = [] ↔ l = [].
Proof.
  unfold sorted_extensions. split; [|by intros ->].
  intros H. destruct l as [|x l]; [done|].
  assert (x ∈ bset_elements (list_to_set (x :: l))) as Hx
    by (rewrite elem_of_bset_elements; set_solver).
  rewrite H in Hx. set_solver.
Qed.

(** ** The loop over the selectors *)

Section derive.
Context {R : Type} `{ResourceResolver R} `{JsonPointer}.

(** A selector picks a non-empty string that the resolver maps to a non-empty identity. *)
Definition selects (resolver : R) (arguments : Value) (sel : ResourceSelector) (canonical : string)
    : Prop :=
  ∃ raw, pointer arguments (ResourceSelector.argument_pointer sel) = Some (Value.Str raw) ∧
    raw ≠ EmptyString ∧ resolve resolver (ResourceSelector.scope sel) raw = inr canonical ∧
    canonical ≠ EmptyString.

Lemma resolve_selected_resource_ok resolver arguments sel out :
  resolve_selected_resource resolver arguments sel = Ok out ↔
  ∃ canonical, selects resolver arguments sel canonical ∧
    out = (ResourceSelector.argument_pointer sel, canonical,
           ConcreteResource.mk (ResourceSelector.scope sel) canonical).
Proof.
  unfold resolve_selected_resource, selects. split.
  - intros Hv. res_inv. match goal with v : Value |- _ => destruct v; simplify_eq end.
    destruct (resolve _ _ _) eqn:Hr; res_inv. rewrite !is_empty_false in *. eauto 8.
  - intros (c & (raw & -> & Hraw & Hres & Hc) & ->). cbn.
    rewrite (proj2 (is_empty_false raw) Hraw), Hres. cbn.
    by rewrite (proj2 (is_empty_false c) Hc).
Qed.

(** What the loop knows after the selectors [pre]. *)
Record derived_inv (resolver : R) (arguments : Value) (pre : list ResourceSelector)
    (s : Derived.Derived) : Prop := {
  di_selected sel : sel ∈ pre → ∃ canonical, selects resolver arguments sel canonical ∧
    Derived.canonical_by_pointer s !! ResourceSelector.argument_pointer sel = Some canonical ∧
    ConcreteResource.mk (ResourceSelector.scope sel) canonical ∈ Derived.resources s;
  di_resources r : r ∈ Derived.resources s → ∃ sel, sel ∈ pre ∧
    ConcreteResource.scope r = ResourceSelector.scope sel ∧
    ConcreteResource.canonical_resource r ≠ EmptyString ∧
    Derived.canonical_by_pointer s !! ResourceSelector.argument_pointer sel
      = Some (ConcreteResource.canonical_resource r);
  di_pointers p c : Derived.canonical_by_pointer s !! p = Some c → ∃ sel, sel ∈ pre ∧
    ResourceSelector.argument_pointer sel = p ∧ selects resolver arguments sel c;
  di_scopes x : x ∈ Derived.requested_scopes s ↔ ∃ sel, sel ∈ pre ∧ ResourceSelector.scope sel = x;
}.

Lemma derive_selected_inv resolver arguments pre s sel s' :
  derived_inv resolver arguments pre s → derive_selected resolver arguments s sel = Ok s' →
  derived_inv resolver arguments (pre ++ [sel]) s'.
Proof.
  intros [I1 I2 I3 I4] Hd. unfold derive_selected in Hd.
  apply rbind_ok in Hd as (out & (c & Hsel & ->)%resolve_selected_resource_ok & Hd).
  cbn in Hd. match type of Hd with (if ?b then _ else _) = _ => destruct b eqn:Hg; [done|] end.
  assert (Hkeep : ∀ p c', Derived.canonical_by_pointer s !! p = Some c' →
    <[ResourceSelector.argument_pointer sel := c]> (Derived.canonical_by_pointer s) !! p = Some c').
  { intros p c' Hp. destruct (decide (p = ResourceSelector.argument_pointer sel)) as [->|Hne].
    - rewrite lookup_insert_eq. rewrite Hp in Hg. bool_inv. by subst.
    - by rewrite lookup_insert_ne. }
  clear Hg. res_inv. constructor; cbn.
  - intros sel' [Hin | ->%list_elem_of_singleton]%elem_of_app.
    + destruct (I1 _ Hin) as (c' & ? & ? & ?). exists c'. split_and!; auto. set_solver.
    + exists c. rewrite lookup_insert_eq. set_solver.
  - intros r [->%elem_of_singleton|Hin]%elem_of_union.
    + exists sel. rewrite lookup_insert_eq. destruct Hsel as (? & ? & ? & ? & ?). set_solver.
    + destruct (I2 _ Hin) as (sel' & ? & ? & ? & ?). exists sel'. split_and!; auto. set_solver.
  - intros p c'. rewrite lookup_insert_Some. intros [[<- <-]|[_ Hp]].
    + exists sel. set_solver.
    + destruct (I3 _ _ Hp) as (sel' & ? & ? & ?). exists sel'. set_solver.
  - intros x. rewrite elem_of_union, elem_of_singleton, I4. set_solver.
Qed.

Lemma derive_loop_inv resolver arguments sels s :
  for_each (derive_selected resolver arguments) sels (Derived.mk ∅ ∅ ∅) = Ok s →
  derived_inv resolver arguments sels s.
Proof.
  intros Hl. eapply (for_each_inv _ (derived_inv resolver arguments)); [..|exact Hl].
  - constructor; cbn; set_solver.
  - intros pre a rest t t' _ HI Ht. by eapply derive_selected_inv.
Qed.

(** The canonical identity a selector picks, when it picks one. *)
Definition canonical_of (resolver : R) (arguments : Value) (sel : ResourceSelector)
    : option string :=
  match pointer arguments (ResourceSelector.argument_pointer sel) with
  | Some (Value.Str raw) =>
      if is_empty raw then None
      else match resolve resolver (ResourceSelector.scope sel) raw with
           | inr canonical => if is_empty canonical then None else Some canonical
           | inl _ => None
           end
  | _ => None
  end.

Lemma canonical_of_Some resolver arguments sel c :
  canonical_of resolver arguments sel = Some c ↔ selects resolver arguments sel c.
Proof.
  unfold canonical_of, selects. split.
  - destruct (pointer arguments _) as [[]|] eqn:Hp; try done.
    destruct (is_empty s) eqn:Hs; [done|]. destruct (resolve _ _ _) as [|c'] eqn:Hr; [done|].
    destruct (is_empty c') eqn:Hc; [done|]. rewrite is_empty_false in *. naive_solver.
  - intros (raw & -> & Hraw & Hres & Hc). rewrite (proj2 (is_empty_false raw) Hraw), Hres.
    by rewrite (proj2 (is_empty_false c) Hc).
Qed.

(** The selectors the loop accepts. *)
Definition loop_accepts (resolver : R) (arguments : Value) (sels : list ResourceSelector) : Prop :=
  (∀ sel, sel ∈ sels → is_Some (canonical_of resolver arguments sel)) ∧
  (∀ sel sel', sel ∈ sels → sel' ∈ sels →
     ResourceSelector.argument_pointer sel = ResourceSelector.argument_pointer sel' →
     canonical_of resolver arguments sel = canonical_of resolver arguments sel') ∧
  NoDup (map (λ sel, (ResourceSelector.scope sel, canonical_of resolver arguments sel)) sels).

Lemma derive_selected_ok resolver arguments pre sel rest s :
  loop_accepts resolver arguments (pre ++ sel :: rest) → derived_inv resolver arguments pre s →
  is_ok (derive_selected resolver arguments s sel).
Proof.
  intros (Hsome & Hsame & Hnd) [I1 I2 I3 I4].
  destruct (Hsome sel) as [c Hc]; [set_solver|]. pose proof Hc as Hsel.
  apply canonical_of_Some in Hsel. unfold derive_selected.
  rewrite (proj2 (resolve_selected_resource_ok resolver arguments sel _)) by by exists c. cbn.
  assert (Hk : ∀ e, Derived.canonical_by_pointer s !! ResourceSelector.argument_pointer sel = Some e →
    e = c).
  { intros e (sel' & Hin & Hp & He%canonical_of_Some)%I3.
    specialize (Hsame sel' sel). rewrite He, Hc in Hsame. naive_solver set_solver. }
  assert (Hg : match Derived.canonical_by_pointer s !! ResourceSelector.argument_pointer sel with
               | Some existing => negb (bool_decide (existing = c)) | None => false end = false).
  { destruct (_ !! _) as [e|] eqn:He; [|done]. rewrite (Hk e eq_refl). by rewrite bool_decide_eq_true_2. }
  rewrite Hg, bool_decide_eq_false_2; [by eexists|].
  intros (sel' & Hin & Hs & _ & Hl)%I2. cbn in Hs, Hl.
  destruct (I1 _ Hin) as (c' & Hc'%canonical_of_Some & Hl' & _). simplify_eq.
  rewrite map_app in Hnd. cbn in Hnd. apply NoDup_app in Hnd as (_ & Hd & _).
  apply (Hd (ResourceSelector.scope sel, Some c)); [|rewrite Hc; left].
  apply list_elem_of_fmap. exists sel'. by rewrite Hs, Hc'.
Qed.

(** The loop over the selectors succeeds exactly on those. *)
Lemma derive_loop_ok resolver arguments sels :
  is_ok (for_each (derive_selected resolver arguments) sels (Derived.mk ∅ ∅ ∅)) ↔
  loop_accepts resolver arguments sels.
Proof.
  split.
  - intros [s Hl].
    assert (Hnd : derived_inv resolver arguments sels s ∧
      NoDup (map (λ sel, (ResourceSelector.scope sel, canonical_of resolver arguments sel)) sels)).
    { eapply (for_each_inv _ (λ pre t, derived_inv resolver arguments pre t ∧
        NoDup (map (λ sel, (ResourceSelector.scope sel, canonical_of resolver arguments sel)) pre)));
        [..|exact Hl]; [split; [constructor; cbn; set_solver|constructor]|].
      intros pre sel rest t t' _ [HI Hnd] Ht. split; [by eapply derive_selected_inv|].
      rewrite map_app. apply NoDup_app. split; [done|]. split; [|apply NoDup_singleton].
      intros x (sel' & -> & Hin)%list_elem_of_fmap Hx%list_elem_of_singleton.
      destruct (di_selected _ _ _ _ HI _ Hin) as (c' & Hc'%canonical_of_Some & _ & Hr).
      unfold derive_selected in Ht.
      apply rbind_ok in Ht as (out & (c & Hc%canonical_of_Some & ->)%resolve_selected_resource_ok & Ht).
      injection Hx as Hs Hcc. rewrite Hc', Hc in Hcc. injection Hcc as ->. rewrite Hs in Hr.
      cbn in Ht. match type of Ht with (if ?b then _ else _) = _ => destruct b; [done|] end.
      by rewrite bool_decide_eq_true_2 in Ht. }
    destruct Hnd as [[I1 I2 I3 I4] Hnd]. split_and!; [..|done].
    + intros sel (c & Hc%canonical_of_Some & _)%I1. by eexists.
    + intros sel sel' (c & Hc%canonical_of_Some & Hl1 & _)%I1
        (c' & Hc'%canonical_of_Some & Hl2 & _)%I1 Hp. rewrite Hp in Hl1. congruence.
  - intros Ha.
    destruct (for_each_ok (derive_selected resolver arguments) (derived_inv resolver arguments) sels
      (Derived.mk ∅ ∅ ∅)) as (s & Hs & _); [constructor; cbn; set_solver| |by eexists].
    intros pre sel rest t -> HI.
    destruct (derive_selected_ok resolver arguments pre sel rest t Ha HI) as [t' Ht].
    exists t'. split; [done|]. by eapply derive_selected_inv.
Qed.

(** ** The normalization loop *)

Lemma normalize_loop `{!JsonPointerLaws} entries v :
  NoDup entries.*1 →
  (∀ p c, (p, c) ∈ entries → pointer_syntax p = true ∧ ∃ raw, pointer v p = Some (Value.Str raw)) →
  ∃ v', for_each normalize_argument entries v = Ok v' ∧
    (∀ p c, (p, c) ∈ entries → pointer v' p = Some (Value.Str c)) ∧
    (∀ q t, pointer_syntax q = true → q ∉ entries.*1 →
       pointer v q = Some (Value.Str t) → pointer v' q = Some (Value.Str t)).
Proof.
  revert v. induction entries as [|[p c] l IH]; intros v Hnd Hdef.
  { exists v. cbn. set_solver. }
  cbn in Hnd. apply NoDup_cons in Hnd as [Hp Hnd].
  destruct (Hdef p c) as (Hsp & raw & Hraw); [left|].
  destruct (assign_defined v p (Value.Str c)) as [v1 Hv1]; [by eexists|].
  assert (Hframe : ∀ q t, pointer_syntax q = true → q ≠ p →
    pointer v q = Some (Value.Str t) → pointer v1 q = Some (Value.Str t)).
  { intros q t Hq Hne Ht. by apply (assign_frame v p raw v1 q t c). }
  destruct (IH v1 Hnd) as (v' & Hv' & Hsame & Hother).
  { intros q c' Hin. destruct (Hdef q c') as (Hsq & t & Ht); [by right|]. split; [done|].
    exists t. apply Hframe; [done| |done]. intros ->. apply Hp, list_elem_of_fmap. by exists (p, c'). }
  exists v'. cbn [for_each]. unfold normalize_argument at 1. cbn. rewrite Hv1. cbn.
  split_and!; [done|..].
  - intros q c' [[= -> ->]|Hin]%elem_of_cons; [|by apply Hsame].
    apply Hother; [done..|]. by apply assign_same in Hv1.
  - intros q t Hq [Hne Hnin]%not_elem_of_cons Ht. apply Hother; [done..|]. by apply Hframe.
Qed.

(** After the loop over the selectors, normalization succeeds. *)
Lemma normalize_derived `{!JsonPointerLaws} resolver arguments sels s :
  (∀ sel, sel ∈ sels → pointer_syntax (ResourceSelector.argument_pointer sel) = true) →
  derived_inv resolver arguments sels s →
  ∃ v', normalize_resource_arguments arguments (Derived.canonical_by_pointer s) = Ok v' ∧
    (∀ p c, Derived.canonical_by_pointer s !! p = Some c → pointer v' p = Some (Value.Str c)) ∧
    (∀ q t, pointer_syntax q = true → Derived.canonical_by_pointer s !! q = None →
       pointer arguments q = Some (Value.Str t) → pointer v' q = Some (Value.Str t)).
Proof.
  intros Hsyn HI.
  destruct (normalize_loop (btree_entries (Derived.canonical_by_pointer s)) arguments)
    as (v' & Hv' & Hsame & Hother).
  - rewrite btree_entries_keys. apply NoDup_btree_keys.
  - intros p c Hp%elem_of_btree_entries.
    destruct (di_pointers _ _ _ _ HI _ _ Hp) as (sel & Hs & <- & raw & Hraw & _). eauto.
  - exists v'. split_and!; [done|..].
    + intros p c Hp. by apply Hsame, elem_of_btree_entries.
    + intros q t Hq Hnone. apply Hother; [done|].
      by rewrite btree_entries_keys, elem_of_btree_keys, <-eq_None_not_Some.
Qed.

(** The definition's shape, spelled out. *)
Lemma shape_ok request_id run_id step_id definition :
  is_ok (validate_derived_request_shape request_id run_id step_id definition) ↔
  CapabilityDefinitionBody.api_version definition = API_VERSION_V1ALPHA1 ∧
  CapabilityDefinitionBody.required_extensions definition = [] ∧
  request_id ≠ EmptyString ∧ run_id ≠ EmptyString ∧ step_id ≠ EmptyString ∧
  CapabilityEffect.resource_selectors
    (CapabilitySpec.effect (CapabilityDefinitionBody.spec definition)) ≠ [].
Proof.
  unfold validate_derived_request_shape, is_ok, is_empty. split.
  - intros [u Hu]. res_inv. bool_inv. tauto.
  - intros (H1 & H2 & H3 & H4 & H5 & H6). exists tt. rewrite bool_decide_eq_false_2 by tauto.
    rewrite bool_decide_eq_true_2 by done. cbn. by rewrite !bool_decide_eq_false_2 by done.
Qed.

(** ** The loops over the wire request *)

(** The concrete resource a wire resource resolves to. *)
Definition resolves_to (resolver : R) (wire : ResolvedResource) (c : ConcreteResource) : Prop :=
  ResolvedResource.normalized wire = true ∧ ResolvedResource.resource wire ≠ EmptyString ∧
  resolve resolver (ResolvedResource.scope wire) (ResolvedResource.resource wire)
    = inr (ConcreteResource.canonical_resource c) ∧
  ConcreteResource.canonical_resource c ≠ EmptyString ∧
  ConcreteResource.scope c = ResolvedResource.scope wire.

Lemma resolve_wire_resource_ok resolver scopes cs reps wire out :
  resolve_wire_resource resolver scopes (cs, reps) wire = Ok out ↔
  ∃ c, resolves_to resolver wire c ∧ ResolvedResource.scope wire ∈ scopes ∧ c ∉ cs ∧
    out = ({[c]} ∪ cs, {[ResolvedResource.scope wire]} ∪ reps).
Proof.
  unfold resolve_wire_resource, resolves_to. split.
  - intros Hv. res_inv. destruct (resolve _ _ _) eqn:Hr; res_inv. bool_inv.
    rewrite !is_empty_false in *. by eexists (ConcreteResource.mk _ _).
  - intros ([s c] & (-> & Hraw & Hres & Hc & Hs) & Hin & Hcs & ->). cbn in Hs, Hc, Hres |- *. subst s.
    rewrite (bool_decide_eq_true_2 _ Hin). cbn.
    rewrite (proj2 (is_empty_false (ResolvedResource.resource wire)) Hraw), Hres. cbn.
    by rewrite (proj2 (is_empty_false c) Hc), (bool_decide_eq_false_2 _ Hcs).
Qed.

Lemma wire_loop resolver scopes wires cs reps out :
  for_each (resolve_wire_resource resolver scopes) wires (cs, reps) = Ok out ↔
  ∃ l, Forall2 (resolves_to resolver) wires l ∧ NoDup l ∧ (∀ c, c ∈ l → c ∉ cs) ∧
    (∀ w, w ∈ wires → ResolvedResource.scope w ∈ scopes) ∧
    out = (list_to_set l ∪ cs, list_to_set (map ResolvedResource.scope wires) ∪ reps).
Proof.
  revert cs reps out. induction wires as [|w wires IH]; intros cs reps out; cbn [for_each].
  - split.
    + intros [= <-]. exists []. split_and!; try constructor; [set_solver..|].
      f_equal; apply set_eq; set_solver.
    + intros (l & Hl & _ & _ & _ & ->). apply Forall2_nil_inv_l in Hl as ->.
      do 2 f_equal; apply set_eq; set_solver.
  - rewrite rbind_ok. setoid_rewrite resolve_wire_resource_ok. split.
    + intros (s' & (c & Hc & Hin & Hcs & ->) & (l & Hl & Hnd & Hd & Hsc & ->)%IH).
      exists (c :: l). split_and!; [by constructor|constructor; [|done]|..].
      * intros Hcl. apply (Hd _ Hcl). set_solver.
      * intros c' [->|Hc']%elem_of_cons; [done|]. apply Hd in Hc'. set_solver.
      * intros w' [->|Hw']%elem_of_cons; auto.
      * cbn. f_equal; apply set_eq; set_solver.
    + intros (l & Hl & Hnd & Hd & Hsc & ->). apply Forall2_cons_inv_l in Hl as (c & l' & Hc & Hl & ->).
      apply NoDup_cons in Hnd as [Hcl Hnd]. eexists. split.
      * exists c. split_and!; [done|apply Hsc; left|apply Hd; left|done].
      * apply IH. exists l'. split_and!; [done..| | |].
        -- intros c' Hc'. assert (c' ≠ c) by (by intros ->). specialize (Hd c'). set_solver.
        -- intros w' Hw'. apply Hsc. by right.
        -- cbn. f_equal; apply set_eq; set_solver.
Qed.

Lemma scope_loop scopes s out :
  for_each check_requested_scope scopes s = Ok out ↔
  EmptyString ∉ scopes ∧ NoDup scopes ∧ (∀ x, x ∈ scopes → x ∉ s) ∧ out = list_to_set scopes ∪ s.
Proof.
  revert s out. induction scopes as [|x l IH]; intros s out; cbn [for_each].
  - split.
    + intros [= <-]. split_and!; try constructor; set_solver.
    + intros (_ & _ & _ & ->). cbn. f_equal. set_solver.
  - rewrite rbind_ok, not_elem_of_cons, NoDup_cons. unfold check_requested_scope at 1. split.
    + intros (s' & Hx & (He & Hnd & Hd & ->)%IH). res_inv. rewrite is_empty_false in *.
      split_and!; [by apply not_eq_sym|done| |done| |].
      * intros Hx'. apply (Hd _ Hx'). set_solver.
      * intros y [->|Hy]%elem_of_cons; [done|]. apply Hd in Hy. set_solver.
      * apply set_eq. set_solver.
    + intros ((Hx & He) & (Hn & Hnd) & Hd & ->). exists ({[x]} ∪ s).
      rewrite (proj2 (is_empty_false x)), bool_decide_eq_false_2 by (done || (apply Hd; left)).
      split; [done|]. apply IH. split_and!; [done..| |apply set_eq; set_solver].
      intros y Hy. assert (y ≠ x) by (by intros ->). specialize (Hd y). set_solver.
Qed.

End derive.

(** A duplicate-free list collected into an ordered set is the sorted list. *)
Lemma bset_elements_list l : NoDup l → bset_elements (list_to_set l) = merge_sort String.le l.
Proof.
  intros Hl. unfold bset_elements.
  apply (StronglySorted_unique String.le); [apply StronglySorted_merge_sort; apply _..|].
  rewrite !merge_sort_Permutation. by apply elements_list_to_set.
Qed.

Lemma resource_elements_list l :
  NoDup l → resource_elements (list_to_set l) = merge_sort ConcreteResource.le l.
Proof.
  intros Hl. unfold resource_elements.
  apply (StronglySorted_unique ConcreteResource.le); [apply StronglySorted_merge_sort; apply _..|].
  rewrite !merge_sort_Permutation. by apply elements_list_to_set.
Qed.

(** What policy resolution promises: the permission request names exactly what the executable
    arguments select, wire requests resolve exactly when they are consistent, and resolved
    requests are in canonical form. *)

(** The canonical form of a resolved request. *)
Record resolved_wf (r : ResolvedPermissionRequest) : Prop := {
  wf_version : ResolvedPermissionRequest.api_version r = API_VERSION_V1ALPHA1;
  wf_scopes_sorted : StronglySorted String.le (ResolvedPermissionRequest.requested_scopes r);
  wf_scopes_NoDup : NoDup (ResolvedPermissionRequest.requested_scopes r);
  wf_scopes_nonempty : ResolvedPermissionRequest.requested_scopes r ≠ [];
  wf_resources_sorted : StronglySorted ConcreteResource.le (ResolvedPermissionRequest.resources r);
  wf_resources_NoDup : NoDup (ResolvedPermissionRequest.resources r);
  wf_scopes s : s ∈ ResolvedPermissionRequest.requested_scopes r ↔
    ∃ c, c ∈ ResolvedPermissionRequest.resources r ∧ ConcreteResource.scope c = s;
  wf_canonical c : c ∈ ResolvedPermissionRequest.resources r →
    ConcreteResource.canonical_resource c ≠ EmptyString;
  wf_actions_sorted : StronglySorted action_le (ResolvedPermissionRequest.critical_actions r);
  wf_actions_NoDup : NoDup (ResolvedPermissionRequest.critical_actions r);
}.

Definition selectors_of (definition : CapabilityDefinitionBody) : list ResourceSelector :=
  CapabilityEffect.resource_selectors (CapabilitySpec.effect (CapabilityDefinitionBody.spec definition)).

Definition definition_actions (definition : CapabilityDefinitionBody) : list CriticalAction :=
  CapabilityEffect.critical_actions (CapabilitySpec.effect (CapabilityDefinitionBody.spec definition)).

Section claims.
Context {R : Type} `{ResourceResolver R} `{JsonPointer}.
Implicit Types (self : PermissionRequestResolver R) (definition : CapabilityDefinitionBody).

(** What a successful [resolve_invocation] went through. *)
Lemma resolve_invocation_ok self request_id run_id step_id definition arguments lifetime out :
  resolve_invocation self request_id run_id step_id definition arguments lifetime = Ok out →
  ∃ s, derived_inv (PermissionRequestResolver.resolver self) arguments (selectors_of definition) s ∧
    selectors_of definition ≠ [] ∧ NoDup (definition_actions definition) ∧
    normalize_resource_arguments arguments (Derived.canonical_by_pointer s)
      = Ok (ResolvedInvocationRequest.normalized_arguments out) ∧
    ResolvedInvocationRequest.permission_request out =
      ResolvedPermissionRequest.mk API_VERSION_V1ALPHA1 request_id run_id step_id
        (CapabilityRef.mk
           (CapabilityMetadata.id (CapabilityDefinitionBody.metadata definition))
           (CapabilityMetadata.contract_version (CapabilityDefinitionBody.metadata definition)))
        (CapabilityEffect.class (CapabilitySpec.effect (CapabilityDefinitionBody.spec definition)))
        (bset_elements (Derived.requested_scopes s)) (resource_elements (Derived.resources s))
        (merge_sort action_le (definition_actions definition)) lifetime.
Proof.
  intros Hv. unfold resolve_invocation in Hv.
  apply rbind_ok in Hv as (u & Hshape & (d & Hd & (acts & Ha & Hout)%rbind_ok)%rbind_ok).
  unfold derive_invocation_resources in Hd.
  apply rbind_ok in Hd as (s & Hloop & (normalized & Hn & [= <-])%rbind_ok).
  unfold normalized_critical_actions in Ha. unfold validate_derived_request_shape in Hshape.
  res_inv. bool_inv. exists s. cbn. split_and!; try done.
  - apply derive_loop_inv in Hloop as [I1 I2 I3 I4]. constructor.
    + intros sel Hs. apply I1. by rewrite merge_sort_Permutation.
    + intros r Hr. destruct (I2 r Hr) as (sel & Hs & ?). exists sel.
      by rewrite merge_sort_Permutation in Hs.
    + intros p c Hp. destruct (I3 p c Hp) as (sel & Hs & ?). exists sel.
      by rewrite merge_sort_Permutation in Hs.
    + intros x. rewrite I4. by setoid_rewrite merge_sort_Permutation.
  - by apply actions_distinct.
Qed.

(** C18: Permission and execution speak of the same arguments: when an invocation resolves, the
    request's resources are exactly the non-empty canonical identities its selectors pick from
    the actual arguments, the normalized arguments hold the canonical identity at every
    selector pointer, and every other string argument is untouched. *)
Theorem invocation_bound_to_arguments `{!JsonPointerLaws} self (request_id run_id step_id : string)
    definition (arguments : Value) (lifetime : GrantLifetime) (out : ResolvedInvocationRequest) :
  resolve_invocation self request_id run_id step_id definition arguments lifetime = Ok out →
  (∀ sel, sel ∈ selectors_of definition →
     pointer_syntax (ResourceSelector.argument_pointer sel) = true) →
  let normalized := ResolvedInvocationRequest.normalized_arguments out in
  let resources :=
    ResolvedPermissionRequest.resources (ResolvedInvocationRequest.permission_request out) in
  (∀ sel, sel ∈ selectors_of definition → ∃ canonical,
     selects (PermissionRequestResolver.resolver self) arguments sel canonical ∧
     ConcreteResource.mk (ResourceSelector.scope sel) canonical ∈ resources ∧
     pointer normalized (ResourceSelector.argument_pointer sel) = Some (Value.Str canonical)) ∧
  (∀ r, r ∈ resources → ∃ sel, sel ∈ selectors_of definition ∧
     ConcreteResource.scope r = ResourceSelector.scope sel ∧
     pointer normalized (ResourceSelector.argument_pointer sel)
       = Some (Value.Str (ConcreteResource.canonical_resource r))) ∧
  (∀ q t, pointer_syntax q = true →
     (∀ sel, sel ∈ selectors_of definition → ResourceSelector.argument_pointer sel ≠ q) →
     pointer arguments q = Some (Value.Str t) → pointer normalized q = Some (Value.Str t)).
Proof.
  intros Hv Hsyn. apply resolve_invocation_ok in Hv as (s & [I1 I2 I3 I4] & _ & _ & Hn & ->). cbn.
  destruct (normalize_derived (PermissionRequestResolver.resolver self) arguments
    (selectors_of definition) s) as (v' & Hv' & Hsame & Hother); [done..|].
  rewrite Hv' in Hn. injection Hn as <-. setoid_rewrite elem_of_resource_elements. split_and!.
  - intros sel Hs. destruct (I1 _ Hs) as (c & ? & Hc & ?). exists c. split_and!; [done..|].
    by apply Hsame.
  - intros r Hr. destruct (I2 _ Hr) as (sel & ? & ? & _ & Hc). exists sel. split_and!; [done..|].
    by apply Hsame.
  - intros q t Hq Hnone Ht. apply Hother; [done| |done].
    destruct (Derived.canonical_by_pointer s !! q) eqn:E; [|done].
    destruct (I3 _ _ E) as (sel & Hs & Hp & _). by destruct (Hnone sel).
Qed.

(** C36: An invocation resolves exactly when it should: the definition is of the supported
    version, needs no extension, has selectors with RFC 6901 pointers and distinct critical
    actions; the identities are not empty; every selector picks a non-empty string its
    resolver canonicalizes, selectors of one pointer agree, and no two selectors name one
    concrete resource.  In particular normalization never loses its target. *)
Theorem invocation_resolves_iff `{!JsonPointerLaws} self (request_id run_id step_id : string)
    definition (arguments : Value) (lifetime : GrantLifetime) :
  (∀ sel, sel ∈ selectors_of definition →
     pointer_syntax (ResourceSelector.argument_pointer sel) = true) →
  let canonical := canonical_of (PermissionRequestResolver.resolver self) arguments in
  is_ok (resolve_invocation self request_id run_id step_id definition arguments lifetime) ↔
  CapabilityDefinitionBody.api_version definition = API_VERSION_V1ALPHA1 ∧
  CapabilityDefinitionBody.required_extensions definition = [] ∧
  request_id ≠ EmptyString ∧ run_id ≠ EmptyString ∧ step_id ≠ EmptyString ∧
  selectors_of definition ≠ [] ∧ NoDup (definition_actions definition) ∧
  (∀ sel, sel ∈ selectors_of definition → is_Some (canonical sel)) ∧
  (∀ sel sel', sel ∈ selectors_of definition → sel' ∈ selectors_of definition →
     ResourceSelector.argument_pointer sel = ResourceSelector.argument_pointer sel' →
     canonical sel = canonical sel') ∧
  NoDup (map (λ sel, (ResourceSelector.scope sel, canonical sel)) (selectors_of definition)).
Proof.
  intros Hsyn canonical.
  trans (is_ok (validate_derived_request_shape request_id run_id step_id definition) ∧
         is_ok (for_each (derive_selected (PermissionRequestResolver.resolver self) arguments)
                  (merge_sort selector_le (selectors_of definition)) (Derived.mk ∅ ∅ ∅)) ∧
         NoDup (definition_actions definition)).
  - split.
    + intros [out Hv]. unfold resolve_invocation, derive_invocation_resources in Hv. res_inv.
      split_and!; [by eexists..|]. unfold normalized_critical_actions in *. res_inv.
      by apply actions_distinct.
    + intros ([[] Hs] & [s Hl] & Ha%actions_distinct). unfold resolve_invocation. rewrite Hs. cbn.
      unfold derive_invocation_resources. fold (selectors_of definition). rewrite Hl. cbn.
      destruct (normalize_derived (PermissionRequestResolver.resolver self) arguments
        (merge_sort selector_le (selectors_of definition)) s) as (v & -> & _);
        [intros sel; rewrite merge_sort_Permutation; apply Hsyn|by apply derive_loop_inv|].
      cbn. unfold normalized_critical_actions. unfold definition_actions in Ha. rewrite Ha.
      by eexists.
  - rewrite shape_ok, derive_loop_ok. unfold loop_accepts, canonical.
    setoid_rewrite merge_sort_Permutation. tauto.
Qed.

(** The wire requests that resolve, to the concrete resources [l]. *)
Definition wire_accepted self (request : PermissionRequestBody) (l : list ConcreteResource) : Prop :=
  PermissionRequestBody.api_version request = API_VERSION_V1ALPHA1 ∧
  PermissionRequestBody.required_extensions request = [] ∧
  PermissionRequestBody.requested_scopes request ≠ [] ∧
  EmptyString ∉ PermissionRequestBody.requested_scopes request ∧
  NoDup (PermissionRequestBody.requested_scopes request) ∧
  PermissionRequestBody.resolved_resources request ≠ [] ∧
  Forall2 (resolves_to (PermissionRequestResolver.resolver self))
    (PermissionRequestBody.resolved_resources request) l ∧
  NoDup l ∧
  (∀ s, s ∈ PermissionRequestBody.requested_scopes request ↔
        s ∈ map ResolvedResource.scope (PermissionRequestBody.resolved_resources request)) ∧
  NoDup (PermissionRequestBody.critical_actions request).

(** The request they resolve to. *)
Definition wire_resolved (request : PermissionRequestBody) (l : list ConcreteResource)
    : ResolvedPermissionRequest :=
  ResolvedPermissionRequest.mk (PermissionRequestBody.api_version request)
    (PermissionRequestBody.request_id request) (PermissionRequestBody.run_id request)
    (PermissionRequestBody.step_id request) (PermissionRequestBody.capability request)
    (PermissionRequestBody.effect_class request)
    (merge_sort String.le (PermissionRequestBody.requested_scopes request))
    (merge_sort ConcreteResource.le l)
    (merge_sort action_le (PermissionRequestBody.critical_actions request))
    (PermissionRequestBody.requested_lifetime request).

Lemma resolve_schema_validated_ok self request r :
  resolve_schema_validated self request = Ok r ↔
  ∃ l, wire_accepted self request l ∧ r = wire_resolved request l.
Proof.
  unfold wire_accepted, wire_resolved, resolve_schema_validated. split.
  - intros Hv. res_inv. bool_inv.
    match goal with E : sorted_extensions _ = [] |- _ => apply (proj1 (sorted_extensions_nil _)) in E end.
    match goal with E : for_each check_requested_scope _ _ = Ok _ |- _ =>
      apply scope_loop in E as (He & Hnd & _ & ->) end.
    match goal with E : for_each (resolve_wire_resource _ _) _ _ = Ok _ |- _ =>
      apply wire_loop in E as (l & Hl & Hndl & _ & Hsub & ->) end.
    destruct (List.find _ _) eqn:Hf; [done|]. rewrite find_None in Hf.
    setoid_rewrite elem_of_bset_elements in Hf. setoid_rewrite negb_false_iff in Hf.
    setoid_rewrite bool_decide_eq_true in Hf. res_inv.
    rewrite !(right_id_L ∅ (∪)) in *. rewrite bset_elements_list, resource_elements_list by done.
    exists l. split_and!; try done; [|by apply actions_distinct]. split; [set_solver|].
    intros (w & -> & Hw)%list_elem_of_fmap. specialize (Hsub w Hw). set_solver.
  - intros (l & (Hver & Hext & Hne & He & Hnd & Hre & Hl & Hndl & Hs & Ha) & ->).
    rewrite bool_decide_eq_false_2 by tauto.
    rewrite (bool_decide_eq_true_2 (sorted_extensions _ = [])) by by apply sorted_extensions_nil.
    cbn [negb]. rewrite bool_decide_eq_false_2 by done.
    rewrite (proj2 (scope_loop _ ∅ (list_to_set (PermissionRequestBody.requested_scopes request) ∪ ∅)))
      by set_solver.
    cbn [rbind]. rewrite bool_decide_eq_false_2 by done.
    rewrite (proj2 (wire_loop _ _ _ _ _ (list_to_set l ∪ ∅, list_to_set (map ResolvedResource.scope
      (PermissionRequestBody.resolved_resources request)) ∪ ∅))); [cbn [rbind]|exists l; split_and!; try done].
    + rewrite !(right_id_L ∅ (∪)). destruct (List.find _ _) eqn:Hf.
      * apply List.find_some in Hf as [Hin Hb]. bool_inv. exfalso. apply Hb.
        rewrite <-list_elem_of_In, elem_of_bset_elements in Hin. set_solver.
      * rewrite (proj2 (actions_distinct _) Ha), bset_elements_list, resource_elements_list by done.
        by rewrite Hver.
    + intros w Hw. rewrite right_id_L by apply _. rewrite elem_of_list_to_set, Hs.
      apply list_elem_of_fmap. by exists w.
Qed.

(** A wire request resolves exactly when it is consistent, to its canonical form: the
    version is supported, no extension is required, scopes are non-empty and distinct, every
    resource is marked normalized and resolves to a non-empty identity, identities are
    distinct, the scopes requested are exactly those of the resources, and critical actions
    are distinct; the result sorts scopes, identities and actions and keeps the rest. *)
Theorem wire_request_resolves_iff self (request : PermissionRequestBody)
    (r : ResolvedPermissionRequest) :
  resolve_schema_validated self request = Ok r ↔
  ∃ l, wire_accepted self request l ∧ r = wire_resolved request l.
Proof. exact (resolve_schema_validated_ok self request r). Qed.

Lemma wire_resolved_wf self request l :
  wire_accepted self request l → resolved_wf (wire_resolved request l).
Proof.
  intros (Hver & _ & Hne & _ & Hnd & _ & Hl & Hndl & Hs & Ha).
  assert (Hin : ∀ c, c ∈ l → ∃ w, w ∈ PermissionRequestBody.resolved_resources request ∧
    resolves_to (PermissionRequestResolver.resolver self) w c).
  { intros c Hc. apply list_elem_of_lookup in Hc as [i Hi].
    destruct (Forall2_lookup_r _ _ _ _ _ Hl Hi) as (w & Hw & Hr). exists w.
    split; [by eapply list_elem_of_lookup_2|done]. }
  assert (Hin' : ∀ w, w ∈ PermissionRequestBody.resolved_resources request → ∃ c, c ∈ l ∧
    resolves_to (PermissionRequestResolver.resolver self) w c).
  { intros w Hw. apply list_elem_of_lookup in Hw as [i Hi].
    destruct (Forall2_lookup_l _ _ _ _ _ Hl Hi) as (c & Hc & Hr). exists c.
    split; [by eapply list_elem_of_lookup_2|done]. }
  constructor; cbn; rewrite ?merge_sort_Permutation; try done;
    try (apply StronglySorted_merge_sort; apply _).
  - intros E. apply Hne, Permutation_nil. rewrite <-E.
    apply merge_sort_Permutation.
  - intros s. setoid_rewrite merge_sort_Permutation. rewrite Hs, list_elem_of_fmap. split.
    + intros (w & -> & Hw). destruct (Hin' w Hw) as (c & Hc & Hr). exists c. split; [done|].
      by destruct Hr as (_ & _ & _ & _ & ?).
    + intros (c & Hc & <-). destruct (Hin c Hc) as (w & Hw & Hr). exists w. split; [|done].
      by destruct Hr as (_ & _ & _ & _ & ?).
  - intros c. rewrite merge_sort_Permutation. intros (w & _ & Hr)%Hin.
    by destruct Hr as (_ & _ & _ & ? & _).
Qed.

(** C38: Resolved requests are in canonical form whichever way they were resolved: supported
    version, scopes and resources sorted and duplicate-free, at least one scope, the scopes
    exactly those of the resources, no empty identity, critical actions in rank order. *)
Theorem resolved_request_well_formed self (request_id run_id step_id : string) definition
    (arguments : Value) (lifetime : GrantLifetime) (request : PermissionRequestBody)
    (r : ResolvedPermissionRequest) :
  resolve_schema_validated self request = Ok r ∨
  (∃ out, resolve_invocation self request_id run_id step_id definition arguments lifetime = Ok out ∧
          ResolvedInvocationRequest.permission_request out = r) →
  resolved_wf r.
Proof.
  intros [Hw|(out & Hv & <-)].
  - apply resolve_schema_validated_ok in Hw as (l & Hl & ->). by eapply wire_resolved_wf.
  - apply resolve_invocation_ok in Hv as (s & [I1 I2 I3 I4] & Hne & Ha & _ & ->).
    constructor; cbn; try done; rewrite ?merge_sort_Permutation; try done;
      try apply NoDup_bset_elements; try apply NoDup_resource_elements;
      try (apply StronglySorted_merge_sort; apply _).
    + destruct (selectors_of definition) as [|sel sels] eqn:E; [done|]. intros Hnil.
      assert (ResourceSelector.scope sel ∈ bset_elements (Derived.requested_scopes s)) as Hin
        by (apply elem_of_bset_elements, I4; exists sel; set_solver).
      rewrite Hnil in Hin. set_solver.
    + intros x. rewrite elem_of_bset_elements, I4. setoid_rewrite elem_of_resource_elements. split.
      * intros (sel & Hs & <-). destruct (I1 _ Hs) as (c & _ & _ & Hc). by eexists.
      * intros (c & (sel & Hs & Hsc & _)%I2 & <-). by exists sel.
    + intros c Hc%elem_of_resource_elements. by destruct (I2 _ Hc) as (_ & _ & _ & ? & _).
Qed.

End claims.
