(* ===== verification/Broker.v ===== *)
(** The permission broker: pre-evaluated policy layers compose into an exact provisional
    authorization, a question or a denial (crates/xgeny-policy/src/broker.rs). *)

From Stdlib Require Import Ascii.
From S2P Require Import Prelude Text Wire Domain Resolution.

(** ** Policy layers *)

Module PolicyAllowance.
Record PolicyAllowance : Type := mk {
  scopes : gset string;
  resources : gset ConcreteResource;
  critical_actions : list CriticalAction;
  lifetimes : list GrantLifetime;
}.
End PolicyAllowance.
Abbreviation PolicyAllowance := PolicyAllowance.PolicyAllowance.

Definition lifetime_rank (lifetime : GrantLifetime) : N :=
  match lifetime with
  | GrantLifetime.Once => 0
  | GrantLifetime.Run => 1
  | GrantLifetime.Session => 2
  | GrantLifetime.Project => 3
  | GrantLifetime.Persistent => 4
  end.

(** The broker's own copy of [critical_action_rank]. *)
Definition critical_action_rank (action : CriticalAction) : N :=
  match action with
  | CriticalAction.IrreversibleDelete => 0
  | CriticalAction.CredentialExport => 1
  | CriticalAction.PaymentOrPurchase => 2
  | CriticalAction.ExternalPublishOrMessage => 3
  | CriticalAction.ProductionDeploy => 4
  | CriticalAction.PrivilegeEscalation => 5
  | CriticalAction.PersistentStartup => 6
  end.

(** [sort_by_key(rank)]: a stable sort on the rank. *)
Definition rank_le {A} (rank : A → N) (a b : A) : Prop := (rank a ≤ rank b)%N.
#[export] Instance rank_le_dec {A} (rank : A → N) : RelDecision (rank_le rank).
Proof. intros a b. unfold rank_le. apply _. Defined.
Definition sort_by_key {A} (rank : A → N) : list A → list A := merge_sort (rank_le rank).

Definition from_trusted_evaluation (scopes : list string) (resources : list ConcreteResource)
    (critical_actions : list CriticalAction) (lifetimes : list GrantLifetime) : PolicyAllowance :=
  PolicyAllowance.mk (list_to_set scopes) (list_to_set resources)
    (dedup (sort_by_key critical_action_rank critical_actions))
    (dedup (sort_by_key lifetime_rank lifetimes)).

Module ContributionVerdict.
Inductive ContributionVerdict : Type :=
| Allow (allowance : PolicyAllowance)
| Ask (reason : string)
| Deny (reason : string).
End ContributionVerdict.
Abbreviation ContributionVerdict := ContributionVerdict.ContributionVerdict.

Module PolicyContribution.
Record PolicyContribution : Type := mk { source : PolicySource; verdict : ContributionVerdict }.
Definition allow (source : PolicySource) (allowance : PolicyAllowance) : PolicyContribution :=
  mk source (ContributionVerdict.Allow allowance).
Definition ask (source : PolicySource) (reason_code : string) : PolicyContribution :=
  mk source (ContributionVerdict.Ask reason_code).
Definition deny (source : PolicySource) (reason_code : string) : PolicyContribution :=
  mk source (ContributionVerdict.Deny reason_code).
End PolicyContribution.
Abbreviation PolicyContribution := PolicyContribution.PolicyContribution.

Module PolicyLayers.
Inductive PolicyLayers : Type :=
| Local (host user_profile : PolicyContribution)
| Managed (host user_profile managed_lease : PolicyContribution).
End PolicyLayers.
Abbreviation PolicyLayers := PolicyLayers.PolicyLayers.

Module PolicyInputs.
Record PolicyInputs : Type := mk { request : ResolvedPermissionRequest; layers : PolicyLayers }.
Definition local (request : ResolvedPermissionRequest) (host user_profile : PolicyContribution)
    : PolicyInputs :=
  mk request (PolicyLayers.Local host user_profile).
Definition managed (request : ResolvedPermissionRequest)
    (host user_profile managed_lease : PolicyContribution) : PolicyInputs :=
  mk request (PolicyLayers.Managed host user_profile managed_lease).
Definition is_managed (self : PolicyInputs) : bool :=
  match layers self with PolicyLayers.Managed _ _ _ => true | _ => false end.
Definition ordered (self : PolicyInputs) : list (PolicySourceKind * PolicyContribution) :=
  match layers self with
  | PolicyLayers.Local host user_profile =>
      [(PolicySourceKind.Host, host); (PolicySourceKind.UserProfile, user_profile)]
  | PolicyLayers.Managed host user_profile managed_lease =>
      [(PolicySourceKind.Host, host); (PolicySourceKind.UserProfile, user_profile);
       (PolicySourceKind.ManagedLease, managed_lease)]
  end.
End PolicyInputs.
Abbreviation PolicyInputs := PolicyInputs.PolicyInputs.

(** ** Outcomes *)

Module PolicyReason.
Record PolicyReason : Type := mk { source : option PolicySourceKind; code : string }.
Definition from_source (source : PolicySourceKind) (code : string) : PolicyReason :=
  mk (Some source) code.
Definition broker (code : string) : PolicyReason := mk None code.
End PolicyReason.
Abbreviation PolicyReason := PolicyReason.PolicyReason.

Module ProvisionalAuthorization.
Record ProvisionalAuthorization : Type := mk {
  lifetime : GrantLifetime;
  scopes : list string;
  resources : list ConcreteResource;
  critical_actions : list CriticalAction;
}.
End ProvisionalAuthorization.
Abbreviation ProvisionalAuthorization := ProvisionalAuthorization.ProvisionalAuthorization.

Module BrokerOutcome.
Inductive BrokerOutcome : Type :=
| Allow (provisional_authorization : ProvisionalAuthorization) (sources : list PolicySource)
| Ask (sources : list PolicySource) (reasons : list PolicyReason)
| Deny (sources : list PolicySource) (reasons : list PolicyReason).
End BrokerOutcome.
Abbreviation BrokerOutcome := BrokerOutcome.BrokerOutcome.

Module BoundPolicyEvaluation.
Record BoundPolicyEvaluation : Type := mk {
  request : ResolvedPermissionRequest;
  outcome : BrokerOutcome;
}.
End BoundPolicyEvaluation.
Abbreviation BoundPolicyEvaluation := BoundPolicyEvaluation.BoundPolicyEvaluation.

Module BrokerError.
Inductive BrokerError : Type :=
| PolicyRequestMismatch
| SourceKindMismatch (expected actual : PolicySourceKind)
| InvalidPolicySource (kind : PolicySourceKind)
| InvalidReasonCode (kind : PolicySourceKind).
End BrokerError.
Abbreviation BrokerError := BrokerError.BrokerError.

(** ** Evidence checks *)

(** [u8::is_ascii_hexdigit]. *)
Definition is_ascii_hexdigit (b : N) : bool :=
  is_ascii_digit b || is_lower_af b || bool_decide (65 ≤ b ≤ 70)%N.

Definition valid_sha256_digest (digest : string) : bool :=
  match strip_prefix "sha256:" digest with
  | Some hex =>
      bool_decide (strlen hex = 64)%N &&
      all_bytes (λ byte, is_ascii_hexdigit byte && negb (is_ascii_uppercase byte)) hex
  | None => false
  end.

Definition valid_reason_code (reason : string) : bool :=
  match reason with
  | EmptyString => false
  | String first bytes =>
      is_ascii_lowercase (N_of_ascii first) && bool_decide (strlen reason ≤ 100)%N &&
      all_bytes (λ byte, is_ascii_lowercase byte || is_ascii_digit byte || is_name_punct byte) bytes
  end.

Definition validate_contribution (expected : PolicySourceKind) (contribution : PolicyContribution)
    : res BrokerError unit :=
  let source := PolicyContribution.source contribution in
  let actual := PolicySource.kind source in
  bail_if bool_decide (actual ≠ expected) with BrokerError.SourceKindMismatch expected actual;;
  bail_if is_empty (PolicySource.id source)
          || bool_decide (300 < len (chars (PolicySource.id source)))%N
          || any_control (PolicySource.id source)
          || negb (valid_sha256_digest (PolicySource.digest source))
    with BrokerError.InvalidPolicySource actual;;
  let reason := match PolicyContribution.verdict contribution with
                | ContributionVerdict.Ask reason | ContributionVerdict.Deny reason => Some reason
                | ContributionVerdict.Allow _ => None
                end in
  bail_if match reason with Some reason => negb (valid_reason_code reason) | None => false end
    with BrokerError.InvalidReasonCode actual;;
  Ok tt.

(** ** Coverage: the reasons pushed, in order *)

Definition append_coverage_denials (request : ResolvedPermissionRequest) (source : PolicySourceKind)
    (allowance : PolicyAllowance) (reasons : list PolicyReason) : list PolicyReason :=
  let push (denied : bool) (code : string) (reasons : list PolicyReason) :=
    if denied then reasons ++ [PolicyReason.from_source source code] else reasons in
  let reasons := push (existsb (λ scope, negb (bool_decide (scope ∈ PolicyAllowance.scopes allowance)))
      (ResolvedPermissionRequest.requested_scopes request)) "scope_not_allowed" reasons in
  let reasons := push (existsb (λ resource,
        negb (bool_decide (resource ∈ PolicyAllowance.resources allowance)))
      (ResolvedPermissionRequest.resources request)) "resource_not_allowed" reasons in
  let reasons := push (existsb (λ action,
        negb (bool_decide (action ∈ PolicyAllowance.critical_actions allowance)))
      (ResolvedPermissionRequest.critical_actions request)) "critical_action_not_allowed" reasons in
  push (negb (bool_decide (ResolvedPermissionRequest.requested_lifetime request
                           ∈ PolicyAllowance.lifetimes allowance))) "lifetime_not_allowed" reasons.

(** ** Composition *)

(** The loop body of [evaluate]: the deny and the ask reasons collected so far. *)
Definition collect_reasons (request : ResolvedPermissionRequest)
    (reasons : list PolicyReason * list PolicyReason) (layer : PolicySourceKind * PolicyContribution)
    : list PolicyReason * list PolicyReason :=
  let '(deny_reasons, ask_reasons) := reasons in
  let '(kind, contribution) := layer in
  match PolicyContribution.verdict contribution with
  | ContributionVerdict.Deny code =>
      (deny_reasons ++ [PolicyReason.from_source kind code], ask_reasons)
  | ContributionVerdict.Ask code =>
      (deny_reasons, ask_reasons ++ [PolicyReason.from_source kind code])
  | ContributionVerdict.Allow allowance =>
      (append_coverage_denials request kind allowance deny_reasons, ask_reasons)
  end.

Definition validate_layer (_ : unit) (layer : PolicySourceKind * PolicyContribution)
    : res BrokerError unit :=
  validate_contribution layer.1 layer.2.

Definition evaluate (request : ResolvedPermissionRequest) (inputs : PolicyInputs)
    : res BrokerError BrokerOutcome :=
  bail_if bool_decide (PolicyInputs.request inputs ≠ request) with BrokerError.PolicyRequestMismatch;;
  let layers := PolicyInputs.ordered inputs in
  let? _ := for_each validate_layer layers tt in
  let sources := map (λ layer, PolicyContribution.source layer.2) layers in
  let '(deny_reasons, ask_reasons) := foldl (collect_reasons request) ([], []) layers in
  if negb (bool_decide (deny_reasons = [])) then
    Ok (BrokerOutcome.Deny sources deny_reasons)
  else
    let ask_reasons :=
      if negb (bool_decide (ResolvedPermissionRequest.critical_actions request = []))
      then ask_reasons ++ [PolicyReason.broker "critical_approval_required"] else ask_reasons in
    if negb (bool_decide (ask_reasons = [])) then Ok (BrokerOutcome.Ask sources ask_reasons)
    else
      Ok (BrokerOutcome.Allow
            (ProvisionalAuthorization.mk
               (ResolvedPermissionRequest.requested_lifetime request)
               (ResolvedPermissionRequest.requested_scopes request)
               (ResolvedPermissionRequest.resources request)
               (ResolvedPermissionRequest.critical_actions request))
            sources).

Definition evaluate_bound (request : ResolvedPermissionRequest) (inputs : PolicyInputs)
    : res BrokerError BoundPolicyEvaluation :=
  let? outcome := evaluate request inputs in
  Ok (BoundPolicyEvaluation.mk request outcome).
