(* ===== verification/BrokerTheorems.v ===== *)
(** What the permission broker promises: its outcome is the strictest decision any layer
    takes, an authorization is exactly the request every layer covers, and a further layer
    can only restrict. *)

From S2P Require Import Prelude Text Wire Domain Resolution Broker.

(** ** The specification: decisions ordered by strictness *)

Module Verdict.
Inductive Verdict : Type := Allow | Ask | Deny.
#[global] Instance Decision_eq_dec : EqDecision Verdict.
Proof. solve_decision. Defined.
Definition rank (d : Verdict) : N := match d with Allow => 0 | Ask => 1 | Deny => 2 end.
Definition le (a b : Verdict) : Prop := (rank a ≤ rank b)%N.
Definition join (a b : Verdict) : Verdict :=
  match a, b with
  | Deny, _ | _, Deny => Deny
  | Ask, _ | _, Ask => Ask
  | Allow, Allow => Allow
  end.
End Verdict.
Abbreviation Verdict := Verdict.Verdict.

(** The allowance covers everything the request asks for. *)
Definition covers (request : ResolvedPermissionRequest) (allowance : PolicyAllowance) : Prop :=
  (∀ s, s ∈ ResolvedPermissionRequest.requested_scopes request → s ∈ PolicyAllowance.scopes allowance) ∧
  (∀ r, r ∈ ResolvedPermissionRequest.resources request → r ∈ PolicyAllowance.resources allowance) ∧
  (∀ a, a ∈ ResolvedPermissionRequest.critical_actions request →
        a ∈ PolicyAllowance.critical_actions allowance) ∧
  ResolvedPermissionRequest.requested_lifetime request ∈ PolicyAllowance.lifetimes allowance.

(** The decision a layer takes by itself, with [covered] the outcome of its coverage test. *)
Inductive layer_decides (request : ResolvedPermissionRequest)
    : PolicyContribution → Verdict → Prop :=
| decides_deny s code : layer_decides request (PolicyContribution.deny s code) Verdict.Deny
| decides_ask s code : layer_decides request (PolicyContribution.ask s code) Verdict.Ask
| decides_allow s a : covers request a →
    layer_decides request (PolicyContribution.allow s a) Verdict.Allow
| decides_uncovered s a : ¬ covers request a →
    layer_decides request (PolicyContribution.allow s a) Verdict.Deny.

Definition verdict_of (outcome : BrokerOutcome) : Verdict :=
  match outcome with
  | BrokerOutcome.Allow _ _ => Verdict.Allow
  | BrokerOutcome.Ask _ _ => Verdict.Ask
  | BrokerOutcome.Deny _ _ => Verdict.Deny
  end.

(** A critical action always needs an approval. *)
Definition approval (request : ResolvedPermissionRequest) : Verdict :=
  match ResolvedPermissionRequest.critical_actions request with
  | [] => Verdict.Allow
  | _ => Verdict.Ask
  end.

Definition contributions (inputs : PolicyInputs) : list PolicyContribution :=
  (PolicyInputs.ordered inputs).*2.

(** Every layer's evidence is well formed and in its own slot. *)
Definition layers_valid (inputs : PolicyInputs) : Prop :=
  Forall (λ layer, validate_contribution layer.1 layer.2 = Ok tt) (PolicyInputs.ordered inputs).

(** ** Lemmas *)

#[local] Instance rank_le_trans {A} (rank : A → N) : Transitive (rank_le rank).
Proof. intros a b c. unfold rank_le. lia. Qed.
#[local] Instance rank_le_total {A} (rank : A → N) : Total (rank_le rank).
Proof. intros a b. unfold rank_le. lia. Qed.
#[local] Instance action_antisym : AntiSymm (=) (rank_le critical_action_rank).
Proof. intros [] []; unfold rank_le; cbn; intros; done || lia. Qed.
#[local] Instance lifetime_antisym : AntiSymm (=) (rank_le lifetime_rank).
Proof. intros [] []; unfold rank_le; cbn; intros; done || lia. Qed.

Lemma concat_nil_map {A B} (f : A → list B) l : Forall (λ a, f a = []) l → concat (map f l) = [].
Proof. induction 1 as [|a l Ha _ IH]; [done|]. cbn. by rewrite Ha. Qed.

(** The reasons one layer gives to deny, and to ask. *)
Definition layer_denials (request : ResolvedPermissionRequest)
    (layer : PolicySourceKind * PolicyContribution) : list PolicyReason :=
  (collect_reasons request ([], []) layer).1.
Definition layer_questions (request : ResolvedPermissionRequest)
    (layer : PolicySourceKind * PolicyContribution) : list PolicyReason :=
  (collect_reasons request ([], []) layer).2.

Lemma coverage_app request kind a l :
  append_coverage_denials request kind a l = l ++ append_coverage_denials request kind a [].
Proof.
  unfold append_coverage_denials. cbv zeta beta.
  repeat match goal with |- context [if ?b then _ else _] => destruct b end;
    rewrite ?app_nil_l, <-?app_assoc, ?app_nil_r; done.
Qed.

Lemma coverage_nil request kind a :
  append_coverage_denials request kind a [] = [] ↔ covers request a.
Proof.
  assert (Hex : ∀ {A} (l : list A) (P : A → Prop) `{∀ x, Decision (P x)},
    existsb (λ x, negb (bool_decide (P x))) l = false ↔ ∀ x, x ∈ l → P x).
  { intros A l P HP. induction l as [|x l IH]; simpl; [set_solver|].
    rewrite orb_false_iff, negb_false_iff, bool_decide_eq_true, IH. set_solver. }
  unfold append_coverage_denials, covers. cbv zeta beta. case_bool_decide; cbn;
    repeat match goal with
    | |- context [if ?b then _ else _] =>
        let E := fresh "E" in destruct b eqn:E;
        [rewrite <-not_false_iff_true, Hex in E|rewrite Hex in E]
    end; cbn; (split; [intros E'; first [discriminate E'|tauto]|tauto]).
Qed.

Lemma collect_split request d q layer :
  collect_reasons request (d, q) layer =
  (d ++ layer_denials request layer, q ++ layer_questions request layer).
Proof.
  destruct layer as [k [s [a|c|c]]]; unfold layer_denials, layer_questions; cbn;
    rewrite ?app_nil_r; [by rewrite coverage_app|done|done].
Qed.

Lemma collect_all request layers d q :
  foldl (collect_reasons request) (d, q) layers =
  (d ++ concat (map (layer_denials request) layers),
   q ++ concat (map (layer_questions request) layers)).
Proof.
  revert d q. induction layers as [|l ls IH]; intros d q; cbn [foldl map concat].
  - by rewrite !app_nil_r.
  - by rewrite collect_split, IH, <-!app_assoc.
Qed.

Lemma validate_layers layers :
  for_each validate_layer layers tt = Ok tt ↔
  Forall (λ layer, validate_contribution layer.1 layer.2 = Ok tt) layers.
Proof.
  induction layers as [|l ls IH]; [cbn; split; [by constructor|done]|].
  rewrite Forall_cons, <-IH. cbn [for_each]. rewrite rbind_ok. unfold validate_layer at 1.
  split; [by intros ([] & ? & ?)|intros [? ?]; by exists tt].
Qed.

(** The broker's outcome, from the reasons of its layers. *)
Definition compose (request : ResolvedPermissionRequest) (inputs : PolicyInputs) : BrokerOutcome :=
  let layers := PolicyInputs.ordered inputs in
  let sources := map (λ layer, PolicyContribution.source layer.2) layers in
  let denials := concat (map (layer_denials request) layers) in
  let questions := concat (map (layer_questions request) layers) ++
    match ResolvedPermissionRequest.critical_actions request with
    | [] => []
    | _ => [PolicyReason.broker "critical_approval_required"]
    end in
  match denials, questions with
  | _ :: _, _ => BrokerOutcome.Deny sources denials
  | [], _ :: _ => BrokerOutcome.Ask sources questions
  | [], [] =>
      BrokerOutcome.Allow
        (ProvisionalAuthorization.mk (ResolvedPermissionRequest.requested_lifetime request)
           (ResolvedPermissionRequest.requested_scopes request)
           (ResolvedPermissionRequest.resources request)
           (ResolvedPermissionRequest.critical_actions request)) sources
  end.

Lemma evaluate_ok request inputs outcome :
  evaluate request inputs = Ok outcome ↔
  PolicyInputs.request inputs = request ∧ layers_valid inputs ∧ outcome = compose request inputs.
Proof.
  unfold evaluate, layers_valid. rewrite <-validate_layers.
  case_bool_decide as Hr; [naive_solver|].
  match goal with |- rbind ?c ?k = _ ↔ _ =>
    assert (Hk : ∀ u, k u = Ok (compose request inputs)) end.
  { intros _. rewrite collect_all, !app_nil_l. unfold compose.
    destruct (concat (map (layer_denials request) (PolicyInputs.ordered inputs))); cbn; [|done].
    destruct (ResolvedPermissionRequest.critical_actions request); cbn;
    destruct (concat (map (layer_questions request) (PolicyInputs.ordered inputs))); cbn;
      by rewrite ?app_nil_r. }
  rewrite rbind_ok. split.
  - intros ([] & Hv & Ho). rewrite (Hk tt) in Ho. by injection Ho as <-.
  - intros (_ & Hv & ->). exists tt. by rewrite (Hk tt).
Qed.

Lemma layer_decides_exists request c : ∃ d, layer_decides request c d.
Proof.
  destruct c as [s [a|r|r]]; [|eexists; by constructor..].
  destruct (decide (append_coverage_denials request PolicySourceKind.Host a [] = [])) as [Hc|Hc];
    rewrite coverage_nil in Hc; eexists; by constructor.
Qed.

(** The strictest of the layers' decisions, read off their reasons. *)
Lemma strictest request ls verdicts :
  Forall2 (layer_decides request) ls.*2 verdicts →
  foldr Verdict.join (approval request) verdicts =
  match concat (map (layer_denials request) ls), concat (map (layer_questions request) ls) with
  | _ :: _, _ => Verdict.Deny
  | [], _ :: _ => Verdict.Ask
  | [], [] => approval request
  end.
Proof.
  revert verdicts. induction ls as [|[k c] ls IH]; intros [|v vs] H; cbn in H |- *;
    try (by inversion H).
  apply Forall2_cons in H as [Hc H]. rewrite (IH _ H).
  unfold layer_denials at 2, layer_questions at 2.
  assert (approval request = Verdict.Allow ∨ approval request = Verdict.Ask) as Ha
    by (unfold approval; destruct (ResolvedPermissionRequest.critical_actions request); tauto).
  destruct Hc as [s r|s r|s a Hc|s a Hc]; cbn;
    [|..|rewrite (proj2 (coverage_nil _ _ _) Hc); cbn
    |rewrite <-(coverage_nil request k) in Hc;
     destruct (append_coverage_denials request k a []); [done|cbn]];
    destruct (concat (map (layer_denials request) ls)), (concat (map (layer_questions request) ls));
    try done; by destruct Ha as [-> | ->].
Qed.

Lemma verdict_of_compose request inputs verdicts :
  Forall2 (layer_decides request) (contributions inputs) verdicts →
  verdict_of (compose request inputs) = foldr Verdict.join (approval request) verdicts.
Proof.
  intros H. rewrite (strictest _ _ _ H). unfold compose, approval.
  destruct (concat (map (layer_denials request) (PolicyInputs.ordered inputs))),
    (concat (map (layer_questions request) (PolicyInputs.ordered inputs))),
    (ResolvedPermissionRequest.critical_actions request); done.
Qed.

Lemma layer_decides_all request l : ∃ vs, Forall2 (layer_decides request) l vs.
Proof.
  induction l as [|c l [vs IH]]; [by exists []|].
  destruct (layer_decides_exists request c) as [v Hv]. exists (v :: vs). by constructor.
Qed.

(** ** Claims *)

(** C19: The broker takes the strictest decision: its outcome denies when some layer denies or
    does not cover the request, asks when otherwise some layer asks or the request has a
    critical action, and allows only when every layer allows and covers it; it decides exactly
    when the inputs were evaluated for this request and every layer's evidence is well formed. *)
Theorem broker_decides (request : ResolvedPermissionRequest) (inputs : PolicyInputs) :
  (is_ok (evaluate request inputs) ↔ PolicyInputs.request inputs = request ∧ layers_valid inputs) ∧
  ∀ outcome, evaluate request inputs = Ok outcome →
    ∃ verdicts, Forall2 (layer_decides request) (contributions inputs) verdicts ∧
      verdict_of outcome = foldr Verdict.join (approval request) verdicts.
Proof.
  split.
  - unfold is_ok. setoid_rewrite evaluate_ok. naive_solver.
  - intros outcome (_ & _ & ->)%evaluate_ok.
    destruct (layer_decides_all request (contributions inputs)) as [vs Hvs].
    exists vs. split; [done|]. by apply verdict_of_compose.
Qed.

Lemma compose_allow request inputs auth sources :
  compose request inputs = BrokerOutcome.Allow auth sources →
  (∀ c, c ∈ contributions inputs →
     ∃ a, c = PolicyContribution.allow (PolicyContribution.source c) a ∧ covers request a) ∧
  ResolvedPermissionRequest.critical_actions request = [].
Proof.
  intros Hc. destruct (layer_decides_all request (contributions inputs)) as [vs Hvs].
  assert (Hv : foldr Verdict.join (approval request) vs = Verdict.Allow)
    by by rewrite <-(verdict_of_compose _ _ _ Hvs), Hc.
  clear Hc. revert Hv. induction Hvs as [|c v l vs Hcv Hvs IH]; cbn.
  - unfold approval. destruct (ResolvedPermissionRequest.critical_actions request); [|done].
    intros _. split; [|done]. by intros c ?%not_elem_of_nil.
  - intros Hj. destruct v, (foldr Verdict.join (approval request) vs) eqn:E; try done.
    destruct (IH eq_refl) as [Hl Hcrit]. split; [|done].
    intros c' [->|Hin]%elem_of_cons; [|by apply Hl].
    inversion Hcv; subst. by eexists.
Qed.

(** The broker allows exactly the request: a provisional authorization is issued precisely
    when the inputs were evaluated for this request, every layer's evidence is well formed,
    every layer allows and covers the request, and it has no critical action; it then carries
    the request's own lifetime, scopes and resources and the layers' sources, nothing more. *)
Theorem broker_allow_iff (request : ResolvedPermissionRequest) (inputs : PolicyInputs)
    (auth : ProvisionalAuthorization) (sources : list PolicySource) :
  evaluate request inputs = Ok (BrokerOutcome.Allow auth sources) ↔
  PolicyInputs.request inputs = request ∧ layers_valid inputs ∧
  (∀ c, c ∈ contributions inputs →
     ∃ a, c = PolicyContribution.allow (PolicyContribution.source c) a ∧ covers request a) ∧
  ResolvedPermissionRequest.critical_actions request = [] ∧
  auth = ProvisionalAuthorization.mk (ResolvedPermissionRequest.requested_lifetime request)
    (ResolvedPermissionRequest.requested_scopes request)
    (ResolvedPermissionRequest.resources request) [] ∧
  sources = map PolicyContribution.source (contributions inputs).
Proof.
  rewrite evaluate_ok. apply and_iff_compat_l, and_iff_compat_l. split.
  - intros Hc. symmetry in Hc. destruct (compose_allow _ _ _ _ Hc) as [Hl Hcrit].
    split; [done|]. split; [done|]. revert Hc. unfold compose, contributions. rewrite Hcrit, map_map.
    destruct (concat (map (layer_denials request) _)); [|done].
    destruct (concat (map (layer_questions request) _)); [|done]. by intros [= <- <-].
  - intros (Hl & Hcrit & -> & ->). unfold compose, contributions in *. rewrite Hcrit, map_map.
    assert (Hall : Forall (λ layer, layer_denials request layer = [] ∧
              layer_questions request layer = []) (PolicyInputs.ordered inputs)).
    { apply Forall_forall. intros [k c] Hin.
      destruct (Hl c) as (a & -> & Hc); [by apply list_elem_of_fmap; exists (k, c)|].
      unfold layer_denials, layer_questions. cbn. by rewrite coverage_nil. }
    rewrite (concat_nil_map (layer_denials request)), (concat_nil_map (layer_questions request));
      [done|..]; (eapply Forall_impl; [exact Hall|]; naive_solver).
Qed.

(** A further policy layer can only restrict: whenever the broker decides with a managed
    lease in the stack it also decides without it, at most as strictly; in particular a lease
    never turns a question or a denial into an authorization. *)
Theorem managed_only_restricts (request evaluated : ResolvedPermissionRequest)
    (host user lease : PolicyContribution) (outcome : BrokerOutcome) :
  evaluate request (PolicyInputs.managed evaluated host user lease) = Ok outcome →
  ∃ outcome', evaluate request (PolicyInputs.local evaluated host user) = Ok outcome' ∧
    Verdict.le (verdict_of outcome') (verdict_of outcome).
Proof.
  intros (Hr & Hv & ->)%evaluate_ok.
  exists (compose request (PolicyInputs.local evaluated host user)). split.
  - apply evaluate_ok. split_and!; [done| |done]. revert Hv. unfold layers_valid. cbn.
    rewrite !Forall_cons. tauto.
  - destruct (layer_decides_exists request host) as [vh Hh],
      (layer_decides_exists request user) as [vu Hu], (layer_decides_exists request lease) as [vl Hl].
    rewrite (verdict_of_compose _ _ [vh; vu]), (verdict_of_compose _ _ [vh; vu; vl])
      by repeat (done || constructor).
    unfold approval, Verdict.le.
    destruct vh, vu, vl, (ResolvedPermissionRequest.critical_actions request); cbn; lia.
Qed.

(** An allowance is a set: the order and the repetitions in which an evaluator lists scopes,
    resources, critical actions and lifetimes change neither the allowance nor what it covers. *)
Lemma allowance_canonical (scopes1 scopes2 : list string) (resources1 resources2 : list ConcreteResource)
    (actions1 actions2 : list CriticalAction) (lifetimes1 lifetimes2 : list GrantLifetime)
    (request : ResolvedPermissionRequest) :
  (∀ s, s ∈ scopes1 ↔ s ∈ scopes2) → (∀ r, r ∈ resources1 ↔ r ∈ resources2) →
  (∀ a, a ∈ actions1 ↔ a ∈ actions2) → (∀ l, l ∈ lifetimes1 ↔ l ∈ lifetimes2) →
  from_trusted_evaluation scopes1 resources1 actions1 lifetimes1
    = from_trusted_evaluation scopes2 resources2 actions2 lifetimes2 ∧
  (covers request (from_trusted_evaluation scopes1 resources1 actions1 lifetimes1) ↔
   ResolvedPermissionRequest.requested_scopes request ⊆ scopes1 ∧
   ResolvedPermissionRequest.resources request ⊆ resources1 ∧
   ResolvedPermissionRequest.critical_actions request ⊆ actions1 ∧
   ResolvedPermissionRequest.requested_lifetime request ∈ lifetimes1).
Proof.
  intros Hs Hr Ha Hl. split.
  - unfold from_trusted_evaluation, sort_by_key. f_equal.
    + apply set_eq. intros x. rewrite !elem_of_list_to_set. apply Hs.
    + apply set_eq. intros x. rewrite !elem_of_list_to_set. apply Hr.
    + by apply (dedup_sort_ext (rank_le critical_action_rank)).
    + by apply (dedup_sort_ext (rank_le lifetime_rank)).
  - unfold covers, from_trusted_evaluation, sort_by_key. cbn. rewrite elem_of_dedup.
    setoid_rewrite elem_of_list_to_set. setoid_rewrite elem_of_dedup.
    by setoid_rewrite merge_sort_Permutation.
Qed.
