(* ===== verification/Registry.v ===== *)
(** The capability registry: an in-memory catalog of definitions and of the instances bound to
    them (crates/xgeny-runtime/src/registry.rs). *)

From S2P Require Import Prelude Text Wire Domain.

Module DefinitionKey.
Record DefinitionKey : Type := mk { capability_id : string; contract_version : string }.
#[global] Instance DefinitionKey_eq_dec : EqDecision DefinitionKey.
Proof. solve_decision. Defined.
#[global] Program Instance DefinitionKey_countable : Countable DefinitionKey :=
  inj_countable' (λ k, (capability_id k, contract_version k)) (λ p, mk p.1 p.2) _.
Next Obligation. by intros []. Qed.
(** The derived [Ord]. *)
Definition compare : DefinitionKey → DefinitionKey → comparison :=
  lexi (on capability_id String.compare) (on contract_version String.compare).
Definition from_definition (definition : CapabilityDefinitionBody) : DefinitionKey :=
  mk (CapabilityMetadata.id (CapabilityDefinitionBody.metadata definition))
     (CapabilityMetadata.contract_version (CapabilityDefinitionBody.metadata definition)).
Definition from_reference (reference : CapabilityRef) : DefinitionKey :=
  mk (CapabilityRef.capability_id reference) (CapabilityRef.contract_version reference).
End DefinitionKey.
Abbreviation DefinitionKey := DefinitionKey.DefinitionKey.

Module CapabilityRegistry.
Record CapabilityRegistry : Type := mk {
  definitions : gmap DefinitionKey CapabilityDefinitionBody;
  instances : gmap string CapabilityInstanceBody;
}.
Definition new : CapabilityRegistry := mk ∅ ∅.
End CapabilityRegistry.
Abbreviation CapabilityRegistry := CapabilityRegistry.CapabilityRegistry.

Module RegistryError.
Inductive RegistryError : Type :=
| UnsupportedDefinitionApiVersion (capability_id actual : string)
| UnsupportedInstanceApiVersion (instance_id actual : string)
| InvalidTimeoutRange (capability_id : string) (default_timeout_ms max_timeout_ms : N)
| UnsupportedDurableToolOutputEffect (capability_id : string)
| DuplicateDefinition (capability_id contract_version : string)
| DuplicateInstance (instance_id : string)
| DefinitionNotFound (instance_id capability_id contract_version : string)
| UnsupportedExecutionStyle (instance_id capability_id contract_version : string)
    (style : ExecutionStyle)
| UnsupportedCancellation (instance_id capability_id contract_version : string).
End RegistryError.
Abbreviation RegistryError := RegistryError.RegistryError.

(** ** Validation *)

Definition validate_definition (definition : CapabilityDefinitionBody) : res RegistryError unit :=
  let id := CapabilityMetadata.id (CapabilityDefinitionBody.metadata definition) in
  bail_if bool_decide (CapabilityDefinitionBody.api_version definition ≠ API_VERSION_V1ALPHA1)
    with RegistryError.UnsupportedDefinitionApiVersion id
           (CapabilityDefinitionBody.api_version definition);;
  let execution := CapabilitySpec.execution (CapabilityDefinitionBody.spec definition) in
  let default_timeout_ms := CapabilityExecution.default_timeout_ms execution in
  let max_timeout_ms := CapabilityExecution.max_timeout_ms execution in
  bail_if bool_decide (default_timeout_ms = 0)%N || bool_decide (max_timeout_ms = 0)%N
          || bool_decide (max_timeout_ms < default_timeout_ms)%N
    with RegistryError.InvalidTimeoutRange id default_timeout_ms max_timeout_ms;;
  bail_if CapabilityExecution.durable_tool_output execution &&
          negb match CapabilityEffect.class
                       (CapabilitySpec.effect (CapabilityDefinitionBody.spec definition)) with
               | EffectClass.ReadOnly | EffectClass.Idempotent | EffectClass.NonIdempotent => true
               | _ => false
               end
    with RegistryError.UnsupportedDurableToolOutputEffect id;;
  Ok tt.

Definition unsupported_style (instance : CapabilityInstanceBody) (style : ExecutionStyle)
    : RegistryError :=
  let definition := CapabilityInstanceBody.definition instance in
  RegistryError.UnsupportedExecutionStyle (CapabilityInstanceBody.instance_id instance)
    (CapabilityRef.capability_id definition) (CapabilityRef.contract_version definition) style.

Definition validate_instance_features (instance : CapabilityInstanceBody)
    (definition : CapabilityDefinitionBody) : res RegistryError unit :=
  let features := CapabilityInstanceBody.features instance in
  let execution := CapabilitySpec.execution (CapabilityDefinitionBody.spec definition) in
  let metadata := CapabilityDefinitionBody.metadata definition in
  bail_if InstanceFeatures.sync features &&
          negb (bool_decide (ExecutionStyle.Sync ∈ CapabilityExecution.styles execution))
    with unsupported_style instance ExecutionStyle.Sync;;
  bail_if InstanceFeatures.task features &&
          negb (bool_decide (ExecutionStyle.Task ∈ CapabilityExecution.styles execution))
    with unsupported_style instance ExecutionStyle.Task;;
  bail_if InstanceFeatures.cancellable features && negb (CapabilityExecution.cancellable execution)
    with RegistryError.UnsupportedCancellation (CapabilityInstanceBody.instance_id instance)
           (CapabilityMetadata.id metadata) (CapabilityMetadata.contract_version metadata);;
  Ok tt.

(** ** Registration *)

Definition register_schema_validated_definition (self : CapabilityRegistry)
    (definition : CapabilityDefinitionBody) : res RegistryError CapabilityRegistry :=
  let? _ := validate_definition definition in
  let key := DefinitionKey.from_definition definition in
  bail_if bool_decide (is_Some (CapabilityRegistry.definitions self !! key))
    with RegistryError.DuplicateDefinition (DefinitionKey.capability_id key)
           (DefinitionKey.contract_version key);;
  Ok (CapabilityRegistry.mk (<[key := definition]> (CapabilityRegistry.definitions self))
        (CapabilityRegistry.instances self)).

Definition register_schema_validated_instance (self : CapabilityRegistry)
    (instance : CapabilityInstanceBody) : res RegistryError CapabilityRegistry :=
  let id := CapabilityInstanceBody.instance_id instance in
  bail_if bool_decide (CapabilityInstanceBody.api_version instance ≠ API_VERSION_V1ALPHA1)
    with RegistryError.UnsupportedInstanceApiVersion id (CapabilityInstanceBody.api_version instance);;
  bail_if bool_decide (is_Some (CapabilityRegistry.instances self !! id))
    with RegistryError.DuplicateInstance id;;
  let key := DefinitionKey.from_reference (CapabilityInstanceBody.definition instance) in
  let? definition := ok_or (CapabilityRegistry.definitions self !! key)
    (RegistryError.DefinitionNotFound id (DefinitionKey.capability_id key)
       (DefinitionKey.contract_version key)) in
  let? _ := validate_instance_features instance definition in
  Ok (CapabilityRegistry.mk (CapabilityRegistry.definitions self)
        (<[id := instance]> (CapabilityRegistry.instances self))).

(** ** Lookup and iteration *)

Definition definition (self : CapabilityRegistry) (reference : CapabilityRef)
    : option CapabilityDefinitionBody :=
  CapabilityRegistry.definitions self !! DefinitionKey.from_reference reference.

Definition instance (self : CapabilityRegistry) (instance_id : string)
    : option CapabilityInstanceBody :=
  CapabilityRegistry.instances self !! instance_id.

Definition definitions (self : CapabilityRegistry) : list CapabilityDefinitionBody :=
  omap (λ k, CapabilityRegistry.definitions self !! k)
    (sort_by DefinitionKey.compare (map_to_list (CapabilityRegistry.definitions self)).*1).

Definition instances (self : CapabilityRegistry) : list CapabilityInstanceBody :=
  btree_values (CapabilityRegistry.instances self).

Definition instances_for (self : CapabilityRegistry) (reference : CapabilityRef)
    : list CapabilityInstanceBody :=
  let key := DefinitionKey.from_reference reference in
  filter (λ instance,
      DefinitionKey.from_reference (CapabilityInstanceBody.definition instance) = key)
    (instances self).

Definition definition_count (self : CapabilityRegistry) : N :=
  N.of_nat (size (CapabilityRegistry.definitions self)).
Definition instance_count (self : CapabilityRegistry) : N :=
  N.of_nat (size (CapabilityRegistry.instances self)).
