(* ===== verification/Router.v ===== *)
(** The capability router: candidates are filtered, ranked and gated by the bound policy
    evaluation (crates/xgeny-runtime/src/router.rs). *)

From S2P Require Import Prelude Text Wire Domain Resolution Broker Registry.

(** ** Requests, reasons and outcomes *)

Module RequiredRouteFeatures.
Record RequiredRouteFeatures : Type := mk {
  execution_style : ExecutionStyle;
  cancellation : bool;
  idempotency_key : bool;
  idempotency_query : bool;
}.
End RequiredRouteFeatures.
Abbreviation RequiredRouteFeatures := RequiredRouteFeatures.RequiredRouteFeatures.

Module RouteRequest.
Record RouteRequest : Type := mk {
  capability : CapabilityRef;
  target_platform : Platform;
  required_features : RequiredRouteFeatures;
  allowed_trust_levels : list TrustLevel;
  allowed_data_boundaries : list DataBoundary;
  trust_preference : list TrustLevel;
  data_boundary_preference : list DataBoundary;
  preferred_instance_ids : list string;
  pinned_instance_id : option string;
}.
End RouteRequest.
Abbreviation RouteRequest := RouteRequest.RouteRequest.

Module CandidateEligibility.
Inductive CandidateEligibility : Type := PlacementEligible | Rejected.
#[global] Instance CandidateEligibility_eq_dec : EqDecision CandidateEligibility.
Proof. solve_decision. Defined.
End CandidateEligibility.
Abbreviation CandidateEligibility := CandidateEligibility.CandidateEligibility.

Module RouteReason.
Inductive RouteReason : Type :=
| PlatformOsMismatch
| PlatformArchitectureMismatch
| HealthDegraded
| HealthUnavailable
| HealthUnknown
| AuthRequired
| AuthExpired
| TrustNotAllowed
| DataBoundaryNotAllowed
| DefinitionExtensionUnsupported (extension : string)
| InstanceExtensionUnsupported (extension : string)
| ExecutionStyleUnsupported (style : ExecutionStyle)
| CancellationUnsupported
| IdempotencyKeyUnsupported
| IdempotencyQueryUnsupported
| InvalidCostHint
| InvalidReliabilityHint.
Definition code (self : RouteReason) : string :=
  match self with
  | PlatformOsMismatch => "platform_os_mismatch"
  | PlatformArchitectureMismatch => "platform_arch_mismatch"
  | HealthDegraded => "health_degraded"
  | HealthUnavailable => "health_unavailable"
  | HealthUnknown => "health_unknown"
  | AuthRequired => "auth_required"
  | AuthExpired => "auth_expired"
  | TrustNotAllowed => "trust_not_allowed"
  | DataBoundaryNotAllowed => "data_boundary_not_allowed"
  | DefinitionExtensionUnsupported _ => "definition_extension_unsupported"
  | InstanceExtensionUnsupported _ => "instance_extension_unsupported"
  | ExecutionStyleUnsupported _ => "execution_style_unsupported"
  | CancellationUnsupported => "cancellation_unsupported"
  | IdempotencyKeyUnsupported => "idempotency_key_unsupported"
  | IdempotencyQueryUnsupported => "idempotency_query_unsupported"
  | InvalidCostHint => "invalid_cost_hint"
  | InvalidReliabilityHint => "invalid_reliability_hint"
  end.
Definition rejects_candidate (self : RouteReason) : bool :=
  match self with HealthDegraded => false | _ => true end.
End RouteReason.
Abbreviation RouteReason := RouteReason.RouteReason.

Module RouteCandidateEvaluation.
Record RouteCandidateEvaluation : Type := mk {
  instance_id : string;
  eligibility : CandidateEligibility;
  reasons : list RouteReason;
}.
End RouteCandidateEvaluation.
Abbreviation RouteCandidateEvaluation := RouteCandidateEvaluation.RouteCandidateEvaluation.

Module RouteSelectionReason.
Inductive RouteSelectionReason : Type :=
| Pinned | OnlyPlacementEligibleCandidate | LexicographicRanking.
Definition code (self : RouteSelectionReason) : string :=
  match self with
  | Pinned => "selected_by_pin"
  | OnlyPlacementEligibleCandidate => "selected_only_eligible_candidate"
  | LexicographicRanking => "selected_lexicographically"
  end.
End RouteSelectionReason.
Abbreviation RouteSelectionReason := RouteSelectionReason.RouteSelectionReason.

Module RouteInteractionReason.
Inductive RouteInteractionReason : Type := PolicyApprovalRequired | CriticalApprovalRequired.
Definition code (self : RouteInteractionReason) : string :=
  match self with
  | PolicyApprovalRequired => "policy_approval_required"
  | CriticalApprovalRequired => "critical_approval_required"
  end.
End RouteInteractionReason.
Abbreviation RouteInteractionReason := RouteInteractionReason.RouteInteractionReason.

Module RouteBlockReason.
Inductive RouteBlockReason : Type :=
| NoCandidates
| NoPlacementEligibleCandidates
| PolicyMissing
| PolicyDenied
| PinnedInstanceNotFound
| PinnedInstanceCapabilityMismatch
| PinnedInstanceIneligible.
Definition code (self : RouteBlockReason) : string :=
  match self with
  | NoCandidates => "no_candidates"
  | NoPlacementEligibleCandidates => "no_placement_eligible_candidates"
  | PolicyMissing => "policy_missing"
  | PolicyDenied => "policy_denied"
  | PinnedInstanceNotFound => "pinned_instance_not_found"
  | PinnedInstanceCapabilityMismatch => "pinned_instance_capability_mismatch"
  | PinnedInstanceIneligible => "pinned_instance_ineligible"
  end.
End RouteBlockReason.
Abbreviation RouteBlockReason := RouteBlockReason.RouteBlockReason.

Module RouteOutcome.
Inductive RouteOutcome : Type :=
| Selected (selected_instance_id : string) (ranked_instance_ids : list string)
    (candidates : list RouteCandidateEvaluation) (reason : RouteSelectionReason)
| InteractionRequired (ranked_instance_ids : list string)
    (candidates : list RouteCandidateEvaluation) (reasons : list RouteInteractionReason)
    (policy_reasons : list PolicyReason)
| Blocked (ranked_instance_ids : list string) (candidates : list RouteCandidateEvaluation)
    (reasons : list RouteBlockReason) (policy_reasons : list PolicyReason).
End RouteOutcome.
Abbreviation RouteOutcome := RouteOutcome.RouteOutcome.

Module RouteInputError.
Inductive RouteInputError : Type :=
| TargetPlatformMustBeConcrete
| AllowedTrustLevelsEmpty
| AllowedDataBoundariesEmpty
| DuplicateAllowedTrustLevel (trust : TrustLevel)
| DuplicateAllowedDataBoundary (boundary : DataBoundary)
| TrustPreferenceNotAllowed (trust : TrustLevel)
| DuplicateTrustPreference (trust : TrustLevel)
| DataBoundaryPreferenceNotAllowed (boundary : DataBoundary)
| DuplicateDataBoundaryPreference (boundary : DataBoundary)
| EmptyPreferredInstanceId
| DuplicatePreferredInstanceId (instance_id : string)
| EmptyPinnedInstanceId
| DefinitionNotFound (capability_id contract_version : string)
| PolicyCapabilityMismatch
| PolicyEffectClassMismatch (expected actual : EffectClass)
| PolicyCriticalActionsMismatch
| PolicyScopesMismatch.
End RouteInputError.
Abbreviation RouteInputError := RouteInputError.RouteInputError.

Definition effect_of (definition : CapabilityDefinitionBody) : CapabilityEffect :=
  CapabilitySpec.effect (CapabilityDefinitionBody.spec definition).

(** ** Request shape *)

(** [first_duplicate] and [first_duplicate_ref]: the first value equal to an earlier one. *)
Fixpoint first_duplicate_after {A} `{EqDecision A} (earlier values : list A) : option A :=
  match values with
  | [] => None
  | value :: values' =>
      if bool_decide (value ∈ earlier) then Some value
      else first_duplicate_after (earlier ++ [value]) values'
  end.
Definition first_duplicate {A} `{EqDecision A} (values : list A) : option A :=
  first_duplicate_after [] values.

(** [if let Some(x) = .. { return Err(..) }]. *)
Definition refuse {A} (o : option A) (e : A → RouteInputError) : res RouteInputError unit :=
  match o with Some a => Err (e a) | None => Ok tt end.

Definition validate_request (request : RouteRequest) : res RouteInputError unit :=
  let platform := RouteRequest.target_platform request in
  let trusts := RouteRequest.allowed_trust_levels request in
  let boundaries := RouteRequest.allowed_data_boundaries request in
  bail_if bool_decide (Platform.os platform = OperatingSystem.Any)
          || bool_decide (Platform.arch platform = Architecture.Any)
    with RouteInputError.TargetPlatformMustBeConcrete;;
  bail_if bool_decide (trusts = []) with RouteInputError.AllowedTrustLevelsEmpty;;
  bail_if bool_decide (boundaries = []) with RouteInputError.AllowedDataBoundariesEmpty;;
  let? _ := refuse (first_duplicate trusts) RouteInputError.DuplicateAllowedTrustLevel in
  let? _ := refuse (first_duplicate boundaries) RouteInputError.DuplicateAllowedDataBoundary in
  let? _ := refuse (List.find (λ trust, negb (bool_decide (trust ∈ trusts)))
                      (RouteRequest.trust_preference request))
              RouteInputError.TrustPreferenceNotAllowed in
  let? _ := refuse (first_duplicate (RouteRequest.trust_preference request))
              RouteInputError.DuplicateTrustPreference in
  let? _ := refuse (List.find (λ boundary, negb (bool_decide (boundary ∈ boundaries)))
                      (RouteRequest.data_boundary_preference request))
              RouteInputError.DataBoundaryPreferenceNotAllowed in
  let? _ := refuse (first_duplicate (RouteRequest.data_boundary_preference request))
              RouteInputError.DuplicateDataBoundaryPreference in
  bail_if existsb is_empty (RouteRequest.preferred_instance_ids request)
    with RouteInputError.EmptyPreferredInstanceId;;
  let? _ := refuse (first_duplicate (RouteRequest.preferred_instance_ids request))
              RouteInputError.DuplicatePreferredInstanceId in
  bail_if match RouteRequest.pinned_instance_id request with
          | Some id => is_empty id
          | None => false
          end with RouteInputError.EmptyPinnedInstanceId;;
  Ok tt.

(** ** The bound policy *)

Definition same_members {A} `{EqDecision A} (left right : list A) : bool :=
  bool_decide (length left = length right) &&
  forallb (λ item, bool_decide (item ∈ right)) left.

(** [sort] then [dedup] of a list of strings. *)
Definition sort_dedup (l : list string) : list string := dedup (sort_by String.compare l).

Definition validate_policy_binding (definition : CapabilityDefinitionBody) (request : RouteRequest)
    (policy : option BoundPolicyEvaluation) : res RouteInputError unit :=
  match policy with
  | None => Ok tt
  | Some policy =>
      let bound_request := BoundPolicyEvaluation.request policy in
      let effect := effect_of definition in
      bail_if bool_decide (ResolvedPermissionRequest.capability bound_request
                           ≠ RouteRequest.capability request)
        with RouteInputError.PolicyCapabilityMismatch;;
      bail_if bool_decide (ResolvedPermissionRequest.effect_class bound_request
                           ≠ CapabilityEffect.class effect)
        with RouteInputError.PolicyEffectClassMismatch (CapabilityEffect.class effect)
               (ResolvedPermissionRequest.effect_class bound_request);;
      bail_if negb (same_members (ResolvedPermissionRequest.critical_actions bound_request)
                      (CapabilityEffect.critical_actions effect))
        with RouteInputError.PolicyCriticalActionsMismatch;;
      let expected_scopes :=
        sort_dedup (map ResourceSelector.scope (CapabilityEffect.resource_selectors effect)) in
      let actual_scopes :=
        sort_dedup (ResolvedPermissionRequest.requested_scopes bound_request) in
      bail_if bool_decide (expected_scopes ≠ actual_scopes)
        with RouteInputError.PolicyScopesMismatch;;
      Ok tt
  end.

(** ** Candidates *)

Definition required_extensions (required : list string) : list string := sort_dedup required.

(** [reasons.push(..)] under a condition. *)
Definition push_if {A} (b : bool) (a : A) : list A := if b then [a] else [].

Definition cost (instance : CapabilityInstanceBody) : option f64 :=
  hints ← CapabilityInstanceBody.hints instance; InstanceHints.monetary_cost hints.
Definition reliability (instance : CapabilityInstanceBody) : option f64 :=
  hints ← CapabilityInstanceBody.hints instance; InstanceHints.reliability hints.
Definition latency (instance : CapabilityInstanceBody) : option N :=
  hints ← CapabilityInstanceBody.hints instance; InstanceHints.latency_ms hints.

(** The reasons [evaluate_candidate] pushes, in order. *)
Definition candidate_reasons (instance : CapabilityInstanceBody)
    (definition : CapabilityDefinitionBody) (request : RouteRequest) : list RouteReason :=
  let platform := CapabilityInstanceBody.platform instance in
  let target := RouteRequest.target_platform request in
  let features := CapabilityInstanceBody.features instance in
  let required := RouteRequest.required_features request in
  let style := RequiredRouteFeatures.execution_style required in
  push_if (bool_decide (Platform.os platform ≠ OperatingSystem.Any) &&
           bool_decide (Platform.os platform ≠ Platform.os target))
    RouteReason.PlatformOsMismatch ++
  push_if (bool_decide (Platform.arch platform ≠ Architecture.Any) &&
           bool_decide (Platform.arch platform ≠ Platform.arch target))
    RouteReason.PlatformArchitectureMismatch ++
  match Health.status (CapabilityInstanceBody.health instance) with
  | HealthStatus.Available => []
  | HealthStatus.Degraded => [RouteReason.HealthDegraded]
  | HealthStatus.Unavailable => [RouteReason.HealthUnavailable]
  | HealthStatus.Unknown => [RouteReason.HealthUnknown]
  end ++
  match Auth.state (CapabilityInstanceBody.auth instance) with
  | AuthState.NotRequired | AuthState.Available => []
  | AuthState.Required => [RouteReason.AuthRequired]
  | AuthState.Expired => [RouteReason.AuthExpired]
  end ++
  push_if (negb (bool_decide (CapabilityInstanceBody.trust instance
                              ∈ RouteRequest.allowed_trust_levels request)))
    RouteReason.TrustNotAllowed ++
  push_if (negb (bool_decide (CapabilityInstanceBody.data_boundary instance
                              ∈ RouteRequest.allowed_data_boundaries request)))
    RouteReason.DataBoundaryNotAllowed ++
  map RouteReason.DefinitionExtensionUnsupported
    (required_extensions (CapabilityDefinitionBody.required_extensions definition)) ++
  map RouteReason.InstanceExtensionUnsupported
    (required_extensions (CapabilityInstanceBody.required_extensions instance)) ++
  push_if (negb match style with
                | ExecutionStyle.Sync => InstanceFeatures.sync features
                | ExecutionStyle.Task => InstanceFeatures.task features
                end)
    (RouteReason.ExecutionStyleUnsupported style) ++
  push_if (RequiredRouteFeatures.cancellation required && negb (InstanceFeatures.cancellable features))
    RouteReason.CancellationUnsupported ++
  push_if (RequiredRouteFeatures.idempotency_key required &&
           negb (CapabilityExecution.idempotency_key_supported
                   (CapabilitySpec.execution (CapabilityDefinitionBody.spec definition))))
    RouteReason.IdempotencyKeyUnsupported ++
  push_if (RequiredRouteFeatures.idempotency_query required
           && negb (InstanceFeatures.idempotency_query features))
    RouteReason.IdempotencyQueryUnsupported ++
  push_if match cost instance with
          | Some cost => negb (is_finite cost) || f64_lt_zero cost
          | None => false
          end RouteReason.InvalidCostHint ++
  push_if match reliability instance with
          | Some reliability =>
              negb (is_finite reliability) || negb (f64_le 0%N reliability && f64_le reliability f64_one)
          | None => false
          end RouteReason.InvalidReliabilityHint.

Definition evaluate_candidate (instance : CapabilityInstanceBody)
    (definition : CapabilityDefinitionBody) (request : RouteRequest) : RouteCandidateEvaluation :=
  let reasons := candidate_reasons instance definition request in
  RouteCandidateEvaluation.mk (CapabilityInstanceBody.instance_id instance)
    (if existsb RouteReason.rejects_candidate reasons then CandidateEligibility.Rejected
     else CandidateEligibility.PlacementEligible)
    reasons.

(** ** Ranking *)

Definition health_rank (status : HealthStatus) : N :=
  match status with
  | HealthStatus.Available => 0
  | HealthStatus.Degraded => 1
  | HealthStatus.Unavailable | HealthStatus.Unknown => 2
  end.

(** [position(..).unwrap_or(usize::MAX)]. *)
Definition preference_rank {A} `{EqDecision A} (preference : list A) (value : A) : N :=
  match list_find (λ candidate, candidate = value) preference with
  | Some (position, _) => N.of_nat position
  | None => usize_max
  end.

Definition normalize_zero (value : f64) : f64 := if is_zero value then 0%N else value.

Definition compare_optional_ord_asc (left right : option N) : comparison :=
  match left, right with
  | Some l, Some r => N.compare l r
  | Some _, None => Lt
  | None, Some _ => Gt
  | None, None => Eq
  end.

Definition compare_optional_f64_asc (left right : option f64) : comparison :=
  match left, right with
  | Some l, Some r => total_cmp (normalize_zero l) (normalize_zero r)
  | Some _, None => Lt
  | None, Some _ => Gt
  | None, None => Eq
  end.

Definition compare_optional_f64_desc (left right : option f64) : comparison :=
  match left, right with
  | Some l, Some r => total_cmp (normalize_zero r) (normalize_zero l)
  | Some _, None => Lt
  | None, Some _ => Gt
  | None, None => Eq
  end.

Definition compare_candidates (request : RouteRequest) (left right : CapabilityInstanceBody)
    : comparison :=
  let health i := health_rank (Health.status (CapabilityInstanceBody.health i)) in
  let trust i :=
    preference_rank (RouteRequest.trust_preference request) (CapabilityInstanceBody.trust i) in
  let boundary i :=
    preference_rank (RouteRequest.data_boundary_preference request)
      (CapabilityInstanceBody.data_boundary i) in
  let preferred i :=
    preference_rank (RouteRequest.preferred_instance_ids request)
      (CapabilityInstanceBody.instance_id i) in
  then_with (N.compare (health left) (health right))
    (then_with (compare_optional_f64_desc (reliability left) (reliability right))
    (then_with (N.compare (trust left) (trust right))
    (then_with (N.compare (boundary left) (boundary right))
    (then_with (compare_optional_ord_asc (latency left) (latency right))
    (then_with (compare_optional_f64_asc (cost left) (cost right))
    (then_with (N.compare (preferred left) (preferred right))
       (String.compare (CapabilityInstanceBody.instance_id left)
          (CapabilityInstanceBody.instance_id right)))))))).

(** [iter().position(..)], [remove] and [insert(0, ..)]. *)
Definition pin_first (pin : string) (ranked : list CapabilityInstanceBody)
    : list CapabilityInstanceBody :=
  match list_find (λ instance, CapabilityInstanceBody.instance_id instance = pin) ranked with
  | Some (pin_index, pinned) => pinned :: delete pin_index ranked
  | None => []
  end.

Definition rank_candidates (instances : list CapabilityInstanceBody)
    (candidates : list RouteCandidateEvaluation) (request : RouteRequest) : list string :=
  let eligible := omap (λ p : CapabilityInstanceBody * RouteCandidateEvaluation,
      if bool_decide (RouteCandidateEvaluation.eligibility p.2 = CandidateEligibility.PlacementEligible)
      then Some p.1 else None) (combine instances candidates) in
  let ranked := sort_by (compare_candidates request) eligible in
  let ranked := match RouteRequest.pinned_instance_id request with
                | Some pin => pin_first pin ranked
                | None => ranked
                end in
  map CapabilityInstanceBody.instance_id ranked.

(** ** Gates *)

Definition pin_block_reason (registry : CapabilityRegistry) (request : RouteRequest)
    (candidates : list RouteCandidateEvaluation) : option RouteBlockReason :=
  match RouteRequest.pinned_instance_id request with
  | None => None
  | Some pin =>
      match instance registry pin with
      | None => Some RouteBlockReason.PinnedInstanceNotFound
      | Some instance =>
          if bool_decide (CapabilityInstanceBody.definition instance ≠ RouteRequest.capability request)
          then Some RouteBlockReason.PinnedInstanceCapabilityMismatch
          else
            match List.find (λ candidate,
                    bool_decide (RouteCandidateEvaluation.instance_id candidate = pin)) candidates with
            | Some candidate =>
                if bool_decide (RouteCandidateEvaluation.eligibility candidate
                                ≠ CandidateEligibility.PlacementEligible)
                then Some RouteBlockReason.PinnedInstanceIneligible else None
            | None => Some RouteBlockReason.PinnedInstanceIneligible
            end
      end
  end.

Definition blocked_with_policy (candidates : list RouteCandidateEvaluation)
    (ranked_instance_ids : list string) (reason : RouteBlockReason)
    (policy_reasons : list PolicyReason) : RouteOutcome :=
  RouteOutcome.Blocked ranked_instance_ids candidates [reason] policy_reasons.

Definition blocked (candidates : list RouteCandidateEvaluation) (reason : RouteBlockReason)
    : RouteOutcome :=
  blocked_with_policy candidates [] reason [].

Definition interaction_reasons (definition : CapabilityDefinitionBody) : list RouteInteractionReason :=
  push_if (negb (bool_decide (CapabilityEffect.critical_actions (effect_of definition) = [])))
    RouteInteractionReason.CriticalApprovalRequired
  ++ [RouteInteractionReason.PolicyApprovalRequired].

Definition selection_reason (request : RouteRequest) (candidate_count : N) : RouteSelectionReason :=
  match RouteRequest.pinned_instance_id request with
  | Some _ => RouteSelectionReason.Pinned
  | None =>
      if bool_decide (candidate_count = 1)%N
      then RouteSelectionReason.OnlyPlacementEligibleCandidate
      else RouteSelectionReason.LexicographicRanking
  end.

Definition apply_policy (definition : CapabilityDefinitionBody) (request : RouteRequest)
    (policy : option BoundPolicyEvaluation) (candidates : list RouteCandidateEvaluation)
    (ranked_instance_ids : list string) : RouteOutcome :=
  match BoundPolicyEvaluation.outcome <$> policy with
  | None => blocked_with_policy candidates ranked_instance_ids RouteBlockReason.PolicyMissing []
  | Some (BrokerOutcome.Deny _ reasons) =>
      blocked_with_policy candidates ranked_instance_ids RouteBlockReason.PolicyDenied reasons
  | Some (BrokerOutcome.Ask _ reasons) =>
      RouteOutcome.InteractionRequired ranked_instance_ids candidates
        (interaction_reasons definition) reasons
  | Some (BrokerOutcome.Allow _ _) =>
      if negb (bool_decide (CapabilityEffect.critical_actions (effect_of definition) = [])) then
        RouteOutcome.InteractionRequired ranked_instance_ids candidates
          [RouteInteractionReason.CriticalApprovalRequired] []
      else
        match ranked_instance_ids with
        | [] => blocked candidates RouteBlockReason.NoPlacementEligibleCandidates
        | selected_instance_id :: _ =>
            RouteOutcome.Selected selected_instance_id ranked_instance_ids candidates
              (selection_reason request (len ranked_instance_ids))
        end
  end.

Definition route (registry : CapabilityRegistry) (request : RouteRequest)
    (policy : option BoundPolicyEvaluation) : res RouteInputError RouteOutcome :=
  let? _ := validate_request request in
  let capability := RouteRequest.capability request in
  let? definition := ok_or (definition registry capability)
    (RouteInputError.DefinitionNotFound (CapabilityRef.capability_id capability)
       (CapabilityRef.contract_version capability)) in
  let? _ := validate_policy_binding definition request policy in
  let instances := instances_for registry capability in
  let candidates := map (λ instance, evaluate_candidate instance definition request) instances in
  match pin_block_reason registry request candidates with
  | Some reason => Ok (blocked candidates reason)
  | None =>
      if bool_decide (RouteRequest.pinned_instance_id request = None) && bool_decide (candidates = [])
      then Ok (blocked candidates RouteBlockReason.NoCandidates)
      else
        let ranked_instance_ids := rank_candidates instances candidates request in
        if bool_decide (ranked_instance_ids = []) then
          let reason := match RouteRequest.pinned_instance_id request with
                        | Some _ => RouteBlockReason.PinnedInstanceIneligible
                        | None => RouteBlockReason.NoPlacementEligibleCandidates
                        end in
          Ok (blocked candidates reason)
        else Ok (apply_policy definition request policy candidates ranked_instance_ids)
  end.
