(* ===== verification/RouterTheorems.v ===== *)
(** The registry's invariant, the router's filter, order and gates read as propositions, and what
    a route guarantees of the instance it selects. *)

From S2P Require Import Prelude Text Wire Domain Resolution Broker Registry Router.

(** ** Registration sequences *)

Module Registration.
Inductive Registration : Type :=
| Definition_ (definition : CapabilityDefinitionBody)
| Instance_ (instance : CapabilityInstanceBody).
End Registration.
Abbreviation Registration := Registration.Registration.

(** A refused registration leaves the catalog as it was. *)
Definition register (self : CapabilityRegistry) (r : Registration) : CapabilityRegistry :=
  match match r with
        | Registration.Definition_ d => register_schema_validated_definition self d
        | Registration.Instance_ i => register_schema_validated_instance self i
        end with
  | Ok self' => self'
  | _ => self
  end.

Definition catalog (l : list Registration) : CapabilityRegistry :=
  foldl register CapabilityRegistry.new l.

(** An instance claims no feature its definition lacks. *)
Definition features_within (i : CapabilityInstanceBody) (d : CapabilityDefinitionBody) : Prop :=
  let features := CapabilityInstanceBody.features i in
  let execution := CapabilitySpec.execution (CapabilityDefinitionBody.spec d) in
  (InstanceFeatures.sync features = true → ExecutionStyle.Sync ∈ CapabilityExecution.styles execution) ∧
  (InstanceFeatures.task features = true → ExecutionStyle.Task ∈ CapabilityExecution.styles execution) ∧
  (InstanceFeatures.cancellable features = true → CapabilityExecution.cancellable execution = true).

(** A definition the registry admits. *)
Definition definition_admissible (d : CapabilityDefinitionBody) : Prop :=
  let execution := CapabilitySpec.execution (CapabilityDefinitionBody.spec d) in
  CapabilityDefinitionBody.api_version d = API_VERSION_V1ALPHA1 ∧
  (0 < CapabilityExecution.default_timeout_ms execution
     ≤ CapabilityExecution.max_timeout_ms execution)%N ∧
  (CapabilityExecution.durable_tool_output execution = true →
   CapabilityEffect.class (effect_of d)
     ∈ [EffectClass.ReadOnly; EffectClass.Idempotent; EffectClass.NonIdempotent]).

Record registry_ok (r : CapabilityRegistry) : Prop := {
  rk_definitions k d : CapabilityRegistry.definitions r !! k = Some d →
    DefinitionKey.from_definition d = k ∧ definition_admissible d;
  rk_instances id i : CapabilityRegistry.instances r !! id = Some i →
    CapabilityInstanceBody.instance_id i = id ∧
    CapabilityInstanceBody.api_version i = API_VERSION_V1ALPHA1 ∧
    ∃ d, definition r (CapabilityInstanceBody.definition i) = Some d ∧ features_within i d;
}.

Lemma validate_definition_ok d : validate_definition d = Ok tt ↔ definition_admissible d.
Proof.
  unfold validate_definition, definition_admissible, effect_of. split.
  - intros Hv. res_inv. bool_inv. split_and!; [done|lia..|]. intros Hd. rewrite Hd in *.
    destruct (CapabilityEffect.class _); try done; set_solver.
  - intros (Hver & Ht & Hd). rewrite bool_decide_eq_false_2 by tauto.
    rewrite !bool_decide_eq_false_2 by lia. cbn.
    destruct (CapabilityExecution.durable_tool_output _); [|done]. specialize (Hd eq_refl).
    destruct (CapabilityEffect.class _); try done; set_solver.
Qed.

Lemma validate_features_ok i d : validate_instance_features i d = Ok tt ↔ features_within i d.
Proof.
  unfold validate_instance_features, features_within.
  destruct (InstanceFeatures.sync _), (InstanceFeatures.task _), (InstanceFeatures.cancellable _),
    (CapabilityExecution.cancellable _); cbn; repeat case_bool_decide; cbn; naive_solver.
Qed.

Lemma registry_new_ok : registry_ok CapabilityRegistry.new.
Proof. split; cbn; intros *; by rewrite lookup_empty. Qed.

Lemma register_definition_ok r d r' :
  registry_ok r → register_schema_validated_definition r d = Ok r' → registry_ok r'.
Proof.
  intros [I1 I2] Hr. unfold register_schema_validated_definition in Hr. res_inv.
  destruct a. apply validate_definition_ok in Heqr0. apply eq_None_not_Some in Hb.
  split; cbn.
  - intros k d' [[<- <-]|[_ Hk]]%lookup_insert_Some; [done|by apply I1].
  - intros id i Hi. destruct (I2 _ _ Hi) as (? & ? & d' & Hd & ?). split_and!; [done..|].
    exists d'. split; [|done]. unfold definition in *. cbn. rewrite lookup_insert_ne; [done|].
    intros Hk. unfold DefinitionKey.from_reference in Hd. congruence.
Qed.

Lemma register_instance_ok r i r' :
  registry_ok r → register_schema_validated_instance r i = Ok r' → registry_ok r'.
Proof.
  intros [I1 I2] Hr. unfold register_schema_validated_instance in Hr. res_inv.
  match goal with u : unit |- _ => destruct u end. rewrite validate_features_ok in *.
  split; cbn; [exact I1|].
  intros id i' [[<- <-]|[_ Hk]]%lookup_insert_Some; [|by apply I2].
  split_and!; [done..|]. by eexists.
Qed.

Lemma register_ok r x : registry_ok r → registry_ok (register r x).
Proof.
  intros Hr. unfold register. destruct x as [d|i].
  - destruct (register_schema_validated_definition r d) eqn:E; [|done..].
    by eapply register_definition_ok.
  - destruct (register_schema_validated_instance r i) eqn:E; [|done..].
    by eapply register_instance_ok.
Qed.

Lemma catalog_ok l : registry_ok (catalog l).
Proof.
  unfold catalog. generalize registry_new_ok. generalize CapabilityRegistry.new.
  induction l as [|x l IH]; intros r Hr; cbn; [done|]. by apply IH, register_ok.
Qed.

(** Registration only adds. *)
Lemma register_extends r x :
  CapabilityRegistry.definitions r ⊆ CapabilityRegistry.definitions (register r x) ∧
  CapabilityRegistry.instances r ⊆ CapabilityRegistry.instances (register r x).
Proof.
  unfold register. destruct x as [d|i].
  - destruct (register_schema_validated_definition r d) as [r'| |] eqn:E; [|done..].
    unfold register_schema_validated_definition in E. res_inv. cbn. split; [|done].
    by apply insert_subseteq, eq_None_not_Some.
  - destruct (register_schema_validated_instance r i) as [r'| |] eqn:E; [|done..].
    unfold register_schema_validated_instance in E. res_inv. cbn. split; [done|].
    by apply insert_subseteq, eq_None_not_Some.
Qed.

(** ** The order of candidates *)

Lemma compare_candidates_lexi request :
  compare_candidates request =
  let health i := health_rank (Health.status (CapabilityInstanceBody.health i)) in
  lexi (on health N.compare)
    (lexi (on reliability (none_last (desc (on normalize_zero total_cmp))))
    (lexi (on (λ i, preference_rank (RouteRequest.trust_preference request)
                      (CapabilityInstanceBody.trust i)) N.compare)
    (lexi (on (λ i, preference_rank (RouteRequest.data_boundary_preference request)
                      (CapabilityInstanceBody.data_boundary i)) N.compare)
    (lexi (on latency (none_last N.compare))
    (lexi (on cost (none_last (on normalize_zero total_cmp)))
    (lexi (on (λ i, preference_rank (RouteRequest.preferred_instance_ids request)
                      (CapabilityInstanceBody.instance_id i)) N.compare)
       (on CapabilityInstanceBody.instance_id String.compare))))))).
Proof. reflexivity. Qed.

#[export] Instance compare_candidates_lawful request : Lawful (compare_candidates request).
Proof. rewrite compare_candidates_lexi. cbv zeta. apply _. Qed.

Lemma then_with_eq a b : then_with a b = Eq ↔ a = Eq ∧ b = Eq.
Proof. destruct a; cbn; naive_solver. Qed.

(** Candidates tie only on their id. *)
Lemma compare_candidates_tie request i j :
  compare_candidates request i j = Eq →
  CapabilityInstanceBody.instance_id i = CapabilityInstanceBody.instance_id j.
Proof.
  unfold compare_candidates. rewrite !then_with_eq. intros (_ & _ & _ & _ & _ & _ & _ & H).
  by apply String.compare_eq_iff.
Qed.

(** ** The hard filter *)

(** An instance may be placed for a request. *)
Record placeable (i : CapabilityInstanceBody) (d : CapabilityDefinitionBody) (request : RouteRequest)
    : Prop := {
  pl_os : Platform.os (CapabilityInstanceBody.platform i) = OperatingSystem.Any ∨
    Platform.os (CapabilityInstanceBody.platform i) = Platform.os (RouteRequest.target_platform request);
  pl_arch : Platform.arch (CapabilityInstanceBody.platform i) = Architecture.Any ∨
    Platform.arch (CapabilityInstanceBody.platform i)
      = Platform.arch (RouteRequest.target_platform request);
  pl_health : Health.status (CapabilityInstanceBody.health i)
    ∈ [HealthStatus.Available; HealthStatus.Degraded];
  pl_auth : Auth.state (CapabilityInstanceBody.auth i) ∈ [AuthState.NotRequired; AuthState.Available];
  pl_trust : CapabilityInstanceBody.trust i ∈ RouteRequest.allowed_trust_levels request;
  pl_boundary : CapabilityInstanceBody.data_boundary i ∈ RouteRequest.allowed_data_boundaries request;
  pl_definition_extensions : CapabilityDefinitionBody.required_extensions d = [];
  pl_instance_extensions : CapabilityInstanceBody.required_extensions i = [];
  pl_style : match RequiredRouteFeatures.execution_style (RouteRequest.required_features request) with
    | ExecutionStyle.Sync => InstanceFeatures.sync (CapabilityInstanceBody.features i)
    | ExecutionStyle.Task => InstanceFeatures.task (CapabilityInstanceBody.features i)
    end = true;
  pl_cancellation :
    RequiredRouteFeatures.cancellation (RouteRequest.required_features request) = true →
    InstanceFeatures.cancellable (CapabilityInstanceBody.features i) = true;
  pl_key : RequiredRouteFeatures.idempotency_key (RouteRequest.required_features request) = true →
    CapabilityExecution.idempotency_key_supported
      (CapabilitySpec.execution (CapabilityDefinitionBody.spec d)) = true;
  pl_query : RequiredRouteFeatures.idempotency_query (RouteRequest.required_features request) = true →
    InstanceFeatures.idempotency_query (CapabilityInstanceBody.features i) = true;
  pl_cost c : cost i = Some c → is_finite c = true ∧ f64_lt_zero c = false;
  pl_reliability r : reliability i = Some r →
    is_finite r = true ∧ f64_le 0%N r = true ∧ f64_le r f64_one = true;
}.

Lemma sort_dedup_nil l : sort_dedup l = [] ↔ l = [].
Proof.
  split; [|by intros ->]. intros H. destruct l as [|x l]; [done|].
  assert (Hx : x ∈ sort_dedup (x :: l)).
  { unfold sort_dedup. rewrite elem_of_dedup, sort_by_perm. left. }
  rewrite H in Hx. set_solver.
Qed.

Lemma existsb_push {A} (f : A → bool) b a : existsb f (push_if b a) = b && f a.
Proof. destruct b; cbn; [by rewrite orb_false_r|done]. Qed.

Lemma existsb_map_true {A} (f : A → RouteReason) l :
  (∀ a, RouteReason.rejects_candidate (f a) = true) →
  existsb RouteReason.rejects_candidate (map f l) = negb (bool_decide (l = [])).
Proof. intros Hf. destruct l as [|a l]; [done|]. cbn. by rewrite Hf. Qed.

Lemma not_ne {A} `{EqDecision A} (a b : A) : ¬ a ≠ b ↔ a = b.
Proof. split; [apply dec_stable|tauto]. Qed.

Lemma bool_implies a b : a = false ∨ b = true ↔ (a = true → b = true).
Proof. destruct a, b; naive_solver. Qed.

Lemma health_accepted s :
  existsb RouteReason.rejects_candidate
    match s with
    | HealthStatus.Available => []
    | HealthStatus.Degraded => [RouteReason.HealthDegraded]
    | HealthStatus.Unavailable => [RouteReason.HealthUnavailable]
    | HealthStatus.Unknown => [RouteReason.HealthUnknown]
    end = false ↔ s ∈ [HealthStatus.Available; HealthStatus.Degraded].
Proof. rewrite !elem_of_cons, elem_of_nil. destruct s; cbn; naive_solver. Qed.

Lemma auth_accepted s :
  existsb RouteReason.rejects_candidate
    match s with
    | AuthState.NotRequired | AuthState.Available => []
    | AuthState.Required => [RouteReason.AuthRequired]
    | AuthState.Expired => [RouteReason.AuthExpired]
    end = false ↔ s ∈ [AuthState.NotRequired; AuthState.Available].
Proof. rewrite !elem_of_cons, elem_of_nil. destruct s; cbn; naive_solver. Qed.

Lemma hint_accepted (o : option f64) (bad : f64 → bool) :
  match o with Some v => bad v | None => false end = false ↔ ∀ v, o = Some v → bad v = false.
Proof. destruct o; naive_solver. Qed.

(** The filter decides [placeable]. *)
Lemma eligible_iff i d request :
  RouteCandidateEvaluation.eligibility (evaluate_candidate i d request)
    = CandidateEligibility.PlacementEligible ↔ placeable i d request.
Proof.
  unfold evaluate_candidate. cbn [RouteCandidateEvaluation.eligibility].
  trans (existsb RouteReason.rejects_candidate (candidate_reasons i d request) = false);
    [by destruct (existsb _ _)|].
  unfold candidate_reasons. rewrite !existsb_app, !existsb_push, !existsb_map_true by done.
  unfold required_extensions. rewrite !orb_false_iff.
  cbn [RouteReason.rejects_candidate]. rewrite !andb_true_r, !andb_false_iff, !negb_false_iff.
  rewrite !bool_decide_eq_false, !bool_decide_eq_true, !sort_dedup_nil, !not_ne, !bool_implies,
    health_accepted, auth_accepted, !hint_accepted.
  setoid_rewrite orb_false_iff. setoid_rewrite negb_false_iff. setoid_rewrite andb_true_iff.
  split; [by intros (? & ? & ? & ? & ? & ? & ? & ? & ? & ? & ? & ? & ? & ?)|].
  intros []. by repeat (split; [done|]).
Qed.

(** ** Instances of a catalog *)

Section catalog.
Context (r : CapabilityRegistry) (Hr : registry_ok r).

Lemma elem_of_instances_for reference i :
  i ∈ instances_for r reference ↔
  instance r (CapabilityInstanceBody.instance_id i) = Some i ∧
  CapabilityInstanceBody.definition i = reference.
Proof.
  unfold instances_for, instances, instance. rewrite list_elem_of_filter, elem_of_btree_values. split.
  - intros [Hk [id Hi]]. destruct (rk_instances _ Hr _ _ Hi) as (Hid & _). rewrite Hid.
    split; [done|]. unfold DefinitionKey.from_reference in Hk.
    destruct (CapabilityInstanceBody.definition i), reference. cbn in Hk. by simplify_eq.
  - intros [Hi <-]. split; [done|]. by eexists.
Qed.

(** Instances are listed in the order of their ids. *)
Lemma instances_ids :
  map CapabilityInstanceBody.instance_id (instances r) = btree_keys (CapabilityRegistry.instances r).
Proof.
  unfold instances, btree_values. rewrite <-btree_entries_keys, map_map. apply map_ext_in.
  intros [k i] Hin. apply list_elem_of_In, elem_of_btree_entries in Hin. cbn.
  by destruct (rk_instances _ Hr _ _ Hin).
Qed.

Lemma NoDup_instances : NoDup (instances r).
Proof.
  apply (NoDup_fmap_1 CapabilityInstanceBody.instance_id).
  change (NoDup (map CapabilityInstanceBody.instance_id (instances r))).
  rewrite instances_ids. apply NoDup_btree_keys.
Qed.

Lemma instances_for_unique reference i j :
  i ∈ instances_for r reference → j ∈ instances_for r reference →
  CapabilityInstanceBody.instance_id i = CapabilityInstanceBody.instance_id j → i = j.
Proof. rewrite !elem_of_instances_for. intros [Hi _] [Hj _] E. rewrite E in Hi. congruence. Qed.

(** The pin is judged by the instance it names alone. *)
Lemma pin_block_reason_eq d request pin i :
  RouteRequest.pinned_instance_id request = Some pin → instance r pin = Some i →
  CapabilityInstanceBody.definition i = RouteRequest.capability request →
  pin_block_reason r request
    (map (λ i, evaluate_candidate i d request) (instances_for r (RouteRequest.capability request)))
  = if bool_decide (RouteCandidateEvaluation.eligibility (evaluate_candidate i d request)
                    ≠ CandidateEligibility.PlacementEligible)
    then Some RouteBlockReason.PinnedInstanceIneligible else None.
Proof.
  intros Hpin Hi Hd. unfold pin_block_reason. rewrite Hpin, Hi, Hd, bool_decide_eq_false_2 by tauto.
  destruct (rk_instances _ Hr _ _ Hi) as (Hid & _).
  assert (Hin : i ∈ instances_for r (RouteRequest.capability request))
    by (apply elem_of_instances_for; by rewrite Hid).
  destruct (List.find _ _) as [c|] eqn:Hf.
  - apply List.find_some in Hf as [Hc Hcp]. bool_inv.
    apply list_elem_of_In, list_elem_of_fmap in Hc as (j & -> & Hj). cbn in Hcp.
    by rewrite (instances_for_unique _ i j Hin Hj) by congruence.
  - pose proof (List.find_none _ _ Hf (evaluate_candidate i d request)) as Hn. exfalso.
    cut (false = true); [done|]. rewrite <-Hn; [cbn; by apply bool_decide_eq_true_2|].
    apply list_elem_of_In, list_elem_of_fmap. by exists i.
Qed.

End catalog.

(** ** Ranking *)

(** The instances that pass the hard filter. *)
Definition eligible (d : CapabilityDefinitionBody) (request : RouteRequest)
    (l : list CapabilityInstanceBody) : list CapabilityInstanceBody :=
  filter (λ i, RouteCandidateEvaluation.eligibility (evaluate_candidate i d request)
               = CandidateEligibility.PlacementEligible) l.

Definition ranked_of (request : RouteRequest) (l : list CapabilityInstanceBody) : list string :=
  map CapabilityInstanceBody.instance_id
    match RouteRequest.pinned_instance_id request with
    | Some pin => pin_first pin (sort_by (compare_candidates request) l)
    | None => sort_by (compare_candidates request) l
    end.

Lemma rank_candidates_eq d request l :
  rank_candidates l (map (λ i, evaluate_candidate i d request) l) request
  = ranked_of request (eligible d request l).
Proof.
  unfold rank_candidates, ranked_of. do 2 f_equal.
  assert (E : omap (λ p : CapabilityInstanceBody * RouteCandidateEvaluation,
    if bool_decide (RouteCandidateEvaluation.eligibility p.2 = CandidateEligibility.PlacementEligible)
    then Some p.1 else None) (combine l (map (λ i, evaluate_candidate i d request) l))
    = eligible d request l).
  { unfold eligible. induction l as [|i l IH]; [done|]. cbn [map combine omap list_omap].
    rewrite filter_cons. cbn [snd fst]. case_decide as Hd.
    - rewrite bool_decide_eq_true_2 by done. by rewrite <-IH.
    - by rewrite bool_decide_eq_false_2. }
  by rewrite E.
Qed.

Lemma sublist_sorted {A} (R : A → A → Prop) (l1 l2 : list A) :
  l1 `sublist_of` l2 → StronglySorted R l2 → StronglySorted R l1.
Proof.
  induction 1 as [|x l1 l2 Hl IH|x l1 l2 Hl IH]; [done|..]; intros [Hs Hx]%StronglySorted_inv; [|auto].
  constructor; [auto|]. rewrite Forall_forall in Hx |- *. intros y Hy. apply Hx.
  by eapply elem_of_sublist.
Qed.

Lemma pin_first_Some pin l :
  pin_first pin l ≠ [] →
  ∃ i l', pin_first pin l = i :: l' ∧ CapabilityInstanceBody.instance_id i = pin ∧ i :: l' ≡ₚ l ∧
    l' `sublist_of` l.
Proof.
  unfold pin_first. destruct (list_find _ _) as [[k i]|] eqn:E; [|done]. intros _.
  apply list_find_Some in E as (Hk & Hi & _). exists i, (delete k l).
  split_and!; [done..| |apply sublist_delete]. symmetry. by apply delete_Permutation.
Qed.

Lemma pin_first_nil pin l :
  pin_first pin l = [] ↔ ∀ i, i ∈ l → CapabilityInstanceBody.instance_id i ≠ pin.
Proof.
  unfold pin_first. destruct (list_find _ _) as [[k i]|] eqn:E.
  - apply list_find_Some in E as (Hk & Hi & _). split; [done|]. intros H.
    destruct (H i); [by eapply list_elem_of_lookup_2|done].
  - apply list_find_None in E. rewrite Forall_forall in E. naive_solver.
Qed.

(** The order the candidates come in does not matter. *)
Lemma ranked_of_perm r request l1 l2 reference :
  registry_ok r → l1 ⊆ instances_for r reference → l1 ≡ₚ l2 →
  ranked_of request l1 = ranked_of request l2.
Proof.
  intros Hr Hsub Hp. unfold ranked_of.
  assert (E : sort_by (compare_candidates request) l1 = sort_by (compare_candidates request) l2).
  { apply (StronglySorted_unique_strong (cmp_le (compare_candidates request)));
      [|apply sort_by_sorted; apply _..|by rewrite !sort_by_perm].
    intros i j Hi Hj. rewrite sort_by_perm in Hi. rewrite sort_by_perm, <-Hp in Hj.
    unfold cmp_le. rewrite (lawful_opp (cmp := compare_candidates request) i j).
    destruct (compare_candidates request i j) eqn:Hc; cbn; [|done..]. intros _ _.
    apply (instances_for_unique r Hr reference); [by apply Hsub..|].
    by eapply compare_candidates_tie. }
  by rewrite E.
Qed.

(** ** The route, step by step *)

Definition candidates_for (r : CapabilityRegistry) (d : CapabilityDefinitionBody)
    (request : RouteRequest) : list RouteCandidateEvaluation :=
  map (λ i, evaluate_candidate i d request) (instances_for r (RouteRequest.capability request)).

(** The outcome, once the request and the policy are accepted. *)
Definition decide_route (r : CapabilityRegistry) (d : CapabilityDefinitionBody)
    (request : RouteRequest) (policy : option BoundPolicyEvaluation) : RouteOutcome :=
  let candidates := candidates_for r d request in
  let ranked :=
    ranked_of request (eligible d request (instances_for r (RouteRequest.capability request))) in
  match pin_block_reason r request candidates, ranked with
  | Some reason, _ => blocked candidates reason
  | None, _ :: _ => apply_policy d request policy candidates ranked
  | None, [] =>
      blocked candidates
        match RouteRequest.pinned_instance_id request, candidates with
        | Some _, _ => RouteBlockReason.PinnedInstanceIneligible
        | None, [] => RouteBlockReason.NoCandidates
        | None, _ => RouteBlockReason.NoPlacementEligibleCandidates
        end
  end.

Lemma route_ok r request policy outcome :
  route r request policy = Ok outcome ↔
  ∃ d, validate_request request = Ok tt ∧
    definition r (RouteRequest.capability request) = Some d ∧
    validate_policy_binding d request policy = Ok tt ∧ outcome = decide_route r d request policy.
Proof.
  unfold route. rewrite rbind_ok. split.
  - intros ([] & Hv & (d & Hd & ([] & Hp & Hr)%rbind_ok)%rbind_ok). exists d.
    destruct (definition r _) as [d'|] eqn:E; cbn in Hd; simplify_eq. split_and!; [done..|].
    revert Hr. unfold decide_route. rewrite rank_candidates_eq. fold (candidates_for r d request).
    destruct (pin_block_reason _ _ _); [by intros [= <-]|].
    destruct (ranked_of _ _) eqn:Hranked; [|
      destruct (bool_decide _ && bool_decide _) eqn:Hb; [|by intros [= <-]]].
    + destruct (RouteRequest.pinned_instance_id request), (candidates_for r d request); cbn;
        by intros [= <-].
    + bool_inv. unfold candidates_for in *. destruct (instances_for r _); [|done].
      match goal with H : RouteRequest.pinned_instance_id _ = None |- _ =>
        by (unfold ranked_of in Hranked; rewrite H in Hranked) end.
  - intros (d & Hv & Hd & Hp & ->). exists tt. split; [done|]. rewrite Hd. cbn. rewrite Hp. cbn.
    rewrite rank_candidates_eq. fold (candidates_for r d request). unfold decide_route.
    destruct (pin_block_reason _ _ _); [done|].
    destruct (ranked_of _ _) eqn:Hranked.
    + destruct (RouteRequest.pinned_instance_id request), (candidates_for r d request); done.
    + destruct (bool_decide _ && bool_decide _) eqn:Hb; [|done].
      bool_inv. unfold candidates_for in *. destruct (instances_for r _); [|done].
      match goal with H : RouteRequest.pinned_instance_id _ = None |- _ =>
        by (unfold ranked_of in Hranked; rewrite H in Hranked) end.
Qed.

(** What registration and routing promise: the catalog stays consistent, a selected instance has
    passed every filter and gate, the ranking is the sorted list of the placeable instances,
    and instances that fail the filter have no influence. *)

(** The catalog is consistent after any sequence of registrations, refused ones included:
    every entry is filed under its own key and passes its checks, every instance's exact
    definition is present and the instance claims no feature it lacks; and later
    registrations never replace or remove an entry. *)
Theorem catalog_consistent (l later : list Registration) :
  let r := catalog l in
  (∀ k d, CapabilityRegistry.definitions r !! k = Some d →
     DefinitionKey.from_definition d = k ∧ definition_admissible d) ∧
  (∀ id i, instance r id = Some i →
     CapabilityInstanceBody.instance_id i = id ∧
     CapabilityInstanceBody.api_version i = API_VERSION_V1ALPHA1 ∧
     ∃ d, definition r (CapabilityInstanceBody.definition i) = Some d ∧ features_within i d) ∧
  (∀ reference d, definition r reference = Some d → definition (catalog (l ++ later)) reference = Some d) ∧
  (∀ id i, instance r id = Some i → instance (catalog (l ++ later)) id = Some i).
Proof.
  cbv zeta. destruct (catalog_ok l) as [H1 H2].
  assert (Hext : CapabilityRegistry.definitions (catalog l)
                   ⊆ CapabilityRegistry.definitions (catalog (l ++ later)) ∧
                 CapabilityRegistry.instances (catalog l)
                   ⊆ CapabilityRegistry.instances (catalog (l ++ later))).
  { unfold catalog. rewrite foldl_app. generalize (foldl register CapabilityRegistry.new l).
    induction later as [|x later IH]; intros r; cbn; [done|].
    destruct (register_extends r x) as [Hd Hi], (IH (register r x)) as [Hd' Hi'].
    split; [by trans (CapabilityRegistry.definitions (register r x))|
            by trans (CapabilityRegistry.instances (register r x))]. }
  destruct Hext as [Hd Hi]. split_and!; [done..| |].
  - intros reference d Hr. exact (lookup_weaken _ _ _ _ Hr Hd).
  - intros id i Hr. exact (lookup_weaken _ _ _ _ Hr Hi).
Qed.

(** ** Selection *)

Lemma apply_policy_selected d request policy candidates ranked id ranked' candidates' reason :
  apply_policy d request policy candidates ranked
    = RouteOutcome.Selected id ranked' candidates' reason →
  (∃ rest, ranked = id :: rest) ∧ ranked' = ranked ∧ candidates' = candidates ∧
  reason = selection_reason request (len ranked) ∧
  CapabilityEffect.critical_actions (effect_of d) = [] ∧
  ∃ p auth sources, policy = Some p ∧ BoundPolicyEvaluation.outcome p = BrokerOutcome.Allow auth sources.
Proof.
  unfold apply_policy. destruct policy as [p|]; cbn; [|done].
  destruct (BoundPolicyEvaluation.outcome p) eqn:Ho; try done.
  case_bool_decide as Hc; cbn; [|done]. destruct ranked as [|x rest]; [done|].
  intros [= <- <- <- <-]. split_and!; [by eexists|done..|]. by eexists _, _, _.
Qed.

Lemma sort_dedup_elements l1 l2 x : sort_dedup l1 = sort_dedup l2 → x ∈ l1 ↔ x ∈ l2.
Proof.
  intros H. assert (E : ∀ l, x ∈ sort_dedup l ↔ x ∈ l).
  { intros l. unfold sort_dedup. by rewrite elem_of_dedup, sort_by_perm. }
  by rewrite <-(E l1), <-(E l2), H.
Qed.

Lemma policy_binding_ok d request p :
  validate_policy_binding d request (Some p) = Ok tt →
  let bound := BoundPolicyEvaluation.request p in
  ResolvedPermissionRequest.capability bound = RouteRequest.capability request ∧
  ResolvedPermissionRequest.effect_class bound = CapabilityEffect.class (effect_of d) ∧
  length (ResolvedPermissionRequest.critical_actions bound)
    = length (CapabilityEffect.critical_actions (effect_of d)) ∧
  (∀ s, s ∈ ResolvedPermissionRequest.requested_scopes bound ↔
        s ∈ map ResourceSelector.scope (CapabilityEffect.resource_selectors (effect_of d))).
Proof.
  intros Hv. unfold validate_policy_binding, same_members in Hv. res_inv. bool_inv.
  split_and!; [done..|]. intros s. symmetry. by apply sort_dedup_elements.
Qed.

(** The candidates of a route, in the order of the ranking. *)
Lemma ranked_of_ranking request l :
  match RouteRequest.pinned_instance_id request with
  | None => ∃ l', l' ≡ₚ l ∧ StronglySorted (cmp_le (compare_candidates request)) l' ∧
      ranked_of request l = map CapabilityInstanceBody.instance_id l'
  | Some pin =>
      (ranked_of request l = [] ∧ ∀ i, i ∈ l → CapabilityInstanceBody.instance_id i ≠ pin) ∨
      ∃ i l', CapabilityInstanceBody.instance_id i = pin ∧ i :: l' ≡ₚ l ∧
        StronglySorted (cmp_le (compare_candidates request)) l' ∧
        ranked_of request l = map CapabilityInstanceBody.instance_id (i :: l')
  end.
Proof.
  pose proof (sort_by_sorted (compare_candidates request) l) as Hs.
  pose proof (sort_by_perm (compare_candidates request) l) as Hp.
  unfold ranked_of. destruct (RouteRequest.pinned_instance_id request) as [pin|].
  - destruct (decide (pin_first pin (sort_by (compare_candidates request) l) = [])) as [Hn|Hn].
    + left. rewrite Hn. split; [done|]. setoid_rewrite <-Hp. by apply pin_first_nil.
    + right. destruct (pin_first_Some _ _ Hn) as (i & l' & -> & Hi & Hperm & Hsub).
      exists i, l'. split_and!; [done|by rewrite Hperm|by eapply sublist_sorted|done].
  - by exists (sort_by (compare_candidates request) l).
Qed.

Lemma elem_of_eligible d request l i : i ∈ eligible d request l ↔ i ∈ l ∧ placeable i d request.
Proof. unfold eligible. rewrite list_elem_of_filter, eligible_iff. tauto. Qed.

(** C16: A selected instance has passed every filter and gate: it is registered under that id
    for exactly the requested capability version, it is placeable (platform, health,
    authentication, trust, data boundary, extensions, features, hints), and the policy
    evaluation handed in allows and was made for this capability with the definition's effect
    class and scopes, the definition having no critical action.  The selected instance is the
    pinned one, or without a pin the best of all placeable ones. *)
Theorem route_selects_safely (l : list Registration) (request : RouteRequest)
    (policy : option BoundPolicyEvaluation) (id : string) (ranked : list string)
    (candidates : list RouteCandidateEvaluation) (reason : RouteSelectionReason) :
  route (catalog l) request policy = Ok (RouteOutcome.Selected id ranked candidates reason) →
  ∃ d i p auth sources,
    definition (catalog l) (RouteRequest.capability request) = Some d ∧
    instance (catalog l) id = Some i ∧
    CapabilityInstanceBody.definition i = RouteRequest.capability request ∧
    placeable i d request ∧
    policy = Some p ∧ BoundPolicyEvaluation.outcome p = BrokerOutcome.Allow auth sources ∧
    ResolvedPermissionRequest.capability (BoundPolicyEvaluation.request p)
      = RouteRequest.capability request ∧
    ResolvedPermissionRequest.effect_class (BoundPolicyEvaluation.request p)
      = CapabilityEffect.class (effect_of d) ∧
    (∀ s, s ∈ ResolvedPermissionRequest.requested_scopes (BoundPolicyEvaluation.request p) ↔
          s ∈ map ResourceSelector.scope (CapabilityEffect.resource_selectors (effect_of d))) ∧
    CapabilityEffect.critical_actions (effect_of d) = [] ∧
    match RouteRequest.pinned_instance_id request with
    | Some pin => id = pin
    | None => ∀ j, j ∈ instances_for (catalog l) (RouteRequest.capability request) →
        placeable j d request → cmp_le (compare_candidates request) i j
    end.
Proof.
  intros (d & _ & Hd & Hb & Ho)%route_ok. unfold decide_route in Ho. symmetry in Ho.
  destruct (pin_block_reason _ _ _); [done|].
  destruct (ranked_of _ _) as [|x rest] eqn:Hranked; [done|].
  apply apply_policy_selected in Ho
    as ([rest' [= -> ->]] & -> & -> & -> & Hcrit & p & auth & sources & -> & Hallow).
  destruct (policy_binding_ok _ _ _ Hb) as (Hcap & Hclass & _ & Hscopes).
  set (es := eligible d request (instances_for (catalog l) (RouteRequest.capability request))) in *.
  assert (Hhead : ∃ i, i ∈ es ∧ CapabilityInstanceBody.instance_id i = id ∧
    match RouteRequest.pinned_instance_id request with
    | Some pin => id = pin
    | None => ∀ j, j ∈ es → cmp_le (compare_candidates request) i j
    end).
  { pose proof (ranked_of_ranking request es) as Hr. rewrite Hranked in Hr.
    destruct (RouteRequest.pinned_instance_id request) as [pin|].
    - destruct Hr as [[? _]|(i & l' & Hi & Hp & _ & [= -> _])]; [done|]. exists i.
      split; [rewrite <-Hp; left|done].
    - destruct Hr as ([|i l'] & Hp & Hs & E); [done|].
      apply StronglySorted_inv in Hs as [_ Hs]. injection E as -> _. exists i.
      split; [rewrite <-Hp; left|]. split; [done|]. intros j. rewrite <-Hp.
      intros [->|Hj]%elem_of_cons; [|by rewrite Forall_forall in Hs; apply Hs].
      unfold cmp_le. rewrite (lawful_opp (cmp := compare_candidates request) i i).
      destruct (compare_candidates request i i) eqn:E; cbn; try done.
      pose proof (lawful_opp (cmp := compare_candidates request) i i) as Hopp.
      by rewrite E in Hopp. }
  destruct Hhead as (i & [Hin Hpl]%elem_of_eligible & <- & Hbest).
  apply (elem_of_instances_for _ (catalog_ok l)) in Hin as [Hi Hdef].
  exists d, i, p, auth, sources. split_and!; try done.
  destruct (RouteRequest.pinned_instance_id request); [done|].
  intros j Hj Hpj. apply Hbest. by apply elem_of_eligible.
Qed.

(** ** Ranking *)

(** The ranking and the candidate audit an outcome reports. *)
Definition outcome_ranking (outcome : RouteOutcome) : list string :=
  match outcome with
  | RouteOutcome.Selected _ ranked _ _ | RouteOutcome.InteractionRequired ranked _ _ _
  | RouteOutcome.Blocked ranked _ _ _ => ranked
  end.
Definition outcome_candidates (outcome : RouteOutcome) : list RouteCandidateEvaluation :=
  match outcome with
  | RouteOutcome.Selected _ _ candidates _ | RouteOutcome.InteractionRequired _ candidates _ _
  | RouteOutcome.Blocked _ candidates _ _ => candidates
  end.

Lemma apply_policy_reports d request policy candidates ranked :
  ranked ≠ [] →
  outcome_ranking (apply_policy d request policy candidates ranked) = ranked ∧
  outcome_candidates (apply_policy d request policy candidates ranked) = candidates.
Proof.
  intros Hr. unfold apply_policy. destruct policy as [p|]; cbn; [|done].
  destruct (BoundPolicyEvaluation.outcome p); try done. case_bool_decide; cbn; [|done].
  by destruct ranked.
Qed.

(** A pin that is blocked names no eligible candidate. *)
Lemma pin_block_ineligible r d request reason :
  registry_ok r →
  pin_block_reason r request (candidates_for r d request) = Some reason →
  ∃ pin, RouteRequest.pinned_instance_id request = Some pin ∧
    ∀ i, i ∈ eligible d request (instances_for r (RouteRequest.capability request)) →
      CapabilityInstanceBody.instance_id i ≠ pin.
Proof.
  intros Hr Hb. destruct (RouteRequest.pinned_instance_id request) as [pin|] eqn:Hpin;
    [|by unfold pin_block_reason in Hb; rewrite Hpin in Hb].
  exists pin. split; [done|]. intros i [Hin Hpl]%elem_of_eligible <-.
  apply (elem_of_instances_for r Hr) in Hin as [Hi Hd].
  unfold candidates_for in Hb. rewrite (pin_block_reason_eq r Hr _ _ _ i Hpin Hi Hd) in Hb.
  apply eligible_iff in Hpl. by rewrite Hpl, bool_decide_eq_false_2 in Hb by tauto.
Qed.

(** A route audits every instance of the capability and ranks exactly the placeable ones:
    without a pin the ranking is all of them in the candidate order; with a pin it is the
    pinned instance followed by the others in that order, and empty just when the pin is not
    placeable.  That order is total and ties only on the instance id, so the ranking is unique
    and the sort is given a lawful comparison. *)
Theorem route_ranks_placeable (l : list Registration) (request : RouteRequest)
    (policy : option BoundPolicyEvaluation) (outcome : RouteOutcome) :
  route (catalog l) request policy = Ok outcome →
  Lawful (compare_candidates request) ∧
  (∀ i j, compare_candidates request i j = Eq →
     CapabilityInstanceBody.instance_id i = CapabilityInstanceBody.instance_id j) ∧
  ∃ d placed, definition (catalog l) (RouteRequest.capability request) = Some d ∧
    outcome_candidates outcome = map (λ i, evaluate_candidate i d request)
      (instances_for (catalog l) (RouteRequest.capability request)) ∧
    (∀ i, i ∈ placed ↔ i ∈ instances_for (catalog l) (RouteRequest.capability request) ∧
                      placeable i d request) ∧
    NoDup (map CapabilityInstanceBody.instance_id placed) ∧
    match RouteRequest.pinned_instance_id request with
    | None => StronglySorted (cmp_le (compare_candidates request)) placed ∧
        outcome_ranking outcome = map CapabilityInstanceBody.instance_id placed
    | Some pin =>
        (outcome_ranking outcome = [] ∧
         ∀ i, i ∈ placed → CapabilityInstanceBody.instance_id i ≠ pin) ∨
        ∃ i rest, CapabilityInstanceBody.instance_id i = pin ∧ placed = i :: rest ∧
          StronglySorted (cmp_le (compare_candidates request)) rest ∧
          outcome_ranking outcome = map CapabilityInstanceBody.instance_id placed
    end.
Proof.
  intros (d & _ & Hd & _ & ->)%route_ok. split; [apply _|].
  split; [intros i j; apply compare_candidates_tie|].
  set (es := eligible d request (instances_for (catalog l) (RouteRequest.capability request))).
  assert (Hnd : NoDup (map CapabilityInstanceBody.instance_id es)).
  { apply NoDup_fmap_2_strong.
    - intros i j [Hi _]%elem_of_eligible [Hj _]%elem_of_eligible.
      by apply (instances_for_unique _ (catalog_ok l) (RouteRequest.capability request)).
    - by apply NoDup_filter, NoDup_filter, NoDup_instances, catalog_ok. }
  assert (Hreport : ∃ ranked, outcome_ranking (decide_route (catalog l) d request policy) = ranked ∧
    outcome_candidates (decide_route (catalog l) d request policy) = candidates_for (catalog l) d request
    ∧ (ranked = ranked_of request es ∨ ranked = [] ∧ ∃ pin,
         RouteRequest.pinned_instance_id request = Some pin ∧
         ∀ i, i ∈ es → CapabilityInstanceBody.instance_id i ≠ pin)).
  { unfold decide_route. fold es.
    destruct (pin_block_reason _ _ _) eqn:Hb.
    - eexists. split_and!; [done..|]. right. split; [done|].
      by apply (pin_block_ineligible _ _ _ _ (catalog_ok l) Hb).
    - destruct (ranked_of request es) eqn:Hranked; [by exists []; auto|].
      destruct (apply_policy_reports d request policy (candidates_for (catalog l) d request)
        (s :: l0)) as [-> ->]; [done|]. by eexists; auto. }
  destruct Hreport as (ranked & -> & Hcand & Hranked). exists d.
  pose proof (ranked_of_ranking request es) as Hr.
  assert (Hplaced : ∀ placed, placed ≡ₚ es →
    (∀ i, i ∈ placed ↔ i ∈ instances_for (catalog l) (RouteRequest.capability request) ∧
                      placeable i d request) ∧
    NoDup (map CapabilityInstanceBody.instance_id placed)).
  { intros placed Hp. split; [intros i; rewrite Hp; apply elem_of_eligible|].
    rewrite Hp. exact Hnd. }
  destruct (RouteRequest.pinned_instance_id request) as [pin|] eqn:Hpin.
  - destruct Hranked as [->|(-> & pin' & [= <-] & Hnone)]; [destruct Hr as [[-> Hnone]|Hr]|].
    2: { destruct Hr as (i & rest & Hi & Hp & Hs & ->). destruct (Hplaced _ Hp) as [Hin Hn].
      exists (i :: rest). split_and!; [done..|]. right. by exists i, rest. }
    all: destruct (Hplaced es ltac:(done)) as [Hin Hn]; exists es; split_and!; try done; by left.
  - destruct Hranked as [->|(_ & pin & [=] & _)]. destruct Hr as (placed & Hp & Hs & ->).
    destruct (Hplaced _ Hp) as [Hin Hn]. by exists placed.
Qed.

(** ** Irrelevance of what cannot be placed *)

(** What is selected, out of which ranking and why. *)
Definition selection_of (c : res RouteInputError RouteOutcome)
    : option (string * list string * RouteSelectionReason) :=
  match c with
  | Ok (RouteOutcome.Selected id ranked _ reason) => Some (id, ranked, reason)
  | _ => None
  end.

Lemma selection_policy d request policy candidates candidates' ranked :
  selection_of (Ok (apply_policy d request policy candidates ranked))
  = selection_of (Ok (apply_policy d request policy candidates' ranked)).
Proof.
  unfold apply_policy. destruct policy as [p|]; cbn; [|done].
  destruct (BoundPolicyEvaluation.outcome p); try done. case_bool_decide; cbn; [|done].
  by destruct ranked.
Qed.

(** The selection, read off the pin and the ranking. *)
Lemma selection_decide r d request policy :
  selection_of (Ok (decide_route r d request policy)) =
  match pin_block_reason r request (candidates_for r d request) with
  | Some _ => None
  | None => selection_of (Ok (apply_policy d request policy []
      (ranked_of request (eligible d request (instances_for r (RouteRequest.capability request))))))
  end.
Proof.
  unfold decide_route. destruct (pin_block_reason _ _ _); [done|].
  destruct (ranked_of _ _) eqn:E; [|apply selection_policy].
  unfold apply_policy. destruct policy as [p|]; cbn; [|done].
  destruct (BoundPolicyEvaluation.outcome p); try done. by case_bool_decide.
Qed.

Lemma selection_route r request policy :
  selection_of (route r request policy) =
  match validate_request request, definition r (RouteRequest.capability request) with
  | Ok _, Some d =>
      match validate_policy_binding d request policy with
      | Ok _ => selection_of (Ok (decide_route r d request policy))
      | _ => None
      end
  | _, _ => None
  end.
Proof.
  destruct (validate_request request) as [[]| |] eqn:Hv; [|by unfold route; rewrite Hv..].
  destruct (definition r _) as [d|] eqn:Hd; [|by unfold route; rewrite Hv, Hd].
  destruct (validate_policy_binding d request policy) as [[]| |] eqn:Hb;
    [|by unfold route; rewrite Hv; cbn [rbind]; rewrite Hd; cbn [rbind ok_or]; rewrite Hb..].
  f_equal. apply route_ok. by exists d.
Qed.

(** The pin is judged the same in two catalogs that agree on the instance it names. *)
Lemma pin_block_agree r r' d request pin :
  registry_ok r → registry_ok r' → RouteRequest.pinned_instance_id request = Some pin →
  instance r pin = instance r' pin →
  pin_block_reason r request (candidates_for r d request)
  = pin_block_reason r' request (candidates_for r' d request).
Proof.
  intros Hr Hr' Hpin E. destruct (instance r pin) as [i|] eqn:Hi; symmetry in E.
  - destruct (decide (CapabilityInstanceBody.definition i = RouteRequest.capability request)) as [Hd|Hd].
    + unfold candidates_for. rewrite (pin_block_reason_eq r Hr d request pin i Hpin Hi Hd).
      by rewrite (pin_block_reason_eq r' Hr' d request pin i Hpin E Hd).
    + unfold pin_block_reason. by rewrite Hpin, Hi, E, bool_decide_eq_true_2.
  - unfold pin_block_reason. by rewrite Hpin, Hi, E.
Qed.

(** One more instance, unplaceable, leaves the eligible ones. *)
Lemma eligible_insert r i d request :
  instance r (CapabilityInstanceBody.instance_id i) = None →
  (CapabilityInstanceBody.definition i = RouteRequest.capability request → ¬ placeable i d request) →
  eligible d request (instances_for (CapabilityRegistry.mk (CapabilityRegistry.definitions r)
    (<[CapabilityInstanceBody.instance_id i := i]> (CapabilityRegistry.instances r)))
    (RouteRequest.capability request))
  ≡ₚ eligible d request (instances_for r (RouteRequest.capability request)).
Proof.
  intros Hi Hpl. unfold eligible, instances_for, instances. cbn [CapabilityRegistry.instances].
  rewrite (btree_values_insert _ _ _ Hi), filter_cons. case_decide as Hd; [|done].
  rewrite filter_cons, decide_False; [done|]. rewrite eligible_iff. apply Hpl.
  unfold DefinitionKey.from_reference in Hd.
  destruct (CapabilityInstanceBody.definition i), (RouteRequest.capability request).
  cbn in Hd. by simplify_eq.
Qed.

(** Registering an instance that cannot be placed never changes a route: whatever instance
    is selected, out of which ranking and why stays the same, unless the new instance is the
    pinned one. *)
Theorem unplaceable_is_irrelevant (l : list Registration) (i : CapabilityInstanceBody)
    (request : RouteRequest) (policy : option BoundPolicyEvaluation) :
  (∀ d, definition (catalog l) (RouteRequest.capability request) = Some d →
     CapabilityInstanceBody.definition i = RouteRequest.capability request → ¬ placeable i d request) →
  RouteRequest.pinned_instance_id request ≠ Some (CapabilityInstanceBody.instance_id i) →
  selection_of (route (catalog (l ++ [Registration.Instance_ i])) request policy)
  = selection_of (route (catalog l) request policy).
Proof.
  intros Hpl Hpin. pose proof (catalog_ok (l ++ [Registration.Instance_ i])) as Hok'.
  pose proof (catalog_ok l) as Hok. revert Hok'.
  unfold catalog at 1 2. rewrite foldl_app. fold (catalog l). cbn [foldl]. unfold register.
  destruct (register_schema_validated_instance (catalog l) i) as [r'| |] eqn:Hreg; [|done..].
  intros Hok'. unfold register_schema_validated_instance in Hreg. res_inv. apply eq_None_not_Some in Hb0.
  rewrite !selection_route.
  match type of Hok' with registry_ok ?r' => set (r := r') in * end.
  change (definition r (RouteRequest.capability request))
    with (definition (catalog l) (RouteRequest.capability request)).
  destruct (validate_request request); [|done..].
  destruct (definition (catalog l) (RouteRequest.capability request)) as [d|] eqn:Hd; [|done].
  destruct (validate_policy_binding d request policy); [|done..]. rewrite !selection_decide.
  assert (Hpb : pin_block_reason r request (candidates_for r d request)
    = pin_block_reason (catalog l) request (candidates_for (catalog l) d request)).
  { destruct (RouteRequest.pinned_instance_id request) as [pin|] eqn:E;
      [|unfold pin_block_reason; by rewrite E].
    apply (pin_block_agree _ _ _ _ pin); [done..|]. unfold instance, r. cbn.
    apply lookup_insert_ne. congruence. }
  rewrite Hpb.
  destruct (pin_block_reason (catalog l) request (candidates_for (catalog l) d request)); [done|].
  rewrite (ranked_of_perm r request _ (eligible d request
    (instances_for (catalog l) (RouteRequest.capability request))) (RouteRequest.capability request));
    [done|done|intros j; rewrite elem_of_eligible; tauto|].
  apply eligible_insert; [done|by apply Hpl].
Qed.
