(* ===== verification/PolicyWitnesses.v ===== *)
(** Policy resolution, composition and routing at concrete inputs: top-level JSON pointers, a
    resolver for one scope, a file-reading capability, the layers that allow, ask and deny, and a
    catalog with its routes. *)

From Stdlib Require Import Ascii.
From S2P Require Import Prelude Text Wire Domain Resolution ResolutionTheorems Broker.
From S2P Require Import BrokerTheorems Registry Router RouterTheorems.

Module Policies.

(** ** Pointers to the members of an object *)

Fixpoint member (k : string) (l : list (string * Value)) : option Value :=
  match l with
  | [] => None
  | (k', v) :: l' => if bool_decide (k = k') then Some v else member k l'
  end.

Fixpoint set_member (k : string) (w : Value) (l : list (string * Value))
    : option (list (string * Value)) :=
  match l with
  | [] => None
  | (k', v) :: l' =>
      if bool_decide (k = k') then Some ((k', w) :: l')
      else match set_member k w l' with Some m => Some ((k', v) :: m) | None => None end
  end.

#[export] Instance top_level_pointer : JsonPointer := {
  pointer v p := match p, v with String "/" k, Value.Object l => member k l | _, _ => None end;
  assign_pointer v p w :=
    match p, v with
    | String "/" k, Value.Object l =>
        match set_member k w l with Some m => Some (Value.Object m) | None => None end
    | _, _ => None
    end;
}.

Lemma set_member_defined k w l : is_Some (member k l) → is_Some (set_member k w l).
Proof.
  induction l as [|[k' v] l IH]; cbn; [by intros []|].
  case_bool_decide; [by eexists|]. intros [m ->]%IH. by eexists.
Qed.

Lemma set_member_lookup k k' w l m :
  set_member k w l = Some m → member k' m = if bool_decide (k' = k) then Some w else member k' l.
Proof.
  revert m. induction l as [|[k0 v] l IH]; cbn; intros m Hm; [done|].
  case_bool_decide as Hk; simplify_eq.
  - cbn. by case_bool_decide.
  - destruct (set_member k w l) as [m'|]; simplify_eq. cbn. rewrite (IH _ eq_refl).
    repeat case_bool_decide; congruence.
Qed.

#[export] Instance top_level_pointer_laws : JsonPointerLaws.
Proof.
  split; cbn [pointer assign_pointer top_level_pointer].
  - intros v [|c p] w; [by intros []|]. destruct (decide (c = "/"%char)) as [->|Hc].
    + destruct v; try by intros []. intros [m ->]%(set_member_defined p w). by eexists.
    + destruct c as [[] [] [] [] [] [] [] []]; try done; by intros [].
  - intros v [|c p] w v'; [done|]. destruct (decide (c = "/"%char)) as [->|Hc].
    + destruct v; try done. destruct (set_member p w l) as [m|] eqn:Hm; [|done]. intros [= <-].
      rewrite (set_member_lookup _ _ _ _ _ Hm). by rewrite bool_decide_eq_true_2.
    + by destruct c as [[] [] [] [] [] [] [] []].
  - intros v [|c p] s v' [|d q] t w Hp Hq Hne Hs Ht; try done. cbn in Hp, Hq.
    assert (c = "/"%char) as -> by by destruct c as [[] [] [] [] [] [] [] []].
    assert (d = "/"%char) as -> by by destruct d as [[] [] [] [] [] [] [] []].
    destruct v; try done. destruct (set_member p _ l) as [m|] eqn:Hm; [|done]. intros [= <-].
    rewrite (set_member_lookup _ _ _ _ _ Hm), bool_decide_eq_false_2 by congruence. done.
Qed.

(** ** A capability, its arguments and a resolver *)

#[export] Instance root_resolver : ResourceResolver unit := λ _ scope raw,
  if bool_decide (scope = "filesystem.read") then inr ("/workspace/" +:+ raw)
  else inl ResourceResolutionFailure.UnsupportedScope.

Definition self : PermissionRequestResolver unit := PermissionRequestResolver.new tt.

Definition read_text : CapabilityDefinitionBody :=
  CapabilityDefinitionBody.mk API_VERSION_V1ALPHA1 ∅ []
    (CapabilityMetadata.mk "fs.read_text" "1.0.0" "Read text" ∅)
    (CapabilitySpec.mk "Read a file" (Value.Object []) (Value.Object [])
       (CapabilityEffect.mk EffectClass.ReadOnly
          [ResourceSelector.mk "filesystem.read" "/path"] [])
       [] (CapabilityExecution.mk [ExecutionStyle.Sync] false false false 1000 5000) [] None).

Definition arguments : Value :=
  Value.Object [("encoding", Value.Str "utf-8"); ("path", Value.Str "notes.txt")].

Definition notes : ConcreteResource := ConcreteResource.mk "filesystem.read" "/workspace/notes.txt".

Definition request : ResolvedPermissionRequest :=
  ResolvedPermissionRequest.mk API_VERSION_V1ALPHA1 "request-1" "run-1" "step-1"
    (CapabilityRef.mk "fs.read_text" "1.0.0") EffectClass.ReadOnly ["filesystem.read"] [notes] []
    GrantLifetime.Once.

Definition resolved : ResolvedInvocationRequest :=
  ResolvedInvocationRequest.mk request
    (Value.Object [("encoding", Value.Str "utf-8"); ("path", Value.Str "/workspace/notes.txt")]).

Lemma resolves :
  resolve_invocation self "request-1" "run-1" "step-1" read_text arguments GrantLifetime.Once
  = Ok resolved.
Proof. vm_compute. reflexivity. Qed.

Lemma rfc6901_selectors sel :
  sel ∈ selectors_of read_text → pointer_syntax (ResourceSelector.argument_pointer sel) = true.
Proof. by intros ->%list_elem_of_singleton. Qed.

(** ** Policy layers *)

Definition digest : string :=
  "sha256:0000000000000000000000000000000000000000000000000000000000000000".
Definition source (kind : PolicySourceKind) : PolicySource := PolicySource.mk kind "policy" digest.

Definition allowance : PolicyAllowance :=
  from_trusted_evaluation ["filesystem.read"] [notes] []
    [GrantLifetime.Run; GrantLifetime.Once; GrantLifetime.Run].
Definition host : PolicyContribution :=
  PolicyContribution.allow (source PolicySourceKind.Host) allowance.
Definition user : PolicyContribution :=
  PolicyContribution.ask (source PolicySourceKind.UserProfile) "confirm_read".
Definition lease : PolicyContribution :=
  PolicyContribution.deny (source PolicySourceKind.ManagedLease) "lease_expired".

End Policies.
Import Policies.

Lemma invocation_bound_to_arguments_witness :
  ∃ canonical, selects tt arguments (ResourceSelector.mk "filesystem.read" "/path") canonical ∧
    ConcreteResource.mk "filesystem.read" canonical ∈ [notes] ∧
    pointer (ResolvedInvocationRequest.normalized_arguments resolved) "/path"
      = Some (Value.Str canonical).
Proof.
  destruct (invocation_bound_to_arguments self "request-1" "run-1" "step-1" read_text arguments
    GrantLifetime.Once resolved resolves rfc6901_selectors) as (Hsel & _ & _).
  exact (Hsel (ResourceSelector.mk "filesystem.read" "/path") (list_elem_of_here _ _)).
Defined.

Lemma invocation_resolves_iff_witness :
  is_ok (resolve_invocation self "request-1" "run-1" "step-1" read_text arguments GrantLifetime.Once).
Proof.
  refine (proj2 (invocation_resolves_iff self "request-1" "run-1" "step-1" read_text arguments
    GrantLifetime.Once rfc6901_selectors) _).
  split_and!; try done; [apply NoDup_nil; exact I| | |apply NoDup_singleton].
  - intros sel ->%list_elem_of_singleton. by eexists.
  - by intros sel sel' ->%list_elem_of_singleton ->%list_elem_of_singleton.
Defined.

Lemma resolved_request_well_formed_witness : resolved_wf request.
Proof.
  refine (resolved_request_well_formed self "request-1" "run-1" "step-1" read_text arguments
    GrantLifetime.Once
    (PermissionRequestBody.mk "" ∅ [] "" "" "" (CapabilityRef.mk "" "") EffectClass.Unknown [] [] []
       GrantLifetime.Once "" "") request (or_intror _)).
  exists resolved. split; [exact resolves|reflexivity].
Defined.

(** The router at a concrete catalog: two builtin readers of one capability, one degraded, and a
    third that no request for this host can be placed on. *)

Module Routes.

Definition reader (id : string) (os : OperatingSystem) (status : HealthStatus)
    (hints : option InstanceHints) : CapabilityInstanceBody :=
  CapabilityInstanceBody.mk API_VERSION_V1ALPHA1 ∅ [] id (CapabilityRef.mk "fs.read_text" "1.0.0")
    CapabilitySource.Builtin Placement.Local (Platform.mk os Architecture.Any)
    TrustLevel.Verified DataBoundary.Local (Health.mk status "2025-01-01T00:00:00Z" None)
    (Auth.mk AuthState.NotRequired None) (InstanceFeatures.mk true false false false) hints
    (InstanceBinding.mk "builtin" None None).

(** Reliability 1.0 and cost -0.0. *)
Definition fast : CapabilityInstanceBody :=
  reader "reader-b" OperatingSystem.Linux HealthStatus.Available
    (Some (InstanceHints.mk (Some 5%N) (Some 9223372036854775808%N) (Some f64_one))).
Definition slow : CapabilityInstanceBody :=
  reader "reader-a" OperatingSystem.Any HealthStatus.Degraded None.
Definition foreign : CapabilityInstanceBody :=
  reader "reader-0" OperatingSystem.Windows HealthStatus.Available None.

Definition registrations : list Registration :=
  [Registration.Definition_ Policies.read_text; Registration.Instance_ slow;
   Registration.Instance_ fast; Registration.Instance_ fast].

Definition route_request (pin : option string) : RouteRequest :=
  RouteRequest.mk (CapabilityRef.mk "fs.read_text" "1.0.0")
    (Platform.mk OperatingSystem.Linux Architecture.X86_64)
    (RequiredRouteFeatures.mk ExecutionStyle.Sync false false false)
    [TrustLevel.Verified; TrustLevel.Managed] [DataBoundary.Local] [TrustLevel.Managed] [] [] pin.

Definition evaluation : BoundPolicyEvaluation :=
  BoundPolicyEvaluation.mk Policies.request
    (BrokerOutcome.Allow
       (ProvisionalAuthorization.mk GrantLifetime.Once ["filesystem.read"] [Policies.notes] [])
       [Policies.source PolicySourceKind.Host; Policies.source PolicySourceKind.UserProfile]).

Definition audit : list RouteCandidateEvaluation :=
  [RouteCandidateEvaluation.mk "reader-a" CandidateEligibility.PlacementEligible
     [RouteReason.HealthDegraded];
   RouteCandidateEvaluation.mk "reader-b" CandidateEligibility.PlacementEligible []].

Lemma routed :
  route (catalog registrations) (route_request None) (Some evaluation)
  = Ok (RouteOutcome.Selected "reader-b" ["reader-b"; "reader-a"] audit
          RouteSelectionReason.LexicographicRanking).
Proof. vm_compute. reflexivity. Qed.

Lemma routed_pinned :
  route (catalog registrations) (route_request (Some "reader-a")) None
  = Ok (RouteOutcome.Blocked ["reader-a"; "reader-b"] audit [RouteBlockReason.PolicyMissing] []).
Proof. vm_compute. reflexivity. Qed.

End Routes.
Import Routes.

Lemma route_selects_safely_witness :
  ∃ i, instance (catalog registrations) "reader-b" = Some i ∧
    placeable i Policies.read_text (route_request None).
Proof.
  destruct (route_selects_safely registrations (route_request None) (Some evaluation) "reader-b"
    ["reader-b"; "reader-a"] audit RouteSelectionReason.LexicographicRanking routed)
    as (d & i & p & auth & sources & Hd & Hi & _ & Hpl & _).
  exists i. split; [exact Hi|].
  assert (E : definition (catalog registrations) (CapabilityRef.mk "fs.read_text" "1.0.0")
    = Some Policies.read_text) by (vm_compute; reflexivity).
  pose proof (eq_trans (eq_sym Hd) E) as Ed. injection Ed as Ed. by rewrite Ed in Hpl.
Defined.

Lemma foreign_unplaceable d : ¬ placeable foreign d (route_request None).
Proof. intros H. destruct (pl_os _ _ _ H) as [E|E]; cbn in E; discriminate E. Qed.

