(* ===== verification/StoreTypes.v ===== *)
(** The data of the [xgeny-local-store] crate (crates/xgeny-local-store/src/lib.rs): heads,
    commits and snapshots, stored sidecars, the anchors an index keeps per journal event, the
    verified run index and the error type. *)

From S2P Require Import Prelude Text Wire WorkGraphTypes WorkGraphErrors Planning Material.
From S2P Require Import ToolOutput Completion Receipt.

Module ExpectedHead.
Inductive ExpectedHead : Type := Empty | Exact (sequence : N) (digest : string).
#[global] Instance ExpectedHead_eq_dec : EqDecision ExpectedHead.
Proof. solve_decision. Defined.
Definition from_state (state : RunState) : ExpectedHead :=
  Exact (RunState.journal_sequence state) (RunState.journal_head_digest state).
End ExpectedHead.
Abbreviation ExpectedHead := ExpectedHead.ExpectedHead.

Module Commit.
Record Commit : Type := mk { record : EventRecord; state : RunState }.
End Commit.
Abbreviation Commit := Commit.Commit.

Module RunSnapshot.
Record RunSnapshot : Type := mk { records : list EventRecord; state : RunState }.
End RunSnapshot.
Abbreviation RunSnapshot := RunSnapshot.RunSnapshot.

Module RunVerificationSnapshot.
Record RunVerificationSnapshot : Type := mk {
  state : RunState;
  effect_started_at : option string;
  previous_receipt_digest : option string;
  tool_output : option ToolOutputRecord;
}.
Definition set_tool_output (v : option ToolOutputRecord) (s : RunVerificationSnapshot) :=
  mk (state s) (effect_started_at s) (previous_receipt_digest s) v.
End RunVerificationSnapshot.
Abbreviation RunVerificationSnapshot := RunVerificationSnapshot.RunVerificationSnapshot.

Module RunPlanningSnapshot.
Record RunPlanningSnapshot : Type := mk {
  state : RunState;
  planning_step_order : list string;
  completed_tool_output_order : list string;
  completed_tool_outputs : gmap string ToolOutputRecord;
}.
End RunPlanningSnapshot.
Abbreviation RunPlanningSnapshot := RunPlanningSnapshot.RunPlanningSnapshot.

(** ** Stored sidecars *)

Module StoredExecutionReceipt.
Record StoredExecutionReceipt : Type := mk {
  event_sequence : N;
  effect_id : string;
  receipt : ExecutionReceiptBody;
}.
End StoredExecutionReceipt.
Abbreviation StoredExecutionReceipt := StoredExecutionReceipt.StoredExecutionReceipt.

Module StoredToolOutput.
Record StoredToolOutput : Type := mk { event_sequence : N; record : ToolOutputRecord }.
End StoredToolOutput.
Abbreviation StoredToolOutput := StoredToolOutput.StoredToolOutput.

Module StoredCompletionOutput.
Record StoredCompletionOutput : Type := mk { event_sequence : N; record : CompletionOutputRecord }.
End StoredCompletionOutput.
Abbreviation StoredCompletionOutput := StoredCompletionOutput.StoredCompletionOutput.

(** ** Anchors *)

Module EffectIntentAnchor.
Record EffectIntentAnchor : Type := mk {
  event_sequence : N;
  step_id : string;
  intent : EffectIntent;
}.
#[global] Instance EffectIntentAnchor_eq_dec : EqDecision EffectIntentAnchor.
Proof. solve_decision. Defined.
End EffectIntentAnchor.
Abbreviation EffectIntentAnchor := EffectIntentAnchor.EffectIntentAnchor.

Module EffectStartAnchor.
Record EffectStartAnchor : Type := mk {
  event_sequence : N;
  step_id : string;
  recorded_at : string;
  execution_attempt : N;
}.
#[global] Instance EffectStartAnchor_eq_dec : EqDecision EffectStartAnchor.
Proof. solve_decision. Defined.
End EffectStartAnchor.
Abbreviation EffectStartAnchor := EffectStartAnchor.EffectStartAnchor.

Module PlannedInvocationAnchor.
Record PlannedInvocationAnchor : Type := mk {
  event_sequence : N;
  binding : PlannedInvocationBinding;
}.
#[global] Instance PlannedInvocationAnchor_eq_dec : EqDecision PlannedInvocationAnchor.
Proof. solve_decision. Defined.
End PlannedInvocationAnchor.
Abbreviation PlannedInvocationAnchor := PlannedInvocationAnchor.PlannedInvocationAnchor.

Module StepJournalPosition.
Record StepJournalPosition : Type := mk { event_sequence : N; event_step_index : N }.
#[global] Instance StepJournalPosition_eq_dec : EqDecision StepJournalPosition.
Proof. solve_decision. Defined.
End StepJournalPosition.
Abbreviation StepJournalPosition := StepJournalPosition.StepJournalPosition.

Module ReceiptEventAnchor.
Record ReceiptEventAnchor : Type := mk {
  event_sequence : N;
  run_id : string;
  step_id : string;
  effect_id : string;
  disposition : VerificationDisposition;
  receipt_id : string;
  receipt_digest : string;
  started_at : string;
  ended_at : string;
}.
#[global] Instance ReceiptEventAnchor_eq_dec : EqDecision ReceiptEventAnchor.
Proof. solve_decision. Defined.
End ReceiptEventAnchor.
Abbreviation ReceiptEventAnchor := ReceiptEventAnchor.ReceiptEventAnchor.

Module ToolOutputEventAnchor.
Record ToolOutputEventAnchor : Type := mk {
  event_sequence : N;
  run_id : string;
  step_id : string;
  effect_id : string;
  evidence_digest : string;
  record_digest : string;
  execution_attempt : N;
}.
#[global] Instance ToolOutputEventAnchor_eq_dec : EqDecision ToolOutputEventAnchor.
Proof. solve_decision. Defined.
End ToolOutputEventAnchor.
Abbreviation ToolOutputEventAnchor := ToolOutputEventAnchor.ToolOutputEventAnchor.

Module CompletionOutputEventAnchor.
Record CompletionOutputEventAnchor : Type := mk {
  event_sequence : N;
  run_id : string;
  candidate_id : string;
  turn_index : N;
  model_call_id : string;
  context_digest : string;
  proposal_digest : string;
  summary_digest : string;
  record_digest : string;
}.
#[global] Instance CompletionOutputEventAnchor_eq_dec : EqDecision CompletionOutputEventAnchor.
Proof. solve_decision. Defined.
End CompletionOutputEventAnchor.
Abbreviation CompletionOutputEventAnchor :=
  CompletionOutputEventAnchor.CompletionOutputEventAnchor.

#[export] Instance ReconstructableMaterialReference_eq_dec :
  EqDecision ReconstructableMaterialReference.ReconstructableMaterialReference.
Proof. solve_decision. Defined.
#[export] Instance InvocationMaterialRetention_eq_dec : EqDecision InvocationMaterialRetention.
Proof. solve_decision. Defined.

(** ** What a commit carries beside its event *)

Module CommitSidecars.
Record CommitSidecars : Type := mk {
  plan_inputs_ : option (list PlannedInvocationMaterialRecord);
  material_ : option InvocationMaterialRecord;
  output_ : option ToolOutputRecord;
  completion_output_ : option CompletionOutputRecord;
  receipt_ : option ExecutionReceiptBody;
}.
Definition default : CommitSidecars := mk None None None None None.
Definition plan_inputs (inputs : list PlannedInvocationMaterialRecord) : CommitSidecars :=
  mk (Some inputs) None None None None.
Definition material (material : InvocationMaterialRecord) : CommitSidecars :=
  mk None (Some material) None None None.
Definition output (output : ToolOutputRecord) : CommitSidecars :=
  mk None None (Some output) None None.
Definition completion_output (output : CompletionOutputRecord) : CommitSidecars :=
  mk None None None (Some output) None.
Definition receipt (receipt : ExecutionReceiptBody) : CommitSidecars :=
  mk None None None None (Some receipt).
End CommitSidecars.
Abbreviation CommitSidecars := CommitSidecars.CommitSidecars.

Module CommitAnchors.
Record CommitAnchors : Type := mk {
  output : option ToolOutputEventAnchor;
  completion_output : option CompletionOutputEventAnchor;
  receipt : option ReceiptEventAnchor;
}.
Definition default : CommitAnchors := mk None None None.
End CommitAnchors.
Abbreviation CommitAnchors := CommitAnchors.CommitAnchors.

(** ** The verified run index *)

Module VerifiedRunIndex.
Record VerifiedRunIndex : Type := mk {
  state : option RunState;
  last_record : option EventRecord;
  event_ids : gset string;
  step_positions : gmap string StepJournalPosition;
  planned_invocations : gmap string PlannedInvocationAnchor;
  plan_input_step_ids : gset string;
  intents : gmap string EffectIntentAnchor;
  effect_starts : gmap string EffectStartAnchor;
  receipt_events : list ReceiptEventAnchor;
  receipt_event_positions : gmap string N;
  tool_output_events : gmap string ToolOutputEventAnchor;
  material_effect_ids : gset string;
  receipt_ids : gset string;
  receipt_digests : gset string;
  receipt_effect_ids : gset string;
  receipt_head_digest : option string;
  tool_output_effect_ids : gset string;
  tool_output_ids : gset string;
  tool_output_record_digests : gset string;
  tool_output_digests : gmap string string;
  tool_output_sizes : gmap string N;
  completion_output_event : option CompletionOutputEventAnchor;
}.

(** Field assignments, one per group of fields the code writes together. *)
Definition set_state (v : option RunState) (i : VerifiedRunIndex) : VerifiedRunIndex :=
  mk v (last_record i) (event_ids i) (step_positions i) (planned_invocations i)
    (plan_input_step_ids i) (intents i) (effect_starts i) (receipt_events i)
    (receipt_event_positions i) (tool_output_events i) (material_effect_ids i) (receipt_ids i)
    (receipt_digests i) (receipt_effect_ids i) (receipt_head_digest i) (tool_output_effect_ids i)
    (tool_output_ids i) (tool_output_record_digests i) (tool_output_digests i)
    (tool_output_sizes i) (completion_output_event i).
Definition set_last_record (v : option EventRecord) (i : VerifiedRunIndex) : VerifiedRunIndex :=
  mk (state i) v (event_ids i) (step_positions i) (planned_invocations i) (plan_input_step_ids i)
    (intents i) (effect_starts i) (receipt_events i) (receipt_event_positions i)
    (tool_output_events i) (material_effect_ids i) (receipt_ids i) (receipt_digests i)
    (receipt_effect_ids i) (receipt_head_digest i) (tool_output_effect_ids i) (tool_output_ids i)
    (tool_output_record_digests i) (tool_output_digests i) (tool_output_sizes i)
    (completion_output_event i).
Definition set_event_ids (v : gset string) (i : VerifiedRunIndex) : VerifiedRunIndex :=
  mk (state i) (last_record i) v (step_positions i) (planned_invocations i)
    (plan_input_step_ids i) (intents i) (effect_starts i) (receipt_events i)
    (receipt_event_positions i) (tool_output_events i) (material_effect_ids i) (receipt_ids i)
    (receipt_digests i) (receipt_effect_ids i) (receipt_head_digest i) (tool_output_effect_ids i)
    (tool_output_ids i) (tool_output_record_digests i) (tool_output_digests i)
    (tool_output_sizes i) (completion_output_event i).
Definition set_step_positions (v : gmap string StepJournalPosition)
    (i : VerifiedRunIndex) : VerifiedRunIndex :=
  mk (state i) (last_record i) (event_ids i) v (planned_invocations i) (plan_input_step_ids i)
    (intents i) (effect_starts i) (receipt_events i) (receipt_event_positions i)
    (tool_output_events i) (material_effect_ids i) (receipt_ids i) (receipt_digests i)
    (receipt_effect_ids i) (receipt_head_digest i) (tool_output_effect_ids i) (tool_output_ids i)
    (tool_output_record_digests i) (tool_output_digests i) (tool_output_sizes i)
    (completion_output_event i).
Definition set_planned_invocations (v : gmap string PlannedInvocationAnchor)
    (i : VerifiedRunIndex) : VerifiedRunIndex :=
  mk (state i) (last_record i) (event_ids i) (step_positions i) v (plan_input_step_ids i)
    (intents i) (effect_starts i) (receipt_events i) (receipt_event_positions i)
    (tool_output_events i) (material_effect_ids i) (receipt_ids i) (receipt_digests i)
    (receipt_effect_ids i) (receipt_head_digest i) (tool_output_effect_ids i) (tool_output_ids i)
    (tool_output_record_digests i) (tool_output_digests i) (tool_output_sizes i)
    (completion_output_event i).
Definition set_plan_input_step_ids (v : gset string) (i : VerifiedRunIndex) : VerifiedRunIndex :=
  mk (state i) (last_record i) (event_ids i) (step_positions i) (planned_invocations i) v
    (intents i) (effect_starts i) (receipt_events i) (receipt_event_positions i)
    (tool_output_events i) (material_effect_ids i) (receipt_ids i) (receipt_digests i)
    (receipt_effect_ids i) (receipt_head_digest i) (tool_output_effect_ids i) (tool_output_ids i)
    (tool_output_record_digests i) (tool_output_digests i) (tool_output_sizes i)
    (completion_output_event i).
Definition set_intents (v : gmap string EffectIntentAnchor)
    (i : VerifiedRunIndex) : VerifiedRunIndex :=
  mk (state i) (last_record i) (event_ids i) (step_positions i) (planned_invocations i)
    (plan_input_step_ids i) v (effect_starts i) (receipt_events i) (receipt_event_positions i)
    (tool_output_events i) (material_effect_ids i) (receipt_ids i) (receipt_digests i)
    (receipt_effect_ids i) (receipt_head_digest i) (tool_output_effect_ids i) (tool_output_ids i)
    (tool_output_record_digests i) (tool_output_digests i) (tool_output_sizes i)
    (completion_output_event i).
Definition set_effect_starts (v : gmap string EffectStartAnchor)
    (i : VerifiedRunIndex) : VerifiedRunIndex :=
  mk (state i) (last_record i) (event_ids i) (step_positions i) (planned_invocations i)
    (plan_input_step_ids i) (intents i) v (receipt_events i) (receipt_event_positions i)
    (tool_output_events i) (material_effect_ids i) (receipt_ids i) (receipt_digests i)
    (receipt_effect_ids i) (receipt_head_digest i) (tool_output_effect_ids i) (tool_output_ids i)
    (tool_output_record_digests i) (tool_output_digests i) (tool_output_sizes i)
    (completion_output_event i).
Definition set_receipt_events (v0 : list ReceiptEventAnchor) (v1 : gmap string N)
    (i : VerifiedRunIndex) : VerifiedRunIndex :=
  mk (state i) (last_record i) (event_ids i) (step_positions i) (planned_invocations i)
    (plan_input_step_ids i) (intents i) (effect_starts i) v0 v1 (tool_output_events i)
    (material_effect_ids i) (receipt_ids i) (receipt_digests i) (receipt_effect_ids i)
    (receipt_head_digest i) (tool_output_effect_ids i) (tool_output_ids i)
    (tool_output_record_digests i) (tool_output_digests i) (tool_output_sizes i)
    (completion_output_event i).
Definition set_tool_output_events (v : gmap string ToolOutputEventAnchor)
    (i : VerifiedRunIndex) : VerifiedRunIndex :=
  mk (state i) (last_record i) (event_ids i) (step_positions i) (planned_invocations i)
    (plan_input_step_ids i) (intents i) (effect_starts i) (receipt_events i)
    (receipt_event_positions i) v (material_effect_ids i) (receipt_ids i) (receipt_digests i)
    (receipt_effect_ids i) (receipt_head_digest i) (tool_output_effect_ids i) (tool_output_ids i)
    (tool_output_record_digests i) (tool_output_digests i) (tool_output_sizes i)
    (completion_output_event i).
Definition set_material_effect_ids (v : gset string) (i : VerifiedRunIndex) : VerifiedRunIndex :=
  mk (state i) (last_record i) (event_ids i) (step_positions i) (planned_invocations i)
    (plan_input_step_ids i) (intents i) (effect_starts i) (receipt_events i)
    (receipt_event_positions i) (tool_output_events i) v (receipt_ids i) (receipt_digests i)
    (receipt_effect_ids i) (receipt_head_digest i) (tool_output_effect_ids i) (tool_output_ids i)
    (tool_output_record_digests i) (tool_output_digests i) (tool_output_sizes i)
    (completion_output_event i).
Definition set_receipt_identities (v0 : gset string) (v1 : gset string) (v2 : gset string)
    (i : VerifiedRunIndex) : VerifiedRunIndex :=
  mk (state i) (last_record i) (event_ids i) (step_positions i) (planned_invocations i)
    (plan_input_step_ids i) (intents i) (effect_starts i) (receipt_events i)
    (receipt_event_positions i) (tool_output_events i) (material_effect_ids i) v0 v1 v2
    (receipt_head_digest i) (tool_output_effect_ids i) (tool_output_ids i)
    (tool_output_record_digests i) (tool_output_digests i) (tool_output_sizes i)
    (completion_output_event i).
Definition set_receipt_head_digest (v : option string)
    (i : VerifiedRunIndex) : VerifiedRunIndex :=
  mk (state i) (last_record i) (event_ids i) (step_positions i) (planned_invocations i)
    (plan_input_step_ids i) (intents i) (effect_starts i) (receipt_events i)
    (receipt_event_positions i) (tool_output_events i) (material_effect_ids i) (receipt_ids i)
    (receipt_digests i) (receipt_effect_ids i) v (tool_output_effect_ids i) (tool_output_ids i)
    (tool_output_record_digests i) (tool_output_digests i) (tool_output_sizes i)
    (completion_output_event i).
Definition set_tool_output_identities (v0 : gset string) (v1 : gset string) (v2 : gset string)
    (v3 : gmap string string) (v4 : gmap string N) (i : VerifiedRunIndex) : VerifiedRunIndex :=
  mk (state i) (last_record i) (event_ids i) (step_positions i) (planned_invocations i)
    (plan_input_step_ids i) (intents i) (effect_starts i) (receipt_events i)
    (receipt_event_positions i) (tool_output_events i) (material_effect_ids i) (receipt_ids i)
    (receipt_digests i) (receipt_effect_ids i) (receipt_head_digest i) v0 v1 v2 v3 v4
    (completion_output_event i).
Definition set_completion_output_event (v : option CompletionOutputEventAnchor)
    (i : VerifiedRunIndex) : VerifiedRunIndex :=
  mk (state i) (last_record i) (event_ids i) (step_positions i) (planned_invocations i)
    (plan_input_step_ids i) (intents i) (effect_starts i) (receipt_events i)
    (receipt_event_positions i) (tool_output_events i) (material_effect_ids i) (receipt_ids i)
    (receipt_digests i) (receipt_effect_ids i) (receipt_head_digest i) (tool_output_effect_ids i)
    (tool_output_ids i) (tool_output_record_digests i) (tool_output_digests i)
    (tool_output_sizes i) v.

(** [derive(Default)]. *)
Definition default : VerifiedRunIndex :=
  mk None None ∅ ∅ ∅ ∅ ∅ ∅ [] ∅ ∅ ∅ ∅ ∅ ∅ None ∅ ∅ ∅ ∅ ∅ None.
#[global] Instance VerifiedRunIndex_eq_dec : EqDecision VerifiedRunIndex.
Proof. solve_decision. Defined.
End VerifiedRunIndex.
Abbreviation VerifiedRunIndex := VerifiedRunIndex.VerifiedRunIndex.

(** ** Errors *)

(** [rusqlite::Error] and [serde_json::Error] are their messages; a message built with
    [format!] is its literal, placeholders included. *)
Module StoreError.
Inductive StoreError : Type :=
| HeadConflict (expected actual : ExpectedHead)
| Record_ (error : RecordError)
| Transition (error : TransitionError)
| InvocationMaterial (error : InvocationMaterialError)
| ToolOutput (error : ToolOutputError)
| CompletionOutput (error : CompletionOutputError)
| PlanningContract (error : PlanningContractError)
| Replay (error : ReplayError)
| Protocol (error : ProtocolError)
| DuplicateEventId (event_id : string)
| InvalidDatabasePath
| DatabaseAlreadyExists
| DatabaseCreateFailed
| DatabaseOpenFailed
| DatabaseNotInitialized
| Sqlite (message : string)
| Json (message : string)
| Canonicalization (message : string)
| UnsupportedSchemaVersion (version : Z)
| SequenceOutOfRange
| Corrupt (message : string)
| InvocationMaterialRequired
| PlannedInvocationInputsRequired
| UnexpectedPlannedInvocationInputs
| PlannedInvocationStoreUnsupported
| PlannedInvocationInputCountMismatch (expected actual : N)
| PlannedInvocationInputMissing (step_id : string)
| DuplicatePlannedInvocationInput (step_id : string)
| PlannedInvocationRetentionMismatch (step_id : string)
| UnexpectedInvocationMaterial
| InvocationMaterialStoreUnsupported
| ExecutionReceiptRequired
| UnexpectedExecutionReceipt
| ExecutionReceiptBindingMismatch
| ExecutionReceiptInvalid
| UnsupportedReceiptProfile
| ReceiptProvenanceRequired
| LegacyVerificationAppendRejected
| ExecutionReceiptStoreUnsupported
| ToolOutputRequired
| UnexpectedToolOutput
| ToolOutputBindingMismatch
| ToolOutputProfileRequired
| ToolOutputStoreUnsupported
| CompletionOutputRequired
| UnexpectedCompletionOutput
| CompletionOutputBindingMismatch
| CompletionOutputStoreUnsupported
| PlanningSnapshotStoreUnsupported
| PlanningSnapshotBudgetExceeded
| InjectedFault (stage : string).
End StoreError.
Abbreviation StoreError := StoreError.StoreError.
