(* ===== verification/StoreBundles.v ===== *)
(** The checks of the local store on an event and the sidecars appended with it, and on a
    receipt and the durable intent it reports (crates/xgeny-local-store/src/lib.rs). *)

From S2P Require Import Prelude Text Wire Domain WorkGraphTypes WorkGraphErrors Planning Material.
From S2P Require Import ToolOutput Completion Receipt StoreTypes.

(** The third-party boundary: [OffsetDateTime::parse(_, &Rfc3339)], an instant as its
    distance from the epoch. *)
Class Rfc3339 : Type := OffsetDateTime_parse : string → option Z.

Definition corrupt {A} (message : string) : res StoreError A := Err (StoreError.Corrupt message).

(** ** Events and their sidecars *)

Section bundles.
Context `{Crypto} `{ReceiptSchema}.

(** One round of the loop that indexes the inputs by step. *)
Definition index_plan_input (by_step : gmap string PlannedInvocationMaterialRecord)
    (input : PlannedInvocationMaterialRecord)
    : res StoreError (gmap string PlannedInvocationMaterialRecord) :=
  let step_id := PlannedInvocationMaterialRecord.step_id input in
  bail_if bool_decide (is_Some (by_step !! step_id))
    with StoreError.DuplicatePlannedInvocationInput step_id;;
  Ok (<[step_id := input]> by_step).

Definition verify_plan_input_step (event : RunEvent)
    (by_step : gmap string PlannedInvocationMaterialRecord) (step : AcceptedPlanStep)
    : res StoreError unit :=
  let? input := ok_or (by_step !! AcceptedPlanStep.step_id step)
                  (StoreError.PlannedInvocationInputMissing (AcceptedPlanStep.step_id step)) in
  map_err StoreError.PlanningContract
    (PlannedInvocationMaterialRecord_verify_for input (RunEvent.run_id event)
       (AcceptedPlanStep.step_id step) (AcceptedPlanStep.invocation step)).

Definition verify_plan_input_bundle (event : RunEvent)
    (inputs : option (list PlannedInvocationMaterialRecord)) : res StoreError unit :=
  match RunEvent.body event, inputs with
  | RunEventBody.PlanAccepted _ steps, Some inputs =>
      bail_if bool_decide (len inputs ≠ len steps)
        with StoreError.PlannedInvocationInputCountMismatch (len steps) (len inputs);;
      let? by_step := for_each index_plan_input inputs ∅ in
      for_each (λ _, verify_plan_input_step event by_step) steps tt
  | RunEventBody.PlanAccepted _ _, None => Err StoreError.PlannedInvocationInputsRequired
  | _, Some (_ :: _) => Err StoreError.UnexpectedPlannedInvocationInputs
  | _, _ => Ok tt
  end.

Definition profile_matches_effect (profile_version : string) (effect_class : EffectClass) : bool :=
  if bool_decide (profile_version = CORE_RECEIPT_PROFILE_V2) then
    match effect_class with
    | EffectClass.ReadOnly | EffectClass.Idempotent | EffectClass.NonIdempotent => true
    | EffectClass.Reversible => false
    end
  else if bool_decide (profile_version = CORE_RECEIPT_PROFILE_V1) then
    match effect_class with
    | EffectClass.Reversible | EffectClass.Idempotent | EffectClass.NonIdempotent => true
    | EffectClass.ReadOnly => false
    end
  else false.

Definition output_profile_matches_effect (effect_class : EffectClass)
    (provenance : ReceiptProvenance) : bool :=
  let profile_version := ReceiptProvenance.profile_version provenance in
  let tool_output_profile := ReceiptProvenance.tool_output_profile provenance in
  match effect_class with
  | EffectClass.ReadOnly =>
      bool_decide (profile_version = CORE_RECEIPT_PROFILE_V2) &&
      bool_decide (tool_output_profile = Some TOOL_OUTPUT_PROFILE_V1)
  | EffectClass.Reversible =>
      bool_decide (profile_version = CORE_RECEIPT_PROFILE_V1) &&
      bool_decide (tool_output_profile = None)
  | EffectClass.Idempotent | EffectClass.NonIdempotent =>
      if bool_decide (profile_version = CORE_RECEIPT_PROFILE_V2)
      then bool_decide (tool_output_profile = Some TOOL_OUTPUT_PROFILE_V1)
      else bool_decide (profile_version = CORE_RECEIPT_PROFILE_V1) &&
           bool_decide (tool_output_profile = None)
  end.

(** The provenance every new effect intent must carry. *)
Definition verify_intent_profile (event : RunEvent) : res StoreError unit :=
  match RunEvent.body event with
  | RunEventBody.EffectIntentCommitted _ intent =>
      let? provenance := ok_or (EffectIntent.receipt_provenance intent)
                           StoreError.ReceiptProvenanceRequired in
      bail_if negb (profile_matches_effect (ReceiptProvenance.profile_version provenance)
                      (EffectIntent.effect_class intent))
        with StoreError.UnsupportedReceiptProfile;;
      bail_if negb (output_profile_matches_effect (EffectIntent.effect_class intent) provenance)
        with StoreError.ToolOutputProfileRequired;;
      Ok tt
  | _ => Ok tt
  end.

Definition verify_material_bundle (event : RunEvent) (material : option InvocationMaterialRecord)
    : res StoreError unit :=
  let? _ := verify_intent_profile event in
  match RunEvent.body event, material with
  | RunEventBody.EffectIntentCommitted step_id intent, Some material =>
      map_err StoreError.InvocationMaterial
        (InvocationMaterialRecord_verify_for material (RunEvent.run_id event) step_id intent)
  | RunEventBody.EffectIntentCommitted _ _, None => Err StoreError.InvocationMaterialRequired
  | _, Some _ => Err StoreError.UnexpectedInvocationMaterial
  | _, None => Ok tt
  end.

Definition verify_tool_output_bundle (event : RunEvent) (output : option ToolOutputRecord)
    : res StoreError unit :=
  match RunEvent.body event, output with
  | RunEventBody.EffectSucceeded _ _ _ (Some expected), Some output =>
      if bool_decide (expected = ToolOutputRecord.record_digest output) then Ok tt
      else Err StoreError.ToolOutputBindingMismatch
  | RunEventBody.EffectSucceeded _ _ _ None, Some _ => Err StoreError.ToolOutputBindingMismatch
  | RunEventBody.EffectSucceeded _ _ _ (Some _), None => Err StoreError.ToolOutputRequired
  | _, Some _ => Err StoreError.UnexpectedToolOutput
  | _, None => Ok tt
  end.

Definition verify_completion_output_bundle (event : RunEvent)
    (output : option CompletionOutputRecord) : res StoreError unit :=
  match RunEvent.body event, output with
  | RunEventBody.CompletionCandidateRecorded _ _ _ (Some expected), Some output =>
      if bool_decide (expected = CompletionOutputRecord.record_digest output) then Ok tt
      else Err StoreError.CompletionOutputBindingMismatch
  | RunEventBody.CompletionCandidateRecorded _ _ _ None, Some _ =>
      Err StoreError.CompletionOutputBindingMismatch
  | RunEventBody.CompletionCandidateRecorded _ _ _ _, None => Err StoreError.CompletionOutputRequired
  | _, Some _ => Err StoreError.UnexpectedCompletionOutput
  | _, None => Ok tt
  end.

Definition verify_receipt_bundle (event : RunEvent) (receipt : option ExecutionReceiptBody)
    : res StoreError unit :=
  match RunEvent.body event, receipt with
  | RunEventBody.VerificationRecorded step_id _ _ receipt_id receipt_digest, Some receipt =>
      let? _ := map_err (λ _, StoreError.ExecutionReceiptInvalid)
                  (validate_execution_receipt receipt) in
      bail_if bool_decide (ExecutionReceiptBody.run_id receipt ≠ RunEvent.run_id event)
           || bool_decide (ExecutionReceiptBody.step_id receipt ≠ step_id)
           || bool_decide (ExecutionReceiptBody.receipt_id receipt ≠ receipt_id)
           || bool_decide (ExecutionReceiptBody.receipt_digest receipt ≠ receipt_digest)
        with StoreError.ExecutionReceiptBindingMismatch;;
      Ok tt
  | RunEventBody.VerificationRecorded _ _ _ _ _, None => Err StoreError.ExecutionReceiptRequired
  | (RunEventBody.VerificationPassed _ | RunEventBody.VerificationFailed _ _), None =>
      Err StoreError.LegacyVerificationAppendRejected
  | _, Some _ => Err StoreError.UnexpectedExecutionReceipt
  | _, None => Ok tt
  end.

Definition verify_commit_sidecars (event : RunEvent) (sidecars : CommitSidecars)
    : res StoreError unit :=
  let? _ := verify_plan_input_bundle event (CommitSidecars.plan_inputs_ sidecars) in
  let? _ := verify_material_bundle event (CommitSidecars.material_ sidecars) in
  let? _ := verify_receipt_bundle event (CommitSidecars.receipt_ sidecars) in
  let? _ := verify_tool_output_bundle event (CommitSidecars.output_ sidecars) in
  verify_completion_output_bundle event (CommitSidecars.completion_output_ sidecars).

End bundles.

(** ** Receipts and durable intents *)

Definition protocol_effect_class (effect_class : EffectClass) : Domain.EffectClass :=
  match effect_class with
  | EffectClass.ReadOnly => Domain.EffectClass.ReadOnly
  | EffectClass.Reversible => Domain.EffectClass.Compensatable
  | EffectClass.Idempotent => Domain.EffectClass.Idempotent
  | EffectClass.NonIdempotent => Domain.EffectClass.NonIdempotent
  end.

Definition protocol_placement (placement : ReceiptPlacement) : Placement :=
  match placement with
  | ReceiptPlacement.Local => Placement.Local
  | ReceiptPlacement.Device => Placement.Device
  | ReceiptPlacement.Remote => Placement.Remote
  end.

Definition protocol_verification_strategy (strategy : ReceiptVerificationStrategy)
    : VerificationStrategy :=
  match strategy with
  | ReceiptVerificationStrategy.OutputSchema => VerificationStrategy.OutputSchema
  | ReceiptVerificationStrategy.Postcondition => VerificationStrategy.Postcondition
  | ReceiptVerificationStrategy.ArtifactDigest => VerificationStrategy.ArtifactDigest
  | ReceiptVerificationStrategy.Receipt => VerificationStrategy.Receipt
  | ReceiptVerificationStrategy.Human => VerificationStrategy.Human
  end.

Definition has_core_redactions (receipt : ExecutionReceiptBody) : bool :=
  bool_decide (ExecutionReceiptBody.redactions_applied receipt = CORE_RECEIPT_REDACTIONS_V1).

(** [artifact.provenance.as_ref().is_some_and(..)]. *)
Definition artifact_names_receipt (receipt : ExecutionReceiptBody) (artifact : ArtifactRef) : bool :=
  match ArtifactRef.provenance artifact with
  | Some provenance =>
      bool_decide (ArtifactProvenance.run_id provenance = ExecutionReceiptBody.run_id receipt) &&
      bool_decide (ArtifactProvenance.step_id provenance = ExecutionReceiptBody.step_id receipt) &&
      bool_decide (ArtifactProvenance.receipt_id provenance
                   = Some (ExecutionReceiptBody.receipt_id receipt))
  | None => false
  end.

(** One round of the artifact loop: the identifiers and the total size seen so far. *)
Definition verify_core_artifact (receipt : ExecutionReceiptBody) (seen : gset string * N)
    (artifact : ArtifactRef) : res StoreError (gset string * N) :=
  let (identifiers, total_size) := seen in
  let? total_size :=
    ok_or (checked_add u64_max total_size (ArtifactRef.size artifact))
      (StoreError.Corrupt "core Receipt artifact size overflows") in
  bail_if negb (core_artifact_descriptor_v2_is_valid (ArtifactRef.artifact_id artifact)
                  (ArtifactRef.name artifact) (ArtifactRef.media_type artifact)
                  (ArtifactRef.size artifact) (ArtifactRef.digest artifact))
       || bool_decide (CORE_RECEIPT_MAX_ARTIFACT_TOTAL_BYTES_V2 < total_size)%N
       || bool_decide (ArtifactRef.artifact_id artifact ∈ identifiers)
       || negb (artifact_names_receipt receipt artifact)
       || bool_decide (ArtifactRef.extensions artifact ≠ ∅)
       || bool_decide (ArtifactRef.required_extensions artifact ≠ [])
    with StoreError.Corrupt "core Receipt artifact binding differs";;
  Ok ({[ArtifactRef.artifact_id artifact]} ∪ identifiers, total_size).

Definition verify_core_receipt_artifacts (receipt : ExecutionReceiptBody) (intent : EffectIntent)
    (provenance : ReceiptProvenance) : res StoreError unit :=
  let artifacts := ExecutionReceiptBody.artifacts receipt in
  let profile_version := ReceiptProvenance.profile_version provenance in
  if bool_decide (profile_version = CORE_RECEIPT_PROFILE_V1) then
    bail_if bool_decide (EffectIntent.effect_class intent = EffectClass.ReadOnly)
         || bool_decide (artifacts ≠ [])
      with StoreError.Corrupt "core Receipt v1 artifact semantics differ";;
    Ok tt
  else if bool_decide (profile_version = CORE_RECEIPT_PROFILE_V2) then
    bail_if bool_decide (EffectIntent.effect_class intent = EffectClass.Reversible)
         || bool_decide (artifacts = [])
         || bool_decide (CORE_RECEIPT_MAX_ARTIFACTS_V2 < len artifacts)%N
      with StoreError.Corrupt "core Receipt v2 artifact semantics differ";;
    let? _ := for_each (verify_core_artifact receipt) artifacts (∅, 0%N) in
    Ok tt
  else Err StoreError.UnsupportedReceiptProfile.

(** The long disjunction of [verify_receipt_intent_binding]: whether some field differs. *)
Definition receipt_differs (receipt : ExecutionReceiptBody) (intent : EffectIntent)
    (provenance : ReceiptProvenance) : bool :=
  let invocation := EffectIntent.invocation intent in
  let policy := ExecutionReceiptBody.policy receipt in
  let executor := ExecutionReceiptBody.executor receipt in
  let effect := ExecutionReceiptBody.effect receipt in
  let capability := ExecutionReceiptBody.capability receipt in
  bool_decide (ExecutionReceiptBody.receipt_id receipt
               ≠ core_receipt_id_v1 (EffectIntent.effect_id intent))
  || bool_decide (ExecutionReceiptBody.extensions receipt ≠ ∅)
  || bool_decide (ExecutionReceiptBody.required_extensions receipt ≠ [])
  || negb (has_core_redactions receipt)
  || bool_decide (ReceiptProvenance.input_summary provenance ≠ CORE_RECEIPT_INPUT_SUMMARY_V1)
  || bool_decide (ExecutionReceiptBody.invocation_id receipt
                  ≠ ReceiptProvenance.invocation_id provenance)
  || bool_decide (ExecutionReceiptBody.plan_id receipt ≠ ReceiptProvenance.plan_id provenance)
  || bool_decide (CapabilityRef.capability_id capability
                  ≠ InvocationBinding.capability_id invocation)
  || bool_decide (CapabilityRef.contract_version capability
                  ≠ InvocationBinding.contract_version invocation)
  || bool_decide (ExecutionReceiptBody.instance_id receipt
                  ≠ InvocationBinding.instance_id invocation)
  || bool_decide (ExecutionReceiptBody.input_digest receipt
                  ≠ AuthorizationBinding.material_digest
                      (AuthorizationUse.binding (EffectIntent.authorization intent)))
  || bool_decide (ExecutionReceiptBody.input_summary receipt
                  ≠ ReceiptProvenance.input_summary provenance)
  || bool_decide (ReceiptPolicy.decision_id policy
                  ≠ ReceiptProvenance.policy_decision_id provenance)
  || bool_decide (ReceiptPolicy.decision_digest policy
                  ≠ ReceiptProvenance.policy_decision_digest provenance)
  || bool_decide (is_Some (ReceiptPolicy.lease_id policy))
  || bool_decide (is_Some (ReceiptPolicy.lease_digest policy))
  || bool_decide (Executor.id executor ≠ ReceiptProvenance.executor_id provenance)
  || bool_decide (Executor.placement executor
                  ≠ protocol_placement (ReceiptProvenance.executor_placement provenance))
  || bool_decide (Executor.platform executor ≠ ReceiptProvenance.executor_platform provenance)
  || bool_decide (ReceiptEffect.class effect
                  ≠ protocol_effect_class (EffectIntent.effect_class intent))
  || bool_decide (ReceiptEffect.idempotency_key effect ≠ EffectIntent.idempotency_key intent)
  || negb (ReceiptEffect.started effect).

(** The body of the loop that pairs evidence with the rules of the plan. *)
Definition verify_evidence_rule (pair : VerificationEvidence * ReceiptVerificationRule)
    : res StoreError unit :=
  let (evidence, rule) := pair in
  bail_if bool_decide (VerificationEvidence.strategy evidence
                       ≠ protocol_verification_strategy (ReceiptVerificationRule.strategy rule))
       || bool_decide (VerificationEvidence.required evidence
                       ≠ ReceiptVerificationRule.required rule)
       || bool_decide (VerificationEvidence.summary evidence
                       ≠ core_verification_summary_v1 (VerificationEvidence.result evidence))
       || bool_decide (is_Some (VerificationEvidence.artifact evidence))
       || (bool_decide (VerificationEvidence.result evidence = VerificationResult.Passed)
           && bool_decide (VerificationEvidence.evidence_digest evidence = None))
    with StoreError.Corrupt "execution receipt verification plan differs";;
  Ok tt.

Definition expected_disposition (outcome : CoreVerificationOutcome) : VerificationDisposition :=
  match outcome with
  | CoreVerificationOutcome.Passed => VerificationDisposition.Passed
  | CoreVerificationOutcome.Failed => VerificationDisposition.Failed
  | CoreVerificationOutcome.Inconclusive => VerificationDisposition.Inconclusive
  end.

Definition verify_receipt_intent_binding (receipt : ExecutionReceiptBody) (intent : EffectIntent)
    (provenance : ReceiptProvenance) (disposition : VerificationDisposition)
    : res StoreError unit :=
  let? _ := verify_core_receipt_artifacts receipt intent provenance in
  bail_if receipt_differs receipt intent provenance
    with StoreError.Corrupt "execution receipt differs from its durable intent provenance";;
  let verification := ExecutionReceiptBody.verification receipt in
  let plan := ReceiptProvenance.verification_plan provenance in
  bail_if bool_decide (length verification ≠ length plan)
    with StoreError.Corrupt "execution receipt verification disposition differs";;
  let? _ := for_each (λ _, verify_evidence_rule) (zip verification plan) tt in
  let outcome := evaluate_core_verification_v1 verification in
  bail_if bool_decide (disposition ≠ expected_disposition outcome)
       || bool_decide (ExecutionReceiptBody.status receipt ≠ core_receipt_status_v1 outcome)
    with StoreError.Corrupt "execution receipt result does not justify its disposition";;
  Ok tt.

Definition verify_receipt_timestamps `{Rfc3339} (anchor : ReceiptEventAnchor)
    (receipt : ExecutionReceiptBody) : res StoreError unit :=
  let effect := ExecutionReceiptBody.effect receipt in
  bail_if bool_decide (ExecutionReceiptBody.started_at receipt ≠ ReceiptEventAnchor.started_at anchor)
       || bool_decide (ReceiptEffect.started_at effect
                       ≠ Some (ReceiptEventAnchor.started_at anchor))
       || bool_decide (ExecutionReceiptBody.ended_at receipt ≠ ReceiptEventAnchor.ended_at anchor)
    with StoreError.Corrupt "execution receipt timestamps differ from the journal";;
  let? started := ok_or (OffsetDateTime_parse (ReceiptEventAnchor.started_at anchor))
    (StoreError.Corrupt "execution receipt start timestamp is invalid") in
  let? ended := ok_or (OffsetDateTime_parse (ExecutionReceiptBody.ended_at receipt))
    (StoreError.Corrupt "execution receipt end timestamp is invalid") in
  bail_if bool_decide (ended < started)%Z
    with StoreError.Corrupt "execution receipt ends before its effect starts";;
  Ok tt.
