(* ===== verification/StoreIndex.v ===== *)
(** The verified run index of the local store: the anchors a journal event leaves, the index
    of a whole journal, its incremental update by a commit, the audit of stored sidecars
    against it and the preparation of a commit (crates/xgeny-local-store/src/lib.rs). *)

From S2P Require Import Prelude Text Wire WorkGraphTypes WorkGraphErrors Planning Material.
From S2P Require Import ToolOutput Completion Journal Reducer Receipt StoreTypes StoreBundles.

(** [Iterator::enumerate]. *)
Definition enumerate {A} (l : list A) : list (N * A) := imap (λ i a, (N.of_nat i, a)) l.

Definition tool_output_profile (intent : EffectIntent) : option string :=
  provenance ← EffectIntent.receipt_provenance intent;
  ReceiptProvenance.tool_output_profile provenance.

(** ** Anchors of journal events *)

Definition VerifiedRunIndex_head (index : VerifiedRunIndex) : ExpectedHead :=
  match VerifiedRunIndex.last_record index with
  | Some record => ExpectedHead.Exact (EventRecord.sequence record) (EventRecord.digest record)
  | None => ExpectedHead.Empty
  end.

Definition VerifiedRunIndex_receipt_anchor_for (index : VerifiedRunIndex) (record : EventRecord)
    : res StoreError ReceiptEventAnchor :=
  let event := EventRecord.event record in
  match RunEvent.body event with
  | RunEventBody.VerificationRecorded step_id effect_id disposition receipt_id receipt_digest =>
      let? intent := ok_or (VerifiedRunIndex.intents index !! effect_id)
        (StoreError.Corrupt "execution receipt has no committed effect intent") in
      bail_if bool_decide (EffectIntentAnchor.step_id intent ≠ step_id)
           || bool_decide (EventRecord.sequence record
                           ≤ EffectIntentAnchor.event_sequence intent)%N
        with StoreError.Corrupt "execution receipt precedes or differs from its effect intent";;
      let? started := ok_or (VerifiedRunIndex.effect_starts index !! effect_id)
        (StoreError.Corrupt "execution receipt has no start event") in
      bail_if bool_decide (EffectStartAnchor.step_id started ≠ step_id)
           || bool_decide (EventRecord.sequence record
                           ≤ EffectStartAnchor.event_sequence started)%N
        with StoreError.Corrupt "execution receipt precedes or differs from its start event";;
      Ok (ReceiptEventAnchor.mk (EventRecord.sequence record) (RunEvent.run_id event) step_id
            effect_id disposition receipt_id receipt_digest
            (EffectStartAnchor.recorded_at started) (RunEvent.recorded_at event))
  | _ => Err StoreError.UnexpectedExecutionReceipt
  end.

Definition VerifiedRunIndex_tool_output_anchor_for (index : VerifiedRunIndex)
    (record : EventRecord) : res StoreError ToolOutputEventAnchor :=
  let event := EventRecord.event record in
  match RunEvent.body event with
  | RunEventBody.EffectSucceeded step_id effect_id evidence_digest (Some record_digest) =>
      let? intent := ok_or (VerifiedRunIndex.intents index !! effect_id)
        (StoreError.Corrupt "tool output has no committed effect intent") in
      bail_if bool_decide (EffectIntentAnchor.step_id intent ≠ step_id)
           || bool_decide (EventRecord.sequence record
                           ≤ EffectIntentAnchor.event_sequence intent)%N
        with StoreError.Corrupt "tool output precedes or differs from its effect intent";;
      bail_if bool_decide (tool_output_profile (EffectIntentAnchor.intent intent)
                           ≠ Some TOOL_OUTPUT_PROFILE_V1)
        with StoreError.Corrupt "tool output has no supported durable profile";;
      let? started := ok_or (VerifiedRunIndex.effect_starts index !! effect_id)
        (StoreError.Corrupt "tool output has no effect start event") in
      bail_if bool_decide (EffectStartAnchor.step_id started ≠ step_id)
           || bool_decide (EventRecord.sequence record
                           ≤ EffectStartAnchor.event_sequence started)%N
        with StoreError.Corrupt "tool output precedes or differs from its start event";;
      Ok (ToolOutputEventAnchor.mk (EventRecord.sequence record) (RunEvent.run_id event) step_id
            effect_id evidence_digest record_digest (EffectStartAnchor.execution_attempt started))
  | _ => Err StoreError.UnexpectedToolOutput
  end.

Definition VerifiedRunIndex_completion_output_anchor_for (record : EventRecord)
    : res StoreError CompletionOutputEventAnchor :=
  let event := EventRecord.event record in
  match RunEvent.body event with
  | RunEventBody.CompletionCandidateRecorded decision candidate_id summary_digest
      (Some record_digest) =>
      let? model_call_id := ok_or (ExpectedPlanningTurn.model_call_id decision)
        (StoreError.Corrupt "completion output event has no durable model-call binding") in
      Ok (CompletionOutputEventAnchor.mk (EventRecord.sequence record) (RunEvent.run_id event)
            candidate_id (ExpectedPlanningTurn.turn_index decision) model_call_id
            (ExpectedPlanningTurn.context_digest decision)
            (ExpectedPlanningTurn.proposal_digest decision) summary_digest record_digest)
  | _ => Err StoreError.UnexpectedCompletionOutput
  end.

(** ** The index of a journal *)

(** Insert under a key that must be new. *)
Definition insert_new {V} (message : string) (k : string) (v : V) (m : gmap string V)
    : res StoreError (gmap string V) :=
  bail_if bool_decide (is_Some (m !! k)) with StoreError.Corrupt message;;
  Ok (<[k := v]> m).

Definition VerifiedRunIndex_index_receipt_event (index : VerifiedRunIndex) (record : EventRecord)
    : res StoreError VerifiedRunIndex :=
  let? anchor := VerifiedRunIndex_receipt_anchor_for index record in
  let position := len (VerifiedRunIndex.receipt_events index) in
  let? positions :=
    insert_new "journal contains duplicate Receipt events for one effect"
      (ReceiptEventAnchor.effect_id anchor) position
      (VerifiedRunIndex.receipt_event_positions index) in
  Ok (VerifiedRunIndex.set_receipt_events (VerifiedRunIndex.receipt_events index ++ [anchor])
        positions index).

(** One accepted step of a plan. *)
Definition index_accepted_step (sequence : N) (index : VerifiedRunIndex)
    (entry : N * AcceptedPlanStep) : res StoreError VerifiedRunIndex :=
  let (event_step_index, step) := entry in
  let step_id := AcceptedPlanStep.step_id step in
  let? positions :=
    insert_new "journal contains a duplicate Step position" step_id
      (StepJournalPosition.mk sequence event_step_index)
      (VerifiedRunIndex.step_positions index) in
  let? planned :=
    insert_new "journal contains a duplicate planned invocation" step_id
      (PlannedInvocationAnchor.mk sequence (AcceptedPlanStep.invocation step))
      (VerifiedRunIndex.planned_invocations index) in
  Ok (VerifiedRunIndex.set_planned_invocations planned
        (VerifiedRunIndex.set_step_positions positions index)).

(** The anchor of a start: attempts of one effect are counted, saturating. *)
Definition start_anchor (index : VerifiedRunIndex) (sequence : N) (recorded_at step_id effect_id : string)
    : EffectStartAnchor :=
  let execution_attempt :=
    match VerifiedRunIndex.effect_starts index !! effect_id with
    | Some anchor => ((EffectStartAnchor.execution_attempt anchor + 1) `min` u32_max)%N
    | None => 1%N
    end in
  EffectStartAnchor.mk sequence step_id recorded_at execution_attempt.

(** The [match] of [from_snapshot]'s loop. *)
Definition index_body (index : VerifiedRunIndex) (record : EventRecord)
    : res StoreError VerifiedRunIndex :=
  let sequence := EventRecord.sequence record in
  match RunEvent.body (EventRecord.event record) with
  | RunEventBody.StepPlanned step_id _ _ =>
      let? positions :=
        insert_new "journal contains a duplicate Step position" step_id
          (StepJournalPosition.mk sequence 0) (VerifiedRunIndex.step_positions index) in
      Ok (VerifiedRunIndex.set_step_positions positions index)
  | RunEventBody.PlanAccepted _ steps =>
      for_each (index_accepted_step sequence) (enumerate steps) index
  | RunEventBody.EffectIntentCommitted step_id intent =>
      let? intents :=
        insert_new "journal contains a duplicate effect intent" (EffectIntent.effect_id intent)
          (EffectIntentAnchor.mk sequence step_id intent) (VerifiedRunIndex.intents index) in
      Ok (VerifiedRunIndex.set_intents intents index)
  | RunEventBody.EffectExecutionStarted step_id effect_id =>
      let anchor := start_anchor index sequence
                      (RunEvent.recorded_at (EventRecord.event record)) step_id effect_id in
      Ok (VerifiedRunIndex.set_effect_starts
            (<[effect_id := anchor]> (VerifiedRunIndex.effect_starts index)) index)
  | RunEventBody.EffectSucceeded _ _ _ (Some _) =>
      let? anchor := VerifiedRunIndex_tool_output_anchor_for index record in
      let? events :=
        insert_new "journal contains duplicate tool-output events"
          (ToolOutputEventAnchor.effect_id anchor) anchor
          (VerifiedRunIndex.tool_output_events index) in
      Ok (VerifiedRunIndex.set_tool_output_events events index)
  | RunEventBody.CompletionCandidateRecorded _ _ _ (Some _) =>
      bail_if bool_decide (is_Some (VerifiedRunIndex.completion_output_event index))
        with StoreError.Corrupt "journal contains duplicate completion-output events";;
      let? anchor := VerifiedRunIndex_completion_output_anchor_for record in
      Ok (VerifiedRunIndex.set_completion_output_event (Some anchor) index)
  | RunEventBody.VerificationRecorded _ _ _ _ _ =>
      VerifiedRunIndex_index_receipt_event index record
  | _ => Ok index
  end.

(** One round of [from_snapshot]'s loop. *)
Definition index_record (index : VerifiedRunIndex) (record : EventRecord)
    : res StoreError VerifiedRunIndex :=
  let event_id := RunEvent.event_id (EventRecord.event record) in
  bail_if bool_decide (event_id ∈ VerifiedRunIndex.event_ids index)
    with StoreError.Corrupt "journal contains a duplicate event identifier";;
  let index := VerifiedRunIndex.set_event_ids ({[event_id]} ∪ VerifiedRunIndex.event_ids index) index in
  let? index := index_body index record in
  Ok (VerifiedRunIndex.set_last_record (Some record) index).

Definition VerifiedRunIndex_from_snapshot (snapshot : option RunSnapshot)
    : res StoreError VerifiedRunIndex :=
  match snapshot with
  | None => Ok VerifiedRunIndex.default
  | Some snapshot =>
      for_each index_record (RunSnapshot.records snapshot)
        (VerifiedRunIndex.set_state (Some (RunSnapshot.state snapshot)) VerifiedRunIndex.default)
  end.

Definition VerifiedRunIndex_verification_snapshot (index : VerifiedRunIndex) (step_id : string)
    : option RunVerificationSnapshot :=
  state ← VerifiedRunIndex.state index;
  let effect_started_at :=
    step ← RunState.steps state !! step_id;
    intent ← StepState.intent step;
    started ← VerifiedRunIndex.effect_starts index !! EffectIntent.effect_id intent;
    if bool_decide (EffectStartAnchor.step_id started = step_id)
    then Some (EffectStartAnchor.recorded_at started) else None in
  Some (RunVerificationSnapshot.mk state effect_started_at
          (VerifiedRunIndex.receipt_head_digest index) None).

(** ** The index after a commit *)

(** One accepted step of a committed plan: plain inserts. *)
Definition apply_accepted_step (sequence : N) (index : VerifiedRunIndex)
    (entry : N * AcceptedPlanStep) : VerifiedRunIndex :=
  let (event_step_index, step) := entry in
  let step_id := AcceptedPlanStep.step_id step in
  VerifiedRunIndex.set_planned_invocations
    (<[step_id := PlannedInvocationAnchor.mk sequence (AcceptedPlanStep.invocation step)]>
       (VerifiedRunIndex.planned_invocations index))
    (VerifiedRunIndex.set_step_positions
       (<[step_id := StepJournalPosition.mk sequence event_step_index]>
          (VerifiedRunIndex.step_positions index)) index).

(** The [match] of [apply_committed]. *)
Definition apply_committed_body (index : VerifiedRunIndex) (record : EventRecord)
    (anchors : CommitAnchors) : res StoreError VerifiedRunIndex :=
  let sequence := EventRecord.sequence record in
  match RunEvent.body (EventRecord.event record) with
  | RunEventBody.StepPlanned step_id _ _ =>
      Ok (VerifiedRunIndex.set_step_positions
            (<[step_id := StepJournalPosition.mk sequence 0]>
               (VerifiedRunIndex.step_positions index)) index)
  | RunEventBody.PlanAccepted _ steps =>
      Ok (foldl (apply_accepted_step sequence) index (enumerate steps))
  | RunEventBody.EffectIntentCommitted step_id intent =>
      Ok (VerifiedRunIndex.set_intents
            (<[EffectIntent.effect_id intent := EffectIntentAnchor.mk sequence step_id intent]>
               (VerifiedRunIndex.intents index)) index)
  | RunEventBody.EffectExecutionStarted step_id effect_id =>
      let anchor := start_anchor index sequence
                      (RunEvent.recorded_at (EventRecord.event record)) step_id effect_id in
      Ok (VerifiedRunIndex.set_effect_starts
            (<[effect_id := anchor]> (VerifiedRunIndex.effect_starts index)) index)
  | RunEventBody.EffectSucceeded _ _ _ (Some _) =>
      let? anchor := expect (CommitAnchors.output anchors)
        "verified tool-output commit must retain its event anchor" in
      Ok (VerifiedRunIndex.set_tool_output_events
            (<[ToolOutputEventAnchor.effect_id anchor := anchor]>
               (VerifiedRunIndex.tool_output_events index)) index)
  | RunEventBody.CompletionCandidateRecorded _ _ _ (Some _) =>
      let? anchor := expect (CommitAnchors.completion_output anchors)
        "verified completion-output commit must retain its event anchor" in
      Ok (VerifiedRunIndex.set_completion_output_event (Some anchor) index)
  | RunEventBody.VerificationRecorded _ _ _ _ _ =>
      let? anchor := expect (CommitAnchors.receipt anchors)
        "verified Receipt commit must retain its event anchor" in
      Ok (VerifiedRunIndex.set_receipt_events (VerifiedRunIndex.receipt_events index ++ [anchor])
            (<[ReceiptEventAnchor.effect_id anchor := len (VerifiedRunIndex.receipt_events index)]>
               (VerifiedRunIndex.receipt_event_positions index)) index)
  | _ => Ok index
  end.

Definition apply_plan_inputs (inputs : option (list PlannedInvocationMaterialRecord))
    (index : VerifiedRunIndex) : VerifiedRunIndex :=
  match inputs with
  | Some inputs =>
      VerifiedRunIndex.set_plan_input_step_ids
        (VerifiedRunIndex.plan_input_step_ids index
         ∪ list_to_set (map PlannedInvocationMaterialRecord.step_id inputs)) index
  | None => index
  end.

Definition apply_material (material : option InvocationMaterialRecord) (index : VerifiedRunIndex)
    : VerifiedRunIndex :=
  match material with
  | Some material =>
      VerifiedRunIndex.set_material_effect_ids
        ({[InvocationMaterialRecord.effect_id material]}
         ∪ VerifiedRunIndex.material_effect_ids index) index
  | None => index
  end.

(** The identities of an output, recorded under an effect. *)
Definition record_tool_output (effect_id : string) (output : ToolOutputRecord)
    (index : VerifiedRunIndex) : VerifiedRunIndex :=
  VerifiedRunIndex.set_tool_output_identities
    ({[effect_id]} ∪ VerifiedRunIndex.tool_output_effect_ids index)
    ({[ToolOutputRecord.output_id output]} ∪ VerifiedRunIndex.tool_output_ids index)
    ({[ToolOutputRecord.record_digest output]} ∪ VerifiedRunIndex.tool_output_record_digests index)
    (<[effect_id := ToolOutputRecord.output_digest output]>
       (VerifiedRunIndex.tool_output_digests index))
    (<[effect_id := ToolOutputRecord.canonical_size_bytes output]>
       (VerifiedRunIndex.tool_output_sizes index)) index.

Definition apply_output (output : option ToolOutputRecord) (index : VerifiedRunIndex)
    : VerifiedRunIndex :=
  match output with
  | Some output => record_tool_output (ToolOutputRecord.effect_id output) output index
  | None => index
  end.

(** The identities of a receipt, recorded under an effect. *)
Definition record_receipt (effect_id : string) (receipt : ExecutionReceiptBody)
    (index : VerifiedRunIndex) : VerifiedRunIndex :=
  VerifiedRunIndex.set_receipt_identities
    ({[ExecutionReceiptBody.receipt_id receipt]} ∪ VerifiedRunIndex.receipt_ids index)
    ({[ExecutionReceiptBody.receipt_digest receipt]} ∪ VerifiedRunIndex.receipt_digests index)
    ({[effect_id]} ∪ VerifiedRunIndex.receipt_effect_ids index) index.

Definition apply_receipt (record : EventRecord) (receipt : option ExecutionReceiptBody)
    (index : VerifiedRunIndex) : VerifiedRunIndex :=
  match receipt with
  | Some receipt =>
      let index :=
        match RunEvent.body (EventRecord.event record) with
        | RunEventBody.VerificationRecorded _ effect_id _ _ _ =>
            record_receipt effect_id receipt index
        | _ =>
            VerifiedRunIndex.set_receipt_identities
              ({[ExecutionReceiptBody.receipt_id receipt]} ∪ VerifiedRunIndex.receipt_ids index)
              ({[ExecutionReceiptBody.receipt_digest receipt]}
               ∪ VerifiedRunIndex.receipt_digests index)
              (VerifiedRunIndex.receipt_effect_ids index) index
        end in
      VerifiedRunIndex.set_receipt_head_digest (Some (ExecutionReceiptBody.receipt_digest receipt))
        index
  | None => index
  end.

(** [apply_committed] returns nothing; it panics when a required anchor is missing. *)
Definition VerifiedRunIndex_apply_committed (index : VerifiedRunIndex) (commit : Commit)
    (sidecars : CommitSidecars) (anchors : CommitAnchors) : res StoreError VerifiedRunIndex :=
  let record := Commit.record commit in
  let event_id := RunEvent.event_id (EventRecord.event record) in
  let index := VerifiedRunIndex.set_event_ids
                 ({[event_id]} ∪ VerifiedRunIndex.event_ids index) index in
  let? index := apply_committed_body index record anchors in
  let index := apply_plan_inputs (CommitSidecars.plan_inputs_ sidecars) index in
  let index := apply_material (CommitSidecars.material_ sidecars) index in
  let index := apply_output (CommitSidecars.output_ sidecars) index in
  let index := apply_receipt record (CommitSidecars.receipt_ sidecars) index in
  Ok (VerifiedRunIndex.set_last_record (Some record)
        (VerifiedRunIndex.set_state (Some (Commit.state commit)) index)).

Section store.
Context `{Crypto} `{ReceiptSchema} `{Rfc3339}.

Definition prepare_commit (index : VerifiedRunIndex) (expected : ExpectedHead) (event : RunEvent)
    : res StoreError Commit :=
  let actual := VerifiedRunIndex_head index in
  bail_if bool_decide (expected ≠ actual) with StoreError.HeadConflict expected actual;;
  bail_if bool_decide (RunEvent.event_id event ∈ VerifiedRunIndex.event_ids index)
    with StoreError.DuplicateEventId (RunEvent.event_id event);;
  let? record := map_err StoreError.Record_
                   (EventRecord_next (VerifiedRunIndex.last_record index) event) in
  let? state := map_err StoreError.Transition
                  (apply_record (VerifiedRunIndex.state index) record) in
  Ok (Commit.mk record state).

Definition verified_snapshot (records : list EventRecord) (persisted : option RunState)
    : res StoreError (option RunSnapshot) :=
  match records, persisted with
  | [], None => Ok None
  | [], Some _ => corrupt "projection exists without committed events"
  | _, None => corrupt "committed events exist without a projection"
  | _, Some persisted =>
      let? replayed := map_err StoreError.Replay (replay records) in
      bail_if bool_decide (persisted ≠ replayed)
        with StoreError.Corrupt "persisted projection differs from event replay";;
      Ok (Some (RunSnapshot.mk records replayed))
  end.

Definition audit_snapshot (records : list EventRecord) (persisted : option RunState)
    : res StoreError (option RunSnapshot * VerifiedRunIndex) :=
  let? snapshot := verified_snapshot records persisted in
  let? index := VerifiedRunIndex_from_snapshot snapshot in
  Ok (snapshot, index).

(** ** Plan inputs against the index *)

(** [index.state.as_ref().map(|state| state.run_id.as_str()).ok_or_else(..)]. *)
Definition indexed_run_id (index : VerifiedRunIndex) (message : string) : res StoreError string :=
  ok_or (RunState.run_id <$> VerifiedRunIndex.state index) (StoreError.Corrupt message).

Definition verify_plan_input_entry (index : VerifiedRunIndex)
    (inputs : gmap string PlannedInvocationMaterialRecord)
    (entry : string * PlannedInvocationAnchor) : res StoreError unit :=
  let (step_id, anchor) := entry in
  let? input := ok_or (inputs !! step_id)
    (StoreError.Corrupt "planned Step `{step_id}` has no invocation input sidecar") in
  let? run_id := indexed_run_id index "planned input exists without a Run" in
  map_err (λ _, StoreError.Corrupt
                  "planned invocation input for Step `{step_id}` is invalid: {error}")
    (PlannedInvocationMaterialRecord_verify_for input run_id step_id
       (PlannedInvocationAnchor.binding anchor)).

Definition verify_plan_input_records (index : VerifiedRunIndex)
    (inputs : gmap string PlannedInvocationMaterialRecord) : res StoreError VerifiedRunIndex :=
  let planned := VerifiedRunIndex.planned_invocations index in
  let? _ := for_each (λ _, verify_plan_input_entry index inputs) (btree_entries planned) tt in
  bail_if bool_decide (size inputs ≠ size planned)
    with StoreError.Corrupt "planned invocation input count differs from accepted Steps: expected {}, actual {}";;
  Ok (VerifiedRunIndex.set_plan_input_step_ids (dom inputs) index).

Definition verify_plan_input_point (index : VerifiedRunIndex) (step_id : string)
    (input : option PlannedInvocationMaterialRecord) : res StoreError unit :=
  match VerifiedRunIndex.planned_invocations index !! step_id, input with
  | None, None => Ok tt
  | None, Some _ => corrupt "planned invocation input has no accepted Step"
  | Some _, None => corrupt "accepted Step has no planned invocation input"
  | Some anchor, Some input =>
      let? run_id := indexed_run_id index "planned input exists without a Run" in
      map_err (λ _, StoreError.Corrupt
                      "planned invocation input for Step `{step_id}` is invalid: {error}")
        (PlannedInvocationMaterialRecord_verify_for input run_id step_id
           (PlannedInvocationAnchor.binding anchor))
  end.

Definition verify_planned_material_retention (index : VerifiedRunIndex) (event : RunEvent)
    (material : InvocationMaterialRecord) (input : option PlannedInvocationMaterialRecord)
    : res StoreError unit :=
  match RunEvent.body event with
  | RunEventBody.EffectIntentCommitted step_id _ =>
      match VerifiedRunIndex.planned_invocations index !! step_id, input with
      | None, None => Ok tt
      | None, Some _ => corrupt "planned input exists for a legacy effect Step"
      | Some _, None => Err (StoreError.PlannedInvocationInputMissing step_id)
      | Some anchor, Some input =>
          let? run_id := indexed_run_id index "planned input exists without a Run" in
          let? _ := map_err StoreError.PlanningContract
            (PlannedInvocationMaterialRecord_verify_for input run_id step_id
               (PlannedInvocationAnchor.binding anchor)) in
          let expected := InvocationMaterialRetention.ReconstructableReference
                            (PlannedInvocationMaterialRecord.reference input) in
          bail_if bool_decide (InvocationMaterialRecord.retention material ≠ expected)
            with StoreError.PlannedInvocationRetentionMismatch step_id;;
          Ok tt
      end
  | _ => Ok tt
  end.

(** ** Invocation material against the index *)

Definition verify_material_entry (index : VerifiedRunIndex)
    (materials : gmap string InvocationMaterialRecord) (entry : string * EffectIntentAnchor)
    : res StoreError unit :=
  let (effect_id, anchor) := entry in
  let? material := ok_or (materials !! effect_id)
    (StoreError.Corrupt "effect `{effect_id}` has no invocation material descriptor") in
  let? run_id := indexed_run_id index "invocation material exists without a Run" in
  map_err (λ _, StoreError.Corrupt
                  "invocation material for effect `{effect_id}` is invalid: {error}")
    (InvocationMaterialRecord_verify_for material run_id (EffectIntentAnchor.step_id anchor)
       (EffectIntentAnchor.intent anchor)).

Definition verify_material_records (index : VerifiedRunIndex)
    (materials : gmap string InvocationMaterialRecord) : res StoreError VerifiedRunIndex :=
  let intents := VerifiedRunIndex.intents index in
  let? _ := for_each (λ _, verify_material_entry index materials) (btree_entries intents) tt in
  bail_if bool_decide (size materials ≠ size intents)
    with StoreError.Corrupt "invocation material count differs from effect intents: expected {}, actual {}";;
  Ok (VerifiedRunIndex.set_material_effect_ids (dom materials) index).

Definition verify_material_point (index : VerifiedRunIndex) (effect_id : string)
    (material : option InvocationMaterialRecord) : res StoreError unit :=
  match VerifiedRunIndex.intents index !! effect_id, material with
  | None, None => Ok tt
  | None, Some _ => corrupt "invocation material has no committed effect intent"
  | Some _, None => corrupt "committed effect intent has no invocation material descriptor"
  | Some anchor, Some material =>
      let? run_id := indexed_run_id index "invocation material exists without a Run" in
      map_err (λ _, StoreError.Corrupt
                      "invocation material for effect `{effect_id}` is invalid: {error}")
        (InvocationMaterialRecord_verify_for material run_id (EffectIntentAnchor.step_id anchor)
           (EffectIntentAnchor.intent anchor))
  end.

End store.
