(* ===== verification/StoreSidecars.v ===== *)
(** Tool outputs, completion outputs and receipts against the verified run index: the
    candidates of an append, the stored records of an audit, single reads, and the planning
    snapshot built from them (crates/xgeny-local-store/src/lib.rs). *)

From Stdlib Require Import Ascii.
From S2P Require Import Prelude Text Wire WorkGraphTypes WorkGraphErrors Planning Material.
From S2P Require Import ToolOutput Completion Journal Reducer Receipt StoreTypes StoreBundles.
From S2P Require Import StoreIndex.

Section sidecars.
Context `{Crypto} `{ReceiptSchema} `{Rfc3339}.

(** ** Tool outputs *)

Definition verify_tool_output_candidate (index : VerifiedRunIndex) (record : EventRecord)
    (output : ToolOutputRecord) : res StoreError ToolOutputEventAnchor :=
  let? anchor := VerifiedRunIndex_tool_output_anchor_for index record in
  let effect_id := ToolOutputEventAnchor.effect_id anchor in
  bail_if bool_decide (effect_id ∈ VerifiedRunIndex.tool_output_effect_ids index)
       || bool_decide (ToolOutputRecord.output_id output ∈ VerifiedRunIndex.tool_output_ids index)
       || bool_decide (ToolOutputRecord.record_digest output
                       ∈ VerifiedRunIndex.tool_output_record_digests index)
    with StoreError.Corrupt "duplicate tool-output identity";;
  let? intent := expect (VerifiedRunIndex.intents index !! effect_id)
                   "output anchor verifies its effect intent" in
  let? _ := map_err (λ _, StoreError.ToolOutputBindingMismatch)
    (ToolOutputRecord_verify_for output (ToolOutputEventAnchor.run_id anchor)
       (ToolOutputEventAnchor.step_id anchor) (EffectIntentAnchor.intent intent)
       (ToolOutputEventAnchor.execution_attempt anchor)
       (ToolOutputEventAnchor.evidence_digest anchor)) in
  bail_if bool_decide (ToolOutputRecord.record_digest output
                       ≠ ToolOutputEventAnchor.record_digest anchor)
    with StoreError.ToolOutputBindingMismatch;;
  Ok anchor.

Definition verify_stored_tool_output (index : VerifiedRunIndex) (anchor : ToolOutputEventAnchor)
    (stored : StoredToolOutput) : res StoreError unit :=
  let record := StoredToolOutput.record stored in
  bail_if bool_decide (StoredToolOutput.event_sequence stored
                       ≠ ToolOutputEventAnchor.event_sequence anchor)
       || bool_decide (ToolOutputRecord.effect_id record ≠ ToolOutputEventAnchor.effect_id anchor)
       || bool_decide (ToolOutputRecord.record_digest record
                       ≠ ToolOutputEventAnchor.record_digest anchor)
    with StoreError.Corrupt "tool output differs from its journal binding";;
  let? intent := ok_or (VerifiedRunIndex.intents index !! ToolOutputEventAnchor.effect_id anchor)
                   (StoreError.Corrupt "tool output has no effect intent") in
  map_err (λ _, StoreError.Corrupt "tool output record is invalid")
    (ToolOutputRecord_verify_for record (ToolOutputEventAnchor.run_id anchor)
       (ToolOutputEventAnchor.step_id anchor) (EffectIntentAnchor.intent intent)
       (ToolOutputEventAnchor.execution_attempt anchor)
       (ToolOutputEventAnchor.evidence_digest anchor)).

Definition index_tool_output (index : VerifiedRunIndex) (anchor : ToolOutputEventAnchor)
    (output : ToolOutputRecord) : res StoreError VerifiedRunIndex :=
  let effect_id := ToolOutputEventAnchor.effect_id anchor in
  bail_if bool_decide (effect_id ∈ VerifiedRunIndex.tool_output_effect_ids index)
       || bool_decide (ToolOutputRecord.output_id output ∈ VerifiedRunIndex.tool_output_ids index)
       || bool_decide (ToolOutputRecord.record_digest output
                       ∈ VerifiedRunIndex.tool_output_record_digests index)
       || bool_decide (is_Some (VerifiedRunIndex.tool_output_digests index !! effect_id))
       || bool_decide (is_Some (VerifiedRunIndex.tool_output_sizes index !! effect_id))
    with StoreError.Corrupt "duplicate tool-output identity";;
  Ok (record_tool_output effect_id output index).

Definition verify_tool_output_anchor (outputs : gmap string StoredToolOutput)
    (index : VerifiedRunIndex) (anchor : ToolOutputEventAnchor)
    : res StoreError VerifiedRunIndex :=
  let? stored := ok_or (outputs !! ToolOutputEventAnchor.effect_id anchor)
                   (StoreError.Corrupt "effect `{}` has no durable tool output") in
  let? _ := verify_stored_tool_output index anchor stored in
  index_tool_output index anchor (StoredToolOutput.record stored).

Definition verify_tool_output_records (index : VerifiedRunIndex)
    (outputs : gmap string StoredToolOutput) : res StoreError VerifiedRunIndex :=
  let events := VerifiedRunIndex.tool_output_events index in
  bail_if bool_decide (size events ≠ size outputs)
    with StoreError.Corrupt "tool-output count differs from output-bound success events: expected {}, actual {}";;
  let anchors := sort_by (on ToolOutputEventAnchor.event_sequence N.compare)
                   (btree_values events) in
  for_each (verify_tool_output_anchor outputs) anchors index.

Definition verify_tool_output_point (index : VerifiedRunIndex) (effect_id : string)
    (stored : option StoredToolOutput) : res StoreError unit :=
  match VerifiedRunIndex.tool_output_events index !! effect_id, stored with
  | None, None => Ok tt
  | None, Some _ => corrupt "tool output has no output-bound success event"
  | Some _, None => corrupt "output-bound success has no durable tool output"
  | Some anchor, Some stored => verify_stored_tool_output index anchor stored
  end.

(** ** Completion outputs *)

Definition completion_anchor_decision (anchor : CompletionOutputEventAnchor)
    : res StoreError ExpectedPlanningTurn :=
  map_err StoreError.PlanningContract
    (ExpectedPlanningTurn_for_model_call (CompletionOutputEventAnchor.turn_index anchor)
       (CompletionOutputEventAnchor.model_call_id anchor)
       (CompletionOutputEventAnchor.context_digest anchor)
       (CompletionOutputEventAnchor.proposal_digest anchor)).

Definition verify_completion_output_candidate (index : VerifiedRunIndex) (record : EventRecord)
    (output : CompletionOutputRecord) : res StoreError CompletionOutputEventAnchor :=
  bail_if bool_decide (is_Some (VerifiedRunIndex.completion_output_event index))
    with StoreError.Corrupt "duplicate completion-output identity";;
  let? anchor := VerifiedRunIndex_completion_output_anchor_for record in
  let? decision := completion_anchor_decision anchor in
  let? _ := map_err (λ _, StoreError.CompletionOutputBindingMismatch)
    (CompletionOutputRecord_verify_for output (CompletionOutputEventAnchor.run_id anchor) decision
       (CompletionOutputEventAnchor.candidate_id anchor)
       (CompletionOutputEventAnchor.summary_digest anchor)) in
  bail_if bool_decide (CompletionOutputRecord.record_digest output
                       ≠ CompletionOutputEventAnchor.record_digest anchor)
    with StoreError.CompletionOutputBindingMismatch;;
  Ok anchor.

Definition verify_stored_completion_output (anchor : CompletionOutputEventAnchor)
    (stored : StoredCompletionOutput) : res StoreError unit :=
  let record := StoredCompletionOutput.record stored in
  bail_if bool_decide (StoredCompletionOutput.event_sequence stored
                       ≠ CompletionOutputEventAnchor.event_sequence anchor)
       || bool_decide (CompletionOutputRecord.candidate_id record
                       ≠ CompletionOutputEventAnchor.candidate_id anchor)
       || bool_decide (CompletionOutputRecord.record_digest record
                       ≠ CompletionOutputEventAnchor.record_digest anchor)
    with StoreError.Corrupt "completion output differs from its journal binding";;
  let? decision := completion_anchor_decision anchor in
  map_err (λ _, StoreError.Corrupt "completion output record is invalid")
    (CompletionOutputRecord_verify_for record (CompletionOutputEventAnchor.run_id anchor) decision
       (CompletionOutputEventAnchor.candidate_id anchor)
       (CompletionOutputEventAnchor.summary_digest anchor)).

Definition verify_completion_output_record (index : VerifiedRunIndex)
    (stored : option StoredCompletionOutput) : res StoreError unit :=
  match VerifiedRunIndex.completion_output_event index, stored with
  | None, None => Ok tt
  | None, Some _ => corrupt "completion output has no digest-bound completion event"
  | Some _, None => corrupt "digest-bound completion event has no durable output"
  | Some anchor, Some stored => verify_stored_completion_output anchor stored
  end.

Definition build_completion_output (index : VerifiedRunIndex) (expected : ExpectedHead)
    (candidate_id : string) (stored : option StoredCompletionOutput)
    : res StoreError (option CompletionOutputRecord) :=
  let actual := VerifiedRunIndex_head index in
  bail_if bool_decide (expected ≠ actual) with StoreError.HeadConflict expected actual;;
  let candidate :=
    state ← VerifiedRunIndex.state index;
    loop_state ← RunState.agent_loop state;
    AgentLoopState.completion_candidate loop_state in
  match candidate with
  | None =>
      bail_if bool_decide (is_Some stored)
        with StoreError.Corrupt "completion output exists without a projected candidate";;
      Ok None
  | Some candidate =>
      if bool_decide (CompletionCandidateState.candidate_id candidate ≠ candidate_id) then Ok None
      else
        let? _ := verify_completion_output_record index stored in
        match CompletionCandidateState.completion_output_record_digest candidate, stored with
        | None, None => Ok None
        | Some expected_digest, Some stored =>
            if bool_decide (expected_digest = CompletionOutputRecord.record_digest
                                                (StoredCompletionOutput.record stored))
            then Ok (Some (StoredCompletionOutput.record stored))
            else corrupt "completion output differs from its projected candidate"
        | _, _ => corrupt "completion output differs from its projected candidate"
        end
  end.

(** ** Receipts *)

Definition verify_receipt_tool_output_binding (index : VerifiedRunIndex) (effect_id : string)
    (receipt : ExecutionReceiptBody) : res StoreError unit :=
  let? intent := ok_or (VerifiedRunIndex.intents index !! effect_id)
                   (StoreError.Corrupt "Receipt has no effect intent") in
  let profile := tool_output_profile (EffectIntentAnchor.intent intent) in
  let digest := VerifiedRunIndex.tool_output_digests index !! effect_id in
  if bool_decide (profile = Some TOOL_OUTPUT_PROFILE_V1) then
    if bool_decide (digest = Some (ExecutionReceiptBody.output_digest receipt)) then Ok tt
    else corrupt "Receipt output digest differs from the durable tool output"
  else
    match profile, digest with
    | None, None => Ok tt
    | _, _ => corrupt "tool-output profile and durable output differ"
    end.

Definition verify_receipt_candidate (index : VerifiedRunIndex) (record : EventRecord)
    (receipt : ExecutionReceiptBody) : res StoreError ReceiptEventAnchor :=
  let? anchor := VerifiedRunIndex_receipt_anchor_for index record in
  let effect_id := ReceiptEventAnchor.effect_id anchor in
  bail_if bool_decide (ExecutionReceiptBody.receipt_id receipt ∈ VerifiedRunIndex.receipt_ids index)
       || bool_decide (ExecutionReceiptBody.receipt_digest receipt
                       ∈ VerifiedRunIndex.receipt_digests index)
       || bool_decide (effect_id ∈ VerifiedRunIndex.receipt_effect_ids index)
    with StoreError.Corrupt "duplicate execution receipt identity";;
  bail_if bool_decide (ExecutionReceiptBody.receipt_id receipt
                       ≠ ReceiptEventAnchor.receipt_id anchor)
       || bool_decide (ExecutionReceiptBody.receipt_digest receipt
                       ≠ ReceiptEventAnchor.receipt_digest anchor)
       || bool_decide (ExecutionReceiptBody.run_id receipt ≠ ReceiptEventAnchor.run_id anchor)
       || bool_decide (ExecutionReceiptBody.step_id receipt ≠ ReceiptEventAnchor.step_id anchor)
       || bool_decide (ExecutionReceiptBody.previous_receipt_digest receipt
                       ≠ VerifiedRunIndex.receipt_head_digest index)
    with StoreError.Corrupt
           "execution receipt differs from its verified journal or chain anchor";;
  let? intent := expect (VerifiedRunIndex.intents index !! effect_id)
                   "Receipt anchor creation verifies the effect intent" in
  let intent := EffectIntentAnchor.intent intent in
  let? provenance := ok_or (EffectIntent.receipt_provenance intent)
                       StoreError.ReceiptProvenanceRequired in
  let? _ := verify_receipt_intent_binding receipt intent provenance
              (ReceiptEventAnchor.disposition anchor) in
  let? _ := verify_receipt_tool_output_binding index effect_id receipt in
  let? _ := verify_receipt_timestamps anchor receipt in
  Ok anchor.

(** One round of the audit of the receipt chain: the receipt against its anchor, the previous
    digest and its intent, ... *)
Definition verify_stored_receipt (index : VerifiedRunIndex) (previous_digest : option string)
    (anchor : ReceiptEventAnchor) (stored : StoredExecutionReceipt) : res StoreError unit :=
  let receipt := StoredExecutionReceipt.receipt stored in
  let effect_id := ReceiptEventAnchor.effect_id anchor in
  let? _ := map_err (λ _, StoreError.Corrupt "execution receipt document is invalid")
              (validate_execution_receipt receipt) in
  bail_if bool_decide (StoredExecutionReceipt.event_sequence stored
                       ≠ ReceiptEventAnchor.event_sequence anchor)
       || bool_decide (StoredExecutionReceipt.effect_id stored ≠ effect_id)
       || bool_decide (ExecutionReceiptBody.receipt_id receipt
                       ≠ ReceiptEventAnchor.receipt_id anchor)
       || bool_decide (ExecutionReceiptBody.receipt_digest receipt
                       ≠ ReceiptEventAnchor.receipt_digest anchor)
       || bool_decide (ExecutionReceiptBody.run_id receipt ≠ ReceiptEventAnchor.run_id anchor)
       || bool_decide (ExecutionReceiptBody.step_id receipt ≠ ReceiptEventAnchor.step_id anchor)
       || bool_decide (ExecutionReceiptBody.previous_receipt_digest receipt ≠ previous_digest)
    with StoreError.Corrupt "execution receipt differs from its journal binding";;
  let? intent := expect (VerifiedRunIndex.intents index !! effect_id)
                   "Receipt anchor creation verifies the effect intent" in
  let intent := EffectIntentAnchor.intent intent in
  let? provenance := ok_or (EffectIntent.receipt_provenance intent)
    (StoreError.Corrupt "execution receipt has no durable provenance") in
  let? _ := verify_receipt_intent_binding receipt intent provenance
              (ReceiptEventAnchor.disposition anchor) in
  let? _ := verify_receipt_tool_output_binding index effect_id receipt in
  verify_receipt_timestamps anchor receipt.

(** ... then the identities it adds to the index and the digest the next one must name. *)
Definition verify_receipt_record (chain : VerifiedRunIndex * option string)
    (pair : ReceiptEventAnchor * StoredExecutionReceipt)
    : res StoreError (VerifiedRunIndex * option string) :=
  let (index, previous_digest) := chain in
  let (anchor, stored) := pair in
  let receipt := StoredExecutionReceipt.receipt stored in
  let effect_id := ReceiptEventAnchor.effect_id anchor in
  let? _ := verify_stored_receipt index previous_digest anchor stored in
  bail_if bool_decide (ExecutionReceiptBody.receipt_id receipt ∈ VerifiedRunIndex.receipt_ids index)
       || bool_decide (ExecutionReceiptBody.receipt_digest receipt
                       ∈ VerifiedRunIndex.receipt_digests index)
       || bool_decide (effect_id ∈ VerifiedRunIndex.receipt_effect_ids index)
    with StoreError.Corrupt "execution receipt identity is duplicated";;
  Ok (record_receipt effect_id receipt index, Some (ExecutionReceiptBody.receipt_digest receipt)).

Definition verify_receipt_records (index : VerifiedRunIndex)
    (receipts : list StoredExecutionReceipt) : res StoreError VerifiedRunIndex :=
  let events := VerifiedRunIndex.receipt_events index in
  bail_if bool_decide (length events ≠ length receipts)
    with StoreError.Corrupt "execution receipt count differs from finalization events: expected {}, actual {}";;
  let? chain := for_each verify_receipt_record (zip events receipts) (index, None) in
  let (index, previous_digest) := chain in
  Ok (VerifiedRunIndex.set_receipt_head_digest previous_digest index).

(** ** Planning snapshots *)

(** [derive(Ord)] on the position, then the step id. *)
Definition position_compare : StepJournalPosition → StepJournalPosition → comparison :=
  lexi (on StepJournalPosition.event_sequence N.compare)
       (on StepJournalPosition.event_step_index N.compare).

Definition positioned_compare : StepJournalPosition * string → StepJournalPosition * string →
    comparison :=
  lexi (on fst position_compare) (on snd String.compare).

Definition planning_step_order (index : VerifiedRunIndex) (state : RunState)
    : res StoreError (list string) :=
  let positions := VerifiedRunIndex.step_positions index in
  bail_if bool_decide (size positions ≠ size (RunState.steps state))
       || existsb (λ step_id, bool_decide (RunState.steps state !! step_id = None))
            (btree_keys positions)
    with StoreError.Corrupt "journal Step chronology differs from the projected WorkGraph";;
  let positioned := map (λ entry, (entry.2, entry.1)) (btree_entries positions) in
  Ok (map snd (sort_by positioned_compare positioned)).

(** One passed receipt of a completed output: observed steps and the order so far. *)
Definition observe_receipt (acc : gset string * list string) (receipt : ReceiptEventAnchor)
    : res StoreError (gset string * list string) :=
  let (observed, order) := acc in
  let step_id := ReceiptEventAnchor.step_id receipt in
  bail_if bool_decide (step_id ∈ observed)
    with StoreError.Corrupt "completed ToolOutput has duplicate Receipt chronology";;
  Ok ({[step_id]} ∪ observed, order ++ [step_id]).

Definition receipt_compare : ReceiptEventAnchor → ReceiptEventAnchor → comparison :=
  lexi (on ReceiptEventAnchor.event_sequence N.compare)
       (on ReceiptEventAnchor.step_id String.compare).

Definition completed_tool_output_order (index : VerifiedRunIndex) (expected : gset string)
    : res StoreError (list string) :=
  let receipts :=
    filter (λ receipt, ReceiptEventAnchor.disposition receipt = VerificationDisposition.Passed
                       ∧ ReceiptEventAnchor.step_id receipt ∈ expected)
      (VerifiedRunIndex.receipt_events index) in
  let? acc := for_each observe_receipt (sort_by receipt_compare receipts) (∅, []) in
  let (observed, order) := acc in
  bail_if bool_decide (observed ≠ expected)
    with StoreError.Corrupt "completed ToolOutput chronology differs from passed Receipts";;
  Ok order.

(** The receipt a completed step's intent is indexed under. *)
Definition indexed_receipt (index : VerifiedRunIndex) (effect_id : string)
    : option ReceiptEventAnchor :=
  position ← VerifiedRunIndex.receipt_event_positions index !! effect_id;
  VerifiedRunIndex.receipt_events index !! N.to_nat position.

(** One step of the selection loop: the selections and the bytes they take. *)
Definition select_output (index : VerifiedRunIndex) (max_output_bytes : N)
    (acc : list (string * string * string) * N) (entry : string * StepState)
    : res StoreError (list (string * string * string) * N) :=
  let (selections, selected_output_bytes) := acc in
  let (step_id, step) := entry in
  if bool_decide (StepState.status step ≠ StepStatus.Completed) then Ok acc
  else
    match StepState.output_record_digest step with
    | None => Ok acc
    | Some expected_record_digest =>
        let? intent := ok_or (StepState.intent step)
          (StoreError.Corrupt "completed output-bound Step has no committed effect intent") in
        let? receipt_id := ok_or (StepState.execution_receipt_id step)
          (StoreError.Corrupt "completed output-bound Step has no Core Receipt ID") in
        let? receipt_digest := ok_or (StepState.execution_receipt_digest step)
          (StoreError.Corrupt "completed output-bound Step has no Core Receipt digest") in
        let effect_id := EffectIntent.effect_id intent in
        let? receipt_anchor := ok_or (indexed_receipt index effect_id)
          (StoreError.Corrupt "completed output-bound Step has no verified Core Receipt") in
        bail_if bool_decide (ReceiptEventAnchor.step_id receipt_anchor ≠ step_id)
             || bool_decide (ReceiptEventAnchor.disposition receipt_anchor
                             ≠ VerificationDisposition.Passed)
             || bool_decide (ReceiptEventAnchor.receipt_id receipt_anchor ≠ receipt_id)
             || bool_decide (ReceiptEventAnchor.receipt_digest receipt_anchor ≠ receipt_digest)
             || bool_decide (effect_id ∉ VerifiedRunIndex.receipt_effect_ids index)
          with StoreError.Corrupt "completed tool output differs from its passed Core Receipt";;
        let? output_size := ok_or (VerifiedRunIndex.tool_output_sizes index !! effect_id)
          (StoreError.Corrupt "completed tool output has no verified size commitment") in
        let? selected_output_bytes :=
          ok_or (checked_add u64_max selected_output_bytes output_size)
            StoreError.PlanningSnapshotBudgetExceeded in
        bail_if bool_decide (max_output_bytes < selected_output_bytes)%N
          with StoreError.PlanningSnapshotBudgetExceeded;;
        Ok (selections ++ [(step_id, effect_id, expected_record_digest)], selected_output_bytes)
    end.

(** One round of the loading loop. *)
Definition load_selection (index : VerifiedRunIndex)
    (load_output : string → res StoreError (option StoredToolOutput))
    (completed : gmap string ToolOutputRecord) (selection : string * string * string)
    : res StoreError (gmap string ToolOutputRecord) :=
  let '(step_id, effect_id, expected_record_digest) := selection in
  let? stored := load_output effect_id in
  let? _ := verify_tool_output_point index effect_id stored in
  let? stored := ok_or stored
    (StoreError.Corrupt "completed output-bound Step has no durable tool output") in
  let record := StoredToolOutput.record stored in
  bail_if bool_decide (ToolOutputRecord.step_id record ≠ step_id)
       || bool_decide (ToolOutputRecord.record_digest record ≠ expected_record_digest)
       || bool_decide (VerifiedRunIndex.tool_output_digests index !! effect_id
                       ≠ Some (ToolOutputRecord.output_digest record))
    with StoreError.Corrupt "completed tool output differs from its verified projection";;
  insert_new "completed tool output Step identity is duplicated" step_id record completed.

Definition build_planning_snapshot (index : VerifiedRunIndex) (expected : ExpectedHead)
    (max_output_bytes : N) (load_output : string → res StoreError (option StoredToolOutput))
    : res StoreError (option RunPlanningSnapshot) :=
  let actual := VerifiedRunIndex_head index in
  bail_if bool_decide (expected ≠ actual) with StoreError.HeadConflict expected actual;;
  match VerifiedRunIndex.state index with
  | None => Ok None
  | Some state =>
      let? step_order := planning_step_order index state in
      let? selected := for_each (select_output index max_output_bytes)
                         (btree_entries (RunState.steps state)) ([], 0%N) in
      let? completed_tool_outputs :=
        for_each (load_selection index load_output) selected.1 ∅ in
      let? output_order := completed_tool_output_order index (dom completed_tool_outputs) in
      Ok (Some (RunPlanningSnapshot.mk state step_order output_order completed_tool_outputs))
  end.

End sidecars.

(** [canonical_jsonl]: one RFC 8785 line per record. *)
Definition canonical_line `{Crypto} {A} `{Serialize A} (output : string) (record : A)
    : res StoreError string :=
  match jcs_to_vec (ser record) with
  | inl error => Err (StoreError.Canonicalization error)
  | inr line => Ok (output +:+ line +:+ String "010"%char EmptyString)%string
  end.

Definition canonical_jsonl `{Crypto} {A} `{Serialize A} (records : list A)
    : res StoreError string :=
  for_each canonical_line records EmptyString.
