(* ===== verification/MemoryStore.v ===== *)
(** The [RunStore] trait with its default methods (crates/xgeny-local-store/src/lib.rs) and
    the in-memory store that implements it (crates/xgeny-local-store/src/memory.rs).

    A method that takes [&mut self] returns the store it leaves beside its result.  Every
    assignment of the in-memory store follows its last early return, so an error leaves the
    store as it was and carries none. *)

From Stdlib Require Import Ascii.
From S2P Require Import Prelude Text Wire WorkGraphTypes WorkGraphErrors WorkGraphWire Planning.
From S2P Require Import Material ToolOutput Completion Journal Reducer Receipt StoreTypes.
From S2P Require Import StoreBundles StoreIndex StoreSidecars.

#[export] Instance ser_EventRecord : Serialize EventRecord := λ r,
  obj (field "sequence" (EventRecord.sequence r)
    ++ field "previousDigest" (EventRecord.previous_digest r)
    ++ field "event" (EventRecord.event r)
    ++ field "digest" (EventRecord.digest r)).

(** ** The trait *)

Class RunStore (S : Type) : Type := {
  append : S → ExpectedHead → RunEvent → res StoreError (Commit * S);
  append_with_plan_inputs : S → ExpectedHead → RunEvent → list PlannedInvocationMaterialRecord →
    res StoreError (Commit * S);
  append_with_invocation_material : S → ExpectedHead → RunEvent → InvocationMaterialRecord →
    res StoreError (Commit * S);
  append_with_execution_receipt : S → ExpectedHead → RunEvent → ExecutionReceiptBody →
    res StoreError (Commit * S);
  append_with_tool_output : S → ExpectedHead → RunEvent → ToolOutputRecord →
    res StoreError (Commit * S);
  append_with_completion_output : S → ExpectedHead → RunEvent → CompletionOutputRecord →
    res StoreError (Commit * S);
  load : S → res StoreError (option RunSnapshot);
  load_current : S → res StoreError (option RunState);
  load_invocation_material : S → string → res StoreError (option InvocationMaterialRecord);
  load_planned_invocation : S → string → res StoreError (option PlannedInvocationMaterialRecord);
  load_execution_receipts : S → res StoreError (list ExecutionReceiptBody);
  load_tool_output : S → string → res StoreError (option ToolOutputRecord);
  load_completion_output : S → ExpectedHead → string →
    res StoreError (option CompletionOutputRecord);
  load_with_execution_receipts : S →
    res StoreError (option RunSnapshot * list ExecutionReceiptBody);
  load_verification_snapshot : S → string → res StoreError (option RunVerificationSnapshot);
  load_planning_snapshot : S → ExpectedHead → N → res StoreError (option RunPlanningSnapshot);
}.

(** The trait's default bodies, for an implementation that does not override them. *)
Section defaults.
Context {S : Type} `{RunStore S}.

Definition default_load_current (store : S) : res StoreError (option RunState) :=
  let? snapshot := load store in
  Ok (RunSnapshot.state <$> snapshot).

Definition default_load_with_execution_receipts (store : S)
    : res StoreError (option RunSnapshot * list ExecutionReceiptBody) :=
  let? snapshot := load store in
  let? receipts := load_execution_receipts store in
  Ok (snapshot, receipts).

(** The start time a record gives for this step and effect. *)
Definition start_of (step_id effect_id : string) (record : EventRecord) : option string :=
  match RunEvent.body (EventRecord.event record) with
  | RunEventBody.EffectExecutionStarted candidate_step candidate_effect =>
      if bool_decide (candidate_step = step_id) && bool_decide (candidate_effect = effect_id)
      then Some (RunEvent.recorded_at (EventRecord.event record)) else None
  | _ => None
  end.

Definition default_load_verification_snapshot (store : S) (step_id : string)
    : res StoreError (option RunVerificationSnapshot) :=
  let? loaded := load_with_execution_receipts store in
  let (snapshot, receipts) := loaded in
  match snapshot with
  | None => Ok None
  | Some snapshot =>
      let step := RunState.steps (RunSnapshot.state snapshot) !! step_id in
      let effect_id :=
        step ← step; intent ← StepState.intent step; Some (EffectIntent.effect_id intent) in
      let output_required :=
        match step with
        | Some step => bool_decide (is_Some (StepState.output_record_digest step))
        | None => false
        end in
      let effect_started_at :=
        effect_id ← effect_id;
        head (omap (start_of step_id effect_id) (reverse (RunSnapshot.records snapshot))) in
      let? tool_output :=
        match output_required, effect_id with
        | true, Some effect_id => load_tool_output store effect_id
        | _, _ => Ok None
        end in
      Ok (Some (RunVerificationSnapshot.mk (RunSnapshot.state snapshot) effect_started_at
                  (ExecutionReceiptBody.receipt_digest <$> last receipts) tool_output))
  end.

(** [export_jsonl] and [export_execution_receipts_jsonl]. *)
Definition export_jsonl `{Crypto} (store : S) : res StoreError string :=
  let? snapshot := load store in
  canonical_jsonl match snapshot with Some snapshot => RunSnapshot.records snapshot | None => [] end.

Definition export_execution_receipts_jsonl `{Crypto} (store : S) : res StoreError string :=
  let? receipts := load_execution_receipts store in
  canonical_jsonl (map ExecutionReceipt receipts).
End defaults.

(** ** The in-memory store *)

Module MemoryRunStore.
Record MemoryRunStore : Type := mk {
  records : list EventRecord;
  projection : option RunState;
  plan_inputs : gmap string PlannedInvocationMaterialRecord;
  materials : gmap string InvocationMaterialRecord;
  receipts : list StoredExecutionReceipt;
  outputs : gmap string StoredToolOutput;
  completion_output : option StoredCompletionOutput;
  index : VerifiedRunIndex;
}.

Definition new : MemoryRunStore := mk [] None ∅ ∅ [] ∅ None VerifiedRunIndex.default.

Definition set_plan_inputs v (s : MemoryRunStore) : MemoryRunStore :=
  mk (records s) (projection s) v (materials s) (receipts s) (outputs s) (completion_output s)
    (index s).
Definition set_materials v (s : MemoryRunStore) : MemoryRunStore :=
  mk (records s) (projection s) (plan_inputs s) v (receipts s) (outputs s) (completion_output s)
    (index s).
Definition set_receipts v (s : MemoryRunStore) : MemoryRunStore :=
  mk (records s) (projection s) (plan_inputs s) (materials s) v (outputs s) (completion_output s)
    (index s).
Definition set_outputs v (s : MemoryRunStore) : MemoryRunStore :=
  mk (records s) (projection s) (plan_inputs s) (materials s) (receipts s) v (completion_output s)
    (index s).
Definition set_completion_output v (s : MemoryRunStore) : MemoryRunStore :=
  mk (records s) (projection s) (plan_inputs s) (materials s) (receipts s) (outputs s) v (index s).

(** [self.records.push(..)], [self.projection = Some(..)] and the new index. *)
Definition commit_record (commit : Commit) (v : VerifiedRunIndex) (s : MemoryRunStore)
    : MemoryRunStore :=
  mk (records s ++ [Commit.record commit]) (Some (Commit.state commit)) (plan_inputs s)
    (materials s) (receipts s) (outputs s) (completion_output s) v.
End MemoryRunStore.
Abbreviation MemoryRunStore := MemoryRunStore.MemoryRunStore.

Section memory.
Context `{Crypto} `{ReceiptSchema} `{Rfc3339}.

(** The five bundle checks every append opens with. *)
Definition verify_bundles (event : RunEvent) (inputs : option (list PlannedInvocationMaterialRecord))
    (material : option InvocationMaterialRecord) (receipt : option ExecutionReceiptBody)
    (output : option ToolOutputRecord) (completion_output : option CompletionOutputRecord)
    : res StoreError unit :=
  let? _ := verify_plan_input_bundle event inputs in
  let? _ := verify_material_bundle event material in
  let? _ := verify_receipt_bundle event receipt in
  let? _ := verify_tool_output_bundle event output in
  verify_completion_output_bundle event completion_output.

Definition MemoryRunStore_append (self : MemoryRunStore) (expected : ExpectedHead)
    (event : RunEvent) : res StoreError (Commit * MemoryRunStore) :=
  let? _ := verify_bundles event None None None None None in
  let? commit := prepare_commit (MemoryRunStore.index self) expected event in
  let? index := VerifiedRunIndex_apply_committed (MemoryRunStore.index self) commit
                  CommitSidecars.default CommitAnchors.default in
  Ok (commit, MemoryRunStore.commit_record commit index self).

(** The loop that refuses an input whose step already has one. *)
Definition fresh_plan_input (self : MemoryRunStore) (input : PlannedInvocationMaterialRecord)
    : res StoreError unit :=
  let step_id := PlannedInvocationMaterialRecord.step_id input in
  bail_if bool_decide (step_id ∈ VerifiedRunIndex.plan_input_step_ids (MemoryRunStore.index self))
       || bool_decide (is_Some (MemoryRunStore.plan_inputs self !! step_id))
    with StoreError.Corrupt "duplicate planned invocation input Step ID";;
  Ok tt.

Definition store_plan_input (stored : gmap string PlannedInvocationMaterialRecord)
    (input : PlannedInvocationMaterialRecord) : gmap string PlannedInvocationMaterialRecord :=
  <[PlannedInvocationMaterialRecord.step_id input := input]> stored.

Definition MemoryRunStore_append_with_plan_inputs (self : MemoryRunStore) (expected : ExpectedHead)
    (event : RunEvent) (inputs : list PlannedInvocationMaterialRecord)
    : res StoreError (Commit * MemoryRunStore) :=
  let? _ := verify_bundles event (Some inputs) None None None None in
  let? commit := prepare_commit (MemoryRunStore.index self) expected event in
  let? _ := for_each (λ _, fresh_plan_input self) inputs tt in
  let? index := VerifiedRunIndex_apply_committed (MemoryRunStore.index self) commit
                  (CommitSidecars.plan_inputs inputs) CommitAnchors.default in
  Ok (commit, MemoryRunStore.set_plan_inputs
                (foldl store_plan_input (MemoryRunStore.plan_inputs self) inputs)
                (MemoryRunStore.commit_record commit index self)).

Definition MemoryRunStore_append_with_invocation_material (self : MemoryRunStore)
    (expected : ExpectedHead) (event : RunEvent) (material : InvocationMaterialRecord)
    : res StoreError (Commit * MemoryRunStore) :=
  let? _ := verify_bundles event None (Some material) None None None in
  let planned_input :=
    match RunEvent.body event with
    | RunEventBody.EffectIntentCommitted step_id _ => MemoryRunStore.plan_inputs self !! step_id
    | _ => None
    end in
  let? _ := verify_planned_material_retention (MemoryRunStore.index self) event material
              planned_input in
  let? commit := prepare_commit (MemoryRunStore.index self) expected event in
  let effect_id := InvocationMaterialRecord.effect_id material in
  bail_if bool_decide (effect_id ∈ VerifiedRunIndex.material_effect_ids (MemoryRunStore.index self))
    with StoreError.Corrupt "duplicate invocation material effect ID";;
  let materials := <[effect_id := material]> (MemoryRunStore.materials self) in
  let? key := match RunEvent.body (EventRecord.event (Commit.record commit)) with
              | RunEventBody.EffectIntentCommitted _ intent => Ok (EffectIntent.effect_id intent)
              | _ => Panic "material bundle requires an effect intent"
              end in
  let? material := expect (materials !! key) "committed material must be indexed" in
  let? index := VerifiedRunIndex_apply_committed (MemoryRunStore.index self) commit
                  (CommitSidecars.material material) CommitAnchors.default in
  Ok (commit, MemoryRunStore.set_materials materials
                (MemoryRunStore.commit_record commit index self)).

Definition MemoryRunStore_append_with_execution_receipt (self : MemoryRunStore)
    (expected : ExpectedHead) (event : RunEvent) (receipt : ExecutionReceiptBody)
    : res StoreError (Commit * MemoryRunStore) :=
  let? _ := verify_bundles event None None (Some receipt) None None in
  let? commit := prepare_commit (MemoryRunStore.index self) expected event in
  let record := Commit.record commit in
  let? receipt_anchor := verify_receipt_candidate (MemoryRunStore.index self) record receipt in
  let? effect_id := match RunEvent.body (EventRecord.event record) with
                    | RunEventBody.VerificationRecorded _ effect_id _ _ _ => Ok effect_id
                    | _ => Panic "receipt bundle validation requires a finalization event"
                    end in
  let stored := StoredExecutionReceipt.mk (EventRecord.sequence record) effect_id receipt in
  let? index := VerifiedRunIndex_apply_committed (MemoryRunStore.index self) commit
                  (CommitSidecars.receipt (StoredExecutionReceipt.receipt stored))
                  (CommitAnchors.mk None None (Some receipt_anchor)) in
  Ok (commit, MemoryRunStore.set_receipts (MemoryRunStore.receipts self ++ [stored])
                (MemoryRunStore.commit_record commit index self)).

Definition MemoryRunStore_append_with_tool_output (self : MemoryRunStore)
    (expected : ExpectedHead) (event : RunEvent) (output : ToolOutputRecord)
    : res StoreError (Commit * MemoryRunStore) :=
  let? _ := verify_bundles event None None None (Some output) None in
  let? commit := prepare_commit (MemoryRunStore.index self) expected event in
  let record := Commit.record commit in
  let? output_anchor := verify_tool_output_candidate (MemoryRunStore.index self) record output in
  let effect_id := ToolOutputRecord.effect_id output in
  bail_if bool_decide (is_Some (MemoryRunStore.outputs self !! effect_id))
    with StoreError.Corrupt "duplicate tool output effect ID";;
  let outputs := <[effect_id := StoredToolOutput.mk (EventRecord.sequence record) output]>
                   (MemoryRunStore.outputs self) in
  let? key := match RunEvent.body (EventRecord.event record) with
              | RunEventBody.EffectSucceeded _ effect_id _ _ => Ok effect_id
              | _ => Panic "tool-output bundle requires a success event"
              end in
  let? stored := expect (outputs !! key) "committed tool output must be retained" in
  let? index := VerifiedRunIndex_apply_committed (MemoryRunStore.index self) commit
                  (CommitSidecars.output (StoredToolOutput.record stored))
                  (CommitAnchors.mk (Some output_anchor) None None) in
  Ok (commit, MemoryRunStore.set_outputs outputs (MemoryRunStore.commit_record commit index self)).

Definition MemoryRunStore_append_with_completion_output (self : MemoryRunStore)
    (expected : ExpectedHead) (event : RunEvent) (output : CompletionOutputRecord)
    : res StoreError (Commit * MemoryRunStore) :=
  let? _ := verify_bundles event None None None None (Some output) in
  let? commit := prepare_commit (MemoryRunStore.index self) expected event in
  let record := Commit.record commit in
  let? output_anchor :=
    verify_completion_output_candidate (MemoryRunStore.index self) record output in
  bail_if bool_decide (is_Some (MemoryRunStore.completion_output self))
    with StoreError.Corrupt "duplicate completion output";;
  let stored := StoredCompletionOutput.mk (EventRecord.sequence record) output in
  let? index := VerifiedRunIndex_apply_committed (MemoryRunStore.index self) commit
                  (CommitSidecars.completion_output (StoredCompletionOutput.record stored))
                  (CommitAnchors.mk None (Some output_anchor) None) in
  Ok (commit, MemoryRunStore.set_completion_output (Some stored)
                (MemoryRunStore.commit_record commit index self)).

(** The audited index: the journal's index, checked against every stored sidecar. *)
Definition MemoryRunStore_load (self : MemoryRunStore) : res StoreError (option RunSnapshot) :=
  let? audited := audit_snapshot (MemoryRunStore.records self) (MemoryRunStore.projection self) in
  let (snapshot, audited_index) := audited in
  let? audited_index :=
    verify_plan_input_records audited_index (MemoryRunStore.plan_inputs self) in
  let? audited_index := verify_material_records audited_index (MemoryRunStore.materials self) in
  let? audited_index := verify_tool_output_records audited_index (MemoryRunStore.outputs self) in
  let? audited_index := verify_receipt_records audited_index (MemoryRunStore.receipts self) in
  let? _ := verify_completion_output_record audited_index
              (MemoryRunStore.completion_output self) in
  bail_if bool_decide (audited_index ≠ MemoryRunStore.index self)
    with StoreError.Corrupt "in-memory verified index differs from committed data";;
  Ok snapshot.

Definition MemoryRunStore_load_current (self : MemoryRunStore) : res StoreError (option RunState) :=
  Ok (MemoryRunStore.projection self).

Definition MemoryRunStore_load_invocation_material (self : MemoryRunStore) (effect_id : string)
    : res StoreError (option InvocationMaterialRecord) :=
  let material := MemoryRunStore.materials self !! effect_id in
  let? _ := verify_material_point (MemoryRunStore.index self) effect_id material in
  Ok material.

Definition MemoryRunStore_load_planned_invocation (self : MemoryRunStore) (step_id : string)
    : res StoreError (option PlannedInvocationMaterialRecord) :=
  let input := MemoryRunStore.plan_inputs self !! step_id in
  let? _ := verify_plan_input_point (MemoryRunStore.index self) step_id input in
  Ok input.

Definition MemoryRunStore_load_execution_receipts (self : MemoryRunStore)
    : res StoreError (list ExecutionReceiptBody) :=
  Ok (map StoredExecutionReceipt.receipt (MemoryRunStore.receipts self)).

Definition MemoryRunStore_load_tool_output (self : MemoryRunStore) (effect_id : string)
    : res StoreError (option ToolOutputRecord) :=
  let output := MemoryRunStore.outputs self !! effect_id in
  let? _ := verify_tool_output_point (MemoryRunStore.index self) effect_id output in
  Ok (StoredToolOutput.record <$> output).

Definition MemoryRunStore_load_completion_output (self : MemoryRunStore) (expected : ExpectedHead)
    (candidate_id : string) : res StoreError (option CompletionOutputRecord) :=
  build_completion_output (MemoryRunStore.index self) expected candidate_id
    (MemoryRunStore.completion_output self).

Definition MemoryRunStore_load_with_execution_receipts (self : MemoryRunStore)
    : res StoreError (option RunSnapshot * list ExecutionReceiptBody) :=
  let? snapshot := MemoryRunStore_load self in
  Ok (snapshot, map StoredExecutionReceipt.receipt (MemoryRunStore.receipts self)).

Definition MemoryRunStore_load_verification_snapshot (self : MemoryRunStore) (step_id : string)
    : res StoreError (option RunVerificationSnapshot) :=
  match VerifiedRunIndex_verification_snapshot (MemoryRunStore.index self) step_id with
  | None => Ok None
  | Some snapshot =>
      let effect_id :=
        step ← RunState.steps (RunVerificationSnapshot.state snapshot) !! step_id;
        intent ← StepState.intent step;
        Some (EffectIntent.effect_id intent) in
      let stored := effect_id ← effect_id; MemoryRunStore.outputs self !! effect_id in
      let snapshot :=
        RunVerificationSnapshot.set_tool_output (StoredToolOutput.record <$> stored) snapshot in
      let? _ := match effect_id with
                | Some effect_id =>
                    verify_tool_output_point (MemoryRunStore.index self) effect_id
                      (MemoryRunStore.outputs self !! effect_id)
                | None => Ok tt
                end in
      Ok (Some snapshot)
  end.

Definition MemoryRunStore_load_planning_snapshot (self : MemoryRunStore) (expected : ExpectedHead)
    (max_output_bytes : N) : res StoreError (option RunPlanningSnapshot) :=
  build_planning_snapshot (MemoryRunStore.index self) expected max_output_bytes
    (λ effect_id, Ok (MemoryRunStore.outputs self !! effect_id)).

#[export] Instance MemoryRunStore_RunStore : RunStore MemoryRunStore := {|
  append := MemoryRunStore_append;
  append_with_plan_inputs := MemoryRunStore_append_with_plan_inputs;
  append_with_invocation_material := MemoryRunStore_append_with_invocation_material;
  append_with_execution_receipt := MemoryRunStore_append_with_execution_receipt;
  append_with_tool_output := MemoryRunStore_append_with_tool_output;
  append_with_completion_output := MemoryRunStore_append_with_completion_output;
  load := MemoryRunStore_load;
  load_current := MemoryRunStore_load_current;
  load_invocation_material := MemoryRunStore_load_invocation_material;
  load_planned_invocation := MemoryRunStore_load_planned_invocation;
  load_execution_receipts := MemoryRunStore_load_execution_receipts;
  load_tool_output := MemoryRunStore_load_tool_output;
  load_completion_output := MemoryRunStore_load_completion_output;
  load_with_execution_receipts := MemoryRunStore_load_with_execution_receipts;
  load_verification_snapshot := MemoryRunStore_load_verification_snapshot;
  load_planning_snapshot := MemoryRunStore_load_planning_snapshot;
|}.

End memory.
