(* ===== verification/Host.v ===== *)
(** What the runtime crate (crates/xgeny-runtime/src) asks of its host: a store, a lease, an
    event factory, adapters, verifiers, material providers and JSON Schema validators.

    The machine a runtime program runs on is the store it borrows and the rest of the world;
    a trait object is a handle whose state is part of that world, so a call through [&mut]
    changes the world. *)

From S2P Require Import Prelude Program Text Wire WorkGraphTypes Domain StoreTypes StoreBundles.
From S2P Require Import Journal Material ToolOutput Completion Receipt MemoryStore.

Module Machine.
Record Machine (S W : Type) : Type := mk { store : S; world : W }.
Arguments mk {S W}.
Arguments store {S W}.
Arguments world {S W}.
Definition set_store {S W} (v : S) (m : Machine S W) : Machine S W := mk v (world m).
End Machine.
Abbreviation Machine := Machine.Machine.

(** ** The store, called from a program *)

Section store.
Context {S W : Type} `{RunStore S}.

(** A method that takes [&self]. *)
Definition reads {X} (f : S → X) : prog (Machine S W) X :=
  call (λ m, (f (Machine.store m), m)).

(** A method that takes [&mut self]: a failure leaves the store as it was. *)
Definition writes (f : S → res StoreError (Commit * S)) : prog (Machine S W) (res StoreError Commit) :=
  call (λ m, match f (Machine.store m) with
             | Ok (commit, s) => (Ok commit, Machine.set_store s m)
             | Err e => (Err e, m)
             | Panic why => (Panic why, m)
             end).

(** Any other collaborator. *)
Definition asks {X} (f : W → X * W) : prog (Machine S W) X :=
  call (λ m, let '(x, w) := f (Machine.world m) in (x, Machine.mk (Machine.store m) w)).
End store.

(** ** Leases and event metadata *)

Module RunLease.
Class RunLease (L : Type) : Type := run_id : L → string.
End RunLease.
Abbreviation RunLease := RunLease.RunLease.

Module EventMetadata.
Record EventMetadata : Type := mk { event_id : string; recorded_at : string }.
End EventMetadata.
Abbreviation EventMetadata := EventMetadata.EventMetadata.

Module EventMetadataError.
Inductive EventMetadataError : Type := EventMetadataError_.
End EventMetadataError.
Abbreviation EventMetadataError := EventMetadataError.EventMetadataError.

Module EventFactoryError.
Record EventFactoryError : Type := new { message : string }.
End EventFactoryError.
Abbreviation EventFactoryError := EventFactoryError.EventFactoryError.

Class EventFactory (W : Type) : Type :=
  create_metadata : RunState → W → res EventFactoryError EventMetadata * W.

Definition EventMetadata_validate `{Rfc3339} (self : EventMetadata) : res EventMetadataError unit :=
  match OffsetDateTime_parse (EventMetadata.recorded_at self) with
  | Some _ => Ok tt
  | None => Err EventMetadataError.EventMetadataError_
  end.

(** The event every caller of [create_metadata] builds: the head's run and authority, the
    metadata and a body. *)
Definition event_for (state : RunState) (metadata : EventMetadata) (body : RunEventBody) : RunEvent :=
  RunEvent.mk (EventMetadata.event_id metadata) (RunState.run_id state) (RunState.authority state)
    (RunState.authority_epoch state) (EventMetadata.recorded_at metadata) body.

(** ** The executing platform: [std::env::consts] *)

Class Target : Type := { OS : string; ARCH : string }.

Definition LOCAL_EXECUTOR_ID : string := "xgeny-local".
Definition local_executor_platform `{Target} : string := OS +:+ "-" +:+ ARCH.

(** ** JSON Schema: [jsonschema::options()...build(schema)] and [is_valid] *)

Class JsonSchema : Type := build_validator : Value → option (Value → bool).

(** [derive(PartialEq)] of the material descriptor, which a prepared effect is compared by. *)
#[export] Instance InvocationMaterialRecord_eq_dec : EqDecision InvocationMaterialRecord.
Proof. solve_decision. Defined.
