(* ===== verification/Invocation.v ===== *)
(** Invocation facts: the digests and checks that bind an invocation to a capability
    definition, its normalized arguments, its resources and its accepted plan
    (crates/xgeny-runtime/src/admission.rs, the part that touches no store). *)

From S2P Require Import Prelude Text Wire Domain Resolution Broker Registry Router DomainWire.
From S2P Require Import WorkGraphTypes WorkGraphErrors Planning Material Frontier Receipt.
From S2P Require Import StoreTypes Host.

Definition MAX_ARGUMENTS_SIZE_BYTES : N := 1024 * 1024.
Definition ONCE_MAX_USES : N := 1.

Module AdmissionError.
Inductive AdmissionError : Type :=
| Store (error : StoreError)
| EventFactory (error : EventFactoryError)
| EventMetadata (error : EventMetadataError)
| Resolution (error : InvocationResolutionError)
| Broker (error : BrokerError)
| Route (error : RouteInputError)
| AuthorizationDigest (error : AuthorizationDigestError)
| InvocationMaterial (error : InvocationMaterialError)
| PlanningContract (error : PlanningContractError)
| Protocol (error : ProtocolError)
| Json (message : string)
| RunNotInitialized
| LeaseRunMismatch (lease_run_id state_run_id : string)
| StepNotFound (step_id : string)
| StepNotPlanned (step_id : string) (actual : StepStatus)
| StepDependencyUnknown (step_id dependency_id : string)
| StepDependencyNotReleased (step_id dependency_id : string) (reason : DependencyBlockReason)
| PlannedInputMissing (step_id : string)
| PlannedInvocationMismatch (step_id field : string)
| RunHeadChanged
| DefinitionNotFound (capability_id contract_version : string)
| DefinitionChanged
| UnsupportedExecutionStyle
| UnplannedReadOnlyUnsupported
| IdempotencyKeyFeatureRequired
| DefinitionDoesNotSupportIdempotencyKey
| UnsupportedEffectClass (effect_class : Domain.EffectClass)
| DefinitionInputSchemaInvalid
| ArgumentsDoNotConform
| ArgumentsTooLarge (actual maximum : N)
| Canonicalization (message : string)
| ManagedPolicyUnsupported
| SelectedInstanceMissing (instance_id : string)
| UnsupportedExecutorPlacement (placement : Placement)
| SelectedRouteWithoutPolicyAllow
| NonOnceAuthorization
| CriticalAuthorizationUnsupported
| PolicyAllowanceDetached
| PolicyDecisionInvalid.
End AdmissionError.
Abbreviation AdmissionError := AdmissionError.AdmissionError.

(** The definition a reference names, or the error every caller raises. *)
Definition find_definition (registry : CapabilityRegistry) (capability : CapabilityRef)
    : res AdmissionError CapabilityDefinitionBody :=
  ok_or (definition registry capability)
    (AdmissionError.DefinitionNotFound (CapabilityRef.capability_id capability)
       (CapabilityRef.contract_version capability)).

Definition find_step (state : RunState) (step_id : string) : res AdmissionError StepState :=
  ok_or (RunState.steps state !! step_id) (AdmissionError.StepNotFound step_id).

Definition effect_class_of (definition : CapabilityDefinitionBody) : Domain.EffectClass :=
  CapabilityEffect.class (CapabilitySpec.effect (CapabilityDefinitionBody.spec definition)).

Definition execution_of (definition : CapabilityDefinitionBody) : CapabilityExecution :=
  CapabilitySpec.execution (CapabilityDefinitionBody.spec definition).

Definition map_effect_class (effect_class : Domain.EffectClass) : res AdmissionError EffectClass :=
  match effect_class with
  | Domain.EffectClass.ReadOnly => Ok EffectClass.ReadOnly
  | Domain.EffectClass.Idempotent => Ok EffectClass.Idempotent
  | Domain.EffectClass.NonIdempotent => Ok EffectClass.NonIdempotent
  | Domain.EffectClass.Compensatable | Domain.EffectClass.Unknown =>
      Err (AdmissionError.UnsupportedEffectClass effect_class)
  end.

(** ** Arguments *)

Section arguments.
Context `{Crypto} `{JsonSchema}.

Definition validate_argument_size (arguments : Value) : res AdmissionError unit :=
  let? size := match jcs_to_vec arguments with
               | inl message => Err (AdmissionError.Canonicalization message)
               | inr canonical => Ok (strlen canonical)
               end in
  bail_if bool_decide (MAX_ARGUMENTS_SIZE_BYTES < size)%N
    with AdmissionError.ArgumentsTooLarge size MAX_ARGUMENTS_SIZE_BYTES;;
  Ok tt.

Definition validate_arguments (definition : CapabilityDefinitionBody) (arguments : Value)
    : res AdmissionError unit :=
  let? _ := validate_argument_size arguments in
  let? is_valid :=
    ok_or (build_validator (CapabilitySpec.input_schema (CapabilityDefinitionBody.spec definition)))
      AdmissionError.DefinitionInputSchemaInvalid in
  bail_if negb (is_valid arguments) with AdmissionError.ArgumentsDoNotConform;;
  Ok tt.
End arguments.

(** ** Digests *)

Definition RequestIdentityDigestInput (run_id step_id : string) (capability : CapabilityRef)
    (arguments : Value) : Value :=
  obj (field "domain" ("xgeny.permission-request/v1" : string)
    ++ field "runId" run_id ++ field "stepId" step_id
    ++ field "capability" capability ++ field "arguments" arguments).

Definition DefinitionContractDigestInput (definition : CapabilityDefinitionBody) : Value :=
  let metadata := CapabilityDefinitionBody.metadata definition in
  obj (field "domain" ("xgeny.capability-contract/v1" : string)
    ++ field "capabilityId" (CapabilityMetadata.id metadata)
    ++ field "contractVersion" (CapabilityMetadata.contract_version metadata)
    ++ field "spec" (CapabilityDefinitionBody.spec definition)
    ++ field "requiredExtensions" (CapabilityDefinitionBody.required_extensions definition)).

(** [CanonicalResourceDigestInput], one per resource of a request. *)
Definition CanonicalResourceDigestInput (resource : ConcreteResource) : Value :=
  obj (field "scope" (ConcreteResource.scope resource)
    ++ field "resource" (ConcreteResource.canonical_resource resource)).

Definition resource_digest_inputs (request : ResolvedPermissionRequest) : list Value :=
  map CanonicalResourceDigestInput (ResolvedPermissionRequest.resources request).

Definition SemanticActionDigestInput (capability : CapabilityRef) (definition_digest : string)
    (effect_class : Domain.EffectClass) (arguments : Value) (request : ResolvedPermissionRequest)
    : Value :=
  obj (field "domain" ("xgeny.semantic-action/v1" : string)
    ++ field "capability" capability ++ field "definitionDigest" definition_digest
    ++ field "effectClass" effect_class ++ field "arguments" arguments
    ++ field "resources" (resource_digest_inputs request)).

Definition PlannedActionOccurrenceDigestInput (run_id step_id semantic_action_digest : string)
    : Value :=
  obj (field "domain" ("xgeny.planned-action-occurrence/v1" : string)
    ++ field "runId" run_id ++ field "stepId" step_id
    ++ field "semanticActionDigest" semantic_action_digest).

Definition ExecutableBindingDigestInput (instance : CapabilityInstanceBody) : Value :=
  obj (field "domain" ("xgeny.executable-binding/v2" : string)
    ++ field "instanceId" (CapabilityInstanceBody.instance_id instance)
    ++ field "definition" (CapabilityInstanceBody.definition instance)
    ++ field "source" (CapabilityInstanceBody.source instance)
    ++ field "placement" (CapabilityInstanceBody.placement instance)
    ++ field "platform" (CapabilityInstanceBody.platform instance)
    ++ field "trust" (CapabilityInstanceBody.trust instance)
    ++ field "dataBoundary" (CapabilityInstanceBody.data_boundary instance)
    ++ field "features" (CapabilityInstanceBody.features instance)
    ++ field "binding" (CapabilityInstanceBody.binding instance)
    ++ field "authRef" (Auth.auth_ref (CapabilityInstanceBody.auth instance))
    ++ field "requiredExtensions" (CapabilityInstanceBody.required_extensions instance)).

Definition PolicyEvidenceDigestInput (request : ResolvedPermissionRequest)
    (provisional : ProvisionalAuthorization) (sources : list PolicySource) : Value :=
  obj (field "domain" ("xgeny.policy-evidence/v1" : string)
    ++ field "apiVersion" (ResolvedPermissionRequest.api_version request)
    ++ field "requestId" (ResolvedPermissionRequest.request_id request)
    ++ field "runId" (ResolvedPermissionRequest.run_id request)
    ++ field "stepId" (ResolvedPermissionRequest.step_id request)
    ++ field "capability" (ResolvedPermissionRequest.capability request)
    ++ field "effectClass" (ResolvedPermissionRequest.effect_class request)
    ++ field "scopes" (ResolvedPermissionRequest.requested_scopes request)
    ++ field "resources" (resource_digest_inputs request)
    ++ field "criticalActions" (ResolvedPermissionRequest.critical_actions request)
    ++ field "lifetime" (ProvisionalAuthorization.lifetime provisional)
    ++ field "sources" sources).

Definition EffectIdentityDigestInput (run_id action_digest : string) : Value :=
  obj (field "domain" ("xgeny.effect.once/v1" : string)
    ++ field "runId" run_id ++ field "actionDigest" action_digest).

Definition content_id (prefix digest : string) : string := prefix +:+ "-" +:+ encoded_digest digest.

Section digests.
Context `{Crypto}.

Definition digest_serializable (value : Value) : res AdmissionError string :=
  canonical_digest AdmissionError.Canonicalization value.

Definition definition_contract_digest (definition : CapabilityDefinitionBody)
    : res AdmissionError string :=
  digest_serializable (DefinitionContractDigestInput definition).

Definition semantic_action_digest (capability : CapabilityRef) (definition_digest : string)
    (effect_class : Domain.EffectClass) (arguments : Value) (request : ResolvedPermissionRequest)
    : res AdmissionError string :=
  digest_serializable
    (SemanticActionDigestInput capability definition_digest effect_class arguments request).

Definition planned_action_occurrence_digest (run_id step_id semantic_action_digest : string)
    : res AdmissionError string :=
  digest_serializable (PlannedActionOccurrenceDigestInput run_id step_id semantic_action_digest).

Definition executable_binding_digest (instance : CapabilityInstanceBody)
    : res AdmissionError string :=
  digest_serializable (ExecutableBindingDigestInput instance).

Definition policy_evidence_digest (request : ResolvedPermissionRequest)
    (provisional : ProvisionalAuthorization) (sources : list PolicySource)
    : res AdmissionError string :=
  bail_if bool_decide (ProvisionalAuthorization.scopes provisional
                       ≠ ResolvedPermissionRequest.requested_scopes request)
       || bool_decide (ProvisionalAuthorization.resources provisional
                       ≠ ResolvedPermissionRequest.resources request)
       || bool_decide (ProvisionalAuthorization.critical_actions provisional
                       ≠ ResolvedPermissionRequest.critical_actions request)
    with AdmissionError.PolicyAllowanceDetached;;
  digest_serializable (PolicyEvidenceDigestInput request provisional sources).

Definition planned_action_digest (state : RunState) (step_id semantic_action_digest : string)
    : res AdmissionError string :=
  let? step := find_step state step_id in
  match PlannedInvocationBinding.execution_profile <$> StepState.planned_invocation step with
  | Some (PlannedExecutionProfile.LocalSyncOnceOccurrenceV1
         | PlannedExecutionProfile.LocalSyncReadOnlyOccurrenceV1) =>
      planned_action_occurrence_digest (RunState.run_id state) step_id semantic_action_digest
  | Some (PlannedExecutionProfile.LocalSyncOnceV1 | PlannedExecutionProfile.LocalSyncReadOnlyV1)
  | None => Ok semantic_action_digest
  end.
End digests.

(** ** Invocation facts *)

Module PreparedInvocationFacts.
Record PreparedInvocationFacts : Type := mk {
  normalized_arguments : Value;
  permission_request : ResolvedPermissionRequest;
  definition_digest : string;
  semantic_action_digest : string;
  material_digest : string;
}.
End PreparedInvocationFacts.
Abbreviation PreparedInvocationFacts := PreparedInvocationFacts.PreparedInvocationFacts.

Section facts.
Context `{Crypto} `{JsonSchema} {R : Type} `{ResourceResolver R} `{JsonPointer}.

Definition prepare_invocation_facts (run_id step_id : string) (capability : CapabilityRef)
    (arguments : Value) (registry : CapabilityRegistry) (resolver : R)
    : res AdmissionError PreparedInvocationFacts :=
  let? definition := find_definition registry capability in
  let effect_class := effect_class_of definition in
  let? _ := map_effect_class effect_class in
  bail_if negb (bool_decide (effect_class = Domain.EffectClass.ReadOnly)) &&
          negb (CapabilityExecution.idempotency_key_supported (execution_of definition))
    with AdmissionError.DefinitionDoesNotSupportIdempotencyKey;;
  let? _ := validate_arguments definition arguments in
  let? request_identity :=
    digest_serializable (RequestIdentityDigestInput run_id step_id capability arguments) in
  let request_id := content_id "permission" request_identity in
  let? derived_request := map_err AdmissionError.Resolution
    (resolve_invocation (PermissionRequestResolver.new resolver) request_id run_id step_id
       definition arguments GrantLifetime.Once) in
  let normalized := ResolvedInvocationRequest.normalized_arguments derived_request in
  let permission_request := ResolvedInvocationRequest.permission_request derived_request in
  let? _ := validate_arguments definition normalized in
  let? definition_digest := definition_contract_digest definition in
  let? semantic_action_digest :=
    semantic_action_digest capability definition_digest effect_class normalized
      permission_request in
  let? material_digest :=
    map_err AdmissionError.InvocationMaterial (invocation_material_digest normalized) in
  Ok (PreparedInvocationFacts.mk normalized permission_request definition_digest
        semantic_action_digest material_digest).
End facts.

(** ** Steps and their accepted plans *)

(** One round of the loop over the dependencies: the least blocked one so far. *)
Definition first_blocked (state : RunState) (step_id : string)
    (first_blocker : option (string * DependencyBlockReason)) (dependency_id : string)
    : res AdmissionError (option (string * DependencyBlockReason)) :=
  let? dependency := ok_or (RunState.steps state !! dependency_id)
                       (AdmissionError.StepDependencyUnknown step_id dependency_id) in
  match dependency_release_block_reason dependency with
  | Some reason =>
      if match first_blocker with
         | None => true
         | Some current => bool_decide (String.compare dependency_id current.1 = Lt)
         end
      then Ok (Some (dependency_id, reason)) else Ok first_blocker
  | None => Ok first_blocker
  end.

Definition require_admission_ready_step (state : RunState) (step_id : string)
    : res AdmissionError unit :=
  let? step := find_step state step_id in
  bail_if bool_decide (StepState.status step ≠ StepStatus.Planned)
    with AdmissionError.StepNotPlanned step_id (StepState.status step);;
  let? first_blocker := for_each (first_blocked state step_id) (StepState.depends_on step) None in
  match first_blocker with
  | Some (dependency_id, reason) =>
      Err (AdmissionError.StepDependencyNotReleased step_id dependency_id reason)
  | None => Ok tt
  end.

Definition verify_unplanned_read_only_boundary (state : RunState) (step_id : string)
    (capability : CapabilityRef) (registry : CapabilityRegistry) : res AdmissionError unit :=
  let? step := find_step state step_id in
  match StepState.planned_invocation step with
  | Some _ => Ok tt
  | None =>
      let? definition := find_definition registry capability in
      bail_if bool_decide (effect_class_of definition = Domain.EffectClass.ReadOnly)
        with AdmissionError.UnplannedReadOnlyUnsupported;;
      Ok tt
  end.

Definition operating_system_name (os : OperatingSystem) : string :=
  match os with
  | OperatingSystem.Linux => "linux"
  | OperatingSystem.Macos => "macos"
  | OperatingSystem.Windows => "windows"
  | OperatingSystem.Any => "any"
  end.

Definition architecture_name (architecture : Architecture) : string :=
  match architecture with
  | Architecture.X86_64 => "x86_64"
  | Architecture.Aarch64 => "aarch64"
  | Architecture.Any => "any"
  end.

(** [checks.into_iter().find(|(_, matches)| !matches)] and the error it raises. *)
Definition planned_checks (step_id : string) (checks : list (string * bool))
    : res AdmissionError unit :=
  match first_mismatch checks with
  | Some field => Err (AdmissionError.PlannedInvocationMismatch step_id field)
  | None => Ok tt
  end.

Definition idempotency_feature_matches (profile : PlannedExecutionProfile) (idempotency_key : bool)
    : bool :=
  match profile with
  | PlannedExecutionProfile.LocalSyncOnceV1 | PlannedExecutionProfile.LocalSyncOnceOccurrenceV1 =>
      idempotency_key
  | PlannedExecutionProfile.LocalSyncReadOnlyV1
  | PlannedExecutionProfile.LocalSyncReadOnlyOccurrenceV1 => negb idempotency_key
  end.

Definition verify_planned_route_binding (state : RunState) (step_id : string) (route : RouteRequest)
    : res AdmissionError unit :=
  let features := RouteRequest.required_features route in
  bail_if bool_decide (RequiredRouteFeatures.execution_style features ≠ ExecutionStyle.Sync)
    with AdmissionError.UnsupportedExecutionStyle;;
  let? step := find_step state step_id in
  match StepState.planned_invocation step with
  | None =>
      bail_if negb (RequiredRouteFeatures.idempotency_key features)
        with AdmissionError.IdempotencyKeyFeatureRequired;;
      Ok tt
  | Some planned =>
      let capability := RouteRequest.capability route in
      let platform := RouteRequest.target_platform route in
      planned_checks step_id [
        ("capability_id", bool_decide (PlannedInvocationBinding.capability_id planned
                                       = CapabilityRef.capability_id capability));
        ("contract_version", bool_decide (PlannedInvocationBinding.contract_version planned
                                          = CapabilityRef.contract_version capability));
        ("execution_profile",
           idempotency_feature_matches (PlannedInvocationBinding.execution_profile planned)
             (RequiredRouteFeatures.idempotency_key features));
        ("target_os", bool_decide (PlannedInvocationBinding.target_os planned
                                   = operating_system_name (Platform.os platform)));
        ("target_arch", bool_decide (PlannedInvocationBinding.target_arch planned
                                     = architecture_name (Platform.arch platform)))]
  end.

Definition profile_matches_class (profile : PlannedExecutionProfile)
    (effect_class : Domain.EffectClass) : bool :=
  match profile, effect_class with
  | (PlannedExecutionProfile.LocalSyncReadOnlyV1
    | PlannedExecutionProfile.LocalSyncReadOnlyOccurrenceV1), Domain.EffectClass.ReadOnly => true
  | (PlannedExecutionProfile.LocalSyncOnceV1 | PlannedExecutionProfile.LocalSyncOnceOccurrenceV1),
    (Domain.EffectClass.Idempotent | Domain.EffectClass.NonIdempotent) => true
  | _, _ => false
  end.

Definition planned_capability (planned : PlannedInvocationBinding) : CapabilityRef :=
  CapabilityRef.mk (PlannedInvocationBinding.capability_id planned)
    (PlannedInvocationBinding.contract_version planned).

Definition verify_planned_definition_binding `{Crypto} (state : RunState) (step_id : string)
    (registry : CapabilityRegistry) : res AdmissionError unit :=
  let? step := find_step state step_id in
  match StepState.planned_invocation step with
  | None => Ok tt
  | Some planned =>
      let? definition := find_definition registry (planned_capability planned) in
      let? digest := definition_contract_digest definition in
      bail_if bool_decide (digest ≠ PlannedInvocationBinding.definition_digest planned)
        with AdmissionError.DefinitionChanged;;
      bail_if negb (profile_matches_class (PlannedInvocationBinding.execution_profile planned)
                      (effect_class_of definition))
        with AdmissionError.PlannedInvocationMismatch step_id "execution_profile";;
      Ok tt
  end.
