(* ===== verification/Admission.v ===== *)
(** Invocation admission: preparing a permission request from exact arguments, and the single
    durable authorization commit that turns a policy allowance into an effect intent
    (crates/xgeny-runtime/src/admission.rs). *)

From S2P Require Import Prelude Program Text Wire Domain Resolution Broker Registry Router.
From S2P Require Import DomainWire WorkGraphTypes WorkGraphErrors Planning Material Frontier.
From S2P Require Import ToolOutput Completion Journal Receipt StoreTypes StoreBundles MemoryStore.
From S2P Require Import Host Invocation.

(** ** Requests and outcomes *)

Module AdmissionRequest.
Record AdmissionRequest : Type := mk { step_id : string; route : RouteRequest; arguments : Value }.
End AdmissionRequest.
Abbreviation AdmissionRequest := AdmissionRequest.AdmissionRequest.

Module PendingRunBinding.
Record PendingRunBinding : Type := mk {
  run_id : string;
  authority : string;
  authority_epoch : N;
  journal_sequence : N;
  journal_head_digest : string;
}.
Definition from_state (state : RunState) : PendingRunBinding :=
  mk (RunState.run_id state) (RunState.authority state) (RunState.authority_epoch state)
    (RunState.journal_sequence state) (RunState.journal_head_digest state).
Definition matches (self : PendingRunBinding) (state : RunState) : bool :=
  bool_decide (run_id self = RunState.run_id state)
  && bool_decide (authority self = RunState.authority state)
  && bool_decide (authority_epoch self = RunState.authority_epoch state)
  && bool_decide (journal_sequence self = RunState.journal_sequence state)
  && bool_decide (journal_head_digest self = RunState.journal_head_digest state).
End PendingRunBinding.
Abbreviation PendingRunBinding := PendingRunBinding.PendingRunBinding.

Module PendingInvocation.
Record PendingInvocation : Type := mk {
  run_binding : PendingRunBinding;
  route : RouteRequest;
  normalized_arguments : Value;
  permission_request : ResolvedPermissionRequest;
  definition_digest : string;
  action_digest : string;
  material_digest : string;
  material_retention : InvocationMaterialRetention;
  plan_id : option string;
}.
Definition set_material_retention (v : InvocationMaterialRetention) (p : PendingInvocation) :=
  mk (run_binding p) (route p) (normalized_arguments p) (permission_request p)
    (definition_digest p) (action_digest p) (material_digest p) v (plan_id p).
Definition with_reconstructable_material (self : PendingInvocation)
    (reference : ReconstructableMaterialReference) : PendingInvocation :=
  match plan_id self with
  | None => set_material_retention (InvocationMaterialRetention.ReconstructableReference reference) self
  | Some _ => self
  end.
End PendingInvocation.
Abbreviation PendingInvocation := PendingInvocation.PendingInvocation.

Module AdmittedEffect.
Record AdmittedEffect : Type := mk {
  normalized_arguments : Value;
  capability : CapabilityRef;
  selected_instance_id : string;
  definition_digest : string;
  instance_binding_digest : string;
  action_digest : string;
  effect_id : string;
  material_record : InvocationMaterialRecord;
  commit : Commit;
}.
End AdmittedEffect.
Abbreviation AdmittedEffect := AdmittedEffect.AdmittedEffect.

Module AdmissionOutcome.
Inductive AdmissionOutcome : Type :=
| Authorized (effect : AdmittedEffect)
| NotAuthorized (route : RouteOutcome).
End AdmissionOutcome.
Abbreviation AdmissionOutcome := AdmissionOutcome.AdmissionOutcome.

(** ** Checks against the accepted plan *)

Definition verify_lease {L} `{RunLease L} (lease : L) (state : RunState) : res AdmissionError unit :=
  bail_if bool_decide (RunLease.run_id lease ≠ RunState.run_id state)
    with AdmissionError.LeaseRunMismatch (RunLease.run_id lease) (RunState.run_id state);;
  Ok tt.

Definition plan_mismatch {A} (step_id field : string) : res AdmissionError A :=
  Err (AdmissionError.PlannedInvocationMismatch step_id field).

Definition verify_pending_planned_material (state : RunState) (step_id : string)
    (pending : PendingInvocation) (input : option PlannedInvocationMaterialRecord)
    : res AdmissionError unit :=
  let? step := find_step state step_id in
  match StepState.planned_invocation step with
  | None =>
      if bool_decide (is_Some (PendingInvocation.plan_id pending)) || bool_decide (is_Some input)
      then plan_mismatch step_id "plan_input_sidecar" else Ok tt
  | Some planned =>
      if bool_decide (PendingInvocation.plan_id pending
                      ≠ Some (PlannedInvocationBinding.plan_id planned))
      then plan_mismatch step_id "plan_id"
      else
        let? input := ok_or input (AdmissionError.PlannedInputMissing step_id) in
        match PendingInvocation.material_retention pending with
        | InvocationMaterialRetention.ReconstructableReference reference =>
            if bool_decide (reference = PlannedInvocationMaterialRecord.reference input) then Ok tt
            else plan_mismatch step_id "material_retention.reference"
        | InvocationMaterialRetention.Ephemeral =>
            plan_mismatch step_id "material_retention.reference"
        end
  end.

Definition verify_planned_admission_binding (state : RunState) (request : AdmissionRequest)
    (definition_digest action_digest material_digest : string)
    : res AdmissionError (option string) :=
  let step_id := AdmissionRequest.step_id request in
  let? _ := verify_planned_route_binding state step_id (AdmissionRequest.route request) in
  let? step := find_step state step_id in
  match StepState.planned_invocation step with
  | None => Ok None
  | Some planned =>
      let? _ := planned_checks step_id [
        ("definition_digest",
           bool_decide (PlannedInvocationBinding.definition_digest planned = definition_digest));
        ("action_digest",
           bool_decide (PlannedInvocationBinding.action_digest planned = action_digest));
        ("plan_input_digest",
           bool_decide (PlannedInvocationBinding.plan_input_digest planned = material_digest))] in
      Ok (Some (PlannedInvocationBinding.plan_id planned))
  end.

(** ** Issuing the effect *)

Module IssuedEffect.
Record IssuedEffect : Type := mk {
  intent : EffectIntent;
  instance_binding_digest : string;
  effect_id : string;
  material_record : InvocationMaterialRecord;
}.
End IssuedEffect.
Abbreviation IssuedEffect := IssuedEffect.IssuedEffect.

Definition receipt_placement (placement : Placement) : ReceiptPlacement :=
  match placement with
  | Placement.Local => ReceiptPlacement.Local
  | Placement.Device => ReceiptPlacement.Device
  | Placement.Remote => ReceiptPlacement.Remote
  end.

Definition receipt_verification_strategy (strategy : VerificationStrategy)
    : ReceiptVerificationStrategy :=
  match strategy with
  | VerificationStrategy.OutputSchema => ReceiptVerificationStrategy.OutputSchema
  | VerificationStrategy.Postcondition => ReceiptVerificationStrategy.Postcondition
  | VerificationStrategy.ArtifactDigest => ReceiptVerificationStrategy.ArtifactDigest
  | VerificationStrategy.Receipt => ReceiptVerificationStrategy.Receipt
  | VerificationStrategy.Human => ReceiptVerificationStrategy.Human
  end.

Definition receipt_rule (rule : VerificationRule) : ReceiptVerificationRule :=
  ReceiptVerificationRule.mk (receipt_verification_strategy (VerificationRule.strategy rule))
    (VerificationRule.required rule).

Definition durable_tool_output (definition : CapabilityDefinitionBody) : bool :=
  match effect_class_of definition with
  | Domain.EffectClass.ReadOnly => true
  | Domain.EffectClass.Idempotent | Domain.EffectClass.NonIdempotent =>
      CapabilityExecution.durable_tool_output (execution_of definition)
  | _ => false
  end.

Definition build_receipt_provenance `{Target} (effect_identity_digest : string)
    (planned_plan_id : option string) (policy_decision_id policy_decision_digest : string)
    (instance : CapabilityInstanceBody) (definition : CapabilityDefinitionBody)
    : ReceiptProvenance :=
  let durable_tool_output := durable_tool_output definition in
  ReceiptProvenance.mk
    (if durable_tool_output then CORE_RECEIPT_PROFILE_V2 else CORE_RECEIPT_PROFILE_V1)
    (if durable_tool_output then Some TOOL_OUTPUT_PROFILE_V1 else None)
    (content_id "invocation" effect_identity_digest)
    (match planned_plan_id with
     | Some plan_id => plan_id
     | None => content_id "plan" effect_identity_digest
     end)
    policy_decision_id policy_decision_digest LOCAL_EXECUTOR_ID
    (receipt_placement (CapabilityInstanceBody.placement instance))
    local_executor_platform CORE_RECEIPT_INPUT_SUMMARY_V1
    (map receipt_rule (CapabilitySpec.verification (CapabilityDefinitionBody.spec definition))).

Section issue.
Context `{Crypto} `{PolicyDecisionSchema} `{Target}.

Definition granted_resource (resource : ConcreteResource) : ResolvedResource :=
  ResolvedResource.mk (ConcreteResource.scope resource)
    (ConcreteResource.canonical_resource resource) true ∅.

Definition policy_decision_commitment (request : ResolvedPermissionRequest)
    (authorization : ProvisionalAuthorization) (sources : list PolicySource)
    (evidence_digest decided_at : string) : res AdmissionError (string * string) :=
  let decision_id := content_id "decision" evidence_digest in
  let decision := PolicyDecisionBody.mk
    (ResolvedPermissionRequest.api_version request) ∅ [] decision_id
    (ResolvedPermissionRequest.request_id request) Decision.Allow sources
    (Some (Grant.mk (ProvisionalAuthorization.lifetime authorization) None
             (ProvisionalAuthorization.scopes authorization)
             (map granted_resource (ProvisionalAuthorization.resources authorization))
             (ProvisionalAuthorization.critical_actions authorization)))
    None [] decided_at in
  let? _ := map_err (λ _, AdmissionError.PolicyDecisionInvalid) (validate_policy_decision decision) in
  let? digest := map_err AdmissionError.Protocol
                   (Protocol.canonical_digest (PolicyDecision decision)) in
  Ok (decision_id, digest).

Definition issue_once_effect (pending : PendingInvocation) (state : RunState)
    (definition : CapabilityDefinitionBody) (instance : CapabilityInstanceBody)
    (selected_instance_id : string) (evaluation : BoundPolicyEvaluation) (decided_at : string)
    : res AdmissionError IssuedEffect :=
  let request := PendingInvocation.permission_request pending in
  let? allowed := match BoundPolicyEvaluation.outcome evaluation with
                  | BrokerOutcome.Allow provisional_authorization sources =>
                      Ok (provisional_authorization, sources)
                  | _ => Err AdmissionError.SelectedRouteWithoutPolicyAllow
                  end in
  let '(provisional_authorization, sources) := allowed in
  bail_if bool_decide (ProvisionalAuthorization.lifetime provisional_authorization
                       ≠ GrantLifetime.Once)
       || bool_decide (ResolvedPermissionRequest.requested_lifetime request ≠ GrantLifetime.Once)
    with AdmissionError.NonOnceAuthorization;;
  bail_if negb (bool_decide (ProvisionalAuthorization.critical_actions provisional_authorization = []))
    with AdmissionError.CriticalAuthorizationUnsupported;;
  let? effect_identity_digest := digest_serializable
    (EffectIdentityDigestInput (RunState.run_id state) (PendingInvocation.action_digest pending)) in
  let? policy_evidence_digest := policy_evidence_digest request provisional_authorization sources in
  let? decision := policy_decision_commitment request provisional_authorization sources
                     policy_evidence_digest decided_at in
  let '(policy_decision_id, policy_decision_digest) := decision in
  let receipt_provenance := build_receipt_provenance effect_identity_digest
    (PendingInvocation.plan_id pending) policy_decision_id policy_decision_digest instance
    definition in
  let? receipt_provenance_digest := map_err AdmissionError.AuthorizationDigest
    (receipt_provenance_digest receipt_provenance) in
  let? instance_binding_digest := executable_binding_digest instance in
  let capability := RouteRequest.capability (PendingInvocation.route pending) in
  let invocation := InvocationBinding.mk (CapabilityRef.capability_id capability)
    (CapabilityRef.contract_version capability) (PendingInvocation.definition_digest pending)
    selected_instance_id instance_binding_digest in
  let? material_retention_digest := map_err AdmissionError.InvocationMaterial
    (invocation_material_retention_digest (PendingInvocation.material_retention pending)) in
  let binding := AuthorizationBinding.mk (RunState.run_id state)
    (ResolvedPermissionRequest.step_id request) (RunState.authority state)
    (RunState.authority_epoch state) (RunState.journal_sequence state)
    (RunState.journal_head_digest state) (InvocationBinding.capability_id invocation)
    (InvocationBinding.contract_version invocation) (InvocationBinding.definition_digest invocation)
    (InvocationBinding.instance_id invocation) (InvocationBinding.instance_binding_digest invocation)
    (PendingInvocation.action_digest pending) (PendingInvocation.material_digest pending)
    material_retention_digest policy_evidence_digest (Some receipt_provenance_digest) in
  let? grant_digest := map_err AdmissionError.AuthorizationDigest
    (authorization_digest binding ONCE_MAX_USES) in
  let effect_id := content_id "effect" effect_identity_digest in
  let? effect_class := map_effect_class (effect_class_of definition) in
  let? grant_id := map_err AdmissionError.AuthorizationDigest
    (once_authorization_id (RunState.run_id state) (PendingInvocation.action_digest pending)) in
  let intent := EffectIntent.mk effect_id (PendingInvocation.action_digest pending) invocation
    effect_class
    (if bool_decide (effect_class ≠ EffectClass.ReadOnly)
     then Some (content_id "xgeny" effect_identity_digest) else None)
    SinkGuarantee.None (AuthorizationUse.mk grant_id grant_digest ONCE_MAX_USES binding)
    (Some receipt_provenance) in
  let? material_record := map_err AdmissionError.InvocationMaterial
    (InvocationMaterialRecord_new (RunState.run_id state) (ResolvedPermissionRequest.step_id request)
       intent (PendingInvocation.material_digest pending)
       (PendingInvocation.material_retention pending)) in
  Ok (IssuedEffect.mk intent instance_binding_digest effect_id material_record).
End issue.

(** ** The two phases *)

Section admission.
Context {S W L R : Type} `{RunStore S} `{EventFactory W} `{RunLease L} `{ResourceResolver R}.
Context `{Crypto} `{JsonSchema} `{JsonPointer} `{PolicyDecisionSchema} `{Target} `{Rfc3339}.
Abbreviation P := (prog (Machine S W)).

Definition load_admission_state : P (res AdmissionError RunState) :=
  let! state := pmap_err AdmissionError.Store (reads load_current) in
  Ret (ok_or state AdmissionError.RunNotInitialized).

Definition verify_planned_input_sidecar (state : RunState) (step_id : string)
    : P (res AdmissionError (option PlannedInvocationMaterialRecord)) :=
  try step := find_step state step_id in
  match StepState.planned_invocation step with
  | None => Ret (Ok None)
  | Some binding =>
      let! input := pmap_err AdmissionError.Store (reads (λ s, load_planned_invocation s step_id)) in
      try input := ok_or input (AdmissionError.PlannedInputMissing step_id) in
      try _ := map_err AdmissionError.PlanningContract
                 (PlannedInvocationMaterialRecord_verify_for input (RunState.run_id state) step_id
                    binding) in
      Ret (Ok (Some input))
  end.

Definition prepare (lease : L) (registry : CapabilityRegistry) (resolver : R)
    (request : AdmissionRequest) : P (res AdmissionError PendingInvocation) :=
  let step_id := AdmissionRequest.step_id request in
  let route := AdmissionRequest.route request in
  let capability := RouteRequest.capability route in
  let! state := load_admission_state in
  try _ := verify_lease lease state in
  try _ := require_admission_ready_step state step_id in
  try _ := verify_unplanned_read_only_boundary state step_id capability registry in
  try _ := verify_planned_route_binding state step_id route in
  try _ := verify_planned_definition_binding state step_id registry in
  let! planned_input := verify_planned_input_sidecar state step_id in
  try facts := prepare_invocation_facts (RunState.run_id state) step_id capability
                 (AdmissionRequest.arguments request) registry resolver in
  try action_digest := planned_action_digest state step_id
                         (PreparedInvocationFacts.semantic_action_digest facts) in
  try plan_id := verify_planned_admission_binding state request
                   (PreparedInvocationFacts.definition_digest facts) action_digest
                   (PreparedInvocationFacts.material_digest facts) in
  try material_retention :=
    match plan_id, planned_input with
    | Some _, Some input =>
        Ok (InvocationMaterialRetention.ReconstructableReference
              (PlannedInvocationMaterialRecord.reference input))
    | None, None => Ok InvocationMaterialRetention.Ephemeral
    | _, _ => plan_mismatch step_id "plan_input_sidecar"
    end in
  Ret (Ok (PendingInvocation.mk (PendingRunBinding.from_state state) route
             (PreparedInvocationFacts.normalized_arguments facts)
             (PreparedInvocationFacts.permission_request facts)
             (PreparedInvocationFacts.definition_digest facts) action_digest
             (PreparedInvocationFacts.material_digest facts) material_retention plan_id)).

(** The half of [authorize_and_commit] that follows a selecting route. *)
Definition commit_authorized (pending : PendingInvocation) (state : RunState)
    (definition : CapabilityDefinitionBody) (registry : CapabilityRegistry)
    (evaluation : BoundPolicyEvaluation) (selected_instance_id : string)
    : P (res AdmissionError AdmissionOutcome) :=
  try instance := ok_or (Registry.instance registry selected_instance_id)
                    (AdmissionError.SelectedInstanceMissing selected_instance_id) in
  stop_if bool_decide (CapabilityInstanceBody.placement instance ≠ Placement.Local)
    with AdmissionError.UnsupportedExecutorPlacement (CapabilityInstanceBody.placement instance);;
  let! metadata := pmap_err AdmissionError.EventFactory (asks (create_metadata state)) in
  try _ := map_err AdmissionError.EventMetadata (EventMetadata_validate metadata) in
  try issued := issue_once_effect pending state definition instance selected_instance_id evaluation
                  (EventMetadata.recorded_at metadata) in
  let event := event_for state metadata
    (RunEventBody.EffectIntentCommitted
       (ResolvedPermissionRequest.step_id (PendingInvocation.permission_request pending))
       (IssuedEffect.intent issued)) in
  let material_record := IssuedEffect.material_record issued in
  let! commit := pmap_err AdmissionError.Store
    (writes (λ s, append_with_invocation_material s (ExpectedHead.from_state state) event
                    material_record)) in
  Ret (Ok (AdmissionOutcome.Authorized
    (AdmittedEffect.mk (PendingInvocation.normalized_arguments pending)
       (RouteRequest.capability (PendingInvocation.route pending)) selected_instance_id
       (PendingInvocation.definition_digest pending) (IssuedEffect.instance_binding_digest issued)
       (PendingInvocation.action_digest pending) (IssuedEffect.effect_id issued) material_record
       commit))).

Definition authorize_and_commit (pending : PendingInvocation) (policy_inputs : PolicyInputs)
    (registry : CapabilityRegistry) (lease : L) : P (res AdmissionError AdmissionOutcome) :=
  stop_if PolicyInputs.is_managed policy_inputs with AdmissionError.ManagedPolicyUnsupported;;
  let! state := load_admission_state in
  try _ := verify_lease lease state in
  stop_if negb (PendingRunBinding.matches (PendingInvocation.run_binding pending) state)
    with AdmissionError.RunHeadChanged;;
  let request := PendingInvocation.permission_request pending in
  let step_id := ResolvedPermissionRequest.step_id request in
  try _ := require_admission_ready_step state step_id in
  let! planned_input := verify_planned_input_sidecar state step_id in
  try _ := verify_pending_planned_material state step_id pending planned_input in
  try definition := find_definition registry
                      (RouteRequest.capability (PendingInvocation.route pending)) in
  try digest := definition_contract_digest definition in
  stop_if bool_decide (digest ≠ PendingInvocation.definition_digest pending)
    with AdmissionError.DefinitionChanged;;
  try evaluation := map_err AdmissionError.Broker (evaluate_bound request policy_inputs) in
  try route := map_err AdmissionError.Route
                 (Router.route registry (PendingInvocation.route pending) (Some evaluation)) in
  match route with
  | RouteOutcome.Selected selected_instance_id _ _ _ =>
      commit_authorized pending state definition registry evaluation selected_instance_id
  | RouteOutcome.InteractionRequired _ _ _ _ | RouteOutcome.Blocked _ _ _ _ =>
      Ret (Ok (AdmissionOutcome.NotAuthorized route))
  end.
End admission.
