(* ===== verification/Recovery.v ===== *)
(** Invocation material after a restart: the provider registry, the material bound to one
    committed intent, and its reconstruction and revalidation
    (crates/xgeny-runtime/src/material.rs). *)

From S2P Require Import Prelude Program Text Wire Domain Resolution Broker Registry Router.
From S2P Require Import DomainWire WorkGraphTypes WorkGraphErrors Planning Material Frontier.
From S2P Require Import ToolOutput Completion Journal Receipt StoreTypes StoreBundles MemoryStore.
From S2P Require Import Host Invocation Admission.

Module MaterialProviderFailure.
Inductive MaterialProviderFailure : Type :=
| Unavailable | NotFound | RevisionChanged | UnsupportedVersion.
End MaterialProviderFailure.
Abbreviation MaterialProviderFailure := MaterialProviderFailure.MaterialProviderFailure.

Module MaterialProviderRegistryError.
Inductive MaterialProviderRegistryError : Type := InvalidProviderId | DuplicateProvider.
End MaterialProviderRegistryError.
Abbreviation MaterialProviderRegistryError :=
  MaterialProviderRegistryError.MaterialProviderRegistryError.

Module MaterialRecoveryError.
Inductive MaterialRecoveryError : Type :=
| Store (error : StoreError)
| EventFactory (error : EventFactoryError)
| Admission (error : AdmissionError)
| InvocationResolution (error : InvocationResolutionError)
| MaterialRecord (error : InvocationMaterialError)
| PlanningContract (error : PlanningContractError)
| RunNotInitialized
| StepNotFound (step_id : string)
| IntentMissing (step_id : string)
| StepNotIntentCommitted (step_id : string) (actual : StepStatus)
| StepNotPlanned (step_id : string) (actual : StepStatus)
| PlannedInvocationMissing (step_id : string)
| PlannedInputRecordMissing (step_id : string)
| MaterialRecordMissing (effect_id : string)
| EphemeralMaterialUnavailable
| NotEphemeral
| ProviderNotRegistered
| Provider (failure : MaterialProviderFailure)
| DefinitionNotFound (capability_id contract_version : string)
| DefinitionChanged
| InstanceNotFound (instance_id : string)
| InstanceBindingChanged
| MaterialDigestMismatch
| ActionDigestMismatch
| LeaseRunMismatch (lease_run_id state_run_id : string).
End MaterialRecoveryError.
Abbreviation MaterialRecoveryError := MaterialRecoveryError.MaterialRecoveryError.

(** ** Providers *)

(** [trait InvocationMaterialProvider]: [reconstruct] of a provider of type [V]. *)
Class InvocationMaterialProvider (W V : Type) : Type :=
  reconstruct : V → string → string → W → res MaterialProviderFailure Value * W.

Definition MAX_PROVIDER_ID_BYTES : N := 128.

Definition validate_provider_id (provider_id : string) : res MaterialProviderRegistryError unit :=
  bail_if is_empty provider_id
       || bool_decide (provider_id ∈ ["."; ".."])
       || bool_decide (MAX_PROVIDER_ID_BYTES < strlen provider_id)%N
       || negb (all_bytes (λ byte, is_ascii_alphanumeric byte || is_name_punct byte) provider_id)
    with MaterialProviderRegistryError.InvalidProviderId;;
  Ok tt.

Module MaterialProviderRegistry.
Record MaterialProviderRegistry (V : Type) : Type := mk { providers : gmap string V }.
Arguments mk {V} providers.
Arguments providers {V} m.
Definition new {V} : MaterialProviderRegistry V := mk ∅.
Definition register {V} (self : MaterialProviderRegistry V) (provider_id : string) (provider : V)
    : res MaterialProviderRegistryError (MaterialProviderRegistry V) :=
  let? _ := validate_provider_id provider_id in
  bail_if bool_decide (is_Some (providers self !! provider_id))
    with MaterialProviderRegistryError.DuplicateProvider;;
  Ok (mk (<[provider_id := provider]> (providers self))).
Definition provider_mut {V} (self : MaterialProviderRegistry V) (provider_id : string)
    : res MaterialRecoveryError V :=
  ok_or (providers self !! provider_id) MaterialRecoveryError.ProviderNotRegistered.
End MaterialProviderRegistry.
Abbreviation MaterialProviderRegistry := MaterialProviderRegistry.MaterialProviderRegistry.

(** ** Invocation material *)

Module InvocationMaterial.
Record InvocationMaterial : Type := mk {
  record : InvocationMaterialRecord;
  normalized_arguments : Value;
}.
End InvocationMaterial.
Abbreviation InvocationMaterial := InvocationMaterial.InvocationMaterial.

(** [AdmittedEffect::into_ephemeral_material]. *)
Definition into_ephemeral_material `{Crypto} (self : AdmittedEffect)
    : res MaterialRecoveryError InvocationMaterial :=
  let record := AdmittedEffect.material_record self in
  let arguments := AdmittedEffect.normalized_arguments self in
  match InvocationMaterialRecord.retention record with
  | InvocationMaterialRetention.ReconstructableReference _ => Err MaterialRecoveryError.NotEphemeral
  | InvocationMaterialRetention.Ephemeral =>
      let? actual := map_err MaterialRecoveryError.MaterialRecord
                       (invocation_material_digest arguments) in
      bail_if bool_decide (actual ≠ InvocationMaterialRecord.material_digest record)
        with MaterialRecoveryError.MaterialDigestMismatch;;
      Ok (InvocationMaterial.mk record arguments)
  end.

Module PlannedAdmissionRequest.
Record PlannedAdmissionRequest : Type := new { step_id : string; route : RouteRequest }.
End PlannedAdmissionRequest.
Abbreviation PlannedAdmissionRequest := PlannedAdmissionRequest.PlannedAdmissionRequest.

Definition intent_capability (intent : EffectIntent) : CapabilityRef :=
  let invocation := EffectIntent.invocation intent in
  CapabilityRef.mk (InvocationBinding.capability_id invocation)
    (InvocationBinding.contract_version invocation).

Section recovery.
Context {S W L R V : Type} `{RunStore S} `{EventFactory W} `{RunLease L} `{ResourceResolver R}.
Context `{InvocationMaterialProvider W V} `{Crypto} `{JsonSchema} `{JsonPointer} `{Rfc3339}.
Abbreviation prog_ A := (prog (Machine S W) (res MaterialRecoveryError A)).

Definition verify_lease_run (lease : L) (run_id : string) : res MaterialRecoveryError unit :=
  bail_if bool_decide (RunLease.run_id lease ≠ run_id)
    with MaterialRecoveryError.LeaseRunMismatch (RunLease.run_id lease) run_id;;
  Ok tt.

(** The state every method starts from, under its lease. *)
Definition load_leased_state (lease : L) : prog_ RunState :=
  let! state := pmap_err MaterialRecoveryError.Store (reads load_current) in
  try state := ok_or state MaterialRecoveryError.RunNotInitialized in
  try _ := verify_lease_run lease (RunState.run_id state) in
  Ret (Ok state).

Definition recovery_step (state : RunState) (step_id : string) : res MaterialRecoveryError StepState :=
  ok_or (RunState.steps state !! step_id) (MaterialRecoveryError.StepNotFound step_id).

(** [providers.provider_mut(..)?.reconstruct(..).map_err(MaterialRecoveryError::Provider)]. *)
Definition reconstruct_reference (providers : MaterialProviderRegistry V)
    (reference : ReconstructableMaterialReference) : prog_ Value :=
  try provider := MaterialProviderRegistry.provider_mut providers
                    (ReconstructableMaterialReference.provider_id reference) in
  pmap_err MaterialRecoveryError.Provider
    (asks (reconstruct provider (ReconstructableMaterialReference.reference_id reference)
             (ReconstructableMaterialReference.revision reference))).

Definition prepare_planned_admission (lease : L) (registry : CapabilityRegistry) (resolver : R)
    (providers : MaterialProviderRegistry V) (request : PlannedAdmissionRequest)
    : prog_ PendingInvocation :=
  let step_id := PlannedAdmissionRequest.step_id request in
  let route := PlannedAdmissionRequest.route request in
  let! state := load_leased_state lease in
  try step := recovery_step state step_id in
  stop_if bool_decide (StepState.status step ≠ StepStatus.Planned)
    with MaterialRecoveryError.StepNotPlanned step_id (StepState.status step);;
  try _ := map_err MaterialRecoveryError.Admission (require_admission_ready_step state step_id) in
  try _ := map_err MaterialRecoveryError.Admission (verify_planned_route_binding state step_id route) in
  try _ := map_err MaterialRecoveryError.Admission
             (verify_planned_definition_binding state step_id registry) in
  try binding := ok_or (StepState.planned_invocation step)
                   (MaterialRecoveryError.PlannedInvocationMissing step_id) in
  let! input := pmap_err MaterialRecoveryError.Store (reads (λ s, load_planned_invocation s step_id)) in
  try input := ok_or input (MaterialRecoveryError.PlannedInputRecordMissing step_id) in
  try _ := map_err MaterialRecoveryError.PlanningContract
             (PlannedInvocationMaterialRecord_verify_for input (RunState.run_id state) step_id
                binding) in
  let! reconstructed := reconstruct_reference providers
                          (PlannedInvocationMaterialRecord.reference input) in
  pmap_err MaterialRecoveryError.Admission
    (prepare lease registry resolver (AdmissionRequest.mk step_id route reconstructed)).

(** The catalog entries an intent was admitted for, unchanged. *)
Definition verify_recovery_catalog (registry : CapabilityRegistry) (intent : EffectIntent)
    : res MaterialRecoveryError CapabilityDefinitionBody :=
  let invocation := EffectIntent.invocation intent in
  let capability := intent_capability intent in
  let? definition := ok_or (definition registry capability)
    (MaterialRecoveryError.DefinitionNotFound (CapabilityRef.capability_id capability)
       (CapabilityRef.contract_version capability)) in
  let? digest := map_err MaterialRecoveryError.Admission (definition_contract_digest definition) in
  bail_if bool_decide (digest ≠ InvocationBinding.definition_digest invocation)
    with MaterialRecoveryError.DefinitionChanged;;
  let? instance := ok_or (instance registry (InvocationBinding.instance_id invocation))
    (MaterialRecoveryError.InstanceNotFound (InvocationBinding.instance_id invocation)) in
  bail_if bool_decide (CapabilityInstanceBody.definition instance ≠ capability)
    with MaterialRecoveryError.InstanceBindingChanged;;
  let? binding_digest :=
    map_err MaterialRecoveryError.Admission (executable_binding_digest instance) in
  bail_if bool_decide (binding_digest ≠ InvocationBinding.instance_binding_digest invocation)
    with MaterialRecoveryError.InstanceBindingChanged;;
  Ok definition.

(** Revalidating reconstructed arguments against the record and the intent. *)
Definition verify_reconstructed (state : RunState) (step_id : string) (resolver : R)
    (definition : CapabilityDefinitionBody) (intent : EffectIntent)
    (record : InvocationMaterialRecord) (reconstructed : Value)
    : res MaterialRecoveryError InvocationMaterial :=
  let? _ := map_err MaterialRecoveryError.Admission (validate_arguments definition reconstructed) in
  let request_id := "material-recovery-" +:+ InvocationMaterialRecord.material_id record in
  let? recovered_request := map_err MaterialRecoveryError.InvocationResolution
    (resolve_invocation (PermissionRequestResolver.new resolver) request_id (RunState.run_id state)
       step_id definition reconstructed GrantLifetime.Once) in
  let normalized := ResolvedInvocationRequest.normalized_arguments recovered_request in
  let? _ := map_err MaterialRecoveryError.Admission (validate_arguments definition normalized) in
  let? material_digest := map_err MaterialRecoveryError.MaterialRecord
                            (invocation_material_digest normalized) in
  bail_if bool_decide (material_digest ≠ InvocationMaterialRecord.material_digest record)
    with MaterialRecoveryError.MaterialDigestMismatch;;
  let? semantic_action_digest := map_err MaterialRecoveryError.Admission
    (semantic_action_digest (intent_capability intent)
       (InvocationBinding.definition_digest (EffectIntent.invocation intent))
       (effect_class_of definition) normalized
       (ResolvedInvocationRequest.permission_request recovered_request)) in
  let? action_digest := map_err MaterialRecoveryError.Admission
    (planned_action_digest state step_id semantic_action_digest) in
  bail_if bool_decide (action_digest ≠ EffectIntent.action_digest intent)
       || bool_decide (action_digest ≠ InvocationMaterialRecord.action_digest record)
    with MaterialRecoveryError.ActionDigestMismatch;;
  Ok (InvocationMaterial.mk record normalized).

Definition recover (lease : L) (registry : CapabilityRegistry) (resolver : R)
    (providers : MaterialProviderRegistry V) (step_id : string) : prog_ InvocationMaterial :=
  let! state := load_leased_state lease in
  try step := recovery_step state step_id in
  stop_if bool_decide (StepState.status step ≠ StepStatus.IntentCommitted)
    with MaterialRecoveryError.StepNotIntentCommitted step_id (StepState.status step);;
  try intent := ok_or (StepState.intent step) (MaterialRecoveryError.IntentMissing step_id) in
  let effect_id := EffectIntent.effect_id intent in
  let! record := pmap_err MaterialRecoveryError.Store
                   (reads (λ s, load_invocation_material s effect_id)) in
  try record := ok_or record (MaterialRecoveryError.MaterialRecordMissing effect_id) in
  try _ := map_err MaterialRecoveryError.MaterialRecord
             (InvocationMaterialRecord_verify_for record (RunState.run_id state) step_id intent) in
  match InvocationMaterialRecord.retention record with
  | InvocationMaterialRetention.Ephemeral =>
      Ret (Err MaterialRecoveryError.EphemeralMaterialUnavailable)
  | InvocationMaterialRetention.ReconstructableReference reference =>
      try definition := verify_recovery_catalog registry intent in
      let! reconstructed := reconstruct_reference providers reference in
      Ret (verify_reconstructed state step_id resolver definition intent record reconstructed)
  end.

Definition mark_unavailable (lease : L) (step_id : string)
    (reason : InvocationMaterialUnavailableReason) : prog_ Commit :=
  let! state := load_leased_state lease in
  try step := recovery_step state step_id in
  try intent := ok_or (StepState.intent step) (MaterialRecoveryError.IntentMissing step_id) in
  let! metadata := pmap_err MaterialRecoveryError.EventFactory (asks (create_metadata state)) in
  pmap_err MaterialRecoveryError.Store
    (writes (λ s, append s (ExpectedHead.from_state state)
       (event_for state metadata
          (RunEventBody.InvocationMaterialUnavailable step_id (EffectIntent.effect_id intent)
             reason)))).
End recovery.
