(* ===== verification/Adapters.v ===== *)
(** Process-local adapters: exact binding keys, evidence digests, the observations an adapter
    may report, and the registry that dispatches to them
    (crates/xgeny-runtime/src/executor.rs, its first half). *)

From S2P Require Import Prelude Program Text Wire Domain WorkGraphTypes Host.

Definition MAX_BINDING_COMPONENT_BYTES : N := 2048.

Module AdapterRegistryError.
Inductive AdapterRegistryError : Type := InvalidBinding | DuplicateBinding.
End AdapterRegistryError.
Abbreviation AdapterRegistryError := AdapterRegistryError.AdapterRegistryError.

(** ** Binding keys *)

Module AdapterBindingKey.
Record AdapterBindingKey : Type := mk {
  binding_ref : string;
  operation_ref : option string;
  protocol_version : option string;
}.
#[global] Instance AdapterBindingKey_eq_dec : EqDecision AdapterBindingKey.
Proof. solve_decision. Defined.
#[global] Program Instance AdapterBindingKey_countable : Countable AdapterBindingKey :=
  inj_countable' (λ k, (binding_ref k, operation_ref k, protocol_version k))
    (λ p, mk p.1.1 p.1.2 p.2) _.
Next Obligation. by intros []. Qed.
End AdapterBindingKey.
Abbreviation AdapterBindingKey := AdapterBindingKey.AdapterBindingKey.

Definition validate_binding_component (component : string) : res AdapterRegistryError unit :=
  bail_if is_empty component
       || bool_decide (MAX_BINDING_COMPONENT_BYTES < strlen component)%N
       || bool_decide (trim (chars component) ≠ chars component)
       || any_control component
    with AdapterRegistryError.InvalidBinding;;
  Ok tt.

Definition validate_optional_component (component : option string) : res AdapterRegistryError unit :=
  match component with
  | Some component => validate_binding_component component
  | None => Ok tt
  end.

Definition from_binding (binding : InstanceBinding) : res AdapterRegistryError AdapterBindingKey :=
  let? _ := validate_binding_component (InstanceBinding.binding_ref binding) in
  let? _ := validate_optional_component (InstanceBinding.operation_ref binding) in
  let? _ := validate_optional_component (InstanceBinding.protocol_version binding) in
  Ok (AdapterBindingKey.mk (InstanceBinding.binding_ref binding)
        (InstanceBinding.operation_ref binding) (InstanceBinding.protocol_version binding)).

(** ** Evidence *)

Module AdapterEvidenceDigestError.
Inductive AdapterEvidenceDigestError : Type := AdapterEvidenceDigestError_.
End AdapterEvidenceDigestError.
Abbreviation AdapterEvidenceDigestError := AdapterEvidenceDigestError.AdapterEvidenceDigestError.

Module AdapterEvidenceDigest.
Record AdapterEvidenceDigest : Type := mk { as_str : string }.
Definition new (value : string) : res AdapterEvidenceDigestError AdapterEvidenceDigest :=
  match strip_prefix "sha256:" value with
  | None => Err AdapterEvidenceDigestError.AdapterEvidenceDigestError_
  | Some hex =>
      bail_if bool_decide (strlen hex ≠ 64)%N
           || negb (all_bytes (λ byte, is_ascii_digit byte || is_lower_af byte) hex)
        with AdapterEvidenceDigestError.AdapterEvidenceDigestError_;;
      Ok (mk value)
  end.
End AdapterEvidenceDigest.
Abbreviation AdapterEvidenceDigest := AdapterEvidenceDigest.AdapterEvidenceDigest.

(** ** Observations *)

Module AdapterPrepareFailure.
Inductive AdapterPrepareFailure : Type :=
| Unavailable | UnsupportedProtocol | InvalidMaterial | ResourceUnavailable.
End AdapterPrepareFailure.
Abbreviation AdapterPrepareFailure := AdapterPrepareFailure.AdapterPrepareFailure.

Module AdapterExecutionUnknownReason.
Inductive AdapterExecutionUnknownReason : Type :=
| TransportOutcomeUnknown | AdapterTerminated | ResponseUnverifiable.
Definition code (self : AdapterExecutionUnknownReason) : string :=
  match self with
  | TransportOutcomeUnknown => "adapter_transport_outcome_unknown"
  | AdapterTerminated => "adapter_terminated_after_start"
  | ResponseUnverifiable => "adapter_response_unverifiable"
  end.
End AdapterExecutionUnknownReason.
Abbreviation AdapterExecutionUnknownReason :=
  AdapterExecutionUnknownReason.AdapterExecutionUnknownReason.

Module AdapterExecutionObservation.
Inductive AdapterExecutionObservation : Type :=
| Succeeded (evidence_digest : AdapterEvidenceDigest)
| SucceededWithOutput (evidence_digest : AdapterEvidenceDigest) (output : Value)
| Failed (evidence_digest : AdapterEvidenceDigest)
| Unknown (reason : AdapterExecutionUnknownReason).
End AdapterExecutionObservation.
Abbreviation AdapterExecutionObservation := AdapterExecutionObservation.AdapterExecutionObservation.

Module AdapterReconciliationInconclusiveReason.
Inductive AdapterReconciliationInconclusiveReason : Type :=
| QueryUnavailable | ResponseUnverifiable | StableKeyUnsupported.
Definition code (self : AdapterReconciliationInconclusiveReason) : string :=
  match self with
  | QueryUnavailable => "adapter_reconciliation_query_unavailable"
  | ResponseUnverifiable => "adapter_reconciliation_response_unverifiable"
  | StableKeyUnsupported => "adapter_reconciliation_stable_key_unsupported"
  end.
End AdapterReconciliationInconclusiveReason.
Abbreviation AdapterReconciliationInconclusiveReason :=
  AdapterReconciliationInconclusiveReason.AdapterReconciliationInconclusiveReason.

Module AdapterReconciliationObservation.
Inductive AdapterReconciliationObservation : Type :=
| Applied (evidence_digest : AdapterEvidenceDigest)
| NotApplied (evidence_digest : AdapterEvidenceDigest)
| Failed (evidence_digest : AdapterEvidenceDigest)
| Inconclusive (reason : AdapterReconciliationInconclusiveReason).
End AdapterReconciliationObservation.
Abbreviation AdapterReconciliationObservation :=
  AdapterReconciliationObservation.AdapterReconciliationObservation.

(** ** The adapter interface *)

Module AdapterPrepareRequest.
Record AdapterPrepareRequest : Type := mk {
  intent : EffectIntent;
  instance : CapabilityInstanceBody;
  normalized_arguments : Value;
}.
End AdapterPrepareRequest.
Abbreviation AdapterPrepareRequest := AdapterPrepareRequest.AdapterPrepareRequest.

Module AdapterReconcileRequest.
Record AdapterReconcileRequest : Type := mk {
  intent : EffectIntent;
  instance : CapabilityInstanceBody;
}.
End AdapterReconcileRequest.
Abbreviation AdapterReconcileRequest := AdapterReconcileRequest.AdapterReconcileRequest.

(** [trait EffectAdapter] and [trait PreparedAdapterInvocation]: [A] are the adapters, [I] the
    one-shot invocations they prepare, [W] the world they act on. *)
Class EffectAdapter (W A I : Type) : Type := {
  adapter_prepare : A → AdapterPrepareRequest → W → res AdapterPrepareFailure I * W;
  invocation_execute : I → W → AdapterExecutionObservation * W;
  adapter_reconcile : A → AdapterReconcileRequest → W → AdapterReconciliationObservation * W;
}.

(** ** The registry *)

Module EffectAdapterRegistry.
Record EffectAdapterRegistry (A : Type) : Type := mk { adapters : gmap AdapterBindingKey A }.
Arguments mk {A} adapters.
Arguments adapters {A} e.
Definition new {A} : EffectAdapterRegistry A := mk ∅.
Definition register {A} (self : EffectAdapterRegistry A) (binding : InstanceBinding) (adapter : A)
    : res AdapterRegistryError (EffectAdapterRegistry A) :=
  let? key := from_binding binding in
  bail_if bool_decide (is_Some (adapters self !! key)) with AdapterRegistryError.DuplicateBinding;;
  Ok (mk (<[key := adapter]> (adapters self))).
Definition len {A} (self : EffectAdapterRegistry A) : N := N.of_nat (size (adapters self)).
Definition is_empty {A} (self : EffectAdapterRegistry A) : bool :=
  bool_decide (adapters self = ∅).
Definition adapter_mut {A} (self : EffectAdapterRegistry A) (key : AdapterBindingKey) : option A :=
  adapters self !! key.
End EffectAdapterRegistry.
Abbreviation EffectAdapterRegistry := EffectAdapterRegistry.EffectAdapterRegistry.
