(* ===== verification/DurableRuntime.v ===== *)
(** The durable effect runtime: one step of one effect, journaled before and after the call to
    its sink (crates/xgeny-runtime/src/runtime.rs). *)

From S2P Require Import Prelude Program Text Wire WorkGraphTypes WorkGraphErrors Planning.
From S2P Require Import Material ToolOutput Completion Journal Receipt StoreTypes StoreBundles.
From S2P Require Import MemoryStore Host.

(** ** The sink interface *)

(** Core-owned identity of one prepared invocation. *)
Module PreparedEffectBinding.
Record PreparedEffectBinding : Type := mk {
  run_id : string;
  authority : string;
  authority_epoch : N;
  journal_sequence : N;
  journal_head_digest : string;
  step_id : string;
  effect_id : string;
  material_record : InvocationMaterialRecord;
}.
Definition from_verified (state : RunState) (step_id : string) (intent : EffectIntent)
    (material_record : InvocationMaterialRecord) : PreparedEffectBinding :=
  mk (RunState.run_id state) (RunState.authority state) (RunState.authority_epoch state)
    (RunState.journal_sequence state) (RunState.journal_head_digest state) step_id
    (EffectIntent.effect_id intent) material_record.
End PreparedEffectBinding.
Abbreviation PreparedEffectBinding := PreparedEffectBinding.PreparedEffectBinding.

Module ExecutionObservation.
Inductive ExecutionObservation : Type :=
| Succeeded (evidence_digest : string)
| SucceededWithOutput (evidence_digest : string) (output : Value)
| Failed (evidence_digest : string)
| Unknown (reason : string).
End ExecutionObservation.
Abbreviation ExecutionObservation := ExecutionObservation.ExecutionObservation.

Module ReconciliationObservation.
Inductive ReconciliationObservation : Type :=
| Applied (evidence_digest : string)
| NotApplied (evidence_digest : string)
| Failed (evidence_digest : string)
| Inconclusive (reason : string).
End ReconciliationObservation.
Abbreviation ReconciliationObservation := ReconciliationObservation.ReconciliationObservation.

(** [trait PreparedEffect] and [trait EffectSink].  A sink cannot fail, but its methods may
    panic: an error of type [Empty_set] leaves that alone. *)
Class PreparedEffect (P : Type) : Type := prepared_binding : P → PreparedEffectBinding.

Class EffectSink (W E P : Type) : Type := {
  sink_execute : E → EffectIntent → P → W → ExecutionObservation * W;
  sink_reconcile : E → EffectIntent → W → res Empty_set ReconciliationObservation * W;
}.

(** ** Reports, policy and errors *)

Module DriveAction.
Inductive DriveAction : Type :=
| EffectSucceeded
| EffectFailed
| EffectUnknown
| ExecutionRecoveredAsUnknown
| ReconciliationApplied
| ReconciliationNotApplied
| ReconciliationFailed
| ManualRequired
| VerificationPassed
| VerificationFailed
| VerificationInconclusive
| NoAction.
End DriveAction.
Abbreviation DriveAction := DriveAction.DriveAction.

Module DriveReport.
Record DriveReport : Type := mk { action : DriveAction; state : RunState }.
End DriveReport.
Abbreviation DriveReport := DriveReport.DriveReport.

(** [NonZeroU32] is an [N]; [default] is three. *)
Module RuntimePolicy.
Record RuntimePolicy : Type := new { max_execution_attempts : N }.
Definition default : RuntimePolicy := new 3.
End RuntimePolicy.
Abbreviation RuntimePolicy := RuntimePolicy.RuntimePolicy.

Module RuntimeError.
Inductive RuntimeError : Type :=
| Store (error : StoreError)
| EventFactory (error : EventFactoryError)
| EventMetadata (error : EventMetadataError)
| RunNotInitialized
| StepNotFound (step_id : string)
| IntentMissing (step_id : string)
| PreparedEffectRequired (step_id : string)
| PreparedEffectHeadChanged (step_id : string)
| PreparedEffectBindingMismatch (step_id : string)
| PreparedMaterialRecordInvalid (error : InvocationMaterialError)
| PreparedMaterialRecordMissing (effect_id : string)
| PreparedMaterialRecordChanged (step_id : string)
| ExecutionAttemptLimitReached (step_id : string) (attempts maximum : N)
| InvalidSinkObservation (observation field : string)
| LeaseRunMismatch (lease_run_id state_run_id : string).
End RuntimeError.
Abbreviation RuntimeError := RuntimeError.RuntimeError.

(** ** Classifying what the sink reports *)

Module PendingExecutionCommit.
Record PendingExecutionCommit : Type := mk {
  body : RunEventBody;
  action : DriveAction;
  output : option ToolOutputRecord;
}.
Definition succeeded (step : StepState) (intent : EffectIntent) (evidence_digest : string)
    (output : option ToolOutputRecord) : PendingExecutionCommit :=
  mk (RunEventBody.EffectSucceeded (StepState.step_id step) (EffectIntent.effect_id intent)
        evidence_digest (ToolOutputRecord.record_digest <$> output))
    DriveAction.EffectSucceeded output.
Definition failed (step : StepState) (intent : EffectIntent) (evidence_digest : string)
    : PendingExecutionCommit :=
  mk (RunEventBody.EffectFailed (StepState.step_id step) (EffectIntent.effect_id intent)
        evidence_digest)
    DriveAction.EffectFailed None.
Definition unknown (step : StepState) (intent : EffectIntent) (reason : string)
    : PendingExecutionCommit :=
  mk (RunEventBody.EffectBecameUnknown (StepState.step_id step) (EffectIntent.effect_id intent)
        reason)
    DriveAction.EffectUnknown None.
End PendingExecutionCommit.
Abbreviation PendingExecutionCommit := PendingExecutionCommit.PendingExecutionCommit.

(** [value.trim().is_empty()]. *)
Definition is_blank (value : string) : bool := bool_decide (trim (chars value) = []).

Definition require_observation_value (observation field value : string) : res RuntimeError string :=
  bail_if is_blank value with RuntimeError.InvalidSinkObservation observation field;;
  Ok value.

Definition require_intent (step : StepState) : res RuntimeError EffectIntent :=
  ok_or (StepState.intent step) (RuntimeError.IntentMissing (StepState.step_id step)).

Definition supports_query (guarantee : SinkGuarantee) : bool :=
  match guarantee with
  | SinkGuarantee.QueryByKey | SinkGuarantee.DeduplicateAndQuery => true
  | _ => false
  end.

Definition output_required (intent : EffectIntent) : bool :=
  match EffectIntent.receipt_provenance intent with
  | Some provenance =>
      bool_decide (ReceiptProvenance.tool_output_profile provenance = Some TOOL_OUTPUT_PROFILE_V1)
  | None => false
  end.

Definition classify_output_success `{Crypto} (started : RunState) (step : StepState)
    (intent : EffectIntent) (output_required : bool) (evidence_digest : string) (output : Value)
    : res RuntimeError PendingExecutionCommit :=
  let? evidence_digest :=
    require_observation_value "execution_succeeded" "evidence_digest" evidence_digest in
  let? execution_attempt :=
    ok_or (StepState.attempts <$> RunState.steps started !! StepState.step_id step)
      (RuntimeError.StepNotFound (StepState.step_id step)) in
  if negb output_required then
    Ok (PendingExecutionCommit.unknown step intent "adapter returned an unexpected tool output")
  else
    match ToolOutputRecord_new (RunState.run_id started) (StepState.step_id step) intent
            execution_attempt evidence_digest output with
    | Ok record => Ok (PendingExecutionCommit.succeeded step intent evidence_digest (Some record))
    | Err _ => Ok (PendingExecutionCommit.unknown step intent "adapter tool output is invalid")
    | Panic why => Panic why
    end.

Definition classify_execution_observation `{Crypto} (started : RunState) (step : StepState)
    (intent : EffectIntent) (output_required : bool) (observation : ExecutionObservation)
    : res RuntimeError PendingExecutionCommit :=
  match observation with
  | ExecutionObservation.Succeeded evidence_digest =>
      let? evidence_digest :=
        require_observation_value "execution_succeeded" "evidence_digest" evidence_digest in
      if output_required
      then Ok (PendingExecutionCommit.unknown step intent "adapter returned no durable tool output")
      else Ok (PendingExecutionCommit.succeeded step intent evidence_digest None)
  | ExecutionObservation.SucceededWithOutput evidence_digest output =>
      classify_output_success started step intent output_required evidence_digest output
  | ExecutionObservation.Failed evidence_digest =>
      let? evidence_digest :=
        require_observation_value "execution_failed" "evidence_digest" evidence_digest in
      Ok (PendingExecutionCommit.failed step intent evidence_digest)
  | ExecutionObservation.Unknown reason =>
      let? reason := require_observation_value "execution_unknown" "reason" reason in
      Ok (PendingExecutionCommit.unknown step intent reason)
  end.

Definition reconciliation_resolution (step : StepState) (intent : EffectIntent)
    (resolution : ReconciliationResolution) (evidence_digest : string) : RunEventBody :=
  RunEventBody.ReconciliationResolved (StepState.step_id step) (EffectIntent.effect_id intent)
    resolution evidence_digest.

(** The match of [finish_reconciliation]. *)
Definition classify_reconciliation (step : StepState) (intent : EffectIntent)
    (observation : ReconciliationObservation) : res RuntimeError (RunEventBody * DriveAction) :=
  match observation with
  | ReconciliationObservation.Applied evidence_digest =>
      let? evidence_digest :=
        require_observation_value "reconciliation_applied" "evidence_digest" evidence_digest in
      Ok (reconciliation_resolution step intent ReconciliationResolution.ProvedApplied
            evidence_digest, DriveAction.ReconciliationApplied)
  | ReconciliationObservation.NotApplied evidence_digest =>
      let? evidence_digest :=
        require_observation_value "reconciliation_not_applied" "evidence_digest" evidence_digest in
      Ok (reconciliation_resolution step intent ReconciliationResolution.ProvedNotApplied
            evidence_digest, DriveAction.ReconciliationNotApplied)
  | ReconciliationObservation.Failed evidence_digest =>
      let? evidence_digest :=
        require_observation_value "reconciliation_failed" "evidence_digest" evidence_digest in
      Ok (reconciliation_resolution step intent ReconciliationResolution.Failed
            evidence_digest, DriveAction.ReconciliationFailed)
  | ReconciliationObservation.Inconclusive reason =>
      let? reason := require_observation_value "reconciliation_inconclusive" "reason" reason in
      Ok (RunEventBody.ManualInterventionRequired (StepState.step_id step)
            (EffectIntent.effect_id intent) reason, DriveAction.ManualRequired)
  end.

Definition verify_prepared_invocation `{Crypto} (state : RunState) (step : StepState)
    (intent : EffectIntent) (binding : PreparedEffectBinding) : res RuntimeError unit :=
  bail_if bool_decide (PreparedEffectBinding.run_id binding ≠ RunState.run_id state)
       || bool_decide (PreparedEffectBinding.authority binding ≠ RunState.authority state)
       || bool_decide (PreparedEffectBinding.authority_epoch binding ≠ RunState.authority_epoch state)
       || bool_decide (PreparedEffectBinding.journal_sequence binding ≠ RunState.journal_sequence state)
       || bool_decide (PreparedEffectBinding.journal_head_digest binding
                       ≠ RunState.journal_head_digest state)
    with RuntimeError.PreparedEffectHeadChanged (StepState.step_id step);;
  bail_if bool_decide (PreparedEffectBinding.step_id binding ≠ StepState.step_id step)
       || bool_decide (PreparedEffectBinding.effect_id binding ≠ EffectIntent.effect_id intent)
    with RuntimeError.PreparedEffectBindingMismatch (StepState.step_id step);;
  map_err RuntimeError.PreparedMaterialRecordInvalid
    (InvocationMaterialRecord_verify_for (PreparedEffectBinding.material_record binding)
       (RunState.run_id state) (StepState.step_id step) intent).

(** ** Driving one step *)

Section drive.
Context {S W L E P : Type} `{RunStore S} `{EventFactory W} `{RunLease L} `{PreparedEffect P}.
Context `{EffectSink W E P} `{Crypto} `{Rfc3339}.
Abbreviation prog_ A := (prog (Machine S W) (res RuntimeError A)).

Definition verify_lease (lease : L) (state : RunState) : res RuntimeError unit :=
  bail_if bool_decide (RunLease.run_id lease ≠ RunState.run_id state)
    with RuntimeError.LeaseRunMismatch (RunLease.run_id lease) (RunState.run_id state);;
  Ok tt.

(** The metadata of the next event, validated. *)
Definition next_metadata (state : RunState) : prog_ EventMetadata :=
  let! metadata := pmap_err RuntimeError.EventFactory (asks (create_metadata state)) in
  try _ := map_err RuntimeError.EventMetadata (EventMetadata_validate metadata) in
  Ret (Ok metadata).

Definition append_event (state : RunState) (body : RunEventBody) : prog_ Commit :=
  let! metadata := next_metadata state in
  pmap_err RuntimeError.Store
    (writes (λ s, append s (ExpectedHead.from_state state) (event_for state metadata body))).

Definition commit_report (state : RunState) (body : RunEventBody) (action : DriveAction)
    : prog_ DriveReport :=
  let! commit := append_event state body in
  Ret (Ok (DriveReport.mk action (Commit.state commit))).

Definition commit_tool_output_report (state : RunState) (body : RunEventBody) (action : DriveAction)
    (output : ToolOutputRecord) : prog_ DriveReport :=
  let! metadata := next_metadata state in
  let! commit := pmap_err RuntimeError.Store
    (writes (λ s, append_with_tool_output s (ExpectedHead.from_state state)
                    (event_for state metadata body) output)) in
  Ret (Ok (DriveReport.mk action (Commit.state commit))).

Definition execute_intent (policy : RuntimePolicy) (sink : E) (state : RunState) (step : StepState)
    (prepared : option P) : prog_ DriveReport :=
  let step_id := StepState.step_id step in
  let maximum := RuntimePolicy.max_execution_attempts policy in
  try intent := require_intent step in
  stop_if bool_decide (maximum ≤ StepState.attempts step)%N
    with RuntimeError.ExecutionAttemptLimitReached step_id (StepState.attempts step) maximum;;
  try prepared := ok_or prepared (RuntimeError.PreparedEffectRequired step_id) in
  let binding := prepared_binding prepared in
  try _ := verify_prepared_invocation state step intent binding in
  let effect_id := EffectIntent.effect_id intent in
  let! current_record := pmap_err RuntimeError.Store
    (reads (λ s, load_invocation_material s effect_id)) in
  try current_record := ok_or current_record (RuntimeError.PreparedMaterialRecordMissing effect_id) in
  stop_if bool_decide (current_record ≠ PreparedEffectBinding.material_record binding)
    with RuntimeError.PreparedMaterialRecordChanged step_id;;
  let! started := append_event state (RunEventBody.EffectExecutionStarted step_id effect_id) in
  bind (asks (sink_execute sink intent prepared)) (λ observation,
    try pending := classify_execution_observation (Commit.state started) step intent
                     (output_required intent) observation in
    match PendingExecutionCommit.output pending with
    | Some output =>
        commit_tool_output_report (Commit.state started) (PendingExecutionCommit.body pending)
          (PendingExecutionCommit.action pending) output
    | None =>
        commit_report (Commit.state started) (PendingExecutionCommit.body pending)
          (PendingExecutionCommit.action pending)
    end).

Definition mark_recovered_execution_unknown (state : RunState) (step : StepState)
    : prog_ DriveReport :=
  try intent := require_intent step in
  commit_report state
    (RunEventBody.EffectBecameUnknown (StepState.step_id step) (EffectIntent.effect_id intent)
       "runtime resumed with no committed effect outcome")
    DriveAction.ExecutionRecoveredAsUnknown.

Definition finish_reconciliation (sink : E) (state : RunState) (step : StepState)
    : prog_ DriveReport :=
  try intent := require_intent step in
  if negb (supports_query (EffectIntent.sink_guarantee intent)) then
    commit_report state
      (RunEventBody.ManualInterventionRequired (StepState.step_id step)
         (EffectIntent.effect_id intent) "reconciliation state has no query-capable sink contract")
      DriveAction.ManualRequired
  else
    let! observation := pmap_err (λ e : Empty_set, match e with end)
                          (asks (sink_reconcile sink intent)) in
    try outcome := classify_reconciliation step intent observation in
    commit_report state outcome.1 outcome.2.

Definition begin_reconciliation (sink : E) (state : RunState) (step : StepState)
    : prog_ DriveReport :=
  let step_id := StepState.step_id step in
  try intent := require_intent step in
  if negb (supports_query (EffectIntent.sink_guarantee intent)) then
    commit_report state
      (RunEventBody.ManualInterventionRequired step_id (EffectIntent.effect_id intent)
         "sink cannot query the effect by its stable key; blind retry is disabled")
      DriveAction.ManualRequired
  else
    let! reconciling := append_event state
      (RunEventBody.ReconciliationStarted step_id (EffectIntent.effect_id intent)) in
    try reconciling_step := ok_or (RunState.steps (Commit.state reconciling) !! step_id)
                              (RuntimeError.StepNotFound step_id) in
    finish_reconciliation sink (Commit.state reconciling) reconciling_step.

Definition drive_step (policy : RuntimePolicy) (sink : E) (lease : L) (step_id : string)
    (prepared : option P) : prog_ DriveReport :=
  let! state := pmap_err RuntimeError.Store (reads load_current) in
  try state := ok_or state RuntimeError.RunNotInitialized in
  try _ := verify_lease lease state in
  try step := ok_or (RunState.steps state !! step_id) (RuntimeError.StepNotFound step_id) in
  match StepState.status step with
  | StepStatus.IntentCommitted => execute_intent policy sink state step prepared
  | StepStatus.Executing => mark_recovered_execution_unknown state step
  | StepStatus.EffectUnknown => begin_reconciliation sink state step
  | StepStatus.Reconciling => finish_reconciliation sink state step
  | StepStatus.Planned | StepStatus.Validating | StepStatus.Completed | StepStatus.Failed
  | StepStatus.ManualRequired => Ret (Ok (DriveReport.mk DriveAction.NoAction state))
  end.
End drive.
