(* ===== verification/Verification.v ===== *)
(** Verification: a trusted verifier's report becomes a durable execution receipt and the
    terminal event of its step (crates/xgeny-runtime/src/verification.rs). *)

From Stdlib Require Import Ascii.
From S2P Require Import Prelude Program Text Wire Domain Registry WorkGraphTypes WorkGraphErrors.
From S2P Require Import Planning Material ToolOutput Completion Journal Receipt StoreTypes.
From S2P Require Import StoreBundles MemoryStore Host Invocation Adapters DurableRuntime.

Definition EMPTY_RECEIPT_DIGEST : string :=
  "sha256:0000000000000000000000000000000000000000000000000000000000000000".
Definition MAX_VERIFIED_ARTIFACTS : N := CORE_RECEIPT_MAX_ARTIFACTS_V2.
Definition MAX_VERIFIED_ARTIFACT_SIZE_BYTES : N := CORE_RECEIPT_MAX_ARTIFACT_SIZE_BYTES_V2.
Definition MAX_VERIFIED_ARTIFACT_TOTAL_BYTES : N := CORE_RECEIPT_MAX_ARTIFACT_TOTAL_BYTES_V2.

Definition validate_digest (value : string) : bool :=
  match strip_prefix "sha256:" value with
  | Some encoded =>
      bool_decide (strlen encoded = 64)%N &&
      all_bytes (λ byte, is_ascii_digit byte || is_lower_af byte) encoded
  | None => false
  end.

Module VerifierOutputDigestError.
Inductive VerifierOutputDigestError : Type := VerifierOutputDigestError_.
End VerifierOutputDigestError.
Abbreviation VerifierOutputDigestError := VerifierOutputDigestError.VerifierOutputDigestError.

Module VerifierOutputDigest.
Record VerifierOutputDigest : Type := mk { as_str : string }.
Definition new (value : string) : res VerifierOutputDigestError VerifierOutputDigest :=
  if validate_digest value then Ok (mk value)
  else Err VerifierOutputDigestError.VerifierOutputDigestError_.
End VerifierOutputDigest.
Abbreviation VerifierOutputDigest := VerifierOutputDigest.VerifierOutputDigest.

Module RuleVerificationObservation.
Record RuleVerificationObservation : Type := new {
  strategy : VerificationStrategy;
  result : VerificationResult;
  evidence_digest : option AdapterEvidenceDigest;
}.
End RuleVerificationObservation.
Abbreviation RuleVerificationObservation := RuleVerificationObservation.RuleVerificationObservation.

(** ** Artifacts *)

Module VerifiedArtifactDescriptorError.
Inductive VerifiedArtifactDescriptorError : Type :=
| InvalidArtifactId | InvalidName | InvalidMediaType | ArtifactSizeExceeded | InvalidDigest.
End VerifiedArtifactDescriptorError.
Abbreviation VerifiedArtifactDescriptorError :=
  VerifiedArtifactDescriptorError.VerifiedArtifactDescriptorError.

(** The bytes of an identifier: alphanumeric, or past the first one of [._:-]. *)
Definition valid_artifact_identifier (value : string) : bool :=
  negb (is_empty value) && bool_decide (strlen value ≤ 200)%N &&
  match value with
  | EmptyString => true
  | String first rest =>
      is_ascii_alphanumeric (N_of_ascii first) &&
      all_bytes (λ byte, is_ascii_alphanumeric byte || is_name_punct byte
                         || bool_decide (byte = 58)%N) rest
  end.

Module VerifiedArtifactDescriptor.
Record VerifiedArtifactDescriptor : Type := mk {
  artifact_id : string;
  name : option string;
  media_type : string;
  size : N;
  digest : string;
}.
Definition new (artifact_id : string) (name : option string) (media_type : string) (size : N)
    (digest : string) : res VerifiedArtifactDescriptorError VerifiedArtifactDescriptor :=
  bail_if negb (valid_artifact_identifier artifact_id)
    with VerifiedArtifactDescriptorError.InvalidArtifactId;;
  bail_if match name with
          | Some name => is_empty name || bool_decide (512 < strlen name)%N || any_control name
          | None => false
          end
    with VerifiedArtifactDescriptorError.InvalidName;;
  bail_if negb (bool_decide (3 ≤ strlen media_type ≤ 200)%N) || any_control media_type
    with VerifiedArtifactDescriptorError.InvalidMediaType;;
  bail_if bool_decide (MAX_VERIFIED_ARTIFACT_SIZE_BYTES < size)%N
    with VerifiedArtifactDescriptorError.ArtifactSizeExceeded;;
  bail_if negb (validate_digest digest) with VerifiedArtifactDescriptorError.InvalidDigest;;
  Ok (mk artifact_id name media_type size digest).
End VerifiedArtifactDescriptor.
Abbreviation VerifiedArtifactDescriptor := VerifiedArtifactDescriptor.VerifiedArtifactDescriptor.

(** ** Reports *)

Module VerificationReportError.
Inductive VerificationReportError : Type :=
| ArtifactCountExceeded | DuplicateArtifactId | ArtifactTotalSizeExceeded.
End VerificationReportError.
Abbreviation VerificationReportError := VerificationReportError.VerificationReportError.

Module VerificationReport.
Record VerificationReport : Type := mk {
  output_digest : VerifierOutputDigest;
  rules : list RuleVerificationObservation;
  artifacts : list VerifiedArtifactDescriptor;
}.
Definition new (output_digest : VerifierOutputDigest) (rules : list RuleVerificationObservation)
    : VerificationReport := mk output_digest rules [].
(** One round of the artifact loop: the identifiers and the total so far. *)
Definition admit_artifact (seen : gset string * N) (artifact : VerifiedArtifactDescriptor)
    : res VerificationReportError (gset string * N) :=
  let '(identifiers, total) := seen in
  let artifact_id := VerifiedArtifactDescriptor.artifact_id artifact in
  bail_if bool_decide (artifact_id ∈ identifiers)
    with VerificationReportError.DuplicateArtifactId;;
  let? total := ok_or (checked_add u64_max total (VerifiedArtifactDescriptor.size artifact))
                  VerificationReportError.ArtifactTotalSizeExceeded in
  bail_if bool_decide (MAX_VERIFIED_ARTIFACT_TOTAL_BYTES < total)%N
    with VerificationReportError.ArtifactTotalSizeExceeded;;
  Ok ({[artifact_id]} ∪ identifiers, total).
Definition with_artifacts (self : VerificationReport) (artifacts : list VerifiedArtifactDescriptor)
    : res VerificationReportError VerificationReport :=
  bail_if bool_decide (MAX_VERIFIED_ARTIFACTS < len artifacts)%N
    with VerificationReportError.ArtifactCountExceeded;;
  let? _ := for_each admit_artifact artifacts (∅, 0%N) in
  Ok (mk (output_digest self) (rules self) artifacts).
End VerificationReport.
Abbreviation VerificationReport := VerificationReport.VerificationReport.

(** ** The verifier interface and its registry *)

Module VerificationRequest.
Record VerificationRequest : Type := mk {
  intent : EffectIntent;
  definition : CapabilityDefinitionBody;
  instance : CapabilityInstanceBody;
  outcome_evidence_digest : AdapterEvidenceDigest;
  tool_output : option ToolOutputRecord;
}.
End VerificationRequest.
Abbreviation VerificationRequest := VerificationRequest.VerificationRequest.

Module VerificationPortFailure.
Inductive VerificationPortFailure : Type :=
| Unavailable | UnsupportedStrategy | EvidenceUnavailable | ResponseUnverifiable.
End VerificationPortFailure.
Abbreviation VerificationPortFailure := VerificationPortFailure.VerificationPortFailure.

(** [trait EffectVerifier]. *)
Class EffectVerifier (W V : Type) : Type :=
  verify : V → VerificationRequest → W → res VerificationPortFailure VerificationReport * W.

Module VerificationRegistryError.
Inductive VerificationRegistryError : Type := InvalidBinding | DuplicateBinding.
End VerificationRegistryError.
Abbreviation VerificationRegistryError := VerificationRegistryError.VerificationRegistryError.

Module EffectVerifierRegistry.
Record EffectVerifierRegistry (V : Type) : Type := mk { verifiers : gmap AdapterBindingKey V }.
Arguments mk {V} verifiers.
Arguments verifiers {V} e.
Definition new {V} : EffectVerifierRegistry V := mk ∅.
Definition register {V} (self : EffectVerifierRegistry V) (binding : InstanceBinding) (verifier : V)
    : res VerificationRegistryError (EffectVerifierRegistry V) :=
  let? key := map_err (λ _, VerificationRegistryError.InvalidBinding) (from_binding binding) in
  bail_if bool_decide (is_Some (verifiers self !! key))
    with VerificationRegistryError.DuplicateBinding;;
  Ok (mk (<[key := verifier]> (verifiers self))).
Definition verifier_mut {V} (self : EffectVerifierRegistry V) (key : AdapterBindingKey) : option V :=
  verifiers self !! key.
End EffectVerifierRegistry.
Abbreviation EffectVerifierRegistry := EffectVerifierRegistry.EffectVerifierRegistry.

Module VerificationRunnerError.
Inductive VerificationRunnerError : Type :=
| Store (error : StoreError)
| EventFactory (error : EventFactoryError)
| EventMetadata (error : EventMetadataError)
| Admission (error : AdmissionError)
| Protocol (error : ProtocolError)
| Verifier (failure : VerificationPortFailure)
| EvidenceDigest (error : AdapterEvidenceDigestError)
| Json (message : string)
| RunNotInitialized
| StepNotFound (step_id : string)
| StepNotValidating (step_id : string) (actual : StepStatus)
| IntentMissing (step_id : string)
| ReceiptProvenanceMissing (effect_id : string)
| UnsupportedReceiptProfile
| UnsupportedToolOutputProfile
| ReceiptProvenanceBindingMismatch
| EffectEvidenceMissing (effect_id : string)
| DefinitionNotFound (capability_id contract_version : string)
| DefinitionChanged
| InstanceNotFound (instance_id : string)
| InstanceBindingChanged
| InvalidVerifierBinding
| VerifierNotRegistered (instance_id : string)
| VerificationPlanChanged
| VerificationReportMismatch
| ToolOutputMismatch
| EffectStartMissing (effect_id : string)
| LeaseRunMismatch (lease_run_id state_run_id : string).
End VerificationRunnerError.
Abbreviation VerificationRunnerError := VerificationRunnerError.VerificationRunnerError.

(** ** Checks on the durable step *)

Definition receipt_profile_matches_effect (intent : EffectIntent) (provenance : ReceiptProvenance)
    : bool :=
  let profile := ReceiptProvenance.profile_version provenance in
  match EffectIntent.effect_class intent with
  | EffectClass.ReadOnly => bool_decide (profile = CORE_RECEIPT_PROFILE_V2)
  | EffectClass.Reversible => bool_decide (profile = CORE_RECEIPT_PROFILE_V1)
  | EffectClass.Idempotent | EffectClass.NonIdempotent =>
      bool_decide (profile = CORE_RECEIPT_PROFILE_V2) || bool_decide (profile = CORE_RECEIPT_PROFILE_V1)
  end.

Definition tool_output_profile_matches_effect (intent : EffectIntent)
    (provenance : ReceiptProvenance) : bool :=
  let profile := ReceiptProvenance.profile_version provenance in
  let with_output := bool_decide (ReceiptProvenance.tool_output_profile provenance
                                  = Some TOOL_OUTPUT_PROFILE_V1) in
  let without := bool_decide (ReceiptProvenance.tool_output_profile provenance = None) in
  match EffectIntent.effect_class intent with
  | EffectClass.ReadOnly => bool_decide (profile = CORE_RECEIPT_PROFILE_V2) && with_output
  | EffectClass.Reversible => bool_decide (profile = CORE_RECEIPT_PROFILE_V1) && without
  | EffectClass.Idempotent | EffectClass.NonIdempotent =>
      if bool_decide (profile = CORE_RECEIPT_PROFILE_V2) then with_output
      else bool_decide (profile = CORE_RECEIPT_PROFILE_V1) && without
  end.

(** One rule of a definition beside one rule of a durable plan. *)
Definition rule_matches (pair : VerificationRule * ReceiptVerificationRule) : bool :=
  let '(definition_rule, durable_rule) := pair in
  bool_decide (VerificationRule.required definition_rule
               = ReceiptVerificationRule.required durable_rule)
  && bool_decide (VerificationRule.strategy definition_rule
                  = protocol_verification_strategy (ReceiptVerificationRule.strategy durable_rule)).

Definition receipt_verification_plan_matches (definition : CapabilityDefinitionBody)
    (provenance : ReceiptProvenance) : bool :=
  let rules := CapabilitySpec.verification (CapabilityDefinitionBody.spec definition) in
  let plan := ReceiptProvenance.verification_plan provenance in
  bool_decide (length rules = length plan) && forallb rule_matches (zip rules plan).

Definition verify_verification_plan (definition : CapabilityDefinitionBody)
    (provenance : ReceiptProvenance) : res VerificationRunnerError unit :=
  bail_if negb (receipt_verification_plan_matches definition provenance)
    with VerificationRunnerError.VerificationPlanChanged;;
  Ok tt.

Definition verify_current_definition `{Crypto} (registry : CapabilityRegistry) (intent : EffectIntent)
    : res VerificationRunnerError CapabilityDefinitionBody :=
  let invocation := EffectIntent.invocation intent in
  let capability := CapabilityRef.mk (InvocationBinding.capability_id invocation)
                      (InvocationBinding.contract_version invocation) in
  let? definition := ok_or (definition registry capability)
    (VerificationRunnerError.DefinitionNotFound (CapabilityRef.capability_id capability)
       (CapabilityRef.contract_version capability)) in
  let? digest := map_err VerificationRunnerError.Admission (definition_contract_digest definition) in
  bail_if bool_decide (digest ≠ InvocationBinding.definition_digest invocation)
    with VerificationRunnerError.DefinitionChanged;;
  Ok definition.

Definition verify_current_instance `{Crypto} (registry : CapabilityRegistry) (intent : EffectIntent)
    : res VerificationRunnerError CapabilityInstanceBody :=
  let invocation := EffectIntent.invocation intent in
  let? instance := ok_or (instance registry (InvocationBinding.instance_id invocation))
    (VerificationRunnerError.InstanceNotFound (InvocationBinding.instance_id invocation)) in
  let reference := CapabilityInstanceBody.definition instance in
  bail_if bool_decide (CapabilityRef.capability_id reference
                       ≠ InvocationBinding.capability_id invocation)
       || bool_decide (CapabilityRef.contract_version reference
                       ≠ InvocationBinding.contract_version invocation)
    with VerificationRunnerError.InstanceBindingChanged;;
  let? digest := map_err VerificationRunnerError.Admission (executable_binding_digest instance) in
  bail_if bool_decide (digest ≠ InvocationBinding.instance_binding_digest invocation)
    with VerificationRunnerError.InstanceBindingChanged;;
  Ok instance.

(** ** Checks on the report *)

Definition verify_report_profile (intent : EffectIntent) (provenance : ReceiptProvenance)
    (report : VerificationReport) : res VerificationRunnerError unit :=
  let profile := ReceiptProvenance.profile_version provenance in
  let no_artifacts := bool_decide (VerificationReport.artifacts report = []) in
  let valid :=
    if bool_decide (profile = CORE_RECEIPT_PROFILE_V1) then no_artifacts
    else if bool_decide (profile = CORE_RECEIPT_PROFILE_V2) then
      match EffectIntent.effect_class intent with
      | EffectClass.ReadOnly | EffectClass.Idempotent | EffectClass.NonIdempotent => true
      | EffectClass.Reversible => false
      end && negb no_artifacts
    else false in
  if valid then Ok tt else Err VerificationRunnerError.VerificationReportMismatch.

Definition verify_output_match (provenance : ReceiptProvenance) (tool_output : option ToolOutputRecord)
    (report : VerificationReport) : res VerificationRunnerError unit :=
  match ReceiptProvenance.tool_output_profile provenance with
  | Some profile =>
      if bool_decide (profile = TOOL_OUTPUT_PROFILE_V1) then
        match tool_output with
        | Some output =>
            if bool_decide (VerifierOutputDigest.as_str (VerificationReport.output_digest report)
                            = ToolOutputRecord.output_digest output)
            then Ok tt else Err VerificationRunnerError.ToolOutputMismatch
        | None => Err VerificationRunnerError.ToolOutputMismatch
        end
      else Err VerificationRunnerError.ToolOutputMismatch
  | None =>
      match tool_output with
      | None => Ok tt
      | Some _ => Err VerificationRunnerError.ToolOutputMismatch
      end
  end.

(** One round of the loop of [verify_report]: the evidence collected so far. *)
Definition observe_rule (evidence : list VerificationEvidence)
    (pair : RuleVerificationObservation * ReceiptVerificationRule)
    : res VerificationRunnerError (list VerificationEvidence) :=
  let '(observed, rule) := pair in
  let strategy := protocol_verification_strategy (ReceiptVerificationRule.strategy rule) in
  let result := RuleVerificationObservation.result observed in
  let digest := RuleVerificationObservation.evidence_digest observed in
  bail_if bool_decide (RuleVerificationObservation.strategy observed ≠ strategy)
       || (bool_decide (result = VerificationResult.Passed) && negb (bool_decide (is_Some digest)))
    with VerificationRunnerError.VerificationReportMismatch;;
  Ok (evidence ++ [VerificationEvidence.mk strategy (ReceiptVerificationRule.required rule) result
                     (core_verification_summary_v1 result)
                     (AdapterEvidenceDigest.as_str <$> digest) None]).

Definition verify_report (provenance : ReceiptProvenance) (report : VerificationReport)
    : res VerificationRunnerError (CoreVerificationOutcome * list VerificationEvidence) :=
  let rules := VerificationReport.rules report in
  let plan := ReceiptProvenance.verification_plan provenance in
  bail_if bool_decide (length rules ≠ length plan)
    with VerificationRunnerError.VerificationReportMismatch;;
  let? evidence := for_each observe_rule (zip rules plan) [] in
  Ok (evaluate_core_verification_v1 evidence, evidence).

(** ** The receipt *)

Module VerifiedStep.
Record VerifiedStep : Type := mk {
  intent : EffectIntent;
  provenance : ReceiptProvenance;
  report : VerificationReport;
  outcome : CoreVerificationOutcome;
  disposition : VerificationDisposition;
  verification : list VerificationEvidence;
}.
End VerifiedStep.
Abbreviation VerifiedStep := VerifiedStep.VerifiedStep.

Definition disposition_of (outcome : CoreVerificationOutcome) : VerificationDisposition :=
  match outcome with
  | CoreVerificationOutcome.Passed => VerificationDisposition.Passed
  | CoreVerificationOutcome.Failed => VerificationDisposition.Failed
  | CoreVerificationOutcome.Inconclusive => VerificationDisposition.Inconclusive
  end.

Definition receipt_artifact (run_id step_id receipt_id : string)
    (artifact : VerifiedArtifactDescriptor) : ArtifactRef :=
  ArtifactRef.mk (VerifiedArtifactDescriptor.artifact_id artifact)
    (VerifiedArtifactDescriptor.name artifact) (VerifiedArtifactDescriptor.media_type artifact)
    (VerifiedArtifactDescriptor.size artifact) (VerifiedArtifactDescriptor.digest artifact)
    (Some (ArtifactProvenance.mk run_id step_id (Some receipt_id))) ∅ [].

(** The struct literal of [build_execution_receipt], with the digest still to come. *)
Definition receipt_body (state : RunState) (step_id started_at ended_at : string)
    (previous_receipt_digest : option string) (verified : VerifiedStep) (receipt_digest : string)
    : ExecutionReceiptBody :=
  let intent := VerifiedStep.intent verified in
  let provenance := VerifiedStep.provenance verified in
  let invocation := EffectIntent.invocation intent in
  let receipt_id := core_receipt_id_v1 (EffectIntent.effect_id intent) in
  ExecutionReceiptBody.mk API_VERSION_V1ALPHA1 ∅ [] receipt_id (RunState.run_id state) step_id
    (ReceiptProvenance.invocation_id provenance) (ReceiptProvenance.plan_id provenance)
    (CapabilityRef.mk (InvocationBinding.capability_id invocation)
       (InvocationBinding.contract_version invocation))
    (InvocationBinding.instance_id invocation)
    (AuthorizationBinding.material_digest
       (AuthorizationUse.binding (EffectIntent.authorization intent)))
    (ReceiptProvenance.input_summary provenance)
    (ReceiptPolicy.mk (ReceiptProvenance.policy_decision_id provenance)
       (ReceiptProvenance.policy_decision_digest provenance) None None)
    (Executor.mk (ReceiptProvenance.executor_id provenance)
       (protocol_placement (ReceiptProvenance.executor_placement provenance))
       (ReceiptProvenance.executor_platform provenance))
    (ReceiptEffect.mk (protocol_effect_class (EffectIntent.effect_class intent)) true
       (Some started_at) (EffectIntent.idempotency_key intent))
    (core_receipt_status_v1 (VerifiedStep.outcome verified)) started_at ended_at
    (VerifierOutputDigest.as_str (VerificationReport.output_digest (VerifiedStep.report verified)))
    (map (receipt_artifact (RunState.run_id state) step_id receipt_id)
       (VerificationReport.artifacts (VerifiedStep.report verified)))
    (VerifiedStep.verification verified) CORE_RECEIPT_REDACTIONS_V1 previous_receipt_digest
    receipt_digest.

Definition execution_receipt_digest `{Crypto} (receipt : ExecutionReceiptBody)
    : res VerificationRunnerError string :=
  map_err VerificationRunnerError.Protocol
    (Protocol.canonical_digest_without_field (ExecutionReceipt receipt) "receiptDigest").

Definition build_execution_receipt `{Crypto} `{ReceiptSchema} (state : RunState)
    (step_id started_at ended_at : string) (previous_receipt_digest : option string)
    (verified : VerifiedStep) : res VerificationRunnerError ExecutionReceiptBody :=
  let body := receipt_body state step_id started_at ended_at previous_receipt_digest verified in
  let? receipt_digest := execution_receipt_digest (body EMPTY_RECEIPT_DIGEST) in
  let receipt := body receipt_digest in
  let? _ := map_err VerificationRunnerError.Protocol (validate_execution_receipt receipt) in
  Ok receipt.

(** ** The runner *)

Section runner.
Context {S W L V : Type} `{RunStore S} `{EventFactory W} `{RunLease L} `{EffectVerifier W V}.
Context `{Crypto} `{ReceiptSchema} `{Rfc3339}.
Abbreviation prog_ A := (prog (Machine S W) (res VerificationRunnerError A)).

Definition verify_lease (lease : L) (state : RunState) : res VerificationRunnerError unit :=
  bail_if bool_decide (RunLease.run_id lease ≠ RunState.run_id state)
    with VerificationRunnerError.LeaseRunMismatch (RunLease.run_id lease) (RunState.run_id state);;
  Ok tt.

(** [verify_step] before it calls the verifier: the intent, its provenance and the request. *)
Definition verification_request (step : StepState) (tool_output : option ToolOutputRecord)
    (capabilities : CapabilityRegistry)
    : res VerificationRunnerError (ReceiptProvenance * VerificationRequest) :=
  let? intent := ok_or (StepState.intent step)
                   (VerificationRunnerError.IntentMissing (StepState.step_id step)) in
  let? provenance := ok_or (EffectIntent.receipt_provenance intent)
    (VerificationRunnerError.ReceiptProvenanceMissing (EffectIntent.effect_id intent)) in
  bail_if negb (receipt_profile_matches_effect intent provenance)
    with VerificationRunnerError.UnsupportedReceiptProfile;;
  bail_if negb (tool_output_profile_matches_effect intent provenance)
    with VerificationRunnerError.UnsupportedToolOutputProfile;;
  bail_if bool_decide (ReceiptProvenance.input_summary provenance ≠ CORE_RECEIPT_INPUT_SUMMARY_V1)
    with VerificationRunnerError.ReceiptProvenanceBindingMismatch;;
  let? expected_provenance_digest := ok_or
    (AuthorizationBinding.receipt_provenance_digest
       (AuthorizationUse.binding (EffectIntent.authorization intent)))
    VerificationRunnerError.ReceiptProvenanceBindingMismatch in
  let? actual_provenance_digest :=
    map_err (λ _, VerificationRunnerError.ReceiptProvenanceBindingMismatch)
      (receipt_provenance_digest provenance) in
  bail_if bool_decide (actual_provenance_digest ≠ expected_provenance_digest)
    with VerificationRunnerError.ReceiptProvenanceBindingMismatch;;
  let? definition := verify_current_definition capabilities intent in
  let? _ := verify_verification_plan definition provenance in
  let? instance := verify_current_instance capabilities intent in
  let? evidence := ok_or
    match StepState.effect_evidence_digest step with
    | Some evidence => Some evidence
    | None => StepState.reconciliation_evidence_digest step
    end (VerificationRunnerError.EffectEvidenceMissing (EffectIntent.effect_id intent)) in
  let? evidence := map_err VerificationRunnerError.EvidenceDigest
                     (AdapterEvidenceDigest.new evidence) in
  Ok (provenance, VerificationRequest.mk intent definition instance evidence tool_output).

(** The verifier registered for exactly the instance's binding. *)
Definition find_verifier (verifiers : EffectVerifierRegistry V) (instance : CapabilityInstanceBody)
    : res VerificationRunnerError V :=
  let? key := map_err (λ _, VerificationRunnerError.InvalidVerifierBinding)
                (from_binding (CapabilityInstanceBody.binding instance)) in
  ok_or (EffectVerifierRegistry.verifier_mut verifiers key)
    (VerificationRunnerError.VerifierNotRegistered (CapabilityInstanceBody.instance_id instance)).

(** [verify_step] after the verifier answered. *)
Definition accept_report (provenance : ReceiptProvenance) (request : VerificationRequest)
    (report : VerificationReport) : res VerificationRunnerError VerifiedStep :=
  let intent := VerificationRequest.intent request in
  let? _ := verify_report_profile intent provenance report in
  let? _ := verify_output_match provenance (VerificationRequest.tool_output request) report in
  let? verified := verify_report provenance report in
  let '(outcome, verification) := verified in
  Ok (VerifiedStep.mk intent provenance report outcome (disposition_of outcome) verification).

Definition verify_step (step : StepState) (tool_output : option ToolOutputRecord)
    (capabilities : CapabilityRegistry) (verifiers : EffectVerifierRegistry V)
    : prog_ VerifiedStep :=
  try prepared := verification_request step tool_output capabilities in
  let '(provenance, request) := prepared in
  try verifier := find_verifier verifiers (VerificationRequest.instance request) in
  let! report := pmap_err VerificationRunnerError.Verifier (asks (verify verifier request)) in
  Ret (accept_report provenance request report).

Definition drive_action (disposition : VerificationDisposition) : DriveAction :=
  match disposition with
  | VerificationDisposition.Passed => DriveAction.VerificationPassed
  | VerificationDisposition.Failed => DriveAction.VerificationFailed
  | VerificationDisposition.Inconclusive => DriveAction.VerificationInconclusive
  end.

(** The receipt and event of a verified step, committed together. *)
Definition commit_verified (snapshot : RunVerificationSnapshot) (step_id : string)
    (verified : VerifiedStep) : prog_ DriveReport :=
  let state := RunVerificationSnapshot.state snapshot in
  let effect_id := EffectIntent.effect_id (VerifiedStep.intent verified) in
  let! metadata := pmap_err VerificationRunnerError.EventFactory (asks (create_metadata state)) in
  try _ := map_err VerificationRunnerError.EventMetadata (EventMetadata_validate metadata) in
  try started_at := ok_or (RunVerificationSnapshot.effect_started_at snapshot)
                      (VerificationRunnerError.EffectStartMissing effect_id) in
  try receipt := build_execution_receipt state step_id started_at
                   (EventMetadata.recorded_at metadata)
                   (RunVerificationSnapshot.previous_receipt_digest snapshot) verified in
  let event := event_for state metadata
    (RunEventBody.VerificationRecorded step_id effect_id (VerifiedStep.disposition verified)
       (ExecutionReceiptBody.receipt_id receipt) (ExecutionReceiptBody.receipt_digest receipt)) in
  let! commit := pmap_err VerificationRunnerError.Store
    (writes (λ s, append_with_execution_receipt s (ExpectedHead.from_state state) event receipt)) in
  Ret (Ok (DriveReport.mk (drive_action (VerifiedStep.disposition verified)) (Commit.state commit))).

Definition drive_step (lease : L) (capabilities : CapabilityRegistry)
    (verifiers : EffectVerifierRegistry V) (step_id : string) : prog_ DriveReport :=
  let! snapshot := pmap_err VerificationRunnerError.Store
                     (reads (λ s, load_verification_snapshot s step_id)) in
  try snapshot := ok_or snapshot VerificationRunnerError.RunNotInitialized in
  let state := RunVerificationSnapshot.state snapshot in
  try _ := verify_lease lease state in
  try step := ok_or (RunState.steps state !! step_id) (VerificationRunnerError.StepNotFound step_id) in
  match StepState.status step with
  | StepStatus.Completed | StepStatus.Failed | StepStatus.ManualRequired =>
      Ret (Ok (DriveReport.mk DriveAction.NoAction state))
  | StepStatus.Validating =>
      let! verified := verify_step step (RunVerificationSnapshot.tool_output snapshot) capabilities
                         verifiers in
      commit_verified snapshot step_id verified
  | status => Ret (Err (VerificationRunnerError.StepNotValidating step_id status))
  end.
End runner.
