(* ===== verification/VerificationTheorems.v ===== *)
(** The verification runner and the store agree on what a receipt is: what a verification
    establishes, and that what the runner builds from a report passes every check the store makes
    against the intent. *)

From S2P Require Import Prelude Program Text Wire Domain Registry WorkGraphTypes WorkGraphErrors.
From S2P Require Import Planning Material ToolOutput Completion Journal Receipt StoreTypes.
From S2P Require Import StoreBundles MemoryStore Host Invocation Admission Recovery Adapters.
From S2P Require Import DurableRuntime Verification.

(** ** Reports *)

(** A report made by the constructors: [new], and [with_artifacts] on checked descriptors. *)
Definition built_descriptor (a : VerifiedArtifactDescriptor) : Prop :=
  ∃ id name media_type size digest,
    VerifiedArtifactDescriptor.new id name media_type size digest = Ok a.

Definition built_report (r : VerificationReport) : Prop :=
  VerificationReport.artifacts r = [] ∨
  ∃ r0 artifacts, VerificationReport.with_artifacts r0 artifacts = Ok r ∧
    ∀ a, a ∈ artifacts → built_descriptor a.

Lemma identifier_bytes value : valid_artifact_identifier value = true → artifact_identifier_bytes value = true.
Proof.
  unfold valid_artifact_identifier, artifact_identifier_bytes. destruct value as [|c s]; [done|].
  intros Hv. bool_inv. by apply andb_true_iff.
Qed.

(** The two checks of an artifact descriptor agree. *)
Lemma descriptor_valid a :
  built_descriptor a →
  core_artifact_descriptor_v2_is_valid (VerifiedArtifactDescriptor.artifact_id a)
    (VerifiedArtifactDescriptor.name a) (VerifiedArtifactDescriptor.media_type a)
    (VerifiedArtifactDescriptor.size a) (VerifiedArtifactDescriptor.digest a) = true.
Proof.
  intros (id & name & mt & size & dg & Hn). unfold VerifiedArtifactDescriptor.new in Hn.
  assert (a = VerifiedArtifactDescriptor.mk id name mt size dg ∧ valid_artifact_identifier id = true ∧
    match name with
    | Some name => is_empty name || bool_decide (512 < strlen name)%N || any_control name
    | None => false
    end = false ∧ (3 ≤ strlen mt ≤ 200)%N ∧ any_control mt = false ∧
    (size ≤ MAX_VERIFIED_ARTIFACT_SIZE_BYTES)%N ∧ validate_digest dg = true)
    as (-> & Hid & Hname & Hlen & Hmt & Hsize & Hdg).
  { repeat res_step; bool_inv; split_and!; try done; try lia; by destruct name. }
  cbn. unfold core_artifact_descriptor_v2_is_valid. cbn zeta. unfold validate_digest in Hdg. rewrite Hdg, Hmt.
  rewrite (identifier_bytes _ Hid). unfold valid_artifact_identifier in Hid. bool_inv.
  rewrite !(bool_decide_eq_true_2 (_ ≤ _)%N) by done. rewrite (bool_decide_eq_true_2 (3 ≤ _ ≤ _)%N) by done.
  destruct name as [name|]; [|by destruct (is_empty id)].
  bool_inv. rewrite !(bool_decide_eq_true_2 (_ ≤ _)%N) by lia.
  by destruct (is_empty id), (is_empty name), (any_control name).
Qed.

(** ** Artifacts *)

Section artifacts.
Context (receipt : ExecutionReceiptBody).

(** An artifact as the receipt lists it. *)
Definition listed (a : VerifiedArtifactDescriptor) : ArtifactRef :=
  receipt_artifact (ExecutionReceiptBody.run_id receipt) (ExecutionReceiptBody.step_id receipt)
    (ExecutionReceiptBody.receipt_id receipt) a.

(** One round of the two artifact loops. *)
Lemma artifact_admitted seen a seen' :
  built_descriptor a → VerificationReport.admit_artifact seen a = Ok seen' →
  verify_core_artifact receipt seen (listed a) = Ok seen'.
Proof.
  intros Ha%descriptor_valid. destruct seen as [ids total].
  unfold VerificationReport.admit_artifact, verify_core_artifact. intros Hv. repeat res_step. cbn.
  match goal with Hx : checked_add _ _ _ = Some _ |- _ => rewrite Hx end. cbn [ok_or rbind].
  rewrite Ha. unfold artifact_names_receipt. cbn.
  rewrite !(bool_decide_eq_true_2 (_ = _)) by done.
  bool_inv. rewrite !bool_decide_eq_false_2; [done|..]; try done; by intros [].
Qed.

Lemma artifacts_admitted artifacts seen seen' :
  (∀ a, a ∈ artifacts → built_descriptor a) →
  for_each VerificationReport.admit_artifact artifacts seen = Ok seen' →
  for_each (verify_core_artifact receipt) (map listed artifacts) seen
  = Ok seen'.
Proof.
  revert seen. induction artifacts as [|a artifacts IH]; intros seen Hb Hf; [by injection Hf as ->|].
  cbn in Hf |- *. apply rbind_ok in Hf as (seen1 & H1 & Hf).
  rewrite (artifact_admitted _ _ _ (Hb a ltac:(left)) H1). cbn [rbind].
  apply IH; [|done]. intros b Hin. apply Hb. by right.
Qed.
End artifacts.

(** ** Evidence *)

Lemma observe_rule_ok evidence observed rule evidence' :
  observe_rule evidence (observed, rule) = Ok evidence' →
  ∃ x, evidence' = evidence ++ [x] ∧ verify_evidence_rule (x, rule) = Ok tt.
Proof.
  unfold observe_rule. intros Ho. repeat res_step. eexists. split; [done|].
  unfold verify_evidence_rule. cbn. bool_inv.
  destruct (RuleVerificationObservation.evidence_digest observed); cbn in *;
    repeat case_bool_decide; by try match goal with Hx : is_Some None |- _ => destruct Hx end.
Qed.

(** The evidence of a report has the length of the plan and passes the store's rule checks. *)
Lemma observed_evidence pairs evidence evidence' :
  for_each observe_rule pairs evidence = Ok evidence' →
  ∃ new, evidence' = evidence ++ new ∧ length new = length pairs ∧
    for_each (λ _, verify_evidence_rule) (zip new pairs.*2) tt = Ok tt.
Proof.
  revert evidence. induction pairs as [|[observed rule] pairs IH]; intros evidence Hf; cbn [for_each] in Hf.
  - injection Hf as <-. exists []. by rewrite app_nil_r.
  - apply rbind_ok in Hf as (e1 & (x & -> & Hx)%observe_rule_ok & Hf).
    destruct (IH _ Hf) as (new & -> & Hlen & Hall). exists (x :: new). rewrite <-app_assoc.
    split_and!; [done|cbn; by rewrite Hlen|]. cbn [fmap list_fmap snd zip zip_with for_each].
    by rewrite Hx.
Qed.

Lemma report_evidence provenance report outcome evidence :
  verify_report provenance report = Ok (outcome, evidence) →
  outcome = evaluate_core_verification_v1 evidence ∧
  length evidence = length (ReceiptProvenance.verification_plan provenance) ∧
  for_each (λ _, verify_evidence_rule) (zip evidence (ReceiptProvenance.verification_plan provenance)) tt = Ok tt.
Proof.
  unfold verify_report. intros Hv. repeat res_step. bool_inv.
  match goal with Hx : for_each observe_rule _ _ = Ok _ |- _ =>
    apply observed_evidence in Hx as (new & -> & Hlen & Hall) end.
  rewrite snd_zip in Hall by lia. rewrite length_zip in Hlen. split_and!; [done|cbn; lia|done].
Qed.

(** ** The receipt *)

Section receipt.
Context `{Crypto} `{ReceiptSchema} `{Rfc3339}.

Lemma receipt_artifacts_accepted receipt intent provenance report :
  built_report report →
  receipt_profile_matches_effect intent provenance = true →
  verify_report_profile intent provenance report = Ok tt →
  ExecutionReceiptBody.artifacts receipt = map (listed receipt) (VerificationReport.artifacts report) →
  verify_core_receipt_artifacts receipt intent provenance = Ok tt.
Proof.
  intros Hb Hprofile Hreport Ha. unfold verify_core_receipt_artifacts. rewrite Ha.
  unfold verify_report_profile, receipt_profile_matches_effect in *.
  destruct (bool_decide (ReceiptProvenance.profile_version provenance = CORE_RECEIPT_PROFILE_V1)) eqn:Hv1.
  - bool_inv. rewrite Hv1 in Hprofile.
    destruct (VerificationReport.artifacts report); [|done]. cbn.
    by destruct (EffectIntent.effect_class intent).
  - destruct (bool_decide (ReceiptProvenance.profile_version provenance = CORE_RECEIPT_PROFILE_V2)) eqn:Hv2; [|done].
    destruct Hb as [Hnil|(r0 & artifacts & Hw & Hd)].
    { rewrite Hnil in Hreport. by destruct (EffectIntent.effect_class intent). }
    unfold VerificationReport.with_artifacts in Hw. repeat res_step. cbn in *.
    match goal with Hx : for_each _ _ _ = Ok _ |- _ => rename Hx into Hall end.
    unfold len. rewrite length_map.
    rewrite (artifacts_admitted _ _ _ _ Hd Hall).
    destruct artifacts as [|x artifacts]; [by destruct (EffectIntent.effect_class intent)|].
    cbn [rbind]. destruct (EffectIntent.effect_class intent); try done;
      rewrite !bool_decide_eq_false_2; try done; unfold MAX_VERIFIED_ARTIFACTS, len in *; cbn in *; lia.
Qed.

Lemma build_receipt_Ok state step_id started ended previous verified receipt :
  build_execution_receipt state step_id started ended previous verified = Ok receipt →
  (∃ digest, receipt = receipt_body state step_id started ended previous verified digest) ∧
  validate_execution_receipt receipt = Ok tt.
Proof.
  unfold build_execution_receipt. intros Hb. repeat res_step.
  repeat match goal with u : unit |- _ => destruct u end. split; [by eexists|done].
Qed.

(** What [verification_request] and [accept_report] establish. *)
Lemma request_facts step output capabilities provenance request :
  verification_request step output capabilities = Ok (provenance, request) →
  let intent := VerificationRequest.intent request in
  StepState.intent step = Some intent ∧ EffectIntent.receipt_provenance intent = Some provenance ∧
  receipt_profile_matches_effect intent provenance = true ∧
  ReceiptProvenance.input_summary provenance = CORE_RECEIPT_INPUT_SUMMARY_V1 ∧
  VerificationRequest.tool_output request = output.
Proof. unfold verification_request. intros Hr. repeat res_step; by bool_inv. Qed.

Lemma accepted_facts provenance request report verified :
  accept_report provenance request report = Ok verified →
  let intent := VerificationRequest.intent request in
  VerifiedStep.intent verified = intent ∧ VerifiedStep.provenance verified = provenance ∧
  VerifiedStep.report verified = report ∧
  verify_report_profile intent provenance report = Ok tt ∧
  verify_output_match provenance (VerificationRequest.tool_output request) report = Ok tt ∧
  VerifiedStep.disposition verified = disposition_of (VerifiedStep.outcome verified) ∧
  verify_report provenance report = Ok (VerifiedStep.outcome verified, VerifiedStep.verification verified).
Proof.
  unfold accept_report. intros Ha. repeat res_step.
  repeat match goal with u : unit |- _ => destruct u end.
  by repeat match goal with p : _ * _ |- _ => destruct p end; simplify_eq; split_and!.
Qed.

Lemma receipt_body_same state step_id started ended previous verified digest :
  ReceiptProvenance.input_summary (VerifiedStep.provenance verified) = CORE_RECEIPT_INPUT_SUMMARY_V1 →
  receipt_differs (receipt_body state step_id started ended previous verified digest)
    (VerifiedStep.intent verified) (VerifiedStep.provenance verified) = false.
Proof.
  intros Hs. unfold receipt_differs, has_core_redactions. cbn. rewrite Hs.
  rewrite (bool_decide_eq_true_2 (CORE_RECEIPT_REDACTIONS_V1 = _)) by done.
  repeat (rewrite bool_decide_eq_false_2 by (first [done | by intros [] | intros Hne; by apply Hne])).
  done.
Qed.
End receipt.

(** What the verification runner guarantees of the receipts it builds. *)

(** C23: The runner and the store agree on receipts.  When the runner accepts a report that the
    report constructors built and builds a receipt from it, the receipt is a valid document and
    passes every check the store makes of a receipt against its intent: the artifact bounds of the
    profile, the provenance fields, the evidence of each planned rule, and a status that justifies
    the recorded disposition.  It names the run, the step, the two timestamps and the previous
    receipt it was built for, and the digest of the durable tool output when there is one. *)
Theorem built_receipts_bind_their_intent `{Crypto} `{ReceiptSchema} (state : RunState)
    (step : StepState) (output : option ToolOutputRecord) (capabilities : CapabilityRegistry)
    (provenance : ReceiptProvenance) (request : VerificationRequest) (report : VerificationReport)
    (verified : VerifiedStep) (step_id started ended : string) (previous : option string)
    (receipt : ExecutionReceiptBody) :
  verification_request step output capabilities = Ok (provenance, request) →
  built_report report → accept_report provenance request report = Ok verified →
  build_execution_receipt state step_id started ended previous verified = Ok receipt →
  (∃ intent, StepState.intent step = Some intent ∧
     verify_receipt_intent_binding receipt intent provenance (VerifiedStep.disposition verified) = Ok tt ∧
     ExecutionReceiptBody.receipt_id receipt = core_receipt_id_v1 (EffectIntent.effect_id intent)) ∧
  validate_execution_receipt receipt = Ok tt ∧
  ExecutionReceiptBody.run_id receipt = RunState.run_id state ∧
  ExecutionReceiptBody.step_id receipt = step_id ∧
  ExecutionReceiptBody.started_at receipt = started ∧ ExecutionReceiptBody.ended_at receipt = ended ∧
  ExecutionReceiptBody.previous_receipt_digest receipt = previous ∧
  ∀ x, output = Some x → ExecutionReceiptBody.output_digest receipt = ToolOutputRecord.output_digest x.
Proof.
  intros Hrequest Hbuilt Haccept Hreceipt.
  destruct (request_facts _ _ _ _ _ Hrequest) as (Hintent & _ & Hprofile & Hsummary & Hout).
  destruct (accepted_facts _ _ _ _ Haccept) as (Hvi & Hvp & Hvr & Hrp & Hmatch & Hdisp & Hreport).
  destruct (build_receipt_Ok _ _ _ _ _ _ _ Hreceipt) as [[digest ->] Hvalid].
  destruct (report_evidence _ _ _ _ Hreport) as (Houtcome & Hlen & Hall).
  split; [|split; [done|split_and!; try done]].
  - exists (VerificationRequest.intent request). split; [done|]. split; [|cbn; by rewrite Hvi].
    unfold verify_receipt_intent_binding.
    rewrite (receipt_artifacts_accepted _ _ _ report Hbuilt Hprofile Hrp) by (cbn; by rewrite Hvr).
    cbn [rbind]. rewrite <-Hvi, <-Hvp, receipt_body_same by (by rewrite Hvp).
    cbn [ExecutionReceiptBody.verification receipt_body ExecutionReceiptBody.status]. rewrite Hvp.
    rewrite Hlen, bool_decide_eq_false_2 by auto. rewrite Hall. cbn [rbind].
    rewrite <-Houtcome, Hdisp, !bool_decide_eq_false_2; [done|intros Hne; by apply Hne|].
    intros Hne. apply Hne. by destruct (VerifiedStep.outcome verified).
  - intros x Hx. cbn. rewrite Hvr. rewrite Hout, Hx in Hmatch. unfold verify_output_match in Hmatch.
    destruct (ReceiptProvenance.tool_output_profile provenance) as [profile|]; [|done].
    destruct (bool_decide (profile = _)); [|done].
    by destruct (bool_decide (VerifierOutputDigest.as_str _ = _)) eqn:Hd; [bool_inv|].
Qed.
