(* ===== verification/Executor.v ===== *)
(** The direct executor: verified material is dispatched to the one adapter registered for an
    instance, through the durable runtime (crates/xgeny-runtime/src/executor.rs), and the
    read-only coordinator (crates/xgeny-runtime/src/frontier.rs). *)

From S2P Require Import Prelude Program Text Wire Domain Registry WorkGraphTypes WorkGraphErrors.
From S2P Require Import Planning Material ToolOutput Completion Frontier Journal Receipt.
From S2P Require Import StoreTypes StoreBundles MemoryStore Host Invocation Admission Recovery.
From S2P Require Import Adapters DurableRuntime Verification.

Module DirectExecutorError.
Inductive DirectExecutorError : Type :=
| Store (error : StoreError)
| Runtime (error : RuntimeError)
| Admission (error : AdmissionError)
| MaterialRecord (error : InvocationMaterialError)
| AdapterRegistry (error : AdapterRegistryError)
| RunNotInitialized
| StepNotFound (step_id : string)
| IntentMissing (step_id : string)
| MaterialRequired (step_id : string)
| MaterialRecordMissing (effect_id : string)
| MaterialRecordChanged
| MaterialDigestMismatch
| ReceiptProvenanceUnavailable (effect_id : string)
| UnsupportedReceiptProfile
| UnsupportedToolOutputProfile
| ToolOutputSchemaInvalid
| ReceiptProvenanceBindingMismatch
| ReceiptVerificationPlanMismatch
| ReceiptExecutorProvenanceMismatch
| DefinitionNotFound (capability_id contract_version : string)
| DefinitionChanged
| InstanceNotFound (instance_id : string)
| InstanceBindingChanged
| InstanceNotAvailable (status : HealthStatus)
| CredentialWitnessUnavailable
| UnsupportedExecutorPlacement (placement : Placement)
| AdapterNotRegistered (instance_id : string)
| AdapterPrepare (failure : AdapterPrepareFailure)
| LeaseRunMismatch (lease_run_id state_run_id : string).
End DirectExecutorError.
Abbreviation DirectExecutorError := DirectExecutorError.DirectExecutorError.

(** ** The sink *)

Module CorePreparedEffect.
Record CorePreparedEffect (I : Type) : Type := mk {
  binding : PreparedEffectBinding;
  adapter_key : AdapterBindingKey;
  invocation : I;
}.
Arguments mk {I}.
Arguments binding {I}.
Arguments adapter_key {I}.
Arguments invocation {I}.
End CorePreparedEffect.
Abbreviation CorePreparedEffect := CorePreparedEffect.CorePreparedEffect.

#[export] Instance CorePreparedEffect_PreparedEffect {I} : PreparedEffect (CorePreparedEffect I) :=
  CorePreparedEffect.binding.

Module DirectSink.
Record DirectSink (A : Type) : Type := mk {
  adapter : option A;
  reconciliation_instance : option CapabilityInstanceBody;
  output_validator : option (Value → bool);
}.
Arguments mk {A}.
Arguments adapter {A}.
Arguments reconciliation_instance {A}.
Arguments output_validator {A}.
End DirectSink.
Abbreviation DirectSink := DirectSink.DirectSink.

Definition response_unverifiable : ExecutionObservation :=
  ExecutionObservation.Unknown
    (AdapterExecutionUnknownReason.code AdapterExecutionUnknownReason.ResponseUnverifiable).

(** The match of [DirectSink::execute] on what the adapter reports. *)
Definition execution_observation `{Crypto} {A} (self : DirectSink A)
    (observation : AdapterExecutionObservation) : ExecutionObservation :=
  match observation with
  | AdapterExecutionObservation.Succeeded evidence_digest =>
      match DirectSink.output_validator self with
      | Some _ => response_unverifiable
      | None => ExecutionObservation.Succeeded (AdapterEvidenceDigest.as_str evidence_digest)
      end
  | AdapterExecutionObservation.SucceededWithOutput evidence_digest output =>
      let valid :=
        match validate_tool_output_candidate output, DirectSink.output_validator self with
        | Ok _, Some is_valid => is_valid output
        | _, _ => false
        end in
      if valid
      then ExecutionObservation.SucceededWithOutput (AdapterEvidenceDigest.as_str evidence_digest)
             output
      else response_unverifiable
  | AdapterExecutionObservation.Failed evidence_digest =>
      ExecutionObservation.Failed (AdapterEvidenceDigest.as_str evidence_digest)
  | AdapterExecutionObservation.Unknown reason =>
      ExecutionObservation.Unknown (AdapterExecutionUnknownReason.code reason)
  end.

Definition reconciliation_observation (observation : AdapterReconciliationObservation)
    : ReconciliationObservation :=
  match observation with
  | AdapterReconciliationObservation.Applied evidence_digest =>
      ReconciliationObservation.Applied (AdapterEvidenceDigest.as_str evidence_digest)
  | AdapterReconciliationObservation.NotApplied evidence_digest =>
      ReconciliationObservation.NotApplied (AdapterEvidenceDigest.as_str evidence_digest)
  | AdapterReconciliationObservation.Failed evidence_digest =>
      ReconciliationObservation.Failed (AdapterEvidenceDigest.as_str evidence_digest)
  | AdapterReconciliationObservation.Inconclusive reason =>
      ReconciliationObservation.Inconclusive (AdapterReconciliationInconclusiveReason.code reason)
  end.

Section sink.
Context {W A I : Type} `{EffectAdapter W A I} `{Crypto}.

Definition DirectSink_execute (self : DirectSink A) (_ : EffectIntent)
    (prepared : CorePreparedEffect I) (w : W) : ExecutionObservation * W :=
  let '(observation, w) := invocation_execute (CorePreparedEffect.invocation prepared) w in
  (execution_observation self observation, w).

Definition DirectSink_reconcile (self : DirectSink A) (intent : EffectIntent) (w : W)
    : res Empty_set ReconciliationObservation * W :=
  match DirectSink.adapter self, DirectSink.reconciliation_instance self with
  | None, _ => (Panic "DirectExecutor supplies an adapter before reconciliation", w)
  | _, None => (Panic "DirectExecutor supplies an Instance before reconciliation", w)
  | Some adapter, Some instance =>
      let '(observation, w) :=
        adapter_reconcile adapter (AdapterReconcileRequest.mk intent instance) w in
      (Ok (reconciliation_observation observation), w)
  end.

#[export] Instance DirectSink_EffectSink : EffectSink W (DirectSink A) (CorePreparedEffect I) := {|
  sink_execute := DirectSink_execute;
  sink_reconcile := DirectSink_reconcile;
|}.
End sink.

(** ** Checks *)

Definition verify_receipt_provenance `{Crypto} `{Target} (intent : EffectIntent)
    : res DirectExecutorError unit :=
  let? provenance := ok_or (EffectIntent.receipt_provenance intent)
    (DirectExecutorError.ReceiptProvenanceUnavailable (EffectIntent.effect_id intent)) in
  bail_if negb (receipt_profile_matches_effect intent provenance)
    with DirectExecutorError.UnsupportedReceiptProfile;;
  bail_if negb (tool_output_profile_matches_effect intent provenance)
    with DirectExecutorError.UnsupportedToolOutputProfile;;
  bail_if bool_decide (ReceiptProvenance.input_summary provenance ≠ CORE_RECEIPT_INPUT_SUMMARY_V1)
    with DirectExecutorError.ReceiptProvenanceBindingMismatch;;
  bail_if bool_decide (ReceiptProvenance.executor_id provenance ≠ LOCAL_EXECUTOR_ID)
       || bool_decide (ReceiptProvenance.executor_placement provenance ≠ ReceiptPlacement.Local)
       || bool_decide (ReceiptProvenance.executor_platform provenance ≠ local_executor_platform)
    with DirectExecutorError.ReceiptExecutorProvenanceMismatch;;
  let? expected := ok_or
    (AuthorizationBinding.receipt_provenance_digest
       (AuthorizationUse.binding (EffectIntent.authorization intent)))
    DirectExecutorError.ReceiptProvenanceBindingMismatch in
  let? actual := map_err (λ _, DirectExecutorError.ReceiptProvenanceBindingMismatch)
                   (receipt_provenance_digest provenance) in
  bail_if bool_decide (actual ≠ expected)
    with DirectExecutorError.ReceiptProvenanceBindingMismatch;;
  Ok tt.

Definition definition_of_intent (registry : CapabilityRegistry) (intent : EffectIntent)
    : res DirectExecutorError CapabilityDefinitionBody :=
  let capability := intent_capability intent in
  ok_or (definition registry capability)
    (DirectExecutorError.DefinitionNotFound (CapabilityRef.capability_id capability)
       (CapabilityRef.contract_version capability)).

Definition verify_current_instance `{Crypto} (registry : CapabilityRegistry) (intent : EffectIntent)
    : res DirectExecutorError CapabilityInstanceBody :=
  let invocation := EffectIntent.invocation intent in
  let? definition := definition_of_intent registry intent in
  let? digest := map_err DirectExecutorError.Admission (definition_contract_digest definition) in
  bail_if bool_decide (digest ≠ InvocationBinding.definition_digest invocation)
    with DirectExecutorError.DefinitionChanged;;
  let? provenance := ok_or (EffectIntent.receipt_provenance intent)
    (DirectExecutorError.ReceiptProvenanceUnavailable (EffectIntent.effect_id intent)) in
  bail_if negb (receipt_verification_plan_matches definition provenance)
    with DirectExecutorError.ReceiptVerificationPlanMismatch;;
  let? instance := ok_or (instance registry (InvocationBinding.instance_id invocation))
    (DirectExecutorError.InstanceNotFound (InvocationBinding.instance_id invocation)) in
  bail_if bool_decide (CapabilityInstanceBody.definition instance ≠ intent_capability intent)
    with DirectExecutorError.InstanceBindingChanged;;
  let? digest := map_err DirectExecutorError.Admission (executable_binding_digest instance) in
  bail_if bool_decide (digest ≠ InvocationBinding.instance_binding_digest invocation)
    with DirectExecutorError.InstanceBindingChanged;;
  Ok instance.

Definition verify_dynamic_execution_gate (instance : CapabilityInstanceBody)
    : res DirectExecutorError unit :=
  bail_if bool_decide (CapabilityInstanceBody.placement instance ≠ Placement.Local)
    with DirectExecutorError.UnsupportedExecutorPlacement (CapabilityInstanceBody.placement instance);;
  let status := Health.status (CapabilityInstanceBody.health instance) in
  bail_if match status with HealthStatus.Available => false | _ => true end
    with DirectExecutorError.InstanceNotAvailable status;;
  let auth := CapabilityInstanceBody.auth instance in
  bail_if match Auth.state auth with AuthState.NotRequired => false | _ => true end
       || bool_decide (is_Some (Auth.auth_ref auth))
    with DirectExecutorError.CredentialWitnessUnavailable;;
  Ok tt.

Definition build_tool_output_validator `{JsonSchema} (registry : CapabilityRegistry)
    (intent : EffectIntent) : res DirectExecutorError (option (Value → bool)) :=
  match EffectIntent.receipt_provenance intent with
  | None => Ok None
  | Some provenance =>
      if bool_decide (ReceiptProvenance.tool_output_profile provenance
                      ≠ Some TOOL_OUTPUT_PROFILE_V1)
      then Ok None
      else
        let? definition := definition_of_intent registry intent in
        let? validator := ok_or
          (build_validator (CapabilitySpec.output_schema (CapabilityDefinitionBody.spec definition)))
          DirectExecutorError.ToolOutputSchemaInvalid in
        Ok (Some validator)
  end.

(** ** Driving a step *)

Section executor.
Context {S W L A I : Type} `{RunStore S} `{EventFactory W} `{RunLease L} `{EffectAdapter W A I}.
Context `{Crypto} `{JsonSchema} `{Target} `{Rfc3339}.
Abbreviation prog_ A := (prog (Machine S W) (res DirectExecutorError A)).

Definition verify_lease (lease : L) (state : RunState) : res DirectExecutorError unit :=
  bail_if bool_decide (RunLease.run_id lease ≠ RunState.run_id state)
    with DirectExecutorError.LeaseRunMismatch (RunLease.run_id lease) (RunState.run_id state);;
  Ok tt.

Definition find_adapter (adapters : EffectAdapterRegistry A) (instance : CapabilityInstanceBody)
    : res DirectExecutorError (AdapterBindingKey * A) :=
  let? key := map_err DirectExecutorError.AdapterRegistry
                (from_binding (CapabilityInstanceBody.binding instance)) in
  let? adapter := ok_or (EffectAdapterRegistry.adapter_mut adapters key)
    (DirectExecutorError.AdapterNotRegistered (CapabilityInstanceBody.instance_id instance)) in
  Ok (key, adapter).

Definition verify_material (state : RunState) (step_id : string) (intent : EffectIntent)
    (record : InvocationMaterialRecord) (arguments : Value) : prog_ unit :=
  try _ := map_err DirectExecutorError.MaterialRecord
             (InvocationMaterialRecord_verify_for record (RunState.run_id state) step_id intent) in
  let effect_id := EffectIntent.effect_id intent in
  let! durable_record := pmap_err DirectExecutorError.Store
    (reads (λ s, load_invocation_material s effect_id)) in
  try durable_record := ok_or durable_record (DirectExecutorError.MaterialRecordMissing effect_id) in
  stop_if bool_decide (durable_record ≠ record) with DirectExecutorError.MaterialRecordChanged;;
  try digest := map_err DirectExecutorError.MaterialRecord (invocation_material_digest arguments) in
  stop_if bool_decide (digest ≠ InvocationMaterialRecord.material_digest record)
    with DirectExecutorError.MaterialDigestMismatch;;
  Ret (Ok tt).

(** [DurableEffectRuntime::new(..).with_policy(policy).drive_step(..)]. *)
Definition drive_durable (policy : RuntimePolicy) (sink : DirectSink A) (lease : L)
    (step_id : string) (prepared : option (CorePreparedEffect I)) : prog_ DriveReport :=
  pmap_err DirectExecutorError.Runtime
    (DurableRuntime.drive_step policy sink lease step_id prepared).

Definition drive_without_adapter (policy : RuntimePolicy) (lease : L) (step_id : string)
    : prog_ DriveReport :=
  drive_durable policy (DirectSink.mk None None None) lease step_id None.

(** The [IntentCommitted] arm. *)
Definition drive_committed (policy : RuntimePolicy) (lease : L) (capabilities : CapabilityRegistry)
    (adapters : EffectAdapterRegistry A) (state : RunState) (step : StepState) (step_id : string)
    (material : option InvocationMaterial) : prog_ DriveReport :=
  try intent := ok_or (StepState.intent step) (DirectExecutorError.IntentMissing step_id) in
  try _ := verify_receipt_provenance intent in
  let maximum := RuntimePolicy.max_execution_attempts policy in
  stop_if bool_decide (maximum ≤ StepState.attempts step)%N
    with DirectExecutorError.Runtime
           (RuntimeError.ExecutionAttemptLimitReached step_id (StepState.attempts step) maximum);;
  try material := ok_or material (DirectExecutorError.MaterialRequired step_id) in
  let record := InvocationMaterial.record material in
  let arguments := InvocationMaterial.normalized_arguments material in
  let! _ := verify_material state step_id intent record arguments in
  try instance := verify_current_instance capabilities intent in
  try _ := verify_dynamic_execution_gate instance in
  try output_validator := build_tool_output_validator capabilities intent in
  try found := find_adapter adapters instance in
  let '(adapter_key, adapter) := found in
  let! invocation := pmap_err DirectExecutorError.AdapterPrepare
    (asks (adapter_prepare adapter (AdapterPrepareRequest.mk intent instance arguments))) in
  let prepared := CorePreparedEffect.mk
    (PreparedEffectBinding.from_verified state step_id intent record) adapter_key invocation in
  drive_durable policy (DirectSink.mk None None output_validator) lease step_id (Some prepared).

(** The [EffectUnknown] and [Reconciling] arm. *)
Definition drive_uncertain (policy : RuntimePolicy) (lease : L) (capabilities : CapabilityRegistry)
    (adapters : EffectAdapterRegistry A) (step : StepState) (step_id : string) : prog_ DriveReport :=
  try intent := ok_or (StepState.intent step) (DirectExecutorError.IntentMissing step_id) in
  try _ := verify_receipt_provenance intent in
  if negb (supports_query (EffectIntent.sink_guarantee intent))
  then drive_without_adapter policy lease step_id
  else
    try instance := verify_current_instance capabilities intent in
    try _ := verify_dynamic_execution_gate instance in
    try found := find_adapter adapters instance in
    drive_durable policy (DirectSink.mk (Some found.2) (Some instance) None) lease step_id None.

Definition drive_step (policy : RuntimePolicy) (lease : L) (capabilities : CapabilityRegistry)
    (adapters : EffectAdapterRegistry A) (step_id : string) (material : option InvocationMaterial)
    : prog_ DriveReport :=
  let! state := pmap_err DirectExecutorError.Store (reads load_current) in
  try state := ok_or state DirectExecutorError.RunNotInitialized in
  try _ := verify_lease lease state in
  try step := ok_or (RunState.steps state !! step_id) (DirectExecutorError.StepNotFound step_id) in
  match StepState.status step with
  | StepStatus.IntentCommitted =>
      drive_committed policy lease capabilities adapters state step step_id material
  | StepStatus.EffectUnknown | StepStatus.Reconciling =>
      drive_uncertain policy lease capabilities adapters step step_id
  | StepStatus.Executing | StepStatus.Planned | StepStatus.Validating | StepStatus.Completed
  | StepStatus.Failed | StepStatus.ManualRequired => drive_without_adapter policy lease step_id
  end.
End executor.

(** ** The coordinator *)

Module WorkGraphCoordinationError.
Inductive WorkGraphCoordinationError : Type :=
| Store (error : StoreError)
| Frontier (error : FrontierError).
End WorkGraphCoordinationError.
Abbreviation WorkGraphCoordinationError := WorkGraphCoordinationError.WorkGraphCoordinationError.

(** [WorkGraphCoordinator::inspect]. *)
Definition inspect {S W} `{RunStore S}
    : prog (Machine S W) (res WorkGraphCoordinationError (option WorkFrontier)) :=
  let! state := pmap_err WorkGraphCoordinationError.Store (reads load_current) in
  match state with
  | None => Ret (Ok None)
  | Some state =>
      Ret (map_err WorkGraphCoordinationError.Frontier (rmap Some (derive_frontier state)))
  end.
