(* ===== verification/PlanningContext.v ===== *)
(** The bounded, provider-neutral context of one planner call
    (crates/xgeny-runtime/src/agent_loop.rs): whole capability contracts, steps and tool outputs,
    selected under the durable context budget. *)

From Stdlib Require Import Ascii.
From S2P Require Import Prelude Text Wire Domain Registry Receipt DomainWire WorkGraphTypes.
From S2P Require Import WorkGraphWire Frontier ToolOutput Invocation.

Definition PLANNING_CONTEXT_PROFILE_V3 : string := "xgeny.planning-context/v3".
Definition MAX_CAPABILITY_SUMMARY_BYTES : N := 512.
Definition MAX_PLANNING_CONTEXT_BYTES : N := 512 * 1024.
Definition MAX_PLANNING_CATALOG_DEFINITIONS : N := 1024.
Definition MAX_PLANNING_SOURCE_STEPS : N := 4096.
Definition MAX_PLANNING_DEFINITION_BYTES : N := 256 * 1024.
Definition MAX_PLANNING_STEP_BYTES : N := 64 * 1024.
Definition MAX_PLANNING_SOURCE_BYTES : N := 8 * 1024 * 1024.
Definition MAX_PLANNING_VALUE_DEPTH : N := 64.
Definition MAX_PLANNING_VALUE_NODES : N := 32768.
Definition MAX_PLANNING_VALUE_TEXT_BYTES : N := 256 * 1024.
Definition MAX_PLANNING_DEFINITION_COLLECTION_ITEMS : N := 4096.
Definition MAX_PLANNING_HEADER_TEXT_BYTES : N := 256 * 1024.
Definition MAX_PLANNING_CONSTRAINTS : N := 16.
Definition MAX_PLANNING_CONSTRAINT_ID_BYTES : N := 128.
Definition MAX_PLANNING_CONSTRAINT_DESCRIPTION_BYTES : N := 16 * 1024.

(** ** What a context holds *)

Module PlanningResourceSelector.
Record PlanningResourceSelector : Type := mk { scope : string; argument_pointer : string }.
End PlanningResourceSelector.
Abbreviation PlanningResourceSelector := PlanningResourceSelector.PlanningResourceSelector.

Module PlanningCapabilitySummary.
Record PlanningCapabilitySummary : Type := mk {
  capability : CapabilityRef;
  definition_digest : string;
  summary : string;
  input_schema : Value;
  output_schema : Value;
  effect_class : Domain.EffectClass;
  resource_selectors : list PlanningResourceSelector;
  critical_actions : list CriticalAction;
  execution_styles : list ExecutionStyle;
  idempotency_key_supported : bool;
  default_timeout_ms : N;
  max_timeout_ms : N;
}.
End PlanningCapabilitySummary.
Abbreviation PlanningCapabilitySummary := PlanningCapabilitySummary.PlanningCapabilitySummary.

Module PlanningStepSummary.
Record PlanningStepSummary : Type := mk {
  step_id : string;
  objective : string;
  depends_on : list string;
  status : StepStatus;
  attempts : N;
  capability : option CapabilityRef;
  dependency_released : bool;
}.
End PlanningStepSummary.
Abbreviation PlanningStepSummary := PlanningStepSummary.PlanningStepSummary.

Module PlanningToolOutput.
Record PlanningToolOutput : Type := mk {
  step_id : string;
  capability : CapabilityRef;
  output_id : string;
  output_digest : string;
  receipt_digest : string;
  canonical_size_bytes : N;
  output : Value;
}.
End PlanningToolOutput.
Abbreviation PlanningToolOutput := PlanningToolOutput.PlanningToolOutput.

Module PlanningConstraintError.
Inductive PlanningConstraintError : Type :=
| InvalidIdentifier
| InvalidDescription
| TooMany
| DuplicateIdentifier.
End PlanningConstraintError.
Abbreviation PlanningConstraintError := PlanningConstraintError.PlanningConstraintError.

(** A byte of an identifier: [is_ascii_alphanumeric] or [b'.' | b'_' | b'-']. *)
Definition identifier_byte (byte : N) : bool := is_ascii_alphanumeric byte || is_name_punct byte.

Definition valid_bounded_text (value : string) (maximum : N) : bool :=
  negb (is_empty value) && bool_decide (strlen value ≤ maximum)%N && negb (any_control value).

Module PlanningConstraint.
Record PlanningConstraint : Type := mk { constraint_id : string; description : string }.
Definition new (constraint_id description : string) : res PlanningConstraintError PlanningConstraint :=
  bail_if is_empty constraint_id
          || bool_decide (MAX_PLANNING_CONSTRAINT_ID_BYTES < strlen constraint_id)%N
          || negb (all_bytes identifier_byte constraint_id)
    with PlanningConstraintError.InvalidIdentifier;;
  bail_if negb (valid_bounded_text description MAX_PLANNING_CONSTRAINT_DESCRIPTION_BYTES)
    with PlanningConstraintError.InvalidDescription;;
  Ok (mk constraint_id description).
End PlanningConstraint.
Abbreviation PlanningConstraint := PlanningConstraint.PlanningConstraint.

Module PlanningContextPayload.
Record PlanningContextPayload : Type := mk {
  profile_version : string;
  capabilities : list PlanningCapabilitySummary;
  omitted_capabilities : N;
  catalog_digest : string;
  goal : string;
  planning_constraints : list PlanningConstraint;
  steps : list PlanningStepSummary;
  omitted_steps : N;
  tool_outputs : list PlanningToolOutput;
  total_steps : N;
  verified_completed_steps : N;
  run_id : string;
  authority : string;
  authority_epoch : N;
  journal_sequence : N;
  journal_head_digest : string;
}.
End PlanningContextPayload.
Abbreviation PlanningContextPayload := PlanningContextPayload.PlanningContextPayload.

Module PlanningContext.
Record PlanningContext : Type := mk {
  payload : PlanningContextPayload;
  context_digest : string;
  canonical_size_bytes : N;
}.
Definition capabilities (c : PlanningContext) : list PlanningCapabilitySummary :=
  PlanningContextPayload.capabilities (payload c).
Definition steps (c : PlanningContext) : list PlanningStepSummary :=
  PlanningContextPayload.steps (payload c).
End PlanningContext.
Abbreviation PlanningContext := PlanningContext.PlanningContext.

Module ContextBuildError.
Inductive ContextBuildError : Type :=
| BudgetExceeded
| InputLimitExceeded
| Canonicalization
| Catalog
| OutputBinding.
End ContextBuildError.
Abbreviation ContextBuildError := ContextBuildError.ContextBuildError.

(** ** Documents *)

#[export] Instance ser_StepStatus : Serialize StepStatus := λ s,
  Value.Str match s with
  | StepStatus.Planned => "planned"
  | StepStatus.IntentCommitted => "intent_committed"
  | StepStatus.Executing => "executing"
  | StepStatus.EffectUnknown => "effect_unknown"
  | StepStatus.Reconciling => "reconciling"
  | StepStatus.Validating => "validating"
  | StepStatus.Completed => "completed"
  | StepStatus.Failed => "failed"
  | StepStatus.ManualRequired => "manual_required"
  end.

#[export] Instance ser_PlanningResourceSelector : Serialize PlanningResourceSelector := λ r,
  obj (field "scope" (PlanningResourceSelector.scope r)
    ++ field "argumentPointer" (PlanningResourceSelector.argument_pointer r)).

#[export] Instance ser_PlanningCapabilitySummary : Serialize PlanningCapabilitySummary := λ r,
  obj (field "capability" (PlanningCapabilitySummary.capability r)
    ++ field "definitionDigest" (PlanningCapabilitySummary.definition_digest r)
    ++ field "summary" (PlanningCapabilitySummary.summary r)
    ++ field "inputSchema" (PlanningCapabilitySummary.input_schema r)
    ++ field "outputSchema" (PlanningCapabilitySummary.output_schema r)
    ++ field "effectClass" (PlanningCapabilitySummary.effect_class r)
    ++ field "resourceSelectors" (PlanningCapabilitySummary.resource_selectors r)
    ++ field "criticalActions" (PlanningCapabilitySummary.critical_actions r)
    ++ field "executionStyles" (PlanningCapabilitySummary.execution_styles r)
    ++ field "idempotencyKeySupported" (PlanningCapabilitySummary.idempotency_key_supported r)
    ++ field "defaultTimeoutMs" (PlanningCapabilitySummary.default_timeout_ms r)
    ++ field "maxTimeoutMs" (PlanningCapabilitySummary.max_timeout_ms r)).

#[export] Instance ser_PlanningStepSummary : Serialize PlanningStepSummary := λ r,
  obj (field "stepId" (PlanningStepSummary.step_id r)
    ++ field "objective" (PlanningStepSummary.objective r)
    ++ field "dependsOn" (PlanningStepSummary.depends_on r)
    ++ field "status" (PlanningStepSummary.status r)
    ++ field "attempts" (PlanningStepSummary.attempts r)
    ++ field "capability" (PlanningStepSummary.capability r)
    ++ field "dependencyReleased" (PlanningStepSummary.dependency_released r)).

#[export] Instance ser_PlanningToolOutput : Serialize PlanningToolOutput := λ r,
  obj (field "stepId" (PlanningToolOutput.step_id r)
    ++ field "capability" (PlanningToolOutput.capability r)
    ++ field "outputId" (PlanningToolOutput.output_id r)
    ++ field "outputDigest" (PlanningToolOutput.output_digest r)
    ++ field "receiptDigest" (PlanningToolOutput.receipt_digest r)
    ++ field "canonicalSizeBytes" (PlanningToolOutput.canonical_size_bytes r)
    ++ field "output" (PlanningToolOutput.output r)).

#[export] Instance ser_PlanningConstraint : Serialize PlanningConstraint := λ r,
  obj (field "constraintId" (PlanningConstraint.constraint_id r)
    ++ field "description" (PlanningConstraint.description r)).

#[export] Instance ser_PlanningContextPayload : Serialize PlanningContextPayload := λ r,
  obj (field "profileVersion" (PlanningContextPayload.profile_version r)
    ++ field "capabilities" (PlanningContextPayload.capabilities r)
    ++ field "omittedCapabilities" (PlanningContextPayload.omitted_capabilities r)
    ++ field "catalogDigest" (PlanningContextPayload.catalog_digest r)
    ++ field "goal" (PlanningContextPayload.goal r)
    ++ field_vec "planningConstraints" (PlanningContextPayload.planning_constraints r)
    ++ field "steps" (PlanningContextPayload.steps r)
    ++ field "omittedSteps" (PlanningContextPayload.omitted_steps r)
    ++ field "toolOutputs" (PlanningContextPayload.tool_outputs r)
    ++ field "totalSteps" (PlanningContextPayload.total_steps r)
    ++ field "verifiedCompletedSteps" (PlanningContextPayload.verified_completed_steps r)
    ++ field "runId" (PlanningContextPayload.run_id r)
    ++ field "authority" (PlanningContextPayload.authority r)
    ++ field "authorityEpoch" (PlanningContextPayload.authority_epoch r)
    ++ field "journalSequence" (PlanningContextPayload.journal_sequence r)
    ++ field "journalHeadDigest" (PlanningContextPayload.journal_head_digest r)).

(** A [BTreeMap<String, String>] member skipped when empty. *)
Definition field_labels (k : string) (m : gmap string string) : list (string * Value) :=
  if decide (m = ∅) then [] else [(k, Value.Object (prod_map id ser <$> btree_entries m))].

#[export] Instance ser_CapabilityMetadata : Serialize CapabilityMetadata := λ r,
  obj (field "id" (CapabilityMetadata.id r)
    ++ field "contractVersion" (CapabilityMetadata.contract_version r)
    ++ field "displayName" (CapabilityMetadata.display_name r)
    ++ field_labels "labels" (CapabilityMetadata.labels r)).

#[export] Instance ser_CapabilityDefinitionBody : Serialize CapabilityDefinitionBody := λ r,
  obj (field "apiVersion" (CapabilityDefinitionBody.api_version r)
    ++ field_map "extensions" (CapabilityDefinitionBody.extensions r)
    ++ field_vec "requiredExtensions" (CapabilityDefinitionBody.required_extensions r)
    ++ field "metadata" (CapabilityDefinitionBody.metadata r)
    ++ field "spec" (CapabilityDefinitionBody.spec r)).

(** [CatalogDigestEntry] and [CatalogDigestInput]. *)
Definition CatalogDigestEntry (summary : PlanningCapabilitySummary) : Value :=
  let capability := PlanningCapabilitySummary.capability summary in
  obj (field "capabilityId" (CapabilityRef.capability_id capability)
    ++ field "contractVersion" (CapabilityRef.contract_version capability)
    ++ field "definitionDigest" (PlanningCapabilitySummary.definition_digest summary)).

Definition CatalogDigestInput (summaries : list PlanningCapabilitySummary) : Value :=
  obj (field "domain" ("xgeny.capability-catalog/v1" : string)
    ++ field "entries" (map CatalogDigestEntry summaries)).

Definition ContextDigestInput (payload : PlanningContextPayload) : Value :=
  obj (field "domain" ("xgeny.planning-context.digest/v3" : string) ++ field "payload" payload).

(** ** Input limits *)

Definition saturating_add (a b : N) : N := N.min (a + b) usize_max.

Definition planning_context_preflight (state : RunState) (registry : CapabilityRegistry) : bool :=
  let header :=
    total ← checked_add usize_max (strlen (RunState.run_id state)) (strlen (RunState.authority state));
    total ← checked_add usize_max total (strlen (RunState.journal_head_digest state));
    checked_add usize_max total (strlen (RunState.goal state)) in
  match header with
  | Some total => bool_decide (total ≤ MAX_PLANNING_HEADER_TEXT_BYTES)%N
  | None => false
  end
  && bool_decide (definition_count registry ≤ MAX_PLANNING_CATALOG_DEFINITIONS)%N
  && bool_decide (N.of_nat (size (RunState.steps state)) ≤ MAX_PLANNING_SOURCE_STEPS)%N.

Module PlanningValueStats.
Record PlanningValueStats : Type := mk { nodes : N; text_bytes : N }.
Definition default : PlanningValueStats := mk 0 0.
End PlanningValueStats.
Abbreviation PlanningValueStats := PlanningValueStats.PlanningValueStats.

Definition add_planning_text (stats : PlanningValueStats) (bytes : N)
    : res ContextBuildError PlanningValueStats :=
  let? text_bytes :=
    ok_or (at_most MAX_PLANNING_VALUE_TEXT_BYTES
             (checked_add usize_max (PlanningValueStats.text_bytes stats) bytes))
      ContextBuildError.InputLimitExceeded in
  Ok (PlanningValueStats.mk (PlanningValueStats.nodes stats) text_bytes).

(** [add_planning_text] of the length of one string. *)
Definition add_text (stats : PlanningValueStats) (text : string)
    : res ContextBuildError PlanningValueStats := add_planning_text stats (strlen text).

(** One member of an object: count its key, push its value. *)
Definition push_child (child_depth : N) (s : PlanningValueStats * pending_stack) (entry : string * Value)
    : res ContextBuildError (PlanningValueStats * pending_stack) :=
  let? stats := add_text s.1 entry.1 in
  Ok (stats, (entry.2, child_depth) :: s.2).

(** The [while let Some((value, depth)) = pending.pop()] loop.  Each pass counts a node, so two
    passes more than the node bound are enough fuel. *)
Fixpoint visit_planning_value (fuel : nat) (pending : pending_stack) (stats : PlanningValueStats)
    : res ContextBuildError PlanningValueStats :=
  match fuel with
  | O => Panic "fuel"
  | S fuel =>
      match pending with
      | [] => Ok stats
      | (value, depth) :: pending =>
          bail_if bool_decide (MAX_PLANNING_VALUE_DEPTH < depth)%N
            with ContextBuildError.InputLimitExceeded;;
          let? nodes :=
            ok_or (at_most MAX_PLANNING_VALUE_NODES
                     (checked_add usize_max (PlanningValueStats.nodes stats) 1))
              ContextBuildError.InputLimitExceeded in
          let stats := PlanningValueStats.mk nodes (PlanningValueStats.text_bytes stats) in
          match value with
          | Value.Str text =>
              let? stats := add_text stats text in
              visit_planning_value fuel pending stats
          | Value.Array values =>
              visit_planning_value fuel
                (foldl (λ pending child, (child, depth + 1)%N :: pending) pending values) stats
          | Value.Object values =>
              let? pushed := for_each (push_child (depth + 1)) values (stats, pending) in
              visit_planning_value fuel pushed.2 pushed.1
          | Value.Null | Value.Bool _ | Value.Num _ => visit_planning_value fuel pending stats
          end
      end
  end.

Definition validate_planning_value (stats : PlanningValueStats) (root : Value)
    : res ContextBuildError PlanningValueStats :=
  visit_planning_value (N.to_nat (MAX_PLANNING_VALUE_NODES + 2)) [(root, 1%N)] stats.

Definition planning_collection_items (definition : CapabilityDefinitionBody) : N :=
  let spec := CapabilityDefinitionBody.spec definition in
  let effect := CapabilitySpec.effect spec in
  foldl saturating_add (N.of_nat (size (CapabilityDefinitionBody.extensions definition)))
    [len (CapabilityDefinitionBody.required_extensions definition);
     N.of_nat (size (CapabilityMetadata.labels (CapabilityDefinitionBody.metadata definition)));
     len (CapabilitySpec.required_capabilities spec);
     len (CapabilityEffect.resource_selectors effect);
     len (CapabilityEffect.critical_actions effect);
     len (CapabilityExecution.styles (CapabilitySpec.execution spec));
     len (CapabilitySpec.verification spec);
     match CapabilitySpec.discovery spec with
     | Some discovery => saturating_add (len (CapabilityDiscovery.keywords discovery))
                           (len (CapabilityDiscovery.examples discovery))
     | None => 0%N
     end].

(** The texts of a definition in the order the source counts them. *)
Definition definition_texts (definition : CapabilityDefinitionBody) : list string :=
  let metadata := CapabilityDefinitionBody.metadata definition in
  let spec := CapabilityDefinitionBody.spec definition in
  [CapabilityDefinitionBody.api_version definition]
    ++ CapabilityDefinitionBody.required_extensions definition
    ++ btree_keys (CapabilityDefinitionBody.extensions definition)
    ++ [CapabilityMetadata.id metadata; CapabilityMetadata.contract_version metadata;
        CapabilityMetadata.display_name metadata]
    ++ flat_map (λ entry, [entry.1; entry.2]) (btree_entries (CapabilityMetadata.labels metadata))
    ++ [CapabilitySpec.summary spec]
    ++ flat_map (λ required, [CapabilityRef.capability_id required; CapabilityRef.contract_version required])
         (CapabilitySpec.required_capabilities spec)
    ++ flat_map (λ selector, [ResourceSelector.scope selector; ResourceSelector.argument_pointer selector])
         (CapabilityEffect.resource_selectors (CapabilitySpec.effect spec))
    ++ omap VerificationRule.description (CapabilitySpec.verification spec)
    ++ match CapabilitySpec.discovery spec with
       | Some discovery =>
           CapabilityDiscovery.keywords discovery ++ CapabilityDiscovery.examples discovery
             ++ match CapabilityDiscovery.details_ref discovery with Some d => [d] | None => [] end
       | None => []
       end.

Definition validate_planning_definition_shape (definition : CapabilityDefinitionBody)
    : res ContextBuildError unit :=
  bail_if bool_decide (MAX_PLANNING_DEFINITION_COLLECTION_ITEMS < planning_collection_items definition)%N
    with ContextBuildError.InputLimitExceeded;;
  let spec := CapabilityDefinitionBody.spec definition in
  let? stats := for_each add_text (definition_texts definition) PlanningValueStats.default in
  let? stats := validate_planning_value stats (CapabilitySpec.input_schema spec) in
  let? stats := validate_planning_value stats (CapabilitySpec.output_schema spec) in
  let? _ := for_each validate_planning_value
              (btree_values (CapabilityDefinitionBody.extensions definition)) stats in
  Ok tt.

(** One dependency of a step: its text, within the step's bound. *)
Definition add_dependency_text (text_bytes : N) (dependency : string) : res ContextBuildError N :=
  ok_or (at_most MAX_PLANNING_STEP_BYTES (checked_add usize_max text_bytes (strlen dependency)))
    ContextBuildError.InputLimitExceeded.

Definition validate_planning_step_shape (step : StepState) : res ContextBuildError unit :=
  bail_if bool_decide (MAX_PLANNING_DEFINITION_COLLECTION_ITEMS < len (StepState.depends_on step))%N
    with ContextBuildError.InputLimitExceeded;;
  let? text_bytes := ok_or (checked_add usize_max (strlen (StepState.step_id step))
                              (strlen (StepState.objective step)))
                       ContextBuildError.InputLimitExceeded in
  let? text_bytes := for_each add_dependency_text (StepState.depends_on step) text_bytes in
  let? text_bytes :=
    match StepState.planned_invocation step with
    | Some invocation =>
        ok_or (total ← checked_add usize_max text_bytes
                         (strlen (PlannedInvocationBinding.capability_id invocation));
               checked_add usize_max total
                 (strlen (PlannedInvocationBinding.contract_version invocation)))
          ContextBuildError.InputLimitExceeded
    | None => Ok text_bytes
    end in
  bail_if bool_decide (MAX_PLANNING_STEP_BYTES < text_bytes)%N
    with ContextBuildError.InputLimitExceeded;;
  Ok tt.

(** [bounded_summary]: the printable characters of a text, as many as fit. *)

Definition byte (n : N) : string := String (ascii_of_N n) EmptyString.

(** [char::encode_utf8]. *)
Definition encode_utf8 (c : N) : string :=
  if bool_decide (c < 128)%N then byte c
  else if bool_decide (c < 2048)%N then byte (192 + c / 64) +:+ byte (128 + c mod 64)
  else if bool_decide (c < 65536)%N then
    byte (224 + c / 4096) +:+ byte (128 + c / 64 mod 64) +:+ byte (128 + c mod 64)
  else byte (240 + c / 262144) +:+ byte (128 + c / 4096 mod 64)
         +:+ byte (128 + c / 64 mod 64) +:+ byte (128 + c mod 64).

Fixpoint push_summary (result : string) (characters : list N) : string :=
  match characters with
  | [] => result
  | character :: characters =>
      if bool_decide (MAX_CAPABILITY_SUMMARY_BYTES < strlen result + strlen (encode_utf8 character))%N
      then result
      else push_summary (result +:+ encode_utf8 character) characters
  end.

Definition bounded_summary (value : string) : string :=
  push_summary EmptyString (List.filter (λ c, negb (is_control c)) (chars value)).

(** ** Building a context *)

(** The items chosen so far and the conservative size of a payload that holds them. *)
Module Packed.
Record Packed : Type := mk {
  steps : list PlanningStepSummary;
  capabilities : list PlanningCapabilitySummary;
  size : N;
}.
End Packed.
Abbreviation Packed := Packed.Packed.

Section build.
Context `{Crypto}.

(** [canonical_size(..).map_err(|_| error)]. *)
Definition canonical_size {E} (error : E) (value : Value) : res E N :=
  match jcs_to_vec value with
  | inl _ => Err error
  | inr canonical => Ok (strlen canonical)
  end.

(** The recurring sum of source sizes: [checked_add], [filter], [ok_or]. *)
Definition add_source_bytes (source_bytes added : N) : res ContextBuildError N :=
  ok_or (at_most MAX_PLANNING_SOURCE_BYTES (checked_add usize_max source_bytes added))
    ContextBuildError.InputLimitExceeded.

Definition add_source {A} `{Serialize A} (source_bytes : N) (item : A) : res ContextBuildError N :=
  let? item_size := canonical_size ContextBuildError.Canonicalization (ser item) in
  add_source_bytes source_bytes item_size.

(** One output of [build_planning_tool_outputs]; the loop carries what it has seen. *)
Definition planning_tool_output (state : RunState) (completed : gmap string ToolOutputRecord)
    (s : gset string * list PlanningToolOutput) (step_id : string)
    : res ContextBuildError (gset string * list PlanningToolOutput) :=
  let mismatch := ContextBuildError.OutputBinding in
  bail_if bool_decide (step_id ∈ s.1) with mismatch;;
  let? step := ok_or (RunState.steps state !! step_id) mismatch in
  bail_if bool_decide (StepState.status step ≠ StepStatus.Completed)
          || bool_decide (StepState.output_record_digest step = None)
    with mismatch;;
  bail_if negb (receipt_releases_dependency step) with mismatch;;
  let? intent := ok_or (StepState.intent step) mismatch in
  let? evidence_digest := ok_or (StepState.effect_evidence_digest step) mismatch in
  let? receipt_digest := ok_or (StepState.execution_receipt_digest step) mismatch in
  let? output := ok_or (completed !! step_id) mismatch in
  let? _ := map_err (λ _, mismatch)
              (ToolOutputRecord_verify_for output (RunState.run_id state) step_id intent
                 (StepState.attempts step) evidence_digest) in
  bail_if bool_decide (StepState.output_record_digest step ≠ Some (ToolOutputRecord.record_digest output))
    with mismatch;;
  Ok ({[step_id]} ∪ s.1,
      s.2 ++ [PlanningToolOutput.mk step_id
                (CapabilityRef.mk (InvocationBinding.capability_id (ToolOutputRecord.invocation output))
                   (InvocationBinding.contract_version (ToolOutputRecord.invocation output)))
                (ToolOutputRecord.output_id output) (ToolOutputRecord.output_digest output)
                receipt_digest (ToolOutputRecord.canonical_size_bytes output)
                (ToolOutputRecord.output output)]).

Definition build_planning_tool_outputs (state : RunState) (completed : gmap string ToolOutputRecord)
    (order : list string) : res ContextBuildError (list PlanningToolOutput) :=
  let expected_count := length (List.filter (λ step,
      bool_decide (StepState.status step = StepStatus.Completed)
      && bool_decide (is_Some (StepState.output_record_digest step))) (btree_values (RunState.steps state))) in
  bail_if bool_decide (expected_count ≠ size completed) || bool_decide (length order ≠ size completed)
    with ContextBuildError.OutputBinding;;
  let? outputs := for_each (planning_tool_output state completed) order (∅, []) in
  bail_if bool_decide (size outputs.1 ≠ expected_count) with ContextBuildError.OutputBinding;;
  Ok outputs.2.

Definition capability_summary (definition : CapabilityDefinitionBody) (definition_digest : string)
    : PlanningCapabilitySummary :=
  let metadata := CapabilityDefinitionBody.metadata definition in
  let spec := CapabilityDefinitionBody.spec definition in
  let effect := CapabilitySpec.effect spec in
  let execution := CapabilitySpec.execution spec in
  PlanningCapabilitySummary.mk
    (CapabilityRef.mk (CapabilityMetadata.id metadata) (CapabilityMetadata.contract_version metadata))
    definition_digest (bounded_summary (CapabilitySpec.summary spec))
    (CapabilitySpec.input_schema spec) (CapabilitySpec.output_schema spec)
    (CapabilityEffect.class effect)
    (map (λ selector, PlanningResourceSelector.mk (ResourceSelector.scope selector)
                        (ResourceSelector.argument_pointer selector))
       (CapabilityEffect.resource_selectors effect))
    (CapabilityEffect.critical_actions effect) (CapabilityExecution.styles execution)
    (CapabilityExecution.idempotency_key_supported execution)
    (CapabilityExecution.default_timeout_ms execution) (CapabilityExecution.max_timeout_ms execution).

(** One definition of the catalog loop: the source bytes so far and the summaries with their
    sizes. *)
Definition add_definition (s : N * list (PlanningCapabilitySummary * N))
    (definition : CapabilityDefinitionBody)
    : res ContextBuildError (N * list (PlanningCapabilitySummary * N)) :=
  let? _ := validate_planning_definition_shape definition in
  let? definition_size := canonical_size ContextBuildError.Canonicalization (ser definition) in
  bail_if bool_decide (MAX_PLANNING_DEFINITION_BYTES < definition_size)%N
    with ContextBuildError.InputLimitExceeded;;
  let? source_bytes := add_source_bytes s.1 definition_size in
  let? definition_digest := map_err (λ _, ContextBuildError.Catalog)
                              (definition_contract_digest definition) in
  let summary := capability_summary definition definition_digest in
  let? summary_size := canonical_size ContextBuildError.Canonicalization (ser summary) in
  Ok (source_bytes, s.2 ++ [(summary, summary_size)]).

Definition step_summary (step : StepState) : PlanningStepSummary :=
  PlanningStepSummary.mk (StepState.step_id step) (StepState.objective step)
    (StepState.depends_on step) (StepState.status step) (StepState.attempts step)
    ((λ invocation, CapabilityRef.mk (PlannedInvocationBinding.capability_id invocation)
                      (PlannedInvocationBinding.contract_version invocation))
       <$> StepState.planned_invocation step)
    (receipt_releases_dependency step).

(** One step of the step loop. *)
Definition add_step (state : RunState) (s : N * list (PlanningStepSummary * N)) (step_id : string)
    : res ContextBuildError (N * list (PlanningStepSummary * N)) :=
  let? step := ok_or (RunState.steps state !! step_id) ContextBuildError.OutputBinding in
  let? _ := validate_planning_step_shape step in
  let summary := step_summary step in
  let? summary_size := canonical_size ContextBuildError.Canonicalization (ser summary) in
  bail_if bool_decide (MAX_PLANNING_STEP_BYTES < summary_size)%N
    with ContextBuildError.InputLimitExceeded;;
  let? source_bytes := add_source_bytes s.1 summary_size in
  Ok (source_bytes, s.2 ++ [(summary, summary_size)]).

(** ** Packing *)

(** [item_size.saturating_add(usize::from(!items.is_empty()))]. *)
Definition item_delta {A} (item_size : N) (items : list A) : N :=
  saturating_add item_size (match items with [] => 0 | _ => 1 end).

Definition pack_step (maximum_size : N) (item : option (PlanningStepSummary * N)) (p : Packed) : Packed :=
  match item with
  | Some (step, item_size) =>
      let delta := item_delta item_size (Packed.steps p) in
      if bool_decide (saturating_add (Packed.size p) delta ≤ maximum_size)%N
      then Packed.mk (Packed.steps p ++ [step]) (Packed.capabilities p) (Packed.size p + delta)
      else p
  | None => p
  end.

Definition pack_capability (maximum_size : N) (item : option (PlanningCapabilitySummary * N))
    (p : Packed) : Packed :=
  match item with
  | Some (summary, item_size) =>
      let delta := item_delta item_size (Packed.capabilities p) in
      if bool_decide (saturating_add (Packed.size p) delta ≤ maximum_size)%N
      then Packed.mk (Packed.steps p) (Packed.capabilities p ++ [summary]) (Packed.size p + delta)
      else p
  | None => p
  end.

(** The round-robin loop over the two lists of candidates. *)
Definition pack (maximum_size : N) (steps : list (PlanningStepSummary * N))
    (summaries : list (PlanningCapabilitySummary * N)) (p : Packed) : Packed :=
  foldl (λ p index, pack_capability maximum_size (summaries !! index)
                      (pack_step maximum_size (steps !! index) p))
    p (seq 0 (Nat.max (length steps) (length summaries))).

Definition compare_summaries : PlanningCapabilitySummary * N → PlanningCapabilitySummary * N → comparison :=
  let capability s := PlanningCapabilitySummary.capability s.1 in
  lexi (on (λ s, CapabilityRef.capability_id (capability s)) String.compare)
       (on (λ s, CapabilityRef.contract_version (capability s)) String.compare).

(** The payload that holds the chosen items. *)
Definition context_payload (state : RunState) (frontier : WorkFrontier)
    (planning_constraints : list PlanningConstraint) (tool_outputs : list PlanningToolOutput)
    (catalog_digest : string) (total_steps total_capabilities : N) (p : Packed)
    : PlanningContextPayload :=
  PlanningContextPayload.mk PLANNING_CONTEXT_PROFILE_V3 (Packed.capabilities p)
    (total_capabilities - len (Packed.capabilities p)) catalog_digest (RunState.goal state)
    planning_constraints (Packed.steps p) (total_steps - len (Packed.steps p)) tool_outputs
    (WorkFrontier.total_steps frontier) (len (WorkFrontier.verified_completed_step_ids frontier))
    (RunState.run_id state) (RunState.authority state) (RunState.authority_epoch state)
    (RunState.journal_sequence state) (RunState.journal_head_digest state).

Definition build_context_ordered (state : RunState) (completed_tool_outputs : gmap string ToolOutputRecord)
    (planning_step_order completed_tool_output_order : list string) (frontier : WorkFrontier)
    (registry : CapabilityRegistry) (planning_constraints : list PlanningConstraint)
    (budget : AgentLoopBudget) : res ContextBuildError PlanningContext :=
  bail_if negb (planning_context_preflight state registry)
    with ContextBuildError.InputLimitExceeded;;
  bail_if bool_decide (length planning_step_order ≠ size (RunState.steps state))
    with ContextBuildError.OutputBinding;;
  let planning_step_set : gset string := list_to_set planning_step_order in
  bail_if bool_decide (size planning_step_set ≠ size (RunState.steps state))
          || existsb (λ step_id, negb (bool_decide (is_Some (RunState.steps state !! step_id))))
               (bset_elements planning_step_set)
    with ContextBuildError.OutputBinding;;
  let? source_bytes := for_each add_source planning_constraints 0%N in
  let? tool_outputs := build_planning_tool_outputs state completed_tool_outputs
                         completed_tool_output_order in
  let? source_bytes := for_each add_source tool_outputs source_bytes in
  let? catalog := for_each add_definition (definitions registry) (source_bytes, []) in
  let summaries := sort_by compare_summaries catalog.2 in
  let? catalog_digest := canonical_digest (λ _, ContextBuildError.Canonicalization)
                           (CatalogDigestInput summaries.*1) in
  let? steps := for_each (add_step state) planning_step_order (catalog.1, []) in
  let payload := context_payload state frontier planning_constraints tool_outputs catalog_digest
                   (len steps.2) (len summaries) in
  let maximum_size := N.min (AgentLoopBudget.max_context_bytes budget) MAX_PLANNING_CONTEXT_BYTES in
  let? conservative_size := canonical_size ContextBuildError.Canonicalization
                              (ser (payload (Packed.mk [] [] 0))) in
  bail_if bool_decide (maximum_size < conservative_size)%N with ContextBuildError.BudgetExceeded;;
  let packed := pack maximum_size steps.2 summaries (Packed.mk [] [] conservative_size) in
  let? exact_size := canonical_size ContextBuildError.Canonicalization (ser (payload packed)) in
  bail_if bool_decide (maximum_size < exact_size)%N with ContextBuildError.BudgetExceeded;;
  let? canonical_size_bytes := ok_or (try_from u64_max exact_size) ContextBuildError.BudgetExceeded in
  let? context_digest := canonical_digest (λ _, ContextBuildError.Canonicalization)
                           (ContextDigestInput (payload packed)) in
  Ok (PlanningContext.mk (payload packed) context_digest canonical_size_bytes).
End build.
