(* ===== verification/Proposals.v ===== *)
(** Untrusted planner proposals (crates/xgeny-runtime/src/agent_loop.rs and
    invocation_diagnostic.rs): their structure, their validation against the catalog and the
    context, and the material a host retains for them before they are committed. *)

From S2P Require Import Prelude Program Text Wire Domain Resolution Registry Receipt DomainWire.
From S2P Require Import WorkGraphTypes WorkGraphErrors WorkGraphWire Planning Material Frontier.
From S2P Require Import MemoryStore Host Invocation PlanningContext.

Definition MAX_PROPOSAL_BYTES : N := 256 * 1024.
Definition MAX_PROPOSAL_KEY_BYTES : N := 128.

(** ** Proposals *)

Module PlanDependency.
Inductive PlanDependency : Type :=
| ExistingStep (step_id : string)
| ProposedStep (key : string).
#[global] Instance PlanDependency_eq_dec : EqDecision PlanDependency.
Proof. solve_decision. Defined.
(** The derived [Ord]: the variant, then its text. *)
Definition compare (a b : PlanDependency) : comparison :=
  match a, b with
  | ExistingStep s, ExistingStep t | ProposedStep s, ProposedStep t => String.compare s t
  | ExistingStep _, ProposedStep _ => Lt
  | ProposedStep _, ExistingStep _ => Gt
  end.
End PlanDependency.
Abbreviation PlanDependency := PlanDependency.PlanDependency.

Module ProposedPlanStep.
Record ProposedPlanStep : Type := new {
  key : string;
  objective : string;
  depends_on : list PlanDependency;
  capability : CapabilityRef;
  arguments : Value;
}.
End ProposedPlanStep.
Abbreviation ProposedPlanStep := ProposedPlanStep.ProposedPlanStep.

Module PlanProposal.
Inductive PlanProposal : Type :=
| Plan (steps : list ProposedPlanStep)
| CompletionCandidate (summary : string).
End PlanProposal.
Abbreviation PlanProposal := PlanProposal.PlanProposal.

Module PlannerPortFailure.
Inductive PlannerPortFailure : Type :=
| Timeout
| Unavailable
| InvalidResponse
| ProviderLimit
| RequestTooLarge
| RateLimited
| OutputTruncated
| ProviderRejected.
End PlannerPortFailure.
Abbreviation PlannerPortFailure := PlannerPortFailure.PlannerPortFailure.

(** ** Ports *)

Module PlannerCallRequest.
Record PlannerCallRequest : Type := mk {
  call_id : string;
  request_digest : string;
  context : PlanningContext;
}.
End PlannerCallRequest.
Abbreviation PlannerCallRequest := PlannerCallRequest.PlannerCallRequest.

(** [trait PlannerPort], for planner handles of type [P]. *)
Class PlannerPort (W P : Type) : Type := {
  planner_id : P → W → string;
  request_profile_digest : P → W → string;
  plan : P → PlannerCallRequest → W → res PlannerPortFailure PlanProposal * W;
}.

Module PlanMaterializationRequest.
Record PlanMaterializationRequest : Type := mk {
  run_id : string;
  step_id : string;
  proposal_digest : string;
  capability : CapabilityRef;
  normalized_arguments : Value;
  material_digest : string;
}.
End PlanMaterializationRequest.
Abbreviation PlanMaterializationRequest := PlanMaterializationRequest.PlanMaterializationRequest.

Module PlanMaterializerFailure.
Inductive PlanMaterializerFailure : Type := Unavailable | Rejected | PersistenceFailed.
End PlanMaterializerFailure.
Abbreviation PlanMaterializerFailure := PlanMaterializerFailure.PlanMaterializerFailure.

(** [trait PlanMaterializer], for materializer handles of type [M]. *)
Class PlanMaterializer (W M : Type) : Type :=
  materialize : M → PlanMaterializationRequest → W →
    res PlanMaterializerFailure ReconstructableMaterialReference * W.

(** ** Diagnostics of rejected arguments *)

Module InvocationDiagnostic.
Record InvocationDiagnostic : Type := mk { category : string; field : string }.
End InvocationDiagnostic.
Abbreviation InvocationDiagnostic := InvocationDiagnostic.InvocationDiagnostic.

(** [jsonschema::error::ValidationErrorKind], as far as the source tells kinds apart. *)
Module ValidationErrorKind.
Inductive ValidationErrorKind : Type :=
| FalseSchema
| Required (property : Value)
| Type_
| AdditionalProperties
| MinLength
| Pattern
| OneOfNotValid
| OneOfMultipleValid
| Other.
End ValidationErrorKind.
Abbreviation ValidationErrorKind := ValidationErrorKind.ValidationErrorKind.

Module ValidationError.
Record ValidationError : Type := mk {
  instance_path : string;
  schema_path : string;
  kind : ValidationErrorKind;
}.
End ValidationError.
Abbreviation ValidationError := ValidationError.ValidationError.

(** [validator.iter_errors(arguments).next()] of the validator built from a schema. *)
Class JsonSchemaErrors : Type := first_error : Value → Value → option ValidationError.

Definition ends_with (suffix s : string) : bool :=
  bool_decide (String.substring (String.length s - String.length suffix) (String.length suffix) s = suffix).

Definition known_field (name : string) : string :=
  if bool_decide (name ∈ ["path"; "content"; "expectedDigest"]) then name else "other".

(** The field a top-level instance path names. *)
Definition path_field (path : string) : string :=
  match strip_prefix "/" path with Some name => known_field name | None => "other" end.

Definition schema_diagnostic `{JsonSchema} `{JsonSchemaErrors} (schema arguments : Value)
    : option InvocationDiagnostic :=
  _ ← build_validator schema;
  error ← first_error schema arguments;
  let path := ValidationError.instance_path error in
  let field := path_field path in
  let entry := match ValidationError.kind error with
    | ValidationErrorKind.FalseSchema =>
        if ends_with "/additionalProperties" (ValidationError.schema_path error)
        then ("schema_additional_property", "other") else ("schema_other", field)
    | ValidationErrorKind.Required property =>
        ("schema_required",
         if is_empty path
         then known_field (match property with Value.Str name => name | _ => "" end) else "other")
    | ValidationErrorKind.Type_ => ("schema_type", field)
    | ValidationErrorKind.AdditionalProperties => ("schema_additional_property", "other")
    | ValidationErrorKind.MinLength => ("schema_min_length", field)
    | ValidationErrorKind.Pattern => ("schema_pattern", field)
    | ValidationErrorKind.OneOfNotValid | ValidationErrorKind.OneOfMultipleValid =>
        ("schema_one_of", field)
    | ValidationErrorKind.Other => ("schema_other", field)
    end in
  Some (InvocationDiagnostic.mk entry.1 entry.2).

Definition from_admission `{JsonSchema} `{JsonSchemaErrors} (error : AdmissionError)
    (schema arguments : Value) : option InvocationDiagnostic :=
  match error with
  | AdmissionError.ArgumentsDoNotConform => schema_diagnostic schema arguments
  | AdmissionError.Resolution _ => Some (InvocationDiagnostic.mk "resource_resolution" "other")
  | _ => None
  end.

Module ProposalRejection.
Inductive ProposalRejection : Type :=
| EmptyPlan
| TooManySteps
| TooManyEdges
| ProposalTooLarge
| InvalidStepKey
| DuplicateStepKey
| InvalidObjective
| InvalidDependency
| DuplicateDependency
| UnknownDependency
| BlockedExistingDependency
| SelfDependency
| DependencyCycle
| CapabilityUnavailable
| CapabilityUnsupported
| InvocationInvalid
| InvocationDiagnosed (diagnostic : InvocationDiagnostic)
| DuplicateSemanticAction
| PlannedStepBudgetExceeded
| ToolCallBudgetExhausted
| CompletionWithoutReceiptCompletedPlan
| InvalidCompletionSummary.
End ProposalRejection.
Abbreviation ProposalRejection := ProposalRejection.ProposalRejection.

(** ** Prepared plans *)

Module ValidatedPlanStep.
Record ValidatedPlanStep : Type := mk {
  key : string;
  objective : string;
  depends_on : list PlanDependency;
  capability : CapabilityRef;
  normalized_arguments : Value;
  definition_digest : string;
  semantic_action_digest : string;
  material_digest : string;
  effect_class : Domain.EffectClass;
}.
End ValidatedPlanStep.
Abbreviation ValidatedPlanStep := ValidatedPlanStep.ValidatedPlanStep.

Module PreparedPlanStep.
Record PreparedPlanStep : Type := mk {
  step_id : string;
  objective : string;
  depends_on : list string;
  capability : CapabilityRef;
  normalized_arguments : Value;
  definition_digest : string;
  action_digest : string;
  material_digest : string;
  effect_class : Domain.EffectClass;
}.
End PreparedPlanStep.
Abbreviation PreparedPlanStep := PreparedPlanStep.PreparedPlanStep.

Module PreparedPlan.
Record PreparedPlan : Type := mk { proposal_digest : string; steps : list PreparedPlanStep }.
End PreparedPlan.
Abbreviation PreparedPlan := PreparedPlan.PreparedPlan.

#[export] Instance ser_PlanDependency : Serialize PlanDependency := λ d,
  match d with
  | PlanDependency.ExistingStep step_id =>
      obj (field "kind" ("existing_step" : string) ++ field "stepId" step_id)
  | PlanDependency.ProposedStep key =>
      obj (field "kind" ("proposed_step" : string) ++ field "key" key)
  end.

Definition RawPlanProposalSizeStep (step : ProposedPlanStep) : Value :=
  obj (field "key" (ProposedPlanStep.key step)
    ++ field "objective" (ProposedPlanStep.objective step)
    ++ field "dependsOn" (ProposedPlanStep.depends_on step)
    ++ field "capability" (ProposedPlanStep.capability step)
    ++ field "arguments" (ProposedPlanStep.arguments step)).

Definition RawPlanProposalSizeInput (run_id context_digest : string) (steps : list ProposedPlanStep)
    : Value :=
  obj (field "domain" ("xgeny.plan-proposal.raw-size/v1" : string)
    ++ field "runId" run_id ++ field "contextDigest" context_digest
    ++ field "steps" (map RawPlanProposalSizeStep steps)).

Definition AcceptedPlanDigestStep (step : ValidatedPlanStep) : Value :=
  obj (field "proposalKey" (ValidatedPlanStep.key step)
    ++ field "objective" (ValidatedPlanStep.objective step)
    ++ field "dependsOn" (ValidatedPlanStep.depends_on step)
    ++ field "capability" (ValidatedPlanStep.capability step)
    ++ field "definitionDigest" (ValidatedPlanStep.definition_digest step)
    ++ field "semanticActionDigest" (ValidatedPlanStep.semantic_action_digest step)
    ++ field "materialDigest" (ValidatedPlanStep.material_digest step)).

Definition AcceptedPlanDigestInput (run_id context_digest : string) (steps : list ValidatedPlanStep)
    : Value :=
  obj (field "domain" ("xgeny.plan-proposal.accepted/v3-action-occurrence" : string)
    ++ field "runId" run_id ++ field "contextDigest" context_digest
    ++ field "steps" (map AcceptedPlanDigestStep steps)).

Definition StepIdDigestInput (run_id proposal_digest proposal_key : string) : Value :=
  obj (field "domain" ("xgeny.plan-step-id/v1" : string)
    ++ field "runId" run_id ++ field "proposalDigest" proposal_digest
    ++ field "proposalKey" proposal_key).

Definition PreflightStepIdDigestInput (run_id context_digest proposal_key : string) : Value :=
  obj (field "domain" ("xgeny.plan-step-preflight-id/v1" : string)
    ++ field "runId" run_id ++ field "contextDigest" context_digest
    ++ field "proposalKey" proposal_key).

(** ** The structure of a proposal *)

Definition valid_proposal_identifier (value : string) : bool :=
  negb (is_empty value) && bool_decide (strlen value ≤ MAX_PROPOSAL_KEY_BYTES)%N
  && all_bytes identifier_byte value.

Definition valid_existing_step_id (value : string) : bool :=
  negb (is_empty value) && bool_decide (strlen value ≤ 256)%N && negb (any_control value).

(** The first loop: one step's key and objective. *)
Definition index_key (keys : gset string) (step : ProposedPlanStep)
    : res ProposalRejection (gset string) :=
  let key := ProposedPlanStep.key step in
  bail_if negb (valid_proposal_identifier key) with ProposalRejection.InvalidStepKey;;
  bail_if bool_decide (key ∈ keys) with ProposalRejection.DuplicateStepKey;;
  bail_if negb (valid_bounded_text (ProposedPlanStep.objective step) MAX_ACCEPTED_OBJECTIVE_BYTES)
    with ProposalRejection.InvalidObjective;;
  Ok ({[key]} ∪ keys).

(** The edges counted so far, the number of proposed dependencies of each key, and the keys
    that wait for each key. *)
Module ProposalGraph.
Record ProposalGraph : Type := mk {
  edge_count : N;
  indegree : gmap string N;
  children : gmap string (list string);
}.
End ProposalGraph.
Abbreviation ProposalGraph := ProposalGraph.ProposalGraph.

Definition blocks_existing (step : StepState) : bool :=
  match dependency_release_block_reason step with
  | Some (DependencyBlockReason.Failed | DependencyBlockReason.ManualRequired
         | DependencyBlockReason.ReceiptMissing | DependencyBlockReason.DependencyBlocked) => true
  | _ => false
  end.

Definition check_existing_dependency (state : RunState) (frontier : WorkFrontier)
    (context : PlanningContext) (step_id : string) : res ProposalRejection unit :=
  bail_if negb (valid_existing_step_id step_id) with ProposalRejection.InvalidDependency;;
  bail_if negb (existsb (λ summary, bool_decide (PlanningStepSummary.step_id summary = step_id))
                  (PlanningContext.steps context))
    with ProposalRejection.UnknownDependency;;
  let? existing := ok_or (RunState.steps state !! step_id) ProposalRejection.UnknownDependency in
  bail_if blocks_existing existing with ProposalRejection.BlockedExistingDependency;;
  bail_if existsb (λ blocked, bool_decide (BlockedStep.step_id blocked = step_id))
            (WorkFrontier.blocked frontier)
    with ProposalRejection.BlockedExistingDependency;;
  Ok tt.

Definition index_proposed_dependency (keys : gset string) (step_key key : string) (g : ProposalGraph)
    : res ProposalRejection ProposalGraph :=
  bail_if negb (valid_proposal_identifier key) with ProposalRejection.InvalidDependency;;
  bail_if bool_decide (key = step_key) with ProposalRejection.SelfDependency;;
  bail_if bool_decide (key ∉ keys) with ProposalRejection.UnknownDependency;;
  let? degree := expect (ProposalGraph.indegree g !! step_key) "proposal keys were indexed" in
  let? degree := ok_or (checked_add usize_max degree 1) ProposalRejection.TooManyEdges in
  let? waiting := expect (ProposalGraph.children g !! key) "proposal dependency keys were indexed" in
  Ok (ProposalGraph.mk (ProposalGraph.edge_count g)
        (<[step_key := degree]> (ProposalGraph.indegree g))
        (<[key := waiting ++ [step_key]]> (ProposalGraph.children g))).

(** One dependency of a step; the loop carries the dependencies of the step seen so far. *)
Definition index_dependency (state : RunState) (frontier : WorkFrontier) (context : PlanningContext)
    (keys : gset string) (step_key : string) (s : list PlanDependency * ProposalGraph)
    (dependency : PlanDependency) : res ProposalRejection (list PlanDependency * ProposalGraph) :=
  let '(unique, g) := s in
  let? edge_count := ok_or (checked_add usize_max (ProposalGraph.edge_count g) 1)
                       ProposalRejection.TooManyEdges in
  bail_if bool_decide (MAX_ACCEPTED_PLAN_EDGES < edge_count)%N with ProposalRejection.TooManyEdges;;
  bail_if bool_decide (dependency ∈ unique) with ProposalRejection.DuplicateDependency;;
  let unique := dependency :: unique in
  let g := ProposalGraph.mk edge_count (ProposalGraph.indegree g) (ProposalGraph.children g) in
  match dependency with
  | PlanDependency.ExistingStep step_id =>
      let? _ := check_existing_dependency state frontier context step_id in
      Ok (unique, g)
  | PlanDependency.ProposedStep key =>
      let? g := index_proposed_dependency keys step_key key g in
      Ok (unique, g)
  end.

Definition index_step (state : RunState) (frontier : WorkFrontier) (context : PlanningContext)
    (keys : gset string) (g : ProposalGraph) (step : ProposedPlanStep)
    : res ProposalRejection ProposalGraph :=
  let? s := for_each (index_dependency state frontier context keys (ProposedPlanStep.key step))
              (ProposedPlanStep.depends_on step) ([], g) in
  Ok s.2.

(** One child of a visited key: a degree less, ready at zero. *)
Definition release_child (s : gmap string N * gset string) (child : string)
    : res ProposalRejection (gmap string N * gset string) :=
  let '(indegree, ready) := s in
  let? degree := expect (indegree !! child) "proposal child was indexed" in
  let? degree := expect (checked_sub degree 1) "a recorded dependency cannot underflow" in
  Ok (<[child := degree]> indegree,
      if bool_decide (degree = 0)%N then {[child]} ∪ ready else ready).

(** The [while let Some(key) = ready.pop_first()] loop: the number of keys visited.  A key is
    ready once, so a pass for each key and one more are enough fuel. *)
Fixpoint visit_ready (fuel : nat) (children : gmap string (list string)) (indegree : gmap string N)
    (ready : gset string) (visited : N) : res ProposalRejection N :=
  match fuel with
  | O => Panic "fuel"
  | S fuel =>
      match pop_first ready with
      | None => Ok visited
      | Some (key, ready) =>
          let? waiting := expect (children !! key) "no entry found for key" in
          let? released := for_each release_child waiting (indegree, ready) in
          visit_ready fuel children released.1 released.2 (saturating_add visited 1)
      end
  end.

Definition validate_proposal_structure (state : RunState) (frontier : WorkFrontier)
    (context : PlanningContext) (steps : list ProposedPlanStep) : res ProposalRejection unit :=
  let? keys := for_each index_key steps ∅ in
  let? g := for_each (index_step state frontier context keys) steps
              (ProposalGraph.mk 0 (gset_to_gmap 0%N keys) (gset_to_gmap [] keys)) in
  let ready : gset string := dom (filter (λ entry, entry.2 = 0%N) (ProposalGraph.indegree g)) in
  let? visited := visit_ready (S (size keys)) (ProposalGraph.children g) (ProposalGraph.indegree g)
                    ready 0 in
  bail_if bool_decide (visited ≠ len steps) with ProposalRejection.DependencyCycle;;
  Ok tt.

(** ** Preparing a plan *)

(** [PartialEq] of [serde_json::Value]: floats compare as IEEE-754 doubles. *)
Definition number_eqb (a b : Value.Number) : bool :=
  match a, b with
  | Value.PosInt m, Value.PosInt n => bool_decide (m = n)
  | Value.NegInt m, Value.NegInt n => bool_decide (m = n)
  | Value.Float v, Value.Float w =>
      negb (is_nan v) && negb (is_nan w) && (bool_decide (v = w) || is_zero v && is_zero w)
  | _, _ => false
  end.

Fixpoint value_eqb (v w : Value) : bool :=
  match v, w with
  | Value.Null, Value.Null => true
  | Value.Bool a, Value.Bool b => bool_decide (a = b)
  | Value.Num a, Value.Num b => number_eqb a b
  | Value.Str a, Value.Str b => bool_decide (a = b)
  | Value.Array l, Value.Array m =>
      (fix eqb l m := match l, m with
                      | [], [] => true
                      | a :: l, b :: m => value_eqb a b && eqb l m
                      | _, _ => false
                      end) l m
  | Value.Object l, Value.Object m =>
      (fix eqb l m := match l, m with
                      | [], [] => true
                      | (j, a) :: l, (k, b) :: m => bool_decide (j = k) && value_eqb a b && eqb l m
                      | _, _ => false
                      end) l m
  | _, _ => false
  end.

Definition map_invocation_rejection `{JsonSchema} `{JsonSchemaErrors} (error : AdmissionError)
    (schema arguments : Value) : ProposalRejection :=
  match from_admission error schema arguments with
  | Some diagnostic => ProposalRejection.InvocationDiagnosed diagnostic
  | None =>
      match error with
      | AdmissionError.DefinitionNotFound _ _ => ProposalRejection.CapabilityUnavailable
      | AdmissionError.UnsupportedEffectClass _
      | AdmissionError.DefinitionDoesNotSupportIdempotencyKey
      | AdmissionError.UnsupportedExecutionStyle => ProposalRejection.CapabilityUnsupported
      | _ => ProposalRejection.InvocationInvalid
      end
  end.

Section prepare.
Context `{Crypto} `{JsonSchema} `{JsonSchemaErrors} {R : Type} `{ResourceResolver R} `{JsonPointer}.

(** [digest_serializable(..).map_err(|_| InvocationInvalid)]. *)
Definition plan_digest (input : Value) : res ProposalRejection string :=
  canonical_digest (λ _, ProposalRejection.InvocationInvalid) input.

Definition preflight_step_id (run_id context_digest proposal_key : string)
    : res ProposalRejection string :=
  let? digest := plan_digest (PreflightStepIdDigestInput run_id context_digest proposal_key) in
  Ok (content_id "preflight" digest).

(** One entry of [derive_step_ids]. *)
Definition derive_step_id (run_id proposal_digest : string) (ids : gmap string string)
    (step : ValidatedPlanStep) : res ProposalRejection (gmap string string) :=
  let key := ValidatedPlanStep.key step in
  let? digest := plan_digest (StepIdDigestInput run_id proposal_digest key) in
  Ok (<[key := content_id "step" digest]> ids).

Definition derive_step_ids (run_id proposal_digest : string) (steps : list ValidatedPlanStep)
    : res ProposalRejection (gmap string string) :=
  for_each (derive_step_id run_id proposal_digest) steps ∅.

(** One step of the first loop of [prepare_plan]; it carries the semantic actions seen. *)
Definition validate_proposed_step (state : RunState) (context : PlanningContext)
    (registry : CapabilityRegistry) (resolver : R) (s : gset string * list ValidatedPlanStep)
    (step : ProposedPlanStep) : res ProposalRejection (gset string * list ValidatedPlanStep) :=
  let capability := ProposedPlanStep.capability step in
  let arguments := ProposedPlanStep.arguments step in
  bail_if negb (existsb (λ summary, bool_decide (PlanningCapabilitySummary.capability summary = capability))
                  (PlanningContext.capabilities context))
    with ProposalRejection.CapabilityUnavailable;;
  let? definition := ok_or (Registry.definition registry capability)
                       ProposalRejection.CapabilityUnavailable in
  bail_if negb (bool_decide (ExecutionStyle.Sync ∈ CapabilityExecution.styles (execution_of definition)))
          || negb (bool_decide (CapabilityEffect.critical_actions
                     (CapabilitySpec.effect (CapabilityDefinitionBody.spec definition)) = []))
    with ProposalRejection.CapabilityUnsupported;;
  let? preflight := preflight_step_id (RunState.run_id state) (PlanningContext.context_digest context)
                      (ProposedPlanStep.key step) in
  let? facts := map_err (λ error, map_invocation_rejection error
                           (CapabilitySpec.input_schema (CapabilityDefinitionBody.spec definition))
                           arguments)
    (prepare_invocation_facts (RunState.run_id state) preflight capability arguments registry resolver) in
  let semantic_action := PreparedInvocationFacts.semantic_action_digest facts in
  bail_if bool_decide (semantic_action ∈ s.1) with ProposalRejection.DuplicateSemanticAction;;
  Ok ({[semantic_action]} ∪ s.1,
      s.2 ++ [ValidatedPlanStep.mk (ProposedPlanStep.key step) (ProposedPlanStep.objective step)
                (ProposedPlanStep.depends_on step) capability
                (PreparedInvocationFacts.normalized_arguments facts)
                (PreparedInvocationFacts.definition_digest facts) semantic_action
                (PreparedInvocationFacts.material_digest facts) (effect_class_of definition)]).

(** The step id a dependency stands for. *)
Definition resolve_dependency (step_ids : gmap string string) (dependency : PlanDependency)
    : res ProposalRejection string :=
  match dependency with
  | PlanDependency.ExistingStep step_id => Ok step_id
  | PlanDependency.ProposedStep key => expect (step_ids !! key) "no entry found for key"
  end.

Definition push_dependency (step_ids : gmap string string) (depends_on : list string)
    (dependency : PlanDependency) : res ProposalRejection (list string) :=
  let? step_id := resolve_dependency step_ids dependency in
  Ok (depends_on ++ [step_id]).

(** The facts of the second resolution, or the rejection of its failure: the closure that maps
    it reads the schema of the validated definition. *)
Definition final_invocation_facts (run_id step_id : string) (registry : CapabilityRegistry)
    (resolver : R) (step : ValidatedPlanStep) : res ProposalRejection PreparedInvocationFacts :=
  let capability := ValidatedPlanStep.capability step in
  let arguments := ValidatedPlanStep.normalized_arguments step in
  match prepare_invocation_facts run_id step_id capability arguments registry resolver with
  | Ok facts => Ok facts
  | Err error =>
      let? definition := expect (Registry.definition registry capability) "validated definition" in
      Err (map_invocation_rejection error
             (CapabilitySpec.input_schema (CapabilityDefinitionBody.spec definition)) arguments)
  | Panic why => Panic why
  end.

(** One step of the second loop of [prepare_plan]. *)
Definition prepare_plan_step (run_id : string) (step_ids : gmap string string)
    (registry : CapabilityRegistry) (resolver : R) (prepared : list PreparedPlanStep)
    (step : ValidatedPlanStep) : res ProposalRejection (list PreparedPlanStep) :=
  let? step_id := expect (step_ids !! ValidatedPlanStep.key step) "no entry found for key" in
  let? facts := final_invocation_facts run_id step_id registry resolver step in
  bail_if negb (value_eqb (PreparedInvocationFacts.normalized_arguments facts)
                     (ValidatedPlanStep.normalized_arguments step))
          || bool_decide (PreparedInvocationFacts.definition_digest facts
                          ≠ ValidatedPlanStep.definition_digest step)
          || bool_decide (PreparedInvocationFacts.semantic_action_digest facts
                          ≠ ValidatedPlanStep.semantic_action_digest step)
          || bool_decide (PreparedInvocationFacts.material_digest facts
                          ≠ ValidatedPlanStep.material_digest step)
    with ProposalRejection.InvocationInvalid;;
  let? action_digest := map_err (λ _, ProposalRejection.InvocationInvalid)
    (planned_action_occurrence_digest run_id step_id
       (PreparedInvocationFacts.semantic_action_digest facts)) in
  let? depends_on := for_each (push_dependency step_ids) (ValidatedPlanStep.depends_on step) [] in
  Ok (prepared ++
      [PreparedPlanStep.mk step_id (ValidatedPlanStep.objective step) (sort_by String.compare depends_on)
         (ValidatedPlanStep.capability step) (PreparedInvocationFacts.normalized_arguments facts)
         (PreparedInvocationFacts.definition_digest facts) action_digest
         (PreparedInvocationFacts.material_digest facts) (ValidatedPlanStep.effect_class step)]).

(** [step.depends_on.sort()]. *)
Definition sort_dependencies (step : ProposedPlanStep) : ProposedPlanStep :=
  ProposedPlanStep.new (ProposedPlanStep.key step) (ProposedPlanStep.objective step)
    (sort_by PlanDependency.compare (ProposedPlanStep.depends_on step))
    (ProposedPlanStep.capability step) (ProposedPlanStep.arguments step).

Definition sort_steps (steps : list ProposedPlanStep) : list ProposedPlanStep :=
  map sort_dependencies (sort_by (on ProposedPlanStep.key String.compare) steps).

Definition prepare_plan (state : RunState) (frontier : WorkFrontier) (context : PlanningContext)
    (registry : CapabilityRegistry) (resolver : R) (budget : AgentLoopBudget)
    (steps : list ProposedPlanStep) : res ProposalRejection PreparedPlan :=
  bail_if bool_decide (steps = []) with ProposalRejection.EmptyPlan;;
  bail_if bool_decide (MAX_ACCEPTED_PLAN_STEPS < len steps)%N with ProposalRejection.TooManySteps;;
  let? resulting_steps :=
    ok_or (checked_add usize_max (N.of_nat (size (RunState.steps state))) (len steps))
      ProposalRejection.PlannedStepBudgetExceeded in
  bail_if match try_from u32_max resulting_steps with
          | Some count => bool_decide (AgentLoopBudget.max_planned_steps budget < count)%N
          | None => true
          end
    with ProposalRejection.PlannedStepBudgetExceeded;;
  let run_id := RunState.run_id state in
  let context_digest := PlanningContext.context_digest context in
  let? proposal_size := canonical_size ProposalRejection.InvocationInvalid
                          (RawPlanProposalSizeInput run_id context_digest steps) in
  bail_if bool_decide (MAX_PROPOSAL_BYTES < proposal_size)%N with ProposalRejection.ProposalTooLarge;;
  let? _ := validate_proposal_structure state frontier context steps in
  let? validated := for_each (validate_proposed_step state context registry resolver)
                      (sort_steps steps) (∅, []) in
  let? proposal_digest := plan_digest (AcceptedPlanDigestInput run_id context_digest validated.2) in
  let? step_ids := derive_step_ids run_id proposal_digest validated.2 in
  let? prepared := for_each (prepare_plan_step run_id step_ids registry resolver) validated.2 [] in
  Ok (PreparedPlan.mk proposal_digest prepared).
End prepare.

(** ** Materializing a plan *)

Section materialize.
Context {S W M : Type} `{PlanMaterializer W M} `{Crypto} `{Target}.

Definition occurrence_profile (effect_class : Domain.EffectClass)
    : res PlanMaterializerFailure PlannedExecutionProfile :=
  match effect_class with
  | Domain.EffectClass.ReadOnly => Ok PlannedExecutionProfile.LocalSyncReadOnlyOccurrenceV1
  | Domain.EffectClass.Idempotent | Domain.EffectClass.NonIdempotent =>
      Ok PlannedExecutionProfile.LocalSyncOnceOccurrenceV1
  | Domain.EffectClass.Compensatable | Domain.EffectClass.Unknown =>
      Err PlanMaterializerFailure.Rejected
  end.

(** The loop of [materialize_plan]: the accepted steps and their recipe records. *)
Fixpoint materialize_plan (materializer : M) (run_id proposal_digest : string)
    (steps : list PreparedPlanStep)
    : prog (Machine S W)
        (res PlanMaterializerFailure (list AcceptedPlanStep * list PlannedInvocationMaterialRecord)) :=
  match steps with
  | [] => Ret (Ok ([], []))
  | step :: steps =>
      let capability := PreparedPlanStep.capability step in
      let step_id := PreparedPlanStep.step_id step in
      try execution_profile := occurrence_profile (PreparedPlanStep.effect_class step) in
      try spec := map_err (λ _, PlanMaterializerFailure.Rejected)
        (PlannedInvocationSpec_new (CapabilityRef.capability_id capability)
           (CapabilityRef.contract_version capability) (PreparedPlanStep.definition_digest step)
           (PreparedPlanStep.action_digest step) (PreparedPlanStep.material_digest step)
           execution_profile OS ARCH) in
      let! reference := asks (materialize materializer
        (PlanMaterializationRequest.mk run_id step_id proposal_digest capability
           (PreparedPlanStep.normalized_arguments step) (PreparedPlanStep.material_digest step))) in
      try bound := map_err (λ _, PlanMaterializerFailure.Rejected)
        (PlannedInvocationMaterialRecord_bind run_id step_id proposal_digest spec reference) in
      let accepted := AcceptedPlanStep.mk step_id (PreparedPlanStep.objective step)
                        (PreparedPlanStep.depends_on step) bound.1 in
      let! rest := materialize_plan materializer run_id proposal_digest steps in
      Ret (Ok (accepted :: rest.1, bound.2 :: rest.2))
  end.
End materialize.
