(* ===== verification/Agent.v ===== *)
(** The agent loop (crates/xgeny-runtime/src/agent_loop.rs): one bounded tick selects the next
    frontier action or makes one planner decision, each provider call reserved in the journal
    before it is made and settled after it. *)

From S2P Require Import Prelude Program Text Wire Domain Resolution Registry Receipt DomainWire.
From S2P Require Import WorkGraphTypes WorkGraphErrors WorkGraphWire Planning Material ToolOutput.
From S2P Require Import Completion Frontier Journal StoreTypes StoreBundles MemoryStore Host.
From S2P Require Import Invocation PlanningContext Proposals.

(** ** Results *)

Module AgentLoopHead.
Record AgentLoopHead : Type := mk { sequence : N; digest : string }.
Definition from_state (state : RunState) : AgentLoopHead :=
  mk (RunState.journal_sequence state) (RunState.journal_head_digest state).
End AgentLoopHead.
Abbreviation AgentLoopHead := AgentLoopHead.AgentLoopHead.

Module AgentLoopQuiescence.
Inductive AgentLoopQuiescence : Type :=
| FailedSteps
| ManualIntervention
| UnverifiedCompletion
| BlockedDependencies
| WaitingDependencies
| ModelTurnBudgetExhausted
| ModelCallBudgetExhausted
| PlannedStepBudgetExhausted
| ToolCallBudgetExhausted
| ContextBudgetExceeded
| ContextInputLimitExceeded
| NoActionableWork.
End AgentLoopQuiescence.
Abbreviation AgentLoopQuiescence := AgentLoopQuiescence.AgentLoopQuiescence.

Module AgentLoopTick.
Inductive AgentLoopTick : Type :=
| Configured (head : AgentLoopHead)
| ModelCallLifecycleConfigured (head : AgentLoopHead)
| ActionRequired (action : FrontierAction) (head : AgentLoopHead)
| PlanAccepted (step_ids : list string) (head : AgentLoopHead)
| CompletionCandidate (candidate : CompletionCandidateState)
    (output : option CompletionOutputRecord) (newly_recorded : bool) (head : AgentLoopHead)
| Quiescent (reason : AgentLoopQuiescence) (head : AgentLoopHead)
| PlannerUnavailable (failure : PlannerPortFailure) (head : AgentLoopHead)
| ProposalRejected (reason : ProposalRejection) (head : AgentLoopHead)
| MaterializerUnavailable (failure : PlanMaterializerFailure) (head : AgentLoopHead)
| ModelCallRecoveryRequired (call_id : string) (reason : ModelCallUnknownReason)
    (newly_recorded : bool) (head : AgentLoopHead)
| ModelCallRejected (reason : ModelCallRejectionReason) (head : AgentLoopHead)
| ModelCallAbandoned (call_id : string) (head : AgentLoopHead).
End AgentLoopTick.
Abbreviation AgentLoopTick := AgentLoopTick.AgentLoopTick.

Module AgentLoopError.
Inductive AgentLoopError : Type :=
| Store (error : StoreError)
| CompletionOutput (error : CompletionOutputError)
| EventFactory (error : EventFactoryError)
| EventMetadata (error : EventMetadataError)
| Frontier (error : FrontierError)
| PlanningContract (error : PlanningContractError)
| RunNotInitialized
| LeaseRunMismatch
| BudgetMismatch
| ModelCallBudgetMismatch
| AgentLoopNotConfigured
| ModelCallLifecycleNotConfigured
| ModelCallNotActive
| ModelCallIdMismatch
| ModelCallNoLongerActive
| BudgetCounterOverflow
| InvalidPlannerRequestProfileDigest
| Canonicalization
| CapabilityCatalog
| PlanningSnapshotMismatch
| CompletionCandidateNotProjected
| CompletionOutputMissing
| CompletionOutputMismatch.
End AgentLoopError.
Abbreviation AgentLoopError := AgentLoopError.AgentLoopError.

Module ModelCallConflictIntent.
Inductive ModelCallConflictIntent : Type :=
| MarkUnknown (reason : ModelCallUnknownReason)
| RejectStale.
End ModelCallConflictIntent.
Abbreviation ModelCallConflictIntent := ModelCallConflictIntent.ModelCallConflictIntent.

(** ** The loop's configuration *)

Module AgentLoop.
Record AgentLoop : Type := mk {
  budget : AgentLoopBudget;
  model_call_budget : ModelCallBudget;
  planning_constraints : list PlanningConstraint;
}.
Definition new (budget : AgentLoopBudget) : res Empty_set AgentLoop :=
  match ModelCallBudget_new (AgentLoopBudget.max_model_turns budget) with
  | Ok model_call_budget => Ok (mk budget model_call_budget [])
  | _ => Panic "a validated AgentLoop budget has a non-zero model-turn limit"
  end.
Definition with_model_call_budget (budget : AgentLoopBudget) (model_call_budget : ModelCallBudget)
    : AgentLoop := mk budget model_call_budget [].

(** The [any] over constraints: some identifier was inserted before. *)
Fixpoint repeats_identifier (identifiers : gset string) (constraints : list PlanningConstraint) : bool :=
  match constraints with
  | [] => false
  | constraint :: constraints =>
      let id := PlanningConstraint.constraint_id constraint in
      bool_decide (id ∈ identifiers) || repeats_identifier ({[id]} ∪ identifiers) constraints
  end.

Definition with_planning_constraints (self : AgentLoop) (planning_constraints : list PlanningConstraint)
    : res PlanningConstraintError AgentLoop :=
  bail_if bool_decide (MAX_PLANNING_CONSTRAINTS < len planning_constraints)%N
    with PlanningConstraintError.TooMany;;
  bail_if repeats_identifier ∅ planning_constraints with PlanningConstraintError.DuplicateIdentifier;;
  Ok (mk (budget self) (model_call_budget self) planning_constraints).
End AgentLoop.
Abbreviation AgentLoop := AgentLoop.AgentLoop.

(** ** Reading the run *)

Definition add_attempts (total : N) (step : StepState) : res AgentLoopError N :=
  ok_or (checked_add u32_max total (StepState.attempts step)) AgentLoopError.BudgetCounterOverflow.

Definition total_tool_calls (state : RunState) : res AgentLoopError N :=
  for_each add_attempts (btree_values (RunState.steps state)) 0%N.

Definition action_would_issue_new_tool_call (state : RunState) (action : FrontierAction) : bool :=
  match FrontierAction.action action with
  | ContinuationAction.Admit | ContinuationAction.Verify => false
  | ContinuationAction.DriveEffect =>
      match RunState.steps state !! FrontierAction.step_id action with
      | Some step => bool_decide (StepState.status step = StepStatus.IntentCommitted)
      | None => false
      end
  end.

(** [!items.is_empty()]. *)
Definition nonempty {A} (items : list A) : bool := match items with [] => false | _ => true end.

Definition terminal_quiescence (frontier : WorkFrontier) : option AgentLoopQuiescence :=
  if nonempty (WorkFrontier.manual_required_step_ids frontier)
  then Some AgentLoopQuiescence.ManualIntervention
  else if nonempty (WorkFrontier.failed_step_ids frontier)
  then Some AgentLoopQuiescence.FailedSteps
  else if nonempty (WorkFrontier.unverified_completed_step_ids frontier)
  then Some AgentLoopQuiescence.UnverifiedCompletion
  else if nonempty (WorkFrontier.blocked frontier) then Some AgentLoopQuiescence.BlockedDependencies
  else if nonempty (WorkFrontier.waiting frontier) then Some AgentLoopQuiescence.WaitingDependencies
  else if bool_decide (0 < WorkFrontier.total_steps frontier)%N
          && negb (WorkFrontier.all_steps_receipt_completed frontier)
  then Some AgentLoopQuiescence.NoActionableWork
  else None.

Definition require_loop (state : RunState) : res AgentLoopError AgentLoopState :=
  ok_or (RunState.agent_loop state) AgentLoopError.AgentLoopNotConfigured.

Definition require_calls (loop_state : AgentLoopState) : res AgentLoopError ModelCallLifecycleState :=
  ok_or (AgentLoopState.model_calls loop_state) AgentLoopError.ModelCallLifecycleNotConfigured.

Definition next_turn_index (state : RunState) : res AgentLoopError N :=
  let? loop_state := require_loop state in
  ok_or (checked_add u32_max (AgentLoopState.accepted_model_turns loop_state) 1)
    AgentLoopError.BudgetCounterOverflow.

Definition PlannerRequestDigestInput (planner_id request_profile_digest context_digest : string) : Value :=
  obj (field "domain" ("xgeny.model-call-request/v1" : string)
    ++ field "plannerId" planner_id
    ++ field "requestProfileDigest" request_profile_digest
    ++ field "contextDigest" context_digest).

Definition planner_request_digest `{Crypto} (planner_id request_profile_digest context_digest : string)
    : res AgentLoopError string :=
  canonical_digest (λ _, AgentLoopError.Canonicalization)
    (PlannerRequestDigestInput planner_id request_profile_digest context_digest).

Definition valid_sha256_digest (value : string) : bool :=
  match strip_prefix "sha256:" value with
  | Some encoded => is_lower_hex64 encoded
  | None => false
  end.

(** A failed append that lost the head to another writer. *)
Definition is_head_conflict (error : AgentLoopError) : bool :=
  match error with
  | AgentLoopError.Store (StoreError.HeadConflict _ _) => true
  | _ => false
  end.

(** The event and conflict intent of each planner failure. *)
Definition failure_settlement (failure : PlannerPortFailure)
    : ModelCallUnknownReason + ModelCallRejectionReason :=
  match failure with
  | PlannerPortFailure.Timeout => inl ModelCallUnknownReason.Timeout
  | PlannerPortFailure.Unavailable => inl ModelCallUnknownReason.TransportUnavailable
  | PlannerPortFailure.InvalidResponse => inr ModelCallRejectionReason.PlannerInvalidResponse
  | PlannerPortFailure.RequestTooLarge => inr ModelCallRejectionReason.RequestTooLarge
  | PlannerPortFailure.RateLimited => inr ModelCallRejectionReason.RateLimited
  | PlannerPortFailure.OutputTruncated => inr ModelCallRejectionReason.OutputTruncated
  | PlannerPortFailure.ProviderLimit => inr ModelCallRejectionReason.ProviderLimit
  | PlannerPortFailure.ProviderRejected => inr ModelCallRejectionReason.ProviderRejected
  end.

(** ** The loop *)

Section agent.
Context {S W L R P M : Type} `{RunStore S} `{EventFactory W} `{RunLease L} `{Crypto} `{Rfc3339}.
Context `{JsonSchema} `{JsonSchemaErrors} `{ResourceResolver R} `{JsonPointer} `{Target}.
Context `{PlannerPort W P} `{PlanMaterializer W M}.
Abbreviation prog_ A := (prog (Machine S W) (res AgentLoopError A)).

Definition verify_lease (lease : L) (state : RunState) : res AgentLoopError unit :=
  bail_if bool_decide (RunLease.run_id lease ≠ RunState.run_id state)
    with AgentLoopError.LeaseRunMismatch;;
  Ok tt.

Definition create_event (state : RunState) (body : RunEventBody) : prog_ RunEvent :=
  let! metadata := pmap_err AgentLoopError.EventFactory (asks (create_metadata state)) in
  try _ := map_err AgentLoopError.EventMetadata (EventMetadata_validate metadata) in
  Ret (Ok (event_for state metadata body)).

(** [store.append(ExpectedHead::from_state(state), event)?] after [create_event]. *)
Definition append_event (state : RunState) (body : RunEventBody) : prog_ Commit :=
  let! event := create_event state body in
  pmap_err AgentLoopError.Store (writes (λ s, append s (ExpectedHead.from_state state) event)).

Definition append_model_call_unknown (state : RunState) (call_id : string)
    (reason : ModelCallUnknownReason) : prog_ Commit :=
  append_event state (RunEventBody.ModelCallBecameUnknown call_id reason).

Definition append_model_call_rejection (state : RunState) (call_id : string)
    (reason : ModelCallRejectionReason) : prog_ Commit :=
  append_event state (RunEventBody.ModelCallSettled call_id (ModelCallSettlement.Rejected reason)).

(** The lifecycle of [state], or the loop's errors. *)
Definition lifecycle_of (state : RunState) : res AgentLoopError ModelCallLifecycleState :=
  let? loop_state := require_loop state in
  require_calls loop_state.

Definition resolve_model_call_conflict (call_id : string) (intent : ModelCallConflictIntent)
    : prog_ AgentLoopTick :=
  let! current := pmap_err AgentLoopError.Store (reads load_current) in
  try current := ok_or current AgentLoopError.RunNotInitialized in
  try calls := lifecycle_of current in
  try active := ok_or (ModelCallLifecycleState.active_call calls) AgentLoopError.ModelCallNoLongerActive in
  stop_if bool_decide (ModelCallReservation.call_id (ModelCallState.reservation active) ≠ call_id)
    with AgentLoopError.ModelCallNoLongerActive;;
  match ModelCallState.status active, intent with
  | ModelCallStatus.Unknown reason, _ =>
      Ret (Ok (AgentLoopTick.ModelCallRecoveryRequired call_id reason false
                 (AgentLoopHead.from_state current)))
  | ModelCallStatus.Reserved, ModelCallConflictIntent.MarkUnknown reason =>
      let! commit := append_model_call_unknown current call_id reason in
      Ret (Ok (AgentLoopTick.ModelCallRecoveryRequired call_id reason true
                 (AgentLoopHead.from_state (Commit.state commit))))
  | ModelCallStatus.Reserved, ModelCallConflictIntent.RejectStale =>
      let! commit := append_model_call_rejection current call_id ModelCallRejectionReason.StaleHead in
      Ret (Ok (AgentLoopTick.ModelCallRejected ModelCallRejectionReason.StaleHead
                 (AgentLoopHead.from_state (Commit.state commit))))
  end.

(** The match every outcome of a call is recorded by: an append that lost the head resolves the
    conflict, any other failure is returned. *)
Definition settle (commit : prog_ Commit) (call_id : string) (intent : ModelCallConflictIntent)
    (tick : Commit → res AgentLoopError AgentLoopTick) : prog_ AgentLoopTick :=
  bind commit (λ committed,
    match committed with
    | Ok commit => Ret (tick commit)
    | Err error =>
        if is_head_conflict error then resolve_model_call_conflict call_id intent
        else Ret (Err error)
    | Panic why => Ret (Panic why)
    end).

Definition record_stale_model_call (call_id : string) : prog_ AgentLoopTick :=
  resolve_model_call_conflict call_id ModelCallConflictIntent.RejectStale.

Definition mark_model_call_unknown (state : RunState) (call_id : string)
    (reason : ModelCallUnknownReason) : prog_ AgentLoopTick :=
  settle (append_model_call_unknown state call_id reason) call_id
    (ModelCallConflictIntent.MarkUnknown reason)
    (λ commit, Ok (AgentLoopTick.ModelCallRecoveryRequired call_id reason true
                     (AgentLoopHead.from_state (Commit.state commit)))).

Definition record_planner_failure (reserved_state : RunState) (call_id : string)
    (failure : PlannerPortFailure) : prog_ AgentLoopTick :=
  let tick commit :=
    Ok (AgentLoopTick.PlannerUnavailable failure (AgentLoopHead.from_state (Commit.state commit))) in
  match failure_settlement failure with
  | inl reason =>
      settle (append_model_call_unknown reserved_state call_id reason) call_id
        (ModelCallConflictIntent.MarkUnknown reason) tick
  | inr reason =>
      settle (append_model_call_rejection reserved_state call_id reason) call_id
        ModelCallConflictIntent.RejectStale tick
  end.

Definition record_proposal_rejection (reserved_state : RunState) (call_id : string)
    (reason : ProposalRejection) : prog_ AgentLoopTick :=
  settle (append_model_call_rejection reserved_state call_id ModelCallRejectionReason.ProposalRejected)
    call_id ModelCallConflictIntent.RejectStale
    (λ commit, Ok (AgentLoopTick.ProposalRejected reason
                     (AgentLoopHead.from_state (Commit.state commit)))).

(** The candidate a commit projects. *)
Definition projected_candidate (commit : Commit) : res AgentLoopError CompletionCandidateState :=
  ok_or (loop_state ← RunState.agent_loop (Commit.state commit);
         AgentLoopState.completion_candidate loop_state)
    AgentLoopError.CompletionCandidateNotProjected.

Definition record_completion_candidate (base_state reserved_state : RunState)
    (frontier : WorkFrontier) (context : PlanningContext) (call_id summary : string)
    : prog_ AgentLoopTick :=
  if negb (WorkFrontier.all_steps_receipt_completed frontier) then
    record_proposal_rejection reserved_state call_id
      ProposalRejection.CompletionWithoutReceiptCompletedPlan
  else match validate_completion_summary_candidate summary with
  | Err _ =>
      record_proposal_rejection reserved_state call_id ProposalRejection.InvalidCompletionSummary
  | Panic why => Ret (Panic why)
  | Ok _ =>
      try turn_index := next_turn_index base_state in
      try completion_output := map_err AgentLoopError.CompletionOutput
        (CompletionOutputRecord_bind (RunState.run_id base_state) turn_index call_id
           (PlanningContext.context_digest context) summary) in
      try decision := map_err AgentLoopError.CompletionOutput
                        (CompletionOutputRecord_decision completion_output) in
      let! event := create_event reserved_state
        (RunEventBody.CompletionCandidateRecorded decision
           (CompletionOutputRecord.candidate_id completion_output)
           (CompletionOutputRecord.summary_digest completion_output)
           (Some (CompletionOutputRecord.record_digest completion_output))) in
      settle (pmap_err AgentLoopError.Store (writes (λ s, append_with_completion_output s
                (ExpectedHead.from_state reserved_state) event completion_output)))
        call_id ModelCallConflictIntent.RejectStale
        (λ commit,
           let? candidate := projected_candidate commit in
           Ok (AgentLoopTick.CompletionCandidate candidate (Some completion_output) true
                 (AgentLoopHead.from_state (Commit.state commit))))
  end.

(** The [Plan] arm of [handle_proposal], once the plan is materialized. *)
Definition accept_plan (base_state reserved_state : RunState) (context : PlanningContext)
    (call_id proposal_digest : string) (accepted_steps : list AcceptedPlanStep)
    (inputs : list PlannedInvocationMaterialRecord) : prog_ AgentLoopTick :=
  try turn_index := next_turn_index base_state in
  try decision := map_err AgentLoopError.PlanningContract
    (ExpectedPlanningTurn_for_model_call turn_index call_id
       (PlanningContext.context_digest context) proposal_digest) in
  let step_ids := map AcceptedPlanStep.step_id accepted_steps in
  let! event := create_event reserved_state (RunEventBody.PlanAccepted decision accepted_steps) in
  settle (pmap_err AgentLoopError.Store (writes (λ s, append_with_plan_inputs s
            (ExpectedHead.from_state reserved_state) event inputs)))
    call_id ModelCallConflictIntent.RejectStale
    (λ commit, Ok (AgentLoopTick.PlanAccepted step_ids
                     (AgentLoopHead.from_state (Commit.state commit)))).

Definition handle_proposal (self : AgentLoop) (capabilities : CapabilityRegistry) (resolver : R)
    (materializer : M) (base_state reserved_state : RunState) (frontier : WorkFrontier)
    (context : PlanningContext) (call_id : string) (proposal : PlanProposal) (tool_calls : N)
    : prog_ AgentLoopTick :=
  match proposal with
  | PlanProposal.CompletionCandidate summary =>
      record_completion_candidate base_state reserved_state frontier context call_id summary
  | PlanProposal.Plan steps =>
      if bool_decide (AgentLoopBudget.max_tool_calls (AgentLoop.budget self) ≤ tool_calls)%N then
        record_proposal_rejection reserved_state call_id ProposalRejection.ToolCallBudgetExhausted
      else match prepare_plan base_state frontier context capabilities resolver
                   (AgentLoop.budget self) steps with
      | Err reason => record_proposal_rejection reserved_state call_id reason
      | Panic why => Ret (Panic why)
      | Ok prepared =>
          let proposal_digest := PreparedPlan.proposal_digest prepared in
          bind (materialize_plan materializer (RunState.run_id base_state) proposal_digest
                  (PreparedPlan.steps prepared)) (λ materialized,
            match materialized with
            | Ok accepted =>
                accept_plan base_state reserved_state context call_id proposal_digest
                  accepted.1 accepted.2
            | Err failure =>
                settle (append_model_call_rejection reserved_state call_id
                          ModelCallRejectionReason.MaterializationFailed)
                  call_id ModelCallConflictIntent.RejectStale
                  (λ commit, Ok (AgentLoopTick.MaterializerUnavailable failure
                                   (AgentLoopHead.from_state (Commit.state commit))))
            | Panic why => Ret (Panic why)
            end)
      end
  end.

Definition configure (self : AgentLoop) (state : RunState) : prog_ AgentLoopTick :=
  let! commit := append_event state (RunEventBody.AgentLoopConfigured (AgentLoop.budget self)) in
  Ret (Ok (AgentLoopTick.Configured (AgentLoopHead.from_state (Commit.state commit)))).

Definition configure_model_call_lifecycle (self : AgentLoop) (state : RunState)
    : prog_ AgentLoopTick :=
  let! commit := append_event state
    (RunEventBody.ModelCallLifecycleConfigured (AgentLoop.model_call_budget self)) in
  Ret (Ok (AgentLoopTick.ModelCallLifecycleConfigured
             (AgentLoopHead.from_state (Commit.state commit)))).

(** ** A tick, in the order of its early returns *)

Definition quiescent (state : RunState) (reason : AgentLoopQuiescence) : prog_ AgentLoopTick :=
  Ret (Ok (AgentLoopTick.Quiescent reason (AgentLoopHead.from_state state))).

(** The arm for an active call: one still reserved was interrupted. *)
Definition recover_active_call (state : RunState) (active : ModelCallState) : prog_ AgentLoopTick :=
  let call_id := ModelCallReservation.call_id (ModelCallState.reservation active) in
  match ModelCallState.status active with
  | ModelCallStatus.Reserved =>
      mark_model_call_unknown state call_id ModelCallUnknownReason.Interrupted
  | ModelCallStatus.Unknown reason =>
      Ret (Ok (AgentLoopTick.ModelCallRecoveryRequired call_id reason false
                 (AgentLoopHead.from_state state)))
  end.

(** The output of a recorded candidate, read back and checked against it. *)
Definition checked_completion_output (state : RunState) (candidate : CompletionCandidateState)
    (expected_record_digest : string) (output : CompletionOutputRecord)
    : res AgentLoopError CompletionOutputRecord :=
  let? decision := map_err AgentLoopError.CompletionOutput (CompletionOutputRecord_decision output) in
  let? _ := map_err AgentLoopError.CompletionOutput
    (CompletionOutputRecord_verify_for output (RunState.run_id state) decision
       (CompletionCandidateState.candidate_id candidate)
       (CompletionCandidateState.summary_digest candidate)) in
  bail_if bool_decide (CompletionOutputRecord.record_digest output ≠ expected_record_digest)
          || bool_decide (CompletionOutputRecord.context_digest output
                          ≠ CompletionCandidateState.context_digest candidate)
          || bool_decide (CompletionOutputRecord.proposal_digest output
                          ≠ CompletionCandidateState.proposal_digest candidate)
    with AgentLoopError.CompletionOutputMismatch;;
  Ok output.

Definition report_candidate (state : RunState) (candidate : CompletionCandidateState)
    : prog_ AgentLoopTick :=
  let tick output :=
    AgentLoopTick.CompletionCandidate candidate output false (AgentLoopHead.from_state state) in
  match CompletionCandidateState.completion_output_record_digest candidate with
  | None => Ret (Ok (tick None))
  | Some expected_record_digest =>
      let! output := pmap_err AgentLoopError.Store
        (reads (λ s, load_completion_output s (ExpectedHead.from_state state)
                       (CompletionCandidateState.candidate_id candidate))) in
      try output := ok_or output AgentLoopError.CompletionOutputMissing in
      try output := checked_completion_output state candidate expected_record_digest output in
      Ret (Ok (tick (Some output)))
  end.

(** The budgets a new planner call is held to, in order. *)
Definition exhausted_budget (state : RunState) (frontier : WorkFrontier)
    (capabilities : CapabilityRegistry) (loop_state : AgentLoopState)
    (model_calls : ModelCallLifecycleState) : option AgentLoopQuiescence :=
  let budget := AgentLoopState.budget loop_state in
  match terminal_quiescence frontier with
  | Some reason => Some reason
  | None =>
      if bool_decide (AgentLoopBudget.max_model_turns budget
                      ≤ AgentLoopState.accepted_model_turns loop_state)%N
      then Some AgentLoopQuiescence.ModelTurnBudgetExhausted
      else if bool_decide (ModelCallBudget.max_model_calls (ModelCallLifecycleState.budget model_calls)
                           ≤ ModelCallLifecycleState.reserved_calls model_calls)%N
      then Some AgentLoopQuiescence.ModelCallBudgetExhausted
      else if bool_decide (AgentLoopBudget.max_planned_steps budget
                           ≤ N.of_nat (size (RunState.steps state)))%N
              && negb (WorkFrontier.all_steps_receipt_completed frontier)
      then Some AgentLoopQuiescence.PlannedStepBudgetExhausted
      else if negb (planning_context_preflight state capabilities)
      then Some AgentLoopQuiescence.ContextInputLimitExceeded
      else None
  end.

(** The reservation of the next planner call. *)
Definition reserve_call (planner : P) (state : RunState) (context : PlanningContext)
    (model_calls : ModelCallLifecycleState) (w : W) : res AgentLoopError ModelCallReservation :=
  let planner_id := planner_id planner w in
  let request_profile_digest := request_profile_digest planner w in
  bail_if negb (valid_sha256_digest request_profile_digest)
    with AgentLoopError.InvalidPlannerRequestProfileDigest;;
  let? request_digest := planner_request_digest planner_id request_profile_digest
                           (PlanningContext.context_digest context) in
  let? call_index :=
    ok_or (checked_add u32_max (ModelCallLifecycleState.reserved_calls model_calls) 1)
      AgentLoopError.BudgetCounterOverflow in
  let? turn_index := next_turn_index state in
  map_err AgentLoopError.PlanningContract
    (ModelCallReservation_new (RunState.run_id state) (RunState.authority_epoch state) planner_id
       call_index turn_index (RunState.journal_sequence state) (RunState.journal_head_digest state)
       (PlanningContext.context_digest context) request_digest).

(** Reserve a call, make it, and record what came of it. *)
Definition call_planner (self : AgentLoop) (capabilities : CapabilityRegistry) (resolver : R)
    (planner : P) (materializer : M) (state : RunState) (frontier : WorkFrontier)
    (context : PlanningContext) (model_calls : ModelCallLifecycleState) (tool_calls : N)
    : prog_ AgentLoopTick :=
  let! reservation := asks (λ w, (reserve_call planner state context model_calls w, w)) in
  let! reserved := append_event state (RunEventBody.ModelCallReserved reservation) in
  let reserved_state := Commit.state reserved in
  let call_id := ModelCallReservation.call_id reservation in
  let request := PlannerCallRequest.mk call_id (ModelCallReservation.request_digest reservation)
                   context in
  bind (asks (plan planner request)) (λ answer,
    match answer with
    | Ok proposal =>
        handle_proposal self capabilities resolver materializer state reserved_state frontier
          context call_id proposal tool_calls
    | Err failure => record_planner_failure reserved_state call_id failure
    | Panic why => Ret (Panic why)
    end).

(** What a failed context build makes of the tick. *)
Definition context_failure (state : RunState) (error : ContextBuildError)
    : res AgentLoopError AgentLoopTick :=
  match error with
  | ContextBuildError.BudgetExceeded =>
      Ok (AgentLoopTick.Quiescent AgentLoopQuiescence.ContextBudgetExceeded
            (AgentLoopHead.from_state state))
  | ContextBuildError.InputLimitExceeded =>
      Ok (AgentLoopTick.Quiescent AgentLoopQuiescence.ContextInputLimitExceeded
            (AgentLoopHead.from_state state))
  | ContextBuildError.Canonicalization => Err AgentLoopError.Canonicalization
  | ContextBuildError.Catalog => Err AgentLoopError.CapabilityCatalog
  | ContextBuildError.OutputBinding => Err AgentLoopError.PlanningSnapshotMismatch
  end.

(** Read the planning snapshot, build the context and call the planner with it. *)
Definition plan_turn (self : AgentLoop) (capabilities : CapabilityRegistry) (resolver : R)
    (planner : P) (materializer : M) (state : RunState) (frontier : WorkFrontier)
    (loop_state : AgentLoopState) (model_calls : ModelCallLifecycleState) (tool_calls : N)
    : prog_ AgentLoopTick :=
  let budget := AgentLoopState.budget loop_state in
  bind (reads (λ s, load_planning_snapshot s (ExpectedHead.from_state state)
                 (N.min (AgentLoopBudget.max_context_bytes budget) MAX_PLANNING_CONTEXT_BYTES)))
    (λ snapshot,
      match snapshot with
      | Ok None => Ret (Err AgentLoopError.RunNotInitialized)
      | Err StoreError.PlanningSnapshotBudgetExceeded =>
          quiescent state AgentLoopQuiescence.ContextBudgetExceeded
      | Err error => Ret (Err (AgentLoopError.Store error))
      | Panic why => Ret (Panic why)
      | Ok (Some snapshot) =>
          stop_if bool_decide (RunPlanningSnapshot.state snapshot ≠ state)
            with AgentLoopError.PlanningSnapshotMismatch;;
          match build_context_ordered state (RunPlanningSnapshot.completed_tool_outputs snapshot)
                  (RunPlanningSnapshot.planning_step_order snapshot)
                  (RunPlanningSnapshot.completed_tool_output_order snapshot)
                  frontier capabilities (AgentLoop.planning_constraints self) budget with
          | Ok context =>
              call_planner self capabilities resolver planner materializer state frontier context
                model_calls tool_calls
          | Err error => Ret (context_failure state error)
          | Panic why => Ret (Panic why)
          end
      end).

(** The tick of a configured run. *)
Definition advance (self : AgentLoop) (capabilities : CapabilityRegistry) (resolver : R)
    (planner : P) (materializer : M) (state : RunState) (loop_state : AgentLoopState)
    (model_calls : ModelCallLifecycleState) : prog_ AgentLoopTick :=
  try frontier := map_err AgentLoopError.Frontier (derive_frontier state) in
  try tool_calls := total_tool_calls state in
  match WorkFrontier.next_action frontier with
  | Some action =>
      if action_would_issue_new_tool_call state action
         && bool_decide (AgentLoopBudget.max_tool_calls (AgentLoopState.budget loop_state)
                         ≤ tool_calls)%N
      then quiescent state AgentLoopQuiescence.ToolCallBudgetExhausted
      else Ret (Ok (AgentLoopTick.ActionRequired action (AgentLoopHead.from_state state)))
  | None =>
      match ModelCallLifecycleState.active_call model_calls,
            AgentLoopState.completion_candidate loop_state with
      | Some active, _ => recover_active_call state active
      | None, Some candidate => report_candidate state candidate
      | None, None =>
          match exhausted_budget state frontier capabilities loop_state model_calls with
          | Some reason => quiescent state reason
          | None => plan_turn self capabilities resolver planner materializer state frontier
                      loop_state model_calls tool_calls
          end
      end
  end.

Definition tick (self : AgentLoop) (lease : L) (capabilities : CapabilityRegistry) (resolver : R)
    (planner : P) (materializer : M) : prog_ AgentLoopTick :=
  let! state := pmap_err AgentLoopError.Store (reads load_current) in
  try state := ok_or state AgentLoopError.RunNotInitialized in
  try _ := verify_lease lease state in
  match RunState.agent_loop state with
  | None => configure self state
  | Some loop_state =>
      stop_if bool_decide (AgentLoopState.budget loop_state ≠ AgentLoop.budget self)
        with AgentLoopError.BudgetMismatch;;
      match AgentLoopState.model_calls loop_state with
      | None => configure_model_call_lifecycle self state
      | Some model_calls =>
          stop_if bool_decide (ModelCallLifecycleState.budget model_calls
                               ≠ AgentLoop.model_call_budget self)
            with AgentLoopError.ModelCallBudgetMismatch;;
          advance self capabilities resolver planner materializer state loop_state model_calls
      end
  end.

Definition abandon_model_call (self : AgentLoop) (lease : L) (call_id : string)
    : prog_ AgentLoopTick :=
  let! state := pmap_err AgentLoopError.Store (reads load_current) in
  try state := ok_or state AgentLoopError.RunNotInitialized in
  try _ := verify_lease lease state in
  try loop_state := require_loop state in
  stop_if bool_decide (AgentLoopState.budget loop_state ≠ AgentLoop.budget self)
    with AgentLoopError.BudgetMismatch;;
  try lifecycle := require_calls loop_state in
  stop_if bool_decide (ModelCallLifecycleState.budget lifecycle ≠ AgentLoop.model_call_budget self)
    with AgentLoopError.ModelCallBudgetMismatch;;
  try active := ok_or (ModelCallLifecycleState.active_call lifecycle)
                  AgentLoopError.ModelCallNotActive in
  stop_if bool_decide (ModelCallReservation.call_id (ModelCallState.reservation active) ≠ call_id)
    with AgentLoopError.ModelCallIdMismatch;;
  let! commit := append_event state
    (RunEventBody.ModelCallSettled call_id
       (ModelCallSettlement.Abandoned ModelCallAbandonmentReason.RecoveryDiscarded)) in
  Ret (Ok (AgentLoopTick.ModelCallAbandoned call_id (AgentLoopHead.from_state (Commit.state commit)))).
End agent.
