(* ===== verification/Driver.v ===== *)
(** The bounded coordinator of a run (crates/xgeny-cli/src/driver.rs): ticks of the agent loop,
    each frontier action admitted, executed or verified, until someone else has to act. *)

From S2P Require Import Prelude Program Text Wire Domain Resolution Broker Registry Router.
From S2P Require Import DomainWire.
From S2P Require Import WorkGraphTypes WorkGraphErrors Planning Material Completion Frontier Journal.
From S2P Require Import Receipt StoreTypes StoreBundles MemoryStore Host Invocation Admission Recovery.
From S2P Require Import Adapters DurableRuntime Verification Executor PlanningContext Proposals Agent.

(** ** The host's decisions *)

Module PlannedRouteFailure.
Inductive PlannedRouteFailure : Type := Unavailable | Rejected.
End PlannedRouteFailure.
Abbreviation PlannedRouteFailure := PlannedRouteFailure.PlannedRouteFailure.

(** [trait PlannedRoutePort], for ports of type [RP]. *)
Class PlannedRoutePort (W RP : Type) : Type :=
  route_for : RP → RunState → string → W → res PlannedRouteFailure RouteRequest * W.

Module ApprovalDecision.
Inductive ApprovalDecision : Type :=
| Approved (policy_inputs : PolicyInputs)
| Denied
| Pending.
End ApprovalDecision.
Abbreviation ApprovalDecision := ApprovalDecision.ApprovalDecision.

Module ApprovalPortFailure.
Inductive ApprovalPortFailure : Type := Unavailable | InvalidResponse.
End ApprovalPortFailure.
Abbreviation ApprovalPortFailure := ApprovalPortFailure.ApprovalPortFailure.

(** [trait ApprovalPort], for ports of type [AP]. *)
Class ApprovalPort (W AP : Type) : Type :=
  decide_request : AP → ResolvedPermissionRequest → W → res ApprovalPortFailure ApprovalDecision * W.

(** ** Outcomes and progress *)

Module DriverOutcome.
Inductive DriverOutcome : Type :=
| CompletionCandidate (candidate : CompletionCandidateState) (output : option CompletionOutputRecord)
| Quiescent (reason : AgentLoopQuiescence)
| ApprovalPending (step_id : string) (effect_class : Domain.EffectClass)
| ApprovalDenied (step_id : string)
| AdmissionNotAuthorized (step_id : string) (outcome : RouteOutcome)
| PlannerUnavailable (failure : PlannerPortFailure)
| ProposalRejected (reason : ProposalRejection)
| MaterializerUnavailable (failure : PlanMaterializerFailure)
| ModelCallRecoveryRequired (call_id : string) (reason : ModelCallUnknownReason)
| ModelCallRejected (reason : ModelCallRejectionReason)
| ModelEgressRequired
| Cancelled
| TickBudgetExhausted.
End DriverOutcome.
Abbreviation DriverOutcome := DriverOutcome.DriverOutcome.

Module DriverProgress.
Inductive DriverProgress : Type :=
| ModelCallStarting
| PlanCommitted
| ApprovalRequired (effect_class : Domain.EffectClass)
| ActionAuthorized (effect_class : Domain.EffectClass)
| EffectStarting (effect_class : Domain.EffectClass)
| EffectCommitted (effect_class : Domain.EffectClass)
| VerificationStarting
| VerificationCommitted
| CompletionCommitted.
End DriverProgress.
Abbreviation DriverProgress := DriverProgress.DriverProgress.

Module DriverProgressControl.
Inductive DriverProgressControl : Type := Continue | Cancel.
End DriverProgressControl.
Abbreviation DriverProgressControl := DriverProgressControl.DriverProgressControl.

(** [FnMut(DriverProgress) -> DriverProgressControl], for observers of type [OB]. *)
Class ProgressObserver (W OB : Type) : Type :=
  observe : OB → DriverProgress → W → DriverProgressControl * W.

(** [|_| DriverProgressControl::Continue]. *)
#[export] Instance continuing_observer {W} : ProgressObserver W unit :=
  λ _ _ w, (DriverProgressControl.Continue, w).

Module RunDriverError.
Inductive RunDriverError : Type :=
| Store (error : StoreError)
| AgentLoop (error : AgentLoopError)
| MaterialRecovery (error : MaterialRecoveryError)
| Admission (error : AdmissionError)
| Executor (error : DirectExecutorError)
| Verification (error : VerificationRunnerError)
| Frontier (error : FrontierError)
| Route (error : PlannedRouteFailure)
| Approval (error : ApprovalPortFailure)
| RunNotInitialized
| StepNotFound (step_id : string).
End RunDriverError.
Abbreviation RunDriverError := RunDriverError.RunDriverError.

(** The executor is its policy; the verification runner has no state. *)
Module RunDriver.
Record RunDriver : Type := mk {
  agent_loop : AgentLoop;
  executor : RuntimePolicy;
  max_ticks : N;
}.
Definition new (agent_loop : AgentLoop) (max_ticks : N) : RunDriver :=
  mk agent_loop RuntimePolicy.default max_ticks.
Definition with_executor (self : RunDriver) (executor : RuntimePolicy) : RunDriver :=
  mk (agent_loop self) executor (max_ticks self).
End RunDriver.
Abbreviation RunDriver := RunDriver.RunDriver.

Definition domain_effect_class (effect_class : WorkGraphTypes.EffectClass) : Domain.EffectClass :=
  match effect_class with
  | WorkGraphTypes.EffectClass.ReadOnly => Domain.EffectClass.ReadOnly
  | WorkGraphTypes.EffectClass.Reversible => Domain.EffectClass.Compensatable
  | WorkGraphTypes.EffectClass.Idempotent => Domain.EffectClass.Idempotent
  | WorkGraphTypes.EffectClass.NonIdempotent => Domain.EffectClass.NonIdempotent
  end.

(** What the frontier of a configured run lets the loop do next. *)
Definition frontier_allows_call (agent : AgentLoopState) (model_calls : ModelCallLifecycleState)
    (frontier : WorkFrontier) : bool :=
  negb (bool_decide (is_Some (WorkFrontier.next_action frontier))
        || nonempty (WorkFrontier.failed_step_ids frontier)
        || nonempty (WorkFrontier.manual_required_step_ids frontier)
        || bool_decide (AgentLoopBudget.max_model_turns (AgentLoopState.budget agent)
                        ≤ AgentLoopState.accepted_model_turns agent)%N
        || bool_decide (ModelCallBudget.max_model_calls (ModelCallLifecycleState.budget model_calls)
                        ≤ ModelCallLifecycleState.reserved_calls model_calls)%N).

Definition call_may_be_next (state : option RunState) : res RunDriverError bool :=
  match state with
  | None => Ok false
  | Some state =>
      match RunState.agent_loop state with
      | None => Ok false
      | Some agent =>
          match AgentLoopState.model_calls agent with
          | None => Ok false
          | Some model_calls =>
              if bool_decide (is_Some (ModelCallLifecycleState.active_call model_calls))
                 || bool_decide (is_Some (AgentLoopState.completion_candidate agent))
              then Ok false
              else
                let? frontier := map_err RunDriverError.Frontier (derive_frontier state) in
                Ok (frontier_allows_call agent model_calls frontier)
          end
      end
  end.

(** The status and the effect class of the step to drive. *)
Definition driven_step (state : RunState) (step_id : string)
    : res RunDriverError (StepStatus * Domain.EffectClass) :=
  let? step := ok_or (RunState.steps state !! step_id) (RunDriverError.StepNotFound step_id) in
  let? effect_class :=
    ok_or ((λ intent, domain_effect_class (EffectIntent.effect_class intent)) <$> StepState.intent step)
      (RunDriverError.StepNotFound step_id) in
  Ok (StepState.status step, effect_class).

Section driver.
Context {S W L A I V P R PL MT RP AP OB : Type} `{RunStore S} `{EventFactory W} `{RunLease L}.
Context `{EffectAdapter W A I} `{EffectVerifier W V} `{InvocationMaterialProvider W P}.
Context `{Crypto} `{JsonSchema} `{JsonSchemaErrors} `{JsonPointer} `{PolicyDecisionSchema} `{Target}.
Context `{ReceiptSchema} `{Rfc3339} `{ResourceResolver R} `{PlannerPort W PL} `{PlanMaterializer W MT}.
Context `{PlannedRoutePort W RP} `{ApprovalPort W AP} `{ProgressObserver W OB}.
Abbreviation prog_ A := (prog (Machine S W) (res RunDriverError A)).

Definition model_call_may_be_next : prog_ bool :=
  let! state := pmap_err RunDriverError.Store (reads load_current) in
  Ret (call_may_be_next state).

(** Tell the observer; [Some] outcome if it cancels. *)
Definition announce_progress (observer : OB) (progress : DriverProgress) : prog_ (option DriverOutcome) :=
  bind (asks (observe observer progress)) (λ control,
    Ret (Ok match control with
            | DriverProgressControl.Cancel => Some DriverOutcome.Cancelled
            | DriverProgressControl.Continue => None
            end)).

(** Go on unless an outcome stops the drive. *)
Definition unless_stopped (p : prog_ (option DriverOutcome)) (k : prog_ (option DriverOutcome))
    : prog_ (option DriverOutcome) :=
  let! stop := p in
  match stop with Some outcome => Ret (Ok (Some outcome)) | None => k end.

Section drive.
Context (self : RunDriver) (lease : L) (capabilities : CapabilityRegistry) (resolver : R).
Context (planner : PL) (materializer : MT) (providers : MaterialProviderRegistry P).
Context (adapters : EffectAdapterRegistry A) (verifiers : EffectVerifierRegistry V).
Context (routes : RP) (approvals : AP) (model_egress_allowed : bool) (observer : OB).

Definition load_run : prog_ RunState :=
  let! state := pmap_err RunDriverError.Store (reads load_current) in
  Ret (ok_or state RunDriverError.RunNotInitialized).

(** [ApprovalDecision::Approved]. *)
Definition admit_approved (step_id : string) (pending : PendingInvocation) (policy_inputs : PolicyInputs)
    : prog_ (option DriverOutcome) :=
  let effect_class :=
    ResolvedPermissionRequest.effect_class (PendingInvocation.permission_request pending) in
  let! outcome := pmap_err RunDriverError.Admission
    (authorize_and_commit pending policy_inputs capabilities lease) in
  match outcome with
  | AdmissionOutcome.Authorized _ =>
      announce_progress observer (DriverProgress.ActionAuthorized effect_class)
  | AdmissionOutcome.NotAuthorized outcome =>
      Ret (Ok (Some (DriverOutcome.AdmissionNotAuthorized step_id outcome)))
  end.

Definition admit_step (step_id : string) : prog_ (option DriverOutcome) :=
  let! state := load_run in
  let! route := pmap_err RunDriverError.Route (asks (route_for routes state step_id)) in
  let! pending := pmap_err RunDriverError.MaterialRecovery
    (prepare_planned_admission lease capabilities resolver providers
       (PlannedAdmissionRequest.new step_id route)) in
  let request := PendingInvocation.permission_request pending in
  let! decision := pmap_err RunDriverError.Approval (asks (decide_request approvals request)) in
  match decision with
  | ApprovalDecision.Pending =>
      let effect_class := ResolvedPermissionRequest.effect_class request in
      let! _ := announce_progress observer (DriverProgress.ApprovalRequired effect_class) in
      Ret (Ok (Some (DriverOutcome.ApprovalPending step_id effect_class)))
  | ApprovalDecision.Denied => Ret (Ok (Some (DriverOutcome.ApprovalDenied step_id)))
  | ApprovalDecision.Approved policy_inputs => admit_approved step_id pending policy_inputs
  end.

(** Recover the material of a committed intent and execute it; drive any other effect without. *)
Definition execute_effect (status : StepStatus) (step_id : string) : prog_ DriveReport :=
  if bool_decide (status = StepStatus.IntentCommitted) then
    let! material := pmap_err RunDriverError.MaterialRecovery
      (recover lease capabilities resolver providers step_id) in
    pmap_err RunDriverError.Executor
      (Executor.drive_step (RunDriver.executor self) lease capabilities adapters step_id (Some material))
  else
    pmap_err RunDriverError.Executor
      (Executor.drive_step (RunDriver.executor self) lease capabilities adapters step_id None).

Definition drive_effect (step_id : string) : prog_ (option DriverOutcome) :=
  let! state := load_run in
  try found := driven_step state step_id in
  unless_stopped (announce_progress observer (DriverProgress.EffectStarting found.2))
    (let! _ := execute_effect found.1 step_id in
     announce_progress observer (DriverProgress.EffectCommitted found.2)).

Definition verify (step_id : string) : prog_ (option DriverOutcome) :=
  unless_stopped (announce_progress observer DriverProgress.VerificationStarting)
    (let! _ := pmap_err RunDriverError.Verification
                 (Verification.drive_step lease capabilities verifiers step_id) in
     announce_progress observer DriverProgress.VerificationCommitted).

(** The match on a tick: [None] to go on. *)
Definition act_on (tick : AgentLoopTick) : prog_ (option DriverOutcome) :=
  match tick with
  | AgentLoopTick.Configured _ | AgentLoopTick.ModelCallLifecycleConfigured _
  | AgentLoopTick.ModelCallAbandoned _ _ => Ret (Ok None)
  | AgentLoopTick.PlanAccepted _ _ => announce_progress observer DriverProgress.PlanCommitted
  | AgentLoopTick.ActionRequired action _ =>
      let step_id := FrontierAction.step_id action in
      match FrontierAction.action action with
      | ContinuationAction.Admit => admit_step step_id
      | ContinuationAction.DriveEffect => drive_effect step_id
      | ContinuationAction.Verify => verify step_id
      end
  | AgentLoopTick.CompletionCandidate candidate output _ _ =>
      let! _ := announce_progress observer DriverProgress.CompletionCommitted in
      Ret (Ok (Some (DriverOutcome.CompletionCandidate candidate output)))
  | AgentLoopTick.Quiescent reason _ => Ret (Ok (Some (DriverOutcome.Quiescent reason)))
  | AgentLoopTick.PlannerUnavailable failure _ =>
      Ret (Ok (Some (DriverOutcome.PlannerUnavailable failure)))
  | AgentLoopTick.ProposalRejected reason _ => Ret (Ok (Some (DriverOutcome.ProposalRejected reason)))
  | AgentLoopTick.MaterializerUnavailable failure _ =>
      Ret (Ok (Some (DriverOutcome.MaterializerUnavailable failure)))
  | AgentLoopTick.ModelCallRecoveryRequired call_id reason _ _ =>
      Ret (Ok (Some (DriverOutcome.ModelCallRecoveryRequired call_id reason)))
  | AgentLoopTick.ModelCallRejected reason _ => Ret (Ok (Some (DriverOutcome.ModelCallRejected reason)))
  end.

(** Before a tick that may call the model: the host's consent and the observer's. *)
Definition before_tick (may_call : bool) : prog_ (option DriverOutcome) :=
  if may_call then
    if negb model_egress_allowed then Ret (Ok (Some DriverOutcome.ModelEgressRequired))
    else announce_progress observer DriverProgress.ModelCallStarting
  else Ret (Ok None).

(** One pass of the loop. *)
Definition drive_tick : prog_ (option DriverOutcome) :=
  let! may_call := model_call_may_be_next in
  unless_stopped (before_tick may_call)
    (let! tick := pmap_err RunDriverError.AgentLoop
       (tick (RunDriver.agent_loop self) lease capabilities resolver planner materializer) in
     act_on tick).

Fixpoint drive_ticks (ticks : nat) : prog_ DriverOutcome :=
  match ticks with
  | O => Ret (Ok DriverOutcome.TickBudgetExhausted)
  | Datatypes.S ticks =>
      let! stop := drive_tick in
      match stop with Some outcome => Ret (Ok outcome) | None => drive_ticks ticks end
  end.

Definition drive_until_pause_with_model_egress_observed : prog_ DriverOutcome :=
  drive_ticks (N.to_nat (RunDriver.max_ticks self)).
End drive.
End driver.

(** The entry points without an observer. *)
Section unobserved.
Context {S W L A I V P R PL MT RP AP : Type} `{RunStore S} `{EventFactory W} `{RunLease L}.
Context `{EffectAdapter W A I} `{EffectVerifier W V} `{InvocationMaterialProvider W P}.
Context `{Crypto} `{JsonSchema} `{JsonSchemaErrors} `{JsonPointer} `{PolicyDecisionSchema} `{Target}.
Context `{ReceiptSchema} `{Rfc3339} `{ResourceResolver R} `{PlannerPort W PL} `{PlanMaterializer W MT}.
Context `{PlannedRoutePort W RP} `{ApprovalPort W AP}.

Definition drive_until_pause_with_model_egress (self : RunDriver) (lease : L)
    (capabilities : CapabilityRegistry) (resolver : R) (planner : PL) (materializer : MT)
    (providers : MaterialProviderRegistry P) (adapters : EffectAdapterRegistry A)
    (verifiers : EffectVerifierRegistry V) (routes : RP) (approvals : AP) (model_egress_allowed : bool)
    : prog (Machine S W) (res RunDriverError DriverOutcome) :=
  drive_until_pause_with_model_egress_observed self lease capabilities resolver planner materializer
    providers adapters verifiers routes approvals model_egress_allowed tt.

Definition drive_until_pause (self : RunDriver) (lease : L) (capabilities : CapabilityRegistry)
    (resolver : R) (planner : PL) (materializer : MT) (providers : MaterialProviderRegistry P)
    (adapters : EffectAdapterRegistry A) (verifiers : EffectVerifierRegistry V) (routes : RP)
    (approvals : AP) : prog (Machine S W) (res RunDriverError DriverOutcome) :=
  drive_until_pause_with_model_egress self lease capabilities resolver planner materializer providers
    adapters verifiers routes approvals true.
End unobserved.
