(* ===== verification/Workspace.v ===== *)
(** The filesystem adapter (crates/xgeny-adapter-filesystem/src): portable workspace paths and their
    resolver, exact contextual edits, and the adapters and verifiers that read, write and patch one
    text file through a directory capability.

    [cap_std] directories and files are the class [Directory], one operation per call; the code
    that is compiled on Unix is modelled, on which no metadata is a Windows reparse point. *)

From Stdlib Require Import Ascii.
From S2P Require Import Prelude Program Text Wire Domain Receipt Resolution Registry WorkGraphTypes.
From S2P Require Import Planning Material ToolOutput Adapters Verification.

(** ** [str] *)

(** [str::split] on an ASCII character. *)
Fixpoint split (c : ascii) (s : string) : list string :=
  match s with
  | EmptyString => [EmptyString]
  | String a s' =>
      if bool_decide (a = c) then EmptyString :: split c s'
      else match split c s' with
           | first :: rest => String a first :: rest
           | [] => [String a EmptyString]
           end
  end.

(** [[String]::join]. *)
Fixpoint join (separator : string) (l : list string) : string :=
  match l with
  | [] => EmptyString
  | [s] => s
  | s :: l' => s +:+ separator +:+ join separator l'
  end.

(** [str::find]: the byte offset of the first occurrence. *)
Fixpoint find (s needle : string) : option nat :=
  match strip_prefix needle s with
  | Some _ => Some 0
  | None => match s with
            | EmptyString => None
            | String _ s' => S <$> find s' needle
            end
  end.
Definition contains (s needle : string) : bool := bool_decide (is_Some (find s needle)).

Fixpoint take_bytes (n : nat) (s : string) : string :=
  match n, s with
  | S n', String a s' => String a (take_bytes n' s')
  | _, _ => EmptyString
  end.
Fixpoint drop_bytes (n : nat) (s : string) : string :=
  match n, s with
  | S n', String _ s' => drop_bytes n' s'
  | _, _ => s
  end.

(** A byte in the middle of a character. *)
Definition is_continuation (a : ascii) : bool := bool_decide (128 ≤ N_of_ascii a < 192)%N.

(** [str::is_char_boundary]. *)
Definition is_char_boundary (s : string) (index : nat) : bool :=
  match drop_bytes index s with
  | EmptyString => bool_decide (index = String.length s)
  | String a _ => bool_decide (index = 0) || negb (is_continuation a)
  end.

(** The bytes of the character that starts with [a]. *)
Definition char_width (a : ascii) : nat :=
  let b := N_of_ascii a in
  if bool_decide (b < 128)%N then 1
  else if bool_decide (b < 224)%N then 2
  else if bool_decide (b < 240)%N then 3
  else 4.

(** [String::replace_range], which panics outside the string and inside a character. *)
Definition replace_range {E} (s : string) (start end_ : nat) (with_ : string) : res E string :=
  if bool_decide (start ≤ end_ ≤ String.length s) && is_char_boundary s start && is_char_boundary s end_
  then Ok (take_bytes start s +:+ with_ +:+ drop_bytes end_ s)
  else Panic "replace_range out of range".

Definition byte_in (lo hi : N) (a : ascii) : bool := bool_decide (lo ≤ N_of_ascii a ≤ hi)%N.

(** [String::from_utf8] succeeds: well-formed UTF-8. *)
Fixpoint utf8_valid (s : string) : bool :=
  match s with
  | EmptyString => true
  | String a s1 =>
      let b := N_of_ascii a in
      if bool_decide (b < 128)%N then utf8_valid s1
      else if byte_in 194 223 a then
        match s1 with
        | String c s2 => byte_in 128 191 c && utf8_valid s2
        | _ => false
        end
      else if byte_in 224 239 a then
        match s1 with
        | String c (String d s3) =>
            byte_in (if bool_decide (b = 224)%N then 160 else 128)
                    (if bool_decide (b = 237)%N then 159 else 191) c
            && byte_in 128 191 d && utf8_valid s3
        | _ => false
        end
      else if byte_in 240 244 a then
        match s1 with
        | String c (String d (String e s4)) =>
            byte_in (if bool_decide (b = 240)%N then 144 else 128)
                    (if bool_decide (b = 244)%N then 143 else 191) c
            && byte_in 128 191 d && byte_in 128 191 e && utf8_valid s4
        | _ => false
        end
      else false
  end.

Definition first_byte (s : string) : option ascii :=
  match s with EmptyString => None | String a _ => Some a end.
Fixpoint last_byte (s : string) : option ascii :=
  match s with
  | EmptyString => None
  | String a EmptyString => Some a
  | String _ s' => last_byte s'
  end.

(** ** Workspaces *)

Definition READ_TEXT_CAPABILITY_ID : string := "xgeny.fs/read-text".
Definition READ_TEXT_CONTRACT_VERSION : string := "1.0.0".
Definition READ_TEXT_OPERATION_REF : string := "readText".
Definition APPLY_PATCH_CAPABILITY_ID : string := "xgeny.fs/apply-patch".
Definition APPLY_PATCH_CONTRACT_VERSION : string := "1.0.0".
Definition APPLY_PATCH_OPERATION_REF : string := "applyPatch".
Definition WRITE_ATOMIC_CAPABILITY_ID : string := "xgeny.fs/write-atomic".
Definition WRITE_ATOMIC_CONTRACT_VERSION : string := "1.0.0".
Definition WRITE_ATOMIC_OPERATION_REF : string := "writeAtomic".
Definition FILESYSTEM_READ_SCOPE : string := "filesystem.read".
Definition FILESYSTEM_WRITE_SCOPE : string := "filesystem.write".
Definition WORKSPACE_BINDING_PREFIX : string := "builtin://core-os/filesystem/workspaces/".

Module WorkspaceIdError.
Inductive WorkspaceIdError : Type := WorkspaceIdError_.
End WorkspaceIdError.
Abbreviation WorkspaceIdError := WorkspaceIdError.WorkspaceIdError.

Module WorkspaceId.
Record WorkspaceId : Type := mk { as_str : string }.
(** One byte of an identity, past the first one or not. *)
Definition identity_byte (past_first : bool) (byte : N) : bool :=
  is_ascii_lowercase byte || is_ascii_digit byte || (past_first && is_name_punct byte).
Definition new (value : string) : res WorkspaceIdError WorkspaceId :=
  bail_if is_empty value || bool_decide (64 < strlen value)%N
          || negb match value with
                  | EmptyString => true
                  | String first rest =>
                      identity_byte false (N_of_ascii first) && all_bytes (identity_byte true) rest
                  end
    with WorkspaceIdError.WorkspaceIdError_;;
  Ok (mk value).
End WorkspaceId.
Abbreviation WorkspaceId := WorkspaceId.WorkspaceId.

Definition workspace_binding (workspace_id : WorkspaceId) (operation_ref : string) : InstanceBinding :=
  InstanceBinding.mk (WORKSPACE_BINDING_PREFIX +:+ WorkspaceId.as_str workspace_id)
    (Some operation_ref) None.

Module WorkspaceRoot.
Record WorkspaceRoot (D : Type) : Type := mk {
  directory : D;
  workspace_id : WorkspaceId;
}.
Arguments mk {D} directory workspace_id.
Arguments directory {D} w.
Arguments workspace_id {D} w.
Definition from_dir {D} (directory : D) (workspace_id : WorkspaceId) : WorkspaceRoot D :=
  mk directory workspace_id.
Definition binding {D} (self : WorkspaceRoot D) : InstanceBinding :=
  workspace_binding (workspace_id self) READ_TEXT_OPERATION_REF.
Definition write_atomic_binding {D} (self : WorkspaceRoot D) : InstanceBinding :=
  workspace_binding (workspace_id self) WRITE_ATOMIC_OPERATION_REF.
Definition apply_patch_binding {D} (self : WorkspaceRoot D) : InstanceBinding :=
  workspace_binding (workspace_id self) APPLY_PATCH_OPERATION_REF.
End WorkspaceRoot.
Abbreviation WorkspaceRoot := WorkspaceRoot.WorkspaceRoot.

(** ** Paths *)

Definition CANONICAL_PREFIX : string := "workspace:".
Definition MAX_RELATIVE_PATH_BYTES : N := 4096.
Definition MAX_COMPONENT_BYTES : N := 255.
Definition MAX_COMPONENTS : N := 256.

Module PathError.
Inductive PathError : Type := Invalid | OutsideBoundary.
Definition resolution (self : PathError) : ResourceResolutionFailure :=
  match self with
  | Invalid => ResourceResolutionFailure.InvalidResource
  | OutsideBoundary => ResourceResolutionFailure.OutsideHostBoundary
  end.
End PathError.
Abbreviation PathError := PathError.PathError.

(** [str::to_uppercase] as far as a comparison with the device names can see it: beside the lower
    case letters, U+0131 becomes an [I], and the uppercase of every other character is either the
    character itself or holds one that no device name has. *)
Definition to_uppercase (c : N) : N :=
  if is_ascii_lowercase c then (c - 32)%N else if bool_decide (c = 305)%N then 73%N else c.

Fixpoint strip_chars (prefix l : list N) : option (list N) :=
  match prefix, l with
  | [], _ => Some l
  | c :: prefix', d :: l' => if bool_decide (c = d) then strip_chars prefix' l' else None
  | _ :: _, [] => None
  end.

(** The digits [0] to [9] and the superscripts U+2070, U+00B9, U+00B2 and U+00B3. *)
Definition device_number (c : N) : bool :=
  is_ascii_digit c || bool_decide (c ∈ [8304; 185; 178; 179]%N).

Definition device_numbered (value : list N) (prefix : string) : bool :=
  match strip_chars (chars prefix) value with
  | Some [suffix] => device_number suffix
  | _ => false
  end.

(** [trim_end_matches(' ')]. *)
Fixpoint skip_spaces (l : list N) : list N :=
  match l with
  | c :: l' => if bool_decide (c = 32)%N then skip_spaces l' else l
  | [] => []
  end.
Definition trim_end_spaces (l : list N) : list N := reverse (skip_spaces (reverse l)).

Definition is_windows_device_name (component : string) : bool :=
  let stem := trim_end_spaces (chars (default component (head (split "." component)))) in
  let upper := to_uppercase <$> stem in
  bool_decide (upper ∈ chars <$> ["CON"; "PRN"; "AUX"; "NUL"; "CLOCK$"; "CONIN$"; "CONOUT$"])
  || device_numbered upper "COM" || device_numbered upper "LPT".

(** Backslash, colon, angle brackets, quotation mark, bar, question mark, asterisk. *)
Definition is_reserved (c : N) : bool :=
  bool_decide (c ∈ [92; 58; 60; 62; 34; 124; 63; 42]%N).

Definition validate_component (component : string) : res PathError unit :=
  bail_if is_empty component || bool_decide (MAX_COMPONENT_BYTES < strlen component)%N
    with PathError.Invalid;;
  bail_if bool_decide (component = "..") with PathError.OutsideBoundary;;
  bail_if bool_decide (component = ".") with PathError.Invalid;;
  bail_if bool_decide (first_byte component = Some " "%char)
          || bool_decide (last_byte component ∈ [Some " "%char; Some "."%char])
    with PathError.Invalid;;
  bail_if existsb (λ c, is_control c || is_reserved c) (chars component)
    with PathError.OutsideBoundary;;
  bail_if is_windows_device_name component with PathError.Invalid;;
  Ok tt.

(** One round of the component loop. *)
Definition push_component (components : list string) (component : string)
    : res PathError (list string) :=
  bail_if bool_decide (len components = MAX_COMPONENTS) with PathError.Invalid;;
  let? _ := validate_component component in
  Ok (components ++ [component]).

Definition validate_relative (relative : string) : res PathError (list string) :=
  bail_if is_empty relative || bool_decide (MAX_RELATIVE_PATH_BYTES < strlen relative)%N
    with PathError.Invalid;;
  bail_if bool_decide (first_byte relative ∈ [Some "/"%char; Some "\"%char])
    with PathError.OutsideBoundary;;
  for_each push_component (split "/" relative) [].

Module RelativePath.
Record RelativePath : Type := mk { components : list string }.
Definition from_components (components : list string) : RelativePath := mk components.
Definition join (self : RelativePath) (component : string) : res PathError RelativePath :=
  let? _ := validate_component component in
  bail_if bool_decide (len (components self) = MAX_COMPONENTS) with PathError.Invalid;;
  let components := components self ++ [component] in
  bail_if bool_decide (MAX_RELATIVE_PATH_BYTES
                       < foldr (λ c n, strlen c + n) 0 components + (len components - 1))%N
    with PathError.Invalid;;
  Ok (mk components).
Definition display (self : RelativePath) : string :=
  if bool_decide (components self = []) then "." else Workspace.join "/" (components self).
End RelativePath.
Abbreviation RelativePath := RelativePath.RelativePath.

Definition canonical_root (workspace_id : WorkspaceId) : string :=
  CANONICAL_PREFIX +:+ WorkspaceId.as_str workspace_id.

Definition canonical_resource (workspace_id : WorkspaceId) (resource : string) : res PathError string :=
  let root := canonical_root workspace_id in
  let prefix := root +:+ "/" in
  if bool_decide (resource = ".") || bool_decide (resource = root) then Ok root
  else
    let? relative :=
      match strip_prefix prefix resource with
      | Some relative => Ok relative
      | None => bail_if bool_decide (is_Some (strip_prefix CANONICAL_PREFIX resource))
                  with PathError.OutsideBoundary;;
                Ok resource
      end in
    let? _ := validate_relative relative in
    Ok (prefix +:+ relative).

Definition parse_canonical (workspace_id : WorkspaceId) (resource : string) : res PathError RelativePath :=
  let root := canonical_root workspace_id in
  if bool_decide (resource = root) then Ok (RelativePath.mk [])
  else
    let? relative := ok_or (strip_prefix (root +:+ "/") resource) PathError.OutsideBoundary in
    let? components := validate_relative relative in
    Ok (RelativePath.mk components).

Module WorkspaceResourceResolver.
Record WorkspaceResourceResolver : Type := mk { workspace_id : WorkspaceId }.
End WorkspaceResourceResolver.
Abbreviation WorkspaceResourceResolver := WorkspaceResourceResolver.WorkspaceResourceResolver.

(** [WorkspaceRoot::resolver]. *)
Definition resolver {D} (self : WorkspaceRoot D) : WorkspaceResourceResolver :=
  WorkspaceResourceResolver.mk (WorkspaceRoot.workspace_id self).

#[export] Instance workspace_resolver : ResourceResolver WorkspaceResourceResolver :=
  λ self scope resource,
    if negb (bool_decide (scope ∈ [FILESYSTEM_READ_SCOPE; FILESYSTEM_WRITE_SCOPE]))
    then inl ResourceResolutionFailure.UnsupportedScope
    else match canonical_resource (WorkspaceResourceResolver.workspace_id self) resource with
         | Ok canonical => inr canonical
         | Err error => inl (PathError.resolution error)
         | Panic _ => inl ResourceResolutionFailure.InvalidResource
         end.

(** ** Exact edits *)

Definition MAX_ATOMIC_TEXT_BYTES : N := 65536.
Definition MAX_APPLY_PATCH_BYTES : N := MAX_ATOMIC_TEXT_BYTES.
Definition MAX_APPLY_PATCH_EDITS : N := 32.

Module PatchEdit.
Record PatchEdit : Type := mk { old_text : string; new_text : string }.
End PatchEdit.
Abbreviation PatchEdit := PatchEdit.PatchEdit.

Module AtomicCommitFailure.
Inductive AtomicCommitFailure : Type :=
| OpenParent | InspectTarget | Conflict | CreateTemporary | WriteTemporary
| CommitRenameUnknown | CommitSyncUnknown | CommitVerifyUnknown.
Definition code (self : AtomicCommitFailure) : string :=
  match self with
  | OpenParent => "open-parent"
  | InspectTarget => "inspect-target"
  | Conflict => "precondition-conflict"
  | CreateTemporary => "create-temporary"
  | WriteTemporary => "write-temporary"
  | CommitRenameUnknown => "commit-rename-unknown"
  | CommitSyncUnknown => "commit-sync-unknown"
  | CommitVerifyUnknown => "commit-verify-unknown"
  end.
Definition outcome_is_unknown (self : AtomicCommitFailure) : bool :=
  match self with
  | CommitRenameUnknown | CommitSyncUnknown | CommitVerifyUnknown => true
  | _ => false
  end.
End AtomicCommitFailure.
Abbreviation AtomicCommitFailure := AtomicCommitFailure.AtomicCommitFailure.

Module PatchFailure.
Inductive PatchFailure : Type :=
| ReadSource | PreconditionConflict | ContextMissing | ContextAmbiguous | OverlappingEdits
| ResultTooLarge
| Atomic (failure : AtomicCommitFailure).
Definition code (self : PatchFailure) : string :=
  match self with
  | ReadSource => "read-source"
  | PreconditionConflict => "precondition-conflict"
  | ContextMissing => "context-missing"
  | ContextAmbiguous => "context-ambiguous"
  | OverlappingEdits => "overlapping-edits"
  | ResultTooLarge => "result-too-large"
  | Atomic failure => AtomicCommitFailure.code failure
  end.
Definition evidence_digest `{Crypto} (self : PatchFailure) : string :=
  sha256_digest ("xgeny.fs/apply-patch/failure/v1/" +:+ code self).
End PatchFailure.
Abbreviation PatchFailure := PatchFailure.PatchFailure.

(** [Range<usize>]. *)
Module Range.
Record Range : Type := mk { start : nat; end_ : nat }.
End Range.
Abbreviation Range := Range.Range.

Definition unique_range (source needle : string) : res PatchFailure Range :=
  let? start := ok_or (find source needle) PatchFailure.ContextMissing in
  let next_character :=
    match drop_bytes start source with
    | String a rest =>
        let offset := start + char_width a in
        if bool_decide (offset < String.length source) then Some offset else None
    | EmptyString => None
    end in
  bail_if match next_character with
          | Some offset => contains (drop_bytes offset source) needle
          | None => false
          end
    with PatchFailure.ContextAmbiguous;;
  Ok (Range.mk start (start + String.length needle)).

Abbreviation resolved_edit := (Range * PatchEdit)%type.

(** [sort_by_key(|(range, _)| range.start)]. *)
Definition start_le (p q : resolved_edit) : Prop := Range.start p.1 ≤ Range.start q.1.
#[export] Instance start_le_dec : RelDecision start_le.
Proof. intros p q. unfold start_le. apply _. Defined.

(** One round of the resolution loop. *)
Definition resolve_edit (source : string) (resolved : list resolved_edit) (edit : PatchEdit)
    : res PatchFailure (list resolved_edit) :=
  let? range := unique_range source (PatchEdit.old_text edit) in
  Ok (resolved ++ [(range, edit)]).

(** [windows(2).any(..)]. *)
Fixpoint overlapping (resolved : list resolved_edit) : bool :=
  match resolved with
  | p :: (q :: _) as rest =>
      bool_decide (Range.start q.1 < Range.end_ p.1) || overlapping rest
  | _ => false
  end.

(** [try_fold] with [checked_add]. *)
Definition add_bytes (f : PatchEdit → string) (total : N) (p : resolved_edit) : res PatchFailure N :=
  ok_or (checked_add usize_max total (strlen (f p.2))) PatchFailure.ResultTooLarge.

Definition replace_edit (result : string) (p : resolved_edit) : res PatchFailure string :=
  replace_range result (Range.start p.1) (Range.end_ p.1) (PatchEdit.new_text p.2).

Definition result_size (source removed_bytes inserted_bytes : N) : option N :=
  size ← checked_sub source removed_bytes;
  size ← checked_add usize_max size inserted_bytes;
  if bool_decide (size ≤ MAX_ATOMIC_TEXT_BYTES)%N then Some size else None.

Definition apply_exact_edits (source : string) (edits : list PatchEdit) : res PatchFailure string :=
  let? resolved := for_each (resolve_edit source) edits [] in
  let resolved := merge_sort start_le resolved in
  bail_if overlapping resolved with PatchFailure.OverlappingEdits;;
  let? removed_bytes := for_each (add_bytes PatchEdit.old_text) resolved 0%N in
  let? inserted_bytes := for_each (add_bytes PatchEdit.new_text) resolved 0%N in
  let? _ := ok_or (result_size (strlen source) removed_bytes inserted_bytes)
              PatchFailure.ResultTooLarge in
  for_each replace_edit (reverse resolved) source.

(** The digest syntax the adapters accept. *)
Definition canonical_digest_text (value : string) : bool :=
  match strip_prefix "sha256:" value with
  | Some hex => bool_decide (strlen hex = 64)%N
                && all_bytes (λ byte, is_ascii_digit byte || is_lower_af byte) hex
  | None => false
  end.

(** ** Directories *)

(** [cap_std::fs::OpenOptions], as far as they are used; symbolic links are never followed. *)
Module OpenOptions.
Record OpenOptions : Type := mk {
  read : bool;
  write : bool;
  create_new : bool;
  maybe_dir : bool;
  nonblock : bool;
}.
End OpenOptions.
Abbreviation OpenOptions := OpenOptions.OpenOptions.

(** The kinds of I/O error the code tells apart. *)
Module ErrorKind.
Inductive ErrorKind : Type := NotFound | AlreadyExists | Other.
End ErrorKind.
Abbreviation ErrorKind := ErrorKind.ErrorKind.

Module Metadata.
Record Metadata (Perm : Type) : Type := mk { is_file : bool; permissions : Perm }.
Arguments mk {Perm} is_file permissions.
Arguments is_file {Perm} m.
Arguments permissions {Perm} m.
End Metadata.
Abbreviation Metadata := Metadata.Metadata.

(** Directory capabilities [D], open files [F] and permissions [Perm] of a world [W]: the calls to
    [cap_std] and [getrandom].  [None] and [false] are I/O errors. *)
Class Directory (W D F Perm : Type) : Type := {
  try_clone : D → W → option D * W;
  open_dir_nofollow : D → string → W → option D * W;
  dir_metadata : D → W → option unit * W;
  open_with : D → string → OpenOptions → W → (ErrorKind + F) * W;
  metadata : F → W → option (Metadata Perm) * W;
  (** [take(limit).read_to_end(..)]. *)
  read_to_end : F → N → W → option string * W;
  set_permissions : F → Perm → W → bool * W;
  write_all : F → string → W → bool * W;
  sync_all : F → W → bool * W;
  remove_file : D → string → W → bool * W;
  rename : D → string → D → string → W → bool * W;
  (** Sixteen random bytes. *)
  getrandom : W → option string * W;
}.

Module ReadTextLimitsError.
Inductive ReadTextLimitsError : Type := ReadTextLimitsError_.
End ReadTextLimitsError.
Abbreviation ReadTextLimitsError := ReadTextLimitsError.ReadTextLimitsError.

Definition MAX_READ_TEXT_BYTES : N := 65536.

Module ReadTextLimits.
Record ReadTextLimits : Type := mk { max_bytes : N }.
Definition new (max_bytes : N) : res ReadTextLimitsError ReadTextLimits :=
  bail_if bool_decide (max_bytes = 0)%N with ReadTextLimitsError.ReadTextLimitsError_;;
  bail_if bool_decide (MAX_READ_TEXT_BYTES < max_bytes)%N
    with ReadTextLimitsError.ReadTextLimitsError_;;
  Ok (mk max_bytes).
Definition default : ReadTextLimits := mk MAX_READ_TEXT_BYTES.
End ReadTextLimits.
Abbreviation ReadTextLimits := ReadTextLimits.ReadTextLimits.

Module ReadObservation.
Record ReadObservation : Type := mk { content : string; digest : string }.
End ReadObservation.
Abbreviation ReadObservation := ReadObservation.ReadObservation.

Module ReadFailure.
Inductive ReadFailure : Type := Open | NonRegular | TooLarge | Read | InvalidUtf8.
Definition code (self : ReadFailure) : string :=
  match self with
  | Open => "open"
  | NonRegular => "non-regular"
  | TooLarge => "too-large"
  | Read => "read"
  | InvalidUtf8 => "invalid-utf8"
  end.
Definition evidence_digest `{Crypto} (self : ReadFailure) : string :=
  sha256_digest ("xgeny.fs/read-text/failure/v1/" +:+ code self).
End ReadFailure.
Abbreviation ReadFailure := ReadFailure.ReadFailure.

Module TargetObservation.
Record TargetObservation (Perm : Type) : Type := mk { digest : string; permissions : Perm }.
Arguments mk {Perm} digest permissions.
Arguments digest {Perm} t.
Arguments permissions {Perm} t.
End TargetObservation.
Abbreviation TargetObservation := TargetObservation.TargetObservation.

Module PatchCommit.
Record PatchCommit : Type := mk { digest : string; byte_size : N; changed : bool }.
End PatchCommit.
Abbreviation PatchCommit := PatchCommit.PatchCommit.

Definition TEMP_CREATE_ATTEMPTS : nat := 8.

(** [options.read(true).follow(No).nonblock(true)]. *)
Definition read_options : OpenOptions := OpenOptions.mk true false false false true.
(** [options.write(true).create_new(true).follow(No)]. *)
Definition create_options : OpenOptions := OpenOptions.mk false true true false false.
(** [options.read(true).maybe_dir(true).follow(No)]. *)
Definition directory_options : OpenOptions := OpenOptions.mk true false false true false.

Section files.
Context {W D F Perm : Type} `{Directory W D F Perm} `{EqDecision Perm} `{Crypto}.
Abbreviation fs E A := (prog W (res E A)).

(** A call whose error becomes [e]. *)
Definition demand {E A} (e : E) (f : W → option A * W) : fs E A :=
  bind (call f) (λ o, Ret (ok_or o e)).
Definition demand_true {E} (e : E) (f : W → bool * W) : fs E unit :=
  bind (call f) (λ done_, Ret (if done_ then Ok tt else Err e)).

(** The loop over the parents of a path. *)
Fixpoint open_parents {E} (e : E) (parents : list string) (directory : D) : fs E D :=
  match parents with
  | [] => Ret (Ok directory)
  | component :: parents =>
      let! directory := demand e (open_dir_nofollow directory component) in
      let! _ := demand e (dir_metadata directory) in
      open_parents e parents directory
  end.

(** [split_last]. *)
Definition open_parent {E} (e : E) (root : D) (path : RelativePath) : fs E (D * string) :=
  match last (RelativePath.components path) with
  | None => Ret (Err e)
  | Some leaf =>
      let! directory := demand e (try_clone root) in
      let! parent := open_parents e (removelast (RelativePath.components path)) directory in
      Ret (Ok (parent, leaf))
  end.

(** ** Reading a text file *)

Definition open_file (root : D) (relative_path : RelativePath) : fs ReadFailure F :=
  let! place := open_parent ReadFailure.Open root relative_path in
  bind (call (open_with place.1 place.2 read_options)) (λ opened,
    Ret match opened with inr file => Ok file | inl _ => Err ReadFailure.Open end).

Definition read_opened_file (file : F) (limits : ReadTextLimits) : fs ReadFailure ReadObservation :=
  let! found := demand ReadFailure.Open (metadata file) in
  stop_if negb (Metadata.is_file found) with ReadFailure.NonRegular;;
  let maximum := ReadTextLimits.max_bytes limits in
  let! bytes := demand ReadFailure.Read (read_to_end file (maximum + 1)) in
  stop_if bool_decide (maximum < strlen bytes)%N with ReadFailure.TooLarge;;
  stop_if negb (utf8_valid bytes) with ReadFailure.InvalidUtf8;;
  Ret (Ok (ReadObservation.mk bytes (sha256_digest bytes))).

Definition read_text (root : D) (relative_path : RelativePath) (limits : ReadTextLimits)
    : fs ReadFailure ReadObservation :=
  let! file := open_file root relative_path in
  read_opened_file file limits.

(** ** Replacing a file atomically *)

Definition inspect_target (parent : D) (leaf : string)
    : fs AtomicCommitFailure (option (TargetObservation Perm)) :=
  bind (call (open_with parent leaf read_options)) (λ opened,
    match opened with
    | inl ErrorKind.NotFound => Ret (Ok None)
    | inl _ => Ret (Err AtomicCommitFailure.InspectTarget)
    | inr file =>
        let! found := demand AtomicCommitFailure.InspectTarget (metadata file) in
        stop_if negb (Metadata.is_file found) with AtomicCommitFailure.InspectTarget;;
        let! bytes := demand AtomicCommitFailure.InspectTarget
                        (read_to_end file (MAX_ATOMIC_TEXT_BYTES + 1)) in
        stop_if bool_decide (MAX_ATOMIC_TEXT_BYTES < strlen bytes)%N
          with AtomicCommitFailure.InspectTarget;;
        Ret (Ok (Some (TargetObservation.mk (sha256_digest bytes) (Metadata.permissions found))))
    end).

(** [target.is_some_and(|target| target.digest == digest)]. *)
Definition has_digest (target : option (TargetObservation Perm)) (digest : string) : bool :=
  bool_decide (TargetObservation.digest <$> target = Some digest).

Definition verify_precondition (target : option (TargetObservation Perm)) (expected_digest : option string)
    : res AtomicCommitFailure unit :=
  match target, expected_digest with
  | None, None => Ok tt
  | Some target, Some expected =>
      if bool_decide (TargetObservation.digest target = expected) then Ok tt
      else Err AtomicCommitFailure.Conflict
  | _, _ => Err AtomicCommitFailure.Conflict
  end.

Definition verify_same_observation (initial current : option (TargetObservation Perm))
    : res AtomicCommitFailure unit :=
  match initial, current with
  | None, None => Ok tt
  | Some initial, Some current =>
      if bool_decide (TargetObservation.digest initial = TargetObservation.digest current)
         && bool_decide (TargetObservation.permissions initial = TargetObservation.permissions current)
      then Ok tt else Err AtomicCommitFailure.Conflict
  | _, _ => Err AtomicCommitFailure.Conflict
  end.

(** [format!(".xgeny-write-{encoded}.tmp")]. *)
Definition temporary_name (random : string) : string := ".xgeny-write-" +:+ hex random +:+ ".tmp".

Fixpoint create_temporary_attempts (attempts : nat) (parent : D) : fs AtomicCommitFailure (string * F) :=
  match attempts with
  | O => Ret (Err AtomicCommitFailure.CreateTemporary)
  | S attempts =>
      let! random := demand AtomicCommitFailure.CreateTemporary getrandom in
      let name := temporary_name random in
      bind (call (open_with parent name create_options)) (λ created,
        match created with
        | inr file => Ret (Ok (name, file))
        | inl ErrorKind.AlreadyExists => create_temporary_attempts attempts parent
        | inl _ => Ret (Err AtomicCommitFailure.CreateTemporary)
        end)
  end.
Definition create_temporary (parent : D) : fs AtomicCommitFailure (string * F) :=
  create_temporary_attempts TEMP_CREATE_ATTEMPTS parent.

Definition sync_parent (parent : D) : prog W bool :=
  bind (call (open_with parent "." directory_options)) (λ opened,
    match opened with
    | inr directory => call (sync_all directory)
    | inl _ => Ret false
    end).

(** Remove the temporary file, whatever comes of it, and give [r]. *)
Definition discard {A} (parent : D) (name : string) (r : res AtomicCommitFailure A)
    : fs AtomicCommitFailure A :=
  bind (call (remove_file parent name)) (λ _, Ret r).

(** Write and sync the temporary file. *)
Definition write_temporary (temporary : F) (content : string) : prog W bool :=
  bind (call (write_all temporary content)) (λ written,
    if written then call (sync_all temporary) else Ret false).

(** Once the temporary file is in place of the target. *)
Definition confirm_commit (parent : D) (leaf desired_digest : string) : fs AtomicCommitFailure bool :=
  bind (sync_parent parent) (λ synced,
    stop_if negb synced with AtomicCommitFailure.CommitSyncUnknown;;
    let! committed := pmap_err (λ _, AtomicCommitFailure.CommitVerifyUnknown)
                        (inspect_target parent leaf) in
    stop_if negb (has_digest committed desired_digest) with AtomicCommitFailure.CommitVerifyUnknown;;
    Ret (Ok true)).

(** Once the temporary file is written: look at the target again and rename. *)
Definition replace_target (parent : D) (leaf name : string)
    (initial : option (TargetObservation Perm)) (desired_digest : string) : fs AtomicCommitFailure bool :=
  bind (inspect_target parent leaf) (λ observed,
    match observed with
    | Panic why => Ret (Panic why)
    | Err error => discard parent name (Err error)
    | Ok current =>
        if has_digest current desired_digest then discard parent name (Ok false)
        else match verify_same_observation initial current with
             | Err error => discard parent name (Err error)
             | Panic why => Ret (Panic why)
             | Ok _ =>
                 bind (call (rename parent name parent leaf)) (λ renamed,
                   if renamed then confirm_commit parent leaf desired_digest
                   else discard parent name (Err AtomicCommitFailure.CommitRenameUnknown))
             end
    end).

Definition commit_atomic (root : D) (relative_path : RelativePath) (content : string)
    (expected_digest : option string) (desired_digest : string) : fs AtomicCommitFailure bool :=
  let! place := open_parent AtomicCommitFailure.OpenParent root relative_path in
  let parent := place.1 in
  let leaf := place.2 in
  let! initial := inspect_target parent leaf in
  if has_digest initial desired_digest then Ret (Ok false)
  else
    try _ := verify_precondition initial expected_digest in
    let! created := create_temporary parent in
    let name := created.1 in
    let temporary := created.2 in
    let! _ := match initial with
              | Some target => demand_true AtomicCommitFailure.WriteTemporary
                                 (set_permissions temporary (TargetObservation.permissions target))
              | None => Ret (Ok tt)
              end in
    bind (write_temporary temporary content) (λ written,
      if written then replace_target parent leaf name initial desired_digest
      else discard parent name (Err AtomicCommitFailure.WriteTemporary)).

(** ** Patching a file *)

Definition apply_patch_to_file (root : D) (relative_path : RelativePath) (expected_digest : string)
    (edits : list PatchEdit) : fs PatchFailure PatchCommit :=
  let! observed := pmap_err (λ _, PatchFailure.ReadSource)
                     (read_text root relative_path ReadTextLimits.default) in
  stop_if bool_decide (ReadObservation.digest observed ≠ expected_digest)
    with PatchFailure.PreconditionConflict;;
  try desired := apply_exact_edits (ReadObservation.content observed) edits in
  let digest := sha256_digest desired in
  let! changed := pmap_err PatchFailure.Atomic
                    (commit_atomic root relative_path desired (Some expected_digest) digest) in
  Ret (Ok (PatchCommit.mk digest (strlen desired) changed)).
End files.

(** ** Invocations and verifications *)

#[export] Instance InstanceBinding_eq_dec : EqDecision InstanceBinding.
Proof. solve_decision. Defined.

(** [Map::get]. *)
Definition get (key : string) (object : list (string * Value)) : option Value :=
  snd <$> List.find (λ p, bool_decide (p.1 = key)) object.
Definition as_object (v : Value) : option (list (string * Value)) :=
  match v with Value.Object l => Some l | _ => None end.
Definition as_str (v : Value) : option string :=
  match v with Value.Str s => Some s | _ => None end.
Definition as_array (v : Value) : option (list Value) :=
  match v with Value.Array l => Some l | _ => None end.
Definition as_u64 (v : Value) : option N :=
  match v with Value.Num (Value.PosInt n) => Some n | _ => None end.
Definition is_boolean (v : Value) : bool :=
  match v with Value.Bool _ => true | _ => false end.
(** [Option::filter]. *)
Definition keep {A} (f : A → bool) (o : option A) : option A :=
  x ← o; if f x then Some x else None.

(** The object of exactly [n] members. *)
Definition object_of (n : nat) (v : Value) : option (list (string * Value)) :=
  keep (λ l, bool_decide (length l = n)) (as_object v).
(** [object.get(key).and_then(Value::as_str)]. *)
Definition text_member (key : string) (object : list (string * Value)) : option string :=
  get key object ≫= as_str.
Definition size_member (key : string) (object : list (string * Value)) : option N :=
  get key object ≫= as_u64.

Definition supports_instance_features (features : InstanceFeatures) : bool :=
  InstanceFeatures.sync features && negb (InstanceFeatures.task features)
  && negb (InstanceFeatures.cancellable features) && negb (InstanceFeatures.idempotency_query features).

(** The comparisons every contract check makes. *)
Definition serves (capability_id contract_version : string) (intent : EffectIntent)
    (instance : CapabilityInstanceBody) (expected_binding : InstanceBinding) : bool :=
  let invocation := EffectIntent.invocation intent in
  let definition := CapabilityInstanceBody.definition instance in
  bool_decide (InvocationBinding.capability_id invocation = capability_id)
  && bool_decide (InvocationBinding.contract_version invocation = contract_version)
  && bool_decide (CapabilityRef.capability_id definition = capability_id)
  && bool_decide (CapabilityRef.contract_version definition = contract_version)
  && bool_decide (InvocationBinding.instance_id invocation = CapabilityInstanceBody.instance_id instance)
  && bool_decide (CapabilityInstanceBody.binding instance = expected_binding)
  && supports_instance_features (CapabilityInstanceBody.features instance).

(** A read: read-only, without a key.  A change: idempotent, with a key that is not empty. *)
Definition reads_only (intent : EffectIntent) : bool :=
  bool_decide (EffectIntent.effect_class intent = EffectClass.ReadOnly)
  && bool_decide (EffectIntent.idempotency_key intent = None).
Definition changes (intent : EffectIntent) : bool :=
  bool_decide (EffectIntent.effect_class intent = EffectClass.Idempotent)
  && match EffectIntent.idempotency_key intent with Some key => negb (is_empty key) | None => false end.

Definition known_rule (rule : VerificationRule) : bool :=
  VerificationRule.required rule
  && bool_decide (VerificationRule.strategy rule
                  ∈ [VerificationStrategy.OutputSchema; VerificationStrategy.Postcondition]).

(** One rule of a report. *)
Definition observe_rule (postcondition : bool) (evidence : AdapterEvidenceDigest)
    (rules : list RuleVerificationObservation) (rule : VerificationRule)
    : res VerificationPortFailure (list RuleVerificationObservation) :=
  let strategy := VerificationRule.strategy rule in
  let? result :=
    match strategy with
    | VerificationStrategy.OutputSchema => Ok VerificationResult.Passed
    | VerificationStrategy.Postcondition =>
        Ok (if postcondition then VerificationResult.Passed else VerificationResult.Failed)
    | _ => Err VerificationPortFailure.UnsupportedStrategy
    end in
  let? evidence := match AdapterEvidenceDigest.new (AdapterEvidenceDigest.as_str evidence) with
                   | Ok evidence => Ok evidence
                   | _ => Panic "the evidence digest was already validated"
                   end in
  Ok (rules ++ [RuleVerificationObservation.new strategy result (Some evidence)]).

Definition unverifiable {E A} (r : res E A) : res VerificationPortFailure A :=
  map_err (λ _, VerificationPortFailure.ResponseUnverifiable) r.

(** The report on one text: the observed rules, the text as its artifact. *)
Definition report_text (request : VerificationRequest) (output_digest artifact_id digest : string)
    (size : N) (postcondition : bool) : res VerificationPortFailure VerificationReport :=
  let? evidence := unverifiable (AdapterEvidenceDigest.new digest) in
  let? rules :=
    for_each (observe_rule postcondition evidence)
      (CapabilitySpec.verification (CapabilityDefinitionBody.spec (VerificationRequest.definition request)))
      [] in
  let? artifact := unverifiable (VerifiedArtifactDescriptor.new artifact_id None
                                   "text/plain; charset=utf-8" size digest) in
  let? output_digest := unverifiable (VerifierOutputDigest.new output_digest) in
  unverifiable (VerificationReport.with_artifacts (VerificationReport.new output_digest rules) [artifact]).

(** A reconciliation always ends so. *)
Definition reconcile_inconclusive {W} (w : W) : AdapterReconciliationObservation * W :=
  (AdapterReconciliationObservation.Inconclusive
     AdapterReconciliationInconclusiveReason.StableKeyUnsupported, w).

(** ** Reading *)

Module ReadText.
Record ReadTextAdapter (D : Type) : Type := new { root : WorkspaceRoot D; limits : ReadTextLimits }.
Arguments new {D} root limits.
Arguments root {D} r.
Arguments limits {D} r.
Record ReadTextVerifier : Type := verifier_new { expected_binding : InstanceBinding }.
Definition verifier {D} (self : ReadTextAdapter D) : ReadTextVerifier :=
  verifier_new (WorkspaceRoot.binding (root self)).
Record PreparedReadText (D : Type) : Type := mk {
  directory : D;
  relative_path : RelativePath;
  prepared_limits : ReadTextLimits;
}.
Arguments mk {D} directory relative_path prepared_limits.
Arguments directory {D} p.
Arguments relative_path {D} p.
Arguments prepared_limits {D} p.

Definition verify_contract (request : AdapterPrepareRequest) (expected_binding : InstanceBinding)
    : res AdapterPrepareFailure unit :=
  bail_if negb (serves READ_TEXT_CAPABILITY_ID READ_TEXT_CONTRACT_VERSION
                  (AdapterPrepareRequest.intent request) (AdapterPrepareRequest.instance request)
                  expected_binding
                && reads_only (AdapterPrepareRequest.intent request))
    with AdapterPrepareFailure.UnsupportedProtocol;;
  Ok tt.

Definition verify_verifier_contract (request : VerificationRequest) (expected_binding : InstanceBinding)
    : res VerificationPortFailure unit :=
  let rules :=
    CapabilitySpec.verification (CapabilityDefinitionBody.spec (VerificationRequest.definition request)) in
  let with_strategy s :=
    length (List.filter (λ rule, bool_decide (VerificationRule.strategy rule = s)) rules) in
  bail_if negb (serves READ_TEXT_CAPABILITY_ID READ_TEXT_CONTRACT_VERSION
                  (VerificationRequest.intent request) (VerificationRequest.instance request)
                  expected_binding
                && reads_only (VerificationRequest.intent request)
                && bool_decide (length rules = 2)
                && bool_decide (with_strategy VerificationStrategy.OutputSchema = 1)
                && bool_decide (with_strategy VerificationStrategy.Postcondition = 1)
                && forallb known_rule rules)
    with VerificationPortFailure.UnsupportedStrategy;;
  Ok tt.

Definition parse_arguments {D} (arguments : Value) (root : WorkspaceRoot D)
    : res AdapterPrepareFailure RelativePath :=
  let? object := ok_or (object_of 1 arguments) AdapterPrepareFailure.InvalidMaterial in
  let? path := ok_or (text_member "path" object) AdapterPrepareFailure.InvalidMaterial in
  map_err (λ _, AdapterPrepareFailure.InvalidMaterial)
    (parse_canonical (WorkspaceRoot.workspace_id root) path).

(** The digest and size of an inspected output, and whether it is the observed outcome. *)
Record InspectedOutput : Type := inspected { actual_digest : string; byte_size : N; postcondition : bool }.

Definition inspect_output `{Crypto} (output : Value) (outcome_evidence_digest : string)
    : res VerificationPortFailure InspectedOutput :=
  let? object := ok_or (object_of 2 output) VerificationPortFailure.ResponseUnverifiable in
  let? content := ok_or (text_member "content" object) VerificationPortFailure.ResponseUnverifiable in
  bail_if bool_decide (MAX_READ_TEXT_BYTES < strlen content)%N
    with VerificationPortFailure.ResponseUnverifiable;;
  let? claimed := ok_or (text_member "digest" object) VerificationPortFailure.ResponseUnverifiable in
  let? _ := unverifiable (AdapterEvidenceDigest.new claimed) in
  let actual := sha256_digest content in
  Ok (inspected actual (strlen content)
        (bool_decide (claimed = actual) && bool_decide (outcome_evidence_digest = actual))).

Section adapter.
Context {W D F Perm : Type} `{Directory W D F Perm} `{EqDecision Perm} `{Crypto}.

Definition prepare (self : ReadTextAdapter D) (request : AdapterPrepareRequest)
    : res AdapterPrepareFailure (PreparedReadText D) :=
  let? _ := verify_contract request (WorkspaceRoot.binding (root self)) in
  let? relative_path := parse_arguments (AdapterPrepareRequest.normalized_arguments request) (root self) in
  Ok (mk (WorkspaceRoot.directory (root self)) relative_path (limits self)).

Definition execute (self : PreparedReadText D) : prog W AdapterExecutionObservation :=
  bind (read_text (directory self) (relative_path self) (prepared_limits self)) (λ r,
    Ret match r with
        | Ok observation =>
            let digest := ReadObservation.digest observation in
            AdapterExecutionObservation.SucceededWithOutput (AdapterEvidenceDigest.mk digest)
              (obj [("content", Value.Str (ReadObservation.content observation));
                    ("digest", Value.Str digest)])
        | Err failure =>
            AdapterExecutionObservation.Failed (AdapterEvidenceDigest.mk (ReadFailure.evidence_digest failure))
        | Panic _ => AdapterExecutionObservation.Unknown AdapterExecutionUnknownReason.AdapterTerminated
        end).

Definition verify_read (self : ReadTextVerifier) (request : VerificationRequest)
    : res VerificationPortFailure VerificationReport :=
  let? _ := verify_verifier_contract request (expected_binding self) in
  let? output := ok_or (VerificationRequest.tool_output request) VerificationPortFailure.EvidenceUnavailable in
  let? verified_output := inspect_output (ToolOutputRecord.output output)
    (AdapterEvidenceDigest.as_str (VerificationRequest.outcome_evidence_digest request)) in
  report_text request (ToolOutputRecord.output_digest output) "read-text-output"
    (actual_digest verified_output) (byte_size verified_output) (postcondition verified_output).
End adapter.

#[export] Instance read_text_adapter {W D F Perm} `{Directory W D F Perm} `{Crypto}
    : EffectAdapter W (ReadTextAdapter D) (PreparedReadText D) := {|
  adapter_prepare self request w := (prepare self request, w);
  invocation_execute self w := run (execute self) w;
  adapter_reconcile _ _ := reconcile_inconclusive;
|}.
#[export] Instance read_text_verifier {W} `{Crypto} : EffectVerifier W ReadTextVerifier :=
  λ self request w, (verify_read self request, w).
End ReadText.

(** ** Writing *)

(** What an output says was written. *)
Module WrittenOutput.
Record WrittenOutput : Type := mk { path : string; digest : string; byte_size : N }.
End WrittenOutput.
Abbreviation WrittenOutput := WrittenOutput.WrittenOutput.

(** The contract a verifier of a change serves. *)
Definition verify_change_contract (capability_id contract_version : string) (request : VerificationRequest)
    (expected_binding : InstanceBinding) : res VerificationPortFailure unit :=
  let rules :=
    CapabilitySpec.verification (CapabilityDefinitionBody.spec (VerificationRequest.definition request)) in
  bail_if negb (serves capability_id contract_version (VerificationRequest.intent request)
                  (VerificationRequest.instance request) expected_binding
                && changes (VerificationRequest.intent request)
                && bool_decide (length rules = 2) && forallb known_rule rules)
    with VerificationPortFailure.UnsupportedStrategy;;
  Ok tt.

(** Path, digest and size of an output. *)
Definition inspect_written (object : list (string * Value)) : res VerificationPortFailure WrittenOutput :=
  let? path := ok_or (text_member "path" object) VerificationPortFailure.ResponseUnverifiable in
  let? digest := ok_or (keep canonical_digest_text (text_member "digest" object))
                   VerificationPortFailure.ResponseUnverifiable in
  let? byte_size := ok_or (keep (λ size, bool_decide (size ≤ MAX_ATOMIC_TEXT_BYTES)%N)
                             (size_member "byteSize" object))
                      VerificationPortFailure.ResponseUnverifiable in
  Ok (WrittenOutput.mk path digest byte_size).

Definition says_changed (object : list (string * Value)) : bool :=
  match get "changed" object with Some v => is_boolean v | None => false end.

(** Read the file again and compare it with the output and the outcome. *)
Definition verify_written {W D F Perm} `{Directory W D F Perm} `{Crypto} (root : WorkspaceRoot D)
    (artifact_id : string) (request : VerificationRequest) (output : ToolOutputRecord)
    (written : WrittenOutput) : prog W (res VerificationPortFailure VerificationReport) :=
  try relative := unverifiable (parse_canonical (WorkspaceRoot.workspace_id root)
                                  (WrittenOutput.path written)) in
  let! observed := pmap_err (λ _, VerificationPortFailure.EvidenceUnavailable)
    (read_text (WorkspaceRoot.directory root) relative ReadTextLimits.default) in
  let digest := ReadObservation.digest observed in
  let size := strlen (ReadObservation.content observed) in
  Ret (report_text request (ToolOutputRecord.output_digest output) artifact_id digest size
         (bool_decide (WrittenOutput.digest written = digest)
          && bool_decide (WrittenOutput.byte_size written = size)
          && bool_decide (AdapterEvidenceDigest.as_str
                            (VerificationRequest.outcome_evidence_digest request) = digest))).

Module WriteAtomic.
Definition MAX_WRITE_ATOMIC_BYTES : N := MAX_ATOMIC_TEXT_BYTES.
Record WriteAtomicAdapter (D : Type) : Type := new { root : WorkspaceRoot D }.
Arguments new {D} root.
Arguments root {D} w.
Record WriteAtomicVerifier (D : Type) : Type := verifier_new { verifier_root : WorkspaceRoot D }.
Arguments verifier_new {D} verifier_root.
Arguments verifier_root {D} w.
Definition verifier {D} (self : WriteAtomicAdapter D) : WriteAtomicVerifier D := verifier_new (root self).
Record ParsedArguments : Type := parsed {
  relative_path : RelativePath;
  canonical_path : string;
  content : string;
  expected_digest : option string;
  desired_digest : string;
}.
(** The arguments and the directory they are for. *)
Record PreparedWriteAtomic (D : Type) : Type := mk { directory : D; arguments : ParsedArguments }.
Arguments mk {D} directory arguments.
Arguments directory {D} p.
Arguments arguments {D} p.

Definition write_failure_digest `{Crypto} (failure : AtomicCommitFailure) : string :=
  sha256_digest ("xgeny.fs/write-atomic/failure/v1/" +:+ AtomicCommitFailure.code failure).

Definition verify_contract (request : AdapterPrepareRequest) (expected_binding : InstanceBinding)
    : res AdapterPrepareFailure unit :=
  bail_if negb (serves WRITE_ATOMIC_CAPABILITY_ID WRITE_ATOMIC_CONTRACT_VERSION
                  (AdapterPrepareRequest.intent request) (AdapterPrepareRequest.instance request)
                  expected_binding
                && changes (AdapterPrepareRequest.intent request))
    with AdapterPrepareFailure.UnsupportedProtocol;;
  Ok tt.

Definition parse_arguments `{Crypto} {D} (arguments : Value) (root : WorkspaceRoot D)
    : res AdapterPrepareFailure ParsedArguments :=
  let? object := ok_or (object_of 3 arguments) AdapterPrepareFailure.InvalidMaterial in
  let? canonical_path := ok_or (text_member "path" object) AdapterPrepareFailure.InvalidMaterial in
  let? relative_path := map_err (λ _, AdapterPrepareFailure.InvalidMaterial)
    (parse_canonical (WorkspaceRoot.workspace_id root) canonical_path) in
  bail_if bool_decide (RelativePath.components relative_path = [])
    with AdapterPrepareFailure.InvalidMaterial;;
  let? content := ok_or (text_member "content" object) AdapterPrepareFailure.InvalidMaterial in
  bail_if bool_decide (MAX_WRITE_ATOMIC_BYTES < strlen content)%N
    with AdapterPrepareFailure.InvalidMaterial;;
  let? expected_digest :=
    match get "expectedDigest" object with
    | Some Value.Null => Ok None
    | Some (Value.Str value) =>
        if canonical_digest_text value then Ok (Some value) else Err AdapterPrepareFailure.InvalidMaterial
    | _ => Err AdapterPrepareFailure.InvalidMaterial
    end in
  Ok (parsed relative_path canonical_path content expected_digest (sha256_digest content)).

Definition inspect_output (output : Value) (evidence_digest : string)
    : res VerificationPortFailure WrittenOutput :=
  let? object := ok_or (object_of 4 output) VerificationPortFailure.ResponseUnverifiable in
  let? written := inspect_written object in
  bail_if negb (says_changed object) || bool_decide (WrittenOutput.digest written ≠ evidence_digest)
    with VerificationPortFailure.ResponseUnverifiable;;
  Ok written.

Section adapter.
Context {W D F Perm : Type} `{Directory W D F Perm} `{EqDecision Perm} `{Crypto}.

Definition prepare (self : WriteAtomicAdapter D) (request : AdapterPrepareRequest)
    : res AdapterPrepareFailure (PreparedWriteAtomic D) :=
  let? _ := verify_contract request (WorkspaceRoot.write_atomic_binding (root self)) in
  let? arguments := parse_arguments (AdapterPrepareRequest.normalized_arguments request) (root self) in
  Ok (mk (WorkspaceRoot.directory (root self)) arguments).

(** What a commit makes of the invocation. *)
Definition observation (arguments : ParsedArguments) (r : res AtomicCommitFailure bool)
    : AdapterExecutionObservation :=
  match r with
  | Ok changed =>
      AdapterExecutionObservation.SucceededWithOutput (AdapterEvidenceDigest.mk (desired_digest arguments))
        (obj [("path", Value.Str (canonical_path arguments));
              ("digest", Value.Str (desired_digest arguments));
              ("byteSize", ser (strlen (content arguments)));
              ("changed", Value.Bool changed)])
  | Err failure =>
      if AtomicCommitFailure.outcome_is_unknown failure
      then AdapterExecutionObservation.Unknown AdapterExecutionUnknownReason.TransportOutcomeUnknown
      else AdapterExecutionObservation.Failed (AdapterEvidenceDigest.mk (write_failure_digest failure))
  | Panic _ => AdapterExecutionObservation.Unknown AdapterExecutionUnknownReason.AdapterTerminated
  end.

Definition execute (self : PreparedWriteAtomic D) : prog W AdapterExecutionObservation :=
  let arguments := arguments self in
  bind (commit_atomic (directory self) (relative_path arguments) (content arguments)
          (expected_digest arguments) (desired_digest arguments)) (λ r,
    Ret (observation arguments r)).

Definition verify_write (self : WriteAtomicVerifier D) (request : VerificationRequest)
    : prog W (res VerificationPortFailure VerificationReport) :=
  let root := verifier_root self in
  try _ := verify_change_contract WRITE_ATOMIC_CAPABILITY_ID WRITE_ATOMIC_CONTRACT_VERSION request
             (WorkspaceRoot.write_atomic_binding root) in
  try output := ok_or (VerificationRequest.tool_output request) VerificationPortFailure.EvidenceUnavailable in
  try written := inspect_output (ToolOutputRecord.output output)
    (AdapterEvidenceDigest.as_str (VerificationRequest.outcome_evidence_digest request)) in
  verify_written root "write-atomic-output" request output written.
End adapter.

#[export] Instance write_atomic_adapter {W D F Perm} `{Directory W D F Perm} `{EqDecision Perm} `{Crypto}
    : EffectAdapter W (WriteAtomicAdapter D) (PreparedWriteAtomic D) := {|
  adapter_prepare self request w := (prepare self request, w);
  invocation_execute self w := run (execute self) w;
  adapter_reconcile _ _ := reconcile_inconclusive;
|}.
#[export] Instance write_atomic_verifier {W D F Perm} `{Directory W D F Perm} `{Crypto}
    : EffectVerifier W (WriteAtomicVerifier D) := λ self request w, run (verify_write self request) w.
End WriteAtomic.

(** ** Patching *)

Module ApplyPatch.
Record ApplyPatchAdapter (D : Type) : Type := new { root : WorkspaceRoot D }.
Arguments new {D} root.
Arguments root {D} a.
Record ApplyPatchVerifier (D : Type) : Type := verifier_new { verifier_root : WorkspaceRoot D }.
Arguments verifier_new {D} verifier_root.
Arguments verifier_root {D} a.
Definition verifier {D} (self : ApplyPatchAdapter D) : ApplyPatchVerifier D := verifier_new (root self).
Record ParsedArguments : Type := parsed {
  relative_path : RelativePath;
  canonical_path : string;
  expected_digest : string;
  edits : list PatchEdit;
}.
(** The arguments and the directory they are for. *)
Record PreparedApplyPatch (D : Type) : Type := mk { directory : D; arguments : ParsedArguments }.
Arguments mk {D} directory arguments.
Arguments directory {D} p.
Arguments arguments {D} p.

Definition verify_contract (request : AdapterPrepareRequest) (expected_binding : InstanceBinding)
    : res AdapterPrepareFailure unit :=
  bail_if negb (serves APPLY_PATCH_CAPABILITY_ID APPLY_PATCH_CONTRACT_VERSION
                  (AdapterPrepareRequest.intent request) (AdapterPrepareRequest.instance request)
                  expected_binding
                && changes (AdapterPrepareRequest.intent request))
    with AdapterPrepareFailure.UnsupportedProtocol;;
  Ok tt.

(** One round of the loop over the edits: the total of their bytes, and the edits so far. *)
Definition parse_edit (s : N * list PatchEdit) (value : Value)
    : res AdapterPrepareFailure (N * list PatchEdit) :=
  let? edit := ok_or (object_of 2 value) AdapterPrepareFailure.InvalidMaterial in
  let? old_text := ok_or (keep (λ text, negb (is_empty text)) (text_member "oldText" edit))
                     AdapterPrepareFailure.InvalidMaterial in
  let? new_text := ok_or (text_member "newText" edit) AdapterPrepareFailure.InvalidMaterial in
  bail_if bool_decide (old_text = new_text) with AdapterPrepareFailure.InvalidMaterial;;
  let? total_bytes :=
    ok_or (keep (λ total, bool_decide (total ≤ MAX_APPLY_PATCH_BYTES)%N)
             (total ← checked_add usize_max s.1 (strlen old_text);
              checked_add usize_max total (strlen new_text)))
      AdapterPrepareFailure.InvalidMaterial in
  Ok (total_bytes, s.2 ++ [PatchEdit.mk old_text new_text]).

Definition parse_arguments {D} (arguments : Value) (root : WorkspaceRoot D)
    : res AdapterPrepareFailure ParsedArguments :=
  let? object := ok_or (object_of 3 arguments) AdapterPrepareFailure.InvalidMaterial in
  let? canonical_path := ok_or (text_member "path" object) AdapterPrepareFailure.InvalidMaterial in
  let? relative_path := map_err (λ _, AdapterPrepareFailure.InvalidMaterial)
    (parse_canonical (WorkspaceRoot.workspace_id root) canonical_path) in
  bail_if bool_decide (RelativePath.components relative_path = [])
    with AdapterPrepareFailure.InvalidMaterial;;
  let? expected_digest := ok_or (keep canonical_digest_text (text_member "expectedDigest" object))
                            AdapterPrepareFailure.InvalidMaterial in
  let? values := ok_or (keep (λ edits, negb (bool_decide (edits = []))
                                       && bool_decide (len edits ≤ MAX_APPLY_PATCH_EDITS)%N)
                          (get "edits" object ≫= as_array))
                   AdapterPrepareFailure.InvalidMaterial in
  let? found := for_each parse_edit values (0%N, []) in
  Ok (parsed relative_path canonical_path expected_digest found.2).

Definition inspect_output (output : Value) (evidence_digest : string)
    : res VerificationPortFailure WrittenOutput :=
  let? object := ok_or (object_of 5 output) VerificationPortFailure.ResponseUnverifiable in
  let? written := inspect_written object in
  let edit_count := keep (λ count, bool_decide (1 ≤ count ≤ MAX_APPLY_PATCH_EDITS)%N)
                      (size_member "editCount" object) in
  bail_if negb (says_changed object) || bool_decide (edit_count = None)
          || bool_decide (WrittenOutput.digest written ≠ evidence_digest)
    with VerificationPortFailure.ResponseUnverifiable;;
  Ok written.

Section adapter.
Context {W D F Perm : Type} `{Directory W D F Perm} `{EqDecision Perm} `{Crypto}.

Definition prepare (self : ApplyPatchAdapter D) (request : AdapterPrepareRequest)
    : res AdapterPrepareFailure (PreparedApplyPatch D) :=
  let? _ := verify_contract request (WorkspaceRoot.apply_patch_binding (root self)) in
  let? arguments := parse_arguments (AdapterPrepareRequest.normalized_arguments request) (root self) in
  Ok (mk (WorkspaceRoot.directory (root self)) arguments).

(** What a patch makes of the invocation. *)
Definition observation (arguments : ParsedArguments) (r : res PatchFailure PatchCommit)
    : AdapterExecutionObservation :=
  match r with
  | Ok committed =>
      let digest := PatchCommit.digest committed in
      AdapterExecutionObservation.SucceededWithOutput (AdapterEvidenceDigest.mk digest)
        (obj [("path", Value.Str (canonical_path arguments));
              ("digest", Value.Str digest);
              ("byteSize", ser (PatchCommit.byte_size committed));
              ("changed", Value.Bool (PatchCommit.changed committed));
              ("editCount", ser (len (edits arguments)))])
  | Err failure =>
      if match failure with
         | PatchFailure.Atomic failure => AtomicCommitFailure.outcome_is_unknown failure
         | _ => false
         end
      then AdapterExecutionObservation.Unknown AdapterExecutionUnknownReason.TransportOutcomeUnknown
      else AdapterExecutionObservation.Failed
             (AdapterEvidenceDigest.mk (PatchFailure.evidence_digest failure))
  | Panic _ => AdapterExecutionObservation.Unknown AdapterExecutionUnknownReason.AdapterTerminated
  end.

Definition execute (self : PreparedApplyPatch D) : prog W AdapterExecutionObservation :=
  let arguments := arguments self in
  bind (apply_patch_to_file (directory self) (relative_path arguments) (expected_digest arguments)
          (edits arguments)) (λ r,
    Ret (observation arguments r)).

Definition verify_patch (self : ApplyPatchVerifier D) (request : VerificationRequest)
    : prog W (res VerificationPortFailure VerificationReport) :=
  let root := verifier_root self in
  try _ := verify_change_contract APPLY_PATCH_CAPABILITY_ID APPLY_PATCH_CONTRACT_VERSION request
             (WorkspaceRoot.apply_patch_binding root) in
  try output := ok_or (VerificationRequest.tool_output request) VerificationPortFailure.EvidenceUnavailable in
  try written := inspect_output (ToolOutputRecord.output output)
    (AdapterEvidenceDigest.as_str (VerificationRequest.outcome_evidence_digest request)) in
  verify_written root "apply-patch-output" request output written.
End adapter.

#[export] Instance apply_patch_adapter {W D F Perm} `{Directory W D F Perm} `{EqDecision Perm} `{Crypto}
    : EffectAdapter W (ApplyPatchAdapter D) (PreparedApplyPatch D) := {|
  adapter_prepare self request w := (prepare self request, w);
  invocation_execute self w := run (execute self) w;
  adapter_reconcile _ _ := reconcile_inconclusive;
|}.
#[export] Instance apply_patch_verifier {W D F Perm} `{Directory W D F Perm} `{Crypto}
    : EffectVerifier W (ApplyPatchVerifier D) := λ self request w, run (verify_patch self request) w.
End ApplyPatch.

(** The adapters of a workspace. *)
Definition read_text_adapter_of {D} (self : WorkspaceRoot D) (limits : ReadTextLimits)
    : ReadText.ReadTextAdapter D := ReadText.new self limits.
Definition write_atomic_adapter_of {D} (self : WorkspaceRoot D) : WriteAtomic.WriteAtomicAdapter D :=
  WriteAtomic.new self.
Definition apply_patch_adapter_of {D} (self : WorkspaceRoot D) : ApplyPatch.ApplyPatchAdapter D :=
  ApplyPatch.new self.
