(* ===== verification/WorkspaceTheorems.v ===== *)
(** What the filesystem adapter guarantees: resolved paths stay in the workspace and are canonical,
    exact edits replace unique contexts, and a file is replaced as a whole or not at all. *)

From Stdlib Require Import Ascii.
From S2P Require Import Prelude Program Text Wire Domain Receipt Resolution Registry WorkGraphTypes.
From S2P Require Import Planning Material ToolOutput Adapters Verification Workspace.

(** ** Splitting and joining *)

(** The string does not hold the character. *)
Fixpoint free_of (c : ascii) (s : string) : Prop :=
  match s with
  | EmptyString => True
  | String a s' => a ≠ c ∧ free_of c s'
  end.

Lemma split_not_nil c s : split c s ≠ [].
Proof. destruct s as [|a s]; cbn; [done|]. case_bool_decide; [done|]. by destruct (split c s). Qed.

Lemma join_cons sep s l : l ≠ [] → join sep (s :: l) = s +:+ sep +:+ join sep l.
Proof. by destruct l. Qed.

Lemma split_parts c s : join (String c "") (split c s) = s ∧ Forall (free_of c) (split c s).
Proof.
  induction s as [|a s [IH Hf]]; cbn [split]; [by repeat constructor|].
  case_bool_decide as Ha.
  - subst a. rewrite join_cons by apply split_not_nil. rewrite IH. split; [done|]. by constructor.
  - destruct (split c s) as [|first rest] eqn:Hs; [by destruct (split_not_nil c s)|].
    apply Forall_cons in Hf as [Hf Hr]. split; [|by constructor].
    destruct rest as [|r rest]; cbn in *; by rewrite <- IH.
Qed.

Lemma split_free c s : free_of c s → split c s = [s].
Proof.
  induction s as [|a s IH]; cbn; [done|]. intros [Ha Hs]. rewrite bool_decide_false by done.
  by rewrite IH.
Qed.

Lemma split_app c s t : free_of c s → split c (s +:+ String c t) = s :: split c t.
Proof.
  induction s as [|a s IH]; cbn [free_of]; intros Hs.
  - rewrite string_app_nil. cbn. by rewrite bool_decide_true.
  - destruct Hs as [Ha Hs]. rewrite string_app_cons. cbn [split]. rewrite bool_decide_false by done.
    by rewrite IH.
Qed.

Lemma split_join c l : l ≠ [] → Forall (free_of c) l → split c (join (String c "") l) = l.
Proof.
  induction l as [|s l IH]; intros Hl Hf; [done|]. apply Forall_cons in Hf as [Hs Hf].
  destruct l as [|t l]; [by apply split_free|]. rewrite join_cons by done.
  change (String c "" +:+ ?x) with (String c x). rewrite split_app by done. by rewrite IH.
Qed.

Lemma split_prefix c p t : free_of c p → ∃ first rest, split c (p +:+ t) = (p +:+ first) :: rest.
Proof.
  induction p as [|a p IH]; cbn [free_of].
  - intros _. destruct (split c t) as [|first rest] eqn:Hs; [by destruct (split_not_nil c t)|].
    exists first, rest. done.
  - intros [Ha Hp]. destruct (IH Hp) as (first & rest & Hs). exists first, rest.
    rewrite !string_app_cons. cbn [split]. by rewrite bool_decide_false, Hs by done.
Qed.

(** ** Paths *)

(** A component that is a name on every host: no separator, no way out, no alias. *)
Record portable (component : string) : Prop := {
  po_bounds : component ≠ "" ∧ (strlen component ≤ MAX_COMPONENT_BYTES)%N;
  po_dots : component ≠ "." ∧ component ≠ "..";
  po_ends : first_byte component ≠ Some " "%char ∧ last_byte component ≠ Some " "%char ∧
            last_byte component ≠ Some "."%char;
  po_chars : Forall (λ c, is_control c = false ∧ is_reserved c = false) (chars component);
  po_device : is_windows_device_name component = false;
}.

Lemma existsb_Forall {X} (f : X → bool) l : existsb f l = false ↔ Forall (λ x, f x = false) l.
Proof.
  induction l as [|x l IH]; cbn; [done|]. rewrite orb_false_iff, Forall_cons. by rewrite IH.
Qed.

(** The next guard of a chain of checks. *)
Ltac next_guard H :=
  match goal with |- match (if ?b then _ else _) with _ => _ end => destruct b eqn:H end.

Lemma validate_component_decides component :
  match validate_component component with
  | Ok _ => portable component
  | Err _ => ¬ portable component
  | Panic _ => False
  end.
Proof.
  unfold validate_component, is_empty. next_guard Hb.
  { intros [[Hne Hle] _ _ _ _]. rewrite orb_true_iff, !bool_decide_eq_true in Hb. destruct Hb; [done|lia]. }
  next_guard Hdd; [by intros [_ [_ ?] _ _ _]; apply bool_decide_eq_true in Hdd|].
  next_guard Hd; [by intros [_ [? _] _ _ _]; apply bool_decide_eq_true in Hd|]. next_guard Hends.
  { intros [_ _ (H1 & H2 & H3) _ _]. rewrite orb_true_iff, !bool_decide_eq_true in Hends.
    rewrite !elem_of_cons, elem_of_nil in Hends. naive_solver. }
  next_guard Hc.
  { intros [_ _ _ H4 _]. apply not_false_iff_true in Hc. apply Hc, existsb_Forall.
    eapply Forall_impl; [exact H4|]. by intros c [-> ->]. }
  next_guard Hw; [by intros [_ _ _ _ H5]; rewrite Hw in H5|].
  rewrite orb_false_iff, !bool_decide_eq_false in Hb, Hends. rewrite !elem_of_cons, elem_of_nil in Hends.
  rewrite bool_decide_eq_false in Hdd, Hd.
  split; [|done| | |done].
  - split; [tauto|lia].
  - naive_solver.
  - apply existsb_Forall in Hc. eapply Forall_impl; [exact Hc|]. intros c. by rewrite orb_false_iff.
Qed.

Lemma portable_valid component : validate_component component = Ok tt ↔ portable component.
Proof.
  pose proof (validate_component_decides component) as Hd.
  destruct (validate_component component) as [[]|?|?]; naive_solver.
Qed.

(** The components of a relative path. *)
Record relative_path (relative : string) (components : list string) : Prop := {
  rp_split : components = split "/" relative;
  rp_bounds : relative ≠ "" ∧ (strlen relative ≤ MAX_RELATIVE_PATH_BYTES)%N;
  rp_first : first_byte relative ≠ Some "/"%char ∧ first_byte relative ≠ Some "\"%char;
  rp_portable : Forall portable components;
  rp_count : (len components ≤ MAX_COMPONENTS)%N;
}.

Lemma push_components l :
  ∀ seen, (len seen ≤ MAX_COMPONENTS)%N →
  match for_each push_component l seen with
  | Ok components => components = seen ++ l ∧ Forall portable l ∧ (len components ≤ MAX_COMPONENTS)%N
  | Err _ => ¬ (Forall portable l ∧ (len (seen ++ l) ≤ MAX_COMPONENTS)%N)
  | Panic _ => False
  end.
Proof.
  induction l as [|c l IH]; intros seen Hlen; cbn [for_each].
  { by rewrite app_nil_r. }
  unfold push_component at 1. case_bool_decide as Hmax; cbn [rbind].
  { intros [_ Hl]. unfold len in *. rewrite length_app in Hl. cbn in Hl. lia. }
  pose proof (validate_component_decides c) as Hd.
  destruct (validate_component c) as [[]|?|?]; cbn [rbind]; [| |done].
  - specialize (IH (seen ++ [c]) ltac:(unfold len in *; rewrite length_app; cbn; lia)).
    destruct (for_each _ _ _) as [components|?|?]; [|..|done].
    + destruct IH as (-> & Hf & Hl). rewrite <- app_assoc in *. split_and!; [done|by constructor|done].
    + intros [[_ Hf]%Forall_cons Hl]. apply IH. by rewrite <- app_assoc.
  - by intros [[Hc _]%Forall_cons _].
Qed.

Lemma validate_relative_decides relative :
  match validate_relative relative with
  | Ok components => relative_path relative components
  | Err _ => ∀ components, ¬ relative_path relative components
  | Panic _ => False
  end.
Proof.
  unfold validate_relative, is_empty. next_guard Hb.
  { intros components [_ [H1 H2] _ _ _]. rewrite orb_true_iff, !bool_decide_eq_true in Hb. destruct Hb; [done|lia]. }
  rewrite orb_false_iff, !bool_decide_eq_false in Hb. destruct Hb as [Hne Hlen]. next_guard Hfirst.
  { intros components [_ _ [H1 H2] _ _]. rewrite bool_decide_eq_true, !elem_of_cons, elem_of_nil in Hfirst.
    naive_solver. }
  rewrite bool_decide_eq_false, !elem_of_cons, elem_of_nil in Hfirst.
  pose proof (push_components (split "/" relative) [] ltac:(by vm_compute)) as Hp.
  destruct (for_each _ _ _) as [components|?|?]; [|..|done].
  - destruct Hp as (-> & Hf & Hl). split; [done|split; [done|lia]|naive_solver|done|done].
  - intros components [-> _ _ Hf Hl]. by apply Hp.
Qed.

Lemma validate_relative_Ok relative components :
  validate_relative relative = Ok components ↔ relative_path relative components.
Proof.
  pose proof (validate_relative_decides relative) as Hd.
  destruct (validate_relative relative) as [cs|?|?] eqn:Hv; [|naive_solver..].
  split; [by intros [= ->]|]. intros [-> _ _ _ _]. by destruct Hd as [-> _ _ _ _].
Qed.

(** A name of the workspace: its root, or a relative path below it. *)
Definition workspace_name (id : WorkspaceId) (path : RelativePath) : string :=
  if bool_decide (RelativePath.components path = []) then canonical_root id
  else canonical_root id +:+ "/" +:+ RelativePath.display path.

(** The paths the workspace has names for. *)
Definition workspace_path (path : RelativePath) : Prop :=
  RelativePath.components path = [] ∨
  relative_path (RelativePath.display path) (RelativePath.components path).

Section names.
Context (id : WorkspaceId).
Abbreviation below relative := (canonical_root id +:+ "/" +:+ relative).

Lemma below_prefix relative : below relative = (canonical_root id +:+ "/") +:+ relative.
Proof. by rewrite string_app_assoc. Qed.

Lemma below_not_root relative : below relative ≠ canonical_root id.
Proof.
  intros H. apply (f_equal String.length) in H. rewrite !string_length_app in H. cbn in H. lia.
Qed.

Lemma below_strip relative : strip_prefix (canonical_root id +:+ "/") (below relative) = Some relative.
Proof. rewrite below_prefix. apply strip_prefix_app. Qed.

Lemma below_inj r1 r2 : below r1 = below r2 → r1 = r2.
Proof. rewrite !below_prefix. apply string_app_inj_r. Qed.

Lemma relative_display relative components :
  relative_path relative components →
  components ≠ [] ∧ RelativePath.display (RelativePath.mk components) = relative.
Proof.
  intros [-> _ _ _ _]. split; [apply split_not_nil|].
  unfold RelativePath.display. cbn. rewrite bool_decide_false by apply split_not_nil.
  apply split_parts.
Qed.

Lemma relative_name relative components :
  relative_path relative components →
  workspace_name id (RelativePath.mk components) = below relative ∧
  workspace_path (RelativePath.mk components).
Proof.
  intros Hr. destruct (relative_display _ _ Hr) as [Hne Hd].
  unfold workspace_name, workspace_path. cbn [RelativePath.components].
  rewrite bool_decide_false by done. rewrite Hd. split; [done|by right].
Qed.

(** A relative path is never mistaken for a name of another workspace. *)
Lemma relative_not_canonical relative components :
  relative_path relative components → strip_prefix CANONICAL_PREFIX relative = None.
Proof.
  intros [-> _ _ Hp _]. destruct (strip_prefix _ relative) as [t|] eqn:Hs; [exfalso|done].
  apply strip_prefix_Some in Hs as ->.
  destruct (split_prefix "/" CANONICAL_PREFIX t) as (first & rest & Hsp); [by repeat split|].
  rewrite Hsp, Forall_cons in Hp. destruct Hp as [[_ _ _ Hc _] _].
  change (chars (CANONICAL_PREFIX +:+ first)) with (chars CANONICAL_PREFIX ++ chars first) in Hc.
  apply Forall_app in Hc as [Hc _].
  rewrite Forall_forall in Hc. destruct (Hc 58%N) as [_ H58]; [|done]. by repeat (left || right).
Qed.

(** The parser accepts exactly the names of the workspace. *)
Lemma parse_name name path :
  parse_canonical id name = Ok path ↔ name = workspace_name id path ∧ workspace_path path.
Proof.
  unfold parse_canonical. split.
  - case_bool_decide as Hroot; [intros [= <-]; by split; [|left]|].
    destruct (strip_prefix _ name) as [relative|] eqn:Hs; cbn [ok_or rbind]; [|done].
    apply strip_prefix_Some in Hs as ->. rewrite <- below_prefix.
    destruct (validate_relative relative) as [components|?|?] eqn:Hv; cbn [rbind]; [|done..].
    intros [= <-]. apply validate_relative_Ok in Hv. by destruct (relative_name _ _ Hv).
  - destruct path as [components]. intros [-> Hp]. unfold workspace_path, workspace_name in *. cbn in *.
    destruct Hp as [->|Hp]; [by rewrite bool_decide_true|].
    destruct (relative_display _ _ Hp) as [Hne Hd]. rewrite (bool_decide_false (components = [])) by done.
    rewrite bool_decide_false by apply below_not_root. rewrite below_strip. cbn [ok_or rbind].
    apply validate_relative_Ok in Hp. by rewrite Hp.
Qed.

(** A resource resolves to the name of a path exactly when it is that name, or spells the path. *)
Lemma canonical_spelled raw canonical :
  canonical_resource id raw = Ok canonical ↔
  ∃ path, workspace_path path ∧ canonical = workspace_name id path ∧
    (raw = canonical ∨ raw = RelativePath.display path).
Proof.
  unfold canonical_resource. split.
  - destruct (bool_decide (raw = ".") || _) eqn:Hroot.
    { intros [= <-]. exists (RelativePath.mk []). split; [by left|]. split; [done|].
      rewrite orb_true_iff, !bool_decide_eq_true in Hroot. destruct Hroot; [by right|by left]. }
    destruct (strip_prefix _ raw) as [relative|] eqn:Hs; cbn [rbind].
    + destruct (validate_relative relative) as [components|?|?] eqn:Hv; cbn [rbind]; [|done..].
      intros [= <-]. apply validate_relative_Ok in Hv. destruct (relative_name _ _ Hv) as [Hn Hp].
      exists (RelativePath.mk components). rewrite Hn, below_prefix. split_and!; [done..|left].
      by apply strip_prefix_Some.
    + destruct (bool_decide (is_Some _)); cbn [rbind]; [done|].
      destruct (validate_relative raw) as [components|?|?] eqn:Hv; cbn [rbind]; [|done..].
      intros [= <-]. apply validate_relative_Ok in Hv. destruct (relative_name _ _ Hv) as [Hn Hp].
      exists (RelativePath.mk components). rewrite Hn, below_prefix. split_and!; [done..|right].
      by destruct (relative_display _ _ Hv) as [_ ->].
  - intros (path & Hp & -> & Hraw). destruct path as [components].
    destruct Hp as [Hn|Hp]; cbn [RelativePath.components] in *.
    { subst components. destruct Hraw as [->| ->]; cbn; [|done].
      rewrite (bool_decide_true (canonical_root id = canonical_root id)) by done. by rewrite orb_true_r. }
    destruct (relative_display _ _ Hp) as [Hne Hd]. destruct (relative_name _ _ Hp) as [Hname _].
    pose proof (relative_not_canonical _ _ Hp) as Hnot.
    rewrite Hname in *. pose proof Hp as Hv. apply validate_relative_Ok in Hv.
    set (relative := RelativePath.display (RelativePath.mk components)) in *.
    assert (relative ≠ ".") as Hdot.
    { intros Hrel. pose proof (rp_split _ _ Hp) as Hsp. pose proof (rp_portable _ _ Hp) as Hpo.
      rewrite Hrel in Hsp. cbn in Hsp. rewrite Hsp in Hpo.
      apply Forall_cons in Hpo as [[_ [Hdot _] _ _ _] _]. done. }
    destruct Hraw as [->| ->].
    + rewrite (bool_decide_false (below relative = ".")) by done.
      rewrite (bool_decide_false (below relative = canonical_root id)) by apply below_not_root.
      cbn [orb]. rewrite below_strip. cbn [rbind]. rewrite Hv. cbn. by rewrite below_prefix.
    + rewrite (bool_decide_false (relative = ".")) by done.
      rewrite (bool_decide_false (relative = canonical_root id)); [cbn [orb]|].
      2: { intros Hr. rewrite Hr in Hnot. unfold canonical_root in Hnot. by rewrite strip_prefix_app in Hnot. }
      destruct (strip_prefix (canonical_root id +:+ "/") relative) as [t|] eqn:Hs.
      { apply strip_prefix_Some in Hs. rewrite Hs in Hnot. unfold canonical_root in Hnot.
        by rewrite !string_app_assoc, strip_prefix_app in Hnot. }
      rewrite Hnot. cbn [is_Some]. rewrite bool_decide_false by by intros [].
      cbn [rbind]. rewrite Hv. cbn. by rewrite below_prefix.
Qed.

Lemma no_panic_canonical raw : no_panic (canonical_resource id raw).
Proof.
  intros why. unfold canonical_resource. destruct (_ || _); [done|].
  assert (∀ r, match validate_relative r with Panic _ => False | _ => True end) as Hv.
  { intros r. pose proof (validate_relative_decides r). by destruct (validate_relative r). }
  destruct (strip_prefix _ raw) as [r|]; cbn [rbind].
  - specialize (Hv r). by destruct (validate_relative r).
  - destruct (bool_decide _); cbn [rbind]; [done|]. specialize (Hv raw). by destruct (validate_relative raw).
Qed.
End names.

(** C8: The workspace resolver accepts a filesystem resource exactly when it is a name of the
    workspace or spells a path below its root: a bounded sequence of portable components, none of
    them a way out, an alias or a device.  It answers with the one canonical name of that path,
    which parses back to the path and resolves to itself; every other resource is refused. *)
Theorem workspace_paths_are_confined (self : WorkspaceResourceResolver) (scope raw : string) :
  let id := WorkspaceResourceResolver.workspace_id self in
  let filesystem := scope ∈ [FILESYSTEM_READ_SCOPE; FILESYSTEM_WRITE_SCOPE] in
  match resolve self scope raw with
  | inr canonical =>
      filesystem ∧
      ∃ path, workspace_path path ∧ canonical = workspace_name id path ∧
        (raw = canonical ∨ raw = RelativePath.display path) ∧
        parse_canonical id canonical = Ok path ∧ resolve self scope canonical = inr canonical ∧
        ∀ other, workspace_path other → workspace_name id other = canonical → other = path
  | inl ResourceResolutionFailure.UnsupportedScope => ¬ filesystem
  | inl _ =>
      filesystem ∧ ∀ path, workspace_path path → raw ≠ workspace_name id path ∧ raw ≠ RelativePath.display path
  end.
Proof.
  intros id filesystem. unfold resolve, workspace_resolver. fold id.
  destruct (bool_decide (scope ∈ _)) eqn:Hscope; cbn [negb];
    [apply bool_decide_eq_true in Hscope|by apply bool_decide_eq_false in Hscope].
  pose proof (canonical_spelled id raw) as Hspell. pose proof (no_panic_canonical id raw) as Hnp.
  destruct (canonical_resource id raw) as [canonical|error|why]; [| |by destruct (Hnp why)].
  - destruct (proj1 (Hspell canonical) eq_refl) as (path & Hp & Hn & Hraw). split; [done|].
    exists path. split_and!; [done..| | |].
    + by apply parse_name.
    + assert (canonical_resource id canonical = Ok canonical) as ->; [|done].
      apply canonical_spelled. exists path. split_and!; [done..|by left].
    + intros other Ho Hc. assert (parse_canonical id canonical = Ok other) as H1 by by apply parse_name.
      assert (parse_canonical id canonical = Ok path) as H2 by by apply parse_name.
      rewrite H1 in H2. by injection H2.
  - assert (∀ path, workspace_path path →
      raw ≠ workspace_name id path ∧ raw ≠ RelativePath.display path) as Hno.
    { intros path Hp. split; intros Hraw; specialize (Hspell (workspace_name id path)).
      - by assert (Err error = Ok (workspace_name id path)) by (apply Hspell; exists path; auto).
      - by assert (Err error = Ok (workspace_name id path)) by (apply Hspell; exists path; auto). }
    by destruct error.
Qed.

(** ** UTF-8 *)

Fixpoint all_continuation (s : string) : Prop :=
  match s with
  | EmptyString => True
  | String a s' => is_continuation a = true ∧ all_continuation s'
  end.

(** One character. *)
Definition is_char (c : string) : Prop :=
  ∃ a t, c = String a t ∧ is_continuation a = false ∧ all_continuation t ∧ String.length c = char_width a.

Inductive utf8 : string → Prop :=
| utf8_nil : utf8 ""
| utf8_char c s : is_char c → utf8 s → utf8 (c +:+ s).

Lemma byte_in_spec lo hi a : byte_in lo hi a = true ↔ (lo ≤ N_of_ascii a ≤ hi)%N.
Proof. apply bool_decide_eq_true. Qed.

Lemma continuation_byte lo hi c :
  byte_in lo hi c = true → (128 ≤ lo)%N → (hi ≤ 191)%N → is_continuation c = true.
Proof. rewrite byte_in_spec. intros Hc Hlo Hhi. apply bool_decide_eq_true. lia. Qed.

Lemma width_spec a n :
  char_width a = n →
  n = 1 ∧ (N_of_ascii a < 128)%N ∨ n = 2 ∧ (128 ≤ N_of_ascii a < 224)%N ∨
  n = 3 ∧ (224 ≤ N_of_ascii a < 240)%N ∨ n = 4 ∧ (240 ≤ N_of_ascii a)%N.
Proof. unfold char_width. repeat case_bool_decide; lia. Qed.

(** A lead byte and as many continuation bytes as it announces. *)
Lemma utf8_lead a t s :
  is_continuation a = false → all_continuation t → S (String.length t) = char_width a → utf8 s →
  utf8 (String a (t +:+ s)).
Proof.
  intros Ha Ht Hw Hs. rewrite <- string_app_cons. apply utf8_char; [|done].
  exists a, t. by split_and!.
Qed.

Lemma lead_not_continuation a : (N_of_ascii a < 128 ∨ 192 ≤ N_of_ascii a)%N → is_continuation a = false.
Proof. intros Ha. apply bool_decide_eq_false. lia. Qed.

Lemma width_of a n :
  ((N_of_ascii a < 128)%N → n = 1) → ((128 ≤ N_of_ascii a < 224)%N → n = 2) →
  ((224 ≤ N_of_ascii a < 240)%N → n = 3) → ((240 ≤ N_of_ascii a)%N → n = 4) → n = char_width a.
Proof. destruct (width_spec a _ eq_refl) as [[-> ?]|[[-> ?]|[[-> ?]|[-> ?]]]]; intros; lia. Qed.

Lemma utf8_valid_utf8 s : utf8_valid s = true → utf8 s.
Proof.
  remember (String.length s) as n eqn:Hn. revert s Hn.
  induction (lt_wf n) as [n _ IH]. intros s -> Hv. destruct s as [|a s1]; [constructor|].
  assert (∀ t, String.length t < String.length (String a s1) → utf8_valid t = true → utf8 t) as Hrest.
  { intros t Ht. by eapply IH. }
  clear IH. cbn [utf8_valid] in Hv.
  destruct (bool_decide (N_of_ascii a < 128)%N) eqn:H1; [apply bool_decide_eq_true in H1|apply bool_decide_eq_false in H1].
  { change s1 with ("" +:+ s1). apply utf8_lead; [apply lead_not_continuation; lia|done| |apply Hrest; [cbn; lia|done]].
    apply width_of; cbn; lia. }
  destruct (byte_in 194 223 a) eqn:H2; [apply byte_in_spec in H2|].
  { destruct s1 as [|c s2]; [done|]. apply andb_true_iff in Hv as [Hc Hv].
    apply (utf8_lead a (String c "") s2); [apply lead_not_continuation; lia| | |apply Hrest; [cbn; lia|done]].
    - split; [by eapply continuation_byte|done].
    - apply width_of; cbn; lia. }
  destruct (byte_in 224 239 a) eqn:H3; [apply byte_in_spec in H3|].
  { destruct s1 as [|c [|d s3]]; [done..|]. rewrite !andb_true_iff in Hv. destruct Hv as [[Hc Hd] Hv].
    apply (utf8_lead a (String c (String d "")) s3); [apply lead_not_continuation; lia| | |apply Hrest; [cbn; lia|done]].
    - cbn [all_continuation]. split_and!; [|by eapply continuation_byte|done]. eapply continuation_byte; [exact Hc|..]; by match goal with |- context [if ?b then _ else _] => destruct b end.
    - apply width_of; cbn; lia. }
  destruct (byte_in 240 244 a) eqn:H4; [apply byte_in_spec in H4|done].
  destruct s1 as [|c [|d [|e s4]]]; [done..|]. rewrite !andb_true_iff in Hv. destruct Hv as [[[Hc Hd] He] Hv].
  apply (utf8_lead a (String c (String d (String e ""))) s4); [apply lead_not_continuation; lia| | |apply Hrest; [cbn; lia|done]].
  - cbn [all_continuation]. split_and!; [|by eapply continuation_byte..|done]. eapply continuation_byte; [exact Hc|..]; by match goal with |- context [if ?b then _ else _] => destruct b end.
  - apply width_of; cbn; lia.
Qed.

(** ** Bytes *)

Lemma take_drop_bytes n s : take_bytes n s +:+ drop_bytes n s = s.
Proof.
  revert s. induction n as [|n IH]; intros [|a s]; cbn; try done. rewrite string_app_cons. by rewrite IH.
Qed.

Lemma length_take_bytes n s : n ≤ String.length s → String.length (take_bytes n s) = n.
Proof. revert s. induction n as [|n IH]; intros [|a s]; cbn; try lia. intros. rewrite IH; lia. Qed.

Lemma take_bytes_app s t : take_bytes (String.length s) (s +:+ t) = s.
Proof. induction s as [|a s IH]; [by destruct t|]. rewrite string_app_cons. cbn. by rewrite IH. Qed.

Lemma drop_bytes_app s t : drop_bytes (String.length s) (s +:+ t) = t.
Proof. induction s as [|a s IH]; [by destruct t|]. by rewrite string_app_cons. Qed.

(** Two splits of one string. *)
Lemma string_app_split a b c d :
  a +:+ b = c +:+ d → String.length a ≤ String.length c → ∃ m, c = a +:+ m ∧ b = m +:+ d.
Proof.
  revert c. induction a as [|x a IH]; intros c H Hl.
  - exists c. rewrite !string_app_nil in *. done.
  - destruct c as [|y c]; cbn in Hl; [lia|]. rewrite !string_app_cons in H. injection H as -> H.
    destruct (IH c H ltac:(lia)) as (m & -> & ->). exists m. by rewrite string_app_cons.
Qed.

Lemma string_app_nil_r (s : string) : s +:+ "" = s.
Proof. induction s as [|a s IH]; [done|]. rewrite string_app_cons. by rewrite IH. Qed.

(** The needle is at an offset of the source. *)
Definition occurs (source needle : string) (n : nat) : Prop :=
  ∃ p q, source = p +:+ needle +:+ q ∧ String.length p = n.

Lemma find_spec s needle :
  match find s needle with
  | Some n => occurs s needle n ∧ ∀ m, occurs s needle m → n ≤ m
  | None => ∀ m, ¬ occurs s needle m
  end.
Proof.
  assert (∀ a s', strip_prefix needle (String a s') = None → ∀ m, occurs (String a s') needle m →
            ∃ m', m = S m' ∧ occurs s' needle m') as Hcons.
  { intros a s' Hn m (p & q & Hs & <-). destruct p as [|b p].
    - rewrite string_app_nil in Hs. rewrite Hs, strip_prefix_app in Hn. done.
    - rewrite string_app_cons in Hs. injection Hs as -> ->. exists (String.length p). split; [done|]. by exists p, q. }
  induction s as [|a s IH]; cbn [find].
  - destruct (strip_prefix needle "") as [t|] eqn:Hs.
    + apply strip_prefix_Some in Hs. split; [by exists "", t|lia].
    + intros m (p & q & Hq & _). destruct p; [|done]. rewrite string_app_nil in Hq.
      by rewrite Hq, strip_prefix_app in Hs.
  - destruct (strip_prefix needle (String a s)) as [t|] eqn:Hs.
    { apply strip_prefix_Some in Hs. split; [by exists "", t|lia]. }
    destruct (find s needle) as [n|]; cbn.
    + destruct IH as [(p & q & -> & <-) Hmin]. split.
      * exists (String a p), q. by rewrite string_app_cons.
      * intros m Hm. destruct (Hcons _ _ Hs m Hm) as (m' & -> & Hm'). specialize (Hmin m' Hm'). lia.
    + intros m Hm. destruct (Hcons _ _ Hs m Hm) as (m' & -> & Hm'). by eapply IH.
Qed.

Lemma contains_spec s needle : contains s needle = true ↔ ∃ n, occurs s needle n.
Proof.
  unfold contains. rewrite bool_decide_eq_true. pose proof (find_spec s needle) as Hf.
  destruct (find s needle) as [n|]; split; try (by intros []); naive_solver.
Qed.

(** ** Characters and occurrences *)

(** The string is empty or starts with a character. *)
Definition at_boundary (s : string) : Prop :=
  match s with EmptyString => True | String a _ => is_continuation a = false end.

Lemma utf8_boundary s : utf8 s → at_boundary s.
Proof. intros [|c s' (a & t & -> & Ha & _) _]; [done|]. by rewrite string_app_cons. Qed.

Lemma utf8_app a b : utf8 a → utf8 b → utf8 (a +:+ b).
Proof.
  induction 1 as [|c s Hc _ IH]; [done|]. intros Hb. rewrite string_app_assoc. constructor; auto.
Qed.

Lemma continuation_tail p a m : all_continuation (p +:+ String a m) → is_continuation a = true.
Proof. induction p as [|b p IH]; [by intros []|]. rewrite string_app_cons. by intros [_ ?]; auto. Qed.

Lemma utf8_split p s : utf8 (p +:+ s) → at_boundary s → utf8 p ∧ utf8 s.
Proof.
  intros Hu Hs. remember (p +:+ s) as x eqn:Hx. revert p Hx.
  induction Hu as [|c r Hc Hr IH]; intros p Hx.
  - destruct p; [|done]. rewrite string_app_nil in Hx. subst s. repeat constructor.
  - destruct p as [|b p].
    { rewrite string_app_nil in Hx. subst s. split; [constructor|by constructor]. }
    destruct (decide (String.length c ≤ String.length (String b p))) as [Hl|Hl].
    + destruct (string_app_split _ _ _ _ Hx Hl) as (m & -> & ->).
      destruct (IH m eq_refl) as [Hm Hs']. split; [by constructor|done].
    + destruct (string_app_split _ _ _ _ (eq_sym Hx)) as (m & Hm & ->); [lia|].
      destruct Hc as (a & t & Hc & _ & Ht & _). rewrite Hc, string_app_cons in Hm. injection Hm as -> Hm.
      destruct m as [|a m]; [rewrite string_app_nil_r in Hm; subst; cbn in *; lia|].
      rewrite Hm in Ht. apply continuation_tail in Ht. rewrite string_app_cons in Hs. cbn in Hs. congruence.
Qed.

Lemma char_unique c1 c2 s1 s2 : is_char c1 → is_char c2 → c1 +:+ s1 = c2 +:+ s2 → c1 = c2 ∧ s1 = s2.
Proof.
  intros (a1 & t1 & -> & _ & _ & Hw1) (a2 & t2 & -> & _ & _ & Hw2) H.
  rewrite !string_app_cons in H. injection H as -> H. rewrite <- Hw2 in Hw1. cbn in Hw1.
  destruct (string_app_split _ _ _ _ H) as (m & -> & ->); [lia|]. rewrite string_length_app in Hw1.
  destruct m; [|cbn in Hw1; lia]. by rewrite string_app_nil_r.
Qed.

Lemma utf8_cancel p s : utf8 p → utf8 (p +:+ s) → utf8 s.
Proof.
  induction 1 as [|c r Hc _ IH]; intros Hu; [done|]. rewrite string_app_assoc in Hu. apply IH.
  remember (c +:+ (r +:+ s)) as x eqn:Hx. destruct Hu as [|c' r' Hc' Hr'].
  - destruct Hc as (a & t & -> & _). done.
  - by destruct (char_unique _ _ _ _ Hc' Hc Hx) as [_ <-].
Qed.

Lemma utf8_parts p needle q :
  needle ≠ "" → utf8 needle → utf8 (p +:+ needle +:+ q) → utf8 p ∧ utf8 q.
Proof.
  intros Hne Hn Hu. destruct (utf8_split _ _ Hu) as [Hp Hr].
  - apply utf8_boundary in Hn. destruct needle as [|a needle]; [done|]. by rewrite string_app_cons.
  - split; [done|]. exact (utf8_cancel _ _ Hn Hr).
Qed.

(** The bytes of a character after its first are no place for an occurrence. *)
Lemma no_occurrence_inside p needle q n :
  needle ≠ "" → utf8 needle → utf8 (p +:+ needle +:+ q) → occurs (p +:+ needle +:+ q) needle n →
  String.length p < n →
  match needle +:+ q with String a _ => String.length p + char_width a ≤ n | EmptyString => True end.
Proof.
  intros Hne Hn Hu (p' & q' & Heq & <-) Hlt.
  destruct (string_app_split _ _ _ _ Heq ltac:(lia)) as (m & -> & Hm).
  rewrite string_length_app in *. rewrite Hm.
  destruct (utf8_parts _ _ _ Hne Hn Hu) as [Hp Hq]. pose proof (utf8_app _ _ Hn Hq) as Hnq.
  rewrite Hm in Hnq. destruct (utf8_parts _ _ _ Hne Hn Hnq) as [Hum _].
  destruct Hum as [|c s' (a & t & -> & _ & _ & Hw) _]; [cbn in *; lia|].
  rewrite !string_app_cons. rewrite <- Hw. cbn. rewrite !string_length_app. lia.
Qed.

Lemma occurs_drop k s needle n : occurs s needle n → k ≤ n → occurs (drop_bytes k s) needle (n - k).
Proof.
  intros (p & q & -> & <-) Hk. exists (drop_bytes k p), q.
  assert (String.length (take_bytes k p) = k) as Ht by by apply length_take_bytes.
  split.
  - rewrite <- (take_drop_bytes k p) at 1. rewrite string_app_assoc, <- Ht at 1. by rewrite drop_bytes_app.
  - rewrite <- (take_drop_bytes k p) at 2. rewrite string_length_app. lia.
Qed.

Lemma drop_occurs k s needle n :
  k ≤ String.length s → occurs (drop_bytes k s) needle n → occurs s needle (k + n).
Proof.
  intros Hk (p & q & Hd & <-). exists (take_bytes k s +:+ p), q.
  rewrite string_app_assoc, <- Hd, take_drop_bytes, string_length_app, length_take_bytes by done. done.
Qed.

Lemma occurs_bound s needle n : occurs s needle n → n + String.length needle ≤ String.length s.
Proof. intros (p & q & -> & <-). rewrite !string_length_app. lia. Qed.

Lemma unique_range_spec source needle :
  needle ≠ "" → utf8 needle → utf8 source →
  match unique_range source needle with
  | Ok range =>
      Range.end_ range = Range.start range + String.length needle ∧
      ∀ n, occurs source needle n ↔ n = Range.start range
  | Err PatchFailure.ContextMissing => ∀ n, ¬ occurs source needle n
  | Err PatchFailure.ContextAmbiguous =>
      ∃ m n, m < n ∧ occurs source needle m ∧ occurs source needle n
  | _ => False
  end.
Proof.
  intros Hne Hn Hs. unfold unique_range. pose proof (find_spec source needle) as Hf.
  destruct (find source needle) as [start|]; cbn [ok_or rbind]; [|done].
  destruct Hf as [Hoc Hmin]. pose proof Hoc as (p & q & Hsrc & Hp).
  assert (1 ≤ String.length needle) as Hlen by (destruct needle; [done|cbn; lia]).
  assert (drop_bytes start source = needle +:+ q) as Hd by by rewrite Hsrc, <- Hp, drop_bytes_app.
  assert (∀ n, occurs source needle n → start < n →
            match needle +:+ q with String a _ => start + char_width a ≤ n | EmptyString => True end) as Hlater.
  { intros n Hon Hlt. rewrite <- Hp in *. subst source. by apply no_occurrence_inside. }
  rewrite Hd. destruct (needle +:+ q) as [|a rest] eqn:Hnq.
  { pose proof (f_equal String.length Hnq) as Hl. rewrite string_length_app in Hl. cbn in Hl. lia. }
  assert (∀ n, occurs source needle n → n < String.length source) as Hin.
  { intros n Hon%occurs_bound. lia. }
  assert ((∀ n, occurs source needle n → n = start) → ∀ n, occurs source needle n ↔ n = start) as Hunique.
  { intros Hu n. split; [apply Hu|]. by intros ->. }
  case_bool_decide as Hoff.
  - destruct (contains _ _) eqn:Hc; cbn [rbind].
    + apply contains_spec in Hc as [n Hn']. apply drop_occurs in Hn'; [|lia].
      exists start, (start + char_width a + n). split_and!; [|done..].
      destruct (width_spec a _ eq_refl) as [[-> _]|[[-> _]|[[-> _]|[-> _]]]]; lia.
    + split; [done|]. apply Hunique. intros n Hon. specialize (Hmin n Hon).
      destruct (decide (n = start)) as [|Hneq]; [done|exfalso].
      specialize (Hlater n Hon ltac:(lia)). apply not_true_iff_false in Hc. apply Hc, contains_spec.
      eexists. by eapply occurs_drop.
  - cbn [rbind]. split; [done|]. apply Hunique. intros n Hon. specialize (Hmin n Hon).
    destruct (decide (n = start)) as [|Hneq]; [done|exfalso].
    specialize (Hlater n Hon ltac:(lia)). specialize (Hin n Hon). lia.
Qed.

(** ** Exact edits *)

(** The second text is the first one with the old texts of the edits, found one after the other,
    replaced by the new ones. *)
Inductive woven : string → list PatchEdit → string → Prop :=
| woven_end s : woven s [] s
| woven_edit seg edit rest edits out :
    woven rest edits out →
    woven (seg +:+ PatchEdit.old_text edit +:+ rest) (edit :: edits)
          (seg +:+ PatchEdit.new_text edit +:+ out).

(** Texts a JSON document can hold, the old one not empty. *)
Record sound_edit (edit : PatchEdit) : Prop := {
  se_old : utf8_valid (PatchEdit.old_text edit) = true;
  se_new : utf8_valid (PatchEdit.new_text edit) = true;
  se_nonempty : PatchEdit.old_text edit ≠ "";
}.

(** The edits are at their ranges of [s], which starts at offset [off] of the source. *)
Fixpoint placed (off : nat) (s : string) (l : list resolved_edit) : Prop :=
  match l with
  | [] => True
  | (range, edit) :: l' =>
      ∃ seg rest, s = seg +:+ PatchEdit.old_text edit +:+ rest ∧
        Range.start range = off + String.length seg ∧
        Range.end_ range = Range.start range + String.length (PatchEdit.old_text edit) ∧
        utf8 seg ∧ utf8 rest ∧ placed (Range.end_ range) rest l'
  end.

Lemma boundary_at p s : at_boundary s → is_char_boundary (p +:+ s) (String.length p) = true.
Proof.
  intros Hs. unfold is_char_boundary. rewrite drop_bytes_app. destruct s as [|a s].
  - rewrite string_app_nil_r. by apply bool_decide_eq_true.
  - cbn in Hs. rewrite Hs. apply orb_true_r.
Qed.

Lemma replace_range_app {E} a b c new :
  utf8 b → b ≠ "" → utf8 c →
  replace_range (E := E) (a +:+ b +:+ c) (String.length a) (String.length a + String.length b) new
  = Ok (a +:+ new +:+ c).
Proof.
  intros Hb Hne Hc. unfold replace_range. rewrite boundary_at.
  2: { apply utf8_boundary in Hb. destruct b as [|x b]; [done|]. by rewrite string_app_cons. }
  rewrite <- (string_app_assoc a b c), <- (string_length_app a b), boundary_at by by apply utf8_boundary.
  rewrite drop_bytes_app, (string_app_assoc a b c), take_bytes_app, bool_decide_true; [done|].
  rewrite !string_length_app. lia.
Qed.

(** Replacing from the last to the first leaves every range where it was. *)
Lemma replace_placed off s l pre :
  placed off s l → String.length pre = off → utf8 s → Forall (λ p, sound_edit p.2) l →
  ∃ out, for_each replace_edit (reverse l) (pre +:+ s) = Ok (pre +:+ out) ∧ woven s l.*2 out ∧ utf8 out.
Proof.
  revert off s pre. induction l as [|[range edit] l IH]; intros off s pre Hpl Hpre Hs Hso.
  { exists s. split_and!; [done|constructor|done]. }
  apply Forall_cons in Hso as [He Hso]. destruct Hpl as (seg & rest & -> & Hst & Hen & Hseg & Hrest & Hpl).
  destruct (IH (Range.end_ range) rest (pre +:+ seg +:+ PatchEdit.old_text edit)) as (out & Hout & Hw & Hu);
    [done| |done|done|].
  { rewrite !string_length_app. lia. }
  exists (seg +:+ PatchEdit.new_text edit +:+ out). split_and!.
  - rewrite reverse_cons, for_each_app. rewrite !string_app_assoc in Hout. rewrite Hout. cbn [rbind for_each].
    unfold replace_edit. cbn [fst snd].
    rewrite <- (string_app_assoc pre seg (PatchEdit.old_text edit +:+ out)), Hen, Hst, <- Hpre,
      <- string_length_app.
    rewrite replace_range_app; [|by apply utf8_valid_utf8, se_old|by apply se_nonempty|done].
    cbn [rbind]. by rewrite string_app_assoc.
  - by constructor.
  - apply utf8_app; [done|]. apply utf8_app; [|done]. by apply utf8_valid_utf8, se_new.
Qed.

(** Sorted ranges that do not overlap are placed. *)
Lemma resolved_placed source l off pre s :
  source = pre +:+ s → String.length pre = off → utf8 pre → utf8 s →
  Forall (λ p, sound_edit p.2 ∧ occurs source (PatchEdit.old_text p.2) (Range.start p.1) ∧
    Range.end_ p.1 = Range.start p.1 + String.length (PatchEdit.old_text p.2)) l →
  overlapping l = false →
  match l with p :: _ => off ≤ Range.start p.1 | [] => True end →
  placed off s l.
Proof.
  revert off pre s. induction l as [|[range edit] l IH]; intros off pre s Hsrc Hpre Hup Hus Hl Hov Hfirst; [done|].
  apply Forall_cons in Hl as [(Hso & (p & q & Hpq & Hp) & Hen) Hl]. cbn [fst snd] in *.
  assert (∃ seg, p = pre +:+ seg ∧ s = seg +:+ PatchEdit.old_text edit +:+ q) as (seg & -> & ->).
  { rewrite Hpq in Hsrc. destruct (string_app_split _ _ _ _ (eq_sym Hsrc)) as (m & -> & ->); [lia|]. by exists m. }
  destruct (utf8_parts _ _ _ (se_nonempty _ Hso) (utf8_valid_utf8 _ (se_old _ Hso)) Hus) as [Hseg Hq].
  rewrite string_length_app in Hp. exists seg, q. split_and!; [done|lia|done..|].
  apply (IH _ (pre +:+ seg +:+ PatchEdit.old_text edit)); [|..|done| |].
  - by rewrite Hpq, !string_app_assoc.
  - rewrite !string_length_app. lia.
  - apply utf8_app; [done|]. apply utf8_app; [done|]. by apply utf8_valid_utf8, se_old.
  - done.
  - destruct l as [|x l]; [done|]. cbn in Hov. by apply orb_false_iff in Hov as [_ Hov].
  - destruct l as [|x l]; [done|]. cbn in Hov. apply orb_false_iff in Hov as [Hov _].
    apply bool_decide_eq_false in Hov. lia.
Qed.

Definition total_bytes (f : PatchEdit → string) (edits : list PatchEdit) : N :=
  foldr (λ e n, (strlen (f e) + n)%N) 0%N edits.

Lemma woven_size s edits out :
  woven s edits out →
  (strlen out + total_bytes PatchEdit.old_text edits = strlen s + total_bytes PatchEdit.new_text edits)%N.
Proof.
  induction 1 as [|seg edit rest edits out _ IH]; [done|]. cbn [total_bytes foldr].
  fold (total_bytes PatchEdit.old_text edits). fold (total_bytes PatchEdit.new_text edits).
  unfold strlen in *. rewrite !string_length_app. lia.
Qed.

Lemma add_bytes_total f l t :
  for_each (add_bytes f) l t
  = if bool_decide (t + total_bytes f l.*2 ≤ usize_max)%N then Ok (t + total_bytes f l.*2)%N
    else if bool_decide (l = []) then Ok t else Err PatchFailure.ResultTooLarge.
Proof.
  revert t. induction l as [|[range edit] l IH]; intros t; cbn [for_each].
  { rewrite (bool_decide_true ([] = [])) by done. cbn. rewrite N.add_0_r. by destruct (bool_decide _). }
  rewrite (bool_decide_false (_ :: _ = [])) by done. change (add_bytes f t (range, edit))
    with (ok_or (checked_add usize_max t (strlen (f edit))) PatchFailure.ResultTooLarge).
  change (total_bytes f ((range, edit) :: l).*2) with (strlen (f edit) + total_bytes f l.*2)%N.
  destruct (checked_add _ _ _) as [u|] eqn:Hadd; cbn [ok_or rbind].
  - apply checked_add_Some in Hadd as [-> Hadd]. rewrite IH, N.add_assoc.
    destruct (bool_decide (_ ≤ _)%N) eqn:Hle; [done|]. apply bool_decide_eq_false in Hle.
    destruct (decide (l = [])) as [->|Hne]; [|by rewrite bool_decide_false].
    cbn in Hle. lia.
  - apply checked_add_None in Hadd. rewrite bool_decide_false; [done|]. lia.
Qed.

(** What the resolution loop finds. *)
Lemma resolve_edits_spec source edits :
  utf8 source → Forall sound_edit edits →
  match for_each (resolve_edit source) edits [] with
  | Ok resolved =>
      resolved.*2 = edits ∧
      Forall (λ p, Range.end_ p.1 = Range.start p.1 + String.length (PatchEdit.old_text p.2) ∧
                ∀ n, occurs source (PatchEdit.old_text p.2) n ↔ n = Range.start p.1) resolved
  | Err PatchFailure.ContextMissing =>
      ∃ edit, edit ∈ edits ∧ ∀ n, ¬ occurs source (PatchEdit.old_text edit) n
  | Err PatchFailure.ContextAmbiguous =>
      ∃ edit m n, edit ∈ edits ∧ m < n ∧ occurs source (PatchEdit.old_text edit) m ∧
        occurs source (PatchEdit.old_text edit) n
  | _ => False
  end.
Proof.
  intros Hs Hso.
  assert (∀ edit, edit ∈ edits → match unique_range source (PatchEdit.old_text edit) with
    | Ok range => Range.end_ range = Range.start range + String.length (PatchEdit.old_text edit) ∧
                  ∀ n, occurs source (PatchEdit.old_text edit) n ↔ n = Range.start range
    | Err PatchFailure.ContextMissing => ∀ n, ¬ occurs source (PatchEdit.old_text edit) n
    | Err PatchFailure.ContextAmbiguous => ∃ m n, m < n ∧ occurs source (PatchEdit.old_text edit) m ∧
        occurs source (PatchEdit.old_text edit) n
    | _ => False end) as Hone.
  { intros edit Hin. rewrite Forall_forall in Hso. destruct (Hso _ Hin) as [Ho _ Hne].
    apply unique_range_spec; [done|by apply utf8_valid_utf8|done]. }
  destruct (for_each _ edits []) as [resolved|e|why] eqn:Hr.
  - refine (for_each_inv (resolve_edit source) (λ done_ resolved, resolved.*2 = done_ ∧ Forall (λ p,
      Range.end_ p.1 = Range.start p.1 + String.length (PatchEdit.old_text p.2) ∧
      ∀ n, occurs source (PatchEdit.old_text p.2) n ↔ n = Range.start p.1) resolved) edits [] resolved _ _ Hr); [done|].
    intros pre edit rest t t' Heq [Ht Hf] Hstep. specialize (Hone edit ltac:(rewrite Heq; set_solver)).
    unfold resolve_edit in Hstep. destruct (unique_range _ _) as [range|?|?]; cbn in Hstep; [|done..].
    injection Hstep as <-. rewrite fmap_app, Ht. split; [done|].
    apply Forall_app. split; [done|]. by apply Forall_singleton.
  - destruct (for_each_err _ _ _ _ Hr) as (pre & edit & rest & t & Heq & _ & Hstep).
    assert (edit ∈ edits) as Hin by (rewrite Heq; set_solver). specialize (Hone edit Hin).
    unfold resolve_edit in Hstep. destruct (unique_range _ _) as [range|e'|?]; cbn in Hstep; [done| |done].
    injection Hstep as ->. destruct e; naive_solver.
  - destruct (for_each_panic _ _ _ _ Hr) as (pre & edit & rest & t & Heq & _ & Hstep).
    specialize (Hone edit ltac:(rewrite Heq; set_solver)).
    unfold resolve_edit in Hstep. by destruct (unique_range _ _).
Qed.

Lemma overlapping_pair l :
  Sorted start_le l → overlapping l = true →
  ∃ p q rest, l ≡ₚ p :: q :: rest ∧ Range.start p.1 ≤ Range.start q.1 < Range.end_ p.1.
Proof.
  induction 1 as [|p l Hl IH Hhd]; [done|]. destruct l as [|q l]; [done|]. cbn [overlapping].
  intros [Hov%bool_decide_eq_true|Hov]%orb_true_iff.
  - inversion_clear Hhd as [|? ? Hpq]. by exists p, q, l.
  - destruct (IH Hov) as (p' & q' & rest & Heq & Hlt). exists p', q', (p :: rest). split; [|done].
    rewrite Heq. exact (Permutation_middle [p'; q'] rest p).
Qed.

Lemma woven_old_bound s edits out :
  woven s edits out → (total_bytes PatchEdit.old_text edits ≤ strlen s)%N.
Proof.
  induction 1 as [|seg edit rest edits out _ IH]; cbn [total_bytes foldr]; [lia|].
  fold (total_bytes PatchEdit.old_text edits). unfold strlen in *. rewrite !string_length_app. lia.
Qed.

(** The size checks compare the size of the result with the bound. *)
Lemma result_size_spec source l out :
  woven source l.*2 out → (strlen source ≤ usize_max)%N →
  (let? removed_bytes := for_each (add_bytes PatchEdit.old_text) l 0%N in
   let? inserted_bytes := for_each (add_bytes PatchEdit.new_text) l 0%N in
   ok_or (result_size (strlen source) removed_bytes inserted_bytes) PatchFailure.ResultTooLarge)
  = if bool_decide (strlen out ≤ MAX_ATOMIC_TEXT_BYTES)%N then Ok (strlen out)
    else Err PatchFailure.ResultTooLarge.
Proof.
  intros Hw Hs. pose proof (woven_size _ _ _ Hw) as Hsize. pose proof (woven_old_bound _ _ _ Hw) as Hold.
  assert (MAX_ATOMIC_TEXT_BYTES ≤ usize_max)%N as Hmax by by vm_compute.
  assert (∀ f, (total_bytes f l.*2 ≤ usize_max)%N →
            for_each (add_bytes f) l 0%N = Ok (total_bytes f l.*2)) as Hfits.
  { intros f Hf. rewrite add_bytes_total, N.add_0_l. by rewrite bool_decide_true. }
  rewrite Hfits by lia. cbn [rbind].
  destruct (decide (total_bytes PatchEdit.new_text l.*2 ≤ usize_max)%N) as [Hn|Hn].
  - rewrite Hfits by done. cbn [rbind]. unfold result_size.
    rewrite (proj2 (checked_sub_Some _ _ _) (conj eq_refl Hold)). cbn [mbind option_bind].
    destruct (checked_add _ _ _) as [k|] eqn:Hk;
      [apply checked_add_Some in Hk as [-> Hk]|apply checked_add_None in Hk]; cbn [mbind option_bind].
    + replace (strlen source - _ + _)%N with (strlen out) by lia. by destruct (bool_decide _).
    + rewrite bool_decide_false; [done|]. lia.
  - rewrite add_bytes_total, N.add_0_l, bool_decide_false by done.
    destruct l as [|p l]; [exfalso; apply Hn; cbn; lia|]. cbn [rbind].
    rewrite (bool_decide_false (_ :: _ = [])) by done. cbn [rbind].
    rewrite bool_decide_false; [done|]. lia.
Qed.

(** C10: [apply_exact_edits] does what its edits say, or nothing. On UTF-8 texts with non-empty old
    texts it returns exactly the source with each edit's old text, which occurs once, replaced by
    its new text, and the result fits the bound of an atomic text file. It fails with
    [ContextMissing] only when some old text occurs nowhere, [ContextAmbiguous] only when one
    occurs twice (overlapping occurrences included), [OverlappingEdits] only when the occurrences of two
    of the edits share bytes, and [ResultTooLarge] only when the replaced text exceeds the
    bound. It has no other outcome: no replacement slices a character. *)
Theorem exact_edits_replace_unique_contexts source edits :
  utf8_valid source = true → Forall sound_edit edits → (strlen source ≤ usize_max)%N →
  match apply_exact_edits source edits with
  | Ok result =>
      (∃ sorted, sorted ≡ₚ edits ∧ woven source sorted result) ∧
      (strlen result ≤ MAX_ATOMIC_TEXT_BYTES)%N ∧
      Forall (λ edit, ∃ n, ∀ m, occurs source (PatchEdit.old_text edit) m ↔ m = n) edits
  | Err PatchFailure.ContextMissing =>
      ∃ edit, edit ∈ edits ∧ ∀ n, ¬ occurs source (PatchEdit.old_text edit) n
  | Err PatchFailure.ContextAmbiguous =>
      ∃ edit m n, edit ∈ edits ∧ m < n ∧ occurs source (PatchEdit.old_text edit) m ∧
        occurs source (PatchEdit.old_text edit) n
  | Err PatchFailure.OverlappingEdits =>
      ∃ e1 e2 rest m n, edits ≡ₚ e1 :: e2 :: rest ∧ occurs source (PatchEdit.old_text e1) m ∧
        occurs source (PatchEdit.old_text e2) n ∧ m ≤ n < m + String.length (PatchEdit.old_text e1)
  | Err PatchFailure.ResultTooLarge =>
      ∃ sorted result, sorted ≡ₚ edits ∧ woven source sorted result ∧
        (MAX_ATOMIC_TEXT_BYTES < strlen result)%N
  | _ => False
  end.
Proof.
  intros Hs Hso Hfit. apply utf8_valid_utf8 in Hs. unfold apply_exact_edits.
  pose proof (resolve_edits_spec source edits Hs Hso) as Hres.
  destruct (for_each (resolve_edit source) edits []) as [resolved|e|why]; cbn [rbind];
    [|by destruct e|done].
  destruct Hres as [Hfst Hat]. pose proof (merge_sort_Permutation start_le resolved) as Hperm.
  assert (Sorted start_le (merge_sort start_le resolved)) as Hsorted.
  { apply Sorted_merge_sort. intros p q. unfold start_le. lia. }
  rewrite <- Hperm in Hat. set (l := merge_sort start_le resolved) in *.
  assert (l.*2 ≡ₚ edits) as Hl by (by rewrite Hperm, Hfst). clearbody l.
  destruct (overlapping l) eqn:Hov; cbn [rbind].
  { destruct (overlapping_pair _ Hsorted Hov) as (p & q & rest & Hpq & Hlt).
    rewrite Hpq in Hat, Hl. rewrite !Forall_cons in Hat. destruct Hat as ([Hp Hp'] & [_ Hq'] & _).
    exists p.2, q.2, rest.*2, (Range.start p.1), (Range.start q.1). split_and!; [by rewrite <- Hl|..|lia|lia].
    - by apply Hp'.
    - by apply Hq'. }
  rewrite <- Hl, Forall_fmap in Hso.
  assert (placed 0 source l) as Hpl.
  { apply (resolved_placed source l 0 "" source); [done..|constructor|done| |done|by destruct l; cbn; lia].
    eapply Forall_impl; [exact (proj2 (Forall_and _ _) (conj Hso Hat))|]. intros p (? & ? & Ho). split_and!; [done|by apply Ho|done]. }
  destruct (replace_placed 0 source l "" Hpl eq_refl Hs Hso) as (out & Hout & Hw & _).
  rewrite !string_app_nil in Hout. pose proof (result_size_spec source l out Hw Hfit) as Hsize.
  assert ((let? removed_bytes := for_each (add_bytes PatchEdit.old_text) l 0%N in
    let? inserted_bytes := for_each (add_bytes PatchEdit.new_text) l 0%N in
    let? _ := ok_or (result_size (strlen source) removed_bytes inserted_bytes)
                PatchFailure.ResultTooLarge in
    for_each replace_edit (reverse l) source)
    = (if bool_decide (strlen out ≤ MAX_ATOMIC_TEXT_BYTES)%N then Ok out
       else Err PatchFailure.ResultTooLarge)) as ->.
  { rewrite Hout. destruct (for_each _ l 0%N) as [a| |]; cbn [rbind] in *; [|by case_bool_decide; simplify_eq..].
    destruct (for_each _ l 0%N) as [b| |]; cbn [rbind] in *; [|by case_bool_decide; simplify_eq..].
    rewrite Hsize. by case_bool_decide. }
  case_bool_decide as Hmax; [|by exists l.*2, out; split_and!; [..|lia]].
  split_and!; [by exists l.*2|done|]. rewrite <- Hl, Forall_fmap. eapply Forall_impl; [exact Hat|].
  intros p [_ Ho]. by exists (Range.start p.1).
Qed.

(** Two edits given against the order of the text. *)
Definition greeting_edits : list PatchEdit :=
  [PatchEdit.mk "world" "earth!"; PatchEdit.mk "hello" "goodbye"].

Lemma exact_edits_replace_unique_contexts_witness :
  apply_exact_edits "hello world foo" greeting_edits = Ok "goodbye earth! foo" ∧
  ∃ sorted, sorted ≡ₚ greeting_edits ∧ woven "hello world foo" sorted "goodbye earth! foo".
Proof.
  split; [by vm_compute|].
  assert (Forall sound_edit greeting_edits) as Hsound.
  { repeat constructor; cbn; done. }
  exact (proj1 (exact_edits_replace_unique_contexts "hello world foo" greeting_edits eq_refl Hsound
                  ltac:(by vm_compute))).
Defined.

(** ** Replacing a file *)

(** What the code relies on: the documented behaviour of a local file system nobody else writes
    to.  [look] is the text of the regular file of that name, [names] the file an open handle
    is for, [created] that the handle created that file, so that it writes at its end.  A name is
    replaced as a whole, even by a rename that reports a failure. *)
Class DirectoryLaws (W D F Perm : Type) `{Directory W D F Perm} : Type := {
  look : D → string → W → option string;
  names : F → W → D → string → Prop;
  created : F → W → D → string → Prop;
  same (w w' : W) : Prop := ∀ d n, look d n w' = look d n w;
  same_try_clone d w : same w (try_clone d w).2;
  same_open_dir d n w : same w (open_dir_nofollow d n w).2;
  same_dir_metadata d w : same w (dir_metadata d w).2;
  same_open d n o w : OpenOptions.create_new o = false → same w (open_with d n o w).2;
  same_metadata f w : same w (metadata f w).2;
  same_read f limit w : same w (read_to_end f limit w).2;
  same_set_permissions f p w : same w (set_permissions f p w).2;
  same_sync f w : same w (sync_all f w).2;
  same_random w : same w (getrandom w).2;
  open_names d n o w f :
    OpenOptions.create_new o = false → (open_with d n o w).1 = inr f → names f (open_with d n o w).2 d n;
  open_missing d n o w :
    OpenOptions.create_new o = false → (open_with d n o w).1 = inl ErrorKind.NotFound → look d n w = None;
  metadata_names f w d n : names f w d n → names f (metadata f w).2 d n;
  set_permissions_created f p w d n : created f w d n → created f (set_permissions f p w).2 d n;
  metadata_file f w d n found :
    names f w d n → (metadata f w).1 = Some found → Metadata.is_file found = true → is_Some (look d n w);
  read_bytes f limit w d n text bytes :
    names f w d n → look d n w = Some text → (read_to_end f limit w).1 = Some bytes →
    bytes = take_bytes (N.to_nat limit) text;
  create_file d n o w :
    OpenOptions.create_new o = true →
    (∀ m, m ≠ n → look d m (open_with d n o w).2 = look d m w) ∧
    match (open_with d n o w).1 with
    | inr f => look d n w = None ∧ look d n (open_with d n o w).2 = Some "" ∧
               created f (open_with d n o w).2 d n
    | inl _ => look d n (open_with d n o w).2 = look d n w
    end;
  write_file f text w d n old :
    created f w d n → look d n w = Some old →
    (∀ m, m ≠ n → look d m (write_all f text w).2 = look d m w) ∧
    ((write_all f text w).1 = true → look d n (write_all f text w).2 = Some (old +:+ text));
  remove_name d n w m : m ≠ n → look d m (remove_file d n w).2 = look d m w;
  rename_name d n m w :
    n ≠ m →
    (∀ other, other ≠ n → other ≠ m → look d other (rename d n d m w).2 = look d other w) ∧
    (look d m (rename d n d m w).2 = look d n w ∨
     (rename d n d m w).1 = false ∧ look d m (rename d n d m w).2 = look d m w);
}.

Section commits.
Context {W D F Perm : Type} `{HD : Directory W D F Perm} `{!DirectoryLaws W D F Perm}
        `{EqDecision Perm} `{Crypto}.

Lemma same_refl w : same w w.
Proof. done. Qed.
Lemma same_trans w1 w2 w3 : same w1 w2 → same w2 w3 → same w1 w3.
Proof. intros H1 H2 d n. by rewrite H2. Qed.

Lemma along_call {X} I Q (f : W → X * W) w :
  I (f w).2 → Q (f w).1 (f w).2 → along I Q (call f) w.
Proof. unfold call. cbn [along]. by destruct (f w) as [x w']. Qed.

Lemma along_demand {E A} I Q (e : E) (f : W → option A * W) w :
  I (f w).2 → Q (ok_or (f w).1 e) (f w).2 → along I Q (demand e f) w.
Proof. intros HI HQ. unfold demand. apply along_bind, along_call; done. Qed.

Lemma take_all_bytes n s : (strlen (take_bytes n s) < N.of_nat n)%N → take_bytes n s = s.
Proof.
  unfold strlen. revert n. induction s as [|a s IH]; intros [|n]; cbn; try done; try lia.
  intros Hn. f_equal. apply IH. lia.
Qed.

(** What looking at the target tells. *)
Definition saw (parent : D) (leaf : string) (w : W) (target : option (TargetObservation Perm)) : Prop :=
  TargetObservation.digest <$> target = sha256_digest <$> look parent leaf w.

Lemma inspect_target_sees parent leaf w :
  along (same w) (λ r w', same w w' ∧ match r with
    | Ok target => saw parent leaf w target
    | Err error => error = AtomicCommitFailure.InspectTarget
    | Panic _ => False
    end) (inspect_target parent leaf) w.
Proof.
  unfold inspect_target. apply along_bind, along_call; [by apply same_open|].
  pose proof (same_open parent leaf read_options w eq_refl) as H1.
  pose proof (open_missing parent leaf read_options w eq_refl) as Hmissing.
  pose proof (open_names parent leaf read_options w) as Hnames.
  destruct (open_with _ _ _ w) as [[kind|file] w1]; cbn [fst snd] in *.
  { destruct kind; cbn [along]; [|done..]. split; [done|]. unfold saw. by rewrite Hmissing. }
  specialize (Hnames file eq_refl eq_refl).
  apply along_pbind, along_demand; [exact (same_trans _ _ _ H1 (same_metadata _ _))|].
  pose proof (same_trans _ _ _ H1 (same_metadata file w1)) as H2.
  pose proof (metadata_names file w1 _ _ Hnames) as Hnames2.
  pose proof (metadata_file file w1 parent leaf) as Hfile.
  destruct (metadata file w1) as [[found|] w2]; cbn [ok_or fst snd] in *; [|done].
  destruct (Metadata.is_file found) eqn:Hf; cbn [negb along]; [|done].
  destruct (Hfile _ Hnames eq_refl Hf) as [text Htext].
  apply along_pbind, along_demand; [exact (same_trans _ _ _ H2 (same_read _ _ _))|].
  pose proof (same_trans _ _ _ H2 (same_read file (MAX_ATOMIC_TEXT_BYTES + 1) w2)) as H3.
  pose proof (read_bytes file (MAX_ATOMIC_TEXT_BYTES + 1) w2 parent leaf text) as Hbytes.
  destruct (read_to_end file _ w2) as [[bytes|] w3]; cbn [ok_or fst snd] in *; [|done].
  rewrite H1 in Htext. rewrite (H2 parent leaf) in Hbytes.
  specialize (Hbytes _ Hnames2 Htext eq_refl).
  destruct (bool_decide _) eqn:Hmax; cbn [along]; [done|]. apply bool_decide_eq_false in Hmax.
  split; [done|]. unfold saw. rewrite Htext. cbn. do 2 f_equal. rewrite Hbytes. apply take_all_bytes.
  rewrite <- Hbytes. lia.
Qed.

Lemma open_parents_same {E} (e : E) parents directory w :
  along (same w) (λ _ w', same w w') (open_parents e parents directory) w.
Proof.
  enough (∀ w', same w w' → along (same w) (λ _ w', same w w') (open_parents e parents directory) w') as Hall.
  { by apply Hall. }
  revert directory. induction parents as [|component parents IH]; intros directory w1 Hw; [done|].
  cbn [open_parents]. pose proof (same_trans _ _ _ Hw (same_open_dir directory component w1)) as H1.
  apply along_pbind, along_demand; [done|]. destruct (open_dir_nofollow _ _ _) as [[d|] w2]; cbn [ok_or fst snd] in *; [|done].
  pose proof (same_trans _ _ _ H1 (same_dir_metadata d w2)) as H2.
  apply along_pbind, along_demand; [done|]. destruct (dir_metadata d w2) as [[[]|] w3]; cbn [ok_or fst snd] in *; [|done].
  by apply IH.
Qed.

Lemma open_parent_same {E} (e : E) root path w :
  along (same w) (λ _ w', same w w') (open_parent e root path) w.
Proof.
  unfold open_parent. destruct (last _) as [leaf|]; [|done].
  pose proof (same_try_clone root w) as H1.
  apply along_pbind, along_demand; [done|]. destruct (try_clone root w) as [[d|] w1]; cbn [ok_or fst snd] in *; [|done].
  apply along_pbind. eapply along_weaken; [..|apply open_parents_same].
  - intros w2. exact (same_trans _ _ _ H1).
  - intros [place| |] w2 H2; cbn [along]; exact (same_trans _ _ _ H1 H2).
Qed.

Section target.
Variables (parent : D) (leaf content : string) (w0 : W).
Hypothesis leaf_permanent : ∀ random, leaf ≠ temporary_name random.

Definition fresh (name : string) : Prop :=
  look parent name w0 = None ∧ ∃ random, name = temporary_name random.
(** The other files are as they were, but for new temporary ones. *)
Definition others_kept (w : W) : Prop :=
  ∀ other, other ≠ leaf → look parent other w = look parent other w0 ∨ fresh other.
Definition intact (w : W) : Prop := look parent leaf w = look parent leaf w0 ∧ others_kept w.
Definition replaced (w : W) : Prop := look parent leaf w = Some content ∧ others_kept w.
Definition whole (w : W) : Prop := intact w ∨ replaced w.

Lemma fresh_not_leaf name : fresh name → name ≠ leaf.
Proof. intros (_ & random & ->) Heq. by apply (leaf_permanent random). Qed.

(** Only [name] changed. *)
Lemma others_kept_step name w w' :
  fresh name → others_kept w → (∀ m, m ≠ leaf → m ≠ name → look parent m w' = look parent m w) →
  others_kept w'.
Proof.
  intros Hname Hw Hstep other Hother. destruct (decide (other = name)) as [->|Hne]; [by right|].
  rewrite Hstep by done. by apply Hw.
Qed.

Lemma intact_step name w w' :
  fresh name → intact w → (∀ m, m ≠ name → look parent m w' = look parent m w) → intact w'.
Proof.
  intros Hname [Ht Ho] Hstep. split; [|by eapply others_kept_step; eauto].
  rewrite Hstep; [done|]. intros Heq. by apply (fresh_not_leaf _ Hname).
Qed.

Lemma intact_same w w' : intact w → same w w' → intact w'.
Proof. intros [Ht Ho] Hs. split; [by rewrite Hs|]. intros other. rewrite Hs. apply Ho. Qed.
Lemma replaced_same w w' : replaced w → same w w' → replaced w'.
Proof. intros [Ht Ho] Hs. split; [by rewrite Hs|]. intros other. rewrite Hs. apply Ho. Qed.

Lemma discard_intact {A} name (r : res AtomicCommitFailure A) w :
  fresh name → intact w → along intact (λ r' w', r' = r ∧ intact w') (discard parent name r) w.
Proof.
  intros Hname Hw. unfold discard.
  assert (intact (remove_file parent name w).2) as Hw'.
  { eapply intact_step; [exact Hname|exact Hw|]. intros m Hm. by apply remove_name. }
  by apply along_bind, along_call.
Qed.

Lemma create_temporary_fresh attempts w :
  intact w →
  along intact (λ r w', intact w' ∧ match r with
    | Ok (name, file) => fresh name ∧ look parent name w' = Some "" ∧ created file w' parent name
    | Err error => error = AtomicCommitFailure.CreateTemporary
    | Panic _ => False
    end) (create_temporary_attempts attempts parent) w.
Proof.
  revert w. induction attempts as [|attempts IH]; intros w Hw; [done|]. cbn [create_temporary_attempts].
  pose proof (intact_same _ _ Hw (same_random w)) as Hw1.
  apply along_pbind, along_demand; [done|]. destruct (getrandom w) as [[random|] w1]; cbn [ok_or fst snd] in *; [|done].
  destruct (create_file parent (temporary_name random) create_options w1 eq_refl) as [Hframe Hcreated].
  set (name := temporary_name random) in *. destruct (open_with parent name create_options w1) as [r w2] eqn:Hopen.
  cbn [fst snd] in *. assert (name ≠ leaf) as Hname by (intros Heq; by apply (leaf_permanent random)).
  assert (intact w2) as Hw2.
  { destruct r as [kind|file].
    - assert (∀ m, look parent m w2 = look parent m w1) as Hsame.
      { intros m. destruct (decide (m = name)) as [->|Hm]; auto. }
      destruct Hw1 as [Ht Ho]. split; [by rewrite Hsame|]. intros other. rewrite Hsame. apply Ho.
    - apply (intact_step name w1); [|done|done]. destruct Hcreated as [Hnone _].
      destruct Hw1 as [_ Ho]. destruct (Ho name Hname) as [Heq|]; [|done].
      split; [by rewrite <- Heq|by exists random]. }
  apply along_bind, along_call; rewrite Hopen; [done|]. cbn [fst snd].
  destruct r as [kind|file].
  - destruct kind; cbn [along]; [done|by apply IH|done].
  - cbn [along fst snd]. destruct Hcreated as (Hnone & Hempty & Hn). split_and!; try done.
    destruct Hw1 as [_ Ho]. destruct (Ho name Hname) as [Heq|]; [|done].
    split; [by rewrite <- Heq|by exists random].
Qed.

(** What an outcome says of the target. *)
Definition outcome_told (desired_digest : string) (r : res AtomicCommitFailure bool) (w : W) : Prop :=
  match r with
  | Ok true => replaced w ∧ sha256_digest content = desired_digest
  | Ok false => intact w ∧ sha256_digest <$> look parent leaf w0 = Some desired_digest
  | Err error => AtomicCommitFailure.outcome_is_unknown error = false → intact w
  | Panic _ => False
  end.

Lemma sync_parent_same w : along (same w) (λ _ w', same w w') (sync_parent parent) w.
Proof.
  unfold sync_parent. pose proof (same_open parent "." directory_options w eq_refl) as H1.
  apply along_bind, along_call; [done|].
  destruct (open_with parent "." directory_options w) as [[kind|file] w1]; cbn [fst snd] in *; [done|].
  apply along_call; exact (same_trans _ _ _ H1 (same_sync _ _)).
Qed.

Lemma confirm_commit_told desired_digest w :
  replaced w → along replaced (outcome_told desired_digest) (confirm_commit parent leaf desired_digest) w.
Proof.
  intros Hw. unfold confirm_commit. apply along_bind.
  eapply along_weaken; [..|apply sync_parent_same].
  { intros w1. by apply replaced_same. }
  intros synced w1 H1%(replaced_same _ _ Hw). destruct synced; cbn [negb along]; [|done].
  apply along_pbind, along_pmap_err. eapply along_weaken; [..|apply inspect_target_sees].
  { intros w2. by apply replaced_same. }
  intros r w2 [Hs Hr]. pose proof (replaced_same _ _ H1 Hs) as H2.
  destruct r as [committed|error|]; cbn [map_err along]; [|done..].
  destruct (has_digest committed desired_digest) eqn:Hd; cbn [negb along]; [|done].
  apply bool_decide_eq_true in Hd. split; [done|]. unfold saw in Hr. destruct H1 as [Ht _].
  rewrite Hd, Ht in Hr. cbn in Hr. congruence.
Qed.

Lemma replace_target_told name initial desired_digest w :
  fresh name → intact w → look parent name w = Some content →
  along whole (outcome_told desired_digest)
    (replace_target parent leaf name initial desired_digest) w.
Proof.
  intros Hname Hw Htext.
  assert (∀ w' r, intact w' → (∀ w'', intact w'' → outcome_told desired_digest r w'') →
            along whole (outcome_told desired_digest) (discard parent name r) w') as Hdiscard.
  { intros w' r Hw' Hr. eapply along_weaken; [..|by apply discard_intact].
    - by left.
    - intros r' w'' [-> Hw'']. by apply Hr. }
  unfold replace_target. apply along_bind. eapply along_weaken; [..|apply inspect_target_sees].
  { intros w1 Hs. left. by eapply intact_same. }
  intros observed w1 [Hs Hr]. pose proof (intact_same _ _ Hw Hs) as Hw1. unfold saw in Hr.
  rewrite <- (Hs parent name) in Htext.
  destruct observed as [current|error|]; [|by apply Hdiscard; [|intros w2 Hw2 _]|done].
  destruct (has_digest current desired_digest) eqn:Hd.
  { apply Hdiscard; [done|]. intros w2 Hw2. split; [done|]. apply bool_decide_eq_true in Hd.
    destruct Hw as [<- _]. congruence. }
  destruct (verify_same_observation initial current) as [[]|error|why] eqn:Hsame.
  2: by apply Hdiscard; [|intros w2 Hw2 _].
  2: { unfold verify_same_observation in Hsame. by destruct initial, current; repeat case_match. }
  destruct (rename_name parent name leaf w1 (fresh_not_leaf _ Hname)) as [Hframe Hrenamed].
  destruct (rename parent name parent leaf w1) as [renamed w2] eqn:Hrename. cbn [fst snd] in *.
  assert (others_kept w2) as Ho.
  { apply (others_kept_step name w1); [done|by destruct Hw1|]. intros m Hm Hn. by apply Hframe. }
  rewrite Htext in Hrenamed. apply along_bind, along_call; rewrite Hrename; cbn [fst snd].
  { destruct Hrenamed as [Ht|[_ Ht]]; [by right|]. left. split; [|done]. rewrite Ht. by destruct Hw1. }
  destruct renamed.
  - destruct Hrenamed as [Ht|[? _]]; [|done]. eapply along_weaken; [..|by apply confirm_commit_told].
    + by right.
    + done.
  - unfold discard. assert (∀ m, m ≠ name → look parent m (remove_file parent name w2).2 = look parent m w2) as Hrm.
    { intros m Hm. by apply remove_name. }
    assert (leaf ≠ name) as Hleaf by (intros Heq; by apply (fresh_not_leaf _ Hname)).
    apply along_bind, along_call; [|done].
    assert (others_kept (remove_file parent name w2).2) as Ho3.
    { apply (others_kept_step name w2); [done..|]. intros m _ Hm. by apply Hrm. }
    destruct Hrenamed as [Ht|[_ Ht]]; [right|left]; (split; [|done]); rewrite Hrm by done; [done|].
    rewrite Ht. by destruct Hw1.
Qed.

Lemma write_temporary_told name file initial desired_digest w :
  fresh name → intact w → look parent name w = Some "" → created file w parent name →
  along whole (outcome_told desired_digest)
    (bind (write_temporary file content) (λ written,
       if written then replace_target parent leaf name initial desired_digest
       else discard parent name (Err AtomicCommitFailure.WriteTemporary))) w.
Proof.
  intros Hname Hw Htext Hfile. unfold write_temporary.
  pose proof (write_file file content w parent name "" Hfile Htext) as [Hframe Hwritten].
  pose proof (intact_step name w _ Hname Hw Hframe) as Hw1.
  assert (∀ w', intact w' → along whole (outcome_told desired_digest)
            (discard parent name (Err AtomicCommitFailure.WriteTemporary)) w') as Hdiscard.
  { intros w' Hw'. eapply along_weaken; [..|by apply discard_intact].
    - by left.
    - by intros r' w'' [-> Hw''] _. }
  apply along_bind, along_bind, along_call; [by left|].
  destruct (write_all file content w) as [written w1]; cbn [fst snd] in *.
  destruct written; [|cbn [along]; by apply Hdiscard].
  pose proof (same_sync file w1) as Hs. pose proof (intact_same _ _ Hw1 Hs) as Hw2.
  apply along_call; [by left|]. destruct (sync_all file w1) as [synced w2]; cbn [fst snd] in *.
  destruct synced; [|by apply Hdiscard].
  apply replace_target_told; [done..|]. rewrite Hs. by apply Hwritten.
Qed.

(** The part of the commit that follows the opening of the parent directory. *)
Lemma commit_target_told expected_digest desired_digest w (rest := λ place : D * string,
    let! initial := inspect_target place.1 place.2 in
    if has_digest initial desired_digest then Ret (Ok false)
    else
      try _ := verify_precondition initial expected_digest in
      let! created := create_temporary place.1 in
      let! _ := match initial with
                | Some target => demand_true AtomicCommitFailure.WriteTemporary
                                   (set_permissions created.2 (TargetObservation.permissions target))
                | None => Ret (Ok tt)
                end in
      bind (write_temporary created.2 content) (λ written,
        if written then replace_target place.1 place.2 created.1 initial desired_digest
        else discard place.1 created.1 (Err AtomicCommitFailure.WriteTemporary))) :
  intact w →
  along whole (λ r w', outcome_told desired_digest r w' ∧
                 (r = Ok true → expected_digest = sha256_digest <$> look parent leaf w0))
    (rest (parent, leaf)) w.
Proof.
  intros Hw. unfold rest. cbn [fst snd]. apply along_pbind.
  eapply along_weaken; [..|apply inspect_target_sees].
  { intros w1 Hs. left. by eapply intact_same. }
  intros r w1 [Hs Hr]. pose proof (intact_same _ _ Hw Hs) as Hw1.
  destruct r as [initial|error|]; [|by split; [intros _|]|done].
  unfold saw in Hr. destruct Hw as [Ht _]. rewrite Ht in Hr. clear w Hs Ht.
  destruct (has_digest initial desired_digest) eqn:Hd.
  { apply bool_decide_eq_true in Hd. cbn [along]. split; [|done]. split; [done|]. congruence. }
  destruct (verify_precondition initial expected_digest) as [[]|error|why] eqn:Hpre; cbn [along].
  2: by split; [intros _|].
  2: { unfold verify_precondition in Hpre. by destruct initial, expected_digest; repeat case_match. }
  assert (expected_digest = sha256_digest <$> look parent leaf w0) as Hexpected.
  { rewrite <- Hr. unfold verify_precondition in Hpre. destruct initial, expected_digest; try done.
    case_bool_decide; [|done]. cbn. congruence. }
  apply along_pbind. eapply along_weaken; [..|by apply create_temporary_fresh].
  { by left. }
  intros r w2 [Hw2 Hcreated]. destruct r as [[name file]|error|]; [|by split; [intros _|]|done].
  cbn [fst snd] in *. destruct Hcreated as (Hname & Htext & Hfile).
  assert (∀ w3, intact w3 → look parent name w3 = Some "" → created file w3 parent name →
    along whole (λ r w', outcome_told desired_digest r w' ∧
                   (r = Ok true → expected_digest = sha256_digest <$> look parent leaf w0))
      (bind (write_temporary file content) (λ written,
         if written then replace_target parent leaf name initial desired_digest
         else discard parent name (Err AtomicCommitFailure.WriteTemporary))) w3) as Hwrite.
  { intros w3 Hw3 Htext3 Hfile3. eapply along_weaken; [done| |by apply write_temporary_told].
    intros r w' Hr'. by split. }
  destruct initial as [target|]; [|by apply Hwrite].
  apply along_pbind. unfold demand_true. pose proof (same_set_permissions file (TargetObservation.permissions target) w2) as Hs.
  pose proof (intact_same _ _ Hw2 Hs) as Hw3.
  apply along_bind, along_call; [by left|].
  pose proof (set_permissions_created file (TargetObservation.permissions target) w2 _ _ Hfile) as Hfile3.
  destruct (set_permissions file _ w2) as [set w3]; cbn [fst snd] in *.
  destruct set; [|by split; [intros _|]].
  apply Hwrite; [done| |done]. by rewrite Hs.
Qed.
End target.
End commits.

(** C9: [commit_atomic] replaces its target atomically. On a local file system nobody else
    writes to, whatever fails and wherever the process stops, the target holds either its former
    text or the whole new one, and no other file of the directory is touched but a temporary one
    the commit created. Success with a change means the target holds the new text and
    held the expected one; success without one means that the target, as it was, already had
    the desired digest; an error that is not of the outcome-unknown kind means that the target
    is as it was; and no call makes the function panic. *)
Theorem commits_are_atomic {W D F Perm : Type} `{Directory W D F Perm}
    `{!DirectoryLaws W D F Perm} `{EqDecision Perm} `{Crypto}
    (root : D) path content expected_digest desired_digest w parent leaf :
  (run (open_parent AtomicCommitFailure.OpenParent root path) w).1 = Ok (parent, leaf) →
  (∀ random, leaf ≠ temporary_name random) →
  let p := commit_atomic root path content expected_digest desired_digest in
  (∀ w', stops p w w' →
     (look parent leaf w' = look parent leaf w ∨ look parent leaf w' = Some content) ∧
     ∀ other, other ≠ leaf →
       look parent other w' = look parent other w ∨
       (look parent other w = None ∧ ∃ random, other = temporary_name random)) ∧
  match run p w with
  | (Ok true, w') =>
      look parent leaf w' = Some content ∧ sha256_digest content = desired_digest ∧
      expected_digest = sha256_digest <$> look parent leaf w
  | (Ok false, w') =>
      look parent leaf w' = look parent leaf w ∧
      sha256_digest <$> look parent leaf w = Some desired_digest
  | (Err error, w') =>
      AtomicCommitFailure.outcome_is_unknown error = false →
      look parent leaf w' = look parent leaf w
  | (Panic _, _) => False
  end.
Proof.
  intros Hopen Hleaf p.
  assert (intact parent leaf w w) as Hw by (split; [done|by left]).
  assert (along (whole parent leaf content w) (λ r w', outcome_told parent leaf content w desired_digest r w' ∧
            (r = Ok true → expected_digest = sha256_digest <$> look parent leaf w)) p w) as Hp.
  { apply along_pbind, along_intro.
    - intros w' Hin. left. eapply intact_same; [exact Hw|].
      by eapply (along_states _ _ _ _ _ (open_parent_same _ _ _ _)).
    - pose proof (along_run _ _ _ _ (open_parent_same AtomicCommitFailure.OpenParent root path w)) as Hs.
      rewrite Hopen. apply commit_target_told; [done|]. by eapply intact_same. }
  split.
  - intros w' Hstop. pose proof (along_stops _ _ _ _ _ (or_introl Hw) Hp Hstop) as Hwhole.
    destruct Hwhole as [[Ht Ho]|[Ht Ho]]; (split; [by eauto|exact Ho]).
  - apply along_run in Hp as [Hr Hexpected]. destruct (run p w) as [[[]|error|why] w']; cbn [fst snd] in *.
    + destruct Hr as [[Ht _] Hd]. by split_and!; auto.
    + by destruct Hr as [[Ht _] Hd].
    + intros Hknown. by destruct (Hr Hknown).
    + done.
Qed.

(** ** A directory of files *)

(** One directory whose open files are known by their names; nothing fails. *)
Module Folder.
Definition Folder : Type := gmap string string.
Definition open_with (_ : unit) (name : string) (options : OpenOptions) (w : Folder)
    : (ErrorKind + string) * Folder :=
  match w !! name, OpenOptions.create_new options with
  | None, true => (inr name, <[name := ""]> w)
  | None, false => (if bool_decide (name = ".") then inr name else inl ErrorKind.NotFound, w)
  | Some _, true => (inl ErrorKind.AlreadyExists, w)
  | Some _, false => (inr name, w)
  end.
Definition write_all (name text : string) (w : Folder) : bool * Folder :=
  (true, alter (λ old, old +:+ text) name w).
Definition rename (_ : unit) (from : string) (_ : unit) (to : string) (w : Folder) : bool * Folder :=
  match w !! from with
  | Some text => (true, <[to := text]> (delete from w))
  | None => (false, w)
  end.
End Folder.
Abbreviation Folder := Folder.Folder.

#[export] Instance folder_directory : Directory Folder unit string unit := {|
  try_clone d w := (Some d, w);
  open_dir_nofollow d n w := (None, w);
  dir_metadata d w := (Some tt, w);
  open_with := Folder.open_with;
  metadata f w := (Some (Metadata.mk (bool_decide (is_Some (w !! f))) tt), w);
  read_to_end f limit w := (take_bytes (N.to_nat limit) <$> w !! f, w);
  set_permissions f p w := (true, w);
  write_all := Folder.write_all;
  sync_all f w := (true, w);
  remove_file d n w := (true, delete n w);
  rename := Folder.rename;
  getrandom w := (Some "0123456789abcdef", w);
|}.

#[export] Instance folder_laws : DirectoryLaws Folder unit string unit.
Proof.
  refine {| look _ n w := w !! n; names f _ _ n := f = n; created f _ _ n := f = n |}; cbn.
  all: try done.
  - intros [] n o w Ho. unfold Folder.open_with. by destruct (w !! n), (OpenOptions.create_new o).
  - intros [] n o w f Ho. unfold Folder.open_with. rewrite Ho.
    destruct (w !! n); [|destruct (bool_decide _)]; cbn; congruence.
  - intros [] n o w Ho. unfold Folder.open_with. rewrite Ho. by destruct (w !! n).
  - intros f w _ n found -> [= <-] Hf. by apply bool_decide_eq_true in Hf.
  - intros f limit w _ n text bytes -> Hn. rewrite Hn. cbn. congruence.
  - intros [] n o w Ho. unfold Folder.open_with. rewrite Ho.
    destruct (w !! n) eqn:Hn; cbn [fst snd]; [done|].
    split_and!; [|done|apply lookup_insert_eq|done]. intros m Hm. by apply lookup_insert_ne.
  - intros f text w _ n old -> Hn. split; [|intros _; etrans; [apply lookup_alter_eq|exact (f_equal (fmap (λ old, old +:+ text)) Hn)]].
    intros m Hm. by apply lookup_alter_ne.
  - intros _ n w m Hm. by apply lookup_delete_ne.
  - intros [] n m w Hnm. unfold Folder.rename. destruct (w !! n) eqn:Hn; cbn [fst snd]; [|by split; [|right]].
    split; [|left; apply lookup_insert_eq].
    intros other H1 H2.
    etrans; [by apply lookup_insert_ne|by apply lookup_delete_ne].
Defined.

#[local] Existing Instance reference_crypto.

(** A file of one line that another line replaces. *)
Definition notes : Folder := <["notes.txt" := "first"]> (<["other.txt" := "kept"]> ∅).
Definition notes_path : RelativePath := RelativePath.mk ["notes.txt"].

Lemma commits_are_atomic_witness :
  let p := commit_atomic (H := folder_directory) tt notes_path "second" (Some (sha256_digest "first"))
             (sha256_digest "second") in
  (run p notes).1 = Ok true ∧ (run p notes).2 !! "notes.txt" = Some "second" ∧
  ∀ w', stops p notes w' → w' !! "notes.txt" = Some "first" ∨ w' !! "notes.txt" = Some "second".
Proof.
  split_and!; [by vm_compute..|]. intros w' Hstop.
  assert (∀ random, "notes.txt" ≠ temporary_name random) as Hleaf by done.
  exact (proj1 (proj1 (commits_are_atomic tt notes_path "second" (Some (sha256_digest "first"))
           (sha256_digest "second") notes tt "notes.txt" eq_refl Hleaf) w' Hstop)).
Defined.
