(* ===== verification/ProposalProofs.v ===== *)
(** The structure check of a proposal: what its loops index, and that the visit of the ready keys
    is Kahn's algorithm. *)

From S2P Require Import Prelude Program Text Wire Domain Resolution Registry Receipt DomainWire.
From S2P Require Import WorkGraphTypes WorkGraphErrors WorkGraphWire Planning Material Frontier.
From S2P Require Import FrontierProofs MemoryStore Host Invocation PlanningContext Proposals.

(** ** Kahn's algorithm over a list of edges *)

Section kahn.
Context (keys : gset string) (edges : list (string * string)).

(** The edges into a key from outside [V], and the keys an edge leads to. *)
Definition edges_into (V : gset string) (k : string) : list (string * string) :=
  filter (λ e, e.2 = k ∧ e.1 ∉ V) edges.
Definition edges_from (k : string) : list string := (filter (λ e, e.1 = k) edges).*2.

Definition acyclic_edges : Prop := ∃ rank : string → nat, ∀ d i, (d, i) ∈ edges → rank d < rank i.

Hypothesis edges_distinct : NoDup edges.
Hypothesis edges_known : ∀ d i, (d, i) ∈ edges → d ∈ keys ∧ i ∈ keys.
Hypothesis edges_proper : ∀ d i, (d, i) ∈ edges → d ≠ i.

(** The visited keys are closed and ranked; the degrees and the queue are those of the rest. *)
Record visiting (V : gset string) (R : gmap string N) (Z : gset string) : Prop := {
  vi_keys : V ⊆ keys;
  vi_closed d i : (d, i) ∈ edges → i ∈ V → d ∈ V;
  vi_degrees k : k ∈ keys → R !! k = Some (len (edges_into V k));
  vi_ready k : k ∈ Z ↔ k ∈ keys ∧ (k ∉ V) ∧ edges_into V k = [];
  vi_rank : ∃ rank : string → nat, (∀ k, k ∈ V → rank k < size V) ∧
    ∀ d i, (d, i) ∈ edges → i ∈ V → rank d < rank i;
}.

Lemma elem_of_edges_into V k d i : (d, i) ∈ edges_into V k ↔ i = k ∧ (d ∉ V) ∧ (d, i) ∈ edges.
Proof. unfold edges_into. rewrite list_elem_of_filter. cbn. naive_solver. Qed.

Lemma elem_of_edges_from k i : i ∈ edges_from k ↔ (k, i) ∈ edges.
Proof.
  unfold edges_from. rewrite list_elem_of_fmap. split.
  - intros ([d j] & -> & [Hd Hin]%list_elem_of_filter). cbn in *. by subst.
  - intros Hin. exists (k, i). by rewrite list_elem_of_filter.
Qed.

Lemma NoDup_edges_from k : NoDup (edges_from k).
Proof.
  unfold edges_from. apply NoDup_fmap_2_strong; [|by apply NoDup_filter].
  intros [d1 i1] [d2 i2] [E1 _]%list_elem_of_filter [E2 _]%list_elem_of_filter. cbn in *. congruence.
Qed.

Lemma edges_into_nil V k : edges_into V k = [] ↔ ∀ d, (d, k) ∈ edges → d ∈ V.
Proof.
  split.
  - intros Hn d Hd. destruct (decide (d ∈ V)) as [|Hout]; [done|].
    assert ((d, k) ∈ edges_into V k) as Hin by (by apply elem_of_edges_into).
    rewrite Hn in Hin. by apply elem_of_nil in Hin.
  - intros Hall. destruct (edges_into V k) as [|[d i] l] eqn:E; [done|].
    assert ((d, i) ∈ edges_into V k) as (-> & Hd & He)%elem_of_edges_into by (rewrite E; left).
    by destruct Hd; apply Hall.
Qed.

(** Visiting [k] takes the edge from [k] off every key. *)
Lemma edges_into_visit V k i :
  k ∉ V → length (edges_into V i)
          = length (edges_into ({[k]} ∪ V) i) + (if bool_decide (i ∈ edges_from k) then 1 else 0).
Proof.
  intros Hk. rewrite (bool_decide_ext _ _ (elem_of_edges_from k i)). unfold edges_into.
  clear edges_known edges_proper. induction edges as [|[d j] l IH]; [done|].
  apply NoDup_cons in edges_distinct as [Hd Hnd]. specialize (IH Hnd).
  rewrite !filter_cons. cbn [fst snd]. destruct (decide ((d, j) = (k, i))) as [[= -> ->]|Hne].
  - rewrite decide_True by done. rewrite decide_False by set_solver.
    rewrite (bool_decide_eq_false_2 _ Hd) in IH. rewrite bool_decide_eq_true_2 by left. cbn. lia.
  - rewrite (bool_decide_ext ((k, i) ∈ (d, j) :: l) ((k, i) ∈ l)) by set_solver.
    destruct (decide (j = i ∧ d ∉ V)) as [[-> Hdv]|Hn].
    + rewrite decide_True by (split; [done|]; set_solver). cbn. lia.
    + rewrite decide_False by set_solver. lia.
Qed.

(** Releasing the children of a visited key. *)
Lemma release_run l R Z :
  NoDup l → (∀ c, c ∈ l → ∃ n, R !! c = Some n ∧ (0 < n)%N) →
  ∃ R' Z', for_each release_child l (R, Z) = Ok (R', Z') ∧
    (∀ c, R' !! c = if bool_decide (c ∈ l) then (λ n, (n - 1)%N) <$> (R !! c) else R !! c) ∧
    (∀ c, c ∈ Z' ↔ c ∈ Z ∨ (c ∈ l ∧ R !! c = Some 1%N)).
Proof.
  intros Hnd Hpos. destruct (release_children_run l R Z Hnd Hpos) as (R' & Z' & Hrun & HR & HZ).
  exists R', Z'. split; [|done]. revert Hrun. generalize (R, Z) as s. clear.
  induction l as [|c l IH]; intros [R Z]; cbn; [congruence|].
  unfold release_child, Frontier.release_child, expect, checked_sub.
  destruct (R !! c); cbn; [|done]. case_bool_decide; cbn; [|done]. apply IH.
Qed.

Lemma visiting_init R Z :
  (∀ k, k ∈ keys → R !! k = Some (len (edges_into ∅ k))) →
  (∀ k, k ∈ Z ↔ k ∈ keys ∧ edges_into ∅ k = []) → visiting ∅ R Z.
Proof.
  intros HR HZ. split; [set_solver|set_solver|done|intros k; rewrite HZ; set_solver|].
  exists (λ _, 0). set_solver.
Qed.

Lemma visiting_step V R Z k :
  visiting V R Z → k ∈ Z →
  ∃ R' Z', for_each release_child (edges_from k) (R, Z ∖ {[k]}) = Ok (R', Z') ∧
    visiting ({[k]} ∪ V) R' Z'.
Proof.
  intros [Hkeys Hclosed Hdeg Hready Hrank] Hk. destruct (proj1 (Hready k) Hk) as (Hkk & Hnew & Hdeps).
  rewrite edges_into_nil in Hdeps.
  assert (Hcount : ∀ c, c ∈ keys → R !! c = Some (len (edges_into ({[k]} ∪ V) c)
                    + (if bool_decide (c ∈ edges_from k) then 1 else 0))%N).
  { intros c Hc. rewrite Hdeg by done. f_equal. unfold len. rewrite (edges_into_visit V k) by done.
    rewrite Nat2N.inj_add. f_equal. by case_bool_decide. }
  destruct (release_run (edges_from k) R (Z ∖ {[k]})) as (R' & Z' & Hrun & HR & HZ).
  { apply NoDup_edges_from. }
  { intros c Hc. rewrite (Hcount c), bool_decide_eq_true_2; [eexists; split; [done|lia]|done|].
    apply elem_of_edges_from, edges_known in Hc. by destruct Hc. }
  exists R', Z'. split; [done|]. split.
  - set_solver.
  - intros d i He Hi. destruct (decide (i = k)) as [->|]; [apply elem_of_union_r; by apply Hdeps|].
    apply elem_of_union_r. eapply Hclosed; [done|set_solver].
  - intros c Hc. rewrite HR, (Hcount c Hc). case_bool_decide; cbn; f_equal; lia.
  - intros c. rewrite HZ, elem_of_difference, elem_of_singleton, Hready, elem_of_edges_from. split.
    + intros [[(Hc & Hcv & Hn) Hne]|[He Hone]].
      * split_and!; [done|set_solver|]. apply edges_into_nil. intros d Hd.
        apply elem_of_union_r. by apply (proj1 (edges_into_nil V c) Hn).
      * pose proof (proj2 (edges_known _ _ He)) as Hc. split_and!; [done| |].
        -- intros [->%elem_of_singleton|Hcv]%elem_of_union; [by apply edges_proper in He|].
           apply Hnew. by eapply Hclosed.
        -- rewrite (Hcount c Hc), bool_decide_eq_true_2 in Hone by (by apply elem_of_edges_from).
           apply length_zero_iff_nil. unfold len in Hone. injection Hone as Hone. lia.
    + intros (Hc & Hcv & Hn). destruct (decide ((k, c) ∈ edges)) as [He|He].
      * right. split; [done|]. rewrite (Hcount c Hc), bool_decide_eq_true_2 by (by apply elem_of_edges_from).
        by rewrite Hn.
      * left. split; [|set_solver]. split_and!; [done|set_solver|]. rewrite edges_into_nil in Hn |- *.
        intros d Hd. specialize (Hn d Hd). apply elem_of_union in Hn as [->%elem_of_singleton|]; done.
  - destruct Hrank as (rank & Hbound & Hr).
    exists (λ i, if bool_decide (i = k) then size V else rank i).
    rewrite size_union, size_singleton by set_solver. split.
    + intros i Hi. case_bool_decide; [lia|]. assert (rank i < size V); [apply Hbound; set_solver|lia].
    + intros d i He Hi. pose proof (edges_proper _ _ He) as Hne.
      destruct (decide (i = k)) as [->|Hik].
      * rewrite (bool_decide_eq_true_2 (k = k)), bool_decide_eq_false_2 by done. apply Hbound. by apply Hdeps.
      * assert (i ∈ V) as Hiv by set_solver. rewrite (bool_decide_eq_false_2 (i = k)) by done.
        rewrite bool_decide_eq_false_2; [by apply Hr|]. intros ->. apply Hnew. by eapply Hclosed.
Qed.

(** With fuel for the keys not yet visited, the loop counts all of them if the edges are
    acyclic, and fewer otherwise. *)
Lemma visit_ready_spec fuel children V R Z :
  (∀ k, k ∈ keys → children !! k = Some (edges_from k)) → (N.of_nat (size keys) ≤ usize_max)%N →
  visiting V R Z → size keys - size V < fuel →
  ∃ V', visit_ready fuel children R Z (N.of_nat (size V)) = Ok (N.of_nat (size V')) ∧
    ∃ R', visiting V' R' ∅.
Proof.
  intros Hch Hfit. revert V R Z. induction fuel as [|fuel IH]; intros V R Z Hv Hfuel; [lia|].
  cbn [visit_ready]. destruct (pop_first Z) as [[k Z0]|] eqn:Hpop.
  2: { apply pop_first_None in Hpop as ->. exists V. split; [done|by exists R]. }
  apply pop_first_Some in Hpop as (Hk & -> & _).
  destruct (proj1 (vi_ready _ _ _ Hv k) Hk) as (Hkk & Hnew & _).
  destruct (visiting_step V R Z k Hv Hk) as (R' & Z' & Hrun & Hv').
  rewrite Hch by done. cbn [expect rbind]. rewrite Hrun. cbn [rbind fst snd].
  assert (size ({[k]} ∪ V) = S (size V)) as Hsize by (rewrite size_union, size_singleton by set_solver; lia).
  assert (size ({[k]} ∪ V) ≤ size keys) as Hle by (apply subseteq_size, (vi_keys _ _ _ Hv')).
  assert (saturating_add (N.of_nat (size V)) 1 = N.of_nat (size ({[k]} ∪ V))) as ->.
  { unfold saturating_add. lia. }
  apply IH; [done|]. lia.
Qed.

Lemma visited_all V R : visiting V R ∅ → size V = size keys → acyclic_edges.
Proof.
  intros [Hkeys _ _ _ (rank & _ & Hr)] Hsz. exists rank. intros d i He. apply Hr; [done|].
  assert (V = keys) as -> by (apply set_eq; intros x; split; [set_solver|];
    intros Hx; destruct (decide (x ∈ V)); [done|]; exfalso;
    assert (size V < size keys); [apply subset_size; set_solver|lia]).
  by destruct (edges_known _ _ He).
Qed.

Lemma acyclic_visited V R : visiting V R ∅ → acyclic_edges → size V = size keys.
Proof.
  intros [Hkeys _ _ Hready _] (rank & Hr).
  assert (Hall : ∀ n k, rank k < n → k ∈ keys → k ∈ V).
  { induction n as [|n IH]; intros k Hlt Hk; [lia|]. destruct (decide (k ∈ V)) as [|Hout]; [done|].
    assert (k ∈ (∅ : gset string)); [|set_solver]. apply Hready. split_and!; [done..|].
    apply edges_into_nil. intros d Hd. apply IH; [specialize (Hr _ _ Hd); lia|by destruct (edges_known _ _ Hd)]. }
  f_equal. apply set_eq. intros k. split; [set_solver|]. intros Hk. apply (Hall (S (rank k))); [lia|done].
Qed.
End kahn.

(** ** What the indexing loops decide *)

(** [r] succeeds with [a] exactly if [P], and never panics. *)
Definition decides {E A} (r : res E A) (P : Prop) (a : A) : Prop :=
  match r with Ok x => P ∧ x = a | Err _ => ¬ P | Panic _ => False end.

Lemma decides_Ok {E A} (r : res E A) P a x : decides r P a → (r = Ok x ↔ P ∧ x = a).
Proof. destruct r; cbn; naive_solver. Qed.

Lemma decides_bind {E A B} (r : res E A) (k : A → res E B) P Q a b :
  decides r P a → (P → decides (k a) Q b) → decides (rbind r k) (P ∧ Q) b.
Proof.
  destruct r as [x|e|why]; cbn [decides rbind]; [|tauto|done].
  intros [HP ->] Hk. specialize (Hk HP). destruct (k a); cbn in *; tauto.
Qed.

Lemma decides_iff {E A} (r : res E A) P Q a : (P ↔ Q) → decides r P a → decides r Q a.
Proof. destruct r; cbn; tauto. Qed.

Lemma decides_if {E A} (b : bool) (e : E) (r : res E A) P a :
  decides r P a → decides (if b then Err e else r) (b = false ∧ P) a.
Proof. destruct b, r; cbn; intuition congruence. Qed.

Section index.
Context (state : RunState) (frontier : WorkFrontier) (context : PlanningContext).
Abbreviation step_key := ProposedPlanStep.key.

(** A step's key and objective are within their syntax. *)
Definition header_ok (step : ProposedPlanStep) : Prop :=
  valid_proposal_identifier (step_key step) = true ∧
  valid_bounded_text (ProposedPlanStep.objective step) MAX_ACCEPTED_OBJECTIVE_BYTES = true.

Lemma index_keys_decides steps keys :
  decides (for_each index_key steps keys)
    (Forall header_ok steps ∧ NoDup (step_key <$> steps) ∧ ∀ k, k ∈ step_key <$> steps → k ∉ keys)
    (list_to_set (step_key <$> steps) ∪ keys).
Proof.
  revert keys. induction steps as [|step steps IH]; intros keys; cbn [for_each fmap list_fmap].
  { cbn. split; [|set_solver]. split_and!; [constructor..|set_solver]. }
  change (list_to_set (step_key step :: (step_key <$> steps)))
    with ({[step_key step]} ∪ list_to_set (step_key <$> steps) : gset string).
  replace ({[step_key step]} ∪ list_to_set (step_key <$> steps) ∪ keys)
    with (list_to_set (step_key <$> steps) ∪ ({[step_key step]} ∪ keys) : gset string) by set_solver.
  eapply decides_iff; [|eapply decides_bind; [|intros _; exact (IH ({[step_key step]} ∪ keys))]].
  2: { unfold index_key. do 3 apply decides_if. by split. }
  rewrite Forall_cons, NoDup_cons, !negb_false_iff, bool_decide_eq_false. unfold header_ok.
  split; [|intros ((? & ?) & (? & ?) & Hk); split_and!; try done; set_solver].
  intros ((Hk & Hn & Hv & _) & Hf & Hnd & Hout). split_and!; try done; [|set_solver].
  intros Hin%Hout. set_solver.
Qed.

(** An existing step a proposal may wait for. *)
Definition existing_ok (step_id : string) : Prop :=
  valid_existing_step_id step_id = true ∧
  (∃ summary, summary ∈ PlanningContext.steps context ∧ PlanningStepSummary.step_id summary = step_id) ∧
  (∃ st, RunState.steps state !! step_id = Some st ∧ blocks_existing st = false) ∧
  ∀ blocked, blocked ∈ WorkFrontier.blocked frontier → BlockedStep.step_id blocked ≠ step_id.

Lemma existsb_eq {A} (f : A → string) l x :
  existsb (λ a, bool_decide (f a = x)) l = true ↔ ∃ a, a ∈ l ∧ f a = x.
Proof.
  rewrite existsb_exists. setoid_rewrite <-list_elem_of_In. by setoid_rewrite bool_decide_eq_true.
Qed.

Lemma check_existing_decides step_id :
  decides (check_existing_dependency state frontier context step_id) (existing_ok step_id) tt.
Proof.
  unfold check_existing_dependency, existing_ok.
  destruct (valid_existing_step_id step_id); cbn [negb]; [|by intros [? _]].
  destruct (existsb _ (PlanningContext.steps context)) eqn:Hex; cbn [negb].
  2: { apply not_true_iff_false in Hex. rewrite existsb_eq in Hex. by intros (_ & ? & _). }
  apply existsb_eq in Hex. destruct (RunState.steps state !! step_id) as [st|]; cbn [ok_or rbind];
    [|by intros (_ & _ & (? & ? & _) & _)].
  destruct (blocks_existing st) eqn:Hb; [by intros (_ & _ & (? & [= <-] & ?) & _); congruence|].
  destruct (existsb _ (WorkFrontier.blocked frontier)) eqn:Hbl; cbn.
  - apply existsb_eq in Hbl as (b & Hin & Heq). intros (_ & _ & _ & Hno). by apply (Hno b).
  - split; [|done]. split_and!; [done|done|by exists st|]. intros b Hin Heq.
    apply not_true_iff_false in Hbl. rewrite existsb_eq in Hbl. by destruct Hbl; exists b.
Qed.

Context (keys : gset string).

(** A dependency the step [key] may have. *)
Definition dependency_ok (key : string) (dependency : PlanDependency) : Prop :=
  match dependency with
  | PlanDependency.ExistingStep step_id => existing_ok step_id
  | PlanDependency.ProposedStep k => valid_proposal_identifier k = true ∧ k ≠ key ∧ k ∈ keys
  end.

Lemma insert_lookup_alter {A} (f : A → A) (m : gmap string A) k x :
  m !! k = Some x → <[k := f x]> m = alter f k m.
Proof. intros Hk. rewrite <-(insert_id m k x Hk) at 2. by rewrite alter_insert_eq. Qed.

(** The graph with one more dependency of [key]. *)
Definition add_edge (key : string) (g : ProposalGraph) (dependency : PlanDependency) : ProposalGraph :=
  let edge_count := (ProposalGraph.edge_count g + 1)%N in
  match dependency with
  | PlanDependency.ExistingStep _ =>
      ProposalGraph.mk edge_count (ProposalGraph.indegree g) (ProposalGraph.children g)
  | PlanDependency.ProposedStep k =>
      ProposalGraph.mk edge_count (alter (λ n, (n + 1)%N) key (ProposalGraph.indegree g))
        (alter (λ l, l ++ [key]) k (ProposalGraph.children g))
  end.

(** The maps are over the keys, and no degree exceeds the number of edges. *)
Record indexed (g : ProposalGraph) : Prop := {
  ix_indegree : dom (ProposalGraph.indegree g) = keys;
  ix_children : dom (ProposalGraph.children g) = keys;
  ix_degree k n : ProposalGraph.indegree g !! k = Some n → (n ≤ ProposalGraph.edge_count g)%N;
}.

Lemma indexed_add g key dependency : indexed g → indexed (add_edge key g dependency).
Proof.
  intros [Hi Hc Hd]. destruct dependency as [id|k]; split; cbn; rewrite ?dom_alter_L; try done.
  - intros j n Hn%Hd. lia.
  - intros j n. destruct (decide (j = key)) as [->|]; [rewrite lookup_alter_eq|rewrite lookup_alter_ne by done].
    + intros (x & Hx%Hd & ->)%fmap_Some. lia.
    + intros Hn%Hd. lia.
Qed.

Lemma index_dependency_decides key unique g dependency :
  indexed g → key ∈ keys → (ProposalGraph.edge_count g ≤ MAX_ACCEPTED_PLAN_EDGES)%N →
  decides (index_dependency state frontier context keys key (unique, g) dependency)
    ((ProposalGraph.edge_count g < MAX_ACCEPTED_PLAN_EDGES)%N ∧ (dependency ∉ unique)
     ∧ dependency_ok key dependency)
    (dependency :: unique, add_edge key g dependency).
Proof.
  intros [Hi Hc Hd] Hkey Hle. unfold index_dependency.
  assert (checked_add usize_max (ProposalGraph.edge_count g) 1 = Some (ProposalGraph.edge_count g + 1)%N) as ->.
  { apply checked_add_Some. split; [done|]. unfold MAX_ACCEPTED_PLAN_EDGES, usize_max, u64_max in *. lia. }
  cbn [ok_or rbind]. case_bool_decide as Hlt; [intros [? _]; lia|]. case_bool_decide as Hin; [by intros (_ & ? & _)|].
  assert (ProposalGraph.edge_count g < MAX_ACCEPTED_PLAN_EDGES)%N as Hlt' by lia.
  destruct dependency as [id|k]; cbn [dependency_ok].
  - eapply decides_iff; [|eapply decides_bind; [apply check_existing_decides|intros _; by apply (conj I)]].
    naive_solver.
  - unfold index_proposed_dependency. cbn.
    destruct (valid_proposal_identifier k); cbn [negb]; [|by intros (_ & _ & ? & _)].
    case_bool_decide as Hk; [by intros (_ & _ & _ & ? & _)|].
    case_bool_decide as Hkk; [by intros (_ & _ & _ & _ & ?)|].
    rewrite <-Hi in Hkey. apply elem_of_dom in Hkey as [n Hn]. rewrite Hn. cbn [expect rbind].
    assert (checked_add usize_max n 1 = Some (n + 1)%N) as ->.
    { apply checked_add_Some. split; [done|]. specialize (Hd _ _ Hn).
      unfold MAX_ACCEPTED_PLAN_EDGES, usize_max, u64_max in *. lia. }
    cbn [ok_or rbind]. pose proof Hkk as Hkc. rewrite <-Hc in Hkc. apply elem_of_dom in Hkc as [l Hl].
    rewrite Hl. cbn. split; [done|].
    by rewrite <-(insert_lookup_alter (λ n, (n + 1)%N) _ _ _ Hn), <-(insert_lookup_alter (λ l, l ++ [key]) _ _ _ Hl).
Qed.

Lemma edge_count_add key deps g :
  ProposalGraph.edge_count (foldl (add_edge key) g deps) = (ProposalGraph.edge_count g + len deps)%N.
Proof.
  revert g. induction deps as [|d deps IH]; intros g; cbn [foldl]; [unfold len; cbn; lia|].
  rewrite IH. unfold len. destruct d; cbn; lia.
Qed.

Lemma indexed_adds key deps g : indexed g → indexed (foldl (add_edge key) g deps).
Proof. revert g. induction deps as [|d deps IH]; intros g Hg; cbn; [done|]. by apply IH, indexed_add. Qed.

Lemma dependencies_decide key deps unique g :
  indexed g → key ∈ keys → (ProposalGraph.edge_count g ≤ MAX_ACCEPTED_PLAN_EDGES)%N →
  decides (for_each (index_dependency state frontier context keys key) deps (unique, g))
    ((ProposalGraph.edge_count g + len deps ≤ MAX_ACCEPTED_PLAN_EDGES)%N ∧ NoDup deps
     ∧ (∀ d, d ∈ deps → d ∉ unique) ∧ Forall (dependency_ok key) deps)
    (foldl (λ u d, d :: u) unique deps, foldl (add_edge key) g deps).
Proof.
  intros Hg Hkey. revert unique g Hg. induction deps as [|d deps IH]; intros unique g Hg Hle; cbn [for_each foldl].
  { cbn. split; [|done]. split_and!; [unfold len; cbn; lia|constructor|set_solver|constructor]. }
  pose proof (edge_count_add key [d] g) as Hone. unfold len in Hone. cbn in Hone.
  eapply decides_iff; [|eapply decides_bind; [by apply index_dependency_decides|]].
  2: { intros (Hlt & _). apply IH; [by apply indexed_add|lia]. }
  rewrite Hone, NoDup_cons, Forall_cons. unfold len. cbn [length]. split.
  - intros ((? & ? & ?) & ? & ? & Hu & ?). split_and!; try done; [lia| |].
    + intros Hd%Hu. set_solver.
    + intros x [->|Hx]%elem_of_cons; [done|]. specialize (Hu x Hx). set_solver.
  - intros (? & (Hd & ?) & Hu & ? & ?). split_and!; try done; [lia|by apply Hu; left|lia|].
    intros x Hx [->|Hxu]%elem_of_cons; [done|]. eapply Hu; [by right|done].
Qed.

(** A step's dependencies are proper and distinct. *)
Definition step_ok (step : ProposedPlanStep) : Prop :=
  NoDup (ProposedPlanStep.depends_on step) ∧
  Forall (dependency_ok (step_key step)) (ProposedPlanStep.depends_on step).

Definition add_step_edges (g : ProposalGraph) (step : ProposedPlanStep) : ProposalGraph :=
  foldl (add_edge (step_key step)) g (ProposedPlanStep.depends_on step).

Definition edge_total (steps : list ProposedPlanStep) : N :=
  foldr (λ step n, len (ProposedPlanStep.depends_on step) + n)%N 0%N steps.

Lemma steps_decide steps g :
  indexed g → (∀ step, step ∈ steps → step_key step ∈ keys) →
  (ProposalGraph.edge_count g ≤ MAX_ACCEPTED_PLAN_EDGES)%N →
  decides (for_each (index_step state frontier context keys) steps g)
    ((ProposalGraph.edge_count g + edge_total steps ≤ MAX_ACCEPTED_PLAN_EDGES)%N ∧ Forall step_ok steps)
    (foldl add_step_edges g steps).
Proof.
  revert g. induction steps as [|step steps IH]; intros g Hg Hkeys Hle; cbn [for_each foldl].
  { cbn. split; [|done]. split; [lia|constructor]. }
  pose proof (edge_count_add (step_key step) (ProposedPlanStep.depends_on step) g) as Hcount.
  change (foldl _ g _) with (add_step_edges g step) in Hcount.
  eapply decides_iff; [|eapply decides_bind].
  2: { unfold index_step. eapply (decides_bind _ _ _ True).
       - apply dependencies_decide; [done| |done]. apply Hkeys. left.
       - intros _. by split. }
  2: { intros ((Hlt & _) & _). apply IH; [by apply indexed_adds| |].
       - intros s Hs. apply Hkeys. by right.
       - cbn. rewrite Hcount. lia. }
  cbn [snd]. rewrite Hcount, Forall_cons. unfold step_ok. cbn [edge_total foldr]. fold (edge_total steps). split.
  - intros (((? & ? & _ & ?) & _) & ? & ?). split_and!; try done. lia.
  - intros (? & (? & ?) & ?). split_and!; try done; [lia|set_solver|lia].
Qed.

(** ** What the graph holds *)

Definition edge_of (key : string) (dependency : PlanDependency) : option (string * string) :=
  match dependency with
  | PlanDependency.ProposedStep k => Some (k, key)
  | PlanDependency.ExistingStep _ => None
  end.

Definition step_edges (step : ProposedPlanStep) : list (string * string) :=
  omap (edge_of (step_key step)) (ProposedPlanStep.depends_on step).
Definition proposed_edges (steps : list ProposedPlanStep) : list (string * string) := flat_map step_edges steps.

(** [g'] is [g] with the edges [es]. *)
Definition holds_edges (g : ProposalGraph) (es : list (string * string)) (g' : ProposalGraph) : Prop :=
  ∀ k, ProposalGraph.indegree g' !! k
         = (λ n, (n + len (filter (λ e : string * string, e.2 = k) es))%N) <$> ProposalGraph.indegree g !! k ∧
       ProposalGraph.children g' !! k
         = (λ l, l ++ (filter (λ e : string * string, e.1 = k) es).*2) <$> ProposalGraph.children g !! k.

Lemma holds_nothing g : holds_edges g [] g.
Proof.
  intros k. cbn. split; [destruct (ProposalGraph.indegree g !! k)|destruct (ProposalGraph.children g !! k)];
    cbn; [by rewrite N.add_0_r|done|by rewrite app_nil_r|done].
Qed.

Lemma holds_trans g1 g2 g3 es1 es2 :
  holds_edges g1 es1 g2 → holds_edges g2 es2 g3 → holds_edges g1 (es1 ++ es2) g3.
Proof.
  intros H12 H23 k. destruct (H12 k) as [E1 E2], (H23 k) as [E3 E4]. rewrite E3, E1, E4, E2, !filter_app. split.
  - destruct (ProposalGraph.indegree g1 !! k); cbn; [|done]. f_equal. unfold len. rewrite length_app. lia.
  - destruct (ProposalGraph.children g1 !! k); cbn; [|done]. by rewrite fmap_app, app_assoc.
Qed.

Lemma holds_add key g dependency :
  holds_edges g (match edge_of key dependency with Some e => [e] | None => [] end) (add_edge key g dependency).
Proof.
  destruct dependency as [id|d]; cbn [edge_of]; [apply (holds_nothing g)|]. intros k. rewrite !filter_cons.
  cbn [fst snd add_edge ProposalGraph.indegree ProposalGraph.children].
  split.
  - destruct (decide (key = k)) as [->|Hne]; [by rewrite lookup_alter_eq|].
    rewrite lookup_alter_ne by done. destruct (ProposalGraph.indegree g !! k); cbn; [by rewrite N.add_0_r|done].
  - destruct (decide (d = k)) as [->|Hne]; [by rewrite lookup_alter_eq|].
    rewrite lookup_alter_ne by done. destruct (ProposalGraph.children g !! k); cbn; [by rewrite app_nil_r|done].
Qed.

Lemma holds_steps steps g : holds_edges g (proposed_edges steps) (foldl add_step_edges g steps).
Proof.
  revert g. induction steps as [|step steps IH]; intros g; cbn [foldl proposed_edges flat_map]; [apply holds_nothing|].
  eapply holds_trans; [|apply IH]. unfold add_step_edges, step_edges.
  generalize (ProposedPlanStep.depends_on step) as deps. clear IH. intros deps. revert g.
  induction deps as [|d deps IHd]; intros g; cbn [foldl omap list_omap]; [apply holds_nothing|].
  pose proof (holds_trans _ _ _ _ _ (holds_add (step_key step) g d) (IHd (add_edge (step_key step) g d))) as Hg.
  by destruct (edge_of (step_key step) d).
Qed.
End index.

(** ** The check *)

(** A well-formed proposal. *)
Record proposal_ok (state : RunState) (frontier : WorkFrontier) (context : PlanningContext)
    (steps : list ProposedPlanStep) : Prop := {
  po_headers : Forall header_ok steps;
  po_keys : NoDup (ProposedPlanStep.key <$> steps);
  po_edges : (edge_total steps ≤ MAX_ACCEPTED_PLAN_EDGES)%N;
  po_steps : Forall (step_ok state frontier context (list_to_set (ProposedPlanStep.key <$> steps))) steps;
  po_acyclic : ∃ rank : string → nat, ∀ step k, step ∈ steps →
    PlanDependency.ProposedStep k ∈ ProposedPlanStep.depends_on step → rank k < rank (ProposedPlanStep.key step);
}.

Section check.
Context (state : RunState) (frontier : WorkFrontier) (context : PlanningContext).
Context (steps : list ProposedPlanStep).
Abbreviation keys := (list_to_set (ProposedPlanStep.key <$> steps) : gset string).
Abbreviation edges := (proposed_edges steps).

Lemma elem_of_step_edges step d i :
  (d, i) ∈ step_edges step ↔ i = ProposedPlanStep.key step ∧
    PlanDependency.ProposedStep d ∈ ProposedPlanStep.depends_on step.
Proof.
  unfold step_edges. rewrite list_elem_of_omap. split.
  - intros ([id|k] & Hin & Heq); cbn in Heq; [done|]. by simplify_eq.
  - intros [-> Hin]. by eexists.
Qed.

Lemma elem_of_edges d i :
  (d, i) ∈ edges ↔ ∃ step, step ∈ steps ∧ i = ProposedPlanStep.key step ∧
    PlanDependency.ProposedStep d ∈ ProposedPlanStep.depends_on step.
Proof.
  unfold proposed_edges. rewrite list_elem_of_In, in_flat_map. setoid_rewrite <-list_elem_of_In.
  by setoid_rewrite elem_of_step_edges.
Qed.

Lemma acyclic_iff :
  acyclic_edges edges ↔ ∃ rank : string → nat, ∀ step k, step ∈ steps →
    PlanDependency.ProposedStep k ∈ ProposedPlanStep.depends_on step →
    rank k < rank (ProposedPlanStep.key step).
Proof.
  unfold acyclic_edges. setoid_rewrite elem_of_edges. split; intros [rank Hr]; exists rank.
  - intros step k Hs Hk. apply Hr. by exists step.
  - intros d i (step & Hs & -> & Hk). by apply Hr.
Qed.

Lemma edges_facts :
  NoDup (ProposedPlanStep.key <$> steps) → Forall (step_ok state frontier context keys) steps →
  NoDup edges ∧ (∀ d i, (d, i) ∈ edges → d ∈ keys ∧ i ∈ keys) ∧ (∀ d i, (d, i) ∈ edges → d ≠ i).
Proof.
  intros Hnd Hok. rewrite Forall_forall in Hok. split_and!.
  - unfold proposed_edges. assert (Hdeps : ∀ s, s ∈ steps → NoDup (ProposedPlanStep.depends_on s))
      by (intros s Hs; apply (Hok s Hs)).
    clear Hok. induction steps as [|s l IH]; cbn [flat_map]; [constructor|].
    apply NoDup_cons in Hnd as [Hout Hnd]. apply NoDup_app. split_and!.
    + unfold step_edges. assert (NoDup (ProposedPlanStep.depends_on s)) as Hs by (apply Hdeps; left).
      clear -Hs. induction Hs as [|d deps Hd _ IH]; cbn; [constructor|].
      destruct (edge_of _ d) as [e|] eqn:He; [|done]. apply NoDup_cons. split; [|done].
      intros (d' & Hd' & He')%list_elem_of_omap. destruct d, d'; cbn in *; simplify_eq. by apply Hd.
    + intros [d i] [-> _]%elem_of_step_edges Hin. apply Hout.
      rewrite list_elem_of_In, in_flat_map in Hin. destruct Hin as (s' & Hs' & Hin).
      apply list_elem_of_In in Hs', Hin. apply elem_of_step_edges in Hin as [-> _]. by apply list_elem_of_fmap_2.
    + apply IH; [done|]. intros s' Hs'. apply Hdeps. by right.
  - intros d i (step & Hs & -> & Hd)%elem_of_edges. destruct (Hok _ Hs) as [_ Hdeps].
    rewrite Forall_forall in Hdeps. destruct (Hdeps _ Hd) as (_ & _ & Hk). split; [done|].
    apply elem_of_list_to_set. by apply list_elem_of_fmap_2.
  - intros d i (step & Hs & -> & Hd)%elem_of_edges. destruct (Hok _ Hs) as [_ Hdeps].
    rewrite Forall_forall in Hdeps. by destruct (Hdeps _ Hd) as (_ & Hk & _).
Qed.

Lemma edges_into_none k : edges_into edges ∅ k = filter (λ e : string * string, e.2 = k) edges.
Proof. unfold edges_into. apply list_filter_iff. intros [d i]. set_solver. Qed.

Abbreviation start := (ProposalGraph.mk 0 (gset_to_gmap 0%N keys) (gset_to_gmap [] keys)).

Lemma indexed_start : indexed keys start.
Proof.
  split; cbn; [apply dom_gset_to_gmap..|]. intros k n [_ <-]%lookup_gset_to_gmap_Some. done.
Qed.

(** The visit of the indexed graph counts every key exactly if the proposal is acyclic. *)
Lemma visit_decides :
  (len steps ≤ usize_max)%N → NoDup (ProposedPlanStep.key <$> steps) →
  Forall (step_ok state frontier context keys) steps →
  let g := foldl add_step_edges start steps in
  ∃ n, visit_ready (S (size keys)) (ProposalGraph.children g) (ProposalGraph.indegree g)
         (dom (filter (λ entry, entry.2 = 0%N) (ProposalGraph.indegree g))) 0 = Ok n ∧
    (n = len steps ↔ acyclic_edges edges).
Proof.
  intros Hfit Hnd Hok g. destruct (edges_facts Hnd Hok) as (Hed & Hknown & Hproper).
  assert (size keys = length steps) as Hsize by (rewrite size_list_to_set by done; apply length_fmap).
  assert (Hin : ∀ k, k ∈ keys → ProposalGraph.indegree g !! k = Some (len (edges_into edges ∅ k)) ∧
                ProposalGraph.children g !! k = Some (edges_from edges k)).
  { intros k Hk. destruct (holds_steps steps start k) as [E1 E2]. fold g in E1, E2. rewrite E1, E2. cbn.
    rewrite edges_into_none. by rewrite !(proj2 (lookup_gset_to_gmap_Some _ _ _ _)) by done. }
  assert (Hdom : ∀ k, is_Some (ProposalGraph.indegree g !! k) → k ∈ keys).
  { intros k Hk. destruct (holds_steps steps start k) as [E1 _]. fold g in E1. rewrite E1 in Hk. cbn in Hk.
    apply fmap_is_Some in Hk as [n Hn]. by apply lookup_gset_to_gmap_Some in Hn as [? _]. }
  destruct (visit_ready_spec keys edges Hed Hknown Hproper (S (size keys)) (ProposalGraph.children g) ∅
    (ProposalGraph.indegree g) (dom (filter (λ entry, entry.2 = 0%N) (ProposalGraph.indegree g))))
    as (V & Hrun & R & HV).
  - intros k Hk. by apply Hin.
  - unfold len in Hfit. by rewrite Hsize.
  - apply visiting_init; [done..|intros k Hk; by apply Hin|]. intros k. rewrite elem_of_dom. split.
    + intros [n [Hn Hz]%map_lookup_filter_Some]. cbn in Hz. subst.
      assert (k ∈ keys) as Hk by (apply Hdom; by exists 0%N). split; [done|].
      destruct (Hin k Hk) as [E _]. rewrite Hn in E. apply length_zero_iff_nil. unfold len in E.
      injection E as E. lia.
    + intros [Hk Hz]. exists 0%N. apply map_lookup_filter_Some. split; [|done].
      rewrite (proj1 (Hin k Hk)), Hz. done.
  - lia.
  - exists (N.of_nat (size V)). rewrite size_empty in Hrun. split; [exact Hrun|]. unfold len. split.
    + intros Heq%Nat2N.inj. eapply visited_all; [done..|exact HV|by rewrite Hsize].
    + intros Ha. f_equal. rewrite <-Hsize. by eapply acyclic_visited.
Qed.

Lemma structure_decides :
  (len steps ≤ usize_max)%N →
  decides (validate_proposal_structure state frontier context steps)
    (proposal_ok state frontier context steps) tt.
Proof.
  intros Hfit. unfold validate_proposal_structure.
  eapply decides_iff with (P := (Forall header_ok steps ∧ NoDup (ProposedPlanStep.key <$> steps) ∧ _)
    ∧ (_ ∧ Forall (step_ok state frontier context keys) steps) ∧ acyclic_edges edges).
  2: { eapply decides_bind; [apply (index_keys_decides steps ∅)|]. intros (_ & Hnd & _).
       rewrite !union_empty_r_L.
       eapply decides_bind; [apply steps_decide; [apply indexed_start| |done]|].
       { intros s Hs. apply elem_of_list_to_set. by apply list_elem_of_fmap_2. }
       intros [_ Hok]. destruct (visit_decides Hfit Hnd Hok) as (n & Hn & Hiff). rewrite ?union_empty_r_L, Hn.
       cbn [rbind].
       case_bool_decide as Hc; cbn; [by rewrite <-Hiff|]. by rewrite <-Hiff. }
  rewrite acyclic_iff. cbn. rewrite N.add_0_l. split.
  - intros ((? & ? & _) & (? & ?) & ?). by split.
  - intros []. by split_and!.
Qed.
End check.
