(* ===== verification/StoreSpec.v ===== *)
(** What the index of the local store means: the sidecar half of the index as a function of the
    stored sidecars, the agreement of each kind of sidecar with the journal's anchors, the loops
    of the audit, which compute that function when the sidecars agree, and what a lookup yields. *)

From S2P Require Import Prelude Text Wire WorkGraphTypes WorkGraphErrors Planning Material.
From S2P Require Import ToolOutput Completion Journal Reducer Receipt StoreTypes StoreBundles.
From S2P Require Import StoreIndex StoreSidecars Frontier FrontierProofs FrontierTheorems.
From S2P Require Import AgentLoop Plans Effects StepMachine RunInvariant ReducerTheorems.
From S2P Require Import JournalTheorems.

Module V := VerifiedRunIndex.

(** ** The sidecar half of the index *)

Definition stored_outputs_with (f : ToolOutputRecord → string) (outputs : gmap string StoredToolOutput)
    : gset string :=
  list_to_set ((λ p, f (StoredToolOutput.record p.2)) <$> map_to_list outputs).

Definition with_outputs (outputs : gmap string StoredToolOutput) (i : VerifiedRunIndex)
    : VerifiedRunIndex :=
  V.set_tool_output_identities (dom outputs)
    (stored_outputs_with ToolOutputRecord.output_id outputs)
    (stored_outputs_with ToolOutputRecord.record_digest outputs)
    ((λ o, ToolOutputRecord.output_digest (StoredToolOutput.record o)) <$> outputs)
    ((λ o, ToolOutputRecord.canonical_size_bytes (StoredToolOutput.record o)) <$> outputs) i.

Definition stored_receipt_id (r : StoredExecutionReceipt) : string :=
  ExecutionReceiptBody.receipt_id (StoredExecutionReceipt.receipt r).
Definition stored_receipt_digest (r : StoredExecutionReceipt) : string :=
  ExecutionReceiptBody.receipt_digest (StoredExecutionReceipt.receipt r).

(** The digest the next receipt must name. *)
Definition chain_head (receipts : list StoredExecutionReceipt) : option string :=
  stored_receipt_digest <$> last receipts.

Definition with_receipts (receipts : list StoredExecutionReceipt) (i : VerifiedRunIndex)
    : VerifiedRunIndex :=
  V.set_receipt_identities (list_to_set (stored_receipt_id <$> receipts))
    (list_to_set (stored_receipt_digest <$> receipts))
    (list_to_set (StoredExecutionReceipt.effect_id <$> receipts)) i.

(** The journal's index completed with every stored sidecar. *)
Definition with_sidecars (inputs : gmap string PlannedInvocationMaterialRecord)
    (materials : gmap string InvocationMaterialRecord) (outputs : gmap string StoredToolOutput)
    (receipts : list StoredExecutionReceipt) (base : VerifiedRunIndex) : VerifiedRunIndex :=
  V.set_receipt_head_digest (chain_head receipts)
    (with_receipts receipts
      (with_outputs outputs
        (V.set_material_effect_ids (dom materials)
          (V.set_plan_input_step_ids (dom inputs) base)))).

Lemma elem_of_stored_outputs f outputs x :
  x ∈ stored_outputs_with f outputs ↔
  ∃ e o, outputs !! e = Some o ∧ f (StoredToolOutput.record o) = x.
Proof.
  unfold stored_outputs_with. rewrite elem_of_list_to_set, list_elem_of_fmap. split.
  - intros ([e o] & -> & Hin%elem_of_map_to_list). by exists e, o.
  - intros (e & o & Ho & <-). exists (e, o). by rewrite elem_of_map_to_list.
Qed.

Lemma stored_outputs_insert f outputs e o :
  outputs !! e = None →
  stored_outputs_with f (<[e := o]> outputs)
  = {[f (StoredToolOutput.record o)]} ∪ stored_outputs_with f outputs.
Proof.
  intros He. unfold stored_outputs_with. apply set_eq. intros x.
  by rewrite map_to_list_insert, fmap_cons by done.
Qed.

(** Storing an output and recording its identities is the same step. *)
Lemma with_outputs_insert outputs e o i :
  outputs !! e = None →
  with_outputs (<[e := o]> outputs) i
  = record_tool_output e (StoredToolOutput.record o) (with_outputs outputs i).
Proof.
  intros He. unfold with_outputs, record_tool_output.
  rewrite !stored_outputs_insert, dom_insert_L, !fmap_insert by done. done.
Qed.

Lemma with_outputs_empty i :
  V.tool_output_effect_ids i = ∅ → V.tool_output_ids i = ∅ →
  V.tool_output_record_digests i = ∅ → V.tool_output_digests i = ∅ →
  V.tool_output_sizes i = ∅ → with_outputs ∅ i = i.
Proof.
  intros H1 H2 H3 H4 H5. unfold with_outputs, stored_outputs_with.
  rewrite dom_empty_L, !fmap_empty, map_to_list_empty. destruct i; cbn in *. by subst.
Qed.

Lemma list_to_set_snoc (l : list string) (x : string) :
  (list_to_set (l ++ [x]) : gset string) = {[x]} ∪ list_to_set l.
Proof. rewrite list_to_set_app_L. cbn. set_solver. Qed.

(** Storing a receipt and recording its identities is the same step. *)
Lemma with_receipts_snoc receipts r i :
  with_receipts (receipts ++ [r]) i
  = record_receipt (StoredExecutionReceipt.effect_id r) (StoredExecutionReceipt.receipt r)
      (with_receipts receipts i).
Proof.
  unfold with_receipts, record_receipt. rewrite !fmap_app. cbn [fmap list_fmap].
  by rewrite !list_to_set_snoc.
Qed.

Lemma chain_head_snoc receipts r : chain_head (receipts ++ [r]) = Some (stored_receipt_digest r).
Proof. unfold chain_head. by rewrite last_snoc. Qed.

(** ** Agreement with the journal *)

Section agreement.
Context `{Crypto} `{ReceiptSchema} `{Rfc3339}.

(** Every accepted step has its input, and no other step has one. *)
Record inputs_agree (i : VerifiedRunIndex) (inputs : gmap string PlannedInvocationMaterialRecord)
    : Prop := {
  ia_dom : dom inputs = dom (V.planned_invocations i);
  ia_verified id a input : V.planned_invocations i !! id = Some a → inputs !! id = Some input →
    ∃ s, V.state i = Some s ∧
      PlannedInvocationMaterialRecord_verify_for input (RunState.run_id s) id
        (PlannedInvocationAnchor.binding a) = Ok tt;
}.

(** Every effect intent has its material, and no other effect has one. *)
Record materials_agree (i : VerifiedRunIndex) (materials : gmap string InvocationMaterialRecord)
    : Prop := {
  ma_dom : dom materials = dom (V.intents i);
  ma_verified e a m : V.intents i !! e = Some a → materials !! e = Some m →
    ∃ s, V.state i = Some s ∧
      InvocationMaterialRecord_verify_for m (RunState.run_id s) (EffectIntentAnchor.step_id a)
        (EffectIntentAnchor.intent a) = Ok tt;
}.

(** Every output-bound success has its output, and identities are not shared. *)
Record outputs_agree (i : VerifiedRunIndex) (outputs : gmap string StoredToolOutput) : Prop := {
  oa_dom : dom outputs = dom (V.tool_output_events i);
  oa_key e a : V.tool_output_events i !! e = Some a → ToolOutputEventAnchor.effect_id a = e;
  oa_verified e a o : V.tool_output_events i !! e = Some a → outputs !! e = Some o →
    verify_stored_tool_output i a o = Ok tt;
  oa_ids e1 e2 o1 o2 : outputs !! e1 = Some o1 → outputs !! e2 = Some o2 →
    ToolOutputRecord.output_id (StoredToolOutput.record o1)
      = ToolOutputRecord.output_id (StoredToolOutput.record o2) → e1 = e2;
  oa_digests e1 e2 o1 o2 : outputs !! e1 = Some o1 → outputs !! e2 = Some o2 →
    ToolOutputRecord.record_digest (StoredToolOutput.record o1)
      = ToolOutputRecord.record_digest (StoredToolOutput.record o2) → e1 = e2;
}.

(** The receipts are those of the finalization events, in order and chained. *)
Record receipts_agree (i : VerifiedRunIndex) (receipts : list StoredExecutionReceipt) : Prop := {
  ra_length : length (V.receipt_events i) = length receipts;
  ra_verified k a r : V.receipt_events i !! k = Some a → receipts !! k = Some r →
    verify_stored_receipt i (chain_head (take k receipts)) a r = Ok tt;
  ra_ids : NoDup (stored_receipt_id <$> receipts);
  ra_digests : NoDup (stored_receipt_digest <$> receipts);
  ra_effects : NoDup (StoredExecutionReceipt.effect_id <$> receipts);
}.

(** ** The audit loops *)

Lemma for_each_unit {A} (f : A → res StoreError unit) l :
  (∀ a, a ∈ l → f a = Ok tt) → for_each (λ _, f) l tt = Ok tt.
Proof.
  induction l as [|a l IH]; intros Hf; [done|]. cbn. rewrite Hf by left. cbn.
  apply IH. intros b Hb. apply Hf. by right.
Qed.

Lemma audit_inputs i inputs :
  inputs_agree i inputs →
  verify_plan_input_records i inputs = Ok (V.set_plan_input_step_ids (dom inputs) i).
Proof.
  intros [Hdom Hv]. unfold verify_plan_input_records. rewrite for_each_unit.
  - cbn [rbind]. rewrite <-!size_dom, Hdom, bool_decide_eq_false_2 by auto. done.
  - intros [id a] Ha%elem_of_btree_entries. cbn.
    assert (is_Some (inputs !! id)) as [input Hin].
    { apply elem_of_dom. rewrite Hdom. by apply elem_of_dom. }
    destruct (Hv _ _ _ Ha Hin) as (s & Hs & Hok).
    unfold indexed_run_id. rewrite Hin, Hs. cbn. by rewrite Hok.
Qed.

Lemma audit_materials i materials :
  materials_agree i materials →
  verify_material_records i materials = Ok (V.set_material_effect_ids (dom materials) i).
Proof.
  intros [Hdom Hv]. unfold verify_material_records. rewrite for_each_unit.
  - cbn [rbind]. rewrite <-!size_dom, Hdom, bool_decide_eq_false_2 by auto. done.
  - intros [e a] Ha%elem_of_btree_entries. cbn.
    assert (is_Some (materials !! e)) as [m Hm].
    { apply elem_of_dom. rewrite Hdom. by apply elem_of_dom. }
    destruct (Hv _ _ _ Ha Hm) as (s & Hs & Hok).
    unfold indexed_run_id. rewrite Hm, Hs. cbn. by rewrite Hok.
Qed.

(** The anchors the audit visits: each event of the index once, under its own effect. *)
Lemma output_anchors_facts i outputs (cmp : ToolOutputEventAnchor → ToolOutputEventAnchor → comparison) :
  outputs_agree i outputs →
  let anchors := sort_by cmp (btree_values (V.tool_output_events i)) in
  (∀ a, a ∈ anchors ↔ V.tool_output_events i !! ToolOutputEventAnchor.effect_id a = Some a) ∧
  NoDup (ToolOutputEventAnchor.effect_id <$> anchors).
Proof.
  intros Hag anchors. pose proof (oa_key _ _ Hag) as Hkey. unfold anchors. split.
  - intros a. rewrite sort_by_perm, elem_of_btree_values. split; [|by eexists].
    intros [e He]. by rewrite (Hkey _ _ He).
  - rewrite sort_by_perm. unfold btree_values. rewrite <-list_fmap_compose.
    rewrite (list_fmap_ext _ fst).
    + rewrite btree_entries_keys. apply NoDup_btree_keys.
    + intros k [e a] Hk. cbn. apply Hkey, elem_of_btree_entries. by eapply list_elem_of_lookup_2.
Qed.

(** One round: the output of a new anchor joins those already recorded. *)
Lemma audit_output i outputs m a o :
  let e := ToolOutputEventAnchor.effect_id a in
  outputs_agree i outputs → m ⊆ outputs → m !! e = None →
  V.tool_output_events i !! e = Some a → outputs !! e = Some o →
  verify_tool_output_anchor outputs (with_outputs m i) a = Ok (with_outputs (<[e := o]> m) i).
Proof.
  intros e [_ _ Hv Hids Hdigests] Hsub Hme Ha Ho. unfold verify_tool_output_anchor. fold e.
  rewrite Ho. cbn [ok_or rbind].
  change (verify_stored_tool_output (with_outputs m i) a o) with (verify_stored_tool_output i a o).
  rewrite (Hv _ _ _ Ha Ho). cbn [rbind]. rewrite with_outputs_insert by done.
  unfold index_tool_output. fold e. rewrite !bool_decide_eq_false_2; [done|..]; cbn.
  - rewrite lookup_fmap, Hme. by intros [? ?].
  - rewrite lookup_fmap, Hme. by intros [? ?].
  - intros (e' & o' & Ho' & Heq)%elem_of_stored_outputs.
    pose proof (Hdigests e' e o' o (lookup_weaken _ _ _ _ Ho' Hsub) Ho Heq). congruence.
  - intros (e' & o' & Ho' & Heq)%elem_of_stored_outputs.
    pose proof (Hids e' e o' o (lookup_weaken _ _ _ _ Ho' Hsub) Ho Heq). congruence.
  - by apply not_elem_of_dom.
Qed.

Lemma audit_outputs i outputs :
  outputs_agree i outputs → with_outputs ∅ i = i →
  verify_tool_output_records i outputs = Ok (with_outputs outputs i).
Proof.
  intros Hag Hempty. pose proof (oa_dom _ _ Hag) as Hdom. unfold verify_tool_output_records.
  rewrite bool_decide_eq_false_2 by (rewrite <-!size_dom, Hdom; auto).
  destruct (output_anchors_facts i outputs (on ToolOutputEventAnchor.event_sequence N.compare) Hag)
    as [Hanchors Hnd].
  set (anchors := sort_by _ _) in *. clearbody anchors.
  destruct (for_each_ok (verify_tool_output_anchor outputs)
    (λ pre idx, ∃ m, idx = with_outputs m i ∧ m ⊆ outputs ∧
       dom m = list_to_set (ToolOutputEventAnchor.effect_id <$> pre)) anchors i)
    as (idx & Hrun & m & -> & Hsub & Hm).
  - exists ∅. split_and!; [done|apply map_empty_subseteq|by rewrite dom_empty_L].
  - intros pre a rest idx Hl (m & -> & Hsub & Hm).
    assert (Ha : a ∈ anchors) by (rewrite Hl; set_solver). apply Hanchors in Ha.
    assert (is_Some (outputs !! ToolOutputEventAnchor.effect_id a)) as [o Ho].
    { apply elem_of_dom. rewrite Hdom. apply elem_of_dom. by eexists. }
    exists (with_outputs (<[ToolOutputEventAnchor.effect_id a := o]> m) i). split.
    + apply audit_output; try done. apply not_elem_of_dom. rewrite Hm, elem_of_list_to_set.
      rewrite Hl, fmap_app in Hnd. apply NoDup_app in Hnd as (_ & Hdis & _).
      intros Hin. apply (Hdis _ Hin). left.
    + eexists. split_and!; [done|by apply insert_subseteq_l|].
      rewrite dom_insert_L, Hm, fmap_app. cbn [fmap list_fmap]. by rewrite list_to_set_snoc.
  - rewrite Hrun. do 2 f_equal. apply map_eq. intros e.
    destruct (m !! e) as [o|] eqn:He; [by rewrite (lookup_weaken _ _ _ _ He Hsub)|].
    symmetry. apply not_elem_of_dom. apply not_elem_of_dom in He. rewrite Hdom. rewrite Hm in He.
    intros [a Ha]%elem_of_dom. apply He. rewrite elem_of_list_to_set.
    pose proof (oa_key _ _ Hag _ _ Ha) as <-. by apply list_elem_of_fmap_2, Hanchors.
Qed.

Lemma NoDup_fmap_snoc {A} (f : A → string) pre x :
  NoDup (f <$> pre ++ [x]) → f x ∉ (list_to_set (f <$> pre) : gset string).
Proof.
  rewrite fmap_app, elem_of_list_to_set. intros (_ & Hdis & _)%NoDup_app Hin.
  apply (Hdis _ Hin). left.
Qed.

(** The effect a stored receipt was verified for. *)
Lemma verify_stored_receipt_effect i prev a r u :
  verify_stored_receipt i prev a r = Ok u →
  StoredExecutionReceipt.effect_id r = ReceiptEventAnchor.effect_id a.
Proof. unfold verify_stored_receipt. intros Hv. repeat res_step. bool_inv. done. Qed.

(** One round: a receipt at its place in the chain. *)
Lemma audit_receipt i pre a r :
  verify_stored_receipt i (chain_head pre) a r = Ok tt →
  NoDup (stored_receipt_id <$> pre ++ [r]) → NoDup (stored_receipt_digest <$> pre ++ [r]) →
  NoDup (StoredExecutionReceipt.effect_id <$> pre ++ [r]) →
  verify_receipt_record (with_receipts pre i, chain_head pre) (a, r)
  = Ok (with_receipts (pre ++ [r]) i, chain_head (pre ++ [r])).
Proof.
  intros Hv Hids Hdigests Heffects. pose proof (verify_stored_receipt_effect _ _ _ _ _ Hv) as He.
  unfold verify_receipt_record.
  change (verify_stored_receipt (with_receipts pre i)) with (verify_stored_receipt i).
  rewrite Hv. cbn [rbind]. rewrite with_receipts_snoc, chain_head_snoc, He.
  rewrite !bool_decide_eq_false_2; [done|..]; cbn.
  - rewrite <-He. by apply NoDup_fmap_snoc.
  - by apply (NoDup_fmap_snoc stored_receipt_digest).
  - by apply (NoDup_fmap_snoc stored_receipt_id).
Qed.

Lemma audit_receipts i receipts :
  receipts_agree i receipts → with_receipts [] i = i →
  verify_receipt_records i receipts
  = Ok (V.set_receipt_head_digest (chain_head receipts) (with_receipts receipts i)).
Proof.
  intros [Hlen Hv Hids Hdigests Heffects] Hempty. unfold verify_receipt_records.
  rewrite bool_decide_eq_false_2 by auto.
  destruct (for_each_ok verify_receipt_record
    (λ pre chain, chain = (with_receipts pre.*2 i, chain_head pre.*2))
    (zip (V.receipt_events i) receipts) (i, None)) as (chain & -> & ->).
  - by rewrite fmap_nil, Hempty.
  - intros pre [a r] rest chain Hl ->. eexists. split; [|done].
    assert (Hsnd : receipts = pre.*2 ++ r :: rest.*2).
    { rewrite <-(snd_zip (V.receipt_events i) receipts), Hl, fmap_app by lia. done. }
    assert (Hk : zip (V.receipt_events i) receipts !! length pre = Some (a, r)).
    { rewrite Hl. by apply list_lookup_middle. }
    apply lookup_zip_Some in Hk as [Ha Hr].
    assert (Htake : take (length pre) receipts = pre.*2).
    { rewrite Hsnd, take_app_length'; [done|by rewrite length_fmap]. }
    rewrite fmap_app. apply audit_receipt.
    + rewrite <-Htake. by apply (Hv (length pre)).
    + rewrite Hsnd, cons_middle, app_assoc, fmap_app in Hids. by apply NoDup_app in Hids as (? & _).
    + rewrite Hsnd, cons_middle, app_assoc, fmap_app in Hdigests.
      by apply NoDup_app in Hdigests as (? & _).
    + rewrite Hsnd, cons_middle, app_assoc, fmap_app in Heffects.
      by apply NoDup_app in Heffects as (? & _).
  - cbn [rbind]. by rewrite snd_zip by lia.
Qed.

End agreement.

(** ** The journal half of the index *)

(** A function on indexes that leaves alone what a journal event reads and writes. *)
Record frame (F : VerifiedRunIndex → VerifiedRunIndex) : Prop := {
  fr_steps i : V.step_positions (F i) = V.step_positions i;
  fr_planned i : V.planned_invocations (F i) = V.planned_invocations i;
  fr_intents i : V.intents (F i) = V.intents i;
  fr_starts i : V.effect_starts (F i) = V.effect_starts i;
  fr_receipts i : V.receipt_events (F i) = V.receipt_events i;
  fr_positions i : V.receipt_event_positions (F i) = V.receipt_event_positions i;
  fr_outputs i : V.tool_output_events (F i) = V.tool_output_events i;
  fr_completion i : V.completion_output_event (F i) = V.completion_output_event i;
  fr_set_steps v i : V.set_step_positions v (F i) = F (V.set_step_positions v i);
  fr_set_planned v i : V.set_planned_invocations v (F i) = F (V.set_planned_invocations v i);
  fr_set_intents v i : V.set_intents v (F i) = F (V.set_intents v i);
  fr_set_starts v i : V.set_effect_starts v (F i) = F (V.set_effect_starts v i);
  fr_set_receipts v w i : V.set_receipt_events v w (F i) = F (V.set_receipt_events v w i);
  fr_set_outputs v i : V.set_tool_output_events v (F i) = F (V.set_tool_output_events v i);
  fr_set_completion v i :
    V.set_completion_output_event v (F i) = F (V.set_completion_output_event v i);
}.

Lemma frame_with_sidecars a b c d : frame (with_sidecars a b c d).
Proof. by split. Qed.
Lemma frame_set_state v : frame (V.set_state v).
Proof. by split. Qed.
Lemma frame_set_event_ids v : frame (V.set_event_ids v).
Proof. by split. Qed.

(** A loop of framed rounds is framed. *)
Lemma for_each_frame {A} (F : VerifiedRunIndex → VerifiedRunIndex)
    (f : VerifiedRunIndex → A → res StoreError VerifiedRunIndex) l i :
  (∀ i a, f (F i) a = rmap F (f i a)) → for_each f l (F i) = rmap F (for_each f l i).
Proof.
  intros Hf. revert i. induction l as [|a l IH]; intros i; [done|]. cbn. rewrite Hf.
  destruct (f i a); cbn; auto.
Qed.

Section framed.
Context (F : VerifiedRunIndex → VerifiedRunIndex) (HF : frame F).

Lemma tool_output_anchor_frame i r :
  VerifiedRunIndex_tool_output_anchor_for (F i) r = VerifiedRunIndex_tool_output_anchor_for i r.
Proof. unfold VerifiedRunIndex_tool_output_anchor_for. by rewrite (fr_intents _ HF), (fr_starts _ HF). Qed.

Lemma receipt_anchor_frame i r :
  VerifiedRunIndex_receipt_anchor_for (F i) r = VerifiedRunIndex_receipt_anchor_for i r.
Proof. unfold VerifiedRunIndex_receipt_anchor_for. by rewrite (fr_intents _ HF), (fr_starts _ HF). Qed.

Lemma index_accepted_frame seq i entry :
  index_accepted_step seq (F i) entry = rmap F (index_accepted_step seq i entry).
Proof.
  destruct entry as [k p]. unfold index_accepted_step, rmap.
  rewrite (fr_steps _ HF), (fr_planned _ HF).
  destruct (insert_new _ _ _ (V.step_positions i)); cbn; [|done..].
  destruct (insert_new _ _ _ (V.planned_invocations i)); cbn; [|done..].
  by rewrite (fr_set_steps _ HF), (fr_set_planned _ HF).
Qed.

Lemma index_receipt_frame i r :
  VerifiedRunIndex_index_receipt_event (F i) r = rmap F (VerifiedRunIndex_index_receipt_event i r).
Proof.
  unfold VerifiedRunIndex_index_receipt_event, rmap. rewrite receipt_anchor_frame.
  rewrite (fr_receipts _ HF), (fr_positions _ HF).
  destruct (VerifiedRunIndex_receipt_anchor_for i r) as [a| |]; cbn; [|done..].
  destruct (insert_new _ _ _ _); cbn; [|done..]. by rewrite (fr_set_receipts _ HF).
Qed.

Lemma index_body_frame i r : index_body (F i) r = rmap F (index_body i r).
Proof.
  unfold index_body, start_anchor.
  destruct (RunEvent.body (EventRecord.event r)) as [| | | | | | |? ? ? []| | | | |? ? ? []| | | | | | | |];
    try done.
  - apply for_each_frame, index_accepted_frame.
  - rewrite (fr_completion _ HF). unfold rmap. destruct (bool_decide _); [done|].
    destruct (VerifiedRunIndex_completion_output_anchor_for r); cbn; [|done..].
    by rewrite (fr_set_completion _ HF).
  - rewrite (fr_steps _ HF). unfold rmap. destruct (insert_new _ _ _ _); cbn; [|done..].
    by rewrite (fr_set_steps _ HF).
  - rewrite (fr_intents _ HF). unfold rmap. destruct (insert_new _ _ _ _); cbn; [|done..].
    by rewrite (fr_set_intents _ HF).
  - rewrite (fr_starts _ HF). cbn. by rewrite (fr_set_starts _ HF).
  - rewrite tool_output_anchor_frame, (fr_outputs _ HF). unfold rmap.
    destruct (VerifiedRunIndex_tool_output_anchor_for i r); cbn; [|done..].
    destruct (insert_new _ _ _ _); cbn; [|done..]. by rewrite (fr_set_outputs _ HF).
  - apply index_receipt_frame.
Qed.
End framed.

(** The state an index is built for is carried along unread. *)
Lemma index_record_state v i r : index_record (V.set_state v i) r = rmap (V.set_state v) (index_record i r).
Proof.
  unfold index_record, rmap. cbn. destruct (bool_decide _); [done|].
  change (V.set_event_ids ?x (V.set_state v i)) with (V.set_state v (V.set_event_ids x i)).
  rewrite (index_body_frame _ (frame_set_state v)). unfold rmap.
  by destruct (index_body _ r).
Qed.

Lemma index_records_state v records i :
  for_each index_record records (V.set_state v i) = rmap (V.set_state v) (for_each index_record records i).
Proof. apply for_each_frame, index_record_state. Qed.

(** ** Accepted plans *)

Lemma enumerate_snd {A} (l : list A) : (enumerate l).*2 = l.
Proof.
  unfold enumerate. apply list_eq. intros k.
  rewrite list_lookup_fmap, list_lookup_imap. by destruct (l !! k).
Qed.

Lemma insert_new_Ok {V} msg k (v : V) m m' :
  insert_new msg k v m = Ok m' ↔ m !! k = None ∧ m' = <[k := v]> m.
Proof.
  unfold insert_new. case_bool_decide as Hk.
  - split; [done|]. intros [Hn _]. rewrite Hn in Hk. by destruct Hk.
  - apply eq_None_not_Some in Hk. naive_solver.
Qed.

Definition entry_id (entry : N * AcceptedPlanStep) : string := AcceptedPlanStep.step_id entry.2.

Lemma apply_accepted_positions seq entries i :
  dom (V.step_positions (foldl (apply_accepted_step seq) i entries))
  = list_to_set (entry_id <$> entries) ∪ dom (V.step_positions i).
Proof.
  revert i. induction entries as [|[k p] entries IH]; intros i; cbn [foldl fmap list_fmap]; [set_solver|].
  rewrite IH. cbn. rewrite dom_insert_L. unfold entry_id at 3. cbn. set_solver.
Qed.

Lemma apply_accepted_planned seq entries i :
  dom (V.planned_invocations (foldl (apply_accepted_step seq) i entries))
  = list_to_set (entry_id <$> entries) ∪ dom (V.planned_invocations i).
Proof.
  revert i. induction entries as [|[k p] entries IH]; intros i; cbn [foldl fmap list_fmap]; [set_solver|].
  rewrite IH. cbn. rewrite dom_insert_L. unfold entry_id at 3. cbn. set_solver.
Qed.

(** The binding recorded for a step is the plan's, or an earlier one. *)
Lemma apply_accepted_binding seq entries i id a :
  V.planned_invocations (foldl (apply_accepted_step seq) i entries) !! id = Some a →
  (∃ e, e ∈ entries ∧ entry_id e = id ∧ PlannedInvocationAnchor.binding a = AcceptedPlanStep.invocation e.2) ∨
  V.planned_invocations i !! id = Some a.
Proof.
  revert i. induction entries as [|[k p] entries IH]; intros i; cbn [foldl]; [by right|].
  intros [(e & He & Hid & Hb)|Hi]%IH; [left; exists e; set_solver|]. cbn in Hi.
  apply lookup_insert_Some in Hi as [[<- <-]|[_ Hi]]; [left|by right].
  exists (k, p). split_and!; [left|done|done].
Qed.

(** Fresh, distinct steps are indexed without complaint. *)
Lemma index_accepted_steps seq entries i :
  NoDup (entry_id <$> entries) →
  (∀ e, e ∈ entries → V.step_positions i !! entry_id e = None ∧
                      V.planned_invocations i !! entry_id e = None) →
  for_each (index_accepted_step seq) entries i = Ok (foldl (apply_accepted_step seq) i entries).
Proof.
  revert i. induction entries as [|[k p] entries IH]; intros i Hnd Hfresh; [done|].
  cbn in Hnd. apply NoDup_cons in Hnd as [Hp Hnd].
  destruct (Hfresh (k, p) ltac:(left)) as [H1 H2]. unfold entry_id in H1, H2. cbn in H1, H2.
  cbn [for_each foldl]. unfold index_accepted_step at 1.
  rewrite (proj2 (insert_new_Ok _ _ _ _ _) (conj H1 eq_refl)). cbn [rbind].
  rewrite (proj2 (insert_new_Ok _ _ _ _ _) (conj H2 eq_refl)). cbn [rbind].
  apply IH; [done|]. intros e He. cbn.
  assert (entry_id e ≠ AcceptedPlanStep.step_id p).
  { intros Heq. apply Hp. change (entry_id (k, p)) with (AcceptedPlanStep.step_id p).
    rewrite <-Heq. by apply list_elem_of_fmap_2. }
  rewrite !lookup_insert_ne by done. apply Hfresh. by right.
Qed.

(** The loop only ever inserts. *)
Lemma index_accepted_foldl seq entries i i' :
  for_each (index_accepted_step seq) entries i = Ok i' → i' = foldl (apply_accepted_step seq) i entries.
Proof.
  revert i. induction entries as [|[k p] entries IH]; intros i; cbn; [by intros [= ->]|].
  intros Hf. apply rbind_ok in Hf as (i1 & Hi1 & Hf). apply IH in Hf as ->. f_equal.
  unfold index_accepted_step in Hi1. repeat res_step.
  repeat match goal with Hx : insert_new _ _ _ _ = Ok _ |- _ =>
    apply insert_new_Ok in Hx as [_ ->] end. done.
Qed.

(** The anchors a commit carries are those the index gives for its record, and new to it. *)
Definition anchored (i : VerifiedRunIndex) (r : EventRecord) (anchors : CommitAnchors) : Prop :=
  match RunEvent.body (EventRecord.event r) with
  | RunEventBody.EffectSucceeded _ _ _ (Some _) =>
      ∃ a, VerifiedRunIndex_tool_output_anchor_for i r = Ok a ∧
        CommitAnchors.output anchors = Some a ∧
        V.tool_output_events i !! ToolOutputEventAnchor.effect_id a = None
  | RunEventBody.CompletionCandidateRecorded _ _ _ (Some _) =>
      ∃ a, VerifiedRunIndex_completion_output_anchor_for r = Ok a ∧
        CommitAnchors.completion_output anchors = Some a ∧ V.completion_output_event i = None
  | RunEventBody.VerificationRecorded _ _ _ _ _ =>
      ∃ a, VerifiedRunIndex_receipt_anchor_for i r = Ok a ∧
        CommitAnchors.receipt anchors = Some a ∧
        V.receipt_event_positions i !! ReceiptEventAnchor.effect_id a = None
  | _ => True
  end.

(** The incremental update does what the audit of the event does. *)
Lemma apply_committed_body_indexed i r anchors i' :
  index_body i r = Ok i' → anchored i r anchors → apply_committed_body i r anchors = Ok i'.
Proof.
  unfold index_body, apply_committed_body, anchored.
  destruct (RunEvent.body (EventRecord.event r)) as [| | | | | | |? ? ? []| | | | |? ? ? []| | | | | | | |];
    intros Hb Ha; try done.
  - by apply index_accepted_foldl in Hb as ->.
  - destruct Ha as (a & Ha & -> & _). rewrite Ha in Hb. by res_inv.
  - repeat res_step. match goal with Hx : insert_new _ _ _ _ = Ok _ |- _ =>
      apply insert_new_Ok in Hx as [_ ->] end. done.
  - repeat res_step. match goal with Hx : insert_new _ _ _ _ = Ok _ |- _ =>
      apply insert_new_Ok in Hx as [_ ->] end. done.
  - destruct Ha as (a & Ha & -> & _). rewrite Ha in Hb. repeat res_step.
    match goal with Hx : insert_new _ _ _ _ = Ok _ |- _ => apply insert_new_Ok in Hx as [_ ->] end. done.
  - destruct Ha as (a & Ha & -> & _). unfold VerifiedRunIndex_index_receipt_event in Hb.
    rewrite Ha in Hb. repeat res_step.
    match goal with Hx : insert_new _ _ _ _ = Ok _ |- _ => apply insert_new_Ok in Hx as [_ ->] end. done.
Qed.

(** The journal half of the index against the projection: which steps, intents and outputs it
    names, and that a record the reducer accepts is always indexed. *)

Definition steps_at (o : option RunState) : gmap string StepState :=
  match o with Some s => RunState.steps s | None => ∅ end.

(** What the index says of the projection. *)
Record index_facts (i : VerifiedRunIndex) (o : option RunState) : Prop := {
  if_steps : dom (V.step_positions i) = dom (steps_at o);
  if_planned : dom (V.planned_invocations i) ⊆ dom (steps_at o);
  if_intents e a : V.intents i !! e = Some a →
    EffectIntent.effect_id (EffectIntentAnchor.intent a) = e ∧
    intent_at (steps_at o) (EffectIntentAnchor.step_id a) (EffectIntentAnchor.intent a);
}.

Lemma index_facts_ext i i' o :
  V.step_positions i' = V.step_positions i → V.planned_invocations i' = V.planned_invocations i →
  V.intents i' = V.intents i → index_facts i o → index_facts i' o.
Proof. intros E1 E2 E3 [H1 H2 H3]. split; rewrite ?E1, ?E2, ?E3; done. Qed.

Lemma index_facts_default : index_facts V.default None.
Proof. split; cbn; [by rewrite !dom_empty_L|set_solver|]. intros e a. by rewrite lookup_empty. Qed.

Section facts.
Context `{Crypto}.

(** ** The projection across one record *)

Lemma change_run_id s body s' : change s body s' → RunState.run_id s' = RunState.run_id s.
Proof. by destruct 1. Qed.

(** A record applied to a projection: what is left of the two states' relation. *)
Lemma apply_record_some s r s' :
  run_inv s → apply_record (Some s) r = Ok s' →
  RunState.run_id s' = RunState.run_id s ∧
  RunEvent.run_id (EventRecord.event r) = RunState.run_id s ∧
  EventRecord.sequence r = (RunState.journal_sequence s + 1)%N ∧
  ∃ s1, apply_body s (RunEvent.body (EventRecord.event r)) = Ok s1 ∧
    RunState.steps s' = RunState.steps s1 ∧
    change s (RunEvent.body (EventRecord.event r)) s1.
Proof.
  intros Hinv (s1 & Hv & Hb & ->)%apply_next_Ok.
  pose proof (apply_body_change s Hinv _ _ Hb) as Hch.
  apply verify_record_Ok in Hv as (Hseq & _ & _ & _ & Hrun & _).
  split_and!; [by apply change_run_id in Hch|done|done|]. by exists s1.
Qed.

Lemma intent_kept s body s' i a :
  run_inv s → change s body s' → intent_at (RunState.steps s) i a → intent_at (RunState.steps s') i a.
Proof.
  intros Hinv Hch (st & Hst & Ha).
  destruct (change_step_kept _ _ _ _ _ Hinv Hch Hst) as (st' & Hst' & _ & _ & Hk).
  exists st'. auto.
Qed.

(** The steps a record adds to the projection. *)
Definition added_steps (body : RunEventBody) : gset string :=
  match body with
  | RunEventBody.StepPlanned step_id _ _ => {[step_id]}
  | RunEventBody.PlanAccepted _ plan => list_to_set (plan_ids plan)
  | _ => ∅
  end.

Lemma dom_planned_into old plan :
  dom (planned_into old plan) = (list_to_set (plan_ids plan) : gset string) ∪ dom old.
Proof.
  revert old. induction plan as [|p plan IH]; intros old; [set_solver|].
  cbn. change (foldl _ ?m plan) with (planned_into m plan). rewrite IH, dom_insert_L. set_solver.
Qed.

Lemma store_loop_steps l s s1 : store_loop l s = Ok s1 → RunState.steps s1 = RunState.steps s.
Proof. unfold store_loop. intros Hs. by res_inv. Qed.

(** The events that write the agent loop and no step. *)
Definition loop_event (body : RunEventBody) : bool :=
  match body with
  | RunEventBody.AgentLoopConfigured _ | RunEventBody.ModelCallLifecycleConfigured _
  | RunEventBody.ModelCallReserved _ | RunEventBody.ModelCallBecameUnknown _ _
  | RunEventBody.ModelCallSettled _ _ | RunEventBody.CompletionCandidateRecorded _ _ _ _ => true
  | _ => false
  end.

Lemma loop_event_steps s body s1 :
  loop_event body = true → apply_body s body = Ok s1 → RunState.steps s1 = RunState.steps s.
Proof.
  intros Hl Hb. destruct body as [| |b|r|c x|c x|d plan|d c sd o|id ob deps|id a| | | | | | | | | | |];
    try done; cbn [apply_body] in Hb.
  1: unfold configure_agent_loop in Hb; by res_inv.
  1: unfold configure_model_call_lifecycle in Hb.
  2: unfold reserve_model_call in Hb.
  3: unfold mark_model_call_unknown in Hb.
  4: unfold settle_model_call in Hb.
  1-4: repeat res_step; by erewrite store_loop_steps.
  by apply record_completion_Ok in Hb as (l & l' & f & _ & -> & _).
Qed.

(** What a record makes of the steps, by kind of event. *)
Variant stepped (s : RunState) (body : RunEventBody) (s1 : RunState) : Prop :=
| sp_loop : loop_event body = true → RunState.steps s1 = RunState.steps s → stepped s body s1
| sp_planned id objective deps : body = RunEventBody.StepPlanned id objective deps →
    RunState.steps s !! id = None →
    RunState.steps s1 = <[id := StepState.planned id objective deps None]> (RunState.steps s) →
    stepped s body s1
| sp_accepted d plan : body = RunEventBody.PlanAccepted d plan → NoDup (plan_ids plan) →
    (∀ id, id ∈ plan_ids plan → RunState.steps s !! id = None) →
    RunState.steps s1 = planned_into (RunState.steps s) plan → stepped s body s1
| sp_committed id a st : body = RunEventBody.EffectIntentCommitted id a → committed s id a st →
    RunState.steps s1 = <[id := StepState.set_status StepStatus.IntentCommitted
                                  (StepState.set_intent (Some a) st)]> (RunState.steps s) →
    stepped s body s1
| sp_lifecycle id st st' : lifecycle_step body = Some id → RunState.steps s !! id = Some st →
    lifecycle body st st' → RunState.steps s1 = <[id := st']> (RunState.steps s) → stepped s body s1.

Lemma apply_body_stepped s body s1 : run_inv s → apply_body s body = Ok s1 → stepped s body s1.
Proof.
  intros Hinv Hb. destruct (loop_event body) eqn:Hl; [by eapply sp_loop, loop_event_steps|].
  destruct body as [| | | | | |d plan| |id ob deps|id a| | | | | | | | | | |]; try done; cbn [apply_body] in Hb.
  1: { apply accept_plan_Ok in Hb as (l & l' & f & Hpa & ->); [|apply (ri_steps _ Hinv)].
       destruct (pa_headers _ _ _ _ _ _ Hpa) as [_ Hnd Hfresh _ _ _]. by eapply sp_accepted. }
  1: { apply plan_step_Ok in Hb as (-> & Hid & _). by eapply sp_planned. }
  1: { apply commit_Ok in Hb as (st & effects & Hc & _ & ->). by eapply sp_committed. }
  all: apply lifecycle_sound in Hb as (i & st & st' & Hi & Hst & Hlc & _ & ->); by eapply sp_lifecycle.
Qed.

Lemma apply_body_steps s body s1 :
  run_inv s → apply_body s body = Ok s1 →
  dom (RunState.steps s1) = added_steps body ∪ dom (RunState.steps s) ∧
  (∀ id, id ∈ added_steps body → RunState.steps s !! id = None).
Proof.
  intros Hinv Hb.
  destruct (apply_body_stepped _ _ _ Hinv Hb) as [Hl ->|id ob deps -> Hid ->|d plan -> _ Hfresh ->|
    id a st -> Hc ->|id st st' Hl Hst _ ->].
  - destruct body; try done; cbn [added_steps]; set_solver.
  - cbn [added_steps]. rewrite dom_insert_L. set_solver.
  - cbn [added_steps]. rewrite dom_planned_into. split; [done|].
    intros id Hid%elem_of_list_to_set. by apply Hfresh.
  - cbn [added_steps]. rewrite dom_insert_lookup_L by (eexists; apply (cm_step _ _ _ _ Hc)). set_solver.
  - rewrite dom_insert_lookup_L by (by eexists). destruct body; try done; cbn [added_steps]; set_solver.
Qed.

(** ** Indexing a record the reducer accepts *)

Lemma entry_ids plan : entry_id <$> enumerate plan = plan_ids plan.
Proof.
  rewrite <-(enumerate_snd plan) at 2. unfold plan_ids.
  change (map AcceptedPlanStep.step_id) with (fmap (M := list) AcceptedPlanStep.step_id).
  by rewrite <-list_fmap_compose.
Qed.

Lemma insert_new_fresh {V} msg k (v : V) m :
  m !! k = None → insert_new msg k v m = Ok (<[k := v]> m).
Proof. intros Hk. by apply insert_new_Ok. Qed.

(** A step, plan or intent the reducer accepts is new to the index. *)
Lemma index_body_total i s r s' anchors :
  index_facts i (Some s) → run_inv s → apply_record (Some s) r = Ok s' → anchored i r anchors →
  ∃ i', index_body i r = Ok i'.
Proof.
  intros [Hsteps Hplanned Hintents] Hinv Happ Hanch.
  destruct (apply_record_some _ _ _ Hinv Happ) as (_ & _ & _ & s1 & Hb & _ & _).
  pose proof (apply_body_steps _ _ _ Hinv Hb) as [_ Hfresh].
  assert (Hnone : ∀ id, id ∈ added_steps (RunEvent.body (EventRecord.event r)) →
            V.step_positions i !! id = None ∧ V.planned_invocations i !! id = None).
  { intros id Hid%Hfresh. apply not_elem_of_dom in Hid. cbn in Hsteps, Hplanned.
    split; apply not_elem_of_dom; set_solver. }
  unfold index_body. unfold anchored in Hanch.
  destruct (RunEvent.body (EventRecord.event r)) as [| | | | | |d plan|? ? ? []|id ob deps|id a| | |? ? ? []| | | | | | | |];
    try (by eexists).
  - rewrite index_accepted_steps; [by eexists|..].
    + rewrite entry_ids. cbn in Hb. apply accept_plan_Ok in Hb as (l & l' & f & Hpa & _);
        [|apply (ri_steps _ Hinv)]. by destruct (pa_headers _ _ _ _ _ _ Hpa).
    + intros e He. apply Hnone. cbn. rewrite <-entry_ids. apply elem_of_list_to_set.
      by apply list_elem_of_fmap_2.
  - destruct Hanch as (a & Ha & _ & Hn). rewrite Hn, Ha. by eexists.
  - destruct (Hnone id) as [Hn _]; [cbn; set_solver|]. rewrite insert_new_fresh by done. by eexists.
  - assert (V.intents i !! EffectIntent.effect_id a = None) as Hn.
    { apply eq_None_not_Some. intros [b (Heq & st & Hst & Hint)%Hintents].
      cbn in Hb. apply commit_Ok in Hb as (st0 & effects & Hc & _).
      by destruct (cm_fresh _ _ _ _ Hc _ _ _ Hst Hint). }
    rewrite insert_new_fresh by done. by eexists.
  - destruct Hanch as (a & Ha & _ & Hn). rewrite Ha. cbn [rbind].
    rewrite insert_new_fresh by done. by eexists.
  - destruct Hanch as (a & Ha & _ & Hn). unfold VerifiedRunIndex_index_receipt_event.
    rewrite Ha. cbn [rbind]. rewrite insert_new_fresh by done. by eexists.
Qed.

(** What one event changes in the part of the index the facts are about. *)
Record body_effect (i i' : VerifiedRunIndex) (body : RunEventBody) : Prop := {
  be_steps : dom (V.step_positions i') = added_steps body ∪ dom (V.step_positions i);
  be_planned : dom (V.planned_invocations i) ⊆ dom (V.planned_invocations i')
    ∧ dom (V.planned_invocations i') ⊆ added_steps body ∪ dom (V.planned_invocations i);
  be_intents e a : V.intents i' !! e = Some a → V.intents i !! e = Some a ∨
    e = EffectIntent.effect_id (EffectIntentAnchor.intent a) ∧
    body = RunEventBody.EffectIntentCommitted (EffectIntentAnchor.step_id a) (EffectIntentAnchor.intent a);
}.

Lemma index_body_effect i r i' :
  index_body i r = Ok i' → body_effect i i' (RunEvent.body (EventRecord.event r)).
Proof.
  unfold index_body, VerifiedRunIndex_index_receipt_event.
  destruct (RunEvent.body (EventRecord.event r)) as [| | | | | |d plan|? ? ? []|id ob deps|id a| | |? ? ? []| | | | | | | |];
    intros Hb; try (apply index_accepted_foldl in Hb as ->; split;
      [by rewrite apply_accepted_positions, entry_ids
      |rewrite apply_accepted_planned, entry_ids; cbn; set_solver
      |intros e a Ha; left; revert Ha;
       assert (Hsame : V.intents (foldl (apply_accepted_step (EventRecord.sequence r)) i (enumerate plan))
               = V.intents i) by (generalize (enumerate plan) as l; intros l; revert i;
                 induction l as [|[] l IH]; intros i; cbn; [done|by rewrite IH]);
       by rewrite Hsame]);
    repeat res_step; repeat match goal with Hx : insert_new _ _ _ _ = Ok _ |- _ =>
      apply insert_new_Ok in Hx as [? ->] end; simplify_eq;
    (split; cbn; [rewrite ?dom_insert_L; set_solver|set_solver|intros e b Hb; try (by left)]).
  apply lookup_insert_Some in Hb as [[<- <-]|[_ Hb]]; [by right|by left].
Qed.

Lemma index_facts_next i s r s' i' :
  index_facts i (Some s) → run_inv s → apply_record (Some s) r = Ok s' → index_body i r = Ok i' →
  index_facts i' (Some s').
Proof.
  intros [Hsteps Hplanned Hintents] Hinv Happ Hb'.
  destruct (apply_record_some _ _ _ Hinv Happ) as (_ & _ & _ & s1 & Hb & Hs1 & Hch).
  pose proof (apply_body_steps _ _ _ Hinv Hb) as [Hdom _].
  destruct (index_body_effect _ _ _ Hb') as [E1 [_ E2] E3]. cbn in *.
  split; cbn; rewrite Hs1, ?Hdom.
  - by rewrite E1, Hsteps.
  - set_solver.
  - intros e a [Ha|[-> Hbody]]%E3.
    + destruct (Hintents _ _ Ha) as [? ?]. split; [done|]. by eapply intent_kept.
    + split; [done|]. rewrite Hbody in Hb. cbn in Hb.
      apply commit_Ok in Hb as (st & effects & _ & _ & ->). eexists. cbn.
      by rewrite lookup_insert_eq.
Qed.

(** The first record creates the run and is not indexed by any map. *)
Lemma index_body_first r s' i : apply_record None r = Ok s' → index_body i r = Ok i.
Proof. intros (goal & Hbody & _)%apply_first_Ok. unfold index_body. by rewrite Hbody. Qed.
End facts.
