(* ===== verification/Attempts.v ===== *)
(** What a journal says about executions and model calls: how often an effect was started, how
    often reconciliation proved that it had not been applied, which calls were reserved, and how
    these counts bound each other. *)

From S2P Require Import Prelude Text Wire WorkGraphTypes WorkGraphErrors Planning Material.
From S2P Require Import ToolOutput Journal AgentLoop Plans Effects StepMachine Reducer.
From S2P Require Import RunInvariant ReducerTheorems StoreSpec WorkGraphWire RecordProofs.
From S2P Require Import RecordTheorems JournalTheorems.

(** ** Counting *)

Definition starts_body (e : string) (body : RunEventBody) : bool :=
  match body with
  | RunEventBody.EffectExecutionStarted _ e' => bool_decide (e' = e)
  | _ => false
  end.

Definition disproves_body (e : string) (body : RunEventBody) : bool :=
  match body with
  | RunEventBody.ReconciliationResolved _ e' ReconciliationResolution.ProvedNotApplied _ =>
      bool_decide (e' = e)
  | _ => false
  end.

Definition body_of (r : EventRecord) : RunEventBody := RunEvent.body (EventRecord.event r).

Fixpoint count {A} (p : A → bool) (l : list A) : N :=
  match l with
  | [] => 0
  | x :: l => (if p x then 1 else 0) + count p l
  end.

(** The executions of [e] the journal announces, and those it proves not applied. *)
Definition started (e : string) (records : list EventRecord) : N := count (starts_body e ∘ body_of) records.
Definition disproved (e : string) (records : list EventRecord) : N :=
  count (disproves_body e ∘ body_of) records.

Lemma count_snoc {A} (p : A → bool) l x : count p (l ++ [x]) = (count p l + if p x then 1 else 0)%N.
Proof. induction l as [|y l IH]; cbn; [lia|]. rewrite IH. lia. Qed.

(** ** What the status of a step says about the counts of its effect *)

(** An execution is open: started, and neither proved nor disproved. *)
Definition open_execution (s : StepStatus) : bool :=
  match s with
  | StepStatus.Executing | StepStatus.EffectUnknown | StepStatus.Reconciling => true
  | _ => false
  end.

Definition counts_fit (s : StepStatus) (attempts started disproved : N) : Prop :=
  attempts = started ∧ (disproved ≤ started ≤ disproved + 1)%N ∧
  (s = StepStatus.IntentCommitted → started = disproved) ∧
  (open_execution s = true → started = disproved + 1)%N.

(** No step has the effect. *)
Definition uncommitted (s : RunState) (e : string) : Prop :=
  ∀ id st, RunState.steps s !! id = Some st → effect_of st ≠ Some e.

Record counted (records : list EventRecord) (s : RunState) : Prop := {
  ct_step id st e : RunState.steps s !! id = Some st → effect_of st = Some e →
    counts_fit (StepState.status st) (StepState.attempts st) (started e records) (disproved e records);
  ct_none e : uncommitted s e → started e records = 0%N ∧ disproved e records = 0%N;
  ct_planned id st : RunState.steps s !! id = Some st → effect_of st = None →
    StepState.attempts st = 0%N;
}.

Lemma started_snoc e records r :
  started e (records ++ [r]) = (started e records + if starts_body e (body_of r) then 1 else 0)%N.
Proof. unfold started, disproved. by rewrite count_snoc. Qed.
Lemma disproved_snoc e records r :
  disproved e (records ++ [r]) = (disproved e records + if disproves_body e (body_of r) then 1 else 0)%N.
Proof. unfold started, disproved. by rewrite count_snoc. Qed.

(** Only a lifecycle event counts. *)
Lemma counts_other records r e :
  lifecycle_step (body_of r) = None →
  started e (records ++ [r]) = started e records ∧ disproved e (records ++ [r]) = disproved e records.
Proof.
  rewrite started_snoc, disproved_snoc. by destruct (body_of r); cbn; intros; split; try lia.
Qed.

(** And only for its own effect. *)
Lemma lifecycle_counts_other body st st' e :
  lifecycle body st st' → effect_of st ≠ Some e → starts_body e body = false ∧ disproves_body e body = false.
Proof.
  intros Hlc Hne. destruct Hlc; cbn; try done;
    match goal with Hx : effect_of _ = Some ?x |- _ => assert (x ≠ e) by congruence end;
    by rewrite ?bool_decide_eq_false_2 by done.
Qed.

Lemma lifecycle_counts body st st' e n d :
  lifecycle body st st' → effect_of st = Some e →
  counts_fit (StepState.status st) (StepState.attempts st) n d →
  counts_fit (StepState.status st') (StepState.attempts st')
    (n + if starts_body e body then 1 else 0) (d + if disproves_body e body then 1 else 0).
Proof.
  intros Hlc He (Ha & Hd & Hi & Ho). unfold counts_fit.
  destruct Hlc; cbn in *; simplify_eq; rewrite ?bool_decide_eq_true_2 by done;
    repeat match goal with
    | Hx : StepState.status _ ∈ _ |- _ => apply elem_of_cons in Hx as [Hx|Hx%list_elem_of_singleton]
    | Hx : StepState.status _ = _ |- _ => rewrite Hx in *; clear Hx
    end; cbn in *; repeat match goal with Hx : ?a = ?a → _ |- _ => specialize (Hx eq_refl) end;
    split_and!; intros; try done; lia.
Qed.

Section journal.
Context `{Crypto}.

Lemma fresh_counts s id st : effect_of st = None → RunState.steps s !! id = Some st → StepState.intent st = None.
Proof. unfold effect_of. by destruct (StepState.intent st). Qed.

(** New steps have not run, old ones are kept. *)
Lemma counted_grown records r s s' :
  counted records s → lifecycle_step (body_of r) = None →
  (∀ id st, RunState.steps s !! id = Some st → RunState.steps s' !! id = Some st) →
  (∀ id st, RunState.steps s' !! id = Some st →
     RunState.steps s !! id = Some st ∨ effect_of st = None ∧ StepState.attempts st = 0%N) →
  counted (records ++ [r]) s'.
Proof.
  intros [Hstep Hnone Hplanned] Hl Hold Hnew.
  split; [intros id st e Hst He|intros e Hu|intros id st Hst He].
  - destruct (counts_other records r e Hl) as [-> ->].
    destruct (Hnew _ _ Hst) as [Hst'|[? _]]; [by apply (Hstep id)|congruence].
  - destruct (counts_other records r e Hl) as [-> ->]. apply Hnone. intros id st Hst. apply (Hu id).
    by apply Hold.
  - destruct (Hnew _ _ Hst) as [Hst'|[_ ?]]; [by eapply Hplanned|done].
Qed.

Lemma counted_commit records r s s' id a st :
  run_inv s → counted records s → lifecycle_step (body_of r) = None → committed s id a st →
  RunState.steps s' = <[id := StepState.set_status StepStatus.IntentCommitted
                                (StepState.set_intent (Some a) st)]> (RunState.steps s) →
  counted (records ++ [r]) s'.
Proof.
  intros Hinv [Hstep Hnone Hplanned] Hl [Hst Hp _ Hfresh _ _ _ _ _] Es.
  assert (effect_of st = None) as Hn.
  { unfold effect_of. by rewrite (proj1 (so_intent _ (ri_steps _ Hinv) _ _ Hst) Hp). }
  assert (uncommitted s (EffectIntent.effect_id a)) as Ha.
  { intros i si Hsi. unfold effect_of. destruct (StepState.intent si) as [b|] eqn:Hb'; [|done].
    cbn. intros [= Heq]. by eapply Hfresh. }
  split; unfold uncommitted; rewrite Es; [intros i si e Hsi He|intros e Hu|intros i si Hsi He].
  - destruct (counts_other records r e Hl) as [-> ->].
    apply lookup_insert_Some in Hsi as [[<- <-]|[_ Hsi]]; [|by apply (Hstep i)].
    injection He as <-. destruct (Hnone _ Ha) as [-> ->].
    split; [exact (Hplanned id st Hst Hn)|split; [lia|done]].
  - destruct (counts_other records r e Hl) as [-> ->]. apply Hnone. intros i si Hsi.
    destruct (decide (i = id)) as [->|Hne]; [congruence|]. apply (Hu i). by rewrite lookup_insert_ne.
  - apply lookup_insert_Some in Hsi as [[<- <-]|[_ Hsi]]; [done|by eapply Hplanned].
Qed.

Lemma counted_lifecycle records r s s' id st st' :
  run_inv s → counted records s → RunState.steps s !! id = Some st →
  lifecycle (body_of r) st st' → RunState.steps s' = <[id := st']> (RunState.steps s) →
  counted (records ++ [r]) s'.
Proof.
  intros Hinv [Hstep Hnone Hplanned] Hst Hlc Es. pose proof (lifecycle_read _ _ _ Hlc) as Hread.
  assert (effect_of st' = effect_of st) as Heff by (unfold effect_of; by rewrite (lf_intent _ _ _ Hread)).
  assert (Hsame : ∀ e, effect_of st ≠ Some e →
    started e (records ++ [r]) = started e records ∧ disproved e (records ++ [r]) = disproved e records).
  { intros e Hne. rewrite started_snoc, disproved_snoc.
    destruct (lifecycle_counts_other _ _ _ _ Hlc Hne) as [-> ->]. lia. }
  split; unfold uncommitted; rewrite Es; [intros i si e Hsi He|intros e Hu|intros i si Hsi He].
  - apply lookup_insert_Some in Hsi as [[<- <-]|[Hne Hsi]].
    + rewrite started_snoc, disproved_snoc. rewrite Heff in He. eapply lifecycle_counts; [done..|].
      by apply (Hstep id).
    + destruct (Hsame e) as [-> ->]; [|by apply (Hstep i)]. intros Hste. apply Hne.
      unfold effect_of in Hste, He. destruct (StepState.intent st) as [a|] eqn:Ha; [|done].
      destruct (StepState.intent si) as [b|] eqn:Hb; [|done]. cbn in *.
      eapply (eo_distinct _ (ri_effects _ Hinv) id i); try done. congruence.
  - assert (uncommitted s e) as Hu'.
    { intros i si Hsi. destruct (decide (i = id)) as [->|Hne].
      - simplify_eq. rewrite <-Heff. apply (Hu id). by rewrite lookup_insert_eq.
      - apply (Hu i). by rewrite lookup_insert_ne. }
    destruct (Hsame e (Hu' _ _ Hst)) as [-> ->]. by apply Hnone.
  - apply lookup_insert_Some in Hsi as [[<- <-]|[_ Hsi]]; [|by eapply Hplanned].
    exfalso. apply (lf_started _ _ _ Hread), (so_intent _ (ri_steps _ Hinv) _ _ Hst).
    eapply fresh_counts; [|done]. by rewrite <-Heff.
Qed.

Lemma counted_next records r s s1 s' :
  run_inv s → counted records s → RunState.steps s' = RunState.steps s1 →
  stepped s (body_of r) s1 → counted (records ++ [r]) s'.
Proof.
  intros Hinv Hc Es [Hl E|j ob deps Hb Hj E|d plan Hb Hnd Hfresh E|j a sj Hb Hcm E|j sj sj' Hj Hsj Hlc E];
    rewrite E in Es; [| | |by eapply counted_commit; rewrite ?Hb|by eapply counted_lifecycle];
    (apply (counted_grown _ _ s); [done| |rewrite Es..]; [by destruct (body_of r)|..]).
  - done.
  - by left.
  - intros id st Hst. rewrite lookup_insert_ne; [done|]. intros <-. congruence.
  - intros id st [[<- <-]|[_ Hst]]%lookup_insert_Some; [by right|by left].
  - intros id st Hst. rewrite planned_into_old; [done|]. intros Hin%Hfresh. congruence.
  - intros id st [Hst|(p & _ & _ & ->)]%planned_into_inv; [by left|by right].
Qed.

Lemma counted_first record s : apply_record None record = Ok s → counted [record] s.
Proof.
  intros (goal & Hb & _ & ->)%apply_first_Ok. split; unfold uncommitted; cbn;
    [intros ??? Hst; by rewrite lookup_empty in Hst| |intros ?? Hst; by rewrite lookup_empty in Hst].
  intros e _. unfold started, disproved. cbn. unfold body_of. by rewrite Hb.
Qed.

Lemma replay_counted records s : replay records = Ok s → counted records s.
Proof.
  intros Hr. apply (replay_ind counted) in Hr as [_ ?]; [done|apply counted_first|].
  intros rs r s0 s1 _ Hinv Hc Ha. destruct (apply_record_some _ _ _ Hinv Ha) as (_ & _ & _ & s2 & Hb & Es & _).
  eapply counted_next; try done. by apply apply_body_stepped.
Qed.

(** An effect is started at most once more often than its last execution was disproved. *)
Lemma started_bound records s e : replay records = Ok s → (started e records ≤ disproved e records + 1)%N.
Proof.
  intros Hc%replay_counted.
  destruct (decide (map_Exists (λ _ st, effect_of st = Some e) (RunState.steps s))) as [(id & st & Hst & He)|Hno].
  - destruct (ct_step _ _ Hc _ _ _ Hst He) as (_ & ? & _). lia.
  - assert (uncommitted s e) as Hu by (intros id st Hst He; apply Hno; by exists id, st).
    destruct (ct_none _ _ Hc _ Hu) as [-> _]. lia.
Qed.
End journal.

(** What a journal says about model calls: the projection counts its reservations, and each call
    id is reserved once. *)

(** The reservations of a journal, in order. *)
Definition reservation_of (record : EventRecord) : option ModelCallReservation :=
  match body_of record with
  | RunEventBody.ModelCallReserved reservation => Some reservation
  | _ => None
  end.
Definition reservations (records : list EventRecord) : list ModelCallReservation :=
  omap reservation_of records.

(** The calls the projection counts as reserved.  A lifecycle configured on a run that has
    accepted turns already counts these. *)
Definition reserved_of (state : RunState) : N :=
  match RunState.agent_loop state with
  | Some l => match AgentLoopState.model_calls l with
              | Some calls => ModelCallLifecycleState.reserved_calls calls
              | None => 0
              end
  | None => 0
  end.

Section journal.
Context `{Crypto}.

(** What an event makes of the count. *)
Definition counts_call (s : RunState) (body : RunEventBody) (s1 : RunState) : Prop :=
  match body with
  | RunEventBody.ModelCallReserved r =>
      ModelCallReservation.call_index r = reserved_of s1 ∧ reserved_of s1 = (reserved_of s + 1)%N ∧
      (ModelCallReservation.call_index r ≤ u32_max)%N ∧ (ModelCallReservation.turn_index r ≤ u32_max)%N ∧
      ModelCallReservation.base_sequence r = RunState.journal_sequence s ∧
      ModelCallReservation_validate_for r (RunState.run_id s) (RunState.authority_epoch s) = Ok tt
  | RunEventBody.ModelCallLifecycleConfigured _ => reserved_of s = 0%N
  | _ => reserved_of s1 = reserved_of s
  end.

Lemma settle_calls_reserved c c' :
  settle_calls c = Ok c' → ModelCallLifecycleState.reserved_calls c' = ModelCallLifecycleState.reserved_calls c.
Proof. unfold settle_calls. intros Hs. by res_inv. Qed.

Definition loop_reserved (l : AgentLoopState) : N :=
  match AgentLoopState.model_calls l with
  | Some calls => ModelCallLifecycleState.reserved_calls calls
  | None => 0
  end.

Lemma settle_success_reserved l l' :
  settle_successful_model_call l = Ok l' → loop_reserved l' = loop_reserved l.
Proof.
  unfold settle_successful_model_call, loop_reserved. intros Hs.
  destruct (AgentLoopState.model_calls l) as [c|] eqn:Hc; [|by injection Hs as <-; rewrite Hc].
  res_inv. cbn. by apply settle_calls_reserved.
Qed.

(** Read what a handler found in the loop. *)
Ltac read_loop Hb :=
  res_inv; require_inv; checked_inv; bool_inv;
  try apply store_loop_Ok in Hb as ->;
  unfold reserved_of, loop_reserved in *; cbn in *;
  repeat match goal with
  | Hx : RunState.agent_loop _ = Some _ |- _ => rewrite Hx in *; cbn in *
  | Hx : AgentLoopState.model_calls _ = _ |- _ => rewrite Hx in *; cbn in *
  | Hx : expect _ _ = Ok _ |- _ => unfold expect in Hx; destruct (RunState.agent_loop _) eqn:?; simplify_eq
  end; simplify_eq.

Lemma apply_body_counts s body s1 : run_inv s → apply_body s body = Ok s1 → counts_call s body s1.
Proof.
  intros Hinv Hb. pose proof (apply_body_change s Hinv _ _ Hb) as Hch.
  assert (Hkept : RunState.agent_loop s1 = RunState.agent_loop s → reserved_of s1 = reserved_of s)
    by (unfold reserved_of; by intros ->).
  destruct body as [| |b|r|c x|c x|d plan|d c sd o|id ob deps|id a| | | | | | | | | | |];
    cbn [apply_body counts_call] in *.
  all: try (solve [apply Hkept; by inversion Hch]).
  - apply configure_agent_loop_Ok in Hb as (Hl & -> & _). unfold reserved_of. by rewrite Hl.
  - unfold configure_model_call_lifecycle in Hb. read_loop Hb.
    done.
  - unfold reserve_model_call in Hb. read_loop Hb. by repeat match goal with u : unit |- _ => destruct u end.
  - unfold mark_model_call_unknown in Hb. by read_loop Hb.
  - unfold settle_model_call in Hb. by read_loop Hb; apply settle_calls_reserved.
  - unfold accept_plan in Hb. read_loop Hb.
    match goal with Hx : build_accepted_plan_candidate _ _ _ = Ok _ |- _ => apply build_candidate_Ok in Hx as [-> ?] end.
    match goal with Hx : settle_successful_model_call _ = Ok _ |- _ => apply settle_success_reserved in Hx end.
    cbn in *. by simplify_option_eq.
  - unfold record_completion_candidate in Hb. read_loop Hb.
    all: match goal with Hx : settle_successful_model_call _ = Ok _ |- _ => apply settle_success_reserved in Hx end.
    all: cbn in *; by simplify_option_eq.
  - apply Hkept. unfold plan_step in Hb. by res_inv.
  - apply Hkept. by apply commit_Ok in Hb as (st & effects & _ & _ & ->).
Qed.

(** ** Along a journal *)

(** A reservation of the run [s] is the projection of, no later than it. *)
Record reserved_in (s : RunState) (r : ModelCallReservation) : Prop := {
  re_index : (ModelCallReservation.call_index r ≤ reserved_of s)%N;
  re_sequence : (ModelCallReservation.base_sequence r ≤ RunState.journal_sequence s)%N;
  re_small : (ModelCallReservation.call_index r ≤ u32_max)%N ∧
             (ModelCallReservation.turn_index r ≤ u32_max)%N;
  re_valid : ModelCallReservation_validate_for r (RunState.run_id s) (RunState.authority_epoch s) = Ok tt;
}.

Record calls_counted (records : list EventRecord) (s : RunState) : Prop := {
  cc_count : (len (reservations records) ≤ reserved_of s)%N;
  cc_each r : r ∈ reservations records → reserved_in s r;
  cc_indices : NoDup (ModelCallReservation.call_index <$> reservations records);
}.

Lemma reservations_snoc records r :
  reservations (records ++ [r]) = reservations records ++ match reservation_of r with Some x => [x] | None => [] end.
Proof. unfold reservations. rewrite omap_app. cbn. by destruct (reservation_of r). Qed.

Lemma reserved_in_later s s' r :
  (reserved_of s ≤ reserved_of s')%N → (RunState.journal_sequence s ≤ RunState.journal_sequence s')%N →
  RunState.run_id s' = RunState.run_id s → RunState.authority_epoch s' = RunState.authority_epoch s →
  reserved_in s r → reserved_in s' r.
Proof. intros Hr Hs Hrun Hep [? ? ? ?]. split; [lia|lia|done|by rewrite Hrun, Hep]. Qed.

Lemma change_epoch s body s' : change s body s' → RunState.authority_epoch s' = RunState.authority_epoch s.
Proof. by destruct 1. Qed.

Lemma calls_counted_next records r s s' :
  run_inv s → calls_counted records s → apply_record (Some s) r = Ok s' →
  calls_counted (records ++ [r]) s'.
Proof.
  intros Hinv [Hcount Heach Hnd] (s1 & Hv & Hb & ->)%apply_next_Ok.
  pose proof (apply_body_change s Hinv _ _ Hb) as Hch.
  pose proof (change_run_id _ _ _ Hch) as Hrun. pose proof (change_epoch _ _ _ Hch) as Hep.
  apply verify_record_Ok in Hv as (Hseq & _).
  pose proof (apply_body_counts _ _ _ Hinv Hb) as Hc.
  set (s' := RunState.set_head _ _ s1).
  assert (reserved_of s' = reserved_of s1) as Hs' by done.
  assert (RunState.journal_sequence s ≤ RunState.journal_sequence s')%N as Hle by (cbn; lia).
  assert (Hold : (reserved_of s ≤ reserved_of s1)%N → ∀ x, x ∈ reservations records → reserved_in s' x).
  { intros Hmono x Hx%Heach. by eapply reserved_in_later. }
  split; rewrite reservations_snoc; unfold reservation_of, body_of;
    destruct (RunEvent.body (EventRecord.event r)) as [| | |x| | | | | | | | | | | | | | | | |]; cbn in Hc;
    rewrite ?app_nil_r; try done; try (rewrite Hs'; lia); try (apply Hold; lia).
  - rewrite Hs'. unfold len in *. rewrite length_app. cbn. lia.
  - destruct Hc as (Hi & Hone & Hci & Hti & Hbase & Hval). intros y [Hy| ->%list_elem_of_singleton]%elem_of_app.
    + apply Hold; [lia|done].
    + split; [rewrite Hs'; lia|lia|done|]. cbn. by rewrite Hrun, Hep.
  - destruct Hc as (Hi & Hone & _). rewrite fmap_app. apply NoDup_app. split_and!; [done| |apply NoDup_singleton].
    intros i (y & -> & Hy)%list_elem_of_fmap Hin. cbn in Hin. apply list_elem_of_singleton in Hin.
    pose proof (re_index _ _ (Heach _ Hy)). lia.
Qed.

Lemma replay_calls_counted records s : replay records = Ok s → run_inv s ∧ calls_counted records s.
Proof.
  apply (replay_ind calls_counted); clear records s.
  - intros record s (goal & Hb & _ & ->)%apply_first_Ok.
    assert (reservations [record] = []) as Hn by (unfold reservations, reservation_of, body_of; cbn; by rewrite Hb).
    split; rewrite Hn; [done|by intros r ?%elem_of_nil|constructor].
  - intros records record s0 s _ Hinv Hc Ha. by eapply calls_counted_next.
Qed.

(** Two reservations of a run with one call id have one index, or the inputs of that id collide. *)
Lemma same_call_id `{!CryptoLaws} r1 r2 s :
  reserved_in s r1 → reserved_in s r2 →
  ijson_N (RunState.authority_epoch s) → ijson_N (RunState.journal_sequence s) →
  ModelCallReservation.call_id r1 = ModelCallReservation.call_id r2 →
  ModelCallReservation.call_index r1 ≠ ModelCallReservation.call_index r2 →
  digests_collide (call_id_input (RunState.run_id s) (RunState.authority_epoch s) r1)
    (call_id_input (RunState.run_id s) (RunState.authority_epoch s) r2).
Proof.
  intros [_ Q1 [C1 T1] V1%reservation_call_id] [_ Q2 [C2 T2] V2%reservation_call_id] He Hs Heq Hne.
  unfold ijson_N, u32_max in *. rewrite Heq in V1.
  destruct (prefixed_digest_inj _ _ _ _ _ _ V1 V2) as (d & D1 & D2).
  destruct (digest_commits _ _ _ _ _ D1 D2) as [Hin%ModelCallIdDigestInput_inj|];
    [apply canonical_ModelCallIdDigestInput; unfold ijson_N; lia..|by simplify_eq|done].
Qed.

Lemma count_none {A} (p : A → bool) l : (∀ x, x ∈ l → p x = false) → count p l = 0%N.
Proof.
  induction l as [|x l IH]; intros Hp; cbn; [done|]. rewrite Hp by left.
  apply IH. intros y Hy. apply Hp. by right.
Qed.

(** Two of the reservations have this call id, of different calls: the inputs of the id collide. *)
Definition call_id_collides (s : RunState) (l : list ModelCallReservation) (c : string) : Prop :=
  ∃ r1 r2, r1 ∈ l ∧ r2 ∈ l ∧ ModelCallReservation.call_id r1 = c ∧ ModelCallReservation.call_id r2 = c ∧
    ModelCallReservation.call_index r1 ≠ ModelCallReservation.call_index r2 ∧
    digests_collide (call_id_input (RunState.run_id s) (RunState.authority_epoch s) r1)
      (call_id_input (RunState.run_id s) (RunState.authority_epoch s) r2).

(** No call id is reserved twice. *)
Lemma reserved_once `{!CryptoLaws} records s c :
  replay records = Ok s → ijson_N (RunState.authority_epoch s) → ijson_N (RunState.journal_sequence s) →
  (count (λ r, bool_decide (ModelCallReservation.call_id r = c)) (reservations records) ≤ 1)%N
  ∨ call_id_collides s (reservations records) c.
Proof.
  intros Hr He Hs. destruct (replay_calls_counted _ _ Hr) as [_ [_ Heach Hnd]].
  induction (reservations records) as [|r l IH]; [by left|].
  apply NoDup_cons in Hnd as [Hi Hnd].
  destruct IH as [Hle|(r1 & r2 & H1 & H2 & Hc)]; [intros x Hx; apply Heach; by right|done| |].
  2: { right. exists r1, r2. split_and!; [by right|by right|apply Hc..]. }
  cbn. case_bool_decide as Hc; [|by left].
  destruct (decide (Exists (λ x, ModelCallReservation.call_id x = c) l)) as [(x & Hx & Hxc)%Exists_exists|Hno].
  - assert (ModelCallReservation.call_index r ≠ ModelCallReservation.call_index x) as Hne.
    { intros Heq. apply Hi. rewrite Heq. by apply list_elem_of_fmap_2. }
    right. exists r, x. split_and!; [left|by right|done..|].
    apply same_call_id; [apply Heach; left|apply Heach; by right|done|done|congruence|done].
  - left. rewrite count_none; [lia|]. intros x Hx. apply bool_decide_eq_false_2. intros Hxc.
    apply Hno, Exists_exists. by exists x.
Qed.
End journal.
