(* ===== verification/StoreProofs.v ===== *)
(** The invariant of the in-memory store: its journal replays to its projection, its index is
    the audited one, and its sidecars agree with the journal.  Every append keeps it, and a
    store that has it loads. *)

From S2P Require Import Prelude Text Wire WorkGraphTypes WorkGraphErrors Planning Material.
From S2P Require Import ToolOutput Completion Journal Reducer RunInvariant JournalTheorems.
From S2P Require Import Receipt StoreTypes StoreBundles StoreIndex StoreSidecars MemoryStore.
From S2P Require Import StoreSpec.

Module M := MemoryRunStore.

Section store.
Context `{Crypto} `{ReceiptSchema} `{Rfc3339}.

(** Read a returned pair without simplifying it. *)
Lemma ok_pair_inj {E A B} (a a' : A) (b b' : B) : (Ok (a, b) : res E (A * B)) = Ok (a', b') → a' = a ∧ b' = b.
Proof. by intros [= -> ->]. Qed.

(** ** The invariant *)

Definition journal_agrees (records : list EventRecord) (projection : option RunState) : Prop :=
  match projection with
  | None => records = []
  | Some s => replay records = Ok s
  end.

(** The index a full audit of the journal computes, before the sidecars. *)
Definition journal_index (records : list EventRecord) (projection : option RunState)
    : res StoreError VerifiedRunIndex :=
  for_each index_record records (V.set_state projection V.default).

(** An index whose sidecar half is still empty. *)
Record blank (i : VerifiedRunIndex) : Prop := {
  bl_outputs : with_outputs ∅ i = i;
  bl_receipts : with_receipts [] i = i;
  bl_head : V.set_receipt_head_digest None i = i;
}.

Definition store_sidecars (self : MemoryRunStore) : VerifiedRunIndex → VerifiedRunIndex :=
  with_sidecars (M.plan_inputs self) (M.materials self) (M.outputs self) (M.receipts self).

Definition index_base (self : MemoryRunStore) (base : VerifiedRunIndex) : Prop :=
  journal_index (M.records self) (M.projection self) = Ok base ∧ blank base ∧
  M.index self = store_sidecars self base.

Record store_inv (self : MemoryRunStore) : Prop := {
  si_journal : journal_agrees (M.records self) (M.projection self);
  si_index : ∃ base, index_base self base;
  si_state : V.state (M.index self) = M.projection self;
  si_last : V.last_record (M.index self) = last (M.records self);
  si_facts : index_facts (M.index self) (M.projection self);
  si_inputs : inputs_agree (M.index self) (M.plan_inputs self);
  si_materials : materials_agree (M.index self) (M.materials self);
  si_outputs : outputs_agree (M.index self) (M.outputs self);
  si_receipts : receipts_agree (M.index self) (M.receipts self);
  si_positions e : is_Some (V.receipt_event_positions (M.index self) !! e) ↔
    e ∈ StoredExecutionReceipt.effect_id <$> M.receipts self;
  si_completion : verify_completion_output_record (M.index self) (M.completion_output self) = Ok tt;
}.

Lemma store_inv_run_inv self s : store_inv self → M.projection self = Some s → run_inv s.
Proof. intros Hinv Hs. pose proof (si_journal _ Hinv) as Hj. rewrite Hs in Hj. by eapply replay_run_inv. Qed.

Lemma store_inv_new : store_inv M.new.
Proof.
  split; cbn; try done.
  - exists V.default. split; [done|]. split; [|done]. by split.
  - split; cbn; [done|done|apply NoDup_nil_2..].
  - intros e. rewrite lookup_empty. split; [by intros [? ?]|by intros ?%elem_of_nil].
Qed.

(** ** Loading *)

Definition snapshot_of (self : MemoryRunStore) : option RunSnapshot :=
  RunSnapshot.mk (M.records self) <$> M.projection self.

Lemma audit_snapshot_Ok self base :
  journal_agrees (M.records self) (M.projection self) →
  journal_index (M.records self) (M.projection self) = Ok base →
  audit_snapshot (M.records self) (M.projection self) = Ok (snapshot_of self, base).
Proof.
  unfold audit_snapshot, snapshot_of, journal_agrees, journal_index. intros Hj Hbase.
  destruct (M.projection self) as [s|].
  - assert (verified_snapshot (M.records self) (Some s) = Ok (Some (RunSnapshot.mk (M.records self) s))) as ->.
    { destruct (M.records self) as [|r l] eqn:Hl; [done|]. unfold verified_snapshot.
      rewrite Hj. cbn [map_err rbind]. by rewrite bool_decide_eq_false_2 by auto. }
    cbn. by rewrite Hbase.
  - rewrite Hj in *. cbn in *. by injection Hbase as <-.
Qed.

(** A store with the invariant passes its own audit. *)
Lemma load_spec self : store_inv self → load self = Ok (snapshot_of self).
Proof.
  intros [Hj (base & Hbase & [Hbo Hbr Hbh] & Hidx) _ _ _ Hin Hma Hou Hre _ Hco].
  change (load self) with (MemoryRunStore_load self). unfold MemoryRunStore_load.
  rewrite (audit_snapshot_Ok self base) by done. cbn [rbind]. rewrite Hidx in *.
  rewrite (audit_inputs base) by (by destruct Hin). cbn [rbind].
  rewrite audit_materials by (by destruct Hma). cbn [rbind].
  rewrite audit_outputs; [|by destruct Hou|].
  2: { rewrite <-Hbo at 2. done. }
  cbn [rbind]. rewrite audit_receipts; [|by destruct Hre|].
  2: { rewrite <-Hbr at 2. done. }
  cbn [rbind].
  change (verify_completion_output_record _ ?c) with (verify_completion_output_record (store_sidecars self base) c).
  rewrite Hco. cbn [rbind]. by rewrite bool_decide_eq_false_2 by auto.
Qed.

(** ** What an append leaves alone *)

(** The projection keeps the run it belongs to. *)
Definition run_kept (i i' : VerifiedRunIndex) : Prop :=
  ∀ s, V.state i = Some s → ∃ s', V.state i' = Some s' ∧ RunState.run_id s' = RunState.run_id s.

Lemma inputs_kept i i' inputs :
  run_kept i i' → V.planned_invocations i' = V.planned_invocations i →
  inputs_agree i inputs → inputs_agree i' inputs.
Proof.
  intros Hrun Hp [Hdom Hv]. split; rewrite Hp; [done|]. intros id a input Ha Hi.
  destruct (Hv _ _ _ Ha Hi) as (s & (s' & Hs' & <-)%Hrun & Hok). eauto.
Qed.

Lemma materials_kept i i' materials :
  run_kept i i' → V.intents i' = V.intents i → materials_agree i materials → materials_agree i' materials.
Proof.
  intros Hrun Hp [Hdom Hv]. split; rewrite Hp; [done|]. intros e a m Ha Hm.
  destruct (Hv _ _ _ Ha Hm) as (s & (s' & Hs' & <-)%Hrun & Hok). eauto.
Qed.

Lemma stored_output_kept i i' a o :
  V.intents i ⊆ V.intents i' → verify_stored_tool_output i a o = Ok tt →
  verify_stored_tool_output i' a o = Ok tt.
Proof.
  intros Hsub. unfold verify_stored_tool_output. destruct (_ || _ || _); [done|].
  destruct (V.intents i !! _) as [x|] eqn:Hx; [|done].
  by rewrite (lookup_weaken _ _ _ _ Hx Hsub).
Qed.

Lemma outputs_kept i i' outputs :
  V.intents i ⊆ V.intents i' → V.tool_output_events i' = V.tool_output_events i →
  outputs_agree i outputs → outputs_agree i' outputs.
Proof.
  intros Hsub Hev [Hdom Hkey Hv Hids Hds]. split; rewrite ?Hev; try done.
  intros e a o Ha Ho. eapply stored_output_kept; eauto.
Qed.

(** A receipt stays verified while the outputs of its effect stay what they are. *)
Lemma stored_receipt_kept i i' prev a r :
  V.intents i ⊆ V.intents i' →
  (∀ x, V.intents i !! ReceiptEventAnchor.effect_id a = Some x →
    tool_output_profile (EffectIntentAnchor.intent x) = Some TOOL_OUTPUT_PROFILE_V1 →
    is_Some (V.tool_output_digests i !! ReceiptEventAnchor.effect_id a) →
    V.tool_output_digests i' !! ReceiptEventAnchor.effect_id a
    = V.tool_output_digests i !! ReceiptEventAnchor.effect_id a) →
  (∀ x, V.intents i !! ReceiptEventAnchor.effect_id a = Some x →
    tool_output_profile (EffectIntentAnchor.intent x) ≠ Some TOOL_OUTPUT_PROFILE_V1 →
    V.tool_output_digests i' !! ReceiptEventAnchor.effect_id a
    = V.tool_output_digests i !! ReceiptEventAnchor.effect_id a) →
  verify_stored_receipt i prev a r = Ok tt → verify_stored_receipt i' prev a r = Ok tt.
Proof.
  intros Hsub Hsome Hother. unfold verify_stored_receipt, verify_receipt_tool_output_binding.
  destruct (map_err _ (validate_execution_receipt _)); cbn [rbind]; [|done..].
  destruct (_ || _); [done|].
  destruct (V.intents i !! _) as [x|] eqn:Hx; cbn [expect rbind]; [|done].
  rewrite (lookup_weaken _ _ _ _ Hx Hsub). cbn [expect rbind ok_or].
  destruct (ok_or _ _) as [p| |]; cbn [rbind]; [|done..].
  destruct (verify_receipt_intent_binding _ _ _ _) as [u| |]; cbn [rbind]; [|done..].
  specialize (Hsome x eq_refl). specialize (Hother x eq_refl).
  destruct (decide (tool_output_profile (EffectIntentAnchor.intent x) = Some TOOL_OUTPUT_PROFILE_V1)) as [Hp|Hp].
  - rewrite Hp in *. rewrite !bool_decide_eq_true_2 by done.
    case_bool_decide as Hd; [|done]. rewrite Hsome, Hd by (done || by eexists).
    by rewrite bool_decide_eq_true_2.
  - rewrite bool_decide_eq_false_2 by done. by rewrite Hother.
Qed.

Lemma receipts_kept i i' receipts :
  V.intents i ⊆ V.intents i' → V.receipt_events i' = V.receipt_events i →
  V.tool_output_digests i' = V.tool_output_digests i →
  receipts_agree i receipts → receipts_agree i' receipts.
Proof.
  intros Hsub Hev Hd [Hlen Hv Hids Hds Hes]. split; rewrite ?Hev; try done.
  intros k a r Ha Hr. eapply stored_receipt_kept; [done|by rewrite Hd..|by eauto].
Qed.

(** ** Committing *)

Lemma replay_extend records projection r s' :
  journal_agrees records projection → apply_record projection r = Ok s' →
  replay (records ++ [r]) = Ok s'.
Proof.
  unfold journal_agrees, replay. intros Hj Happ. rewrite for_each_app.
  assert (for_each replay_record records None = Ok projection) as ->.
  { destruct projection as [s|]; [|by rewrite Hj].
    destruct (for_each replay_record records None) as [o| |]; cbn in Hj; [|done..].
    by destruct o as [s0|]; simplify_eq/=. }
  cbn [rbind for_each]. unfold replay_record, rmap. by rewrite Happ.
Qed.

Lemma prepare_commit_Ok i expected event commit :
  prepare_commit i expected event = Ok commit →
  expected = VerifiedRunIndex_head i ∧ (RunEvent.event_id event ∉ V.event_ids i) ∧
  EventRecord_next (V.last_record i) event = Ok (Commit.record commit) ∧
  EventRecord.event (Commit.record commit) = event ∧
  apply_record (V.state i) (Commit.record commit) = Ok (Commit.state commit).
Proof.
  unfold prepare_commit. intros Hp. repeat res_step. cbn.
  match goal with Hn : EventRecord_next _ _ = Ok _ |- _ =>
    pose proof (proj1 (next_Ok _ _ _) Hn) as (? & _) end.
  split_and!; done.
Qed.

(** The index after the event of a commit, before its sidecars are recorded. *)
Record commit_step (self : MemoryRunStore) (commit : Commit) (anchors : CommitAnchors)
    (b1 : VerifiedRunIndex) : Prop := {
  cs_body : ∃ i, index_body i (Commit.record commit) = Ok b1 ∧
    V.planned_invocations i = V.planned_invocations (M.index self) ∧
    V.intents i = V.intents (M.index self) ∧
    V.receipt_events i = V.receipt_events (M.index self) ∧
    V.receipt_event_positions i = V.receipt_event_positions (M.index self) ∧
    V.tool_output_events i = V.tool_output_events (M.index self) ∧
    V.completion_output_event i = V.completion_output_event (M.index self) ∧
    V.effect_starts i = V.effect_starts (M.index self);
  cs_journal : journal_index (M.records self ++ [Commit.record commit]) (Some (Commit.state commit))
    = Ok (V.set_last_record (Some (Commit.record commit)) (V.set_state (Some (Commit.state commit)) b1));
  cs_blank : blank (V.set_last_record (Some (Commit.record commit)) (V.set_state (Some (Commit.state commit)) b1));
  cs_facts : index_facts b1 (Some (Commit.state commit));
  cs_replay : replay (M.records self ++ [Commit.record commit]) = Ok (Commit.state commit);
  cs_run s : M.projection self = Some s →
    RunState.run_id (Commit.state commit) = RunState.run_id s ∧
    RunEvent.run_id (EventRecord.event (Commit.record commit)) = RunState.run_id s;
  cs_apply sidecars :
    VerifiedRunIndex_apply_committed (M.index self) commit sidecars anchors
    = Ok (V.set_last_record (Some (Commit.record commit)) (V.set_state (Some (Commit.state commit))
        (apply_receipt (Commit.record commit) (CommitSidecars.receipt_ sidecars)
          (apply_output (CommitSidecars.output_ sidecars)
            (apply_material (CommitSidecars.material_ sidecars)
              (apply_plan_inputs (CommitSidecars.plan_inputs_ sidecars)
                (store_sidecars self b1)))))));
}.

(** A framed function that fixes an index fixes what an event makes of it. *)
Lemma index_body_fixed F i r b :
  frame F → F i = i → index_body i r = Ok b → F b = b.
Proof.
  intros HF Hi Hb. pose proof (index_body_frame F HF i r) as Hf. rewrite Hi, Hb in Hf.
  by injection Hf as <-.
Qed.

Lemma index_body_blank i r b : blank i → index_body i r = Ok b → blank b.
Proof.
  intros [Ho Hr Hh] Hb. split.
  - by apply (index_body_fixed (with_outputs ∅) i r b); [split|..].
  - by apply (index_body_fixed (with_receipts []) i r b); [split|..].
  - by apply (index_body_fixed (V.set_receipt_head_digest None) i r b); [split|..].
Qed.

Lemma blank_through (G : VerifiedRunIndex → VerifiedRunIndex) i :
  (∀ x, with_outputs ∅ (G x) = G (with_outputs ∅ x)) →
  (∀ x, with_receipts [] (G x) = G (with_receipts [] x)) →
  (∀ x, V.set_receipt_head_digest None (G x) = G (V.set_receipt_head_digest None x)) →
  blank i → blank (G i).
Proof.
  intros Go Gr Gh [Ho Hr Hh]. split; [by rewrite Go, Ho|by rewrite Gr, Hr|by rewrite Gh, Hh].
Qed.

(** The event of a prepared commit is indexed. *)
Lemma commit_indexed self i commit anchors :
  store_inv self → index_facts i (M.projection self) →
  apply_record (M.projection self) (Commit.record commit) = Ok (Commit.state commit) →
  anchored i (Commit.record commit) anchors →
  ∃ b1, index_body i (Commit.record commit) = Ok b1 ∧ index_facts b1 (Some (Commit.state commit)).
Proof.
  intros Hinv Hfacts Happ Hanch. destruct (M.projection self) as [s|] eqn:Hs.
  - pose proof (store_inv_run_inv _ _ Hinv Hs) as Hrun.
    destruct (index_body_total _ _ _ _ _ Hfacts Hrun Happ Hanch) as [b1 Hb1].
    exists b1. split; [done|]. by eapply index_facts_next.
  - exists i. split; [by eapply index_body_first|].
    apply apply_first_Ok in Happ as (goal & _ & _ & ->). destruct Hfacts as [F1 F2 F3].
    split; cbn in *; [done|done|]. intros e a Ha. by apply F3.
Qed.

Lemma commit_step_intro self expected event commit anchors :
  store_inv self → prepare_commit (M.index self) expected event = Ok commit →
  anchored (M.index self) (Commit.record commit) anchors →
  ∃ b1, commit_step self commit anchors b1.
Proof.
  intros Hinv (_ & Hnew & _ & Hevent & Happ)%prepare_commit_Ok Hanch.
  pose proof Hinv as [Hj (base & Hbase & Hblank & Hidx) Hst _ Hfacts _ _ _ _ _ _].
  rewrite Hst in Happ. rewrite Hidx in Hnew, Hfacts, Hanch.
  set (i := V.set_event_ids ({[RunEvent.event_id event]} ∪ V.event_ids base) base).
  destruct (commit_indexed self i commit anchors) as (b1 & Hb1 & Hf1); try done.
  { by eapply index_facts_ext, Hfacts. }
  exists b1. split; [| | |done| | |].
  - exists i. by rewrite Hidx.
  - unfold journal_index. rewrite for_each_app.
    change (V.set_state (Some (Commit.state commit)) V.default)
      with (V.set_state (Some (Commit.state commit)) (V.set_state (M.projection self) V.default)).
    rewrite index_records_state. fold (journal_index (M.records self) (M.projection self)).
    rewrite Hbase. cbn [rmap rbind for_each]. rewrite index_record_state. unfold index_record.
    rewrite Hevent, bool_decide_eq_false_2 by done. fold i. by rewrite Hb1.
  - apply (blank_through (λ x, V.set_last_record _ (V.set_state _ x))); [done..|].
    eapply index_body_blank; [|done]. by apply (blank_through (V.set_event_ids _)).
  - by eapply replay_extend.
  - intros s Hs. rewrite Hs in Happ. pose proof (store_inv_run_inv _ _ Hinv Hs) as Hrun.
    by destruct (apply_record_some _ _ _ Hrun Happ) as (? & ? & _).
  - intros sidecars. unfold VerifiedRunIndex_apply_committed. rewrite Hevent, Hidx.
    change (V.set_event_ids _ (store_sidecars self base)) with (store_sidecars self i).
    rewrite (apply_committed_body_indexed _ _ _ (store_sidecars self b1)); [done| |done].
    unfold store_sidecars. rewrite (index_body_frame _ (frame_with_sidecars _ _ _ _)). by rewrite Hb1.
Qed.

(** ** The sidecars of a commit *)

Lemma dom_store_plan_inputs stored inputs :
  dom (foldl store_plan_input stored inputs)
  = (dom stored ∪ list_to_set (map PlannedInvocationMaterialRecord.step_id inputs) : gset string).
Proof.
  revert stored. induction inputs as [|input inputs IH]; intros stored; cbn [foldl map list_to_set foldr].
  - by rewrite union_empty_r_L.
  - rewrite IH. unfold store_plan_input. rewrite dom_insert_L. set_solver.
Qed.

Lemma apply_plan_inputs_store p m o r inputs b :
  apply_plan_inputs (Some inputs) (with_sidecars p m o r b)
  = with_sidecars (foldl store_plan_input p inputs) m o r b.
Proof. unfold apply_plan_inputs, with_sidecars. by rewrite dom_store_plan_inputs. Qed.

Lemma apply_material_store p m o r x b :
  apply_material (Some x) (with_sidecars p m o r b)
  = with_sidecars p (<[InvocationMaterialRecord.effect_id x := x]> m) o r b.
Proof. unfold apply_material, with_sidecars. by rewrite dom_insert_L. Qed.

Lemma apply_output_store p m o r sq x b :
  o !! ToolOutputRecord.effect_id x = None →
  apply_output (Some x) (with_sidecars p m o r b)
  = with_sidecars p m (<[ToolOutputRecord.effect_id x := StoredToolOutput.mk sq x]> o) r b.
Proof. intros Hn. unfold apply_output, with_sidecars. by rewrite with_outputs_insert. Qed.

Lemma apply_receipt_store p m o r record step e disposition id digest sq x b :
  RunEvent.body (EventRecord.event record) = RunEventBody.VerificationRecorded step e disposition id digest →
  apply_receipt record (Some x) (with_sidecars p m o r b)
  = with_sidecars p m o (r ++ [StoredExecutionReceipt.mk sq e x]) b.
Proof.
  intros Hb. unfold apply_receipt, with_sidecars. rewrite Hb, chain_head_snoc.
  by rewrite with_receipts_snoc.
Qed.

(** The index a committed store has. *)
Definition committed_index (commit : Commit) (i : VerifiedRunIndex) : VerifiedRunIndex :=
  V.set_last_record (Some (Commit.record commit)) (V.set_state (Some (Commit.state commit)) i).

(** The journal half of the invariant comes with the commit; the sidecars remain. *)
Lemma store_inv_committed self commit anchors b1 p m o r c :
  let index := committed_index commit (with_sidecars p m o r b1) in
  commit_step self commit anchors b1 →
  inputs_agree index p → materials_agree index m → outputs_agree index o →
  receipts_agree index r →
  (∀ e, is_Some (V.receipt_event_positions b1 !! e) ↔ e ∈ StoredExecutionReceipt.effect_id <$> r) →
  verify_completion_output_record index c = Ok tt →
  store_inv (M.mk (M.records self ++ [Commit.record commit]) (Some (Commit.state commit)) p m r o c index).
Proof.
  intros index Hcs Hin Hma Hou Hre Hpos Hco. destruct Hcs as [_ Hjournal Hblank Hfacts Hreplay _ _].
  split; cbn [M.records M.projection M.plan_inputs M.materials M.receipts M.outputs M.completion_output M.index];
    try done.
  - exists (committed_index commit b1). by split_and!.
  - by rewrite last_snoc.
  - by eapply index_facts_ext, Hfacts.
Qed.

Lemma commit_run_kept self commit anchors b1 i :
  store_inv self → commit_step self commit anchors b1 →
  run_kept (M.index self) (committed_index commit i).
Proof.
  intros Hinv Hcs s Hs. rewrite (si_state _ Hinv) in Hs.
  destruct (cs_run _ _ _ _ Hcs s Hs) as [Hrun _]. by exists (Commit.state commit).
Qed.

(** ** Plain appends *)

(** An event no sidecar belongs to. *)
Definition plain (body : RunEventBody) : bool :=
  match body with
  | RunEventBody.PlanAccepted _ _ | RunEventBody.EffectIntentCommitted _ _
  | RunEventBody.EffectSucceeded _ _ _ (Some _)
  | RunEventBody.CompletionCandidateRecorded _ _ _ _
  | RunEventBody.VerificationRecorded _ _ _ _ _
  | RunEventBody.VerificationPassed _ | RunEventBody.VerificationFailed _ _ => false
  | _ => true
  end.

Lemma verify_bundles_plain event u :
  verify_bundles event None None None None None = Ok u → plain (RunEvent.body event) = true.
Proof.
  unfold verify_bundles, verify_plan_input_bundle, verify_material_bundle, verify_intent_profile,
    verify_receipt_bundle, verify_tool_output_bundle, verify_completion_output_bundle.
  destruct (RunEvent.body event) as [| | | | | | |? ? ? []| | | | |? ? ? []| | | | | | | |]; try done; cbn.
  intros Hv. by res_inv.
Qed.

Lemma plain_anchored i r anchors :
  plain (RunEvent.body (EventRecord.event r)) = true → anchored i r anchors.
Proof.
  unfold anchored.
  by destruct (RunEvent.body (EventRecord.event r)) as [| | | | | | |? ? ? []| | | | |? ? ? []| | | | | | | |].
Qed.

(** The journal half an event may leave alone. *)
Record sidecars_unmoved (i i' : VerifiedRunIndex) : Prop := {
  um_planned : V.planned_invocations i' = V.planned_invocations i;
  um_intents : V.intents i' = V.intents i;
  um_receipts : V.receipt_events i' = V.receipt_events i;
  um_positions : V.receipt_event_positions i' = V.receipt_event_positions i;
  um_outputs : V.tool_output_events i' = V.tool_output_events i;
  um_completion : V.completion_output_event i' = V.completion_output_event i;
}.

Lemma plain_unmoved i r b :
  plain (RunEvent.body (EventRecord.event r)) = true → index_body i r = Ok b → sidecars_unmoved i b.
Proof.
  unfold index_body.
  destruct (RunEvent.body (EventRecord.event r)) as [| | | | | | |? ? ? []| | | | |? ? ? []| | | | | | | |];
    try done; intros _ Hb; repeat res_step; by split.
Qed.

(** The sidecars an append leaves alone stay in agreement; it shows the agreement of those
    it moves. *)
Lemma store_inv_moved self commit anchors b1 p m o r c :
  let index := committed_index commit (with_sidecars p m o r b1) in
  store_inv self → commit_step self commit anchors b1 →
  V.intents (M.index self) ⊆ V.intents b1 →
  (V.planned_invocations b1 = V.planned_invocations (M.index self) ∧ p = M.plan_inputs self ∨
   inputs_agree index p) →
  (V.intents b1 = V.intents (M.index self) ∧ m = M.materials self ∨ materials_agree index m) →
  (V.tool_output_events b1 = V.tool_output_events (M.index self) ∧ o = M.outputs self ∨
   outputs_agree index o) →
  (V.receipt_events b1 = V.receipt_events (M.index self) ∧ o = M.outputs self ∧ r = M.receipts self ∨
   receipts_agree index r) →
  (V.receipt_event_positions b1 = V.receipt_event_positions (M.index self) ∧ r = M.receipts self ∨
   ∀ e, is_Some (V.receipt_event_positions b1 !! e) ↔ e ∈ StoredExecutionReceipt.effect_id <$> r) →
  (V.completion_output_event b1 = V.completion_output_event (M.index self) ∧ c = M.completion_output self ∨
   verify_completion_output_record index c = Ok tt) →
  store_inv (M.mk (M.records self ++ [Commit.record commit]) (Some (Commit.state commit)) p m r o c index).
Proof.
  intros index Hinv Hcs Hsub Hp Hm Ho Hr Hpos Hc.
  pose proof (commit_run_kept _ _ _ _ (with_sidecars p m o r b1) Hinv Hcs) as Hrun.
  apply (store_inv_committed self commit anchors b1); [done|..].
  - destruct Hp as [[U ->]|Hp]; [|done]. by eapply inputs_kept, (si_inputs _ Hinv).
  - destruct Hm as [[U ->]|Hm]; [|done]. by eapply materials_kept, (si_materials _ Hinv).
  - destruct Ho as [[U ->]|Ho]; [|done]. by eapply outputs_kept, (si_outputs _ Hinv).
  - destruct Hr as [(U & -> & ->)|Hr]; [|done].
    eapply receipts_kept, (si_receipts _ Hinv); [done..|].
    destruct (si_index _ Hinv) as (base & _ & _ & Hidx). by rewrite Hidx.
  - destruct Hpos as [[-> ->]|Hpos]; [|done]. apply (si_positions _ Hinv).
  - destruct Hc as [[U ->]|Hc]; [|done].
    unfold verify_completion_output_record. cbn. rewrite U. apply (si_completion _ Hinv).
Qed.

Lemma store_inv_plain self commit anchors b1 :
  store_inv self → commit_step self commit anchors b1 →
  plain (RunEvent.body (EventRecord.event (Commit.record commit))) = true →
  store_inv (M.commit_record commit (committed_index commit (store_sidecars self b1)) self).
Proof.
  intros Hinv Hcs Hplain. destruct (cs_body _ _ _ _ Hcs) as (i & Hb & E1 & E2 & E3 & E4 & E5 & E6 & _).
  destruct (plain_unmoved _ _ _ Hplain Hb) as [U1 U2 U3 U4 U5 U6].
  apply (store_inv_moved self commit anchors b1); try done; try (left; split_and!; congruence).
  by rewrite U2, E2.
Qed.

(** A verification recorded without a receipt, which the store does not append. *)
Definition legacy (body : RunEventBody) : bool :=
  match body with
  | RunEventBody.VerificationPassed _ | RunEventBody.VerificationFailed _ _ => true
  | _ => false
  end.

(** How a successful append moves the store: one prepared commit, indexed, with sidecars. *)
Record advanced (self : MemoryRunStore) (expected : ExpectedHead) (event : RunEvent)
    (commit : Commit) (self' : MemoryRunStore) : Prop := {
  ad_prepared : prepare_commit (M.index self) expected event = Ok commit;
  ad_records : M.records self' = M.records self ++ [Commit.record commit];
  ad_projection : M.projection self' = Some (Commit.state commit);
  ad_indexed : ∃ anchors b1 p m o r, commit_step self commit anchors b1 ∧
    M.index self' = committed_index commit (with_sidecars p m o r b1);
  ad_legacy : legacy (RunEvent.body event) = false;
}.

Lemma append_inv self expected event commit self' :
  store_inv self → append self expected event = Ok (commit, self') →
  store_inv self' ∧ advanced self expected event commit self'.
Proof.
  intros Hinv. change (append self) with (MemoryRunStore_append self). unfold MemoryRunStore_append.
  destruct (verify_bundles _ _ _ _ _ _) as [u| |] eqn:Hv; cbn [rbind]; [|done..].
  destruct (prepare_commit _ _ _) as [cm| |] eqn:Hp; cbn [rbind]; [|done..].
  pose proof (prepare_commit_Ok _ _ _ _ Hp) as (_ & _ & _ & Hevent & _).
  apply verify_bundles_plain in Hv. pose proof Hv as Hplain. rewrite <-Hevent in Hplain.
  destruct (commit_step_intro self expected event cm CommitAnchors.default) as [b1 Hcs];
    [done|done|by apply plain_anchored|].
  rewrite (cs_apply _ _ _ _ Hcs). cbn [rbind]. intros [-> ->]%ok_pair_inj.
  split; [by eapply store_inv_plain|]. split; [done..| |by destruct (RunEvent.body event)].
  do 6 eexists. by split.
Qed.
End store.
