(* ===== verification/StoreAppends.v ===== *)
(** The appends that carry sidecars keep the invariant of the in-memory store, and no append or
    load of a store that has it panics. *)

From S2P Require Import Prelude Text Wire WorkGraphTypes WorkGraphErrors Planning Material.
From S2P Require Import ToolOutput Completion Plans Effects Reducer RunInvariant JournalTheorems.
From S2P Require Import Receipt StoreTypes StoreBundles StoreIndex StoreSidecars MemoryStore.
From S2P Require Import StoreSpec StoreProofs RecordProofs Journal RecordTheorems.

Section appends.
Context `{Crypto} `{ReceiptSchema} `{Rfc3339}.

(** The opening of every append with a sidecar: peel the bundles and the prepared commit. *)
Ltac open_append Hv Hp :=
  destruct (verify_bundles _ _ _ _ _ _) as [?| |] eqn:Hv; cbn [rbind]; [|done..];
  destruct (prepare_commit _ _ _) as [cm| |] eqn:Hp; cbn [rbind]; [|done..].

(** The appended store is the one the commit advances to. *)
Ltac advance Hp Hcs := split; [exact Hp|done|done|do 6 eexists; split; [exact Hcs|reflexivity]|].

(** A commit that is not the first has a projection to extend. *)
Lemma commit_extends self expected event commit :
  store_inv self → prepare_commit (M.index self) expected event = Ok commit →
  (∀ goal, RunEvent.body event ≠ RunEventBody.RunCreated goal) →
  ∃ s, M.projection self = Some s ∧ run_inv s ∧
    apply_record (Some s) (Commit.record commit) = Ok (Commit.state commit).
Proof.
  intros Hinv (_ & _ & _ & Hevent & Happ)%prepare_commit_Ok Hbody.
  rewrite (si_state _ Hinv) in Happ. destruct (M.projection self) as [s|] eqn:Hs.
  - exists s. split_and!; [done|by eapply store_inv_run_inv|done].
  - apply apply_first_Ok in Happ as (goal & Hgoal & _). rewrite Hevent in Hgoal. by destruct (Hbody goal).
Qed.

(** ** Plan inputs *)

(** Applying the accepted steps of a plan moves only step positions and planned invocations. *)
Lemma accepted_same {A} (f : VerifiedRunIndex → A) seq entries i :
  (∀ v w i, f (V.set_planned_invocations v (V.set_step_positions w i)) = f i) →
  f (foldl (apply_accepted_step seq) i entries) = f i.
Proof.
  intros Hf. revert i. induction entries as [|[k p] entries IH]; intros i; [done|].
  cbn [foldl]. rewrite IH. apply Hf.
Qed.

Lemma store_plan_inputs_union stored inputs :
  foldl store_plan_input stored inputs = foldl store_plan_input ∅ inputs ∪ stored.
Proof.
  revert stored. induction inputs as [|input inputs IH] using rev_ind; intros stored.
  - cbn. by rewrite map_empty_union.
  - rewrite !foldl_app. cbn. unfold store_plan_input. rewrite IH. by rewrite insert_union_l.
Qed.

(** The inputs the bundle check indexed. *)
Lemma index_plan_inputs_Ok inputs by_step :
  for_each index_plan_input inputs ∅ = Ok by_step →
  by_step = foldl store_plan_input ∅ inputs ∧
  NoDup (map PlannedInvocationMaterialRecord.step_id inputs).
Proof.
  intros Hrun. pattern inputs, by_step. revert Hrun. apply for_each_inv.
  - split; [done|apply NoDup_nil_2].
  - intros pre a rest t t' _ [-> Hnd] Ha. unfold index_plan_input in Ha. repeat res_step.
    apply eq_None_not_Some in Hb. rewrite foldl_app, map_app. split; [done|].
    apply NoDup_app. split_and!; [done| |apply NoDup_singleton].
    intros id Hid ->%list_elem_of_singleton. apply not_elem_of_dom in Hb. apply Hb.
    rewrite dom_store_plan_inputs. set_solver.
Qed.

Lemma accepted_plan_ids s d plan s1 :
  run_inv s → accept_plan s d plan = Ok s1 → NoDup (plan_ids plan).
Proof.
  intros Hinv Ha. apply accept_plan_Ok in Ha as (l & l' & f & Hpa & _); [|apply (ri_steps _ Hinv)].
  by destruct (pa_headers _ _ _ _ _ _ Hpa).
Qed.

(** Every step the bundle check visited has a verified input. *)
Lemma plan_steps_verified event by_step plan t u :
  for_each (λ _, verify_plan_input_step event by_step) plan t = Ok u →
  ∀ step, step ∈ plan → ∃ input, by_step !! AcceptedPlanStep.step_id step = Some input ∧
    PlannedInvocationMaterialRecord_verify_for input (RunEvent.run_id event)
      (AcceptedPlanStep.step_id step) (AcceptedPlanStep.invocation step) = Ok tt.
Proof.
  revert t. induction plan as [|p plan IH]; intros t Hrun step Hin; [by apply elem_of_nil in Hin|].
  cbn in Hrun. apply rbind_ok in Hrun as (t' & Hp & Hrun).
  apply elem_of_cons in Hin as [->|Hin]; [|by eapply IH].
  unfold verify_plan_input_step in Hp. repeat res_step. destruct t'. by eexists.
Qed.

(** A verified bundle has exactly the plan's steps as its keys, each verified. *)
Lemma plan_bundle_Ok event d plan inputs u :
  RunEvent.body event = RunEventBody.PlanAccepted d plan → NoDup (plan_ids plan) →
  verify_plan_input_bundle event (Some inputs) = Ok u →
  (∀ id, id ∈ map PlannedInvocationMaterialRecord.step_id inputs ↔ id ∈ plan_ids plan) ∧
  (∀ step input, step ∈ plan →
    foldl store_plan_input ∅ inputs !! AcceptedPlanStep.step_id step = Some input →
    PlannedInvocationMaterialRecord_verify_for input (RunEvent.run_id event)
      (AcceptedPlanStep.step_id step) (AcceptedPlanStep.invocation step) = Ok tt).
Proof.
  intros Hbody Hplan. unfold verify_plan_input_bundle. rewrite Hbody. case_bool_decide as Hlen; [done|].
  intros (by_step & Hby & Hrun)%rbind_ok. apply index_plan_inputs_Ok in Hby as [-> Hnd].
  pose proof (plan_steps_verified _ _ _ _ _ Hrun) as Hstep.
  split; [|intros step input (input' & -> & Hok)%Hstep [= <-]; done].
  set (ids := map _ inputs) in *.
  assert (Hsub : plan_ids plan ⊆+ ids).
  { apply NoDup_submseteq; [done|]. intros id (step & -> & Hin)%list_elem_of_fmap.
    destruct (Hstep _ Hin) as (input & Hi & _). apply elem_of_dom_2 in Hi.
    rewrite dom_store_plan_inputs in Hi. set_solver. }
  assert (Hperm : plan_ids plan ≡ₚ ids).
  { apply submseteq_length_Permutation; [done|]. unfold ids, plan_ids. rewrite !length_map.
    unfold len in Hlen. lia. }
  intros id. by rewrite Hperm.
Qed.

Lemma fresh_plan_inputs_Ok self inputs u :
  for_each (λ _, fresh_plan_input self) inputs tt = Ok u →
  ∀ id, id ∈ map PlannedInvocationMaterialRecord.step_id inputs → M.plan_inputs self !! id = None.
Proof.
  generalize tt at 1. induction inputs as [|input inputs IH]; intros t Hrun id Hid;
    [by apply elem_of_nil in Hid|].
  cbn in Hrun, Hid. apply rbind_ok in Hrun as (t' & Hi & Hrun).
  apply elem_of_cons in Hid as [->|Hid]; [|by eapply IH].
  unfold fresh_plan_input in Hi. repeat res_step. by bool_inv.
Qed.

(** The inputs of an accepted plan join those of earlier plans. *)
Lemma inputs_agree_plan i j i' s s' seq event d plan inputs stored u :
  V.state i = Some s → V.state i' = Some s' → RunState.run_id s' = RunState.run_id s →
  RunEvent.run_id event = RunState.run_id s →
  RunEvent.body event = RunEventBody.PlanAccepted d plan → NoDup (plan_ids plan) →
  verify_plan_input_bundle event (Some inputs) = Ok u →
  (∀ id, id ∈ map PlannedInvocationMaterialRecord.step_id inputs → stored !! id = None) →
  V.planned_invocations i'
    = V.planned_invocations (foldl (apply_accepted_step seq) j (enumerate plan)) →
  V.planned_invocations j = V.planned_invocations i →
  inputs_agree i stored → inputs_agree i' (foldl store_plan_input stored inputs).
Proof.
  intros Hs Hs' Hrun Hevent Hbody Hnd Hbundle Hfresh Hp Hj [Hdom Hv].
  destruct (plan_bundle_Ok _ _ _ _ _ Hbody Hnd Hbundle) as [Hids Hnew].
  split; rewrite Hp.
  - rewrite dom_store_plan_inputs, apply_accepted_planned, entry_ids, Hdom, Hj.
    apply set_eq. intros id. rewrite !elem_of_union, !elem_of_list_to_set, Hids. naive_solver.
  - intros id a input Ha Hi. exists s'. split; [done|]. rewrite Hrun.
    rewrite store_plan_inputs_union in Hi. apply lookup_union_Some_raw in Hi.
    destruct (apply_accepted_binding _ _ _ _ _ Ha) as [([k step] & He & <- & ->)|Hold].
    + assert (Hstep : step ∈ plan).
      { rewrite <-(enumerate_snd plan). apply list_elem_of_fmap. by exists (k, step). }
      assert (Hid : AcceptedPlanStep.step_id step ∈ map PlannedInvocationMaterialRecord.step_id inputs)
        by (apply Hids; by apply list_elem_of_fmap_2).
      destruct Hi as [Hi|[_ Hi]]; [|by rewrite Hfresh in Hi].
      rewrite <-Hevent. by apply Hnew.
    + rewrite Hj in Hold. destruct Hi as [Hi|[_ Hi]].
      * apply elem_of_dom_2 in Hi. rewrite dom_store_plan_inputs in Hi.
        assert (Hn : stored !! id = None) by (apply Hfresh; set_solver).
        apply not_elem_of_dom in Hn. rewrite Hdom in Hn. by apply elem_of_dom_2 in Hold.
      * destruct (Hv _ _ _ Hold Hi) as (s0 & Hs0 & Hok). rewrite Hs in Hs0. by injection Hs0 as <-.
Qed.

Lemma verify_bundles_inputs event inputs u :
  verify_bundles event (Some inputs) None None None None = Ok u →
  verify_plan_input_bundle event (Some inputs) = Ok tt ∧
  ((inputs = [] ∧ plain (RunEvent.body event) = true) ∨
   ∃ d plan, RunEvent.body event = RunEventBody.PlanAccepted d plan).
Proof.
  unfold verify_bundles. intros (t & Hp & Hrest)%rbind_ok. destruct t. split; [done|].
  revert Hp Hrest. unfold verify_plan_input_bundle, verify_material_bundle, verify_intent_profile,
    verify_receipt_bundle, verify_tool_output_bundle, verify_completion_output_bundle.
  destruct (RunEvent.body event) as [| | | | | |d plan|? ? ? []| | | | |? ? ? []| | | | | | | |];
    try (intros _ _; right; by exists d, plan); destruct inputs; try done; cbn; try (by left);
    intros _ Hv; by res_inv.
Qed.

Lemma append_with_plan_inputs_inv self expected event inputs commit self' :
  store_inv self → append_with_plan_inputs self expected event inputs = Ok (commit, self') →
  store_inv self' ∧ advanced self expected event commit self'.
Proof.
  intros Hinv. change (append_with_plan_inputs self) with (MemoryRunStore_append_with_plan_inputs self).
  unfold MemoryRunStore_append_with_plan_inputs. open_append Hv Hp.
  destruct (for_each _ inputs tt) as [t| |] eqn:Hfresh; cbn [rbind]; [|done..].
  apply verify_bundles_inputs in Hv as [Hbundle Hkind].
  pose proof (prepare_commit_Ok _ _ _ _ Hp) as (_ & _ & _ & Hevent & _).
  destruct (commit_step_intro self expected event cm CommitAnchors.default) as [b1 Hcs]; [done|done|..].
  { destruct Hkind as [[_ Hplain]|(d & plan & Hbody)]; rewrite <-Hevent in *; [by apply plain_anchored|].
    unfold anchored. by rewrite Hbody. }
  rewrite (cs_apply _ _ _ _ Hcs). cbn [rbind]. intros [-> ->]%ok_pair_inj.
  change (apply_receipt _ _ _) with (apply_plan_inputs (Some inputs) (store_sidecars self b1)).
  unfold store_sidecars. rewrite apply_plan_inputs_store.
  destruct Hkind as [[-> Hplain]|(d & plan & Hbody)].
  { split; [|advance Hp Hcs; by destruct (RunEvent.body event)].
    rewrite <-Hevent in Hplain. exact (store_inv_plain _ _ _ _ Hinv Hcs Hplain). }
  destruct (commit_extends _ _ _ _ Hinv Hp) as (s & Hs & Hrun & Happ); [by rewrite Hbody|].
  destruct (apply_record_some _ _ _ Hrun Happ) as (Hrid & Hreid & _ & s1 & Hb & _ & _).
  rewrite Hevent, Hbody in Hb. rewrite Hevent in Hreid. pose proof (accepted_plan_ids _ _ _ _ Hrun Hb) as Hnd.
  destruct (cs_body _ _ _ _ Hcs) as (i & Hbi & E1 & E2 & E3 & E4 & E5 & E6 & _).
  unfold index_body in Hbi. rewrite Hevent, Hbody in Hbi. apply index_accepted_foldl in Hbi as ->.
  split; [|advance Hp Hcs; by rewrite Hbody].
  apply (store_inv_moved self cm CommitAnchors.default
    (foldl (apply_accepted_step (EventRecord.sequence (Commit.record cm))) i (enumerate plan)));
    try done; rewrite ?accepted_same by done; try (left; by split_and!).
  - by rewrite E2.
  - right. eapply (inputs_agree_plan (M.index self) i); try done.
    + by rewrite (si_state _ Hinv).
    + exact (fresh_plan_inputs_Ok _ _ _ Hfresh).
    + apply (si_inputs _ Hinv).
Qed.

(** ** Invocation material *)

Lemma material_verified_effect x run_id step_id intent u :
  InvocationMaterialRecord_verify_for x run_id step_id intent = Ok u →
  InvocationMaterialRecord.effect_id x = EffectIntent.effect_id intent.
Proof. unfold InvocationMaterialRecord_verify_for. intros Hv. repeat res_step. done. Qed.

Lemma verify_bundles_material event x u :
  verify_bundles event None (Some x) None None None = Ok u →
  ∃ step_id intent, RunEvent.body event = RunEventBody.EffectIntentCommitted step_id intent ∧
    InvocationMaterialRecord_verify_for x (RunEvent.run_id event) step_id intent = Ok tt.
Proof.
  unfold verify_bundles, verify_plan_input_bundle, verify_material_bundle.
  destruct (RunEvent.body event) as [| | | | | | | | |step_id intent| | | | | | | | | | |];
    intros Hv; try (by res_inv).
  exists step_id, intent. split; [done|].
  apply rbind_ok in Hv as (t & _ & Hv). apply rbind_ok in Hv as (t1 & Hm & _).
  apply rbind_ok in Hm as (t2 & _ & Hm). apply map_err_ok in Hm. by destruct t1.
Qed.

Lemma materials_agree_insert i i' s s' seq step_id intent x materials :
  V.state i = Some s → V.state i' = Some s' → RunState.run_id s' = RunState.run_id s →
  V.intents i !! EffectIntent.effect_id intent = None →
  V.intents i' = <[EffectIntent.effect_id intent := EffectIntentAnchor.mk seq step_id intent]> (V.intents i) →
  InvocationMaterialRecord_verify_for x (RunState.run_id s) step_id intent = Ok tt →
  materials_agree i materials →
  materials_agree i' (<[InvocationMaterialRecord.effect_id x := x]> materials).
Proof.
  intros Hs Hs' Hrun Hnone Hi' Hx [Hdom Hv]. pose proof (material_verified_effect _ _ _ _ _ Hx) as ->.
  split; rewrite Hi'; [by rewrite !dom_insert_L, Hdom|].
  intros e a m Ha Hm. exists s'. split; [done|]. rewrite Hrun.
  apply lookup_insert_Some in Ha as [[<- <-]|[Hne Ha]].
  - rewrite lookup_insert_eq in Hm. by injection Hm as <-.
  - rewrite lookup_insert_ne in Hm by done. destruct (Hv _ _ _ Ha Hm) as (s0 & Hs0 & Hok).
    rewrite Hs in Hs0. by injection Hs0 as <-.
Qed.

Lemma append_with_invocation_material_inv self expected event x commit self' :
  store_inv self → append_with_invocation_material self expected event x = Ok (commit, self') →
  store_inv self' ∧ advanced self expected event commit self'.
Proof.
  intros Hinv. change (append_with_invocation_material self)
    with (MemoryRunStore_append_with_invocation_material self).
  unfold MemoryRunStore_append_with_invocation_material.
  destruct (verify_bundles _ _ _ _ _ _) as [?| |] eqn:Hv; cbn [rbind]; [|done..].
  apply verify_bundles_material in Hv as (step_id & intent & Hbody & Hx).
  destruct (verify_planned_material_retention _ _ _ _) as [?| |]; cbn [rbind]; [|done..].
  destruct (prepare_commit _ _ _) as [cm| |] eqn:Hp; cbn [rbind]; [|done..].
  case_bool_decide; [done|].
  pose proof (prepare_commit_Ok _ _ _ _ Hp) as (_ & _ & _ & Hevent & _).
  rewrite Hevent, Hbody. cbn [rbind]. pose proof (material_verified_effect _ _ _ _ _ Hx) as Heff.
  rewrite Heff at 1. rewrite <-Heff, lookup_insert_eq. cbn [expect rbind].
  destruct (commit_step_intro self expected event cm CommitAnchors.default) as [b1 Hcs]; [done|done|..].
  { unfold anchored. by rewrite Hevent, Hbody. }
  rewrite (cs_apply _ _ _ _ Hcs). cbn [rbind]. intros [-> ->]%ok_pair_inj.
  change (apply_receipt _ _ _) with (apply_material (Some x) (store_sidecars self b1)).
  unfold store_sidecars. rewrite apply_material_store.
  destruct (commit_extends _ _ _ _ Hinv Hp) as (s & Hs & Hrun & Happ); [by rewrite Hbody|].
  destruct (apply_record_some _ _ _ Hrun Happ) as (Hrid & Hreid & _).
  rewrite Hevent in Hreid. rewrite Hreid in Hx.
  destruct (cs_body _ _ _ _ Hcs) as (i & Hbi & E1 & E2 & E3 & E4 & E5 & E6 & _).
  unfold index_body in Hbi. rewrite Hevent, Hbody in Hbi. repeat res_step.
  match goal with Hn : insert_new _ _ _ _ = Ok _ |- _ => apply insert_new_Ok in Hn as [Hnone ->] end.
  rewrite E2 in Hnone.
  split; [|advance Hp Hcs; first [by rewrite Hbody|by rewrite <-Hevent, ?Hbody0, ?Hbody]].
  eapply (store_inv_moved self cm CommitAnchors.default _ _ (<[_ := x]> _)); [done|exact Hcs|..];
    try (left; by split_and!).
  - cbn. rewrite E2. by apply insert_subseteq.
  - right. eapply (materials_agree_insert (M.index self)); try done.
    + by rewrite (si_state _ Hinv).
    + cbn. by rewrite E2.
    + apply (si_materials _ Hinv).
Qed.

(** ** Receipts *)

Lemma verify_bundles_receipt event x u :
  verify_bundles event None None (Some x) None None = Ok u →
  ∃ step_id effect_id disposition receipt_id receipt_digest,
    RunEvent.body event
      = RunEventBody.VerificationRecorded step_id effect_id disposition receipt_id receipt_digest ∧
    is_ok (validate_execution_receipt x).
Proof.
  unfold verify_bundles, verify_plan_input_bundle, verify_material_bundle, verify_intent_profile,
    verify_receipt_bundle.
  destruct (RunEvent.body event) as [| | | | | | | | | | | | | | | | | | | |step e d id dg];
    intros Hv; try (by res_inv). exists step, e, d, id, dg. split; [done|].
  cbn [rbind] in Hv. apply rbind_ok in Hv as (t & Hr & _). apply rbind_ok in Hr as (t1 & Hr & _).
  apply map_err_ok in Hr. by exists t1.
Qed.

Lemma receipt_anchor_event i r a :
  VerifiedRunIndex_receipt_anchor_for i r = Ok a →
  ∃ d id dg, RunEvent.body (EventRecord.event r)
    = RunEventBody.VerificationRecorded (ReceiptEventAnchor.step_id a) (ReceiptEventAnchor.effect_id a) d id dg ∧
    ReceiptEventAnchor.event_sequence a = EventRecord.sequence r.
Proof.
  unfold VerifiedRunIndex_receipt_anchor_for. intros Ha.
  destruct (RunEvent.body (EventRecord.event r)) eqn:Hb; try done. repeat res_step. by do 3 eexists.
Qed.

(** What a verified candidate shows: new identities, and a receipt the audit accepts. *)
Lemma receipt_candidate_Ok i r x a :
  verify_receipt_candidate i r x = Ok a → is_ok (validate_execution_receipt x) →
  VerifiedRunIndex_receipt_anchor_for i r = Ok a ∧
  (ExecutionReceiptBody.receipt_id x ∉ V.receipt_ids i) ∧
  (ExecutionReceiptBody.receipt_digest x ∉ V.receipt_digests i) ∧
  (ReceiptEventAnchor.effect_id a ∉ V.receipt_effect_ids i) ∧
  verify_stored_receipt i (V.receipt_head_digest i) a
    (StoredExecutionReceipt.mk (EventRecord.sequence r) (ReceiptEventAnchor.effect_id a) x) = Ok tt.
Proof.
  unfold verify_receipt_candidate. intros Hc [[] Hval].
  apply rbind_ok in Hc as (a0 & Ha & Hc). pose proof (receipt_anchor_event _ _ _ Ha) as (_ & _ & _ & _ & Hseq).
  match type of Hc with (if ?b then _ else _) = _ => destruct b eqn:Hfresh; [done|] end.
  match type of Hc with (if ?b then _ else _) = _ => destruct b eqn:Hsame; [done|] end.
  apply rbind_ok in Hc as (intent & Hi & Hc). apply rbind_ok in Hc as (p & Hpr & Hc).
  apply rbind_ok in Hc as ([] & Hbind & Hc). apply rbind_ok in Hc as ([] & Htool & Hc).
  apply rbind_ok in Hc as ([] & Htime & [= ->]).
  bool_inv. split_and!; [done..|].
  unfold verify_stored_receipt. cbn [StoredExecutionReceipt.receipt StoredExecutionReceipt.event_sequence
    StoredExecutionReceipt.effect_id].
  rewrite Hval. cbn [map_err rbind].
  rewrite !bool_decide_eq_false_2 by (rewrite ?Hseq; auto). cbn [orb].
  rewrite Hi. cbn [rbind].
  destruct (EffectIntent.receipt_provenance _) as [q|]; [|done]. cbn [ok_or rbind] in *.
  injection Hpr as ->. by rewrite Hbind, Htool, Htime.
Qed.

Lemma receipts_agree_snoc i i' receipts a x :
  V.intents i' = V.intents i → V.tool_output_digests i' = V.tool_output_digests i →
  V.receipt_events i' = V.receipt_events i ++ [a] →
  stored_receipt_id x ∉ stored_receipt_id <$> receipts →
  stored_receipt_digest x ∉ stored_receipt_digest <$> receipts →
  StoredExecutionReceipt.effect_id x ∉ StoredExecutionReceipt.effect_id <$> receipts →
  verify_stored_receipt i (chain_head receipts) a x = Ok tt →
  receipts_agree i receipts → receipts_agree i' (receipts ++ [x]).
Proof.
  intros Hint Hdig Hev Hid Hdg He Hx [Hlen Hv Hids Hds Hes].
  assert (Hkeep : ∀ prev b y, verify_stored_receipt i prev b y = Ok tt → verify_stored_receipt i' prev b y = Ok tt).
  { intros prev b y. apply stored_receipt_kept; by rewrite ?Hint, ?Hdig. }
  split.
  - rewrite Hev, !length_app. cbn. lia.
  - intros k b y Hb Hy. rewrite Hev in Hb. apply lookup_app_Some in Hy as [Hy|[Hk Hy]].
    + pose proof (lookup_lt_Some _ _ _ Hy). rewrite lookup_app_l in Hb by lia.
      rewrite take_app_le by lia. by eapply Hkeep, Hv.
    + rewrite lookup_app_r in Hb by lia. rewrite Hlen in Hb.
      destruct (k - length receipts) eqn:Hz; [|done]. injection Hb as <-. injection Hy as <-.
      rewrite take_app_length' by lia. by apply Hkeep.
  - rewrite fmap_app. apply NoDup_app. split_and!; [done|set_solver|apply NoDup_singleton].
  - rewrite fmap_app. apply NoDup_app. split_and!; [done|set_solver|apply NoDup_singleton].
  - rewrite fmap_app. apply NoDup_app. split_and!; [done|set_solver|apply NoDup_singleton].
Qed.

Lemma append_with_execution_receipt_inv self expected event x commit self' :
  store_inv self → append_with_execution_receipt self expected event x = Ok (commit, self') →
  store_inv self' ∧ advanced self expected event commit self'.
Proof.
  intros Hinv. change (append_with_execution_receipt self)
    with (MemoryRunStore_append_with_execution_receipt self).
  unfold MemoryRunStore_append_with_execution_receipt. open_append Hv Hp.
  apply verify_bundles_receipt in Hv as (step_id & e & d & id & dg & Hbody & Hval).
  destruct (verify_receipt_candidate _ _ _) as [an| |] eqn:Hc; cbn [rbind]; [|done..].
  pose proof (prepare_commit_Ok _ _ _ _ Hp) as (_ & _ & _ & Hevent & _).
  apply receipt_candidate_Ok in Hc as (Ha & Hid & Hdg & Heff & Hok); [|done].
  pose proof (receipt_anchor_event _ _ _ Ha) as (d0 & id0 & dg0 & Hbody0 & _).
  destruct (si_index _ Hinv) as (base & _ & _ & Hidx).
  rewrite Hidx in Hid, Hdg, Heff. cbn in Hid, Hdg, Heff.
  rewrite elem_of_list_to_set in Hid, Hdg, Heff.
  assert (Hpos : V.receipt_event_positions (M.index self) !! ReceiptEventAnchor.effect_id an = None).
  { apply eq_None_not_Some. by rewrite (si_positions _ Hinv). }
  rewrite Hbody0. cbn [rbind].
  destruct (commit_step_intro self expected event cm (CommitAnchors.mk None None (Some an))) as [b1 Hcs];
    [done|done|unfold anchored; rewrite Hbody0; by exists an|].
  rewrite (cs_apply _ _ _ _ Hcs). cbn [rbind]. intros [-> ->]%ok_pair_inj.
  change (apply_receipt _ _ _) with (apply_receipt (Commit.record cm) (Some x) (store_sidecars self b1)).
  unfold store_sidecars. erewrite apply_receipt_store by done.
  destruct (cs_body _ _ _ _ Hcs) as (i & Hbi & E1 & E2 & E3 & E4 & E5 & E6 & E7).
  unfold index_body, VerifiedRunIndex_index_receipt_event in Hbi. rewrite Hbody0 in Hbi.
  assert (Ha' : VerifiedRunIndex_receipt_anchor_for i (Commit.record cm) = Ok an).
  { rewrite <-Ha. unfold VerifiedRunIndex_receipt_anchor_for. by rewrite E2, E7. }
  rewrite Ha' in Hbi. cbn [rbind] in Hbi. repeat res_step.
  match goal with Hn : insert_new _ _ _ _ = Ok _ |- _ => apply insert_new_Ok in Hn as [_ ->] end.
  split; [|advance Hp Hcs; first [by rewrite Hbody|by rewrite <-Hevent, ?Hbody0, ?Hbody]].
  eapply (store_inv_moved self cm _ _ _ _ _ (M.receipts self ++ [_])); [done|exact Hcs|..];
    try (left; by split_and!).
  - cbn. by rewrite E2.
  - right. eapply (receipts_agree_snoc (M.index self)); try done.
    + by rewrite Hidx.
    + cbn. by rewrite E3.
    + rewrite Hidx in Hok |- *. exact Hok.
    + apply (si_receipts _ Hinv).
  - right. intros e'. cbn. rewrite fmap_app. cbn [fmap list_fmap]. rewrite elem_of_app, list_elem_of_singleton.
    rewrite E4, lookup_insert_is_Some', (si_positions _ Hinv). naive_solver.
Qed.

(** ** Tool outputs *)

Lemma output_verified_effect x run_id step_id intent attempt evidence u :
  ToolOutputRecord_verify_for x run_id step_id intent attempt evidence = Ok u →
  ToolOutputRecord.effect_id x = EffectIntent.effect_id intent.
Proof.
  unfold ToolOutputRecord_verify_for. intros Hv. repeat res_step.
  match goal with Hm : first_mismatch _ = None |- _ => apply first_mismatch_None in Hm end.
  repeat match goal with Hm : Forall _ (_ :: _) |- _ => apply Forall_cons in Hm as [? Hm] end.
  cbn in *. bool_inv. done.
Qed.

Lemma verify_bundles_output event x u :
  verify_bundles event None None None (Some x) None = Ok u →
  ∃ step_id effect_id evidence,
    RunEvent.body event = RunEventBody.EffectSucceeded step_id effect_id evidence
      (Some (ToolOutputRecord.record_digest x)).
Proof.
  unfold verify_bundles, verify_plan_input_bundle, verify_material_bundle, verify_intent_profile,
    verify_receipt_bundle, verify_tool_output_bundle.
  destruct (RunEvent.body event) as [| | | | | | | | | | | |step e ev [d|]| | | | | | | |];
    intros Hv; try (by res_inv). exists step, e, ev. res_inv. bool_inv. by subst.
Qed.

Lemma tool_output_anchor_event i r a :
  VerifiedRunIndex_tool_output_anchor_for i r = Ok a →
  (∃ ev, RunEvent.body (EventRecord.event r) = RunEventBody.EffectSucceeded
    (ToolOutputEventAnchor.step_id a) (ToolOutputEventAnchor.effect_id a) ev
    (Some (ToolOutputEventAnchor.record_digest a))) ∧
  ToolOutputEventAnchor.event_sequence a = EventRecord.sequence r ∧
  ∃ x, V.intents i !! ToolOutputEventAnchor.effect_id a = Some x ∧
    tool_output_profile (EffectIntentAnchor.intent x) = Some TOOL_OUTPUT_PROFILE_V1.
Proof.
  unfold VerifiedRunIndex_tool_output_anchor_for. intros Ha.
  destruct (RunEvent.body (EventRecord.event r)) as [| | | | | | | | | | | |? ? ? [|]| | | | | | | |] eqn:Hb;
    try done.
  repeat res_step. cbn. split_and!; [by eexists|done|]. by eexists.
Qed.

(** What a verified candidate shows: a new identity, and an output the audit accepts. *)
Lemma output_candidate_Ok i r x a :
  verify_tool_output_candidate i r x = Ok a →
  (∀ e y, V.intents i !! e = Some y → EffectIntent.effect_id (EffectIntentAnchor.intent y) = e) →
  VerifiedRunIndex_tool_output_anchor_for i r = Ok a ∧
  ToolOutputRecord.effect_id x = ToolOutputEventAnchor.effect_id a ∧
  (ToolOutputEventAnchor.effect_id a ∉ V.tool_output_effect_ids i) ∧
  (ToolOutputRecord.output_id x ∉ V.tool_output_ids i) ∧
  (ToolOutputRecord.record_digest x ∉ V.tool_output_record_digests i) ∧
  verify_stored_tool_output i a (StoredToolOutput.mk (EventRecord.sequence r) x) = Ok tt.
Proof.
  unfold verify_tool_output_candidate. intros Hc Hkeys.
  apply rbind_ok in Hc as (a0 & Ha & Hc).
  pose proof (tool_output_anchor_event _ _ _ Ha) as (_ & Hseq & y & Hy & _).
  match type of Hc with (if ?b then _ else _) = _ => destruct b eqn:Hfresh; [done|] end.
  rewrite Hy in Hc. cbn [expect rbind] in Hc. apply rbind_ok in Hc as ([] & Hok & Hc).
  apply map_err_ok in Hok. repeat res_step. bool_inv.
  pose proof (output_verified_effect _ _ _ _ _ _ _ Hok) as He. rewrite (Hkeys _ _ Hy) in He.
  split_and!; [done..|]. unfold verify_stored_tool_output.
  cbn [StoredToolOutput.record StoredToolOutput.event_sequence].
  rewrite !bool_decide_eq_false_2 by (rewrite ?Hseq, ?He; auto). cbn [orb].
  rewrite Hy. cbn [ok_or rbind]. by rewrite Hok.
Qed.

Lemma outputs_agree_insert i i' outputs a x :
  let e := ToolOutputEventAnchor.effect_id a in
  V.intents i' = V.intents i → V.tool_output_events i' = <[e := a]> (V.tool_output_events i) →
  outputs !! e = None →
  (ToolOutputRecord.output_id (StoredToolOutput.record x)
   ∉ stored_outputs_with ToolOutputRecord.output_id outputs) →
  (ToolOutputRecord.record_digest (StoredToolOutput.record x)
   ∉ stored_outputs_with ToolOutputRecord.record_digest outputs) →
  verify_stored_tool_output i a x = Ok tt →
  outputs_agree i outputs → outputs_agree i' (<[e := x]> outputs).
Proof.
  intros e Hint Hev Hnone Hid Hdg Hx [Hdom Hkey Hv Hids Hds].
  assert (Hkeep : ∀ b y, verify_stored_tool_output i b y = Ok tt → verify_stored_tool_output i' b y = Ok tt)
    by (intros b y; apply stored_output_kept; by rewrite Hint).
  rewrite elem_of_stored_outputs in Hid, Hdg.
  split.
  - by rewrite Hev, !dom_insert_L, Hdom.
  - intros e' b. rewrite Hev. intros [[<- <-]|[_ Hb]]%lookup_insert_Some; [done|by eapply Hkey].
  - intros e' b y. rewrite Hev. intros [[<- <-]|[Hne Hb]]%lookup_insert_Some Hy.
    + rewrite lookup_insert_eq in Hy. injection Hy as <-. by apply Hkeep.
    + rewrite lookup_insert_ne in Hy by done. by eapply Hkeep, Hv.
  - intros e1 e2 o1 o2 [[<- <-]|[Hn1 Ho1]]%lookup_insert_Some [[<- <-]|[Hn2 Ho2]]%lookup_insert_Some Heq;
      [done| | |by eapply Hids]; exfalso; apply Hid; [by exists e2, o2|by exists e1, o1].
  - intros e1 e2 o1 o2 [[<- <-]|[Hn1 Ho1]]%lookup_insert_Some [[<- <-]|[Hn2 Ho2]]%lookup_insert_Some Heq;
      [done| | |by eapply Hds]; exfalso; apply Hdg; [by exists e2, o2|by exists e1, o1].
Qed.

(** An output stored for a new effect leaves the receipts of other effects as they were. *)
Lemma receipts_agree_output i i' receipts e y :
  V.intents i' = V.intents i → V.receipt_events i' = V.receipt_events i →
  (∃ d, V.tool_output_digests i' = <[e := d]> (V.tool_output_digests i)) →
  V.tool_output_digests i !! e = None →
  V.intents i !! e = Some y →
  tool_output_profile (EffectIntentAnchor.intent y) = Some TOOL_OUTPUT_PROFILE_V1 →
  receipts_agree i receipts → receipts_agree i' receipts.
Proof.
  intros Hint Hev [d Hdig] Hnone Hy Hprofile [Hlen Hv Hids Hds Hes].
  split; rewrite ?Hev; try done. intros k a r Ha Hr.
  apply (stored_receipt_kept i); [by rewrite Hint| | |by eapply Hv];
    intros x Hx Hp; destruct (decide (e = ReceiptEventAnchor.effect_id a)) as [->|Hne];
    rewrite ?Hdig, ?lookup_insert_ne by done; try done.
  - rewrite Hnone. by intros [? ?].
  - rewrite Hx in Hy. by injection Hy as ->.
Qed.

Lemma append_with_tool_output_inv self expected event x commit self' :
  store_inv self → append_with_tool_output self expected event x = Ok (commit, self') →
  store_inv self' ∧ advanced self expected event commit self'.
Proof.
  intros Hinv. change (append_with_tool_output self) with (MemoryRunStore_append_with_tool_output self).
  unfold MemoryRunStore_append_with_tool_output. open_append Hv Hp.
  destruct (verify_tool_output_candidate _ _ _) as [an| |] eqn:Hc; cbn [rbind]; [|done..].
  case_bool_decide as Hnew; [done|]. apply eq_None_not_Some in Hnew.
  pose proof (prepare_commit_Ok _ _ _ _ Hp) as (_ & _ & _ & Hevent & _).
  apply output_candidate_Ok in Hc as (Ha & He & Heff & Hid & Hdg & Hok);
    [|intros e y Hy; by destruct (if_intents _ _ (si_facts _ Hinv) _ _ Hy)].
  pose proof (tool_output_anchor_event _ _ _ Ha) as ([ev Hbody] & _ & y & Hy & Hprofile).
  rewrite Hbody. cbn [rbind]. rewrite <-He, lookup_insert_eq. cbn [expect rbind].
  destruct (si_index _ Hinv) as (base & _ & _ & Hidx).
  assert (Hev : V.tool_output_events (M.index self) !! ToolOutputEventAnchor.effect_id an = None).
  { apply not_elem_of_dom. rewrite <-(oa_dom _ _ (si_outputs _ Hinv)). apply not_elem_of_dom. by rewrite <-He. }
  destruct (commit_step_intro self expected event cm (CommitAnchors.mk (Some an) None None)) as [b1 Hcs];
    [done|done|unfold anchored; rewrite Hbody; by exists an|].
  rewrite (cs_apply _ _ _ _ Hcs). cbn [rbind]. intros [-> ->]%ok_pair_inj.
  change (apply_receipt _ _ _) with (apply_output (Some x) (store_sidecars self b1)).
  unfold store_sidecars. rewrite (apply_output_store _ _ _ _ (EventRecord.sequence (Commit.record cm))) by done.
  destruct (cs_body _ _ _ _ Hcs) as (i & Hbi & E1 & E2 & E3 & E4 & E5 & E6 & E7).
  unfold index_body in Hbi. rewrite Hbody in Hbi.
  assert (Ha' : VerifiedRunIndex_tool_output_anchor_for i (Commit.record cm) = Ok an).
  { rewrite <-Ha. unfold VerifiedRunIndex_tool_output_anchor_for. by rewrite E2, E7. }
  rewrite Ha' in Hbi. cbn [rbind] in Hbi. repeat res_step.
  match goal with Hn : insert_new _ _ _ _ = Ok _ |- _ => apply insert_new_Ok in Hn as [_ ->] end.
  rewrite He in *. rewrite Hidx in Hid, Hdg. cbn in Hid, Hdg.
  split; [|advance Hp Hcs; first [by rewrite Hbody|by rewrite <-Hevent, ?Hbody0, ?Hbody]].
  eapply (store_inv_moved self cm _ _ _ _ (<[_ := StoredToolOutput.mk _ x]> _)); [done|exact Hcs|..];
    try (left; by split_and!).
  - cbn. by rewrite E2.
  - right. apply (outputs_agree_insert (M.index self)); try done.
    + cbn. by rewrite E5.
    + apply (si_outputs _ Hinv).
  - right. eapply (receipts_agree_output (M.index self)); try done.
    + rewrite Hidx. eexists. cbn. by rewrite fmap_insert.
    + rewrite Hidx. cbn. rewrite lookup_fmap, Hnew. done.
    + apply (si_receipts _ Hinv).
Qed.

(** ** Completion outputs *)

Lemma completion_verified_id x run_id decision candidate_id summary u :
  CompletionOutputRecord_verify_for x run_id decision candidate_id summary = Ok u →
  CompletionOutputRecord.candidate_id x = candidate_id.
Proof.
  unfold CompletionOutputRecord_verify_for. intros Hv. repeat res_step;
  match goal with Hm : first_mismatch _ = None |- _ => apply first_mismatch_None in Hm end;
  repeat match goal with Hm : Forall _ (_ :: _) |- _ => apply Forall_cons in Hm as [? Hm] end;
  cbn in *; by bool_inv.
Qed.

Lemma verify_bundles_completion event x u :
  verify_bundles event None None None None (Some x) = Ok u →
  ∃ decision candidate_id summary,
    RunEvent.body event = RunEventBody.CompletionCandidateRecorded decision candidate_id summary
      (Some (CompletionOutputRecord.record_digest x)).
Proof.
  unfold verify_bundles, verify_plan_input_bundle, verify_material_bundle, verify_intent_profile,
    verify_receipt_bundle, verify_tool_output_bundle, verify_completion_output_bundle.
  destruct (RunEvent.body event) as [| | | | | | |d c sm [dg|]| | | | |? ? ? []| | | | | | | |];
    intros Hv; try (by res_inv). exists d, c, sm. res_inv. bool_inv. by subst.
Qed.

Lemma completion_candidate_Ok i r x a :
  verify_completion_output_candidate i r x = Ok a →
  VerifiedRunIndex_completion_output_anchor_for r = Ok a ∧ V.completion_output_event i = None ∧
  verify_stored_completion_output a (StoredCompletionOutput.mk (EventRecord.sequence r) x) = Ok tt.
Proof.
  unfold verify_completion_output_candidate. intros Hc.
  case_bool_decide as Hnone; [done|]. apply eq_None_not_Some in Hnone.
  apply rbind_ok in Hc as (a0 & Ha & Hc). apply rbind_ok in Hc as (decision & Hd & Hc).
  apply rbind_ok in Hc as ([] & Hok & Hc). apply map_err_ok in Hok. repeat res_step.
  assert (Hseq : CompletionOutputEventAnchor.event_sequence a = EventRecord.sequence r).
  { unfold VerifiedRunIndex_completion_output_anchor_for in Ha.
    destruct (RunEvent.body (EventRecord.event r)) as [| | | | | | |? ? ? [|]| | | | | | | | | | | | |];
      try done. by repeat res_step. }
  split_and!; [done..|]. unfold verify_stored_completion_output.
  cbn [StoredCompletionOutput.record StoredCompletionOutput.event_sequence].
  rewrite (completion_verified_id _ _ _ _ _ _ Hok).
  rewrite !bool_decide_eq_false_2 by (rewrite ?Hseq; auto). cbn [orb].
  rewrite Hd. cbn [rbind]. by rewrite Hok.
Qed.

Lemma append_with_completion_output_inv self expected event x commit self' :
  store_inv self → append_with_completion_output self expected event x = Ok (commit, self') →
  store_inv self' ∧ advanced self expected event commit self'.
Proof.
  intros Hinv. change (append_with_completion_output self)
    with (MemoryRunStore_append_with_completion_output self).
  unfold MemoryRunStore_append_with_completion_output. open_append Hv Hp.
  apply verify_bundles_completion in Hv as (d & c & sm & Hbody).
  destruct (verify_completion_output_candidate _ _ _) as [an| |] eqn:Hc; cbn [rbind]; [|done..].
  pose proof (prepare_commit_Ok _ _ _ _ Hp) as (_ & _ & _ & Hevent & _).
  apply completion_candidate_Ok in Hc as (Ha & Hnone & Hok).
  case_bool_decide as Hnew; [done|].
  destruct (commit_step_intro self expected event cm (CommitAnchors.mk None (Some an) None)) as [b1 Hcs];
    [done|done|unfold anchored; rewrite Hevent, Hbody; by exists an|].
  rewrite (cs_apply _ _ _ _ Hcs). cbn [rbind]. intros [-> ->]%ok_pair_inj.
  change (apply_receipt _ _ _) with (store_sidecars self b1).
  destruct (cs_body _ _ _ _ Hcs) as (i & Hbi & E1 & E2 & E3 & E4 & E5 & E6 & E7).
  unfold index_body in Hbi. rewrite Hevent, Hbody, Ha in Hbi.
  match type of Hbi with (if ?b then _ else _) = _ => destruct b; [done|] end.
  cbn [rbind] in Hbi. injection Hbi as <-.
  split; [|advance Hp Hcs; first [by rewrite Hbody|by rewrite <-Hevent, ?Hbody0, ?Hbody]].
  eapply (store_inv_moved self cm _ _ _ _ _ _ (Some (StoredCompletionOutput.mk _ x))); [done|exact Hcs|..];
    try (left; by split_and!).
  - cbn. by rewrite E2.
  - right. exact Hok.
Qed.
End appends.

(** Totality of the local store: the checks of bundles, records and receipts return a result
    or an error, and on a store that has the invariant so does every method of the trait. *)

Lemma no_panic_corrupt {A} (message : string) : no_panic (corrupt message : res StoreError A).
Proof. done. Qed.

#[export] Hint Resolve no_panic_corrupt : rust.

(** ** Records *)

Section records.
Context `{Crypto}.

Lemma no_panic_planned_verify r run_id step_id b : no_panic (PlannedInvocationMaterialRecord_verify_for r run_id step_id b).
Proof.
  unfold PlannedInvocationMaterialRecord_verify_for, ReconstructableMaterialReference_validate,
    planned_invocation_id, planned_invocation_material_record_digest. no_panic_tac.
Qed.

Lemma no_panic_material_verify r run_id step_id i : no_panic (InvocationMaterialRecord_verify_for r run_id step_id i).
Proof.
  unfold InvocationMaterialRecord_verify_for, InvocationMaterialRecord_validate_shape,
    ReconstructableMaterialReference_validate, invocation_material_retention_digest,
    invocation_material_id, invocation_material_record_digest. no_panic_tac.
Qed.

Lemma no_panic_validate_output output : no_panic (validate_tool_output output).
Proof.
  unfold validate_tool_output. pose proof (visit_root output) as Hr.
  destruct (visit_tool_output _ _ _ _) as [u|e|w]; cbn [rbind]; [|done|done].
  destruct (jcs_to_vec output) as [m|c] eqn:E; [done|].
  case_bool_decide as Hc; [done|]. apply N.nlt_ge in Hc.
  unfold try_from. rewrite bool_decide_eq_true_2; [done|].
  unfold MAX_TOOL_OUTPUT_CANONICAL_BYTES, u64_max in *. lia.
Qed.
Hint Resolve no_panic_validate_output : rust.

Lemma no_panic_output_verify r run_id step_id i n e : no_panic (ToolOutputRecord_verify_for r run_id step_id i n e).
Proof.
  unfold ToolOutputRecord_verify_for, required_tool_output_provenance, validate_tool_output_identity,
    tool_output_id, tool_output_record_digest. no_panic_tac.
Qed.

Lemma no_panic_completion_verify r run_id d c sm : no_panic (CompletionOutputRecord_verify_for r run_id d c sm).
Proof.
  unfold CompletionOutputRecord_verify_for, validate_completion_summary_candidate,
    completion_summary_digest, completion_proposal_digest, completion_candidate_id,
    completion_output_record_digest. no_panic_tac.
Qed.
End records.

#[export] Hint Resolve no_panic_planned_verify no_panic_material_verify no_panic_output_verify
  no_panic_completion_verify : rust.

(** The loops as well. *)
Ltac total_tac := repeat first [progress no_panic_tac|apply no_panic_for_each; intros ? ?].

(** ** Bundles and candidates *)

Section checks.
Context `{Crypto} `{ReceiptSchema} `{Rfc3339}.

Lemma no_panic_receipt_document r : no_panic (validate_execution_receipt r).
Proof.
  unfold validate_execution_receipt, Protocol.cached_receipt_validator,
    Protocol.ensure_required_extensions_supported, Protocol.verify_derived_digest,
    Protocol.canonical_digest_without_field, Protocol.canonical_digest. total_tac.
Qed.
Hint Resolve no_panic_receipt_document : rust.

Lemma no_panic_bundles event inputs material receipt output completion :
  no_panic (verify_bundles event inputs material receipt output completion).
Proof.
  unfold verify_bundles, verify_plan_input_bundle, verify_plan_input_step, index_plan_input,
    verify_material_bundle, verify_intent_profile, verify_receipt_bundle, verify_tool_output_bundle,
    verify_completion_output_bundle. total_tac.
Qed.

Lemma no_panic_next prev event : no_panic (EventRecord_next prev event).
Proof. unfold EventRecord_next, record_digest. total_tac. Qed.

Lemma no_panic_prepare self expected event :
  store_inv self → no_panic (prepare_commit (M.index self) expected event).
Proof.
  intros Hinv. unfold prepare_commit. apply no_panic_if; [done|]. apply no_panic_if; [done|].
  apply no_panic_bind; [apply no_panic_map_err, no_panic_next|]. intros r _.
  apply no_panic_bind; [|done]. apply no_panic_map_err, no_panic_apply_record.
  intros s Hs. rewrite (si_state _ Hinv) in Hs. by eapply store_inv_run_inv.
Qed.

Lemma no_panic_retention i event m input : no_panic (verify_planned_material_retention i event m input).
Proof. unfold verify_planned_material_retention, indexed_run_id. total_tac. Qed.

Lemma no_panic_timestamps a r : no_panic (verify_receipt_timestamps a r).
Proof. unfold verify_receipt_timestamps. total_tac. Qed.

Lemma no_panic_intent_binding r i p d : no_panic (verify_receipt_intent_binding r i p d).
Proof.
  unfold verify_receipt_intent_binding, verify_core_receipt_artifacts, verify_core_artifact,
    verify_evidence_rule. total_tac.
Qed.

Lemma no_panic_output_binding i e r : no_panic (verify_receipt_tool_output_binding i e r).
Proof. unfold verify_receipt_tool_output_binding. total_tac. Qed.
Hint Resolve no_panic_timestamps no_panic_intent_binding no_panic_output_binding : rust.

Lemma no_panic_output_candidate i r x : no_panic (verify_tool_output_candidate i r x).
Proof.
  unfold verify_tool_output_candidate. apply no_panic_bind.
  { unfold VerifiedRunIndex_tool_output_anchor_for. total_tac. }
  intros a Ha. apply tool_output_anchor_event in Ha as (_ & _ & y & Hy & _). rewrite Hy. cbn [expect rbind].
  total_tac.
Qed.

Lemma receipt_anchor_intent i r a :
  VerifiedRunIndex_receipt_anchor_for i r = Ok a → is_Some (V.intents i !! ReceiptEventAnchor.effect_id a).
Proof.
  unfold VerifiedRunIndex_receipt_anchor_for. intros Ha.
  destruct (RunEvent.body (EventRecord.event r)) eqn:Hb; try done. repeat res_step. cbn.
  by destruct (V.intents i !! _).
Qed.

Lemma no_panic_receipt_candidate i r x : no_panic (verify_receipt_candidate i r x).
Proof.
  unfold verify_receipt_candidate. apply no_panic_bind.
  { unfold VerifiedRunIndex_receipt_anchor_for. total_tac. }
  intros a Ha. apply receipt_anchor_intent in Ha as [y Hy]. rewrite Hy. cbn [expect rbind]. total_tac.
Qed.

Lemma no_panic_completion_anchor a : no_panic (completion_anchor_decision a).
Proof. unfold completion_anchor_decision, ExpectedPlanningTurn_for_model_call. total_tac. Qed.
Hint Resolve no_panic_completion_anchor : rust.

Lemma no_panic_completion_candidate i r x : no_panic (verify_completion_output_candidate i r x).
Proof. unfold verify_completion_output_candidate, VerifiedRunIndex_completion_output_anchor_for. total_tac. Qed.

Lemma no_panic_completion_record i x : no_panic (verify_completion_output_record i x).
Proof. unfold verify_completion_output_record, verify_stored_completion_output. total_tac. Qed.
End checks.

#[export] Hint Resolve no_panic_receipt_document no_panic_bundles no_panic_next no_panic_retention
  no_panic_output_candidate no_panic_receipt_candidate no_panic_completion_candidate
  no_panic_completion_record : rust.

(** ** Appends *)

Section appends.
Context `{Crypto} `{ReceiptSchema} `{Rfc3339}.

(** The anchor the event of a commit needs. *)
Definition anchor_present (body : RunEventBody) (anchors : CommitAnchors) : Prop :=
  match body with
  | RunEventBody.EffectSucceeded _ _ _ (Some _) => is_Some (CommitAnchors.output anchors)
  | RunEventBody.CompletionCandidateRecorded _ _ _ (Some _) =>
      is_Some (CommitAnchors.completion_output anchors)
  | RunEventBody.VerificationRecorded _ _ _ _ _ => is_Some (CommitAnchors.receipt anchors)
  | _ => True
  end.

Lemma no_panic_apply_committed i commit sidecars anchors :
  anchor_present (RunEvent.body (EventRecord.event (Commit.record commit))) anchors →
  no_panic (VerifiedRunIndex_apply_committed i commit sidecars anchors).
Proof.
  intros Ha. unfold VerifiedRunIndex_apply_committed, apply_committed_body, anchor_present in *.
  apply no_panic_bind; [|done].
  destruct (RunEvent.body _) as [| | | | | | |? ? ? []| | | | |? ? ? []| | | | | | | |]; try done;
    destruct Ha as [a ->]; done.
Qed.

(** The event of a prepared commit is the one the client brought. *)
Lemma prepared_event self expected event commit :
  prepare_commit (M.index self) expected event = Ok commit →
  EventRecord.event (Commit.record commit) = event.
Proof. by intros (_ & _ & _ & ? & _)%prepare_commit_Ok. Qed.

Lemma plain_present body anchors : plain body = true → anchor_present body anchors.
Proof. by destruct body as [| | | | | | |? ? ? []| | | | |? ? ? []| | | | | | | |]. Qed.

Lemma no_panic_append self expected event : store_inv self → no_panic (append self expected event).
Proof.
  intros Hinv. change (append self) with (MemoryRunStore_append self). unfold MemoryRunStore_append.
  apply no_panic_bind; [apply no_panic_bundles|]. intros u Hv.
  apply no_panic_bind; [by apply no_panic_prepare|]. intros cm Hp.
  apply no_panic_bind; [|done]. apply no_panic_apply_committed, plain_present.
  rewrite (prepared_event _ _ _ _ Hp). by eapply verify_bundles_plain.
Qed.

Lemma no_panic_append_inputs self expected event inputs :
  store_inv self → no_panic (append_with_plan_inputs self expected event inputs).
Proof.
  intros Hinv. change (append_with_plan_inputs self) with (MemoryRunStore_append_with_plan_inputs self).
  unfold MemoryRunStore_append_with_plan_inputs.
  apply no_panic_bind; [apply no_panic_bundles|]. intros u Hv.
  apply no_panic_bind; [by apply no_panic_prepare|]. intros cm Hp.
  apply no_panic_bind; [unfold fresh_plan_input; total_tac|]. intros _ _.
  apply no_panic_bind; [|done]. apply no_panic_apply_committed. rewrite (prepared_event _ _ _ _ Hp).
  apply verify_bundles_inputs in Hv as (_ & [[_ ?]|(d & plan & ->)]); [by apply plain_present|done].
Qed.

Lemma no_panic_append_material self expected event x :
  store_inv self → no_panic (append_with_invocation_material self expected event x).
Proof.
  intros Hinv. change (append_with_invocation_material self)
    with (MemoryRunStore_append_with_invocation_material self).
  unfold MemoryRunStore_append_with_invocation_material.
  apply no_panic_bind; [apply no_panic_bundles|]. intros u Hv.
  apply no_panic_bind; [apply no_panic_retention|]. intros _ _.
  apply no_panic_bind; [by apply no_panic_prepare|]. intros cm Hp.
  apply no_panic_if; [done|]. rewrite (prepared_event _ _ _ _ Hp).
  apply verify_bundles_material in Hv as (step & a & Hbody & Hm). rewrite Hbody. cbn [rbind].
  apply material_verified_effect in Hm as <-. rewrite lookup_insert_eq. cbn [expect rbind].
  apply no_panic_bind; [|done]. apply no_panic_apply_committed.
  by rewrite (prepared_event _ _ _ _ Hp), Hbody.
Qed.

Lemma no_panic_append_receipt self expected event x :
  store_inv self → no_panic (append_with_execution_receipt self expected event x).
Proof.
  intros Hinv. change (append_with_execution_receipt self)
    with (MemoryRunStore_append_with_execution_receipt self).
  unfold MemoryRunStore_append_with_execution_receipt.
  apply no_panic_bind; [apply no_panic_bundles|]. intros u Hv.
  apply no_panic_bind; [by apply no_panic_prepare|]. intros cm Hp.
  apply no_panic_bind; [apply no_panic_receipt_candidate|]. intros a _.
  apply verify_bundles_receipt in Hv as (step & e & d & id & dg & Hbody & _).
  rewrite (prepared_event _ _ _ _ Hp), Hbody. cbn [rbind].
  apply no_panic_bind; [|done]. apply no_panic_apply_committed.
  rewrite (prepared_event _ _ _ _ Hp), Hbody. by eexists.
Qed.

Lemma no_panic_append_output self expected event x :
  store_inv self → no_panic (append_with_tool_output self expected event x).
Proof.
  intros Hinv. change (append_with_tool_output self) with (MemoryRunStore_append_with_tool_output self).
  unfold MemoryRunStore_append_with_tool_output.
  apply no_panic_bind; [apply no_panic_bundles|]. intros u Hv.
  apply no_panic_bind; [by apply no_panic_prepare|]. intros cm Hp.
  apply no_panic_bind; [apply no_panic_output_candidate|]. intros a Hc.
  apply no_panic_if; [done|].
  apply output_candidate_Ok in Hc as (Ha & He & _);
    [|intros e y Hy; by destruct (if_intents _ _ (si_facts _ Hinv) _ _ Hy)].
  apply tool_output_anchor_event in Ha as ([ev Hbody] & _). rewrite Hbody. cbn [rbind].
  rewrite He, lookup_insert_eq. cbn [expect rbind].
  apply no_panic_bind; [|done]. apply no_panic_apply_committed. rewrite Hbody. by eexists.
Qed.

Lemma no_panic_append_completion self expected event x :
  store_inv self → no_panic (append_with_completion_output self expected event x).
Proof.
  intros Hinv. change (append_with_completion_output self)
    with (MemoryRunStore_append_with_completion_output self).
  unfold MemoryRunStore_append_with_completion_output.
  apply no_panic_bind; [apply no_panic_bundles|]. intros u Hv.
  apply no_panic_bind; [by apply no_panic_prepare|]. intros cm Hp.
  apply no_panic_bind; [apply no_panic_completion_candidate|]. intros a _.
  apply no_panic_if; [done|]. apply no_panic_bind; [|done]. apply no_panic_apply_committed.
  apply verify_bundles_completion in Hv as (d & c & sm & Hbody).
  rewrite (prepared_event _ _ _ _ Hp), Hbody. by eexists.
Qed.

(** ** Reads *)

Lemma no_panic_completion_read self expected c : no_panic (load_completion_output self expected c).
Proof.
  change (load_completion_output self) with (MemoryRunStore_load_completion_output self).
  unfold MemoryRunStore_load_completion_output, build_completion_output. total_tac.
Qed.

Lemma no_panic_output_point i e x : no_panic (verify_tool_output_point i e x).
Proof. unfold verify_tool_output_point, verify_stored_tool_output. total_tac. Qed.
Hint Resolve no_panic_output_point : rust.

Lemma no_panic_verification_read self id : no_panic (load_verification_snapshot self id).
Proof.
  change (load_verification_snapshot self) with (MemoryRunStore_load_verification_snapshot self).
  unfold MemoryRunStore_load_verification_snapshot. total_tac.
Qed.

Lemma no_panic_planning_read self expected n : no_panic (load_planning_snapshot self expected n).
Proof.
  change (load_planning_snapshot self) with (MemoryRunStore_load_planning_snapshot self).
  unfold MemoryRunStore_load_planning_snapshot, build_planning_snapshot, planning_step_order,
    select_output, load_selection, insert_new, completed_tool_output_order, observe_receipt. total_tac.
Qed.
End appends.
