(* ===== verification/ContextProofs.v ===== *)
(** What a planning context holds, read off a successful build. *)

From S2P Require Import Prelude Text Wire Domain Registry DomainWire WorkGraphTypes WorkGraphWire.
From S2P Require Import Frontier ToolOutput Invocation PlanningContext Planning RunInvariant.
From S2P Require Import StoreAppends.

(** ** Packing keeps the order of the candidates *)

Section pack.
Context (maximum : N) (steps : list (PlanningStepSummary * N)).
Context (summaries : list (PlanningCapabilitySummary * N)).

(** After [i] rounds, what was chosen comes from the first [i] candidates, in their order. *)
Definition packed_from (i : nat) (p : Packed) : Prop :=
  Packed.steps p `sublist_of` (take i steps).*1 ∧ Packed.capabilities p `sublist_of` (take i summaries).*1.

Lemma take_S_lookup {A} (l : list A) i :
  take (S i) l = take i l ++ match l !! i with Some a => [a] | None => [] end.
Proof.
  destruct (l !! i) as [a|] eqn:Hi; [by apply take_S_r|].
  apply lookup_ge_None in Hi. rewrite app_nil_r, !take_ge by lia. done.
Qed.

Lemma pack_round i p :
  packed_from i p →
  packed_from (S i) (pack_capability maximum (summaries !! i) (pack_step maximum (steps !! i) p)).
Proof.
  intros [Hs Hc]. unfold packed_from. rewrite !take_S_lookup, !fmap_app.
  unfold pack_capability, pack_step.
  destruct (steps !! i) as [[s n]|], (summaries !! i) as [[c n']|]; repeat case_bool_decide; cbn;
    split; rewrite ?app_nil_r; try done; by (apply sublist_app; [done|constructor; constructor])
    || by apply sublist_inserts_r.
Qed.

Lemma pack_sublist size :
  let p := pack maximum steps summaries (Packed.mk [] [] size) in
  Packed.steps p `sublist_of` steps.*1 ∧ Packed.capabilities p `sublist_of` summaries.*1.
Proof.
  intros p. unfold pack in p.
  assert (∀ n, packed_from n (foldl (λ p index, pack_capability maximum (summaries !! index)
      (pack_step maximum (steps !! index) p)) (Packed.mk [] [] size) (seq 0 n))) as Hall.
  { induction n as [|n IH]; [by split; constructor|]. rewrite seq_S, foldl_app. by apply pack_round. }
  specialize (Hall (Nat.max (length steps) (length summaries))) as [Hs Hc].
  rewrite take_ge in Hs by lia. rewrite take_ge in Hc by lia. done.
Qed.
End pack.

(** ** The sources of the candidates *)

Section sources.
Context `{Crypto}.

Lemma canonical_size_Ok {E} (error : E) v n :
  canonical_size error v = Ok n ↔ ∃ bytes, jcs_to_vec v = inr bytes ∧ n = strlen bytes.
Proof. unfold canonical_size. destruct (jcs_to_vec v) as [?|bytes]; split; naive_solver. Qed.

(** The summary of the step with an id. *)
Definition summarizes (state : RunState) (step_id : string) (summary : PlanningStepSummary) : Prop :=
  ∃ step, RunState.steps state !! step_id = Some step ∧ summary = step_summary step.

Lemma steps_summarized state order source s :
  for_each (add_step state) order (source, []) = Ok s → Forall2 (summarizes state) order s.2.*1.
Proof.
  apply (for_each_inv _ (λ ids s, Forall2 (summarizes state) ids s.2.*1)); [constructor|].
  intros pre id rest t t' _ IH Hf. unfold add_step in Hf. res_inv. cbn. rewrite fmap_app.
  apply Forall2_app; [done|]. constructor; [|constructor]. by eexists.
Qed.

(** The summary of a definition under its contract digest. *)
Definition describes (definition : CapabilityDefinitionBody) (summary : PlanningCapabilitySummary) : Prop :=
  ∃ digest, definition_contract_digest definition = Ok digest ∧
    summary = capability_summary definition digest.

Lemma definition_described definition s s' :
  add_definition s definition = Ok s' →
  ∃ summary n, describes definition summary ∧ s'.2 = s.2 ++ [(summary, n)].
Proof.
  unfold add_definition.
  destruct (validate_planning_definition_shape definition); [|done..]. cbn [rbind].
  destruct (canonical_size _ (ser definition)) as [size|?|?]; [|done..]. cbn [rbind].
  destruct (bool_decide _); [done|].
  destruct (add_source_bytes _ _); [|done..]. cbn [rbind].
  destruct (definition_contract_digest definition) as [digest|?|?] eqn:Hd; [|done..]. cbn [rbind map_err].
  destruct (canonical_size _ _) as [n|?|?]; [|done..]. cbn [rbind]. intros [= <-].
  exists (capability_summary definition digest), n. split; [by exists digest|done].
Qed.

Lemma catalog_described definitions source s :
  for_each add_definition definitions (source, []) = Ok s → Forall2 describes definitions s.2.*1.
Proof.
  apply (for_each_inv _ (λ ds s, Forall2 describes ds s.2.*1)); [constructor|].
  intros pre d rest t t' _ IH (summary & n & Hd & ->)%definition_described. rewrite fmap_app.
  apply Forall2_app; [done|]. by repeat constructor.
Qed.

(** A completed step whose output was released: its receipt releases its dependents, and the
    record is the one its intent, its attempt and its evidence yield. *)
Definition released (state : RunState) (completed : gmap string ToolOutputRecord) (step_id : string)
    (o : PlanningToolOutput) : Prop :=
  ∃ step intent evidence record,
    RunState.steps state !! step_id = Some step ∧ StepState.status step = StepStatus.Completed ∧
    receipt_releases_dependency step = true ∧ StepState.intent step = Some intent ∧
    StepState.effect_evidence_digest step = Some evidence ∧
    StepState.execution_receipt_digest step = Some (PlanningToolOutput.receipt_digest o) ∧
    StepState.output_record_digest step = Some (ToolOutputRecord.record_digest record) ∧
    completed !! step_id = Some record ∧
    ToolOutputRecord_verify_for record (RunState.run_id state) step_id intent (StepState.attempts step)
      evidence = Ok tt ∧
    PlanningToolOutput.step_id o = step_id ∧
    PlanningToolOutput.output_digest o = ToolOutputRecord.output_digest record ∧
    PlanningToolOutput.output o = ToolOutputRecord.output record.

Lemma outputs_released state completed order outputs :
  for_each (planning_tool_output state completed) order (∅, []) = Ok outputs →
  outputs.1 = list_to_set order ∧ NoDup order ∧ Forall2 (released state completed) order outputs.2.
Proof.
  apply (for_each_inv _ (λ ids s, s.1 = list_to_set ids ∧ NoDup ids ∧ Forall2 (released state completed) ids s.2));
    [by split_and!; [|constructor|constructor]|].
  intros pre id rest [seen out] t' _ (Hseen & Hnd & IH) Hf. unfold planning_tool_output in Hf. cbn in *.
  res_inv. bool_inv. cbn. split_and!.
  - rewrite list_to_set_app_L. set_solver.
  - apply NoDup_app. split_and!; [done| |apply NoDup_singleton]. set_solver.
  - apply Forall2_app; [done|]. constructor; [|constructor].
    repeat match goal with u : unit |- _ => destruct u end.
    unfold released. do 4 eexists. cbn. split_and!; done.
Qed.

(** ** Every completed output is released *)

Lemma filter_values {V} (p : V → bool) (m : gmap string V) :
  length (List.filter p (btree_values m)) = size (filter (λ kv : string * V, p kv.2 = true) m).
Proof.
  unfold btree_values.
  assert (∀ l : list (string * V), List.filter p l.*2 = (filter (λ kv : string * V, p kv.2 = true) l).*2) as ->.
  { induction l as [|[k v] l IH]; [done|]. rewrite filter_cons. cbn [fmap list_fmap List.filter fst snd].
    rewrite IH. destruct (p v) eqn:Hp; case_decide; cbn in *; congruence. }
  rewrite length_fmap, btree_entries_perm, map_filter_alt, map_size_list_to_map; [done|].
  eapply sublist_NoDup; [apply (NoDup_fst_map_to_list m)|]. apply fmap_sublist, sublist_filter.
Qed.

(** A completed step with a recorded output. *)
Definition has_output (step : StepState) : bool :=
  bool_decide (StepState.status step = StepStatus.Completed)
  && bool_decide (is_Some (StepState.output_record_digest step)).

Lemma outputs_complete state completed order outputs :
  build_planning_tool_outputs state completed order = Ok outputs →
  NoDup order ∧ Forall2 (released state completed) order outputs ∧
  ∀ step_id, step_id ∈ order ↔ ∃ step, RunState.steps state !! step_id = Some step ∧ has_output step = true.
Proof.
  unfold build_planning_tool_outputs. fold has_output. intros Hb.
  destruct (_ || _) eqn:Hsizes; [done|]. apply orb_false_iff in Hsizes as [Hsize Hlen].
  apply bool_decide_eq_false_1, dec_stable in Hsize, Hlen.
  apply rbind_ok in Hb as (o & Ho & Hb). destruct (bool_decide _) eqn:Hc; [done|]. injection Hb as <-.
  apply outputs_released in Ho as (Hset & Hnd & Hrel). split_and!; [done..|].
  assert (list_to_set order ⊆ dom (filter (λ kv : string * StepState, has_output kv.2 = true) (RunState.steps state))) as Hsub.
  { intros id (i & Hi)%elem_of_list_to_set%list_elem_of_lookup.
    destruct (Forall2_lookup_l _ _ _ _ _ Hrel Hi) as (x & _ & Hx).
    destruct Hx as (step & intent & evidence & record & Hst & Hs & _ & _ & _ & _ & Hd & _).
    apply elem_of_dom. exists step. apply map_lookup_filter_Some. split; [done|]. cbn. unfold has_output.
    by rewrite Hs, Hd, !bool_decide_eq_true_2 by done. }
  assert (list_to_set order = dom (filter (λ kv : string * StepState, has_output kv.2 = true) (RunState.steps state))) as Heq.
  { apply leibniz_equiv, set_subseteq_size_equiv; [done|].
    rewrite size_dom, <-filter_values, size_list_to_set by done.
    etrans; [|apply Nat.eq_le_incl; symmetry; exact Hlen]. apply Nat.eq_le_incl. exact Hsize. }
  intros id. rewrite <-(elem_of_list_to_set (C := gset string)), Heq, elem_of_dom. split.
  - intros (step & [Hs Hp]%map_lookup_filter_Some). by exists step.
  - intros (step & Hs & Hp). exists step. by apply map_lookup_filter_Some.
Qed.
(** ** Builds never panic *)

(** A count of a value's nodes within the bound, in particular not out of fuel. *)
Definition nodes_bounded (r : res ContextBuildError PlanningValueStats) : Prop :=
  match r with
  | Ok stats => (PlanningValueStats.nodes stats ≤ MAX_PLANNING_VALUE_NODES)%N
  | Err _ => True
  | Panic _ => False
  end.

Lemma nodes_bounded_bind {A} (c : res ContextBuildError A) k :
  no_panic c → (∀ a, c = Ok a → nodes_bounded (k a)) → nodes_bounded (rbind c k).
Proof. destruct c as [a|?|?]; cbn; [by intros _ Hk; apply Hk|done|by intros Hp; destruct (Hp why)]. Qed.

Lemma at_most_Some max o n : at_most max o = Some n ↔ o = Some n ∧ (n ≤ max)%N.
Proof.
  unfold at_most. destruct o as [m|]; cbn; [|naive_solver]. case_bool_decide; naive_solver.
Qed.

Lemma add_text_nodes stats text stats' :
  add_text stats text = Ok stats' → PlanningValueStats.nodes stats' = PlanningValueStats.nodes stats.
Proof. unfold add_text, add_planning_text. intros Ha. by res_inv. Qed.

Lemma no_panic_add_text stats text : no_panic (add_text stats text).
Proof. unfold add_text, add_planning_text. no_panic_tac. Qed.

Lemma no_panic_push depth s entry : no_panic (push_child depth s entry).
Proof. apply no_panic_bind; [apply no_panic_add_text|]. intros; apply no_panic_ok. Qed.

Lemma pushed_nodes depth values s s' :
  for_each (push_child depth) values s = Ok s' → PlanningValueStats.nodes s'.1 = PlanningValueStats.nodes s.1.
Proof.
  apply (for_each_inv _ (λ _ s', PlanningValueStats.nodes s'.1 = PlanningValueStats.nodes s.1)); [done|].
  intros pre entry rest t t' _ <- Hp. unfold push_child in Hp.
  apply rbind_ok in Hp as (stats & Ht & [= <-]). by eapply add_text_nodes.
Qed.

Lemma visit_bounded fuel pending stats :
  (PlanningValueStats.nodes stats ≤ MAX_PLANNING_VALUE_NODES)%N →
  (MAX_PLANNING_VALUE_NODES + 1 < N.of_nat fuel + PlanningValueStats.nodes stats)%N →
  nodes_bounded (visit_planning_value fuel pending stats).
Proof.
  revert pending stats. induction fuel as [|fuel IH]; intros pending stats Hn Hf; [lia|].
  cbn [visit_planning_value]. destruct pending as [|[value depth] pending]; [done|].
  destruct (bool_decide _); [done|]. apply nodes_bounded_bind; [apply no_panic_ok_or|].
  intros nodes Hnodes.
  assert (nodes = PlanningValueStats.nodes stats + 1 ∧ nodes ≤ MAX_PLANNING_VALUE_NODES)%N as [-> Hmax].
  { res_inv. match goal with Ha : at_most _ _ = Some _ |- _ => apply at_most_Some in Ha as [[-> _]%checked_add_Some ?] end.
    done. }
  set (stats' := PlanningValueStats.mk _ _).
  assert (∀ pending, nodes_bounded (visit_planning_value fuel pending stats')) as Hvisit.
  { intros p. apply IH; cbn; [done|lia]. }
  destruct value; try apply Hvisit.
  - apply nodes_bounded_bind; [apply no_panic_add_text|]. intros t Ht. apply add_text_nodes in Ht.
    apply IH; rewrite Ht; cbn; [done|lia].
  - apply nodes_bounded_bind; [apply no_panic_for_each; intros; apply no_panic_push|].
    intros [t p] Ht%pushed_nodes. cbn [fst snd] in *. apply IH; rewrite Ht; cbn; [done|lia].
Qed.

Lemma value_bounded stats root :
  (PlanningValueStats.nodes stats ≤ MAX_PLANNING_VALUE_NODES)%N →
  nodes_bounded (validate_planning_value stats root).
Proof.
  intros Hn. unfold validate_planning_value. apply visit_bounded; [done|].
  rewrite N2Nat.id. lia.
Qed.

Lemma texts_nodes texts stats :
  for_each add_text texts PlanningValueStats.default = Ok stats →
  (PlanningValueStats.nodes stats ≤ MAX_PLANNING_VALUE_NODES)%N.
Proof.
  intros Ht. assert (PlanningValueStats.nodes stats = 0%N) as ->; [|done]. revert Ht.
  apply (for_each_inv _ (λ _ t, PlanningValueStats.nodes t = 0%N)); [done|].
  intros pre text rest t t' _ <- Ha. by eapply add_text_nodes.
Qed.

(** Use a bounded count and go on. *)
Lemma no_panic_bounded {A} (c : res ContextBuildError PlanningValueStats) (k : _ → res ContextBuildError A) :
  nodes_bounded c →
  (∀ stats, (PlanningValueStats.nodes stats ≤ MAX_PLANNING_VALUE_NODES)%N → no_panic (k stats)) →
  no_panic (rbind c k).
Proof. destruct c as [stats|?|?]; cbn; [|done|done]. intros Hn Hk. by apply Hk. Qed.

Lemma no_panic_values values stats :
  (PlanningValueStats.nodes stats ≤ MAX_PLANNING_VALUE_NODES)%N →
  no_panic (for_each validate_planning_value values stats).
Proof.
  revert stats. induction values as [|v values IH]; intros stats Hn; [done|]. cbn [for_each].
  apply no_panic_bounded; [by apply value_bounded|done].
Qed.

Lemma no_panic_shape definition : no_panic (validate_planning_definition_shape definition).
Proof.
  unfold validate_planning_definition_shape. apply no_panic_if; [done|]. cbn zeta.
  apply no_panic_bind; [apply no_panic_for_each; intros; apply no_panic_add_text|].
  intros stats Hst%texts_nodes. apply no_panic_bounded; [by apply value_bounded|]. intros s2 H2.
  apply no_panic_bounded; [by apply value_bounded|]. intros s3 H3.
  apply no_panic_bind; [by apply no_panic_values|done].
Qed.

Lemma no_panic_canonical_size {E} (error : E) v : no_panic (canonical_size error v).
Proof. unfold canonical_size. by destruct (jcs_to_vec v). Qed.

Lemma no_panic_step_shape step : no_panic (validate_planning_step_shape step).
Proof.
  unfold validate_planning_step_shape. no_panic_tac. apply no_panic_for_each. intros.
  unfold add_dependency_text. no_panic_tac.
Qed.

Lemma no_panic_source {A} `{Serialize A} n (item : A) : no_panic (add_source n item).
Proof. unfold add_source, add_source_bytes. apply no_panic_bind; [apply no_panic_canonical_size|]. no_panic_tac. Qed.

Lemma no_panic_definition s definition : no_panic (add_definition s definition).
Proof.
  unfold add_definition, add_source_bytes, definition_contract_digest, digest_serializable.
  apply no_panic_bind; [apply no_panic_shape|]. intros _ _.
  apply no_panic_bind; [apply no_panic_canonical_size|]. intros n _. apply no_panic_if; [done|].
  apply no_panic_bind; [no_panic_tac|]. intros m _. apply no_panic_bind; [no_panic_tac|]. intros d _.
  cbn zeta. apply no_panic_bind; [apply no_panic_canonical_size|done].
Qed.

Lemma no_panic_add_step state s step_id : no_panic (add_step state s step_id).
Proof.
  unfold add_step, add_source_bytes. apply no_panic_bind; [no_panic_tac|]. intros step _.
  apply no_panic_bind; [apply no_panic_step_shape|]. intros _ _. cbn zeta.
  apply no_panic_bind; [apply no_panic_canonical_size|]. intros n _. apply no_panic_if; [done|].
  no_panic_tac.
Qed.

Lemma no_panic_outputs state completed order : no_panic (build_planning_tool_outputs state completed order).
Proof.
  unfold build_planning_tool_outputs. cbn zeta. apply no_panic_if; [done|].
  apply no_panic_bind; [|by intros outputs _; apply no_panic_if].
  apply no_panic_for_each. intros s step_id.
  unfold planning_tool_output. apply no_panic_if; [done|].
  apply no_panic_bind; [no_panic_tac|]. intros step _. apply no_panic_if; [done|].
  apply no_panic_if; [done|]. do 4 (apply no_panic_bind; [apply no_panic_ok_or|]; intros ? _).
  apply no_panic_bind; [apply no_panic_map_err, no_panic_output_verify|]. intros _ _. by apply no_panic_if.
Qed.

Lemma no_panic_context state completed planning_order output_order frontier registry constraints budget :
  no_panic (build_context_ordered state completed planning_order output_order frontier registry
              constraints budget).
Proof.
  unfold build_context_ordered. apply no_panic_if; [done|]. apply no_panic_if; [done|]. cbn zeta.
  apply no_panic_if; [done|].
  apply no_panic_bind; [apply no_panic_for_each; intros; apply no_panic_source|]. intros s1 _.
  apply no_panic_bind; [apply no_panic_outputs|]. intros outputs _.
  apply no_panic_bind; [apply no_panic_for_each; intros; apply no_panic_source|]. intros s2 _.
  apply no_panic_bind; [apply no_panic_for_each; intros; apply no_panic_definition|]. intros catalog _.
  apply no_panic_bind; [apply no_panic_canonical_digest|]. intros digest _.
  apply no_panic_bind; [apply no_panic_for_each; intros; apply no_panic_add_step|]. intros steps _.
  apply no_panic_bind; [apply no_panic_canonical_size|]. intros n _. apply no_panic_if; [done|].
  apply no_panic_bind; [apply no_panic_canonical_size|]. intros m _. apply no_panic_if; [done|].
  apply no_panic_bind; [apply no_panic_ok_or|]. intros k _.
  apply no_panic_bind; [apply no_panic_canonical_digest|done].
Qed.

(** ** The context *)

(** What a built context is: a document of its recorded size, within both bounds, under its
    digest; the run's header; every completed output; and of all steps in planning order and all
    capabilities in catalog order as many as were chosen, the others counted. *)
Record context_of (state : RunState) (completed : gmap string ToolOutputRecord)
    (planning_order output_order : list string) (frontier : WorkFrontier)
    (registry : CapabilityRegistry) (planning_constraints : list PlanningConstraint)
    (budget : AgentLoopBudget) (context : PlanningContext) : Prop := {
  cx_size : ∃ bytes, jcs_to_vec (ser (PlanningContext.payload context)) = inr bytes ∧
    PlanningContext.canonical_size_bytes context = strlen bytes ∧
    (strlen bytes ≤ N.min (AgentLoopBudget.max_context_bytes budget) MAX_PLANNING_CONTEXT_BYTES)%N;
  cx_digest : ∃ bytes, jcs_to_vec (ContextDigestInput (PlanningContext.payload context)) = inr bytes ∧
    PlanningContext.context_digest context = sha256_digest bytes;
  cx_order : planning_order ≡ₚ elements (dom (RunState.steps state));
  cx_payload : ∃ outputs steps summaries catalog_digest chosen,
    PlanningContext.payload context = context_payload state frontier planning_constraints outputs
      catalog_digest (len steps) (len summaries) chosen ∧
    NoDup output_order ∧ Forall2 (released state completed) output_order outputs ∧
    (∀ step_id, step_id ∈ output_order ↔
       ∃ step, RunState.steps state !! step_id = Some step ∧ has_output step = true) ∧
    Forall2 (summarizes state) planning_order steps ∧ Packed.steps chosen `sublist_of` steps ∧
    (∃ described sized, Forall2 describes (definitions registry) described ∧
       summaries = (sort_by compare_summaries sized).*1 ∧ sized.*1 = described) ∧
    Packed.capabilities chosen `sublist_of` summaries ∧
    (∃ bytes, jcs_to_vec (CatalogDigestInput summaries) = inr bytes ∧ catalog_digest = sha256_digest bytes);
}.

Lemma NoDup_of_size (l : list string) : size (list_to_set l : gset string) = length l → NoDup l.
Proof.
  assert (∀ l : list string, size (list_to_set l : gset string) ≤ length l) as Hle.
  { clear l. intros l. induction l as [|x k IH]; [by rewrite list_to_set_nil, size_empty|]. rewrite list_to_set_cons, size_union_alt. cbn [length].
    pose proof (subseteq_size (list_to_set k ∖ {[x]}) (list_to_set k : gset string) ltac:(set_solver)).
    rewrite size_singleton. lia. }
  induction l as [|x l IH]; [constructor|]. rewrite list_to_set_cons. cbn [length]. intros Hsize. specialize (Hle l).
  destruct (decide (x ∈ l)) as [Hin|Hout].
  - rewrite subseteq_union_1_L in Hsize by set_solver. lia.
  - rewrite size_union, size_singleton in Hsize by set_solver. constructor; [done|]. apply IH. lia.
Qed.

Lemma order_perm (state : RunState) order :
  length order = size (RunState.steps state) →
  size (list_to_set order : gset string) = size (RunState.steps state) →
  existsb (λ step_id, negb (bool_decide (is_Some (RunState.steps state !! step_id))))
    (bset_elements (list_to_set order)) = false →
  order ≡ₚ elements (dom (RunState.steps state)).
Proof.
  intros Hlen Hsize Hall.
  assert (list_to_set order ⊆ dom (RunState.steps state)) as Hsub.
  { intros id Hid. apply elem_of_dom, dec_stable. intros Hnone.
    apply not_true_iff_false in Hall. apply Hall, existsb_exists. exists id.
    by rewrite <-list_elem_of_In, elem_of_bset_elements, bool_decide_eq_false_2. }
  assert (list_to_set order = dom (RunState.steps state)) as <-.
  { apply leibniz_equiv, set_subseteq_size_equiv; [done|]. rewrite size_dom. lia. }
  symmetry. apply elements_list_to_set. apply NoDup_of_size. lia.
Qed.

Lemma built_context state completed planning_order output_order frontier registry constraints budget context :
  build_context_ordered state completed planning_order output_order frontier registry constraints budget
    = Ok context →
  context_of state completed planning_order output_order frontier registry constraints budget context.
Proof.
  unfold build_context_ordered.
  destruct (negb _); [done|]. destruct (bool_decide _) eqn:Hlen; [done|].
  apply bool_decide_eq_false_1, dec_stable in Hlen. destruct (_ || _) eqn:Hset; [done|].
  apply orb_false_iff in Hset as [Hsize Hall]. apply bool_decide_eq_false_1, dec_stable in Hsize.
  intros (s1 & _ & (outputs & Ho & (s2 & _ & (catalog & Hcat & H1)%rbind_ok)%rbind_ok)%rbind_ok)%rbind_ok.
  apply rbind_ok in H1 as (catalog_digest & Hcd & (steps & Hst & (conservative & _ & H1)%rbind_ok)%rbind_ok).
  destruct (bool_decide _); [done|].
  set (chosen := pack _ _ _ _) in H1.
  apply rbind_ok in H1 as (exact_size & Hex & H1). destruct (bool_decide _) eqn:Hfit in H1; [done|].
  apply bool_decide_eq_false_1, N.nlt_ge in Hfit.
  apply rbind_ok in H1 as (n & Hn & (digest & Hdigest & H1)%rbind_ok). injection H1 as <-.
  apply canonical_size_Ok in Hex as (bytes & Hb & ->).
  destruct (outputs_complete _ _ _ _ Ho) as (Hnd & Hrel & Hcomplete).
  pose proof (pack_sublist (N.min (AgentLoopBudget.max_context_bytes budget) MAX_PLANNING_CONTEXT_BYTES)
    steps.2 (sort_by compare_summaries catalog.2) conservative) as [Hs Hc].
  split; cbn [PlanningContext.payload PlanningContext.context_digest PlanningContext.canonical_size_bytes].
  - exists bytes. split_and!; [done| |done].
    unfold try_from in Hn. destruct (bool_decide _); cbn [ok_or] in Hn; [by injection Hn as <-|done].
  - by apply canonical_digest_Ok in Hdigest.
  - by apply order_perm.
  - exists outputs, steps.2.*1, (sort_by compare_summaries catalog.2).*1, catalog_digest, chosen.
    split_and!; try done.
    + unfold len. by rewrite !length_fmap.
    + by eapply steps_summarized.
    + exists catalog.2.*1, catalog.2. split_and!; [by eapply catalog_described|done..].
    + by apply canonical_digest_Ok in Hcd.
Qed.
End sources.
