(* ===== verification/StoreRuns.v ===== *)
(** Runs of the in-memory store: one successful append of any kind, the stores that appends reach,
    the invariant every one of them has, and the anchors every step of a journal leaves. *)

From S2P Require Import Prelude Text Wire WorkGraphTypes WorkGraphErrors Planning Material.
From S2P Require Import ToolOutput Completion Frontier FrontierProofs FrontierTheorems Journal.
From S2P Require Import AgentLoop Plans Effects StepMachine Reducer RunInvariant ReducerTheorems.
From S2P Require Import JournalTheorems Receipt StoreTypes StoreBundles StoreIndex StoreSidecars.
From S2P Require Import MemoryStore StoreSpec StoreProofs StoreAppends.

Section runs.
Context `{Crypto} `{ReceiptSchema} `{Rfc3339}.

(** ** Runs *)

(** One successful append of any kind. *)
Inductive commits (self : MemoryRunStore) (expected : ExpectedHead) (event : RunEvent)
    (commit : Commit) (self' : MemoryRunStore) : Prop :=
| co_plain : append self expected event = Ok (commit, self') →
    commits self expected event commit self'
| co_inputs inputs : append_with_plan_inputs self expected event inputs = Ok (commit, self') →
    commits self expected event commit self'
| co_material x : append_with_invocation_material self expected event x = Ok (commit, self') →
    commits self expected event commit self'
| co_receipt x : append_with_execution_receipt self expected event x = Ok (commit, self') →
    commits self expected event commit self'
| co_output x : append_with_tool_output self expected event x = Ok (commit, self') →
    commits self expected event commit self'
| co_completion x : append_with_completion_output self expected event x = Ok (commit, self') →
    commits self expected event commit self'.

(** The stores a client of the trait can hold. *)
Inductive reachable : MemoryRunStore → Prop :=
| re_new : reachable M.new
| re_commits self expected event commit self' :
    reachable self → commits self expected event commit self' → reachable self'.

Lemma commits_inv self expected event commit self' :
  store_inv self → commits self expected event commit self' →
  store_inv self' ∧ advanced self expected event commit self'.
Proof.
  intros Hinv [Ha|? Ha|? Ha|? Ha|? Ha|? Ha].
  - by apply append_inv.
  - by eapply append_with_plan_inputs_inv.
  - by eapply append_with_invocation_material_inv.
  - by eapply append_with_execution_receipt_inv.
  - by eapply append_with_tool_output_inv.
  - by eapply append_with_completion_output_inv.
Qed.

Lemma reachable_inv self : reachable self → store_inv self.
Proof. induction 1; [apply store_inv_new|by eapply commits_inv]. Qed.

(** Induction over a run, with the invariant at hand. *)
Lemma reachable_rect (P : MemoryRunStore → Prop) :
  P M.new →
  (∀ self expected event commit self', reachable self → store_inv self → P self →
    commits self expected event commit self' → advanced self expected event commit self' → P self') →
  ∀ self, reachable self → P self.
Proof.
  intros Hnew Hstep self. induction 1 as [|self expected event commit self' Hre IH Hco]; [done|].
  pose proof (reachable_inv _ Hre) as Hinv. eapply Hstep; try done. by eapply commits_inv.
Qed.
End runs.

(** What the index of a run says of every step: its recipe, its intent, its output and the
    receipt that completed it are all anchored in the journal. *)

(** ** The index only grows *)

Record grows (i i' : VerifiedRunIndex) : Prop := {
  gr_planned : V.planned_invocations i ⊆ V.planned_invocations i';
  gr_intents : V.intents i ⊆ V.intents i';
  gr_outputs : V.tool_output_events i ⊆ V.tool_output_events i';
  gr_receipts : ∃ l, V.receipt_events i' = V.receipt_events i ++ l;
  gr_positions : V.receipt_event_positions i ⊆ V.receipt_event_positions i';
}.

Lemma accepted_planned_grows seq entries i i' :
  for_each (index_accepted_step seq) entries i = Ok i' →
  V.planned_invocations i ⊆ V.planned_invocations i'.
Proof.
  revert i. induction entries as [|[k p] entries IH]; intros i; cbn; [by intros [= ->]|].
  intros (i1 & Hi1 & Hf)%rbind_ok. apply IH in Hf. etrans; [|exact Hf].
  unfold index_accepted_step in Hi1. repeat res_step.
  repeat match goal with Hx : insert_new _ _ _ _ = Ok _ |- _ => apply insert_new_Ok in Hx as [? ->] end.
  by apply insert_subseteq.
Qed.

Ltac insert_new_tac :=
  repeat match goal with Hx : insert_new _ _ _ _ = Ok _ |- _ => apply insert_new_Ok in Hx as [? ->] end.

Lemma index_body_grows i r i' : index_body i r = Ok i' → grows i i'.
Proof.
  unfold index_body, VerifiedRunIndex_index_receipt_event.
  destruct (RunEvent.body (EventRecord.event r)) as [| | | | | |d plan|? ? ? []|id ob deps|id a| | |? ? ? []| | | | | | | |];
    intros Hb;
    try (pose proof (accepted_planned_grows _ _ _ _ Hb); apply index_accepted_foldl in Hb as ->;
         split; rewrite ?accepted_same in * by done; try done; exists []; by rewrite app_nil_r);
    repeat res_step; insert_new_tac;
    (split; cbn; try done; try (by apply insert_subseteq); try (eexists; reflexivity);
     exists []; by rewrite app_nil_r).
Qed.

(** What each kind of event adds. *)
Definition adds (i i' : VerifiedRunIndex) (body : RunEventBody) : Prop :=
  match body with
  | RunEventBody.PlanAccepted _ plan => ∀ id a, V.planned_invocations i' !! id = Some a →
      (∃ p, p ∈ plan ∧ AcceptedPlanStep.step_id p = id ∧
         PlannedInvocationAnchor.binding a = AcceptedPlanStep.invocation p) ∨
      V.planned_invocations i !! id = Some a
  | RunEventBody.EffectIntentCommitted id a => ∃ x, V.intents i' !! EffectIntent.effect_id a = Some x ∧
      EffectIntentAnchor.step_id x = id ∧ EffectIntentAnchor.intent x = a
  | RunEventBody.EffectSucceeded id e _ (Some d) => ∃ x, V.tool_output_events i' !! e = Some x ∧
      ToolOutputEventAnchor.step_id x = id ∧ ToolOutputEventAnchor.record_digest x = d
  | RunEventBody.VerificationRecorded id e d rid rdg => ∃ x,
      V.receipt_events i' = V.receipt_events i ++ [x] ∧
      V.receipt_event_positions i' !! e = Some (len (V.receipt_events i)) ∧
      ReceiptEventAnchor.effect_id x = e ∧ ReceiptEventAnchor.step_id x = id ∧
      ReceiptEventAnchor.disposition x = d ∧ ReceiptEventAnchor.receipt_id x = rid ∧
      ReceiptEventAnchor.receipt_digest x = rdg
  | _ => V.receipt_events i' = V.receipt_events i
  end.

Lemma receipt_anchor_fields i r a id e d rid rdg :
  VerifiedRunIndex_receipt_anchor_for i r = Ok a →
  RunEvent.body (EventRecord.event r) = RunEventBody.VerificationRecorded id e d rid rdg →
  ReceiptEventAnchor.effect_id a = e ∧ ReceiptEventAnchor.step_id a = id ∧
  ReceiptEventAnchor.disposition a = d ∧ ReceiptEventAnchor.receipt_id a = rid ∧
  ReceiptEventAnchor.receipt_digest a = rdg.
Proof.
  unfold VerifiedRunIndex_receipt_anchor_for. intros Ha Hb. rewrite Hb in Ha. by repeat res_step.
Qed.

Lemma index_body_adds i r i' :
  index_body i r = Ok i' → adds i i' (RunEvent.body (EventRecord.event r)).
Proof.
  unfold index_body, VerifiedRunIndex_index_receipt_event, adds.
  destruct (RunEvent.body (EventRecord.event r)) as [| | | | | |d plan|? ? ? []|id ob deps|id a| | |id e ? [d|]| | | | | | | |id e d rid rdg] eqn:Hbody;
    intros Hb; try (by repeat res_step).
  - intros id a Ha. apply index_accepted_foldl in Hb as ->.
    apply apply_accepted_binding in Ha as [([k p] & He & <- & Hbind)|Ha]; [left|by right].
    exists p. split_and!; [|done|done]. rewrite <-(enumerate_snd plan). apply list_elem_of_fmap. by exists (k, p).
  - repeat res_step. insert_new_tac. eexists. cbn. by rewrite lookup_insert_eq.
  - repeat res_step. insert_new_tac.
    match goal with Ha : VerifiedRunIndex_tool_output_anchor_for _ _ = Ok _ |- _ =>
      apply tool_output_anchor_event in Ha as ([ev Hev] & _) end.
    rewrite Hbody in Hev. injection Hev as -> -> _ ->. eexists. cbn. by rewrite lookup_insert_eq.
  - repeat res_step. insert_new_tac. eexists. cbn. split; [done|].
    match goal with Ha : VerifiedRunIndex_receipt_anchor_for _ _ = Ok _ |- _ =>
      destruct (receipt_anchor_fields _ _ _ _ _ _ _ _ Ha Hbody) as (E & ?) end.
    rewrite <-E. by rewrite lookup_insert_eq.
Qed.

(** ** Steps and their anchors *)

(** The receipt anchor of an effect. *)
Definition receipt_at (i : VerifiedRunIndex) (e : string) (x : ReceiptEventAnchor) : Prop :=
  indexed_receipt i e = Some x ∧ ReceiptEventAnchor.effect_id x = e.

Record step_indexed (i : VerifiedRunIndex) (id : string) (st : StepState) : Prop := {
  sx_planned p : StepState.planned_invocation st = Some p →
    ∃ x, V.planned_invocations i !! id = Some x ∧ PlannedInvocationAnchor.binding x = p;
  sx_intent a : StepState.intent st = Some a →
    ∃ x, V.intents i !! EffectIntent.effect_id a = Some x ∧
      EffectIntentAnchor.step_id x = id ∧ EffectIntentAnchor.intent x = a;
  sx_output d : StepState.output_record_digest st = Some d →
    ∃ e x, effect_of st = Some e ∧ V.tool_output_events i !! e = Some x ∧
      ToolOutputEventAnchor.step_id x = id ∧ ToolOutputEventAnchor.record_digest x = d;
  sx_completed : StepState.status st = StepStatus.Completed →
    ∃ e x, effect_of st = Some e ∧ receipt_at i e x ∧ ReceiptEventAnchor.step_id x = id ∧
      ReceiptEventAnchor.disposition x = VerificationDisposition.Passed ∧
      StepState.execution_receipt_id st = Some (ReceiptEventAnchor.receipt_id x) ∧
      StepState.execution_receipt_digest st = Some (ReceiptEventAnchor.receipt_digest x);
}.

Record run_indexed (i : VerifiedRunIndex) (steps : gmap string StepState) : Prop := {
  rx_steps id st : steps !! id = Some st → step_indexed i id st;
  rx_receipts x : x ∈ V.receipt_events i →
    ∃ st, steps !! ReceiptEventAnchor.step_id x = Some st ∧
      effect_of st = Some (ReceiptEventAnchor.effect_id x);
}.

Lemma receipt_at_grows i i' e x : grows i i' → receipt_at i e x → receipt_at i' e x.
Proof.
  intros Hg [Hx He]. split; [|done]. unfold indexed_receipt in *.
  destruct (V.receipt_event_positions i !! e) as [k|] eqn:Hk; [|done]. cbn in Hx.
  rewrite (lookup_weaken _ _ _ _ Hk (gr_positions _ _ Hg)). cbn.
  destruct (gr_receipts _ _ Hg) as [l ->]. by apply lookup_app_l_Some.
Qed.

Lemma step_indexed_grows i i' id st : grows i i' → step_indexed i id st → step_indexed i' id st.
Proof.
  intros Hg [H1' H2' H3' H4']. split.
  - intros p (x & Hx & Hb)%H1'. exists x. split; [|done]. eapply lookup_weaken; [done|]. by apply gr_planned.
  - intros a (x & Hx & Hb)%H2'. exists x. split; [|done]. eapply lookup_weaken; [done|]. by apply gr_intents.
  - intros d (e & x & He & Hx & Hb)%H3'. exists e, x. split_and!; [done| |by destruct Hb..].
    eapply lookup_weaken; [done|]. by apply gr_outputs.
  - intros (e & x & He & Hx & Hb)%H4'. exists e, x. split_and!; [done| |by destruct_and!..].
    by eapply receipt_at_grows.
Qed.

Lemma planned_indexed i id objective deps : step_indexed i id (StepState.planned id objective deps None).
Proof. by split. Qed.

(** ** One event *)

(** Where an output digest comes from. *)
Lemma lifecycle_output body st st' d :
  lifecycle body st st' → StepState.output_record_digest st' = Some d →
  StepState.output_record_digest st = Some d ∨
  ∃ id e ev, body = RunEventBody.EffectSucceeded id e ev (Some d) ∧ effect_of st = Some e.
Proof.
  destruct 1; cbn; intros Hd; try (by left); try done. injection Hd as ->. right. by eexists _, _, _.
Qed.

(** A step completes by the passed verification of its effect, and completes once. *)
Lemma lifecycle_completed body st st' :
  lifecycle body st st' → legacy body = false → StepState.status st' = StepStatus.Completed →
  ∃ id e rid rdg,
    body = RunEventBody.VerificationRecorded id e VerificationDisposition.Passed rid rdg ∧
    effect_of st = Some e ∧ StepState.execution_receipt_id st' = Some rid ∧
    StepState.execution_receipt_digest st' = Some rdg.
Proof.
  destruct 1; cbn; intros Hlegacy Hc; try done. by eexists _, _, _, _.
Qed.

Lemma lifecycle_effect body st st' : lifecycle body st st' → effect_of st' = effect_of st.
Proof. intros Hlc. unfold effect_of. by rewrite (lf_intent _ _ _ (lifecycle_read _ _ _ Hlc)). Qed.

Lemma lifecycle_indexed i i' body id st st' :
  grows i i' → adds i i' body → legacy body = false → lifecycle_step body = Some id →
  lifecycle body st st' → step_indexed i id st → step_indexed i' id st'.
Proof.
  intros Hg Ha Hlegacy Hid Hlc Hx%(step_indexed_grows _ _ _ _ Hg).
  pose proof (lifecycle_read _ _ _ Hlc) as [Hident Hint _ _ _].
  pose proof (lifecycle_effect _ _ _ Hlc) as Heff. destruct Hx as [H1' H2' H3' _]. split.
  - destruct Hident as (_ & _ & _ & ->). done.
  - by rewrite Hint.
  - intros d Hd. rewrite Heff.
    destruct (lifecycle_output _ _ _ _ Hlc Hd) as [Hold|(j & e & ev & -> & He)]; [by apply H3'|].
    injection Hid as ->. destruct Ha as (x & Hx & Hxd). by exists e, x.
  - intros Hc. rewrite Heff.
    destruct (lifecycle_completed _ _ _ Hlc Hlegacy Hc) as (j & e & rid & rdg & -> & He & Hrid & Hrdg).
    injection Hid as ->. destruct Ha as (x & Hev & Hpos & Hxe & Hxs & Hxd & Hxid & Hxdg).
    exists e, x. split_and!; [done| |done|done|congruence|congruence]. split; [|done].
    unfold indexed_receipt. rewrite Hpos. cbn. unfold len. rewrite Nat2N.id, Hev.
    by rewrite list_lookup_middle.
Qed.

Lemma committed_indexed `{Crypto} s i i' id a st :
  grows i i' → adds i i' (RunEventBody.EffectIntentCommitted id a) → committed s id a st →
  steps_ok s → step_indexed i id st →
  step_indexed i' id (StepState.set_status StepStatus.IntentCommitted (StepState.set_intent (Some a) st)).
Proof.
  intros Hg Ha Hc Hok Hx%(step_indexed_grows _ _ _ _ Hg). destruct Hx as [H1' _ H3' _]. split; cbn.
  - done.
  - by intros b [= <-].
  - intros d (e & x & He & _)%H3'.
    pose proof (proj1 (so_intent _ Hok _ _ (cm_step _ _ _ _ Hc)) (cm_planned _ _ _ _ Hc)) as Hn.
    unfold effect_of in He. by rewrite Hn in He.
  - done.
Qed.

Lemma accepted_indexed i i' d plan p :
  adds i i' (RunEventBody.PlanAccepted d plan) → NoDup (plan_ids plan) → p ∈ plan →
  V.planned_invocations i !! AcceptedPlanStep.step_id p = None →
  is_Some (V.planned_invocations i' !! AcceptedPlanStep.step_id p) →
  step_indexed i' (AcceptedPlanStep.step_id p) (accepted_step_state p).
Proof.
  intros Ha Hnd Hp Hnone [x Hx]. split; try done. cbn. intros q [= <-]. exists x. split; [done|].
  destruct (Ha _ _ Hx) as [(p' & Hp' & Hid & ->)|Hold]; [|congruence].
  f_equal. apply list_elem_of_lookup in Hp as [k Hk], Hp' as [k' Hk'].
  assert (k = k') as ->; [|congruence].
  eapply NoDup_lookup; [done|..]; unfold plan_ids; rewrite list_lookup_fmap, ?Hk, ?Hk'; cbn; by rewrite ?Hid.
Qed.

(** ** Every event *)

Section runs.
Context `{Crypto}.

Lemma effect_kept s body s1 id st e :
  run_inv s → change s body s1 → RunState.steps s !! id = Some st → effect_of st = Some e →
  ∃ st', RunState.steps s1 !! id = Some st' ∧ effect_of st' = Some e.
Proof.
  intros Hinv Hch Hst He. unfold effect_of in He.
  destruct (StepState.intent st) as [a|] eqn:Ha; [|done].
  destruct (intent_kept s body s1 id a Hinv Hch) as (st' & Hst' & Ha'); [by exists st|].
  exists st'. split; [done|]. unfold effect_of. by rewrite Ha'.
Qed.

Lemma steps_next i i' s body s1 :
  run_inv s → grows i i' → adds i i' body → legacy body = false → stepped s body s1 →
  dom (V.planned_invocations i) ⊆ dom (RunState.steps s) →
  (∀ d plan p, body = RunEventBody.PlanAccepted d plan → p ∈ plan →
     is_Some (V.planned_invocations i' !! AcceptedPlanStep.step_id p)) →
  (∀ id st, RunState.steps s !! id = Some st → step_indexed i id st) →
  ∀ id st, RunState.steps s1 !! id = Some st → step_indexed i' id st.
Proof.
  intros Hinv Hg Ha Hlegacy Hs Hdom Hnew Hold id st Hst.
  assert (Hkept : RunState.steps s !! id = Some st → step_indexed i' id st).
  { intros ?. eapply step_indexed_grows; [done|by apply Hold]. }
  destruct Hs as [_ E|j ob deps -> _ E|d plan -> Hnd Hfresh E|j a sj -> Hc E|j sj sj' Hj Hsj Hlc E];
    rewrite E in Hst.
  - by apply Hkept.
  - apply lookup_insert_Some in Hst as [[<- <-]|[_ Hst]]; [apply planned_indexed|by apply Hkept].
  - apply planned_into_inv in Hst as [Hst|(p & Hp & -> & ->)]; [by apply Hkept|].
    eapply accepted_indexed; try done; [|by eapply Hnew].
    apply not_elem_of_dom. intros Hin%Hdom%elem_of_dom.
    rewrite Hfresh in Hin by (by apply list_elem_of_fmap_2). by destruct Hin.
  - apply lookup_insert_Some in Hst as [[<- <-]|[_ Hst]]; [|by apply Hkept].
    eapply committed_indexed; try done; [apply (ri_steps _ Hinv)|]. apply Hold, (cm_step _ _ _ _ Hc).
  - apply lookup_insert_Some in Hst as [[<- <-]|[_ Hst]]; [|by apply Hkept].
    eapply lifecycle_indexed; try done. by apply Hold.
Qed.

(** A finalization names the effect of its step. *)
Lemma verified_step s id e d rid rdg s1 :
  stepped s (RunEventBody.VerificationRecorded id e d rid rdg) s1 →
  ∃ st, RunState.steps s1 !! id = Some st ∧ effect_of st = Some e.
Proof.
  intros Hs. destruct Hs as [Hl _|j ob deps Hb _ _|d' plan Hb _ _ _|j a st Hb _ _|j st st' Hj Hst Hlc E]; [done..|].
  injection Hj as ->. exists st'. rewrite E, lookup_insert_eq. split; [done|].
  rewrite (lifecycle_effect _ _ _ Hlc). by inversion Hlc.
Qed.

Lemma receipts_next i i' s body s1 :
  run_inv s → change s body s1 → stepped s body s1 → adds i i' body →
  (∀ x, x ∈ V.receipt_events i → ∃ st, RunState.steps s !! ReceiptEventAnchor.step_id x = Some st ∧
     effect_of st = Some (ReceiptEventAnchor.effect_id x)) →
  (V.receipt_events i' = V.receipt_events i ∨
   ∃ id e d rid rdg, body = RunEventBody.VerificationRecorded id e d rid rdg) →
  ∀ x, x ∈ V.receipt_events i' → ∃ st, RunState.steps s1 !! ReceiptEventAnchor.step_id x = Some st ∧
    effect_of st = Some (ReceiptEventAnchor.effect_id x).
Proof.
  intros Hinv Hch Hs Ha Hold Hsame.
  assert (Hkept : ∀ x, x ∈ V.receipt_events i → ∃ st, RunState.steps s1 !! ReceiptEventAnchor.step_id x = Some st ∧
            effect_of st = Some (ReceiptEventAnchor.effect_id x)).
  { intros x (st & Hst & He)%Hold. by eapply effect_kept. }
  intros x Hx. destruct Hsame as [E|(id & e & d & rid & rdg & ->)]; [rewrite E in Hx; by apply Hkept|].
  destruct Ha as (y & E & _ & Hye & Hys & _). rewrite E in Hx.
  apply elem_of_app in Hx as [Hx|Hx]; [by apply Hkept|]. apply list_elem_of_singleton in Hx as ->.
  rewrite Hye, Hys. by eapply verified_step.
Qed.

(** The receipts change by finalizations only. *)
Lemma receipts_same i r i' :
  index_body i r = Ok i' →
  V.receipt_events i' = V.receipt_events i ∨
  ∃ id e d rid rdg, RunEvent.body (EventRecord.event r) = RunEventBody.VerificationRecorded id e d rid rdg.
Proof.
  unfold index_body.
  destruct (RunEvent.body (EventRecord.event r)) as [| | | | | |d plan|? ? ? []|id ob deps|id a| | |? ? ? []| | | | | | | |];
    intros Hb; try (by right; eexists _, _, _, _, _); left;
    try (apply index_accepted_foldl in Hb as ->; by rewrite accepted_same); by repeat res_step.
Qed.

Lemma accepted_planned i r i' d plan p :
  index_body i r = Ok i' → RunEvent.body (EventRecord.event r) = RunEventBody.PlanAccepted d plan →
  p ∈ plan → is_Some (V.planned_invocations i' !! AcceptedPlanStep.step_id p).
Proof.
  unfold index_body. intros Hb Hbody Hp. rewrite Hbody in Hb. apply index_accepted_foldl in Hb as ->.
  apply elem_of_dom. rewrite apply_accepted_planned, entry_ids.
  apply elem_of_union_l, elem_of_list_to_set. by apply list_elem_of_fmap_2.
Qed.

Lemma run_indexed_next i s r s' i' :
  run_inv s → apply_record (Some s) r = Ok s' → index_body i r = Ok i' →
  legacy (RunEvent.body (EventRecord.event r)) = false →
  dom (V.planned_invocations i) ⊆ dom (RunState.steps s) →
  run_indexed i (RunState.steps s) → run_indexed i' (RunState.steps s').
Proof.
  intros Hinv Happ Hb Hlegacy Hdom [Hsteps Hrec].
  destruct (apply_record_some _ _ _ Hinv Happ) as (_ & _ & _ & s1 & Hbody & -> & Hch).
  pose proof (apply_body_stepped _ _ _ Hinv Hbody) as Hs.
  pose proof (index_body_adds _ _ _ Hb) as Ha. split.
  - eapply (steps_next i); try done; [by eapply index_body_grows|].
    intros d plan p Hp. by eapply accepted_planned.
  - eapply (receipts_next i); try done. by eapply receipts_same.
Qed.
End runs.

(** ** Reachable stores *)

Section reachable.
Context `{Crypto} `{ReceiptSchema} `{Rfc3339}.

Lemma run_indexed_ext i i' steps :
  V.planned_invocations i' = V.planned_invocations i → V.intents i' = V.intents i →
  V.receipt_events i' = V.receipt_events i →
  V.receipt_event_positions i' = V.receipt_event_positions i →
  V.tool_output_events i' = V.tool_output_events i → run_indexed i steps → run_indexed i' steps.
Proof.
  intros E1 E2 E3 E4 E5 [Hs Hr]. split; [|by rewrite E3].
  intros id st Hst%Hs. eapply step_indexed_grows; [|done].
  split; rewrite ?E1, ?E2, ?E3, ?E4, ?E5; try done. exists []. by rewrite app_nil_r.
Qed.

Lemma reachable_indexed self :
  reachable self → run_indexed (M.index self) (steps_at (M.projection self)).
Proof.
  revert self. apply reachable_rect.
  { split; cbn; [done|]. by intros x ?%elem_of_nil. }
  intros self expected event commit self' _ Hinv IH Hco [Hp _ -> (an & b1 & p & m & o & r & Hcs & ->) Hlegacy].
  destruct (cs_body _ _ _ _ Hcs) as (i & Hbi & E1 & E2 & E3 & E4 & E5 & E6 & E7).
  apply prepare_commit_Ok in Hp as (_ & _ & _ & Hevent & Happ). cbn [steps_at].
  apply (run_indexed_ext b1); [done..|]. rewrite (si_state _ Hinv) in Happ. rewrite <-Hevent in Hlegacy.
  assert (Hi : run_indexed i (steps_at (M.projection self))) by (by eapply run_indexed_ext, IH).
  destruct (M.projection self) as [s|] eqn:Hs.
  - eapply (run_indexed_next i s); try done; [by eapply store_inv_run_inv|].
    rewrite E1. pose proof (if_planned _ _ (si_facts _ Hinv)) as Hd. by rewrite Hs in Hd.
  - rewrite (index_body_first _ _ _ Happ) in Hbi. injection Hbi as ->.
    by apply apply_first_Ok in Happ as (goal & _ & _ & ->).
Qed.
End reachable.
