(* ===== verification/StoreTheorems.v ===== *)
(** What the in-memory store promises: every store its appends reach loads and replays to its
    projection, an append is a compare-and-swap on the head, a lost race stays lost, and no method
    panics. *)

From S2P Require Import Prelude Text Wire WorkGraphTypes WorkGraphErrors Planning Material.
From S2P Require Import ToolOutput Completion Journal Reducer RunInvariant JournalTheorems.
From S2P Require Import Receipt StoreTypes StoreBundles StoreIndex StoreSidecars MemoryStore.
From S2P Require Import StoreSpec StoreProofs StoreAppends StoreRuns.

Section theorems.
Context `{Crypto} `{ReceiptSchema} `{Rfc3339}.

(** ** The head and the event identities *)

Definition event_id_of (r : EventRecord) : string := RunEvent.event_id (EventRecord.event r).

(** The head a client that has read these records expects. *)
Definition head_of (records : list EventRecord) : ExpectedHead :=
  match last records with
  | Some r => ExpectedHead.Exact (EventRecord.sequence r) (EventRecord.digest r)
  | None => ExpectedHead.Empty
  end.

Lemma index_head self : store_inv self → VerifiedRunIndex_head (M.index self) = head_of (M.records self).
Proof. intros Hinv. unfold VerifiedRunIndex_head, head_of. by rewrite (si_last _ Hinv). Qed.

Lemma index_body_event_ids i r b : index_body i r = Ok b → V.event_ids b = V.event_ids i.
Proof.
  intros Hb. assert (V.set_event_ids (V.event_ids i) b = b) as <-; [|done].
  apply (index_body_fixed (V.set_event_ids (V.event_ids i)) i r b); [by split|by destruct i|done].
Qed.

Lemma index_records_event_ids records i i' :
  for_each index_record records i = Ok i' →
  V.event_ids i' = list_to_set (event_id_of <$> records) ∪ V.event_ids i.
Proof.
  revert i. induction records as [|r records IH]; intros i Hi; cbn [for_each] in Hi.
  - injection Hi as <-. cbn. by rewrite union_empty_l_L.
  - apply rbind_ok in Hi as (i1 & H1' & Hi). unfold index_record in H1'. repeat res_step.
    rewrite (IH _ Hi). cbn. erewrite index_body_event_ids by done. cbn.
    fold (event_id_of r). set_solver.
Qed.

Lemma index_event_ids self :
  store_inv self → V.event_ids (M.index self) = list_to_set (event_id_of <$> M.records self).
Proof.
  intros Hinv. destruct (si_index _ Hinv) as (base & Hbase & _ & ->). cbn.
  rewrite (index_records_event_ids _ _ _ Hbase). cbn. by rewrite union_empty_r_L.
Qed.

(** ** Point lookups *)

Lemma plan_input_point self id :
  store_inv self → verify_plan_input_point (M.index self) id (M.plan_inputs self !! id) = Ok tt.
Proof.
  intros Hinv. destruct (si_inputs _ Hinv) as [Hdom Hver]. unfold verify_plan_input_point.
  assert (Hiff := proj1 (set_eq _ _) Hdom id). rewrite !elem_of_dom in Hiff.
  destruct (V.planned_invocations _ !! id) as [a|] eqn:Ha, (M.plan_inputs self !! id) as [x|] eqn:Hx;
    [|by destruct (proj2 Hiff)|by destruct (proj1 Hiff)|done].
  destruct (Hver _ _ _ Ha Hx) as (s & Hs & Hok). unfold indexed_run_id. rewrite Hs. cbn. by rewrite Hok.
Qed.

Lemma material_point self e :
  store_inv self → verify_material_point (M.index self) e (M.materials self !! e) = Ok tt.
Proof.
  intros Hinv. destruct (si_materials _ Hinv) as [Hdom Hver]. unfold verify_material_point.
  assert (Hiff := proj1 (set_eq _ _) Hdom e). rewrite !elem_of_dom in Hiff.
  destruct (V.intents _ !! e) as [a|] eqn:Ha, (M.materials self !! e) as [x|] eqn:Hx;
    [|by destruct (proj2 Hiff)|by destruct (proj1 Hiff)|done].
  destruct (Hver _ _ _ Ha Hx) as (s & Hs & Hok). unfold indexed_run_id. rewrite Hs. cbn. by rewrite Hok.
Qed.

Lemma tool_output_point self e :
  store_inv self → verify_tool_output_point (M.index self) e (M.outputs self !! e) = Ok tt.
Proof.
  intros Hinv. destruct (si_outputs _ Hinv) as [Hdom _ Hver _ _]. unfold verify_tool_output_point.
  assert (Hiff := proj1 (set_eq _ _) Hdom e). rewrite !elem_of_dom in Hiff.
  destruct (V.tool_output_events _ !! e) as [a|] eqn:Ha, (M.outputs self !! e) as [x|] eqn:Hx;
    [by eapply Hver|by destruct (proj2 Hiff)|by destruct (proj1 Hiff)|done].
Qed.

(** C35: Whatever sequence of successful appends built it, the in-memory store passes its own
    full audit: it loads exactly its journal and the projection the journal replays to, the
    cheap current-state read and the combined read agree with the trait's default bodies built
    on the audited load, and every point lookup of a sidecar verifies and returns what is
    stored. *)
Theorem reachable_store_loads (self : MemoryRunStore) :
  reachable self →
  load self = Ok (snapshot_of self) ∧
  load_current self = default_load_current self ∧
  load_with_execution_receipts self = default_load_with_execution_receipts self ∧
  match M.projection self with
  | None => M.records self = []
  | Some s => replay (M.records self) = Ok s
  end ∧
  (∀ step_id, load_planned_invocation self step_id = Ok (M.plan_inputs self !! step_id)) ∧
  (∀ effect_id, load_invocation_material self effect_id = Ok (M.materials self !! effect_id)) ∧
  (∀ effect_id, load_tool_output self effect_id
     = Ok (StoredToolOutput.record <$> M.outputs self !! effect_id)).
Proof.
  intros Hinv%reachable_inv. pose proof (load_spec _ Hinv) as Hload. split_and!; [done| | |..].
  - unfold default_load_current. rewrite Hload. cbn. unfold snapshot_of, MemoryRunStore_load_current.
    by destruct (M.projection self).
  - unfold default_load_with_execution_receipts. rewrite Hload.
    change (MemoryRunStore_load_with_execution_receipts self = Ok (snapshot_of self, map StoredExecutionReceipt.receipt (M.receipts self))).
    unfold MemoryRunStore_load_with_execution_receipts.
    change (MemoryRunStore_load self) with (load self). by rewrite Hload.
  - exact (si_journal _ Hinv).
  - intros id. cbn. unfold MemoryRunStore_load_planned_invocation. by rewrite plan_input_point.
  - intros e. cbn. unfold MemoryRunStore_load_invocation_material. by rewrite material_point.
  - intros e. cbn. unfold MemoryRunStore_load_tool_output. by rewrite tool_output_point.
Qed.

(** C24: An append of any of the six kinds is a compare-and-swap on the head of the journal:
    it succeeds only for a client that expects the current head and brings a new event id, and
    then the journal is the old one with one record, which carries the event and the successor
    of the head's sequence number, and the longer journal replays to the committed state, which
    the next load returns. *)
Theorem append_is_compare_and_swap (self : MemoryRunStore) (expected : ExpectedHead)
    (event : RunEvent) (commit : Commit) (self' : MemoryRunStore) :
  reachable self → commits self expected event commit self' →
  expected = head_of (M.records self) ∧
  (RunEvent.event_id event ∉ event_id_of <$> M.records self) ∧
  M.records self' = M.records self ++ [Commit.record commit] ∧
  EventRecord_next (last (M.records self)) event = Ok (Commit.record commit) ∧
  replay (M.records self') = Ok (Commit.state commit) ∧
  load self' = Ok (Some (RunSnapshot.mk (M.records self') (Commit.state commit))).
Proof.
  intros Hinv%reachable_inv Hco. destruct (commits_inv _ _ _ _ _ Hinv Hco) as [Hinv' Had].
  destruct Had as [Hp Hrec Hproj _ _].
  apply prepare_commit_Ok in Hp as (-> & Hnew & Hnext & _ & _).
  rewrite index_event_ids, elem_of_list_to_set in Hnew by done. rewrite (si_last _ Hinv) in Hnext.
  pose proof (si_journal _ Hinv') as Hj. rewrite Hproj in Hj. split_and!; try done.
  - by apply index_head.
  - rewrite load_spec by done. unfold snapshot_of. by rewrite Hproj.
Qed.

(** ** Races *)

(** The stores later appends lead to. *)
Inductive later (self : MemoryRunStore) : MemoryRunStore → Prop :=
| la_same : later self self
| la_commits self1 expected event commit self2 :
    later self self1 → commits self1 expected event commit self2 → later self self2.

Definition head_sequence (h : ExpectedHead) : N :=
  match h with ExpectedHead.Empty => 0 | ExpectedHead.Exact n _ => n end.

Lemma commits_head self expected event commit self' :
  store_inv self → commits self expected event commit self' →
  expected = head_of (M.records self) ∧
  (head_sequence (head_of (M.records self')) = head_sequence (head_of (M.records self)) + 1)%N.
Proof.
  intros Hinv Hco. destruct (commits_inv _ _ _ _ _ Hinv Hco) as [_ [Hp Hrec _ _ _]].
  apply prepare_commit_Ok in Hp as (-> & _ & Hnext & _ & _). rewrite (si_last _ Hinv) in Hnext.
  apply next_Ok in Hnext as (_ & _ & Hseq & _).
  split; [by apply index_head|]. rewrite Hrec. unfold head_of at 1. rewrite last_snoc. cbn.
  unfold head_of. destruct (last (M.records self)) as [r|]; cbn; lia.
Qed.

Lemma later_inv self self' : store_inv self → later self self' → store_inv self'.
Proof. intros Hinv. induction 1 as [|self1 expected event commit self2 _ IH Hco]; [done|]. by eapply commits_inv. Qed.

Lemma later_head self self' :
  store_inv self → later self self' →
  (head_sequence (head_of (M.records self)) ≤ head_sequence (head_of (M.records self')))%N.
Proof.
  intros Hinv. induction 1 as [|self1 expected event commit self2 Hla IH Hco]; [done|].
  pose proof (commits_head _ _ _ _ _ (later_inv _ _ Hinv Hla) Hco) as [_ ->]. lia.
Qed.

(** C27: Of the clients that read the same head at most one appends: once an append against a
    head has succeeded, no append of any kind against that head succeeds ever again, whatever
    is appended in between, and a plain append whose event would pass the bundle checks is
    refused with the conflict that names the current head. *)
Theorem lost_race_stays_lost (self : MemoryRunStore) (expected : ExpectedHead) (event1 : RunEvent)
    (commit1 : Commit) (self1 self2 : MemoryRunStore) :
  reachable self → commits self expected event1 commit1 self1 → later self1 self2 →
  (∀ event2 commit2 self3, ¬ commits self2 expected event2 commit2 self3) ∧
  (∀ event2, verify_bundles event2 None None None None None = Ok tt →
     append self2 expected event2
       = Err (StoreError.HeadConflict expected (head_of (M.records self2)))).
Proof.
  intros Hinv%reachable_inv Hco Hla.
  pose proof (commits_head _ _ _ _ _ Hinv Hco) as [-> Hone].
  pose proof (proj1 (commits_inv _ _ _ _ _ Hinv Hco)) as Hinv1.
  pose proof (later_inv _ _ Hinv1 Hla) as Hinv2.
  assert (head_of (M.records self) ≠ head_of (M.records self2)) as Hne.
  { pose proof (later_head _ _ Hinv1 Hla). intros Heq. rewrite Heq in Hone. lia. }
  split.
  - intros event2 commit2 self3 Hco2. by destruct (commits_head _ _ _ _ _ Hinv2 Hco2) as [? _].
  - intros event2 Hv. change (append self2) with (MemoryRunStore_append self2).
    unfold MemoryRunStore_append. rewrite Hv. cbn [rbind]. unfold prepare_commit.
    by rewrite index_head, bool_decide_eq_true_2.
Qed.

(** C37: No method of the trait panics on a store that appends built, whatever head, event
    and sidecar a client hands it: the anchors, intents and records the code expects to find
    are always there. *)
Theorem store_never_panics (self : MemoryRunStore) :
  reachable self →
  (∀ expected event, no_panic (append self expected event)) ∧
  (∀ expected event x, no_panic (append_with_plan_inputs self expected event x)) ∧
  (∀ expected event x, no_panic (append_with_invocation_material self expected event x)) ∧
  (∀ expected event x, no_panic (append_with_execution_receipt self expected event x)) ∧
  (∀ expected event x, no_panic (append_with_tool_output self expected event x)) ∧
  (∀ expected event x, no_panic (append_with_completion_output self expected event x)) ∧
  no_panic (load self) ∧ no_panic (load_with_execution_receipts self) ∧
  (∀ expected id, no_panic (load_completion_output self expected id)) ∧
  (∀ id, no_panic (load_verification_snapshot self id)) ∧
  (∀ expected n, no_panic (load_planning_snapshot self expected n)).
Proof.
  intros Hinv%reachable_inv.
  split_and!; auto using no_panic_append, no_panic_append_inputs, no_panic_append_material,
    no_panic_append_receipt, no_panic_append_output, no_panic_append_completion,
    no_panic_completion_read, no_panic_verification_read, no_panic_planning_read.
  - by rewrite load_spec.
  - change (load_with_execution_receipts self) with (MemoryRunStore_load_with_execution_receipts self).
    unfold MemoryRunStore_load_with_execution_receipts.
    change (MemoryRunStore_load self) with (load self). by rewrite load_spec.
Qed.
End theorems.

(** An append against the current head never fails with a head conflict. *)

Definition is_conflict (e : StoreError) : bool :=
  match e with StoreError.HeadConflict _ _ => true | _ => false end.

(** A result that is no head conflict. *)
Definition no_conflict {A} (r : res StoreError A) : Prop :=
  match r with Err e => is_conflict e = false | _ => True end.

Lemma no_conflict_bind {A B} (r : res StoreError A) (k : A → res StoreError B) :
  no_conflict r → (∀ a, r = Ok a → no_conflict (k a)) → no_conflict (rbind r k).
Proof. destruct r; cbn; auto. Qed.

Lemma no_conflict_map_err {E A} (f : E → StoreError) (r : res E A) :
  (∀ e, is_conflict (f e) = false) → no_conflict (map_err f r).
Proof. by destruct r; cbn. Qed.

Lemma no_conflict_for_each {S A} (f : S → A → res StoreError S) l s :
  (∀ s a, no_conflict (f s a)) → no_conflict (for_each f l s).
Proof.
  intros Hf. revert s. induction l as [|a l IH]; intros s; cbn; [done|].
  apply no_conflict_bind; auto.
Qed.

Create HintDb conflicts.

Ltac no_conflict_tac :=
  repeat first
    [ done
    | solve [auto with conflicts]
    | apply no_conflict_map_err; intros ?
    | apply no_conflict_bind; [|intros ? ?]
    | apply no_conflict_for_each; intros ? ?
    | case_match ].

Section checks.
Context `{Crypto} `{ReceiptSchema} `{Rfc3339}.

Lemma no_conflict_inputs event inputs : no_conflict (verify_plan_input_bundle event inputs).
Proof. unfold verify_plan_input_bundle, index_plan_input, verify_plan_input_step, ok_or. no_conflict_tac. Qed.
Lemma no_conflict_material event x : no_conflict (verify_material_bundle event x).
Proof. unfold verify_material_bundle, verify_intent_profile, ok_or. no_conflict_tac. Qed.
Lemma no_conflict_receipt event x : no_conflict (verify_receipt_bundle event x).
Proof. unfold verify_receipt_bundle. no_conflict_tac. Qed.
Lemma no_conflict_output event x : no_conflict (verify_tool_output_bundle event x).
Proof. unfold verify_tool_output_bundle. no_conflict_tac. Qed.
Lemma no_conflict_completion event x : no_conflict (verify_completion_output_bundle event x).
Proof. unfold verify_completion_output_bundle. no_conflict_tac. Qed.
#[local] Hint Resolve no_conflict_inputs no_conflict_material no_conflict_receipt no_conflict_output
  no_conflict_completion : conflicts.

Lemma no_conflict_bundles event a b c d e : no_conflict (verify_bundles event a b c d e).
Proof. unfold verify_bundles. no_conflict_tac. Qed.

Lemma no_conflict_apply i commit sidecars anchors :
  no_conflict (VerifiedRunIndex_apply_committed i commit sidecars anchors).
Proof. unfold VerifiedRunIndex_apply_committed, apply_committed_body, expect. no_conflict_tac. Qed.

Lemma no_conflict_candidate i r x : no_conflict (verify_completion_output_candidate i r x).
Proof.
  unfold verify_completion_output_candidate, VerifiedRunIndex_completion_output_anchor_for,
    completion_anchor_decision, corrupt, ok_or. no_conflict_tac.
Qed.

Lemma no_conflict_prepare self event :
  store_inv self → no_conflict (prepare_commit (M.index self) (head_of (M.records self)) event).
Proof.
  intros Hinv. unfold prepare_commit. rewrite index_head, bool_decide_eq_false_2 by auto. no_conflict_tac.
Qed.
#[local] Hint Resolve no_conflict_bundles no_conflict_apply no_conflict_candidate no_conflict_prepare
  : conflicts.

Lemma append_no_conflict self event : store_inv self → no_conflict (append self (head_of (M.records self)) event).
Proof.
  intros Hinv. change (append self) with (MemoryRunStore_append self).
  unfold MemoryRunStore_append. no_conflict_tac.
Qed.

Lemma append_inputs_no_conflict self event inputs :
  store_inv self → no_conflict (append_with_plan_inputs self (head_of (M.records self)) event inputs).
Proof.
  intros Hinv. change (append_with_plan_inputs self) with (MemoryRunStore_append_with_plan_inputs self).
  unfold MemoryRunStore_append_with_plan_inputs, fresh_plan_input. no_conflict_tac.
Qed.

Lemma append_completion_no_conflict self event x :
  store_inv self → no_conflict (append_with_completion_output self (head_of (M.records self)) event x).
Proof.
  intros Hinv. change (append_with_completion_output self) with (MemoryRunStore_append_with_completion_output self).
  unfold MemoryRunStore_append_with_completion_output. no_conflict_tac.
Qed.
End checks.
