(* ===== verification/MachineLogic.v ===== *)
(** Reasoning about runtime programs on the in-memory store: what a client that has seen a state
    may conclude when its compare-and-swap succeeds, what the collaborators of the runtime
    promise, the rules of the rely-guarantee logic for the three kinds of call, and of the logic
    of what a program concludes from its own calls. *)

From S2P Require Import Prelude Program Text Wire Domain Registry WorkGraphTypes WorkGraphErrors.
From S2P Require Import Planning Material ToolOutput Completion Journal StepMachine Reducer.
From S2P Require Import RunInvariant JournalTheorems Receipt StoreTypes StoreBundles MemoryStore.
From S2P Require Import Host Admission Recovery Adapters Verification Attempts StoreSpec.
From S2P Require Import StoreProofs StoreAppends StoreRuns StoreTheorems.

Abbreviation machine W := (Machine MemoryRunStore W).

(** ** Seen states *)

Section seen.
Context `{Crypto} `{ReceiptSchema} `{Rfc3339}.

Lemma projection_replays self s :
  store_inv self → M.projection self = Some s → replay (M.records self) = Ok s.
Proof. intros Hinv Hs. pose proof (si_journal _ Hinv) as Hj. by rewrite Hs in Hj. Qed.

Lemma projection_head self s :
  store_inv self → M.projection self = Some s → ExpectedHead.from_state s = head_of (M.records self).
Proof.
  intros Hinv Hs. pose proof (projection_replays _ _ Hinv Hs) as Hr.
  destruct (replay_chain _ _ Hr) as (_ & _ & _ & _ & r & Hlast & Hseq & Hd).
  unfold head_of, ExpectedHead.from_state. by rewrite Hlast, Hseq, Hd.
Qed.

#[export] Instance later_preorder : PreOrder later.
Proof.
  split; [intros self; apply la_same|]. intros s1 s2 s3 H12 H23.
  induction H23 as [|s4 expected event commit s5 _ IH Hco]; [done|by eapply la_commits].
Qed.

Lemma later_reachable self self' : reachable self → later self self' → reachable self'.
Proof. intros Hre. induction 1; [done|by eapply re_commits]. Qed.

(** A later store with the head of an earlier one is that store. *)
Lemma later_same_head self self' :
  store_inv self → later self self' → head_of (M.records self') = head_of (M.records self) → self' = self.
Proof.
  intros Hinv Hla Heq. destruct Hla as [|self1 expected event commit self2 Hla Hco]; [done|].
  pose proof (commits_head _ _ _ _ _ (later_inv _ _ Hinv Hla) Hco) as [_ Hone].
  pose proof (later_head _ _ Hinv Hla). rewrite Heq in Hone. lia.
Qed.

(** The store held this state, and has only grown since. *)
Definition seen (state : RunState) (self : MemoryRunStore) : Prop :=
  ∃ s0, reachable s0 ∧ M.projection s0 = Some state ∧ later s0 self.

Lemma seen_later state self self' : seen state self → later self self' → seen state self'.
Proof. intros (s0 & Hre & Hs & Hla) Hla'. exists s0. split_and!; [done..|by etrans]. Qed.

Lemma seen_now state self : reachable self → M.projection self = Some state → seen state self.
Proof. intros Hre Hs. by exists self. Qed.

(** A compare-and-swap against a seen state succeeds only while it is the current state. *)
Lemma seen_commit state self event commit self' :
  seen state self → commits self (ExpectedHead.from_state state) event commit self' →
  M.projection self = Some state.
Proof.
  intros (s0 & Hre & Hs & Hla) Hco. pose proof (reachable_inv _ Hre) as Hinv.
  pose proof (commits_head _ _ _ _ _ (later_inv _ _ Hinv Hla) Hco) as [Hhead _].
  rewrite (projection_head _ _ Hinv Hs) in Hhead.
  by rewrite (later_same_head _ _ Hinv Hla (eq_sym Hhead)).
Qed.

(** The records of the kind [marks] tells, for the resource [e]. *)
Definition marked (marks : string → RunEventBody → bool) (e : string) (records : list EventRecord) : N :=
  count (marks e ∘ body_of) records.

(** What a commit makes of the counts. *)
Lemma commit_counts marks self expected event commit self' :
  reachable self → commits self expected event commit self' →
  (∀ e, marked marks e (M.records self')
        = marked marks e (M.records self) + if marks e (RunEvent.body event) then 1 else 0)%N ∧
  M.projection self' = Some (Commit.state commit) ∧ reachable self'.
Proof.
  intros Hre Hco. pose proof (reachable_inv _ Hre) as Hinv.
  destruct (commits_inv _ _ _ _ _ Hinv Hco) as [_ [Hp Hrec Hproj _ _]].
  apply prepare_commit_Ok in Hp as (_ & _ & _ & Hevent & _).
  split_and!; [|done|by eapply re_commits]. intros e. unfold marked. rewrite Hrec, count_snoc. cbn.
  unfold body_of. by rewrite Hevent.
Qed.
End seen.

(** ** What the collaborators promise *)

(** How often each effect has been performed on the outside world. *)
Class Executions (W : Type) : Type := executions : W → tokens.

(** A call that leaves a resource of the world alone. *)
Definition leaves {W X} (spent : W → tokens) (f : W → X * W) : Prop :=
  ∀ w e, spent (f w).2 e = spent w e.

Abbreviation performs_nothing := (leaves executions).

Class PassiveFactory (W : Type) `{Executions W} `{EventFactory W} : Prop :=
  create_metadata_passive state : performs_nothing (create_metadata state).

Class PassiveVerifier (W V : Type) `{Executions W} `{EffectVerifier W V} : Prop :=
  verify_passive verifier request : performs_nothing (verify verifier request).

Class PassiveProvider (W V : Type) `{Executions W} `{InvocationMaterialProvider W V} : Prop :=
  reconstruct_passive provider reference revision :
    performs_nothing (reconstruct provider reference revision).

(** Preparing performs no effect, a prepared invocation performs the effect it was prepared for
    at most once, and a query applies nothing. *)
Class OneShotAdapter (W A I : Type) `{Executions W} `{EffectAdapter W A I} : Type := {
  invocation_effect : I → string;
  adapter_prepare_passive adapter request : performs_nothing (adapter_prepare adapter request);
  adapter_prepare_effect adapter request w invocation w' :
    adapter_prepare adapter request w = (Ok invocation, w') →
    invocation_effect invocation = EffectIntent.effect_id (AdapterPrepareRequest.intent request);
  invocation_execute_once invocation w e :
    (executions (invocation_execute invocation w).2 e
     ≤ executions w e + if bool_decide (e = invocation_effect invocation) then 1 else 0)%N;
  adapter_reconcile_passive adapter request : performs_nothing (adapter_reconcile adapter request);
}.

(** ** The rules *)

(** A resource of the world is [spent]; a record that [marks] it is the credit for one use, and
    [within] bounds how many of them the journal may hold. *)
Section rules.
Context {W : Type} `{Crypto} `{ReceiptSchema} `{Rfc3339}.
Context (spent : W → tokens) (marks : string → RunEventBody → bool) (within : N → Prop).

(** The store is one appends built, and the journal is within its bounds. *)
Definition bounded (m : machine W) : Prop :=
  reachable (Machine.store m) ∧ ∀ e, within (marked marks e (M.records (Machine.store m))).
Definition grows_to (m m' : machine W) : Prop := later (Machine.store m) (Machine.store m').
Definition announced (m : machine W) : tokens := λ e, marked marks e (M.records (Machine.store m)).
Definition used (m : machine W) : tokens := spent (Machine.world m).

#[export] Instance grows_to_preorder : PreOrder grows_to.
Proof. split; [intros m|intros m1 m2 m3 H12 H23]; unfold grows_to in *; [done|by etrans]. Qed.

Lemma stays t m : bounded m → allowed bounded grows_to announced used t t m m.
Proof. apply (allowed_refl bounded grows_to announced used). Qed.

(** [p] never uses the resource without a record that announces the use. *)
Definition covers {A} (Q : A → tokens → machine W → Prop) (p : prog (machine W) A)
    (t : tokens) (m : machine W) : Prop := safe bounded grows_to announced used Q p t m.

Lemma covers_bind {A B} Q (p : prog (machine W) A) (k : A → prog (machine W) B) t m :
  covers (λ a, covers Q (k a)) p t m → covers Q (bind p k) t m.
Proof. apply safe_bind. Qed.

Lemma covers_weaken {A} (Q Q' : A → tokens → machine W → Prop) (p : prog (machine W) A) t m :
  (∀ a t' m', Q a t' m' → Q' a t' m') → covers Q p t m → covers Q' p t m.
Proof. apply safe_weaken. Qed.

Lemma covers_pbind {E A B} Q (p : prog (machine W) (res E A)) (k : A → prog (machine W) (res E B)) t m :
  covers (λ r t' m', match r with
                     | Ok a => covers Q (k a) t' m'
                     | Err e => Q (Err e) t' m'
                     | Panic why => Q (Panic why) t' m'
                     end) p t m →
  covers Q (pbind p k) t m.
Proof. apply safe_pbind. Qed.

Lemma covers_pmap_err {E F A} Q (f : E → F) (p : prog (machine W) (res E A)) t m :
  covers (λ r, Q (map_err f r)) p t m → covers Q (pmap_err f p) t m.
Proof. apply safe_pmap_err. Qed.

Lemma covers_ret {A} Q (a : A) t m : Q a t m → covers Q (Ret a) t m.
Proof. done. Qed.

Lemma covers_reads {X} Q (f : MemoryRunStore → X) t m0 :
  (∀ m, reachable (Machine.store m) → grows_to m0 m → Q (f (Machine.store m)) t m) →
  covers Q (reads f) t m0.
Proof.
  intros HQ. apply safe_call. intros m Hm Hr. exists t. split; [by apply stays|].
  apply HQ; [apply Hm|done].
Qed.

(** A call that uses what it has the tokens for. *)
Lemma covers_spends {X} Q (f : W → X * W) t t' m0 :
  (∀ w e, spent (f w).2 e + t' e ≤ spent w e + t e)%N →
  (∀ w m, grows_to m0 m → Q (f w).1 t' m) →
  covers Q (asks f) t m0.
Proof.
  intros Hf HQ. apply safe_call. intros m Hm Hr. specialize (Hf (Machine.world m)).
  specialize (HQ (Machine.world m)). destruct (f (Machine.world m)) as [x w] eqn:Hw. cbn in *.
  exists t'. split; [|by apply HQ].
  apply allowed_intro; [done|apply la_same|]. intros e. unfold used, announced. cbn.
  specialize (Hf e). lia.
Qed.

Lemma covers_asks {X} Q (f : W → X * W) t m0 :
  leaves spent f → (∀ w m, grows_to m0 m → Q (f w).1 t m) → covers Q (asks f) t m0.
Proof. intros Hf. apply covers_spends. intros w e. rewrite Hf. lia. Qed.

(** An append that announces nothing. *)
Lemma covers_writes Q f expected event t m0 :
  (∀ self commit self', f self = Ok (commit, self') → commits self expected event commit self') →
  (∀ e, marks e (RunEvent.body event) = false) →
  (∀ r m, grows_to m0 m → Q r t m) →
  covers Q (writes f) t m0.
Proof.
  intros Hf Hno HQ. apply safe_call. intros m [Hre HK] Hr. exists t.
  destruct (f (Machine.store m)) as [[commit s]|e|why] eqn:Hfs; cbn;
    [|split; [by apply stays|by apply HQ]..].
  apply Hf in Hfs. destruct (commit_counts marks _ _ _ _ _ Hre Hfs) as (Hcount & _ & Hre').
  assert (grows_to m (Machine.set_store s m)) as Hg by (eapply la_commits; [apply la_same|done]).
  assert (∀ e, marked marks e (M.records s) = marked marks e (M.records (Machine.store m))) as Hsame.
  { intros e. rewrite Hcount, Hno. lia. }
  split; [|apply HQ; by etrans]. apply allowed_intro; [split; cbn; [done|]|done|];
    intros e; unfold used, announced; cbn; rewrite Hsame; [done|lia].
Qed.

(** What the record of a body is credit for. *)
Definition credit_for (body : RunEventBody) : tokens := λ e, if marks e body then 1%N else 0%N.

(** The append that announces a use, for a client that has seen the state and found the journal
    within its bounds. *)
Lemma covers_start Q f state event m0 :
  (∀ self commit self', f self = Ok (commit, self') →
     commits self (ExpectedHead.from_state state) event commit self') →
  seen state (Machine.store m0) →
  (∀ e records, marks e (RunEvent.body event) = true → replay records = Ok state →
     within (marked marks e records + 1)) →
  (∀ r t m, grows_to m0 m → (∀ a, r = Ok a → t = credit_for (RunEvent.body event)) → Q r t m) →
  covers Q (writes f) no_tokens m0.
Proof.
  intros Hf Hseen Hlt HQ. apply safe_call. intros m [Hre HK] Hr.
  destruct (f (Machine.store m)) as [[commit s]|er|why] eqn:Hfs; cbn;
    [|exists no_tokens; split; [by apply stays|by apply HQ]..].
  apply Hf in Hfs. destruct (commit_counts marks _ _ _ _ _ Hre Hfs) as (Hcount & _ & Hre').
  pose proof (seen_commit _ _ _ _ _ (seen_later _ _ _ Hseen Hr) Hfs) as Hproj.
  pose proof (projection_replays _ _ (reachable_inv _ Hre) Hproj) as Hrep.
  assert (grows_to m (Machine.set_store s m)) as Hg by (eapply la_commits; [apply la_same|done]).
  exists (credit_for (RunEvent.body event)). split; [|apply HQ; [by etrans|done]].
  apply allowed_intro; [split; cbn; [done|]|done|]; intros e; unfold used, announced, credit_for; cbn;
    rewrite Hcount.
  - destruct (marks e (RunEvent.body event)) eqn:Hm; [by eapply Hlt|]. by rewrite N.add_0_r.
  - unfold no_tokens. destruct (marks e (RunEvent.body event)); lia.
Qed.

(** Programs one after another, when nothing is concluded. *)
Lemma covers_then {A B} (p : prog (machine W) A) (k : A → prog (machine W) B) m :
  covers anything p no_tokens m → (∀ a m', covers anything (k a) no_tokens m') →
  covers anything (bind p k) no_tokens m.
Proof. apply (safe_then bounded grows_to announced used). Qed.

Lemma covers_pthen {E A B} (p : prog (machine W) (res E A)) (k : A → prog (machine W) (res E B)) m :
  covers anything p no_tokens m → (∀ a m', covers anything (k a) no_tokens m') →
  covers anything (pbind p k) no_tokens m.
Proof. intros Hp Hk. apply covers_then; [done|]. intros [a|e|why] m'; [apply Hk|done..]. Qed.

Lemma covers_err {E F A} (f : E → F) (p : prog (machine W) (res E A)) m :
  covers anything p no_tokens m → covers anything (pmap_err f p) no_tokens m.
Proof. intros Hp. by apply covers_then. Qed.

(** What a program leaves when it runs alone. *)
Lemma covers_run {A} (p : prog (machine W) A) m :
  bounded m → covers anything p no_tokens m →
  bounded (run p m).2 ∧ grows_to m (run p m).2 ∧
  ∀ e, (used (run p m).2 e + announced m e ≤ used m e + announced (run p m).2 e)%N.
Proof.
  intros Hm Hp. destruct (safe_run _ _ _ _ _ _ _ Hm Hp) as (Hinv & Hr & Hle). split_and!; [done..|].
  intros e. specialize (Hle e). unfold no_tokens in Hle. lia.
Qed.

(** Reading and asking, when nothing is concluded. *)
Lemma covers_reads_any {X} (f : MemoryRunStore → X) (Q : X → tokens → machine W → Prop) t m0 :
  (∀ x m, Q x t m) → covers Q (reads f) t m0.
Proof. intros HQ. apply covers_reads. auto. Qed.
Lemma covers_asks_any {X} (f : W → X * W) (Q : X → tokens → machine W → Prop) t m0 :
  leaves spent f → (∀ x m, Q x t m) → covers Q (asks f) t m0.
Proof. intros Hf HQ. apply covers_asks; [done|]. auto. Qed.
End rules.

Arguments covers : simpl never.

Abbreviation performed := (used executions).

(** Walk through a program that announces nothing: [pbind]s, checks and pure matches. *)
Ltac announce_step :=
  match goal with
  | |- covers _ _ _ _ (pbind _ _) _ _ => apply covers_pbind
  | |- covers _ _ _ _ (pmap_err _ _) _ _ => apply covers_pmap_err
  | |- covers _ _ _ _ (bind _ _) _ _ => apply covers_bind
  | |- covers _ _ _ _ (Ret _) _ _ => apply covers_ret
  | |- covers _ _ _ _ (match ?c with _ => _ end) _ _ => destruct c eqn:?
  | |- covers _ _ _ anything _ _ _ => assumption
  | |- anything _ _ _ => exact I
  | |- match map_err _ ?r with _ => _ end => destruct r as [?|?|?]; cbn [map_err]
  | |- match ?r with _ => _ end => destruct r as [?|?|?]; cbn [map_err]
  end.
Ltac announce := repeat announce_step.

(** What a runtime program concludes from its own calls while other clients append: the states
    it has seen, and the state its own commit produced. *)

Section tracking.
Context {W : Type} `{Crypto} `{ReceiptSchema} `{Rfc3339}.

(** [p] ends in [Q], and all it does to the store itself is append, when [Rely] is all that
    happens to the machine between two of its steps: appends of other clients ([grows_to]), or
    nothing ([eq]). *)
Section rules.
Context (Rely : machine W → machine W → Prop).

Fixpoint follows {A} (Q : A → machine W → Prop) (p : prog (machine W) A) (m0 : machine W) : Prop :=
  match p with
  | Ret a => Q a m0
  | Step f k => ∀ m, reachable (Machine.store m) → Rely m0 m →
      let '(x, m') := f m in
      reachable (Machine.store m') ∧ grows_to m m' ∧ follows Q (k x) m'
  end.

Lemma follows_bind {A B} Q (p : prog (machine W) A) (k : A → prog (machine W) B) m :
  follows (λ a, follows Q (k a)) p m → follows Q (bind p k) m.
Proof.
  revert m. induction p as [a|X f j IH]; intros m0; cbn; [done|].
  intros Hs m Hm Hr. specialize (Hs m Hm Hr). destruct (f m) as [x m'].
  destruct Hs as (? & ? & Hs). auto.
Qed.

Lemma follows_weaken {A} (Q Q' : A → machine W → Prop) (p : prog (machine W) A) m :
  (∀ a m', Q a m' → Q' a m') → follows Q p m → follows Q' p m.
Proof.
  intros HQ. revert m. induction p as [a|X f j IH]; intros m0; cbn; [apply HQ|].
  intros Hs m Hm Hr. specialize (Hs m Hm Hr). destruct (f m) as [x m'].
  destruct Hs as (? & ? & Hs). auto.
Qed.

Lemma follows_pbind {E A B} Q (p : prog (machine W) (res E A)) (k : A → prog (machine W) (res E B)) m :
  follows (λ r m', match r with
                   | Ok a => follows Q (k a) m'
                   | Err e => Q (Err e) m'
                   | Panic why => Q (Panic why) m'
                   end) p m →
  follows Q (pbind p k) m.
Proof. intros Hp. apply follows_bind. eapply follows_weaken; [|exact Hp]. by intros []. Qed.

Lemma follows_pmap_err {E F A} Q (f : E → F) (p : prog (machine W) (res E A)) m :
  follows (λ r, Q (map_err f r)) p m → follows Q (pmap_err f p) m.
Proof. intros Hp. apply follows_bind. by eapply follows_weaken; [|exact Hp]. Qed.

Lemma follows_ret {A} (Q : A → machine W → Prop) a m : Q a m → follows Q (Ret a) m.
Proof. done. Qed.

Lemma follows_reads {X} Q (f : MemoryRunStore → X) m0 :
  (∀ m, reachable (Machine.store m) → Rely m0 m → Q (f (Machine.store m)) m) →
  follows Q (reads f) m0.
Proof. intros HQ m Hm Hr. split_and!; [done|apply la_same|by apply HQ]. Qed.

Lemma follows_asks {X} Q (f : W → X * W) m0 :
  (∀ m, reachable (Machine.store m) → Rely m0 m →
     Q (f (Machine.world m)).1 (Machine.mk (Machine.store m) (f (Machine.world m)).2)) →
  follows Q (asks f) m0.
Proof.
  intros HQ m Hm Hr. specialize (HQ m Hm Hr).
  destruct (f (Machine.world m)) as [x w]. split_and!; [done|apply la_same|done].
Qed.

Lemma follows_writes Q f expected event m0 :
  (∀ self commit self', f self = Ok (commit, self') → commits self expected event commit self') →
  (∀ m commit self', reachable (Machine.store m) → Rely m0 m →
     f (Machine.store m) = Ok (commit, self') → Q (Ok commit) (Machine.set_store self' m)) →
  (∀ e m, Rely m0 m → Q (Err e) m) →
  (∀ why m, reachable (Machine.store m) → Rely m0 m → f (Machine.store m) = Panic why → Q (Panic why) m) →
  follows Q (writes f) m0.
Proof.
  intros Hf HQ HE HP m Hre Hg.
  destruct (f (Machine.store m)) as [[commit s]|e|why] eqn:Hfs;
    [|split_and!; [done|apply la_same|by apply HE]|split_and!; [done|apply la_same|by eapply HP]].
  pose proof (Hf _ _ _ Hfs) as Hco.
  split_and!; [by eapply re_commits|by eapply la_commits; [apply la_same|]|by eapply HQ].
Qed.

(** A program that runs alone ends in its postcondition, on a store it only appended to. *)
Lemma follows_run {A} (Q : A → machine W → Prop) (p : prog (machine W) A) m :
  Reflexive Rely → reachable (Machine.store m) → follows Q p m →
  Q (run p m).1 (run p m).2 ∧ reachable (Machine.store (run p m).2) ∧ grows_to m (run p m).2.
Proof.
  intros Hrefl. revert m.
  induction p as [a|X f k IH]; intros m Hm; cbn; [intros HQ; split_and!; [done..|apply la_same]|].
  intros Hp. specialize (Hp m Hm (Hrefl _)). destruct (f m) as [x m'].
  destruct Hp as (Hre & Hg & Hp). destruct (IH x m' Hre Hp) as (HQ & Hre' & Hg').
  split_and!; [done..|]. unfold grows_to in *. by etrans.
Qed.
End rules.

(** ** Commits *)

(** What a commit against a seen state says: the state was current, and the new one is its
    successor by the event. *)
Record successor (state : RunState) (event : RunEvent) (commit : Commit) (self' : MemoryRunStore) : Prop := {
  su_inv : run_inv state;
  su_reachable : reachable self';
  su_projection : M.projection self' = Some (Commit.state commit);
  su_event : EventRecord.event (Commit.record commit) = event;
  su_applied : apply_record (Some state) (Commit.record commit) = Ok (Commit.state commit);
}.

Lemma seen_successor state self event commit self' :
  reachable self → seen state self →
  commits self (ExpectedHead.from_state state) event commit self' →
  successor state event commit self'.
Proof.
  intros Hre Hseen Hco. pose proof (reachable_inv _ Hre) as Hinv.
  pose proof (seen_commit _ _ _ _ _ Hseen Hco) as Hproj.
  destruct (commits_inv _ _ _ _ _ Hinv Hco) as [Hinv' [Hp _ Hproj' _ _]].
  apply prepare_commit_Ok in Hp as (_ & _ & _ & Hevent & Happ).
  rewrite (si_state _ Hinv), Hproj in Happ.
  split; [exact (store_inv_run_inv _ _ Hinv Hproj)|by eapply re_commits|done..].
Qed.

(** The steps a commit writes. *)
Lemma successor_steps state event commit self' :
  successor state event commit self' →
  ∃ s1, RunState.steps (Commit.state commit) = RunState.steps s1 ∧ stepped state (RunEvent.body event) s1.
Proof.
  intros [Hinv _ _ Hevent Happ].
  destruct (apply_record_some _ _ _ Hinv Happ) as (_ & _ & _ & s1 & Hb & Es & _).
  rewrite Hevent in Hb. exists s1. split; [done|]. by apply apply_body_stepped.
Qed.

(** A lifecycle event moves its step along the step machine. *)
Lemma successor_lifecycle state event commit self' id :
  successor state event commit self' → lifecycle_step (RunEvent.body event) = Some id →
  ∃ st st', RunState.steps state !! id = Some st ∧ lifecycle (RunEvent.body event) st st' ∧
    RunState.steps (Commit.state commit) = <[id := st']> (RunState.steps state).
Proof.
  intros Hsu Hid. destruct (successor_steps _ _ _ _ Hsu) as (s1 & Es & Hs).
  destruct Hs as [Hl _|j ob deps Hb _ _|d plan Hb _ _ _|j a st Hb _ _|j st st' Hj Hst Hlc E];
    [by destruct (RunEvent.body event)|rewrite Hb in Hid; done..|].
  exists st, st'. simplify_eq. by rewrite Es, E.
Qed.

End tracking.

Arguments follows : simpl never.
