(* ===== verification/RuntimeSafety.v ===== *)
(** The runtime's programs are covered in the logic of [MachineLogic], for any resource that only
    the start of an execution is credit for, so any number of them may run, interleave and die. *)

From S2P Require Import Prelude Program Text Wire Domain Resolution Broker Registry Router.
From S2P Require Import DomainWire WorkGraphTypes WorkGraphErrors Planning Material ToolOutput.
From S2P Require Import Completion Journal StepMachine Reducer RunInvariant Receipt StoreTypes.
From S2P Require Import StoreBundles MemoryStore Host Invocation Admission Recovery Adapters.
From S2P Require Import DurableRuntime Verification Executor Attempts StoreSpec StoreProofs.
From S2P Require Import StoreRuns StoreTheorems MachineLogic.

Section shared.
Context {W : Type} `{Crypto} `{ReceiptSchema} `{Rfc3339}.

(** The loads of a store appends built. *)
Lemma load_current_projection self : load_current self = Ok (M.projection self).
Proof. done. Qed.

(** The six kinds of append are commits. *)
Lemma plain_commits expected event self commit self' :
  append self expected event = Ok (commit, self') → commits self expected event commit self'.
Proof. apply co_plain. Qed.
Lemma material_commits expected event x self commit self' :
  append_with_invocation_material self expected event x = Ok (commit, self') →
  commits self expected event commit self'.
Proof. apply co_material. Qed.
Lemma output_commits expected event x self commit self' :
  append_with_tool_output self expected event x = Ok (commit, self') →
  commits self expected event commit self'.
Proof. apply co_output. Qed.
Lemma receipt_commits expected event x self commit self' :
  append_with_execution_receipt self expected event x = Ok (commit, self') →
  commits self expected event commit self'.
Proof. apply co_receipt. Qed.

End shared.

(** ** What the runtime's collaborators do with a resource *)

(** The events the agent loop appends, the one that comes before a planner call, and the one that
    comes before an execution. *)
Definition agent_event (body : RunEventBody) : bool :=
  loop_event body || match body with RunEventBody.PlanAccepted _ _ => true | _ => false end.
Definition is_reservation (body : RunEventBody) : bool :=
  match body with RunEventBody.ModelCallReserved _ => true | _ => false end.
Definition is_start (body : RunEventBody) : bool :=
  match body with RunEventBody.EffectExecutionStarted _ _ => true | _ => false end.

(** Only an execution of an invocation prepared for an effect spends, and then what the start of
    the effect is credit for. *)
Record runtime_spares {W A I V P} `{Crypto} `{EventFactory W} `{EffectAdapter W A I}
    `{EffectVerifier W V} `{InvocationMaterialProvider W P} (spent : W → tokens) (marks : string → RunEventBody → bool)
    (within : N → Prop) (may_start : RuntimePolicy → Prop) (performs : I → string → Prop) : Prop := {
  rs_event e body : agent_event body = false → is_start body = false → marks e body = false;
  rs_within policy state step (id : string) intent step_id e records :
    may_start policy → RunState.steps state !! id = Some step → StepState.intent step = Some intent →
    (StepState.attempts step < RuntimePolicy.max_execution_attempts policy)%N → replay records = Ok state →
    marks e (RunEventBody.EffectExecutionStarted step_id (EffectIntent.effect_id intent)) = true →
    within (marked marks e records + 1)%N;
  rs_metadata state : leaves spent (create_metadata state);
  rs_prepare (adapter : A) request : leaves spent (adapter_prepare adapter request);
  rs_prepared (adapter : A) request w invocation w' :
    adapter_prepare adapter request w = (Ok invocation, w') →
    performs invocation (EffectIntent.effect_id (AdapterPrepareRequest.intent request));
  rs_execute invocation step_id effect_id w e : performs invocation effect_id →
    (spent (invocation_execute invocation w).2 e
     ≤ spent w e + credit_for marks (RunEventBody.EffectExecutionStarted step_id effect_id) e)%N;
  rs_reconcile (adapter : A) request : leaves spent (adapter_reconcile adapter request);
  rs_verify (verifier : V) request : leaves spent (verify verifier request);
  rs_reconstruct (provider : P) reference revision : leaves spent (reconstruct provider reference revision);
}.

(** ** The durable runtime *)

Section durable.
Context {W L E P : Type} `{EffectSink W E P} `{EventFactory W}.
Context `{RunLease L} `{PreparedEffect P} `{Crypto} `{ReceiptSchema} `{Rfc3339}.
Context (spent : W → tokens) (marks : string → RunEventBody → bool) (within : N → Prop).
Context (may_start : RuntimePolicy → Prop) (performs_for : P → string → Prop).
Context (unmarked : ∀ e body, agent_event body = false → is_start body = false → marks e body = false).
Context (granted : ∀ policy state step (id : string) intent step_id e records,
  may_start policy → RunState.steps state !! id = Some step → StepState.intent step = Some intent →
  (StepState.attempts step < RuntimePolicy.max_execution_attempts policy)%N → replay records = Ok state →
  marks e (RunEventBody.EffectExecutionStarted step_id (EffectIntent.effect_id intent)) = true →
  within (marked marks e records + 1)%N).
Context (metadata_leaves : ∀ state, leaves spent (create_metadata state)).
Context (execute_spends : ∀ sink intent prepared step_id w e,
  performs_for prepared (EffectIntent.effect_id intent) →
  (spent (sink_execute sink intent prepared w).2 e
   ≤ spent w e
     + credit_for marks (RunEventBody.EffectExecutionStarted step_id (EffectIntent.effect_id intent)) e)%N).
Context (reconcile_leaves : ∀ sink intent, leaves spent (sink_reconcile sink intent)).
Abbreviation covered := (covers (W := W) spent marks within).

Lemma next_metadata_covers state Q t m :
  (∀ r m', grows_to m m' → Q r t m') → covered Q (next_metadata state) t m.
Proof.
  intros HQ. unfold next_metadata. apply covers_pbind, covers_pmap_err, covers_asks.
  { apply metadata_leaves. }
  intros w m' Hm'. destruct (create_metadata state w).1 as [md|?|?]; cbn [map_err]; [|by apply HQ..].
  destruct (map_err _ (EventMetadata_validate md)); apply covers_ret; by apply HQ.
Qed.

Lemma append_event_covers state body Q t m :
  (∀ e, marks e body = false) → (∀ r m', grows_to m m' → Q r t m') →
  covered Q (append_event state body) t m.
Proof.
  intros Hno HQ. unfold append_event. apply covers_pbind, next_metadata_covers.
  intros [md|?|?] m' Hm'; [|by apply HQ..]. apply covers_pmap_err.
  eapply covers_writes; [by apply plain_commits|done|]. intros r m'' Hm''. apply HQ. by etrans.
Qed.

Lemma commit_report_covers state body action t m :
  (∀ e, marks e body = false) → covered anything (commit_report state body action) t m.
Proof.
  intros Hno. unfold commit_report. apply covers_pbind, append_event_covers; [done|].
  intros [c|?|?] m' _; done.
Qed.

Lemma commit_output_covers state body action output t m :
  (∀ e, marks e body = false) →
  covered anything (commit_tool_output_report state body action output) t m.
Proof.
  intros Hno. unfold commit_tool_output_report. apply covers_pbind, next_metadata_covers.
  intros [md|?|?] m' _; [|done..]. apply covers_pbind, covers_pmap_err.
  eapply covers_writes; [by apply output_commits|done|]. by intros [?|?|?].
Qed.

(** An observation commits no start. *)
Lemma classified_body started step intent required observation pending :
  classify_execution_observation started step intent required observation = Ok pending →
  agent_event (PendingExecutionCommit.body pending) = false ∧ is_start (PendingExecutionCommit.body pending) = false.
Proof.
  destruct observation; cbn [classify_execution_observation]; intros Hc; repeat res_step;
    try done; try by destruct required.
  unfold classify_output_success in Hc. repeat res_step; try done.
  destruct required; cbn in *; [|by simplify_eq].
  destruct (ToolOutputRecord_new _ _ _ _ _ _); by simplify_eq.
Qed.

Lemma reconciled_body step intent observation outcome :
  classify_reconciliation step intent observation = Ok outcome →
  agent_event outcome.1 = false ∧ is_start outcome.1 = false.
Proof. destruct observation; cbn; intros Hc; by repeat res_step. Qed.

Lemma execute_intent_covers policy sink state step prepared m :
  may_start policy → seen state (Machine.store m) → (∃ id, RunState.steps state !! id = Some step) →
  (∀ p e, prepared = Some p → PreparedEffectBinding.effect_id (prepared_binding p) = e → performs_for p e) →
  covered anything (execute_intent policy sink state step prepared) no_tokens m.
Proof.
  intros Hmay Hseen [id Hst] Hprep. unfold execute_intent, require_intent.
  destruct (StepState.intent step) as [intent|] eqn:Hi; cbn [ok_or]; [|done].
  case_bool_decide as Hlim; [done|]. destruct prepared as [p|]; cbn [ok_or]; [|done].
  destruct (verify_prepared_invocation _ _ _ _) as [u|?|?] eqn:Hv; [|done..].
  assert (performs_for p (EffectIntent.effect_id intent)) as Hp.
  { apply Hprep; [done|]. unfold verify_prepared_invocation in Hv. repeat res_step. by bool_inv. }
  apply covers_pbind, covers_pmap_err, covers_reads. intros m1 _ Hm1.
  destruct (load_invocation_material _ _) as [record|?|?]; cbn [map_err]; [|done..].
  destruct record as [record|]; cbn [ok_or]; [|done]. case_bool_decide; [done|].
  apply covers_pbind. unfold append_event.
  apply covers_pbind, next_metadata_covers. intros [md|?|?] m2 Hm2; [|done..].
  apply covers_pmap_err. eapply covers_start; [by apply plain_commits| | |].
  - eapply seen_later; [done|]. unfold grows_to in *. by etrans.
  - intros e records He Hr. eapply granted; [done..| |done|exact He]. lia.
  - intros [started|?|?] t m3 Hm3 Ht; cbn [map_err]; [|done..]. specialize (Ht _ eq_refl) as ->.
    apply covers_bind. eapply (covers_spends _ _ _ _ _ _ no_tokens).
    + intros w e. unfold no_tokens. rewrite N.add_0_r. by apply execute_spends.
    + intros w m4 Hm4.
      destruct (classify_execution_observation _ _ _ _ _) as [pending|?|?] eqn:Hc; [|done..].
      destruct (classified_body _ _ _ _ _ _ Hc).
      destruct (PendingExecutionCommit.output pending);
        [apply commit_output_covers|apply commit_report_covers]; intros e; by apply unmarked.
Qed.

Lemma finish_reconciliation_covers sink state step t m :
  covered anything (finish_reconciliation (P := P) sink state step) t m.
Proof.
  unfold finish_reconciliation, require_intent.
  destruct (StepState.intent step) as [intent|]; cbn [ok_or]; [|done].
  destruct (negb _); [apply commit_report_covers; intros e; by apply unmarked|].
  apply covers_pbind, covers_pmap_err, covers_asks_any.
  { apply reconcile_leaves. }
  intros [observation|[]|?] m'; cbn [map_err]; [|done].
  destruct (classify_reconciliation _ _ _) as [outcome|?|?] eqn:Hc; [|done..].
  apply commit_report_covers. intros e. destruct (reconciled_body _ _ _ _ Hc). by apply unmarked.
Qed.

Lemma begin_reconciliation_covers sink state step t m :
  covered anything (begin_reconciliation (P := P) sink state step) t m.
Proof.
  unfold begin_reconciliation, require_intent.
  destruct (StepState.intent step) as [intent|]; cbn [ok_or]; [|done].
  destruct (negb _); [apply commit_report_covers; intros e; by apply unmarked|].
  apply covers_pbind, append_event_covers; [intros e; by apply unmarked|].
  intros [commit|?|?] m' _; [|done..]. destruct (ok_or _ _) as [step'|?|?]; [|done..].
  apply finish_reconciliation_covers.
Qed.

Lemma durable_covers policy sink lease step_id prepared m :
  may_start policy →
  (∀ p e, prepared = Some p → PreparedEffectBinding.effect_id (prepared_binding p) = e → performs_for p e) →
  covered anything (DurableRuntime.drive_step policy sink lease step_id prepared) no_tokens m.
Proof.
  intros HK Hprep. unfold DurableRuntime.drive_step.
  apply covers_pbind, covers_pmap_err, covers_reads. intros m1 Hre Hm1.
  rewrite load_current_projection. cbn [map_err].
  destruct (M.projection (Machine.store m1)) as [state|] eqn:Hs; cbn [ok_or]; [|done].
  destruct (DurableRuntime.verify_lease lease state) as [u|?|?]; [|done..].
  destruct (RunState.steps state !! step_id) as [step|] eqn:Hst; cbn [ok_or]; [|done].
  destruct (StepState.status step); try done.
  - apply execute_intent_covers; [done|by apply seen_now|by exists step_id|done].
  - unfold mark_recovered_execution_unknown. destruct (require_intent step); [|done..].
    apply commit_report_covers. intros e. by apply unmarked.
  - apply begin_reconciliation_covers.
  - apply finish_reconciliation_covers.
Qed.
End durable.

(** ** The executor *)

Section executor.
Context {W L A I V P : Type} `{EventFactory W} `{EffectAdapter W A I} `{EffectVerifier W V}.
Context `{InvocationMaterialProvider W P} `{RunLease L} `{Crypto} `{JsonSchema} `{Target}.
Context `{ReceiptSchema} `{Rfc3339}.
Context (spent : W → tokens) (marks : string → RunEventBody → bool) (within : N → Prop).
Context (may_start : RuntimePolicy → Prop) (performs : I → string → Prop).
Context (law : runtime_spares (A := A) (V := V) (P := P) spent marks within may_start performs).
Abbreviation covered := (covers (W := W) spent marks within).

Lemma drive_durable_covers policy sink lease step_id prepared m :
  may_start policy →
  (∀ p, prepared = Some p → performs (CorePreparedEffect.invocation p)
                        (PreparedEffectBinding.effect_id (CorePreparedEffect.binding p))) →
  covered anything (drive_durable policy sink lease step_id prepared) no_tokens m.
Proof.
  intros HK Hprep. unfold drive_durable. apply covers_pmap_err.
  eapply covers_weaken; [|eapply (durable_covers _ _ _ may_start
    (λ p e, performs (CorePreparedEffect.invocation p) e))]; [done|apply law..| | |done|].
  - intros sk intent p id w e Hp. cbn. unfold DirectSink_execute.
    pose proof (rs_execute _ _ _ _ _ law (CorePreparedEffect.invocation p) id _ w e Hp) as Ho.
    by destruct (invocation_execute _ w).
  - intros sk intent w e. cbn. unfold DirectSink_reconcile.
    destruct (DirectSink.adapter sk) as [a|], (DirectSink.reconciliation_instance sk) as [i|]; [|done..].
    pose proof (rs_reconcile _ _ _ _ _ law a (AdapterReconcileRequest.mk intent i) w e) as Hr.
    by destruct (adapter_reconcile a _ w).
  - intros p e Hp <-. by apply Hprep.
Qed.

Lemma drive_without_adapter_covers policy lease step_id m :
  may_start policy →
  covered anything (drive_without_adapter policy lease step_id) no_tokens m.
Proof. intros HK. by apply drive_durable_covers. Qed.

Lemma verify_material_covers state step_id intent record arguments Q t m :
  (∀ r m', Q r t m') → covered Q (verify_material state step_id intent record arguments) t m.
Proof.
  intros HQ. unfold verify_material. destruct (map_err _ _); [|by apply HQ..].
  apply covers_pbind, covers_pmap_err, covers_reads. intros m1 _ _.
  destruct (load_invocation_material _ _) as [r|?|?]; cbn [map_err]; [|by apply HQ..].
  destruct (ok_or r _); [|by apply HQ..]. case_bool_decide; [by apply HQ|].
  destruct (map_err _ _); [|by apply HQ..]. case_bool_decide; by apply HQ.
Qed.

Lemma drive_committed_covers policy lease capabilities adapters state step step_id material m :
  may_start policy →
  covered anything
    (drive_committed policy lease capabilities adapters state step step_id material) no_tokens m.
Proof.
  intros HK. unfold drive_committed.
  destruct (StepState.intent step) as [intent|]; cbn [ok_or]; [|done].
  destruct (verify_receipt_provenance intent); [|done..]. case_bool_decide; [done|].
  destruct material as [material|]; cbn [ok_or]; [|done].
  apply covers_pbind, verify_material_covers. intros [u|?|?] m1; [|done..].
  destruct (verify_current_instance capabilities intent) as [instance|?|?]; [|done..].
  destruct (verify_dynamic_execution_gate instance); [|done..].
  destruct (build_tool_output_validator capabilities intent) as [validator|?|?]; [|done..].
  destruct (find_adapter adapters instance) as [[key adapter]|?|?]; [|done..].
  apply covers_pbind, covers_pmap_err.
  set (request := AdapterPrepareRequest.mk _ _ _).
  apply covers_asks; [apply (rs_prepare _ _ _ _ _ law)|]. intros w m2 _.
  destruct (adapter_prepare adapter request w) as [[invocation|?|?] w'] eqn:Hp; cbn [fst map_err]; [|done..].
  apply drive_durable_covers; [done|]. intros p [= <-]. by apply (rs_prepared _ _ _ _ _ law) in Hp.
Qed.

Lemma drive_uncertain_covers policy lease capabilities adapters step step_id m :
  may_start policy →
  covered anything (drive_uncertain policy lease capabilities adapters step step_id) no_tokens m.
Proof.
  intros HK. unfold drive_uncertain. destruct (ok_or _ _) as [intent|?|?]; [|done..].
  destruct (verify_receipt_provenance intent); [|done..].
  destruct (negb _); [by apply drive_without_adapter_covers|].
  destruct (verify_current_instance _ _); [|done..]. destruct (verify_dynamic_execution_gate _); [|done..].
  destruct (find_adapter _ _); [|done..]. by apply drive_durable_covers.
Qed.

Lemma executor_covers policy lease capabilities adapters step_id material m :
  may_start policy →
  covered anything (Executor.drive_step policy lease capabilities adapters step_id material) no_tokens m.
Proof.
  intros HK. unfold Executor.drive_step.
  apply covers_pbind, covers_pmap_err, covers_reads_any. intros [state|?|?] m1; [|done..].
  cbn [map_err]. destruct (ok_or state _) as [s|?|?]; [|done..].
  destruct (Executor.verify_lease lease s); [|done..].
  destruct (ok_or _ _) as [step|?|?]; [|done..].
  destruct (StepState.status step); try by apply drive_without_adapter_covers.
  - by apply drive_committed_covers.
  - by apply drive_uncertain_covers.
  - by apply drive_uncertain_covers.
Qed.
End executor.

(** ** Admission, recovery and verification: nothing is spent *)

Section others.
Context {W L A I V P R : Type} `{EventFactory W} `{EffectAdapter W A I} `{EffectVerifier W V}.
Context `{InvocationMaterialProvider W P} `{RunLease L} `{Crypto} `{JsonSchema} `{JsonPointer}.
Context `{PolicyDecisionSchema} `{Target} `{ReceiptSchema} `{Rfc3339} `{ResourceResolver R}.
Context (spent : W → tokens) (marks : string → RunEventBody → bool) (within : N → Prop).
Context (may_start : RuntimePolicy → Prop) (performs : I → string → Prop).
Context (law : runtime_spares (A := A) (V := V) (P := P) spent marks within may_start performs).
Abbreviation covered := (covers (W := W) spent marks within).

Lemma load_admission_covers Q t (m : machine W) :
  (∀ r m', Q r t m') → covered Q load_admission_state t m.
Proof.
  intros HQ. unfold load_admission_state.
  apply covers_pbind, covers_pmap_err, covers_reads_any. by intros [s|?|?] m1; apply HQ.
Qed.

Lemma planned_sidecar_covers state step_id Q t (m : machine W) :
  (∀ r m', Q r t m') → covered Q (verify_planned_input_sidecar state step_id) t m.
Proof.
  intros HQ. unfold verify_planned_input_sidecar. destruct (find_step state step_id) as [step|?|?]; [|by apply HQ..].
  destruct (StepState.planned_invocation step); [|by apply HQ].
  apply covers_pbind, covers_pmap_err, covers_reads_any. intros [x|?|?] m1; [|by apply HQ..].
  cbn [map_err]. destruct (ok_or x _); [|by apply HQ..]. destruct (map_err _ _); by apply HQ.
Qed.

Lemma prepare_covers (lease : L) registry (resolver : R) request t (m : machine W) :
  covered anything (prepare lease registry resolver request) t m.
Proof.
  unfold prepare. apply covers_pbind, load_admission_covers. intros [state|?|?] m1; [|done..].
  destruct (Admission.verify_lease lease state); [|done..].
  destruct (require_admission_ready_step _ _); [|done..].
  destruct (verify_unplanned_read_only_boundary _ _ _ _); [|done..].
  destruct (verify_planned_route_binding _ _ _); [|done..].
  destruct (verify_planned_definition_binding _ _ _); [|done..].
  apply covers_pbind, planned_sidecar_covers. intros [input|?|?] m2; [|done..]. announce.
Qed.

Lemma authorize_covers (pending : PendingInvocation) inputs registry (lease : L) t (m : machine W) :
  covered anything (authorize_and_commit pending inputs registry lease) t m.
Proof.
  unfold authorize_and_commit. destruct (PolicyInputs.is_managed inputs); [done|].
  apply covers_pbind, load_admission_covers. intros [state|?|?] m1; [|done..].
  destruct (Admission.verify_lease lease state); [|done..]. destruct (negb _); [done|].
  destruct (require_admission_ready_step _ _); [|done..].
  apply covers_pbind, planned_sidecar_covers. intros [input|?|?] m2; [|done..].
  destruct (verify_pending_planned_material _ _ _ _); [|done..].
  destruct (find_definition _ _) as [definition|?|?]; [|done..].
  destruct (definition_contract_digest definition); [|done..]. case_bool_decide; [done|].
  destruct (map_err _ (evaluate_bound _ _)); [|done..]. destruct (map_err _ (Router.route _ _ _)) as [route|?|?]; [|done..].
  destruct route; [|done..]. unfold commit_authorized.
  destruct (ok_or _ _) as [instance|?|?]; [|done..]. case_bool_decide; [done|].
  apply covers_pbind, covers_pmap_err, covers_asks_any; [apply (rs_metadata _ _ _ _ _ law)|].
  intros [md|?|?] m3; cbn [map_err]; [|done..]. destruct (map_err _ _); [|done..].
  destruct (issue_once_effect _ _ _ _ _ _ _) as [issued|?|?]; [|done..].
  apply covers_pbind, covers_pmap_err. eapply covers_writes; [by apply material_commits|intros e; by apply (rs_event _ _ _ _ _ law)|].
  by intros [?|?|?].
Qed.

(** Recovery asks a material provider, verification a verifier. *)

Lemma load_leased_covers (lease : L) Q t (m : machine W) :
  (∀ r m', Q r t m') → covered Q (load_leased_state lease) t m.
Proof.
  intros HQ. unfold load_leased_state.
  apply covers_pbind, covers_pmap_err, covers_reads_any. intros [s|?|?] m1; [|by apply HQ..].
  cbn [map_err]. destruct (ok_or s _); [|by apply HQ..]. destruct (verify_lease_run _ _); by apply HQ.
Qed.

Lemma reconstruct_covers (providers : MaterialProviderRegistry P) reference Q t (m : machine W) :
  (∀ r m', Q r t m') → covered Q (reconstruct_reference providers reference) t m.
Proof.
  intros HQ. unfold reconstruct_reference. destruct (MaterialProviderRegistry.provider_mut _ _); [|by apply HQ..].
  apply covers_pmap_err, covers_asks_any; [apply (rs_reconstruct _ _ _ _ _ law)|]. intros x m'. apply HQ.
Qed.

Lemma prepare_planned_covers (lease : L) registry (resolver : R)
    (providers : MaterialProviderRegistry P) request t (m : machine W) :
  covered anything (prepare_planned_admission lease registry resolver providers request) t m.
Proof.
  unfold prepare_planned_admission. apply covers_pbind, load_leased_covers.
  intros [state|?|?] m1; [|done..]. destruct (recovery_step _ _) as [step|?|?]; [|done..].
  case_bool_decide; [done|]. destruct (map_err _ (require_admission_ready_step _ _)); [|done..].
  destruct (map_err _ (verify_planned_route_binding _ _ _)); [|done..].
  destruct (map_err _ (verify_planned_definition_binding _ _ _)); [|done..].
  destruct (ok_or (StepState.planned_invocation step) _) as [b|?|?]; [|done..].
  apply covers_pbind, covers_pmap_err, covers_reads_any. intros [input|?|?] m2; [|done..].
  cbn [map_err]. destruct (ok_or input _) as [x|?|?]; [|done..]. destruct (map_err _ _); [|done..].
  apply covers_pbind, reconstruct_covers. intros [value|?|?] m3; [|done..].
  apply covers_pmap_err. eapply covers_weaken; [|apply prepare_covers]. done.
Qed.

Lemma recover_covers (lease : L) registry (resolver : R) (providers : MaterialProviderRegistry P)
    step_id t (m : machine W) :
  covered anything (recover lease registry resolver providers step_id) t m.
Proof.
  unfold recover. apply covers_pbind, load_leased_covers. intros [state|?|?] m1; [|done..].
  destruct (recovery_step _ _) as [step|?|?]; [|done..]. case_bool_decide; [done|].
  destruct (ok_or (StepState.intent step) _) as [intent|?|?]; [|done..].
  apply covers_pbind, covers_pmap_err, covers_reads_any. intros [record|?|?] m2; [|done..].
  cbn [map_err]. destruct (ok_or record _) as [x|?|?]; [|done..]. destruct (map_err _ _); [|done..].
  destruct (InvocationMaterialRecord.retention x); [done|].
  destruct (verify_recovery_catalog _ _); [|done..].
  apply covers_pbind, reconstruct_covers. by intros [value|?|?] m3.
Qed.

Lemma mark_unavailable_covers (lease : L) step_id reason t (m : machine W) :
  covered anything (mark_unavailable lease step_id reason) t m.
Proof.
  unfold mark_unavailable. apply covers_pbind, load_leased_covers. intros [state|?|?] m1; [|done..].
  destruct (recovery_step _ _) as [step|?|?]; [|done..].
  destruct (ok_or (StepState.intent step) _) as [intent|?|?]; [|done..].
  apply covers_pbind, covers_pmap_err, covers_asks_any; [apply (rs_metadata _ _ _ _ _ law)|].
  intros [md|?|?] m2; cbn [map_err]; [|done..]. apply covers_pmap_err.
  eapply covers_writes; [by apply plain_commits|intros e; by apply (rs_event _ _ _ _ _ law)|done].
Qed.

Lemma commit_verified_covers snapshot step_id verified t (m : machine W) :
  covered anything (commit_verified snapshot step_id verified) t m.
Proof.
  unfold commit_verified.
  apply covers_pbind, covers_pmap_err, covers_asks_any; [apply (rs_metadata _ _ _ _ _ law)|].
  intros [md|?|?] m1; cbn [map_err]; [|done..]. destruct (map_err _ _); [|done..].
  destruct (ok_or _ _) as [started_at|?|?]; [|done..].
  destruct (build_execution_receipt _ _ _ _ _ _) as [receipt|?|?]; [|done..].
  apply covers_pbind, covers_pmap_err. eapply covers_writes; [by apply receipt_commits|intros e; by apply (rs_event _ _ _ _ _ law)|].
  by intros [?|?|?].
Qed.

Lemma verification_covers (lease : L) capabilities (verifiers : EffectVerifierRegistry V) step_id t (m : machine W) :
  covered anything (Verification.drive_step lease capabilities verifiers step_id) t m.
Proof.
  unfold Verification.drive_step.
  apply covers_pbind, covers_pmap_err, covers_reads_any. intros [snapshot|?|?] m1; [|done..].
  cbn [map_err]. destruct (ok_or snapshot _) as [s|?|?]; [|done..].
  destruct (Verification.verify_lease lease _); [|done..]. destruct (ok_or _ _) as [step|?|?]; [|done..].
  destruct (StepState.status step); try done.
  apply covers_pbind. unfold verify_step.
  destruct (verification_request _ _ _) as [[provenance request]|?|?]; [|done..].
  destruct (find_verifier _ _) as [verifier|?|?]; [|done..].
  apply covers_pbind, covers_pmap_err, covers_asks_any; [apply (rs_verify _ _ _ _ _ law)|].
  intros [report|?|?] m2; cbn [map_err]; [|done..]. apply covers_ret.
  destruct (accept_report _ _ _); [|done..]. apply commit_verified_covers.
Qed.
End others.

(** ** Executions *)

(** An effect is performed only by an invocation prepared for it, and only its start is credit;
    within the policy's limit an effect is started at most [K] times. *)
Lemma executions_spared {W A I V P} `{Crypto} `{Executions W} `{EventFactory W} `{!PassiveFactory W}
    `{EffectAdapter W A I} `{!OneShotAdapter W A I} `{EffectVerifier W V} `{!PassiveVerifier W V}
    `{InvocationMaterialProvider W P} `{!PassiveProvider W P} (K : N) :
  runtime_spares (A := A) (V := V) (P := P) executions starts_body (λ n, n ≤ K)%N
    (λ policy, RuntimePolicy.max_execution_attempts policy ≤ K)%N (λ i e, invocation_effect i = e).
Proof.
  split.
  - by intros e [].
  - intros policy state step id intent step_id e records HK Hst Hi Hlt Hr He.
    cbn in He. apply bool_decide_eq_true_1 in He as <-. apply replay_counted in Hr.
    destruct (ct_step _ _ Hr id step (EffectIntent.effect_id intent) Hst) as [Hs _].
    { unfold effect_of. by rewrite Hi. }
    unfold marked, started in *. lia.
  - apply create_metadata_passive.
  - apply adapter_prepare_passive.
  - intros adapter request w invocation w' Hp. by eapply adapter_prepare_effect.
  - intros invocation step_id effect_id w e <-. unfold credit_for. cbn.
    pose proof (invocation_execute_once invocation w e) as Ho.
    rewrite (bool_decide_ext (invocation_effect invocation = e) (e = invocation_effect invocation)); [lia|done].
  - apply adapter_reconcile_passive.
  - apply verify_passive.
  - apply reconstruct_passive.
Qed.
