(* ===== verification/AgentSafety.v ===== *)
(** The agent loop's programs announce every planner call they make: each is covered in the logic
    of [MachineLogic], for any resource that only a reservation is credit for. *)

From S2P Require Import Prelude Program Text Wire Domain Resolution Registry Receipt DomainWire.
From S2P Require Import WorkGraphTypes WorkGraphErrors WorkGraphWire Planning Material ToolOutput.
From S2P Require Import Completion Frontier Journal StepMachine Reducer RunInvariant StoreTypes.
From S2P Require Import StoreBundles MemoryStore Host Invocation PlanningContext Proposals Agent.
From S2P Require Import Attempts StoreSpec StoreProofs StoreRuns StoreTheorems MachineLogic.
From S2P Require Import RuntimeSafety.

Lemma plan_inputs_commits `{Crypto} `{ReceiptSchema} `{Rfc3339} expected event x self commit self' :
  append_with_plan_inputs self expected event x = Ok (commit, self') →
  commits self expected event commit self'.
Proof. apply co_inputs. Qed.
Lemma completion_commits `{Crypto} `{ReceiptSchema} `{Rfc3339} expected event x self commit self' :
  append_with_completion_output self expected event x = Ok (commit, self') →
  commits self expected event commit self'.
Proof. apply co_completion. Qed.

(** What the loop's collaborators do with a resource that the reservation of a call is credit
    for. *)
Record spares {W P M} `{EventFactory W} `{PlannerPort W P} `{PlanMaterializer W M}
    (spent : W → tokens) (marks : string → RunEventBody → bool) (within : N → Prop) : Prop := {
  sp_reservation e body :
    agent_event body = true → is_reservation body = false → marks e body = false;
  sp_within e reservation n :
    marks e (RunEventBody.ModelCallReserved reservation) = true → within (n + 1)%N;
  sp_metadata state : leaves spent (create_metadata state);
  sp_materialize (materializer : M) request : leaves spent (materialize materializer request);
  sp_plan (planner : P) request reservation w e :
    ModelCallReservation.call_id reservation = PlannerCallRequest.call_id request →
    (spent (plan planner request w).2 e
     ≤ spent w e + credit_for marks (RunEventBody.ModelCallReserved reservation) e)%N;
}.

Section agent.
Context {W L R P M : Type} `{EventFactory W} `{RunLease L} `{Crypto} `{Rfc3339} `{ReceiptSchema}.
Context `{JsonSchema} `{JsonSchemaErrors} `{ResourceResolver R} `{JsonPointer} `{Target}.
Context `{PlannerPort W P} `{PlanMaterializer W M}.
Context (spent : W → tokens) (marks : string → RunEventBody → bool) (within : N → Prop).
Context (law : spares (P := P) (M := M) spent marks within).
Abbreviation covered := (covers (W := W) spent marks within).

Lemma create_event_covers state body Q t m :
  (∀ r m', grows_to m m' → (∀ event, r = Ok event → RunEvent.body event = body) → Q r t m') →
  covered Q (create_event state body) t m.
Proof.
  intros HQ. unfold create_event. apply covers_pbind, covers_pmap_err, covers_asks.
  { apply (sp_metadata _ _ _ law). }
  intros w m' Hm'. destruct (create_metadata state w).1 as [md|?|?]; cbn [map_err]; [|by apply HQ..].
  destruct (map_err _ (EventMetadata_validate md)); apply covers_ret; apply HQ; try done.
  by intros event [= <-].
Qed.

(** The appends of the outcome of a call. *)
Lemma loop_append_covers state body Q t m :
  (∀ e, marks e body = false) → (∀ r m', Q r t m') → covered Q (append_event state body) t m.
Proof.
  intros Hno HQ. unfold append_event. apply covers_pbind, create_event_covers.
  intros [event|?|?] m' Hm' Hb; [|by apply HQ..]. apply covers_pmap_err.
  eapply covers_writes; [by apply plain_commits| |by intros; apply HQ].
  by rewrite (Hb _ eq_refl).
Qed.

Lemma unknown_covers state call_id reason Q t m :
  (∀ r m', Q r t m') → covered Q (append_model_call_unknown state call_id reason) t m.
Proof. apply loop_append_covers. intros e. by apply (sp_reservation _ _ _ law). Qed.

Lemma settled_covers state call_id settlement Q t m :
  (∀ r m', Q r t m') →
  covered Q (append_event state (RunEventBody.ModelCallSettled call_id settlement)) t m.
Proof. apply loop_append_covers. intros e. by apply (sp_reservation _ _ _ law). Qed.

Lemma conflict_covers call_id intent t m :
  covered anything (resolve_model_call_conflict call_id intent) t m.
Proof.
  unfold resolve_model_call_conflict.
  apply covers_pbind, covers_pmap_err, covers_reads_any. intros [s|?|?] m1; cbn [map_err]; [|done..].
  destruct (ok_or s _) as [current|?|?]; [|done..]. destruct (lifecycle_of current) as [calls|?|?]; [|done..].
  destruct (ok_or _ _) as [active|?|?]; [|done..]. case_bool_decide; [done|].
  destruct (ModelCallState.status active); [destruct intent|done].
  - apply covers_pbind, unknown_covers. by intros [?|?|?] m2.
  - apply covers_pbind, settled_covers. by intros [?|?|?] m2.
Qed.

Lemma settle_covers commit call_id intent tick t m :
  covered anything commit t m → covered anything (settle commit call_id intent tick) t m.
Proof.
  intros Hc. unfold settle. apply covers_bind. eapply covers_weaken; [|exact Hc].
  intros [c|error|why] t' m' _; [done| |done]. destruct (is_head_conflict error); [|done].
  apply conflict_covers.
Qed.

Lemma failure_covers state call_id failure t m :
  covered anything (record_planner_failure state call_id failure) t m.
Proof.
  unfold record_planner_failure. destruct (failure_settlement failure); apply settle_covers.
  - by apply unknown_covers.
  - by apply settled_covers.
Qed.

Lemma rejection_covers state call_id reason t m :
  covered anything (record_proposal_rejection state call_id reason) t m.
Proof. apply settle_covers. by apply settled_covers. Qed.

Lemma completion_covers base reserved frontier context call_id summary t m :
  covered anything (record_completion_candidate base reserved frontier context call_id summary) t m.
Proof.
  unfold record_completion_candidate. destruct (negb _); [apply rejection_covers|].
  destruct (validate_completion_summary_candidate summary); [|apply rejection_covers|done].
  destruct (next_turn_index base); [|done..]. destruct (map_err _ _) as [output|?|?]; [|done..].
  destruct (map_err _ (CompletionOutputRecord_decision output)) as [decision|?|?]; [|done..].
  apply covers_pbind, create_event_covers. intros [event|?|?] m1 _ Hb; [|done..].
  apply settle_covers, covers_pmap_err. eapply covers_writes; [by apply completion_commits| |done].
  intros e. rewrite (Hb _ eq_refl). by apply (sp_reservation _ _ _ law).
Qed.

Lemma materialize_covers (materializer : M) run_id digest steps Q t m :
  (∀ r m', Q r t m') → covered Q (materialize_plan materializer run_id digest steps) t m.
Proof.
  revert Q m. induction steps as [|step steps IH]; intros Q m HQ; [by apply covers_ret|].
  cbn [materialize_plan]. destruct (occurrence_profile _); [|by apply covers_ret..].
  destruct (map_err _ _) as [spec|?|?]; [|by apply covers_ret..].
  apply covers_pbind, covers_asks_any; [apply (sp_materialize _ _ _ law)|].
  intros [reference|?|?] m1; [|by apply HQ..]. destruct (map_err _ _) as [bound|?|?]; [|by apply covers_ret..].
  apply covers_pbind, IH. intros [rest|?|?] m2; [|by apply HQ..]. by apply covers_ret.
Qed.

Lemma accept_covers base reserved context call_id digest accepted inputs t m :
  covered anything (accept_plan base reserved context call_id digest accepted inputs) t m.
Proof.
  unfold accept_plan. destruct (next_turn_index base); [|done..].
  destruct (map_err _ _) as [decision|?|?]; [|done..].
  apply covers_pbind, create_event_covers. intros [event|?|?] m1 _ Hb; [|done..].
  apply settle_covers, covers_pmap_err. eapply covers_writes; [by apply plan_inputs_commits| |done].
  intros e. rewrite (Hb _ eq_refl). by apply (sp_reservation _ _ _ law).
Qed.

Lemma proposal_covers self capabilities (resolver : R) (materializer : M) base reserved frontier context
    call_id proposal tool_calls t m :
  covered anything (handle_proposal self capabilities resolver materializer base reserved frontier
                      context call_id proposal tool_calls) t m.
Proof.
  unfold handle_proposal. destruct proposal as [steps|summary]; [|apply completion_covers].
  case_bool_decide; [apply rejection_covers|].
  destruct (prepare_plan _ _ _ _ _ _ _) as [prepared|?|?]; [|apply rejection_covers|done].
  apply covers_bind, materialize_covers. intros [accepted|?|?] m1; [apply accept_covers| |done].
  apply settle_covers. by apply settled_covers.
Qed.

Lemma call_planner_covers self capabilities (resolver : R) (planner : P) (materializer : M) state
    frontier context calls tool_calls m :
  seen state (Machine.store m) →
  covered anything (call_planner self capabilities resolver planner materializer state frontier
                      context calls tool_calls) no_tokens m.
Proof.
  intros Hseen. unfold call_planner. apply covers_pbind, covers_asks; [done|].
  intros w m1 Hm1. cbn [fst]. destruct (reserve_call _ _ _ _ _) as [reservation|?|?]; [|done..].
  apply covers_pbind. unfold append_event. apply covers_pbind, create_event_covers.
  intros [event|?|?] m2 Hm2 Hb; [|done..]. specialize (Hb _ eq_refl).
  apply covers_pmap_err. eapply covers_start; [by apply plain_commits| | |].
  - eapply seen_later; [done|]. unfold grows_to in *. by etrans.
  - intros e records He _. rewrite Hb in He. by eapply (sp_within _ _ _ law).
  - intros [reserved|?|?] t m3 Hm3 Ht; cbn [map_err]; [|done..]. specialize (Ht _ eq_refl) as ->.
    apply covers_bind. eapply (covers_spends _ _ _ _ _ _ no_tokens).
    + intros w' e. rewrite Hb. unfold no_tokens. rewrite N.add_0_r.
      by apply (sp_plan _ _ _ law).
    + intros w' m4 Hm4. destruct (plan planner _ w').1 as [proposal|failure|?].
      * apply proposal_covers.
      * apply failure_covers.
      * done.
Qed.

Lemma plan_turn_covers self capabilities (resolver : R) (planner : P) (materializer : M) state
    frontier loop calls tool_calls m :
  seen state (Machine.store m) →
  covered anything (plan_turn self capabilities resolver planner materializer state frontier
                      loop calls tool_calls) no_tokens m.
Proof.
  intros Hseen. unfold plan_turn. apply covers_bind, covers_reads. intros m1 _ Hm1.
  destruct (load_planning_snapshot _ _ _) as [[snapshot|]|error|?]; [|done|by destruct error|done].
  case_bool_decide; [done|]. destruct (build_context_ordered _ _ _ _ _ _ _ _); [|done..].
  apply call_planner_covers. by eapply seen_later.
Qed.

Lemma tick_covers self (lease : L) capabilities (resolver : R) (planner : P) (materializer : M) m :
  covered anything (tick self lease capabilities resolver planner materializer) no_tokens m.
Proof.
  unfold tick. apply covers_pbind, covers_pmap_err, covers_reads. intros m1 Hre Hm1.
  rewrite load_current_projection. cbn [map_err].
  destruct (M.projection (Machine.store m1)) as [state|] eqn:Hs; cbn [ok_or]; [|done].
  destruct (verify_lease lease state); [|done..].
  destruct (RunState.agent_loop state) as [loop|]; [|].
  2: { apply covers_pbind, loop_append_covers; [|by intros [?|?|?]].
       intros e. by apply (sp_reservation _ _ _ law). }
  case_bool_decide; [done|]. destruct (AgentLoopState.model_calls loop) as [calls|].
  2: { apply covers_pbind, loop_append_covers; [|by intros [?|?|?]].
       intros e. by apply (sp_reservation _ _ _ law). }
  case_bool_decide; [done|]. unfold advance.
  destruct (map_err _ (derive_frontier state)) as [frontier|?|?]; [|done..].
  destruct (total_tool_calls state); [|done..].
  destruct (WorkFrontier.next_action frontier); [by destruct (_ && _)|].
  destruct (ModelCallLifecycleState.active_call calls) as [active|].
  { unfold recover_active_call. destruct (ModelCallState.status active); [|done].
    apply settle_covers. by apply unknown_covers. }
  destruct (AgentLoopState.completion_candidate loop) as [candidate|].
  { unfold report_candidate.
    destruct (CompletionCandidateState.completion_output_record_digest candidate); [|done].
    apply covers_pbind, covers_pmap_err, covers_reads_any. intros [o|?|?] m2; cbn [map_err]; [|done..].
    destruct (ok_or o _); [|done..]. by destruct (checked_completion_output _ _ _ _). }
  destruct (exhausted_budget _ _ _ _ _); [done|]. apply plan_turn_covers. by apply seen_now.
Qed.

Lemma abandon_covers self (lease : L) call_id m :
  covered anything (abandon_model_call self lease call_id) no_tokens m.
Proof.
  unfold abandon_model_call.
  apply covers_pbind, covers_pmap_err, covers_reads_any. intros [s|?|?] m1; cbn [map_err]; [|done..].
  destruct (ok_or s _) as [state|?|?]; [|done..]. destruct (verify_lease lease state); [|done..].
  destruct (require_loop state) as [loop|?|?]; [|done..]. case_bool_decide; [done|].
  destruct (require_calls loop) as [calls|?|?]; [|done..]. case_bool_decide; [done|].
  destruct (ok_or _ _) as [active|?|?]; [|done..]. case_bool_decide; [done|].
  apply covers_pbind, settled_covers. by intros [?|?|?] m2.
Qed.
End agent.

(** ** Instances of the law *)

(** A planner and a materializer that perform no effect. *)
Class PassivePlanner (W P : Type) `{Executions W} `{PlannerPort W P} : Prop :=
  plan_passive planner request : performs_nothing (plan planner request).
Class PassiveMaterializer (W M : Type) `{Executions W} `{PlanMaterializer W M} : Prop :=
  materialize_passive materializer request : performs_nothing (materialize materializer request).

(** No event of the loop starts an execution. *)
Lemma loop_executions_spared {W P M} `{Executions W} `{EventFactory W} `{!PassiveFactory W}
    `{PlannerPort W P} `{!PassivePlanner W P} `{PlanMaterializer W M} `{!PassiveMaterializer W M} within :
  spares (P := P) (M := M) executions starts_body within.
Proof.
  split.
  - intros e body Ha _. by destruct body.
  - done.
  - apply create_metadata_passive.
  - apply materialize_passive.
  - intros planner request reservation w e _. pose proof (plan_passive planner request w e). lia.
Qed.

(** The call ids a provider was asked with, in order.  A request is logged at most once, by the
    planner alone. *)
Class PlannerLog (W : Type) : Type := planner_log : W → list string.

Class LoggedPlanner (W P M : Type) `{PlannerLog W} `{EventFactory W} `{PlannerPort W P}
    `{PlanMaterializer W M} : Prop := {
  plan_logs planner request w :
    planner_log (plan planner request w).2 = planner_log w ∨
    planner_log (plan planner request w).2 = planner_log w ++ [PlannerCallRequest.call_id request];
  metadata_logs_nothing state w : planner_log (create_metadata state w).2 = planner_log w;
  materialize_logs_nothing materializer request w :
    planner_log (materialize materializer request w).2 = planner_log w;
}.

(** All calls, and the calls with one call id. *)
Definition all_calls {W} `{PlannerLog W} (w : W) : tokens := λ _, len (planner_log w).
Definition calls_with {W} `{PlannerLog W} (w : W) : tokens :=
  λ c, count (λ x, bool_decide (x = c)) (planner_log w).
Definition reserves (c : string) (body : RunEventBody) : bool :=
  match body with
  | RunEventBody.ModelCallReserved r => bool_decide (ModelCallReservation.call_id r = c)
  | _ => false
  end.

Section logged.
Context {W P M : Type} `{LoggedPlanner W P M}.

Lemma all_calls_spared : spares (P := P) (M := M) all_calls (λ _, is_reservation) (λ _, True).
Proof.
  split; [done|done|intros state w e|intros materializer request w e|intros planner request r w e _];
    unfold all_calls; [by rewrite metadata_logs_nothing|by rewrite materialize_logs_nothing|].
  destruct (plan_logs planner request w) as [->| ->]; unfold credit_for, len; cbn; [lia|].
  rewrite length_app. cbn. lia.
Qed.

Lemma calls_with_spared : spares (P := P) (M := M) calls_with reserves (λ _, True).
Proof.
  split; [by intros e []|done|intros state w e|intros materializer request w e|intros planner request r w e Hid];
    unfold calls_with; [by rewrite metadata_logs_nothing|by rewrite materialize_logs_nothing|].
  unfold credit_for. cbn. destruct (plan_logs planner request w) as [->| ->]; [lia|].
  rewrite count_snoc, Hid. lia.
Qed.
End logged.
