(* ===== verification/DriverSafety.v ===== *)
(** The run driver is covered in the logic of [MachineLogic] because the programs it composes are:
    what the runtime and the agent loop guarantee holds of whole drives. *)

From S2P Require Import Prelude Program Text Wire Domain Resolution Broker Registry Router.
From S2P Require Import DomainWire WorkGraphTypes WorkGraphErrors Planning Material ToolOutput.
From S2P Require Import Completion Frontier Journal StepMachine Reducer RunInvariant Receipt.
From S2P Require Import StoreTypes StoreBundles MemoryStore Host Invocation Admission Recovery.
From S2P Require Import Adapters DurableRuntime Verification Executor PlanningContext Proposals.
From S2P Require Import Agent Driver Attempts StoreSpec StoreProofs StoreRuns StoreTheorems.
From S2P Require Import MachineLogic RuntimeSafety AgentSafety.

(** What a drive's collaborators do with a resource: those of the runtime and of the agent loop
    as before; routes, approvals and the observer leave it alone. *)
Record driver_spares {W A I V P RP AP OB} `{Crypto} `{EventFactory W} `{EffectAdapter W A I}
    `{EffectVerifier W V} `{InvocationMaterialProvider W P} `{PlannedRoutePort W RP}
    `{ApprovalPort W AP} `{ProgressObserver W OB}
    (spent : W → tokens) (marks : string → RunEventBody → bool)
    (within : N → Prop) (may_start : RuntimePolicy → Prop) (performs : I → string → Prop) : Prop := {
  ds_runtime : runtime_spares (A := A) (V := V) (P := P) spent marks within may_start performs;
  ds_route (routes : RP) state step_id : leaves spent (route_for routes state step_id);
  ds_decide (approvals : AP) request : leaves spent (decide_request approvals request);
  ds_observe (observer : OB) progress : leaves spent (observe observer progress);
}.

Section driver.
Context {W L A I V P R PL MT RP AP OB : Type} `{EventFactory W} `{RunLease L}.
Context `{EffectAdapter W A I} `{EffectVerifier W V} `{InvocationMaterialProvider W P}.
Context `{Crypto} `{JsonSchema} `{JsonSchemaErrors} `{JsonPointer} `{PolicyDecisionSchema} `{Target}.
Context `{ReceiptSchema} `{Rfc3339} `{ResourceResolver R} `{PlannerPort W PL} `{PlanMaterializer W MT}.
Context `{PlannedRoutePort W RP} `{ApprovalPort W AP} `{ProgressObserver W OB}.
Context (spent : W → tokens) (marks : string → RunEventBody → bool) (within : N → Prop).
Context (may_start : RuntimePolicy → Prop) (performs : I → string → Prop).
Context (law : driver_spares (A := A) (V := V) (P := P) (RP := RP) (AP := AP) (OB := OB)
                 spent marks within may_start performs).
Abbreviation covered := (covers (W := W) spent marks within).
Abbreviation idle p := (∀ m, covered anything p no_tokens m).

Lemma asks_covers {X} (f : W → X * W) : leaves spent f → idle (asks f).
Proof. intros Hf m. by apply covers_asks. Qed.
Lemma reads_covers {X} (f : MemoryRunStore → X) : idle (reads f).
Proof. intros m. by apply covers_reads. Qed.

Lemma announce_covers (observer : OB) progress : idle (announce_progress observer progress).
Proof. intros m. apply covers_then; [|done]. apply asks_covers, (ds_observe _ _ _ _ _ law). Qed.

Lemma unless_stopped_covers p k : idle p → idle k → idle (unless_stopped p k).
Proof. intros Hp Hk m. apply covers_pthen; [apply Hp|]. by intros []. Qed.

Lemma load_run_covers : idle load_run.
Proof. intros m. apply covers_pthen; [apply covers_err, reads_covers|done]. Qed.

Section drive.
Context (self : RunDriver) (lease : L) (capabilities : CapabilityRegistry) (resolver : R).
Context (planner : PL) (materializer : MT) (providers : MaterialProviderRegistry P).
Context (adapters : EffectAdapterRegistry A) (verifiers : EffectVerifierRegistry V).
Context (routes : RP) (approvals : AP) (observer : OB).
Context (may : may_start (RunDriver.executor self)).

Lemma admit_covers step_id :
  idle (admit_step lease capabilities resolver providers routes approvals observer step_id).
Proof.
  intros m. apply covers_pthen; [apply load_run_covers|]. intros state m1.
  apply covers_pthen; [apply covers_err, asks_covers, (ds_route _ _ _ _ _ law)|]. intros route m2.
  apply covers_pthen; [eapply covers_err, prepare_planned_covers, (ds_runtime _ _ _ _ _ law)|].
  intros pending m3.
  apply covers_pthen; [apply covers_err, asks_covers, (ds_decide _ _ _ _ _ law)|].
  intros [inputs| |] m4; [|done|].
  - apply covers_pthen; [eapply covers_err, authorize_covers, (ds_runtime _ _ _ _ _ law)|].
    intros [] m5; [apply announce_covers|done].
  - apply covers_pthen; [apply announce_covers|done].
Qed.

Lemma execute_effect_covers status step_id :
  idle (execute_effect self lease capabilities resolver providers adapters status step_id).
Proof.
  intros m. unfold execute_effect. case_bool_decide.
  - apply covers_pthen; [eapply covers_err, recover_covers, (ds_runtime _ _ _ _ _ law)|].
    intros material m1. eapply covers_err, executor_covers; [apply (ds_runtime _ _ _ _ _ law)|done].
  - eapply covers_err, executor_covers; [apply (ds_runtime _ _ _ _ _ law)|done].
Qed.

Lemma drive_effect_covers step_id :
  idle (drive_effect self lease capabilities resolver providers adapters observer step_id).
Proof.
  intros m. apply covers_pthen; [apply load_run_covers|]. intros state m1.
  destruct (driven_step state step_id) as [found|?|?]; [|done..].
  apply unless_stopped_covers; [apply announce_covers|]. intros m2.
  apply covers_pthen; [apply execute_effect_covers|]. intros report m3. apply announce_covers.
Qed.

Lemma verify_covers step_id : idle (verify lease capabilities verifiers observer step_id).
Proof.
  apply unless_stopped_covers; [apply announce_covers|]. intros m.
  apply covers_pthen; [eapply covers_err, verification_covers, (ds_runtime _ _ _ _ _ law)|].
  intros report m1. apply announce_covers.
Qed.

Lemma act_on_covers tick :
  idle (act_on self lease capabilities resolver providers adapters verifiers routes approvals observer tick).
Proof.
  intros m. destruct tick as [| |action head| |candidate output| | | | | | |]; cbn [act_on]; try done.
  - destruct (FrontierAction.action action);
      first [apply admit_covers|apply drive_effect_covers|apply verify_covers].
  - apply announce_covers.
  - apply covers_pthen; [apply announce_covers|done].
Qed.

(** A pass of the loop whose tick is covered. *)
Lemma drive_tick_covers egress :
  idle (tick (RunDriver.agent_loop self) lease capabilities resolver planner materializer) →
  idle (drive_tick self lease capabilities resolver planner materializer providers adapters verifiers
          routes approvals egress observer).
Proof.
  intros Htick m. apply covers_pthen.
  { apply covers_pthen; [apply covers_err, reads_covers|done]. }
  intros may_call m1. apply unless_stopped_covers.
  - intros m2. unfold before_tick. destruct may_call, egress; first [done|apply announce_covers].
  - intros m2. apply covers_pthen; [apply covers_err, Htick|]. intros t m3. apply act_on_covers.
Qed.

Lemma drive_covers egress :
  spares (P := PL) (M := MT) spent marks within →
  idle (drive_until_pause_with_model_egress_observed self lease capabilities resolver planner materializer
          providers adapters verifiers routes approvals egress observer).
Proof.
  intros Hloop. unfold drive_until_pause_with_model_egress_observed.
  induction (N.to_nat (RunDriver.max_ticks self)) as [|ticks IH]; intros m; [done|].
  cbn [drive_ticks]. apply covers_pthen; [|by intros []].
  apply drive_tick_covers. intros m1. by apply tick_covers.
Qed.
End drive.
End driver.

(** ** Instances of the law *)

(** Routes, approvals and an observer that perform no effect. *)
Class PassiveRoutes (W RP : Type) `{Executions W} `{PlannedRoutePort W RP} : Prop :=
  route_passive routes state step_id : performs_nothing (route_for routes state step_id).
Class PassiveApprovals (W AP : Type) `{Executions W} `{ApprovalPort W AP} : Prop :=
  decide_passive approvals request : performs_nothing (decide_request approvals request).
Class PassiveObserver (W OB : Type) `{Executions W} `{ProgressObserver W OB} : Prop :=
  observe_passive observer progress : performs_nothing (observe observer progress).

Lemma driver_executions_spared {W A I V P RP AP OB} `{Crypto} `{Executions W} `{EventFactory W}
    `{!PassiveFactory W} `{EffectAdapter W A I} `{!OneShotAdapter W A I} `{EffectVerifier W V}
    `{!PassiveVerifier W V} `{InvocationMaterialProvider W P} `{!PassiveProvider W P}
    `{PlannedRoutePort W RP} `{!PassiveRoutes W RP} `{ApprovalPort W AP} `{!PassiveApprovals W AP}
    `{ProgressObserver W OB} `{!PassiveObserver W OB} (K : N) :
  driver_spares (A := A) (V := V) (P := P) (RP := RP) (AP := AP) (OB := OB) executions starts_body
    (λ n, n ≤ K)%N (λ policy, RuntimePolicy.max_execution_attempts policy ≤ K)%N
    (λ i e, invocation_effect i = e).
Proof.
  split; [apply executions_spared|apply route_passive|apply decide_passive|apply observe_passive].
Qed.

(** A call that does not ask the planner. *)
Definition logs_nothing {W X} `{PlannerLog W} (f : W → X * W) : Prop :=
  ∀ w, planner_log (f w).2 = planner_log w.

(** Nobody but the planner asks its provider. *)
Class LoggedHost (W A I V P RP AP OB : Type) `{PlannerLog W} `{EffectAdapter W A I} `{EffectVerifier W V}
    `{InvocationMaterialProvider W P} `{PlannedRoutePort W RP} `{ApprovalPort W AP}
    `{ProgressObserver W OB} : Prop := {
  prepare_logs_nothing (adapter : A) request : logs_nothing (adapter_prepare adapter request);
  execute_logs_nothing (invocation : I) : logs_nothing (invocation_execute invocation);
  reconcile_logs_nothing (adapter : A) request : logs_nothing (adapter_reconcile adapter request);
  verify_logs_nothing (verifier : V) request : logs_nothing (Verification.verify verifier request);
  reconstruct_logs_nothing (provider : P) reference revision :
    logs_nothing (reconstruct provider reference revision);
  route_logs_nothing (routes : RP) state step_id : logs_nothing (route_for routes state step_id);
  decide_logs_nothing (approvals : AP) request : logs_nothing (decide_request approvals request);
  observe_logs_nothing (observer : OB) progress : logs_nothing (observe observer progress);
}.

(** So the driver leaves a resource of the log alone, but for its ticks. *)
Lemma logged_driver {W A I V P RP AP OB PL MT} `{Crypto} `{PlannerLog W} `{EventFactory W}
    `{PlannerPort W PL} `{PlanMaterializer W MT} `{!LoggedPlanner W PL MT}
    `{EffectAdapter W A I} `{EffectVerifier W V} `{InvocationMaterialProvider W P}
    `{PlannedRoutePort W RP} `{ApprovalPort W AP} `{ProgressObserver W OB}
    `{!LoggedHost W A I V P RP AP OB} (spent : W → tokens) marks within :
  (∀ w w', planner_log w = planner_log w' → spent w = spent w') →
  (∀ e body, is_reservation body = false → marks e body = false) →
  driver_spares (A := A) (V := V) (P := P) (RP := RP) (AP := AP) (OB := OB) spent marks within
    (λ _, True) (λ _ _, True).
Proof.
  intros Hspent Hmarks.
  assert (∀ X (f : W → X * W), logs_nothing f → leaves spent f) as Hleaves.
  { intros X f Hf w e. by rewrite (Hspent _ _ (Hf w)). }
  split; [split| | |]; try done.
  - intros e body Ha _. apply Hmarks. by destruct body.
  - intros policy state step id intent step_id e records _ _ _ _ _ Hm. by rewrite Hmarks in Hm.
  - intros state. apply Hleaves. intros w. apply metadata_logs_nothing.
  - intros adapter request. apply Hleaves, prepare_logs_nothing.
  - intros invocation step_id effect_id w e _. rewrite (Hspent _ _ (execute_logs_nothing invocation w)). lia.
  - intros adapter request. apply Hleaves, reconcile_logs_nothing.
  - intros verifier request. apply Hleaves, verify_logs_nothing.
  - intros provider reference revision. apply Hleaves, reconstruct_logs_nothing.
  - intros routes state step_id. apply Hleaves, route_logs_nothing.
  - intros approvals request. apply Hleaves, decide_logs_nothing.
  - intros observer progress. apply Hleaves, observe_logs_nothing.
Qed.
