(* ===== verification/AdmissionProofs.v ===== *)
(** What preparation and authorization establish: the facts behind a pending invocation, the
    shape of the intent issued for it, and what the programs write. *)

From S2P Require Import Prelude Program Text Wire Domain Resolution Broker Registry Router.
From S2P Require Import DomainWire WorkGraphTypes WorkGraphErrors Planning Material ToolOutput.
From S2P Require Import Completion RecordTheorems Journal StepMachine Reducer Receipt StoreTypes.
From S2P Require Import StoreBundles MemoryStore Host Invocation Admission Recovery Attempts.
From S2P Require Import StoreSpec StoreProofs StoreRuns StoreTheorems MachineLogic RuntimeSafety.

(** ** The issued effect *)

Section issued.
Context `{Crypto} `{PolicyDecisionSchema} `{Target}.

(** An intent and its material record, issued for a pending invocation at a state under a policy
    evaluation, for one instance. *)
Record issued_for (pending : PendingInvocation) (state : RunState) (instance : CapabilityInstanceBody)
    (instance_id : string) (evaluation : BoundPolicyEvaluation) (intent : EffectIntent)
    (record : InvocationMaterialRecord) : Prop := {
  (* The policy allowed exactly the request, once, and nothing critical. *)
  if_allowed : ∃ authorization sources,
    BoundPolicyEvaluation.outcome evaluation = BrokerOutcome.Allow authorization sources ∧
    ProvisionalAuthorization.lifetime authorization = GrantLifetime.Once ∧
    ProvisionalAuthorization.critical_actions authorization = [] ∧
    ProvisionalAuthorization.scopes authorization
      = ResolvedPermissionRequest.requested_scopes (PendingInvocation.permission_request pending) ∧
    ProvisionalAuthorization.resources authorization
      = ResolvedPermissionRequest.resources (PendingInvocation.permission_request pending);
  (* The grant is for one use. *)
  if_once : AuthorizationUse.max_uses (EffectIntent.authorization intent) = ONCE_MAX_USES;
  (* It is bound to the run, its head, the step, the action, the material and the executable. *)
  if_binding : let b := AuthorizationUse.binding (EffectIntent.authorization intent) in
    AuthorizationBinding.run_id b = RunState.run_id state ∧
    AuthorizationBinding.step_id b
      = ResolvedPermissionRequest.step_id (PendingInvocation.permission_request pending) ∧
    AuthorizationBinding.issued_at_sequence b = RunState.journal_sequence state ∧
    AuthorizationBinding.issued_at_head_digest b = RunState.journal_head_digest state ∧
    AuthorizationBinding.definition_digest b = PendingInvocation.definition_digest pending ∧
    AuthorizationBinding.action_digest b = PendingInvocation.action_digest pending ∧
    AuthorizationBinding.material_digest b = PendingInvocation.material_digest pending ∧
    AuthorizationBinding.instance_id b = instance_id ∧
    executable_binding_digest instance = Ok (AuthorizationBinding.instance_binding_digest b);
  if_action : EffectIntent.action_digest intent = PendingInvocation.action_digest pending;
  (* No sink can be asked about it, so an unknown outcome is never retried. *)
  if_no_query : EffectIntent.sink_guarantee intent = SinkGuarantee.None;
  if_record : InvocationMaterialRecord_new (RunState.run_id state)
    (ResolvedPermissionRequest.step_id (PendingInvocation.permission_request pending)) intent
    (PendingInvocation.material_digest pending) (PendingInvocation.material_retention pending) = Ok record;
}.

Lemma policy_evidence_exact request provisional sources digest :
  policy_evidence_digest request provisional sources = Ok digest →
  ProvisionalAuthorization.scopes provisional = ResolvedPermissionRequest.requested_scopes request ∧
  ProvisionalAuthorization.resources provisional = ResolvedPermissionRequest.resources request ∧
  ProvisionalAuthorization.critical_actions provisional = ResolvedPermissionRequest.critical_actions request.
Proof. unfold policy_evidence_digest. intros Hp. repeat res_step. by bool_inv. Qed.

Lemma issue_facts pending state definition instance instance_id evaluation decided_at issued :
  issue_once_effect pending state definition instance instance_id evaluation decided_at = Ok issued →
  issued_for pending state instance instance_id evaluation (IssuedEffect.intent issued)
    (IssuedEffect.material_record issued).
Proof.
  unfold issue_once_effect. intros Hi.
  destruct (BoundPolicyEvaluation.outcome evaluation) as [authorization sources| |] eqn:Ho;
    cbn [rbind] in Hi; try done.
  repeat res_step. destruct a1 as [decision_id decision_digest]. repeat res_step.
  match goal with Hp : policy_evidence_digest _ _ _ = Ok _ |- _ =>
    destruct (policy_evidence_exact _ _ _ _ Hp) as (Hs & Hr & Hc) end.
  bool_inv. split; cbn; try done.
  by exists authorization, sources.
Qed.
End issued.

(** ** Authorization, alone *)

Section alone.
Context {W : Type} `{!EventFactory W} {L : Type} `{!RunLease L}.
Context `{Crypto} `{JsonSchema} `{JsonPointer} `{PolicyDecisionSchema} `{Target} `{ReceiptSchema}.
Context `{Rfc3339} {R : Type} `{!ResourceResolver R}.

(** Everything that stands behind an authorized effect. *)
Definition authorized_by (pending : PendingInvocation) (inputs : PolicyInputs)
    (registry : CapabilityRegistry) (run_id : string) (self : MemoryRunStore)
    (effect : AdmittedEffect) (self' : MemoryRunStore) : Prop :=
  let instance_id := AdmittedEffect.selected_instance_id effect in
  ∃ state definition evaluation instance event intent,
    PolicyInputs.is_managed inputs = false ∧
    M.projection self = Some state ∧ run_id = RunState.run_id state ∧
    PendingRunBinding.matches (PendingInvocation.run_binding pending) state = true ∧
    find_definition registry (RouteRequest.capability (PendingInvocation.route pending)) = Ok definition ∧
    definition_contract_digest definition = Ok (PendingInvocation.definition_digest pending) ∧
    evaluate_bound (PendingInvocation.permission_request pending) inputs = Ok evaluation ∧
    (∃ ranked audit reason, Router.route registry (PendingInvocation.route pending) (Some evaluation)
       = Ok (RouteOutcome.Selected instance_id ranked audit reason)) ∧
    Registry.instance registry instance_id = Some instance ∧
    CapabilityInstanceBody.placement instance = Placement.Local ∧
    issued_for pending state instance instance_id evaluation intent (AdmittedEffect.material_record effect) ∧
    RunEvent.body event = RunEventBody.EffectIntentCommitted
      (ResolvedPermissionRequest.step_id (PendingInvocation.permission_request pending)) intent ∧
    AdmittedEffect.effect_id effect = EffectIntent.effect_id intent ∧
    AdmittedEffect.normalized_arguments effect = PendingInvocation.normalized_arguments pending ∧
    append_with_invocation_material self (ExpectedHead.from_state state) event
      (AdmittedEffect.material_record effect) = Ok (AdmittedEffect.commit effect, self').

Lemma issue_effect_id pending state definition instance instance_id evaluation decided_at issued :
  issue_once_effect pending state definition instance instance_id evaluation decided_at = Ok issued →
  IssuedEffect.effect_id issued = EffectIntent.effect_id (IssuedEffect.intent issued).
Proof.
  unfold issue_once_effect. intros Hi.
  destruct (BoundPolicyEvaluation.outcome evaluation) as [authorization sources| |];
    cbn [rbind] in Hi; try done.
  repeat res_step. destruct a1 as [decision_id decision_digest]. by repeat res_step.
Qed.

(** The store is as it was. *)
Definition unwritten (m0 m : machine W) : Prop := Machine.store m = Machine.store m0.

Lemma planned_sidecar_unwritten m0 state step_id Q m :
  unwritten m0 m → (∀ r m', unwritten m0 m' → Q r m') →
  follows eq Q (verify_planned_input_sidecar state step_id) m.
Proof.
  intros Hm HQ. unfold verify_planned_input_sidecar.
  destruct (find_step state step_id) as [step|?|?]; [|by apply HQ..].
  destruct (StepState.planned_invocation step); [|by apply HQ].
  apply follows_pbind, follows_pmap_err, follows_reads. intros m1 _ <-.
  destruct (load_planned_invocation _ _) as [x|?|?]; cbn [map_err]; [|by apply HQ..].
  destruct (ok_or x _); [|by apply HQ..]. destruct (map_err _ _); by apply HQ.
Qed.

Definition authorization_result pending inputs registry run_id (m0 : machine W)
    (r : res AdmissionError AdmissionOutcome) (m : machine W) : Prop :=
  match r with
  | Ok (AdmissionOutcome.Authorized effect) =>
      authorized_by pending inputs registry run_id (Machine.store m0) effect (Machine.store m)
  | _ => unwritten m0 m
  end.

Lemma authorize_alone pending inputs registry (lease : L) m :
  follows eq (authorization_result pending inputs registry (RunLease.run_id lease) m)
    (authorize_and_commit pending inputs registry lease) m.
Proof.
  unfold authorize_and_commit. destruct (PolicyInputs.is_managed inputs) eqn:Hmanaged; [done|].
  unfold load_admission_state. apply follows_pbind, follows_pbind, follows_pmap_err, follows_reads.
  intros m1 Hre <-. rewrite load_current_projection. cbn [map_err].
  destruct (M.projection (Machine.store m)) as [state|] eqn:Hs; [|done]. apply follows_ret. cbn [ok_or].
  unfold Admission.verify_lease. case_bool_decide as Hlease; [done|].
  destruct (PendingRunBinding.matches _ state) eqn:Hmatches; cbn [negb]; [|done].
  destruct (require_admission_ready_step _ _); [|done..].
  apply follows_pbind, (planned_sidecar_unwritten m); [done|]. intros [input|?|?] m2 Hm2; [|done..].
  destruct (verify_pending_planned_material _ _ _ _); [|done..].
  destruct (find_definition _ _) as [definition|?|?] eqn:Hdef; [|done..].
  destruct (definition_contract_digest definition) as [digest|?|?] eqn:Hdigest; [|done..].
  case_bool_decide as Hsame; [done|].
  destruct (evaluate_bound _ _) as [evaluation|?|?] eqn:Heval; cbn [map_err]; [|done..].
  destruct (Router.route _ _ _) as [route|?|?] eqn:Hroute; cbn [map_err]; [|done..].
  destruct route as [instance_id ranked audit reason| |]; [|done..]. unfold commit_authorized.
  destruct (Registry.instance registry instance_id) as [instance|] eqn:Hinstance; cbn [ok_or]; [|done].
  case_bool_decide as Hplacement; [done|].
  apply follows_pbind, follows_pmap_err, follows_asks. intros m3 Hre3 <-.
  destruct (create_metadata state _).1 as [md|?|?]; cbn [map_err]; [|done..].
  destruct (map_err _ (EventMetadata_validate md)); [|done..].
  destruct (issue_once_effect _ _ _ _ _ _ _) as [issued|?|?] eqn:Hissued; [|done..].
  apply follows_pbind, follows_pmap_err.
  eapply follows_writes; [by apply material_commits| |by intros e m4 <-|by intros why m4 _ <- _]. cbn.
  intros m4 commit self' Hre4 <- Happend. apply follows_ret. cbn. unfold unwritten in Hm2. cbn in Happend.
  rewrite Hm2 in Happend.
  exists state, definition, evaluation, instance, (event_for state md (RunEventBody.EffectIntentCommitted
    (ResolvedPermissionRequest.step_id (PendingInvocation.permission_request pending))
    (IssuedEffect.intent issued))), (IssuedEffect.intent issued). cbn.
  split_and!; try done.
  - by rewrite <-Hsame.
  - by exists ranked, audit, reason.
  - by eapply issue_facts.
  - by eapply issue_effect_id.
Qed.

(** ** Preparation and recovery, alone: nothing is written *)

(** What stands behind a pending invocation. *)
Definition prepared_from (registry : CapabilityRegistry) (resolver : R) (request : AdmissionRequest)
    (run_id : string) (self : MemoryRunStore) (pending : PendingInvocation) : Prop :=
  ∃ state facts,
    M.projection self = Some state ∧ run_id = RunState.run_id state ∧
    require_admission_ready_step state (AdmissionRequest.step_id request) = Ok tt ∧
    PendingInvocation.run_binding pending = PendingRunBinding.from_state state ∧
    PendingInvocation.route pending = AdmissionRequest.route request ∧
    prepare_invocation_facts (RunState.run_id state) (AdmissionRequest.step_id request)
      (RouteRequest.capability (AdmissionRequest.route request)) (AdmissionRequest.arguments request)
      registry resolver = Ok facts ∧
    PendingInvocation.normalized_arguments pending = PreparedInvocationFacts.normalized_arguments facts ∧
    PendingInvocation.permission_request pending = PreparedInvocationFacts.permission_request facts ∧
    PendingInvocation.definition_digest pending = PreparedInvocationFacts.definition_digest facts ∧
    PendingInvocation.material_digest pending = PreparedInvocationFacts.material_digest facts ∧
    planned_action_digest state (AdmissionRequest.step_id request)
      (PreparedInvocationFacts.semantic_action_digest facts) = Ok (PendingInvocation.action_digest pending).

Definition preparation_result (registry : CapabilityRegistry) (resolver : R) (request : AdmissionRequest)
    (run_id : string) (m0 : machine W) (r : res AdmissionError PendingInvocation) (m : machine W) : Prop :=
  unwritten m0 m ∧
  ∀ pending, r = Ok pending → prepared_from registry resolver request run_id (Machine.store m0) pending.

Lemma prepare_alone (lease : L) registry (resolver : R) request m :
  follows eq (preparation_result registry resolver request (RunLease.run_id lease) m)
    (prepare lease registry resolver request) m.
Proof.
  assert (∀ (e : AdmissionError) m', unwritten m m' → preparation_result registry resolver request
    (RunLease.run_id lease) m (Err e) m') as HE by done.
  assert (∀ why m', unwritten m m' → preparation_result registry resolver request
    (RunLease.run_id lease) m (Panic why) m') as HP by done.
  unfold prepare, load_admission_state. apply follows_pbind, follows_pbind, follows_pmap_err, follows_reads.
  intros m1 Hre <-. rewrite load_current_projection. cbn [map_err].
  destruct (M.projection (Machine.store m)) as [state|] eqn:Hs; [|by apply HE]. apply follows_ret. cbn [ok_or].
  unfold Admission.verify_lease. case_bool_decide as Hlease; [by apply HE|].
  destruct (require_admission_ready_step _ _) as [[]|?|?] eqn:Hready; [|by first [apply HE|apply HP]..].
  destruct (verify_unplanned_read_only_boundary _ _ _ _); [|by first [apply HE|apply HP]..].
  destruct (verify_planned_route_binding _ _ _); [|by first [apply HE|apply HP]..].
  destruct (verify_planned_definition_binding _ _ _); [|by first [apply HE|apply HP]..].
  apply follows_pbind, (planned_sidecar_unwritten m); [done|].
  intros [input|?|?] m2 Hm2; [|by first [apply HE|apply HP]..].
  destruct (prepare_invocation_facts _ _ _ _ _ _) as [facts|?|?] eqn:Hfacts; [|by first [apply HE|apply HP]..].
  destruct (planned_action_digest _ _ _) as [action|?|?] eqn:Haction; [|by first [apply HE|apply HP]..].
  destruct (verify_planned_admission_binding _ _ _ _ _) as [plan|?|?]; [|by first [apply HE|apply HP]..].
  destruct (match plan with Some _ => _ | None => _ end) as [retention|?|?]; [|by first [apply HE|apply HP]..].
  apply follows_ret. split; [done|]. intros pending [= <-]. exists state, facts. by split_and!.
Qed.

(** Prepared facts commit to the normalized arguments. *)
Lemma facts_material run_id step_id capability arguments registry resolver facts :
  prepare_invocation_facts run_id step_id capability arguments registry resolver = Ok facts →
  invocation_material_digest (PreparedInvocationFacts.normalized_arguments facts)
    = Ok (PreparedInvocationFacts.material_digest facts).
Proof. unfold prepare_invocation_facts. intros Hf. by repeat res_step. Qed.

Context {V : Type} `{!InvocationMaterialProvider W V}.

Lemma load_leased_alone (lease : L) (m : machine W) Q :
  (∀ r, (∀ state, r = Ok state → M.projection (Machine.store m) = Some state) → Q r m) →
  follows (W := W) eq Q (load_leased_state lease) m.
Proof.
  intros HQ. unfold load_leased_state. apply follows_pbind, follows_pmap_err, follows_reads.
  intros m1 _ <-. rewrite load_current_projection. cbn [map_err].
  destruct (M.projection (Machine.store m)) as [state|]; cbn [ok_or]; [|by apply HQ].
  destruct (verify_lease_run _ _); [|by apply HQ..]. apply follows_ret, HQ. by intros s [= <-].
Qed.

Lemma reconstruct_alone m0 (providers : MaterialProviderRegistry V) reference Q m :
  unwritten m0 m → (∀ r m', unwritten m0 m' → Q r m') →
  follows eq Q (reconstruct_reference providers reference) m.
Proof.
  intros Hm HQ. unfold reconstruct_reference.
  destruct (MaterialProviderRegistry.provider_mut _ _); [|by apply HQ..].
  apply follows_pmap_err, follows_asks. intros m1 _ <-. by apply HQ.
Qed.

(** What stands behind recovered material: the durable record of the step's committed intent,
    and arguments with exactly the committed digests. *)
Definition recovered_from (self : MemoryRunStore) (step_id : string) (material : InvocationMaterial) : Prop :=
  ∃ state step intent,
    M.projection self = Some state ∧ RunState.steps state !! step_id = Some step ∧
    StepState.status step = StepStatus.IntentCommitted ∧ StepState.intent step = Some intent ∧
    let record := InvocationMaterial.record material in
    load_invocation_material self (EffectIntent.effect_id intent) = Ok (Some record) ∧
    InvocationMaterialRecord_verify_for record (RunState.run_id state) step_id intent = Ok tt ∧
    invocation_material_digest (InvocationMaterial.normalized_arguments material)
      = Ok (InvocationMaterialRecord.material_digest record) ∧
    (∃ reference, InvocationMaterialRecord.retention record
       = InvocationMaterialRetention.ReconstructableReference reference).

Definition recovery_result step_id (m0 : machine W) (r : res MaterialRecoveryError InvocationMaterial)
    (m : machine W) : Prop :=
  unwritten m0 m ∧ ∀ material, r = Ok material → recovered_from (Machine.store m0) step_id material.

Lemma reconstructed_facts state step_id (resolver : R) definition intent record reconstructed material :
  verify_reconstructed state step_id resolver definition intent record reconstructed = Ok material →
  InvocationMaterial.record material = record ∧
  invocation_material_digest (InvocationMaterial.normalized_arguments material)
    = Ok (InvocationMaterialRecord.material_digest record).
Proof. unfold verify_reconstructed. intros Hv. repeat res_step. bool_inv. cbn. by simplify_eq. Qed.

Lemma recover_alone (lease : L) registry (resolver : R) (providers : MaterialProviderRegistry V) step_id m :
  follows eq (recovery_result step_id m) (recover lease registry resolver providers step_id) m.
Proof.
  assert (∀ (e : MaterialRecoveryError) m', unwritten m m' → recovery_result step_id m (Err e) m') as HE by done.
  assert (∀ why m', unwritten m m' → recovery_result step_id m (Panic why) m') as HP by done.
  unfold recover. apply follows_pbind, load_leased_alone.
  intros [state|?|?] Hs; [|by apply HE|by apply HP]. specialize (Hs _ eq_refl). unfold recovery_step.
  destruct (RunState.steps state !! step_id) as [step|] eqn:Hst; cbn [ok_or]; [|by apply HE].
  case_bool_decide as Hstatus; [by apply HE|].
  destruct (StepState.intent step) as [intent|] eqn:Hi; cbn [ok_or]; [|by apply HE].
  apply follows_pbind, follows_pmap_err, follows_reads. intros m1 _ <-.
  destruct (load_invocation_material _ _) as [[record|]|?|?] eqn:Hrecord; cbn [map_err ok_or];
    [|by apply HE|by apply HE|by apply HP].
  destruct (InvocationMaterialRecord_verify_for _ _ _ _) as [[]|?|?] eqn:Hverify; cbn [map_err];
    [|by apply HE|by apply HP].
  destruct (InvocationMaterialRecord.retention record) as [|reference] eqn:Hretention; [by apply HE|].
  destruct (verify_recovery_catalog _ _) as [definition|?|?]; [|by apply HE|by apply HP].
  apply follows_pbind, (reconstruct_alone m); [done|].
  intros [value|?|?] m2 Hm2; [|by apply HE|by apply HP]. apply follows_ret. split; [done|].
  intros material [<- Hdigest]%reconstructed_facts.
  exists state, step, intent. cbn zeta. split_and!; try done. by exists reference.
Qed.

Lemma prepare_planned_alone (lease : L) registry (resolver : R) (providers : MaterialProviderRegistry V)
    request m :
  follows eq (λ _ m', unwritten m m')
    (prepare_planned_admission lease registry resolver providers request) m.
Proof.
  unfold prepare_planned_admission. apply follows_pbind, load_leased_alone. intros [state|?|?] _; [|done..].
  destruct (recovery_step _ _) as [step|?|?]; [|done..]. case_bool_decide; [done|].
  destruct (map_err _ (require_admission_ready_step _ _)); [|done..].
  destruct (map_err _ (verify_planned_route_binding _ _ _)); [|done..].
  destruct (map_err _ (verify_planned_definition_binding _ _ _)); [|done..].
  destruct (ok_or (StepState.planned_invocation step) _) as [b|?|?]; [|done..].
  apply follows_pbind, follows_pmap_err, follows_reads. intros m1 _ <-.
  destruct (load_planned_invocation _ _) as [input|?|?]; cbn [map_err]; [|done..].
  destruct (ok_or input _) as [x|?|?]; [|done..]. destruct (map_err _ _); [|done..].
  apply follows_pbind, (reconstruct_alone m); [done|]. intros [value|?|?] m2 Hm2; [|done..].
  apply follows_pmap_err. eapply follows_weaken; [|apply prepare_alone].
  intros r m' [Hun _]. unfold unwritten in *. congruence.
Qed.
End alone.
