(* ===== verification/AdmissionTheorems.v ===== *)
(** What admission and execution guarantee: preparation only reads, authorization commits exactly
    what policy allowed, and an adapter is handed only that.  A spy on the adapters remembers
    every request one was given to prepare. *)

From S2P Require Import Prelude Program Text Wire Domain Registry WorkGraphTypes WorkGraphErrors.
From S2P Require Import Planning Material ToolOutput Completion Journal StepMachine Reducer.
From S2P Require Import Receipt StoreTypes StoreBundles MemoryStore Host Invocation Admission.
From S2P Require Import Recovery Adapters DurableRuntime Verification Executor StoreSpec.
From S2P Require Import StoreProofs StoreRuns StoreTheorems MachineLogic RuntimeSafety Resolution.
From S2P Require Import Broker Router DomainWire RecordProofs RunInvariant Attempts.
From S2P Require Import AdmissionProofs.

Abbreviation watched W := (W * list AdapterPrepareRequest)%type.

#[export] Instance watched_factory {W} `{EventFactory W} : EventFactory (watched W) := λ state w,
  let '(r, w') := create_metadata state w.1 in (r, (w', w.2)).

#[export] Instance watched_adapter {W A I} `{EffectAdapter W A I} : EffectAdapter (watched W) A I := {|
  adapter_prepare adapter request w :=
    let '(r, w') := adapter_prepare adapter request w.1 in (r, (w', w.2 ++ [request]));
  invocation_execute invocation w :=
    let '(r, w') := invocation_execute invocation w.1 in (r, (w', w.2));
  adapter_reconcile adapter request w :=
    let '(r, w') := adapter_reconcile adapter request w.1 in (r, (w', w.2));
|}.

Section spy.
Context {W L A I : Type} `{!EffectAdapter W A I} `{!EventFactory W} `{!RunLease L}.
Context `{Crypto} `{JsonSchema} `{Target} `{ReceiptSchema} `{Rfc3339}.

(** What an adapter may be asked to prepare: the committed, unexhausted effect of the step, its
    durable material under the digest the authorization names, and the instance and definition
    of the catalog that still have the digests the effect was admitted for, local, available and
    needing no credential. *)
Definition sanctioned (policy : RuntimePolicy) (registry : CapabilityRegistry) (self : MemoryRunStore)
    (step_id : string) (request : AdapterPrepareRequest) : Prop :=
  let intent := AdapterPrepareRequest.intent request in
  let instance := AdapterPrepareRequest.instance request in
  ∃ state step record definition,
    M.projection self = Some state ∧ RunState.steps state !! step_id = Some step ∧
    StepState.status step = StepStatus.IntentCommitted ∧ StepState.intent step = Some intent ∧
    (StepState.attempts step < RuntimePolicy.max_execution_attempts policy)%N ∧
    load_invocation_material self (EffectIntent.effect_id intent) = Ok (Some record) ∧
    InvocationMaterialRecord_verify_for record (RunState.run_id state) step_id intent = Ok tt ∧
    invocation_material_digest (AdapterPrepareRequest.normalized_arguments request)
      = Ok (AuthorizationBinding.material_digest (AuthorizationUse.binding (EffectIntent.authorization intent))) ∧
    Registry.definition registry (intent_capability intent) = Some definition ∧
    definition_contract_digest definition
      = Ok (InvocationBinding.definition_digest (EffectIntent.invocation intent)) ∧
    Registry.instance registry (InvocationBinding.instance_id (EffectIntent.invocation intent)) = Some instance ∧
    CapabilityInstanceBody.definition instance = intent_capability intent ∧
    executable_binding_digest instance
      = Ok (InvocationBinding.instance_binding_digest (EffectIntent.invocation intent)) ∧
    CapabilityInstanceBody.placement instance = Placement.Local ∧
    Health.status (CapabilityInstanceBody.health instance) = HealthStatus.Available ∧
    Auth.state (CapabilityInstanceBody.auth instance) = AuthState.NotRequired.

(** ** The runtime below the executor asks for no preparation *)

Definition unasked (m0 m : machine (watched W)) : Prop := (Machine.world m).2 = (Machine.world m0).2.

Section below.
Context (m0 : machine (watched W)).

Lemma watched_metadata state (w : watched W) :
  create_metadata state w = ((create_metadata state w.1).1, ((create_metadata state w.1).2, w.2)).
Proof. unfold create_metadata at 1, watched_factory. by destruct (create_metadata state w.1). Qed.

Lemma next_metadata_unasked state (Q : res RuntimeError EventMetadata → machine (watched W) → Prop) m :
  unasked m0 m → (∀ r m', unasked m0 m' → Q r m') → follows eq Q (next_metadata state) m.
Proof.
  intros Hm HQ. unfold next_metadata. apply follows_pbind, follows_pmap_err, follows_asks. intros m1 _ <-.
  rewrite watched_metadata. cbn [fst snd].
  destruct (create_metadata state _).1 as [md|?|?]; cbn [map_err]; [|by apply HQ..].
  destruct (map_err _ (EventMetadata_validate md)); apply follows_ret; by apply HQ.
Qed.

Lemma append_unasked state body (Q : res RuntimeError Commit → machine (watched W) → Prop) m :
  unasked m0 m → (∀ r m', unasked m0 m' → Q r m') → follows eq Q (append_event state body) m.
Proof.
  intros Hm HQ. unfold append_event. apply follows_pbind, (next_metadata_unasked _ _ m Hm).
  intros [md|?|?] m1 Hm1; [|by apply HQ..]. apply follows_pmap_err.
  eapply follows_writes; [by apply plain_commits|..]; [intros m2 c s' _ <- _|intros e m2 <-|intros w m2 _ <- _];
    by apply HQ.
Qed.

Abbreviation quiet := (follows (A := res RuntimeError DriveReport) eq (λ _, unasked m0)).

Lemma commit_report_unasked state body action m :
  unasked m0 m → quiet (commit_report state body action) m.
Proof.
  intros Hm. unfold commit_report. apply follows_pbind, append_unasked; [done|].
  by intros [c|?|?] m1 Hm1.
Qed.

Lemma commit_output_unasked state body action output m :
  unasked m0 m → quiet (commit_tool_output_report state body action output) m.
Proof.
  intros Hm. unfold commit_tool_output_report. apply follows_pbind, next_metadata_unasked; [done|].
  intros [md|?|?] m1 Hm1; [|done..]. apply follows_pbind, follows_pmap_err.
  eapply follows_writes; [by apply output_commits|..];
    [by intros m2 c s' _ <- _|by intros e m2 <-|by intros w m2 _ <- _].
Qed.

Lemma sink_execute_unasked (sink : DirectSink A) intent (p : CorePreparedEffect I) w :
  (sink_execute sink intent p w).2.2 = w.2.
Proof.
  cbn. unfold DirectSink_execute. unfold invocation_execute, watched_adapter.
  by destruct (invocation_execute _ _).
Qed.

Lemma sink_reconcile_unasked (sink : DirectSink A) intent w :
  (sink_reconcile (P := CorePreparedEffect I) sink intent w).2.2 = w.2.
Proof.
  cbn. unfold DirectSink_reconcile.
  destruct (DirectSink.adapter sink), (DirectSink.reconciliation_instance sink); [|done..].
  unfold adapter_reconcile, watched_adapter. by destruct (adapter_reconcile _ _ _).
Qed.

Lemma execute_intent_unasked policy (sink : DirectSink A) state step (prepared : option (CorePreparedEffect I)) m :
  unasked m0 m → quiet (execute_intent policy sink state step prepared) m.
Proof.
  intros Hm. unfold execute_intent. destruct (require_intent step) as [intent|?|?]; [|done..].
  case_bool_decide; [done|]. destruct prepared as [p|]; cbn [ok_or]; [|done].
  destruct (verify_prepared_invocation _ _ _ _); [|done..].
  apply follows_pbind, follows_pmap_err, follows_reads. intros m1 _ <-.
  destruct (load_invocation_material _ _) as [[record|]|?|?]; cbn [map_err ok_or]; [|done..].
  case_bool_decide; [done|]. apply follows_pbind, append_unasked; [done|].
  intros [started|?|?] m2 Hm2; [|done..]. apply follows_bind, follows_asks. intros m3 _ <-.
  assert (∀ w, w = (sink_execute sink intent p (Machine.world m2)).2 →
    unasked m0 (Machine.mk (Machine.store m2) w)) as Hx.
  { intros w ->. unfold unasked. cbn [Machine.world]. by rewrite sink_execute_unasked. }
  destruct (classify_execution_observation _ _ _ _ _) as [pending|?|?]; [|by apply Hx..].
  destruct (PendingExecutionCommit.output pending);
    [by apply commit_output_unasked, Hx|by apply commit_report_unasked, Hx].
Qed.

Lemma finish_reconciliation_unasked (sink : DirectSink A) state step m :
  unasked m0 m → quiet (finish_reconciliation (P := CorePreparedEffect I) sink state step) m.
Proof.
  intros Hm. unfold finish_reconciliation. destruct (require_intent step) as [intent|?|?]; [|done..].
  destruct (negb _); [by apply commit_report_unasked|].
  apply follows_pbind, follows_pmap_err, follows_asks. intros m1 _ <-.
  pose proof (sink_reconcile_unasked sink intent (Machine.world m)) as Hr.
  destruct (sink_reconcile sink intent (Machine.world m)) as [[observation|[]|?] w']; cbn in *;
    [|by unfold unasked in *; cbn; rewrite Hr].
  assert (unasked m0 (Machine.mk (Machine.store m) w')) as Hx by (by unfold unasked in *; cbn; rewrite Hr).
  destruct (classify_reconciliation _ _ _); [|done..]. by apply commit_report_unasked.
Qed.

Lemma durable_unasked policy (sink : DirectSink A) (lease : L) step_id
    (prepared : option (CorePreparedEffect I)) m :
  unasked m0 m → quiet (DurableRuntime.drive_step policy sink lease step_id prepared) m.
Proof.
  intros Hm. unfold DurableRuntime.drive_step. apply follows_pbind, follows_pmap_err, follows_reads.
  intros m1 _ <-. rewrite load_current_projection. cbn [map_err].
  destruct (M.projection (Machine.store m)) as [state|]; cbn [ok_or]; [|done].
  destruct (DurableRuntime.verify_lease lease state); [|done..].
  destruct (RunState.steps state !! step_id) as [step|]; cbn [ok_or]; [|done].
  destruct (StepState.status step); try done.
  - by apply execute_intent_unasked.
  - unfold mark_recovered_execution_unknown. destruct (require_intent step); [|done..].
    by apply commit_report_unasked.
  - unfold begin_reconciliation. destruct (require_intent step); [|done..].
    destruct (negb _); [by apply commit_report_unasked|].
    apply follows_pbind, append_unasked; [done|]. intros [c|?|?] m1 Hm1; [|done..].
    destruct (ok_or _ _); [|done..]. by apply finish_reconciliation_unasked.
  - by apply finish_reconciliation_unasked.
Qed.
End below.

(** ** What the executor asks for *)

Definition asked (policy : RuntimePolicy) (registry : CapabilityRegistry) (step_id : string)
    (m0 m : machine (watched W)) : Prop :=
  ∃ requests, (Machine.world m).2 = (Machine.world m0).2 ++ requests ∧ length requests ≤ 1 ∧
    ∀ request, request ∈ requests → sanctioned policy registry (Machine.store m0) step_id request.

Lemma unasked_asked policy registry step_id m0 m : unasked m0 m → asked policy registry step_id m0 m.
Proof. intros Hm. exists []. rewrite app_nil_r. split_and!; [done|cbn; lia|by intros q ?%elem_of_nil]. Qed.

Lemma drive_durable_asked policy registry (sink : DirectSink A) (lease : L) step_id
    (prepared : option (CorePreparedEffect I)) m0 m :
  asked policy registry step_id m0 m →
  follows eq (λ _, asked policy registry step_id m0) (drive_durable policy sink lease step_id prepared) m.
Proof.
  intros (requests & Hw & Hlen & Hall). unfold drive_durable. apply follows_pmap_err.
  eapply follows_weaken; [|by apply (durable_unasked m)].
  intros r m' Hm'. exists requests. unfold unasked in Hm'. by rewrite Hm'.
Qed.

(** The checks of the executor, read back. *)
Lemma current_instance_facts registry intent instance :
  verify_current_instance registry intent = Ok instance →
  (∃ definition, Registry.definition registry (intent_capability intent) = Some definition ∧
     definition_contract_digest definition
       = Ok (InvocationBinding.definition_digest (EffectIntent.invocation intent))) ∧
  Registry.instance registry (InvocationBinding.instance_id (EffectIntent.invocation intent)) = Some instance ∧
  CapabilityInstanceBody.definition instance = intent_capability intent ∧
  executable_binding_digest instance
    = Ok (InvocationBinding.instance_binding_digest (EffectIntent.invocation intent)).
Proof.
  unfold verify_current_instance, definition_of_intent. intros Hv. repeat res_step. bool_inv. subst.
  split_and!; try done. by eexists.
Qed.

Lemma dynamic_gate_facts instance u :
  verify_dynamic_execution_gate instance = Ok u →
  CapabilityInstanceBody.placement instance = Placement.Local ∧
  Health.status (CapabilityInstanceBody.health instance) = HealthStatus.Available ∧
  Auth.state (CapabilityInstanceBody.auth instance) = AuthState.NotRequired.
Proof.
  unfold verify_dynamic_execution_gate. intros Hv. repeat res_step. bool_inv.
  split_and!; [done|by destruct (Health.status _)|by destruct (Auth.state _)].
Qed.

(** The authorization names the digest of the verified record. *)
Lemma verified_record_digest record run_id step_id intent :
  InvocationMaterialRecord_verify_for record run_id step_id intent = Ok tt →
  AuthorizationBinding.material_digest (AuthorizationUse.binding (EffectIntent.authorization intent))
    = InvocationMaterialRecord.material_digest record.
Proof. unfold InvocationMaterialRecord_verify_for. intros Hv. by res_inv. Qed.

Lemma watched_prepare adapter request (w : watched W) :
  adapter_prepare (I := I) adapter request w
  = ((adapter_prepare adapter request w.1).1, ((adapter_prepare (I := I) adapter request w.1).2, w.2 ++ [request])).
Proof. unfold adapter_prepare at 1, watched_adapter. by destruct (adapter_prepare adapter request w.1). Qed.

Lemma drive_committed_asked policy (lease : L) registry (adapters : EffectAdapterRegistry A) state step
    step_id material m :
  M.projection (Machine.store m) = Some state → RunState.steps state !! step_id = Some step →
  StepState.status step = StepStatus.IntentCommitted →
  follows eq (λ _, asked policy registry step_id m)
    (drive_committed policy lease registry adapters state step step_id material) m.
Proof.
  intros Hs Hst Hstatus. assert (asked policy registry step_id m m) as Hrefl by (by apply unasked_asked).
  unfold drive_committed. destruct (StepState.intent step) as [intent|] eqn:Hi; cbn [ok_or]; [|done].
  destruct (verify_receipt_provenance intent); [|done..]. case_bool_decide as Hlimit; [done|].
  destruct material as [material|]; cbn [ok_or]; [|done].
  apply follows_pbind. unfold verify_material.
  destruct (InvocationMaterialRecord_verify_for _ _ _ _) as [[]|?|?] eqn:Hverify; cbn [map_err]; [|done..].
  apply follows_pbind, follows_pmap_err, follows_reads. intros m1 _ <-.
  destruct (load_invocation_material _ _) as [[record|]|?|?] eqn:Hload; cbn [map_err ok_or]; [|done..].
  case_bool_decide as Hrecord; [done|]. subst record.
  destruct (invocation_material_digest _) as [digest|?|?] eqn:Hdigest; cbn [map_err]; [|done..].
  case_bool_decide as Hsame; [done|]. subst digest. apply follows_ret.
  destruct (verify_current_instance registry intent) as [instance|?|?] eqn:Hinstance; [|done..].
  destruct (verify_dynamic_execution_gate instance) as [u|?|?] eqn:Hgate; [|done..].
  destruct (build_tool_output_validator registry intent) as [validator|?|?]; [|done..].
  destruct (find_adapter adapters instance) as [[key adapter]|?|?]; [|done..].
  apply follows_pbind, follows_pmap_err, follows_asks. intros m2 _ <-. rewrite watched_prepare.
  set (request := AdapterPrepareRequest.mk _ _ _). cbn [fst snd].
  assert (∀ w, asked policy registry step_id m
    (Machine.mk (Machine.store m) (w, (Machine.world m).2 ++ [request]))) as Hasked.
  { intros w. exists [request]. split_and!; [done|cbn; lia|].
    intros q ->%list_elem_of_singleton. unfold request, sanctioned. cbn.
    destruct (current_instance_facts _ _ _ Hinstance) as ((definition & Hdef & Hdd) & Hi1 & Hi2 & Hi3).
    destruct (dynamic_gate_facts _ _ Hgate) as (Hg1 & Hg2 & Hg3).
    exists state, step, (InvocationMaterial.record material), definition.
    rewrite (verified_record_digest _ _ _ _ Hverify). split_and!; try done. lia. }
  destruct (adapter_prepare adapter request _).1 as [invocation|?|?]; cbn [map_err]; [|apply Hasked..].
  by apply drive_durable_asked.
Qed.

Lemma drive_uncertain_asked policy (lease : L) registry (adapters : EffectAdapterRegistry A) step step_id m :
  follows (A := res DirectExecutorError DriveReport) eq (λ _, asked policy registry step_id m)
    (drive_uncertain (I := I) policy lease registry adapters step step_id) m.
Proof.
  assert (asked policy registry step_id m m) as Hrefl by (by apply unasked_asked).
  unfold drive_uncertain. destruct (StepState.intent step) as [intent|]; cbn [ok_or]; [|done].
  destruct (verify_receipt_provenance intent); [|done..].
  destruct (negb _); [by apply drive_durable_asked|].
  destruct (verify_current_instance _ _); [|done..]. destruct (verify_dynamic_execution_gate _); [|done..].
  destruct (find_adapter _ _); [|done..]. by apply drive_durable_asked.
Qed.

Lemma executor_asked policy (lease : L) registry (adapters : EffectAdapterRegistry A) step_id material m :
  follows eq (λ _, asked policy registry step_id m)
    (Executor.drive_step policy lease registry adapters step_id material) m.
Proof.
  assert (asked policy registry step_id m m) as Hrefl by (by apply unasked_asked).
  unfold Executor.drive_step. apply follows_pbind, follows_pmap_err, follows_reads. intros m1 _ <-.
  rewrite load_current_projection. cbn [map_err].
  destruct (M.projection (Machine.store m)) as [state|] eqn:Hs; cbn [ok_or]; [|done].
  destruct (Executor.verify_lease lease state); [|done..].
  destruct (RunState.steps state !! step_id) as [step|] eqn:Hst; cbn [ok_or]; [|done].
  destruct (StepState.status step) eqn:Hstatus;
    first [by apply drive_durable_asked | by apply drive_committed_asked | by apply drive_uncertain_asked].
Qed.
End spy.

(** What admission guarantees: an effect is committed only as policy allowed it, everything else
    only reads, and what an adapter is later asked to prepare is what was authorized. *)

(** C5: Authorizing a pending invocation either commits the effect or leaves the store exactly as
    it was.  It commits only under unmanaged policy whose evaluation of exactly the prepared request
    allows it once and without critical actions, on an instance the router selects under that
    evaluation and that is local, while the head is the one the invocation was prepared at and the
    definition still has the prepared digest.  The commit is a single append of the intent with its
    material record; the intent's one-use authorization is bound to that run, head, step, action,
    material, definition and executable, and to no sink that could be queried. *)
Theorem authorization_commits_what_was_allowed {W L} `{!EventFactory W} `{!RunLease L} `{Crypto}
    `{JsonSchema} `{PolicyDecisionSchema} `{Target} `{ReceiptSchema} `{Rfc3339}
    (pending : PendingInvocation) (inputs : PolicyInputs) (registry : CapabilityRegistry) (lease : L)
    (m m' : machine W) (r : res AdmissionError AdmissionOutcome) :
  reachable (Machine.store m) →
  run (authorize_and_commit pending inputs registry lease) m = (r, m') →
  reachable (Machine.store m') ∧
  match r with
  | Ok (AdmissionOutcome.Authorized effect) =>
      authorized_by pending inputs registry (RunLease.run_id lease) (Machine.store m) effect
        (Machine.store m') ∧
      M.records (Machine.store m')
        = M.records (Machine.store m) ++ [Commit.record (AdmittedEffect.commit effect)]
  | _ => Machine.store m' = Machine.store m
  end.
Proof.
  intros Hre Hrun.
  destruct (follows_run eq _ _ m _ Hre (authorize_alone pending inputs registry lease m)) as (Hr & Hre' & _).
  rewrite Hrun in *. cbn [fst snd] in *. split; [done|].
  destruct r as [[effect|]| |]; try done. split; [done|].
  destruct Hr as (state & definition & evaluation & instance & event & intent & Hr).
  assert (append_with_invocation_material (Machine.store m) (ExpectedHead.from_state state) event
    (AdmittedEffect.material_record effect) = Ok (AdmittedEffect.commit effect, Machine.store m')) as Happ by apply Hr.
  apply material_commits in Happ.
  by destruct (commits_inv _ _ _ _ _ (reachable_inv _ Hre) Happ) as [_ [_ -> _ _ _]].
Qed.

(** C30: Preparing an invocation, preparing a planned one and recovering material never change the
    store.  A pending invocation carries the run's head, the route, and the request, digests and
    normalized arguments computed from the catalog for a step that is ready for admission; recovered
    material is the durable record of a committed effect with arguments of the recorded digest. *)
Theorem preparation_only_reads {W L R V} `{!EventFactory W} `{!RunLease L} `{!ResourceResolver R}
    `{!InvocationMaterialProvider W V} `{Crypto} `{JsonSchema} `{JsonPointer} `{ReceiptSchema} `{Rfc3339}
    (lease : L) (registry : CapabilityRegistry) (resolver : R) (providers : MaterialProviderRegistry V)
    (request : AdmissionRequest) (planned : PlannedAdmissionRequest) (step_id : string) (m : machine W) :
  reachable (Machine.store m) →
  (let '(r, m') := run (prepare lease registry resolver request) m in
   Machine.store m' = Machine.store m ∧
   ∀ pending, r = Ok pending →
     prepared_from registry resolver request (RunLease.run_id lease) (Machine.store m) pending) ∧
  Machine.store (run (prepare_planned_admission lease registry resolver providers planned) m).2
    = Machine.store m ∧
  (let '(r, m') := run (recover lease registry resolver providers step_id) m in
   Machine.store m' = Machine.store m ∧
   ∀ material, r = Ok material → recovered_from (Machine.store m) step_id material).
Proof.
  intros Hre. split; [|split].
  - destruct (follows_run eq _ _ m _ Hre (prepare_alone lease registry resolver request m)) as (Hr & _).
    by destruct (run _ m).
  - by destruct (follows_run eq _ _ m _ Hre
      (prepare_planned_alone lease registry resolver providers planned m)) as (Hr & _).
  - destruct (follows_run eq _ _ m _ Hre (recover_alone lease registry resolver providers step_id m)) as (Hr & _).
    by destruct (run _ m).
Qed.

(** C15: In one drive step the executor asks an adapter to prepare at most once, and only what the
    journal sanctions: the committed intent of the step with attempts left, arguments of the digest
    its authorization names, and the instance and definition of the catalog with the digests the
    effect was admitted for, the instance being local, available and in need of no credential. *)
Theorem adapters_see_only_sanctioned_requests {W L A I} `{!EffectAdapter W A I} `{!EventFactory W}
    `{!RunLease L} `{Crypto} `{JsonSchema} `{Target} `{ReceiptSchema} `{Rfc3339}
    (policy : RuntimePolicy) (lease : L) (registry : CapabilityRegistry)
    (adapters : EffectAdapterRegistry A) (step_id : string) (material : option InvocationMaterial)
    (m : machine (watched W)) :
  reachable (Machine.store m) →
  let m' := (run (Executor.drive_step policy lease registry adapters step_id material) m).2 in
  ∃ requests, (Machine.world m').2 = (Machine.world m).2 ++ requests ∧ length requests ≤ 1 ∧
    ∀ request, request ∈ requests → sanctioned policy registry (Machine.store m) step_id request.
Proof.
  intros Hre m'.
  by destruct (follows_run eq _ _ m _ Hre (executor_asked policy lease registry adapters step_id material m)) as (Hr & _).
Qed.

(** ** From authorization to execution *)

Section composition.
Context `{Crypto} `{ReceiptSchema} `{Rfc3339}.

(** A committed intent stays. *)
Lemma later_intent self self' s id a :
  reachable self → later self self' → M.projection self = Some s → intent_at (RunState.steps s) id a →
  ∃ s', M.projection self' = Some s' ∧ intent_at (RunState.steps s') id a.
Proof.
  intros Hre Hla Hs Ha. induction Hla as [|self1 expected event commit self2 Hla IH Hco]; [by exists s|].
  destruct IH as (s1 & Hs1 & Ha1). exists (Commit.state commit).
  assert (reachable self1) as Hre1 by (by eapply later_reachable).
  assert (expected = ExpectedHead.from_state s1) as ->.
  { rewrite (projection_head self1) by (try done; by apply reachable_inv).
    by apply (commits_head _ _ _ _ _ (reachable_inv _ Hre1) Hco). }
  pose proof (seen_successor _ _ _ _ _ Hre1 (seen_now _ _ Hre1 Hs1) Hco) as Hsu.
  split; [apply Hsu|]. destruct (apply_record_some _ _ _ (su_inv _ _ _ _ Hsu) (su_applied _ _ _ _ Hsu))
    as (_ & _ & _ & s2 & _ & -> & Hch). eapply intent_kept; [apply (su_inv _ _ _ _ Hsu)|done..].
Qed.

(** The intent of an authorized effect is in the store. *)
Lemma authorized_intent {W L} `{!EventFactory W} `{!RunLease L} `{JsonSchema} `{PolicyDecisionSchema} `{Target}
    pending inputs registry run_id self effect self' :
  reachable self → authorized_by pending inputs registry run_id self effect self' →
  ∃ s a, M.projection self' = Some s ∧
    intent_at (RunState.steps s)
      (ResolvedPermissionRequest.step_id (PendingInvocation.permission_request pending)) a ∧
    EffectIntent.effect_id a = AdmittedEffect.effect_id effect ∧
    AuthorizationBinding.material_digest (AuthorizationUse.binding (EffectIntent.authorization a))
      = PendingInvocation.material_digest pending.
Proof.
  intros Hre (state & definition & evaluation & instance & event & intent & _ & Hs & _ & _ & _ & _ & _ & _ & _ &
    _ & Hissued & Hbody & Heffect & _ & Happ).
  pose proof (seen_successor _ _ _ _ _ Hre (seen_now _ _ Hre Hs) (material_commits _ _ _ _ _ _ Happ)) as Hsu.
  exists (Commit.state (AdmittedEffect.commit effect)), intent. split; [apply Hsu|]. split; [|by split; [|apply Hissued]].
  destruct (successor_steps _ _ _ _ Hsu) as (s1 & Es & Hst). rewrite Hbody in Hst.
  destruct Hst as [?|?|?|id a st Hb _ E|id st st' Hid]; [done..| |done]. injection Hb as <- <-.
  exists (StepState.set_status StepStatus.IntentCommitted (StepState.set_intent (Some intent) st)).
  by rewrite Es, E, lookup_insert_eq.
Qed.

(** What the material digest of arguments is the digest of. *)
Definition material_input (v : Value) : Value :=
  InvocationMaterialDigestInput "xgeny.invocation-material.payload/v1" v.

Lemma canonical_material_input (v : Value) d :
  canonical_input v → canonical_input (InvocationMaterialDigestInput d v).
Proof.
  intros [Hs Hn]. unfold InvocationMaterialDigestInput. split; [sorted_obj|ijson_members].
Qed.

(** An adapter's request for a step whose intent is in an earlier store carries that intent and
    arguments of the digest its authorization names. *)
Lemma sanctioned_intent `{JsonSchema} policy registry self self' step_id s a request :
  reachable self → M.projection self = Some s → intent_at (RunState.steps s) step_id a →
  later self self' → sanctioned policy registry self' step_id request →
  AdapterPrepareRequest.intent request = a ∧
  invocation_material_digest (AdapterPrepareRequest.normalized_arguments request)
    = Ok (AuthorizationBinding.material_digest (AuthorizationUse.binding (EffectIntent.authorization a))).
Proof.
  intros Hre Hs Ha Hla (s3 & st & record & definition & Hs3 & Hst & _ & Hi & _ & _ & _ & Hdigest & _).
  destruct (later_intent _ _ _ _ _ Hre Hla Hs Ha) as (s3' & Hs3' & st' & Hst' & Hi').
  assert (AdapterPrepareRequest.intent request = a) as <- by congruence. done.
Qed.
End composition.

(** C3: Prepare an invocation, authorize it later, and let any number of appends pass.  Whatever
    the executor then gives an adapter to prepare for that step is the effect that was authorized,
    with the very arguments that were normalized at preparation and shown to policy, unless the
    digest inputs of exactly these two arguments collide under SHA-256. *)
Theorem executed_arguments_are_the_authorized_ones {W W' L A I R} `{!EventFactory W}
    `{!EffectAdapter W' A I} `{!EventFactory W'} `{!RunLease L} `{!ResourceResolver R} `{Crypto}
    `{!CryptoLaws} `{JsonSchema} `{JsonPointer} `{PolicyDecisionSchema} `{Target} `{ReceiptSchema}
    `{Rfc3339} (lease : L) (registry registry' registry'' : CapabilityRegistry) (resolver : R)
    (request : AdmissionRequest) (pending : PendingInvocation) (inputs : PolicyInputs)
    (effect : AdmittedEffect) (policy : RuntimePolicy) (adapters : EffectAdapterRegistry A)
    (material : option InvocationMaterial) (m0 m0' m1 m2 : machine W) (m3 : machine (watched W')) :
  reachable (Machine.store m0) → reachable (Machine.store m1) →
  run (prepare lease registry resolver request) m0 = (Ok pending, m0') →
  run (authorize_and_commit pending inputs registry' lease) m1
    = (Ok (AdmissionOutcome.Authorized effect), m2) →
  later (Machine.store m2) (Machine.store m3) →
  let step_id := ResolvedPermissionRequest.step_id (PendingInvocation.permission_request pending) in
  let m3' := (run (Executor.drive_step policy lease registry'' adapters step_id material) m3).2 in
  ∃ requests, (Machine.world m3').2 = (Machine.world m3).2 ++ requests ∧ length requests ≤ 1 ∧
    ∀ asked, asked ∈ requests →
      EffectIntent.effect_id (AdapterPrepareRequest.intent asked) = AdmittedEffect.effect_id effect ∧
      (canonical_input (PendingInvocation.normalized_arguments pending) →
       canonical_input (AdapterPrepareRequest.normalized_arguments asked) →
       AdapterPrepareRequest.normalized_arguments asked = PendingInvocation.normalized_arguments pending ∨
       digests_collide (material_input (AdapterPrepareRequest.normalized_arguments asked))
         (material_input (PendingInvocation.normalized_arguments pending))).
Proof.
  intros Hre0 Hre1 Hprepare Hauthorize Hla step_id m3'.
  destruct (follows_run eq _ _ m0 _ Hre0 (prepare_alone lease registry resolver request m0)) as [Hp _].
  rewrite Hprepare in Hp. destruct Hp as [_ Hp]. destruct (Hp _ eq_refl)
    as (state & facts & _ & _ & _ & _ & _ & Hfacts & Harguments & _ & _ & Hmaterial & _).
  apply facts_material in Hfacts. rewrite <-Harguments, <-Hmaterial in Hfacts.
  destruct (follows_run eq _ _ m1 _ Hre1 (authorize_alone pending inputs registry' lease m1)) as (Ha & Hre2 & _).
  rewrite Hauthorize in Ha, Hre2. cbn [fst snd authorization_result] in Ha, Hre2.
  destruct (authorized_intent _ _ _ _ _ _ _ Hre1 Ha) as (s & a & Hs & Hat & Heffect & Hdigest).
  destruct (follows_run eq _ _ m3 _ (later_reachable _ _ Hre2 Hla)
    (executor_asked policy lease registry'' adapters step_id material m3)) as [(requests & Hw & Hlen & Hall) _].
  exists requests. split; [done|]. split; [done|]. intros asked Hin.
  destruct (sanctioned_intent _ _ _ _ _ _ _ _ Hre2 Hs Hat Hla (Hall _ Hin)) as [-> Hd].
  split; [done|]. intros Hc1 Hc2. rewrite Hdigest in Hd.
  destruct (digest_commits _ _ _ _ _ Hd Hfacts) as [Heq%InvocationMaterialDigestInput_inj|];
    [by apply canonical_material_input..|by left|by right].
Qed.
