(* ===== verification/Scripts.v ===== *)
(** What the drive steps of the executor and the verification runner write and report: run alone,
    the result fixes what was appended; under interference, a report shows the state the store
    holds and the status the action names. *)

From S2P Require Import Prelude Program Text Wire Domain Registry WorkGraphTypes WorkGraphErrors.
From S2P Require Import Planning Material ToolOutput Completion Journal StepMachine Reducer.
From S2P Require Import RunInvariant Receipt StoreTypes StoreBundles MemoryStore Host Invocation.
From S2P Require Import Admission Recovery Adapters DurableRuntime Verification Executor.
From S2P Require Import StoreIndex StoreSpec StoreProofs StoreRuns StoreTheorems MachineLogic.
From S2P Require Import RuntimeSafety Attempts.

Definition status_after (action : DriveAction) (s : StepStatus) : bool :=
  match action, s with
  | DriveAction.EffectSucceeded, StepStatus.Validating
  | DriveAction.EffectFailed, StepStatus.Failed
  | (DriveAction.EffectUnknown | DriveAction.ExecutionRecoveredAsUnknown), StepStatus.EffectUnknown
  | DriveAction.ReconciliationApplied, StepStatus.Validating
  | DriveAction.ReconciliationNotApplied, StepStatus.IntentCommitted
  | DriveAction.ReconciliationFailed, StepStatus.Failed
  | DriveAction.ManualRequired, StepStatus.ManualRequired
  | DriveAction.VerificationPassed, StepStatus.Completed
  | DriveAction.VerificationFailed, StepStatus.Failed
  | DriveAction.VerificationInconclusive, StepStatus.ManualRequired
  | DriveAction.NoAction, (StepStatus.Planned | StepStatus.Validating | StepStatus.Completed
                          | StepStatus.Failed | StepStatus.ManualRequired) => true
  | _, _ => false
  end.

Section reports.
Context {W : Type} `{Crypto} `{ReceiptSchema} `{Rfc3339}.

Definition truthful {E} (step_id : string) (r : res E DriveReport) (m : machine W) : Prop :=
  ∀ report, r = Ok report →
    M.projection (Machine.store m) = Some (DriveReport.state report) ∧
    ∃ st, RunState.steps (DriveReport.state report) !! step_id = Some st ∧
      status_after (DriveReport.action report) (StepState.status st) = true.

Lemma truthful_err {E} step_id (e : E) m : truthful step_id (Err e) m.
Proof. by intros report. Qed.
Lemma truthful_panic {E} step_id why m : truthful (E := E) step_id (Panic why) m.
Proof. by intros report. Qed.

Lemma truthful_map_err {E F} step_id (f : E → F) r m :
  truthful step_id r m → truthful step_id (map_err f r) m.
Proof. destruct r; intros Hr report; cbn; try done. intros [= ->]. by apply Hr. Qed.

(** A body that takes every step it is applied to where the action says. *)
Definition reports (body : RunEventBody) (action : DriveAction) (step_id : string) : Prop :=
  lifecycle_step body = Some step_id ∧
  ∀ st st', lifecycle body st st' → status_after action (StepState.status st') = true.

Lemma successor_truthful {E} state event commit m action step_id :
  successor state event commit (Machine.store m) → reports (RunEvent.body event) action step_id →
  truthful (E := E) step_id (Ok (DriveReport.mk action (Commit.state commit))) m.
Proof.
  intros Hsu [Hid Hafter] report [= <-]. cbn. split; [apply Hsu|].
  destruct (successor_lifecycle _ _ _ _ _ Hsu Hid) as (st & st' & _ & Hlc & ->).
  exists st'. split; [by rewrite lookup_insert_eq|by eapply Hafter].
Qed.

Lemma seen_run_inv state self : seen state self → run_inv state.
Proof. intros (s0 & Hre & Hs & _). eapply store_inv_run_inv; [by apply reachable_inv|done]. Qed.

Lemma seen_successor_state state event commit self :
  successor state event commit self → seen (Commit.state commit) self.
Proof. intros Hsu. by apply seen_now; apply Hsu. Qed.
End reports.

(** A branch that returns no report. *)
Ltac failed :=
  intros; cbn beta iota;
  first [apply truthful_err | apply truthful_panic
        | apply follows_ret; first [apply truthful_err | apply truthful_panic]].

Section durable.
Context {W L E P : Type} `{!EffectSink W E P} `{!EventFactory W} `{!RunLease L} `{!PreparedEffect P}.
Context `{Crypto} `{ReceiptSchema} `{Rfc3339}.

Lemma next_metadata_follows R (state : RunState) (Q : res RuntimeError EventMetadata → machine W → Prop) m :
  (∀ r m1 w, reachable (Machine.store m1) → R m m1 → Q r (Machine.mk (Machine.store m1) w)) →
  follows R Q (next_metadata state) m.
Proof.
  intros HQ. unfold next_metadata. apply follows_pbind, follows_pmap_err, follows_asks.
  intros m1 Hre1 Hm1. destruct (create_metadata state _).1 as [md|?|?]; cbn [map_err]; [|by apply HQ..].
  destruct (map_err _ (EventMetadata_validate md)); apply follows_ret; by apply HQ.
Qed.

Lemma append_event_follows state body (Q : res RuntimeError Commit → machine W → Prop) m :
  seen state (Machine.store m) →
  (∀ event commit m', RunEvent.body event = body → successor state event commit (Machine.store m') →
     Q (Ok commit) m') →
  (∀ e m', Q (Err e) m') → (∀ why m', Q (Panic why) m') →
  follows grows_to Q (append_event state body) m.
Proof.
  intros Hseen HQ HE HP. unfold append_event. apply follows_pbind, next_metadata_follows.
  intros [md|?|?] m1 w Hre1 Hm1; [|done..]. apply follows_pmap_err.
  eapply follows_writes; [by apply plain_commits| |intros; by apply HE|intros; by apply HP].
  intros m2 commit self' Hre2 Hm2 Happ. apply (HQ (event_for state md body)); [done|].
  eapply seen_successor; [exact Hre2| |by eapply plain_commits].
  eapply seen_later; [done|]. unfold grows_to in *. cbn in *. by etrans.
Qed.

Lemma commit_report_follows state body action step_id m :
  seen state (Machine.store m) → reports body action step_id →
  follows (W := W) grows_to (truthful step_id) (commit_report state body action) m.
Proof.
  intros Hseen Hrep. unfold commit_report.
  apply follows_pbind, append_event_follows; [done| |failed..].
  intros event commit m' <- Hsu. apply follows_ret. by eapply successor_truthful.
Qed.

Lemma commit_output_follows state body action output step_id m :
  seen state (Machine.store m) → reports body action step_id →
  follows (W := W) grows_to (truthful step_id) (commit_tool_output_report state body action output) m.
Proof.
  intros Hseen Hrep. unfold commit_tool_output_report. apply follows_pbind, next_metadata_follows.
  intros [md|?|?] m1 w Hre1 Hm1; [|failed..]. apply follows_pbind, follows_pmap_err.
  eapply follows_writes; [by apply output_commits| |failed..].
  intros m2 commit self' Hre2 Hm2 Happ. apply follows_ret. eapply successor_truthful.
  - eapply seen_successor; [exact Hre2| |by eapply output_commits].
    eapply seen_later; [done|]. unfold grows_to in *. cbn in *. by etrans.
  - done.
Qed.

Lemma classified_reports started step intent required observation pending :
  classify_execution_observation started step intent required observation = Ok pending →
  reports (PendingExecutionCommit.body pending) (PendingExecutionCommit.action pending)
    (StepState.step_id step).
Proof.
  assert (∀ digest output, reports (PendingExecutionCommit.body (PendingExecutionCommit.succeeded step intent digest output))
    DriveAction.EffectSucceeded (StepState.step_id step)) as Hs.
  { split; [done|]. intros st st' Hlc. by inversion Hlc. }
  assert (∀ digest, reports (PendingExecutionCommit.body (PendingExecutionCommit.failed step intent digest))
    DriveAction.EffectFailed (StepState.step_id step)) as Hf.
  { split; [done|]. intros st st' Hlc. by inversion Hlc. }
  assert (∀ reason, reports (PendingExecutionCommit.body (PendingExecutionCommit.unknown step intent reason))
    DriveAction.EffectUnknown (StepState.step_id step)) as Hu.
  { split; [done|]. intros st st' Hlc. by inversion Hlc. }
  destruct observation; cbn [classify_execution_observation]; intros Hc; repeat res_step; try done.
  unfold classify_output_success in Hc. repeat res_step; try done.
  destruct (ToolOutputRecord_new _ _ _ _ _ _); [| |done]; injection Hc as <-; [apply Hs|apply Hu].
Qed.

Lemma reconciled_reports step intent observation outcome :
  classify_reconciliation step intent observation = Ok outcome →
  reports outcome.1 outcome.2 (StepState.step_id step).
Proof.
  destruct observation; cbn; intros Hc; repeat res_step;
    (split; [done|]; intros st st' Hlc; by inversion Hlc).
Qed.

(** A body that only needs its constructor inspected. *)
Lemma unknown_reports step_id e reason :
  reports (RunEventBody.EffectBecameUnknown step_id e reason) DriveAction.ExecutionRecoveredAsUnknown step_id.
Proof. split; [done|]. intros st st' Hlc. by inversion Hlc. Qed.
Lemma manual_reports step_id e reason :
  reports (RunEventBody.ManualInterventionRequired step_id e reason) DriveAction.ManualRequired step_id.
Proof. split; [done|]. intros st st' Hlc. by inversion Hlc. Qed.

Lemma step_key state self id st :
  seen state self → RunState.steps state !! id = Some st → StepState.step_id st = id.
Proof. intros Hs%seen_run_inv. by apply (so_keys _ (ri_steps _ Hs)). Qed.

Lemma execute_intent_follows policy (sink : E) state step (prepared : option P) step_id m :
  seen state (Machine.store m) → RunState.steps state !! step_id = Some step →
  follows (W := W) grows_to (truthful step_id) (execute_intent policy sink state step prepared) m.
Proof.
  intros Hseen Hst. pose proof (step_key _ _ _ _ Hseen Hst) as <-.
  unfold execute_intent. destruct (require_intent step) as [intent|?|?]; [|failed..].
  case_bool_decide; [failed|]. destruct prepared as [p|]; cbn [ok_or]; [|failed].
  destruct (verify_prepared_invocation _ _ _ _) as [u|?|?]; [|failed..].
  apply follows_pbind, follows_pmap_err, follows_reads. intros m1 _ Hm1.
  destruct (load_invocation_material _ _) as [record|?|?]; cbn [map_err]; [|failed..].
  destruct record as [r|]; cbn [ok_or]; [|failed]. case_bool_decide; [failed|].
  apply follows_pbind, append_event_follows; [by eapply seen_later| |failed..].
  intros event started m2 Hbody Hsu. apply follows_bind, follows_asks. intros m3 _ Hm3.
  destruct (classify_execution_observation _ _ _ _ _) as [pending|?|?] eqn:Hc; [|failed..].
  pose proof (classified_reports _ _ _ _ _ _ Hc).
  assert (seen (Commit.state started) (Machine.store m3)) as Hseen'.
  { eapply seen_later; [by eapply seen_successor_state|done]. }
  destruct (PendingExecutionCommit.output pending);
    [by apply commit_output_follows|by apply commit_report_follows].
Qed.

Lemma finish_reconciliation_follows (sink : E) state step step_id m :
  seen state (Machine.store m) → RunState.steps state !! step_id = Some step →
  follows (W := W) grows_to (truthful step_id) (finish_reconciliation (P := P) sink state step) m.
Proof.
  intros Hseen Hst. pose proof (step_key _ _ _ _ Hseen Hst) as <-.
  unfold finish_reconciliation. destruct (require_intent step) as [intent|?|?]; [|failed..].
  destruct (negb _); [apply commit_report_follows; [done|apply manual_reports]|].
  apply follows_pbind, follows_pmap_err, follows_asks. intros m1 _ Hm1.
  destruct (sink_reconcile _ _ _).1 as [observation|[]|?]; cbn [map_err]; [|failed].
  destruct (classify_reconciliation _ _ _) as [outcome|?|?] eqn:Hc; [|failed..].
  apply commit_report_follows; [by eapply seen_later|by eapply reconciled_reports].
Qed.

Lemma begin_reconciliation_follows (sink : E) state step step_id m :
  seen state (Machine.store m) → RunState.steps state !! step_id = Some step →
  follows (W := W) grows_to (truthful step_id) (begin_reconciliation (P := P) sink state step) m.
Proof.
  intros Hseen Hst. pose proof (step_key _ _ _ _ Hseen Hst) as <-.
  unfold begin_reconciliation. destruct (require_intent step) as [intent|?|?]; [|failed..].
  destruct (negb _); [apply commit_report_follows; [done|apply manual_reports]|].
  apply follows_pbind, append_event_follows; [done| |failed..].
  intros event commit m1 Hbody Hsu.
  destruct (RunState.steps (Commit.state commit) !! _) as [step'|] eqn:Hst'; cbn [ok_or]; [|failed].
  apply finish_reconciliation_follows; [|done]. by eapply seen_successor_state.
Qed.

Lemma durable_follows policy (sink : E) (lease : L) step_id (prepared : option P) m :
  follows (W := W) grows_to (truthful step_id)
    (DurableRuntime.drive_step policy sink lease step_id prepared) m.
Proof.
  unfold DurableRuntime.drive_step. apply follows_pbind, follows_pmap_err, follows_reads. intros m1 Hre Hm1.
  rewrite load_current_projection. cbn [map_err].
  destruct (M.projection (Machine.store m1)) as [state|] eqn:Hs; cbn [ok_or]; [|failed].
  destruct (DurableRuntime.verify_lease lease state) as [u|?|?]; [|failed..].
  destruct (RunState.steps state !! step_id) as [step|] eqn:Hst; cbn [ok_or]; [|failed].
  assert (seen state (Machine.store m1)) as Hseen by (by apply seen_now).
  destruct (StepState.status step) eqn:Hstatus;
    try (apply follows_ret; intros report [= <-]; cbn; split; [done|]; exists step;
         split; [done|by rewrite Hstatus]).
  - by apply execute_intent_follows.
  - unfold mark_recovered_execution_unknown. destruct (require_intent step) as [intent|?|?]; [|failed..].
    pose proof (step_key _ _ _ _ Hseen Hst) as <-.
    apply commit_report_follows; [done|apply unknown_reports].
  - by apply begin_reconciliation_follows.
  - by apply finish_reconciliation_follows.
Qed.
End durable.

Section executor.
Context {W L A I : Type} `{!EffectAdapter W A I} `{!EventFactory W} `{!RunLease L}.
Context `{Crypto} `{JsonSchema} `{Target} `{ReceiptSchema} `{Rfc3339}.

Lemma drive_durable_follows policy (sink : DirectSink A) (lease : L) step_id
    (prepared : option (CorePreparedEffect I)) m :
  follows (W := W) grows_to (truthful step_id) (drive_durable policy sink lease step_id prepared) m.
Proof.
  unfold drive_durable. apply follows_pmap_err.
  eapply follows_weaken; [|apply durable_follows]. intros r m'. apply truthful_map_err.
Qed.

Lemma drive_committed_follows policy (lease : L) capabilities (adapters : EffectAdapterRegistry A) state
    step step_id material m :
  follows (W := W) grows_to (truthful step_id)
    (drive_committed policy lease capabilities adapters state step step_id material) m.
Proof.
  unfold drive_committed. destruct (StepState.intent step) as [intent|]; cbn [ok_or]; [|failed].
  destruct (verify_receipt_provenance intent); [|failed..]. case_bool_decide; [failed|].
  destruct material as [material|]; cbn [ok_or]; [|failed].
  apply follows_pbind. unfold verify_material. destruct (map_err _ (InvocationMaterialRecord_verify_for _ _ _ _)); [|failed..].
  apply follows_pbind, follows_pmap_err, follows_reads. intros m1 _ _.
  destruct (load_invocation_material _ _) as [record|?|?]; cbn [map_err]; [|failed..].
  destruct record as [record|]; cbn [ok_or]; [|failed]. case_bool_decide; [failed|].
  destruct (map_err _ (invocation_material_digest _)); [|failed..]. case_bool_decide; [failed|].
  apply follows_ret.
  destruct (verify_current_instance capabilities intent) as [instance|?|?]; [|failed..].
  destruct (verify_dynamic_execution_gate instance); [|failed..].
  destruct (build_tool_output_validator capabilities intent) as [validator|?|?]; [|failed..].
  destruct (find_adapter adapters instance) as [[key adapter]|?|?]; [|failed..].
  apply follows_pbind, follows_pmap_err, follows_asks. intros m2 _ _.
  destruct (adapter_prepare _ _ _).1 as [invocation|?|?]; cbn [map_err]; [|failed..].
  apply drive_durable_follows.
Qed.

Lemma drive_uncertain_follows policy (lease : L) capabilities (adapters : EffectAdapterRegistry A) step step_id m :
  follows (W := W) (A := res DirectExecutorError DriveReport) grows_to (truthful step_id)
    (drive_uncertain (I := I) policy lease capabilities adapters step step_id) m.
Proof.
  unfold drive_uncertain. destruct (StepState.intent step) as [intent|]; cbn [ok_or]; [|failed].
  destruct (verify_receipt_provenance intent); [|failed..].
  destruct (negb _); [apply drive_durable_follows|].
  destruct (verify_current_instance _ _); [|failed..]. destruct (verify_dynamic_execution_gate _); [|failed..].
  destruct (find_adapter _ _); [|failed..]. apply drive_durable_follows.
Qed.

Lemma executor_follows policy (lease : L) capabilities (adapters : EffectAdapterRegistry A) step_id material m :
  follows (W := W) grows_to (truthful step_id)
    (Executor.drive_step policy lease capabilities adapters step_id material) m.
Proof.
  unfold Executor.drive_step. apply follows_pbind, follows_pmap_err, follows_reads. intros m1 Hre Hm1.
  rewrite load_current_projection. cbn [map_err].
  destruct (M.projection (Machine.store m1)) as [state|]; cbn [ok_or]; [|failed].
  destruct (Executor.verify_lease lease state); [|failed..].
  destruct (RunState.steps state !! step_id) as [step|]; cbn [ok_or]; [|failed].
  destruct (StepState.status step);
    first [apply drive_durable_follows | apply drive_committed_follows | apply drive_uncertain_follows].
Qed.
End executor.

Section verification.
Context {W L V : Type} `{!EffectVerifier W V} `{!EventFactory W} `{!RunLease L}.
Context `{Crypto} `{ReceiptSchema} `{Rfc3339}.

Lemma verified_reports step_id e disposition receipt digest :
  reports (RunEventBody.VerificationRecorded step_id e disposition receipt digest)
    (drive_action disposition) step_id.
Proof. split; [done|]. intros st st' Hlc. by inversion Hlc. Qed.

Lemma verification_snapshot_state self step_id snapshot :
  reachable self → load_verification_snapshot self step_id = Ok (Some snapshot) →
  M.projection self = Some (RunVerificationSnapshot.state snapshot).
Proof.
  intros Hre%reachable_inv. cbn. unfold MemoryRunStore_load_verification_snapshot.
  destruct (VerifiedRunIndex_verification_snapshot _ _) as [s|] eqn:Hs; [|done].
  unfold VerifiedRunIndex_verification_snapshot in Hs. rewrite (si_state _ Hre) in Hs.
  destruct (M.projection self) as [state|]; [|done]. injection Hs as <-. intros Hl.
  by repeat res_step.
Qed.

Lemma commit_verified_follows snapshot step_id verified m :
  seen (RunVerificationSnapshot.state snapshot) (Machine.store m) →
  follows (W := W) grows_to (truthful step_id) (commit_verified snapshot step_id verified) m.
Proof.
  intros Hseen. unfold commit_verified. apply follows_pbind, follows_pmap_err, follows_asks.
  intros m1 _ Hm1. destruct (create_metadata _ _).1 as [md|?|?]; cbn [map_err]; [|failed..].
  destruct (map_err _ (EventMetadata_validate md)); [|failed..].
  destruct (RunVerificationSnapshot.effect_started_at snapshot) as [started_at|]; cbn [ok_or]; [|failed].
  destruct (build_execution_receipt _ _ _ _ _ _) as [receipt|?|?]; [|failed..].
  apply follows_pbind, follows_pmap_err.
  eapply follows_writes; [by apply receipt_commits| |failed..].
  intros m2 commit self' Hre2 Hm2 Happ. apply follows_ret. eapply successor_truthful.
  - eapply seen_successor; [exact Hre2| |by eapply receipt_commits].
    eapply seen_later; [done|]. unfold grows_to in *. cbn in *. by etrans.
  - apply verified_reports.
Qed.

Lemma verification_follows (lease : L) capabilities (verifiers : EffectVerifierRegistry V) step_id m :
  follows (W := W) grows_to (truthful step_id)
    (Verification.drive_step lease capabilities verifiers step_id) m.
Proof.
  unfold Verification.drive_step. apply follows_pbind, follows_pmap_err, follows_reads. intros m1 Hre Hm1.
  destruct (load_verification_snapshot _ _) as [snapshot|?|?] eqn:Hl; cbn [map_err]; [|failed..].
  destruct snapshot as [snapshot|]; cbn [ok_or]; [|failed].
  pose proof (verification_snapshot_state _ _ _ Hre Hl) as Hs.
  destruct (Verification.verify_lease lease _); [|failed..].
  destruct (RunState.steps _ !! step_id) as [step|] eqn:Hst; cbn [ok_or]; [|failed].
  destruct (StepState.status step) eqn:Hstatus; try failed;
    try (apply follows_ret; intros report [= <-]; cbn; split; [done|]; exists step;
         split; [done|by rewrite Hstatus]).
  apply follows_pbind. unfold verify_step.
  destruct (verification_request _ _ _) as [[provenance request]|?|?]; [|failed..].
  destruct (find_verifier _ _) as [verifier|?|?]; [|failed..].
  apply follows_pbind, follows_pmap_err, follows_asks. intros m2 _ Hm2.
  destruct (verify _ _ _).1 as [report|?|?]; cbn [map_err]; [|failed..]. apply follows_ret.
  destruct (accept_report _ _ _); [|failed..]. apply commit_verified_follows.
  eapply seen_later; [by apply seen_now|done].
Qed.
End verification.

(** What a drive step writes when it runs alone: the journal grows by one of a few scripts, and
    an error leaves at most the write-ahead marker of the call it interrupted. *)

(** ** Scripts *)

(** The bodies an effect's drive may append before it returns. *)
Variant outcome_script (id e : string) : DriveAction → list RunEventBody → Prop :=
| os_none : outcome_script id e DriveAction.NoAction []
| os_succeeded evidence output :
    outcome_script id e DriveAction.EffectSucceeded
      [RunEventBody.EffectExecutionStarted id e; RunEventBody.EffectSucceeded id e evidence output]
| os_failed evidence :
    outcome_script id e DriveAction.EffectFailed
      [RunEventBody.EffectExecutionStarted id e; RunEventBody.EffectFailed id e evidence]
| os_unknown reason :
    outcome_script id e DriveAction.EffectUnknown
      [RunEventBody.EffectExecutionStarted id e; RunEventBody.EffectBecameUnknown id e reason]
| os_recovered reason :
    outcome_script id e DriveAction.ExecutionRecoveredAsUnknown
      [RunEventBody.EffectBecameUnknown id e reason]
| os_reconciled fresh resolution evidence :
    outcome_script id e
      match resolution with
      | ReconciliationResolution.ProvedApplied => DriveAction.ReconciliationApplied
      | ReconciliationResolution.ProvedNotApplied => DriveAction.ReconciliationNotApplied
      | ReconciliationResolution.Failed => DriveAction.ReconciliationFailed
      end
      ((if fresh : bool then [RunEventBody.ReconciliationStarted id e] else [])
       ++ [RunEventBody.ReconciliationResolved id e resolution evidence])
| os_manual fresh reason :
    outcome_script id e DriveAction.ManualRequired
      ((if fresh : bool then [RunEventBody.ReconciliationStarted id e] else [])
       ++ [RunEventBody.ManualInterventionRequired id e reason]).

(** What a failure may leave behind: nothing, or the marker written ahead of the call. *)
Definition failure_script (id e : string) (bodies : list RunEventBody) : Prop :=
  bodies = [] ∨ bodies = [RunEventBody.EffectExecutionStarted id e]
  ∨ bodies = [RunEventBody.ReconciliationStarted id e].

Definition drive_script {E} (id e : string) (r : res E DriveReport) (bodies : list RunEventBody) : Prop :=
  match r with
  | Ok report => outcome_script id e (DriveReport.action report) bodies
  | Err _ | Panic _ => failure_script id e bodies
  end.

Section scripts.
Context {W : Type} `{Crypto} `{ReceiptSchema} `{Rfc3339}.

(** The bodies appended between two machines. *)
Definition wrote (m0 m : machine W) (bodies : list RunEventBody) : Prop :=
  ∃ rs, M.records (Machine.store m) = M.records (Machine.store m0) ++ rs ∧ body_of <$> rs = bodies.

Lemma wrote_nothing m : wrote m m [].
Proof. exists []. by rewrite app_nil_r. Qed.

Lemma wrote_world m0 m w bodies : wrote m0 m bodies → wrote m0 (Machine.mk (Machine.store m) w) bodies.
Proof. done. Qed.

Lemma wrote_commit m0 m bodies expected event commit self' :
  wrote m0 m bodies → reachable (Machine.store m) →
  commits (Machine.store m) expected event commit self' →
  wrote m0 (Machine.set_store self' m) (bodies ++ [RunEvent.body event]).
Proof.
  intros (rs & Hrs & Hb) Hre Hco.
  destruct (commits_inv _ _ _ _ _ (reachable_inv _ Hre) Hco) as [_ [Hp Hrec _ _ _]].
  apply prepare_commit_Ok in Hp as (_ & _ & _ & Hevent & _).
  exists (rs ++ [Commit.record commit]). cbn. rewrite Hrec, Hrs, app_assoc. split; [done|].
  rewrite fmap_app, Hb. unfold body_of. cbn. by rewrite Hevent.
Qed.

(** The result of driving the step [id] of effect [e] from [m0]. *)
Definition scripted {E} (m0 : machine W) (id e : string) (r : res E DriveReport) (m : machine W) : Prop :=
  ∃ bodies, wrote m0 m bodies ∧ drive_script id e r bodies.

Lemma scripted_map_err {E F} m0 id e (f : E → F) r m :
  scripted m0 id e r m → scripted m0 id e (map_err f r) m.
Proof. intros (bodies & Hw & Hs). exists bodies. split; [done|]. by destruct r. Qed.

(** A failure after [bodies]. *)
Lemma scripted_err {E} m0 id e (er : E) m bodies :
  wrote m0 m bodies → failure_script id e bodies → scripted m0 id e (Err er) m.
Proof. intros Hw Hf. by exists bodies. Qed.
Lemma scripted_panic {E} m0 id e why m bodies :
  wrote m0 m bodies → failure_script id e bodies → scripted (E := E) m0 id e (Panic why) m.
Proof. intros Hw Hf. by exists bodies. Qed.

Lemma failure_nothing id e : failure_script id e [].
Proof. by left. Qed.
Lemma failure_started id e : failure_script id e [RunEventBody.EffectExecutionStarted id e].
Proof. right. by left. Qed.
Lemma failure_reconciling id e : failure_script id e [RunEventBody.ReconciliationStarted id e].
Proof. by do 2 right. Qed.
End scripts.

(** A branch that fails after writing the bodies of a hypothesis [wrote _ _ _]. *)
Ltac stops :=
  intros; subst; cbn beta iota;
  try match goal with |- follows _ _ (Ret _) _ => apply follows_ret end;
  match goal with
  | |- scripted _ _ _ (Err ?er) _ => eapply (scripted_err _ _ _ er)
  | |- scripted _ _ _ (Panic ?why) _ => eapply (scripted_panic _ _ _ why)
  end;
  [ first [eassumption | eapply wrote_world; eassumption]
  | first [apply failure_nothing | apply failure_started | apply failure_reconciling] ].

Section durable.
Context {W L E P : Type} `{!EffectSink W E P} `{!EventFactory W} `{!RunLease L} `{!PreparedEffect P}.
Context `{Crypto} `{ReceiptSchema} `{Rfc3339}.
Context (m0 : machine W) (id e : string).

Lemma append_event_alone state body (Q : res RuntimeError Commit → machine W → Prop) m bodies :
  wrote m0 m bodies → seen state (Machine.store m) →
  (∀ event commit m', wrote m0 m' (bodies ++ [body]) → RunEvent.body event = body →
     successor state event commit (Machine.store m') → Q (Ok commit) m') →
  (∀ er m', wrote m0 m' bodies → Q (Err er) m') → (∀ why m', wrote m0 m' bodies → Q (Panic why) m') →
  follows eq Q (append_event state body) m.
Proof.
  intros Hw Hseen HQ HE HP. unfold append_event. apply follows_pbind, next_metadata_follows.
  intros [md|?|?] m1 w Hre1 <-; [|by apply HE|by apply HP]. apply follows_pmap_err.
  eapply follows_writes; [by apply plain_commits| |intros; subst; by apply HE|intros; subst; by apply HP].
  intros m2 commit self' Hre2 <- Happ. pose proof (plain_commits _ _ _ _ _ Happ) as Hco.
  apply (HQ (event_for state md body)); [|done|].
  { exact (wrote_commit m0 _ _ _ _ _ _ Hw Hre2 Hco). }
  by eapply seen_successor.
Qed.

Lemma commit_report_alone state body action m bodies :
  wrote m0 m bodies → seen state (Machine.store m) → failure_script id e bodies →
  outcome_script id e action (bodies ++ [body]) →
  follows eq (scripted m0 id e) (commit_report state body action) m.
Proof.
  intros Hw Hseen Hf Ho. unfold commit_report.
  apply follows_pbind, (append_event_alone _ _ _ _ bodies); [done|done| |..].
  - intros event commit m' Hw' _ _. apply follows_ret. by exists (bodies ++ [body]).
  - intros er m' Hw'. by eapply scripted_err.
  - intros why m' Hw'. by eapply scripted_panic.
Qed.

Lemma commit_output_alone state body action output m bodies :
  wrote m0 m bodies → seen state (Machine.store m) → failure_script id e bodies →
  outcome_script id e action (bodies ++ [body]) →
  follows eq (scripted m0 id e) (commit_tool_output_report state body action output) m.
Proof.
  intros Hw Hseen Hf Ho. unfold commit_tool_output_report. apply follows_pbind, next_metadata_follows.
  intros [md|?|?] m1 w Hre1 <-; [|by eapply scripted_err|by eapply scripted_panic].
  apply follows_pbind, follows_pmap_err.
  eapply follows_writes; [by apply output_commits| |
    intros; subst; by eapply scripted_err|intros; subst; by eapply scripted_panic].
  intros m2 commit self' Hre2 <- Happ. apply follows_ret. exists (bodies ++ [body]). split; [|done].
  exact (wrote_commit m0 _ _ _ _ _ _ Hw Hre2 (output_commits _ _ _ _ _ _ Happ)).
Qed.

Lemma classified_script started step intent required observation pending :
  StepState.step_id step = id → EffectIntent.effect_id intent = e →
  classify_execution_observation started step intent required observation = Ok pending →
  outcome_script id e (PendingExecutionCommit.action pending)
    [RunEventBody.EffectExecutionStarted id e; PendingExecutionCommit.body pending].
Proof.
  intros <- <-.
  destruct observation; cbn [classify_execution_observation]; intros Hc; repeat res_step;
    try constructor.
  unfold classify_output_success in Hc. repeat res_step; try constructor.
  destruct (ToolOutputRecord_new _ _ _ _ _ _); [| |done]; injection Hc as <-; constructor.
Qed.

Lemma reconciled_script step intent observation outcome (fresh : bool) :
  StepState.step_id step = id → EffectIntent.effect_id intent = e →
  classify_reconciliation step intent observation = Ok outcome →
  outcome_script id e outcome.2
    ((if fresh then [RunEventBody.ReconciliationStarted id e] else []) ++ [outcome.1]).
Proof.
  intros <- <-. destruct observation as [ev|ev|ev|reason]; cbn; intros Hc; repeat res_step; cbn.
  - apply (os_reconciled _ _ fresh ReconciliationResolution.ProvedApplied).
  - apply (os_reconciled _ _ fresh ReconciliationResolution.ProvedNotApplied).
  - apply (os_reconciled _ _ fresh ReconciliationResolution.Failed).
  - apply os_manual.
Qed.

(** The step that is driven, as the store has it. *)
Definition driven (state : RunState) (step : StepState) (m : machine W) : Prop :=
  seen state (Machine.store m) ∧ RunState.steps state !! id = Some step ∧ effect_of step = Some e.

Lemma driven_facts state step m :
  driven state step m → StepState.step_id step = id ∧
  ∃ intent, require_intent step = Ok intent ∧ EffectIntent.effect_id intent = e.
Proof.
  intros (Hseen & Hst & He). split; [by eapply step_key|].
  unfold effect_of, require_intent in *. destruct (StepState.intent step) as [intent|]; [|done].
  exists intent. cbn in *. by simplify_eq.
Qed.

Lemma execute_intent_alone policy (sink : E) state step (prepared : option P) m :
  wrote m0 m [] → driven state step m →
  follows eq (scripted m0 id e) (execute_intent policy sink state step prepared) m.
Proof.
  intros Hw Hd. destruct (driven_facts _ _ _ Hd) as (Hid & intent & Hi & He).
  unfold execute_intent. rewrite Hi, Hid, He. case_bool_decide; [stops|].
  destruct prepared as [p|]; cbn [ok_or]; [|stops].
  destruct (verify_prepared_invocation _ _ _ _) as [u|?|?]; [|stops..].
  apply follows_pbind, follows_pmap_err, follows_reads. intros m1 Hre1 <-.
  destruct (load_invocation_material _ _) as [record|?|?]; cbn [map_err]; [|stops..].
  destruct record as [record|]; cbn [ok_or]; [|stops]. case_bool_decide; [stops|].
  apply follows_pbind, (append_event_alone _ _ _ _ []); [done|apply Hd| |stops..].
  intros event started m2 Hw2 Hbody Hsu. apply follows_bind, follows_asks. intros m3 _ <-.
  destruct (classify_execution_observation _ _ _ _ _) as [pending|?|?] eqn:Hc; [|stops..].
  pose proof (classified_script _ _ _ _ _ _ Hid He Hc) as Hs.
  pose proof (seen_successor_state _ _ _ _ Hsu) as Hseen.
  destruct (PendingExecutionCommit.output pending);
    [eapply commit_output_alone|eapply commit_report_alone]; try done; apply failure_started.
Qed.

Lemma finish_reconciliation_alone (sink : E) state step m (fresh : bool) :
  wrote m0 m (if fresh then [RunEventBody.ReconciliationStarted id e] else []) → driven state step m →
  follows eq (scripted m0 id e) (finish_reconciliation (P := P) sink state step) m.
Proof.
  intros Hw Hd. destruct (driven_facts _ _ _ Hd) as (Hid & intent & Hi & He).
  unfold finish_reconciliation. rewrite Hi, Hid, He.
  assert (failure_script id e (if fresh then [RunEventBody.ReconciliationStarted id e] else [])) as Hf.
  { destruct fresh; [apply failure_reconciling|apply failure_nothing]. }
  destruct (negb _); [eapply commit_report_alone; [done|apply Hd|done|apply os_manual]|].
  apply follows_pbind, follows_pmap_err, follows_asks. intros m1 _ <-.
  destruct (sink_reconcile _ _ _).1 as [observation|[]|?]; cbn [map_err]; [|by eapply scripted_panic].
  destruct (classify_reconciliation _ _ _) as [outcome|?|?] eqn:Hc;
    [|by eapply scripted_err|by eapply scripted_panic].
  eapply commit_report_alone; [done|apply Hd|done|by eapply reconciled_script].
Qed.

Lemma begin_reconciliation_alone (sink : E) state step m :
  wrote m0 m [] → driven state step m →
  follows eq (scripted m0 id e) (begin_reconciliation (P := P) sink state step) m.
Proof.
  intros Hw Hd. destruct (driven_facts _ _ _ Hd) as (Hid & intent & Hi & He).
  unfold begin_reconciliation. rewrite Hi, Hid, He.
  destruct (negb _).
  { eapply commit_report_alone; [done|apply Hd|apply failure_nothing|apply (os_manual _ _ false)]. }
  apply follows_pbind, (append_event_alone _ _ _ _ []); [done|apply Hd| |stops..].
  intros event commit m1 Hw1 Hbody Hsu.
  destruct (RunState.steps (Commit.state commit) !! id) as [step'|] eqn:Hst'; cbn [ok_or]; [|stops].
  apply (finish_reconciliation_alone _ _ _ _ true); [done|].
  split; [by eapply seen_successor_state|]. split; [done|].
  destruct Hd as (_ & Hst & Heff).
  destruct (successor_lifecycle _ _ _ _ id Hsu ltac:(by rewrite Hbody)) as (st & st' & Hst0 & Hlc & Es).
  rewrite Es, lookup_insert_eq in Hst'. simplify_eq. by rewrite (lifecycle_effect _ _ _ Hlc).
Qed.

Lemma durable_alone policy (sink : E) (lease : L) (prepared : option P) m state step :
  wrote m0 m [] → M.projection (Machine.store m) = Some state →
  RunState.steps state !! id = Some step → effect_of step = Some e →
  follows eq (scripted m0 id e) (DurableRuntime.drive_step policy sink lease id prepared) m.
Proof.
  intros Hw Hs Hst He. unfold DurableRuntime.drive_step.
  apply follows_pbind, follows_pmap_err, follows_reads. intros m1 Hre1 <-.
  rewrite load_current_projection, Hs. cbn [map_err ok_or].
  destruct (DurableRuntime.verify_lease lease state) as [u|?|?]; [|stops..]. rewrite Hst. cbn [ok_or].
  assert (driven state step m) as Hd by (split; [by apply seen_now|done]).
  destruct (StepState.status step);
    try (apply follows_ret; exists []; split; [done|apply os_none]).
  - by apply execute_intent_alone.
  - unfold mark_recovered_execution_unknown. destruct (driven_facts _ _ _ Hd) as (Hid & intent & Hi & Hie).
    rewrite Hi, Hid, Hie. eapply commit_report_alone; [done|apply Hd|apply failure_nothing|apply os_recovered].
  - by apply begin_reconciliation_alone.
  - by apply (finish_reconciliation_alone _ _ _ _ false).
Qed.
End durable.

Section executor.
Context {W L A I : Type} `{!EffectAdapter W A I} `{!EventFactory W} `{!RunLease L}.
Context `{Crypto} `{JsonSchema} `{Target} `{ReceiptSchema} `{Rfc3339}.
Context (m0 : machine W) (id e : string) (state : RunState) (step : StepState).
Hypothesis Hstep : RunState.steps state !! id = Some step.
Hypothesis Heffect : effect_of step = Some e.

Definition untouched (m : machine W) : Prop :=
  wrote m0 m [] ∧ M.projection (Machine.store m) = Some state.

Lemma drive_durable_alone policy (sink : DirectSink A) (lease : L)
    (prepared : option (CorePreparedEffect I)) m :
  untouched m → follows eq (scripted m0 id e) (drive_durable policy sink lease id prepared) m.
Proof.
  intros [Hw Hs]. unfold drive_durable. apply follows_pmap_err.
  eapply follows_weaken; [|by eapply durable_alone]. intros r m'. apply scripted_map_err.
Qed.

Lemma drive_committed_alone policy (lease : L) capabilities (adapters : EffectAdapterRegistry A)
    material m :
  untouched m →
  follows eq (scripted m0 id e)
    (drive_committed policy lease capabilities adapters state step id material) m.
Proof.
  intros [Hw Hs].
  unfold drive_committed. destruct (StepState.intent step) as [intent|]; cbn [ok_or]; [|stops].
  destruct (verify_receipt_provenance intent); [|stops..]. case_bool_decide; [stops|].
  destruct material as [material|]; cbn [ok_or]; [|stops].
  apply follows_pbind. unfold verify_material. destruct (map_err _ (InvocationMaterialRecord_verify_for _ _ _ _)); [|stops..].
  apply follows_pbind, follows_pmap_err, follows_reads. intros m1 _ <-.
  destruct (load_invocation_material _ _) as [record|?|?]; cbn [map_err]; [|stops..].
  destruct record as [record|]; cbn [ok_or]; [|stops]. case_bool_decide; [stops|].
  destruct (map_err _ (invocation_material_digest _)); [|stops..]. case_bool_decide; [stops|].
  apply follows_ret.
  destruct (verify_current_instance capabilities intent) as [instance|?|?]; [|stops..].
  destruct (verify_dynamic_execution_gate instance); [|stops..].
  destruct (build_tool_output_validator capabilities intent) as [validator|?|?]; [|stops..].
  destruct (find_adapter adapters instance) as [[key adapter]|?|?]; [|stops..].
  apply follows_pbind, follows_pmap_err, follows_asks. intros m2 _ <-.
  destruct (adapter_prepare _ _ _).1 as [invocation|?|?]; cbn [map_err]; [|stops..].
  by apply drive_durable_alone.
Qed.

Lemma drive_uncertain_alone policy (lease : L) capabilities (adapters : EffectAdapterRegistry A) m :
  untouched m →
  follows (A := res DirectExecutorError DriveReport) eq (scripted m0 id e)
    (drive_uncertain (I := I) policy lease capabilities adapters step id) m.
Proof.
  intros [Hw Hs].
  unfold drive_uncertain. destruct (StepState.intent step) as [intent|]; cbn [ok_or]; [|stops].
  destruct (verify_receipt_provenance intent); [|stops..].
  destruct (negb _); [by apply drive_durable_alone|].
  destruct (verify_current_instance _ _); [|stops..]. destruct (verify_dynamic_execution_gate _); [|stops..].
  destruct (find_adapter _ _); [|stops..]. by apply drive_durable_alone.
Qed.

Lemma executor_alone policy (lease : L) capabilities (adapters : EffectAdapterRegistry A) material m :
  untouched m →
  follows eq (scripted m0 id e)
    (Executor.drive_step policy lease capabilities adapters id material) m.
Proof.
  intros [Hw Hs].
  unfold Executor.drive_step. apply follows_pbind, follows_pmap_err, follows_reads. intros m1 _ <-.
  rewrite load_current_projection, Hs. cbn [map_err ok_or].
  destruct (Executor.verify_lease lease state); [|stops..]. rewrite Hstep. cbn [ok_or].
  destruct (StepState.status step);
    first [by apply drive_durable_alone | by apply drive_committed_alone | by apply drive_uncertain_alone].
Qed.
End executor.
