(* ===== verification/AgentScripts.v ===== *)
(** What a tick writes when it runs alone: its result fixes what it appended, and a provider is
    asked only from a state in which nothing else is to be done. *)

From S2P Require Import Prelude Program Text Wire Domain Resolution Registry Receipt DomainWire.
From S2P Require Import WorkGraphTypes WorkGraphErrors WorkGraphWire Planning Material ToolOutput.
From S2P Require Import Completion Frontier Journal AgentLoop Plans StepMachine Reducer.
From S2P Require Import RunInvariant StoreTypes StoreBundles MemoryStore Host Invocation.
From S2P Require Import PlanningContext Proposals Agent Attempts StoreSpec StoreProofs.
From S2P Require Import StoreAppends StoreRuns StoreTheorems MachineLogic RuntimeSafety.
From S2P Require Import AgentSafety Scripts.

(** ** Scripts *)

Definition tick_head (t : AgentLoopTick) : AgentLoopHead :=
  match t with
  | AgentLoopTick.Configured head | AgentLoopTick.ModelCallLifecycleConfigured head
  | AgentLoopTick.ActionRequired _ head | AgentLoopTick.PlanAccepted _ head
  | AgentLoopTick.CompletionCandidate _ _ _ head | AgentLoopTick.Quiescent _ head
  | AgentLoopTick.PlannerUnavailable _ head | AgentLoopTick.ProposalRejected _ head
  | AgentLoopTick.MaterializerUnavailable _ head
  | AgentLoopTick.ModelCallRecoveryRequired _ _ _ head
  | AgentLoopTick.ModelCallRejected _ head | AgentLoopTick.ModelCallAbandoned _ head => head
  end.

(** The event a failed call ends in. *)
Definition failure_event (call_id : string) (failure : PlannerPortFailure) : RunEventBody :=
  match failure_settlement failure with
  | inl reason => RunEventBody.ModelCallBecameUnknown call_id reason
  | inr reason => RunEventBody.ModelCallSettled call_id (ModelCallSettlement.Rejected reason)
  end.

Definition rejected (call_id : string) (reason : ModelCallRejectionReason) : RunEventBody :=
  RunEventBody.ModelCallSettled call_id (ModelCallSettlement.Rejected reason).

Variant tick_script (agent : AgentLoop) : AgentLoopTick → list RunEventBody → Prop :=
| ks_configured head :
    tick_script agent (AgentLoopTick.Configured head)
      [RunEventBody.AgentLoopConfigured (AgentLoop.budget agent)]
| ks_lifecycle head :
    tick_script agent (AgentLoopTick.ModelCallLifecycleConfigured head)
      [RunEventBody.ModelCallLifecycleConfigured (AgentLoop.model_call_budget agent)]
| ks_action action head : tick_script agent (AgentLoopTick.ActionRequired action head) []
| ks_quiescent reason head : tick_script agent (AgentLoopTick.Quiescent reason head) []
| ks_candidate candidate output head :
    tick_script agent (AgentLoopTick.CompletionCandidate candidate output false head) []
| ks_unresolved call_id reason head :
    tick_script agent (AgentLoopTick.ModelCallRecoveryRequired call_id reason false head) []
| ks_interrupted call_id head :
    tick_script agent
      (AgentLoopTick.ModelCallRecoveryRequired call_id ModelCallUnknownReason.Interrupted true head)
      [RunEventBody.ModelCallBecameUnknown call_id ModelCallUnknownReason.Interrupted]
| ks_unavailable r failure head :
    tick_script agent (AgentLoopTick.PlannerUnavailable failure head)
      [RunEventBody.ModelCallReserved r; failure_event (ModelCallReservation.call_id r) failure]
| ks_rejected r reason head :
    tick_script agent (AgentLoopTick.ProposalRejected reason head)
      [RunEventBody.ModelCallReserved r;
       rejected (ModelCallReservation.call_id r) ModelCallRejectionReason.ProposalRejected]
| ks_unmaterialized r failure head :
    tick_script agent (AgentLoopTick.MaterializerUnavailable failure head)
      [RunEventBody.ModelCallReserved r;
       rejected (ModelCallReservation.call_id r) ModelCallRejectionReason.MaterializationFailed]
| ks_accepted r decision steps head :
    ExpectedPlanningTurn.model_call_id decision = Some (ModelCallReservation.call_id r) →
    tick_script agent (AgentLoopTick.PlanAccepted (map AcceptedPlanStep.step_id steps) head)
      [RunEventBody.ModelCallReserved r; RunEventBody.PlanAccepted decision steps]
| ks_completed r decision output head :
    ExpectedPlanningTurn.model_call_id decision = Some (ModelCallReservation.call_id r) →
    tick_script agent
      (AgentLoopTick.CompletionCandidate
         (CompletionCandidateState.mk (CompletionOutputRecord.candidate_id output)
            (ExpectedPlanningTurn.context_digest decision)
            (ExpectedPlanningTurn.proposal_digest decision)
            (CompletionOutputRecord.summary_digest output)
            (Some (CompletionOutputRecord.record_digest output)))
         (Some output) true head)
      [RunEventBody.ModelCallReserved r;
       RunEventBody.CompletionCandidateRecorded decision
         (CompletionOutputRecord.candidate_id output)
         (CompletionOutputRecord.summary_digest output)
         (Some (CompletionOutputRecord.record_digest output))].

(** The states a provider is asked from: no step is actionable and none is blocked, failed or
    waiting, no call is unresolved, no completion is recorded, and the durable budgets are the
    loop's and have room. *)
Record plannable (agent : AgentLoop) (state : RunState) : Prop := {
  pl_frontier : ∃ frontier, derive_frontier state = Ok frontier ∧
    WorkFrontier.next_action frontier = None ∧ terminal_quiescence frontier = None;
  pl_loop : ∃ l calls, RunState.agent_loop state = Some l ∧ AgentLoopState.model_calls l = Some calls ∧
    AgentLoopState.budget l = AgentLoop.budget agent ∧
    ModelCallLifecycleState.budget calls = AgentLoop.model_call_budget agent ∧
    ModelCallLifecycleState.active_call calls = None ∧ AgentLoopState.completion_candidate l = None ∧
    (AgentLoopState.accepted_model_turns l < AgentLoopBudget.max_model_turns (AgentLoop.budget agent))%N ∧
    (ModelCallLifecycleState.reserved_calls calls
     < ModelCallBudget.max_model_calls (AgentLoop.model_call_budget agent))%N;
}.

Section alone.
Context {W L R P M : Type} `{!EventFactory W} `{!RunLease L} `{Crypto} `{Rfc3339} `{ReceiptSchema}.
Context `{JsonSchema} `{JsonSchemaErrors} `{!ResourceResolver R} `{JsonPointer} `{Target}.
Context `{!PlannerPort W P} `{!PlanMaterializer W M}.
Context (m0 : machine W) (agent : AgentLoop) (state0 : RunState).

(** What a tick that has not come to a result may have written. *)
Definition begun (bodies : list RunEventBody) : Prop :=
  bodies = [] ∨ plannable agent state0 ∧ ∃ r, bodies = [RunEventBody.ModelCallReserved r].

Definition ticked (r : res AgentLoopError AgentLoopTick) (m : machine W) : Prop :=
  match r with
  | Ok t => ∃ bodies s, wrote m0 m bodies ∧ tick_script agent t bodies ∧
      (∀ x, RunEventBody.ModelCallReserved x ∈ bodies → plannable agent state0) ∧
      M.projection (Machine.store m) = Some s ∧ tick_head t = AgentLoopHead.from_state s
  | Err _ | Panic _ => ∃ bodies, wrote m0 m bodies ∧ begun bodies
  end.

(** The machine after [bodies], with [state] its run. *)
Record stands (bodies : list RunEventBody) (state : RunState) (m : machine W) : Prop := {
  sd_wrote : wrote m0 m bodies;
  sd_state : M.projection (Machine.store m) = Some state;
  sd_reachable : reachable (Machine.store m);
}.

Lemma stands_world bodies state m w :
  stands bodies state m → stands bodies state (Machine.mk (Machine.store m) w).
Proof. by intros []. Qed.

Lemma ticked_ok bodies state m t :
  stands bodies state m → tick_script agent t bodies → begun bodies ∨ plannable agent state0 →
  tick_head t = AgentLoopHead.from_state state → ticked (Ok t) m.
Proof.
  intros [Hw Hs _] Ht Hb Hh. exists bodies, state. split_and!; try done.
  intros x Hx. destruct Hb as [[->|[? _]]|?]; [by apply elem_of_nil in Hx|done..].
Qed.

Lemma ticked_err bodies state m e : stands bodies state m → begun bodies → ticked (Err e) m.
Proof. intros [Hw _ _] Hb. by exists bodies. Qed.
Lemma ticked_panic bodies state m why : stands bodies state m → begun bodies → ticked (Panic why) m.
Proof. intros [Hw _ _] Hb. by exists bodies. Qed.

Lemma create_event_alone bodies state body (Q : res AgentLoopError RunEvent → machine W → Prop) m :
  stands bodies state m →
  (∀ event m', stands bodies state m' → RunEvent.body event = body → Q (Ok event) m') →
  (∀ e m', stands bodies state m' → is_head_conflict e = false → Q (Err e) m') →
  (∀ why m', stands bodies state m' → Q (Panic why) m') →
  follows eq Q (create_event state body) m.
Proof.
  intros Hst HQ HE HP. unfold create_event. apply follows_pbind, follows_pmap_err, follows_asks.
  intros m1 _ <-. pose proof (stands_world _ _ _ (create_metadata state (Machine.world m)).2 Hst).
  destruct (create_metadata state (Machine.world m)).1 as [md|?|?]; cbn [map_err]; [|by apply HE|by apply HP].
  unfold EventMetadata_validate. destruct (OffsetDateTime_parse _); cbn [map_err]; apply follows_ret;
    [by apply HQ|by apply HE].
Qed.

(** A write against the state the machine stands at. *)
Lemma writes_alone bodies state event f (Q : res StoreError Commit → machine W → Prop) m :
  stands bodies state m →
  (∀ self commit self', f self = Ok (commit, self') →
     commits self (ExpectedHead.from_state state) event commit self') →
  (∀ self, store_inv self → head_of (M.records self) = ExpectedHead.from_state state → no_conflict (f self)) →
  (∀ commit m', stands (bodies ++ [RunEvent.body event]) (Commit.state commit) m' →
     successor state event commit (Machine.store m') → Q (Ok commit) m') →
  (∀ e m', stands bodies state m' → is_conflict e = false → Q (Err e) m') →
  (∀ why m', stands bodies state m' → Q (Panic why) m') →
  follows eq Q (writes f) m.
Proof.
  intros Hst Hf Hno HQ HE HP m1 Hre <-. pose proof Hst as [Hw Hs _].
  pose proof (reachable_inv _ Hre) as Hinv.
  specialize (Hno _ Hinv (eq_sym (projection_head _ _ Hinv Hs))).
  destruct (f (Machine.store m)) as [[commit self']|e|why] eqn:Hfs;
    [|split_and!; [done|apply la_same|by apply HE]|split_and!; [done|apply la_same|by apply HP]].
  pose proof (Hf _ _ _ Hfs) as Hco.
  pose proof (seen_successor _ _ _ _ _ Hre (seen_now _ _ Hre Hs) Hco) as Hsu.
  split_and!; [by eapply re_commits|by eapply la_commits; [apply la_same|]|].
  apply follows_ret, HQ; [|done]. destruct Hsu as [_ Hre' Hs' _ _].
  split; [|done..]. by eapply wrote_commit.
Qed.

Lemma head_conflict_store e : is_head_conflict (AgentLoopError.Store e) = is_conflict e.
Proof. by destruct e. Qed.

(** The three appends of the loop, through [settle] or not. *)
Lemma append_alone bodies state body (Q : res AgentLoopError Commit → machine W → Prop) m :
  stands bodies state m →
  (∀ event commit m', RunEvent.body event = body → stands (bodies ++ [body]) (Commit.state commit) m' →
     successor state event commit (Machine.store m') → Q (Ok commit) m') →
  (∀ e m', stands bodies state m' → is_head_conflict e = false → Q (Err e) m') →
  (∀ why m', stands bodies state m' → Q (Panic why) m') →
  follows eq Q (append_event state body) m.
Proof.
  intros Hst HQ HE HP. unfold append_event.
  apply follows_pbind, (create_event_alone bodies); [done| |done..].
  intros event m1 Hst1 <-. apply follows_pmap_err.
  apply (writes_alone bodies state event); [done|by apply plain_commits| | | |done].
  - intros self Hinv <-. by apply append_no_conflict.
  - intros commit m' Hst' Hsu. by apply (HQ event).
  - intros e m' Hst' He. apply HE; [done|]. by rewrite head_conflict_store.
Qed.

Lemma settle_alone commit call_id intent tick (Q : res AgentLoopError AgentLoopTick → machine W → Prop) m :
  follows eq (λ r m', match r with
                      | Ok c => Q (tick c) m'
                      | Err e => is_head_conflict e = false ∧ Q (Err e) m'
                      | Panic why => Q (Panic why) m'
                      end) commit m →
  follows eq Q (settle commit call_id intent tick) m.
Proof.
  intros Hc. unfold settle. apply follows_bind. eapply follows_weaken; [|exact Hc].
  intros [c|e|why] m'; [done| |done]. intros [He HQ]. by rewrite He.
Qed.

(** A tick that ends in one settling append. *)
Lemma settled_alone bodies state body call_id intent tick m :
  stands bodies state m → begun bodies →
  (∀ commit, tick_head (tick commit) = AgentLoopHead.from_state (Commit.state commit)) →
  (∀ commit, tick_script agent (tick commit) (bodies ++ [body])) →
  (∀ x, body ≠ RunEventBody.ModelCallReserved x) →
  follows eq ticked (settle (append_event state body) call_id intent (λ commit, Ok (tick commit))) m.
Proof.
  intros Hst Hb Hhead Hscript Hno.
  apply settle_alone, (append_alone bodies state); [done|..].
  - intros event commit m' _ [Hw Hs Hre] _. exists (bodies ++ [body]), (Commit.state commit).
    split_and!; [done|done| |done|done]. intros x [Hx|Hx%list_elem_of_singleton]%elem_of_app; [|by destruct (Hno x)].
    destruct Hb as [->|[? _]]; [by apply elem_of_nil in Hx|done].
  - intros e m' Hst' He. split; [done|]. by eapply ticked_err.
  - intros why m' Hst'. by eapply ticked_panic.
Qed.

Section reserved.
Context (r : ModelCallReservation) (Hplan : plannable agent state0).
Abbreviation call := (ModelCallReservation.call_id r).
Abbreviation reserved_at state m := (stands [RunEventBody.ModelCallReserved r] state m).

Lemma begun_reserved : begun [RunEventBody.ModelCallReserved r].
Proof. right. split; [done|]. by exists r. Qed.

Lemma failure_alone state failure m :
  reserved_at state m → follows eq ticked (record_planner_failure state call failure) m.
Proof.
  intros Hst. unfold record_planner_failure.
  assert (∀ head, tick_script agent (AgentLoopTick.PlannerUnavailable failure head)
    ([RunEventBody.ModelCallReserved r] ++ [failure_event call failure])) as Hs by (intros; apply ks_unavailable).
  unfold failure_event in Hs.
  destruct (failure_settlement failure) as [reason|reason];
    (eapply settled_alone; [exact Hst|apply begun_reserved|done|intros; apply Hs|done]).
Qed.

Lemma rejection_alone state reason m :
  reserved_at state m → follows eq ticked (record_proposal_rejection state call reason) m.
Proof.
  intros Hst. eapply settled_alone; [exact Hst|apply begun_reserved|done| |done].
  intros commit. apply ks_rejected.
Qed.

Lemma for_model_call turn call_id context proposal decision :
  ExpectedPlanningTurn_for_model_call turn call_id context proposal = Ok decision →
  ExpectedPlanningTurn.model_call_id decision = Some call_id.
Proof. unfold ExpectedPlanningTurn_for_model_call. intros Hd. by res_inv. Qed.

(** A failure after the reservation. *)
Ltac fails :=
  cbn [map_err];
  match goal with
  | Hst : stands _ _ ?m |- follows _ _ (Ret (Err ?e)) ?m =>
      apply follows_ret; eapply (ticked_err _ _ _ e); [exact Hst|apply begun_reserved]
  | Hst : stands _ _ ?m |- follows _ _ (Ret (Panic ?why)) ?m =>
      apply follows_ret; eapply (ticked_panic _ _ _ why); [exact Hst|apply begun_reserved]
  | Hst : stands _ _ ?m |- ticked (Err ?e) ?m => eapply ticked_err; [exact Hst|apply begun_reserved]
  | Hst : stands _ _ ?m |- ticked (Panic ?why) ?m => eapply ticked_panic; [exact Hst|apply begun_reserved]
  end.

Lemma accept_alone base state context digest accepted inputs m :
  reserved_at state m →
  follows eq ticked (accept_plan base state context call digest accepted inputs) m.
Proof.
  intros Hst. unfold accept_plan. destruct (next_turn_index base) as [turn|?|?]; [|fails..].
  destruct (ExpectedPlanningTurn_for_model_call _ _ _ _) as [decision|?|?] eqn:Hd; cbn [map_err]; [|fails..].
  apply for_model_call in Hd.
  apply follows_pbind, (create_event_alone _ _ _ _ _ Hst); [|intros; fails..].
  intros event m1 Hst1 Hbody. apply settle_alone, follows_pmap_err.
  eapply (writes_alone _ state event); [exact Hst1|by apply plan_inputs_commits| | | |].
  - intros self Hinv <-. by apply append_inputs_no_conflict.
  - intros commit m' Hst' _. rewrite Hbody in Hst'.
    eapply ticked_ok; [exact Hst'|by apply ks_accepted|by right|done].
  - intros e m' Hst' He. split; [by rewrite head_conflict_store|fails].
  - intros why m' Hst'. fails.
Qed.

(** The decision of a completion output is the call's. *)
Lemma bound_decision run_id turn call_id context summary output decision :
  CompletionOutputRecord_bind run_id turn call_id context summary = Ok output →
  CompletionOutputRecord_decision output = Ok decision →
  ExpectedPlanningTurn.model_call_id decision = Some call_id.
Proof.
  unfold CompletionOutputRecord_bind, CompletionOutputRecord_decision. intros Hb Hd. repeat res_step.
  match goal with Hx : ExpectedPlanningTurn_for_model_call (CompletionOutputRecord.turn_index _) _ _ _ = Ok _ |- _ =>
    rewrite (for_model_call _ _ _ _ _ Hx) end.
  f_equal.
  match goal with Hx : ExpectedPlanningTurn_for_model_call turn _ _ _ = Ok _ |- _ => apply for_model_call in Hx end.
  unfold CompletionOutputRecord_new in Hb. repeat res_step. by cbn in *; simplify_eq.
Qed.

(** The candidate the commit of a completion projects. *)
Lemma completion_projected state event commit self' decision candidate_id summary_digest output :
  successor state event commit self' →
  RunEvent.body event = RunEventBody.CompletionCandidateRecorded decision candidate_id summary_digest output →
  projected_candidate commit = Ok (CompletionCandidateState.mk candidate_id
    (ExpectedPlanningTurn.context_digest decision) (ExpectedPlanningTurn.proposal_digest decision)
    summary_digest output).
Proof.
  intros [_ _ _ Hevent (s1 & _ & Hb & Hs)%apply_next_Ok] Hbody. rewrite Hevent, Hbody in Hb. cbn in Hb.
  apply record_completion_Ok in Hb as (l & l' & f & _ & -> & _ & _ & Hc & _).
  unfold projected_candidate. rewrite Hs. cbn. by rewrite Hc.
Qed.

Lemma completion_alone base state frontier context summary m :
  reserved_at state m →
  follows eq ticked (record_completion_candidate base state frontier context call summary) m.
Proof.
  intros Hst. unfold record_completion_candidate. destruct (negb _); [by apply rejection_alone|].
  destruct (validate_completion_summary_candidate summary); [|by apply rejection_alone|fails].
  destruct (next_turn_index base) as [turn|?|?]; [|fails..].
  destruct (CompletionOutputRecord_bind _ _ _ _ _) as [output|?|?] eqn:Hbind; cbn [map_err]; [|fails..].
  destruct (CompletionOutputRecord_decision output) as [decision|?|?] eqn:Hd; cbn [map_err]; [|fails..].
  pose proof (bound_decision _ _ _ _ _ _ _ Hbind Hd) as Hcall.
  apply follows_pbind, (create_event_alone _ _ _ _ _ Hst); [|intros; fails..].
  intros event m1 Hst1 Hbody. apply settle_alone, follows_pmap_err.
  eapply (writes_alone _ state event); [exact Hst1|by apply completion_commits| | | |].
  - intros self Hinv <-. by apply append_completion_no_conflict.
  - intros commit m' Hst' Hsu. cbn [map_err]. rewrite (completion_projected _ _ _ _ _ _ _ _ Hsu Hbody).
    rewrite Hbody in Hst'. eapply ticked_ok; [exact Hst'|by apply ks_completed|by right|done].
  - intros e m' Hst' He. split; [by rewrite head_conflict_store|fails].
  - intros why m' Hst'. fails.
Qed.

Lemma materialize_alone (materializer : M) run_id digest steps state
    (Q : res PlanMaterializerFailure _ → machine W → Prop) m :
  reserved_at state m → (∀ out m', reserved_at state m' → Q out m') →
  follows eq Q (materialize_plan materializer run_id digest steps) m.
Proof.
  revert Q m. induction steps as [|step steps IH]; intros Q m Hst HQ; [by apply follows_ret, HQ|].
  cbn [materialize_plan]. destruct (occurrence_profile _); [|by apply follows_ret, HQ..].
  destruct (map_err _ _) as [spec|?|?]; [|by apply follows_ret, HQ..].
  apply follows_pbind, follows_asks. intros m1 _ <-.
  set (request := PlanMaterializationRequest.mk _ _ _ _ _ _).
  pose proof (stands_world _ _ _ (materialize materializer request (Machine.world m)).2 Hst) as Hst1.
  destruct (materialize materializer request _).1 as [reference|?|?]; [|by apply HQ..].
  destruct (map_err _ _) as [bound|?|?]; [|by apply follows_ret, HQ..].
  apply follows_pbind, IH; [done|]. intros [rest|?|?] m2 Hst2; [|by apply HQ..]. by apply follows_ret, HQ.
Qed.

Lemma proposal_alone capabilities (resolver : R) (materializer : M) base state frontier context
    proposal tool_calls m :
  reserved_at state m →
  follows eq ticked (handle_proposal agent capabilities resolver materializer base state frontier
                       context call proposal tool_calls) m.
Proof.
  intros Hst. unfold handle_proposal. destruct proposal as [steps|summary]; [|by apply completion_alone].
  case_bool_decide; [by apply rejection_alone|].
  destruct (prepare_plan _ _ _ _ _ _ _) as [prepared|?|?]; [|by apply rejection_alone|fails].
  apply follows_bind, (materialize_alone _ _ _ _ state); [done|].
  intros [accepted|failure|?] m1 Hst1; [by apply accept_alone| |fails].
  eapply settled_alone; [exact Hst1|apply begun_reserved|done| |done].
  intros commit. apply ks_unmaterialized.
Qed.
End reserved.

(** ** The tick *)

(** A result that writes nothing. *)
Lemma ticked_nothing m t :
  stands [] state0 m → tick_script agent t [] → tick_head t = AgentLoopHead.from_state state0 →
  follows eq ticked (Ret (Ok t)) m.
Proof. intros Hst Ht Hh. apply follows_ret. eapply ticked_ok; [exact Hst|done|left; by left|done]. Qed.

Ltac stops_here :=
  cbn [map_err];
  match goal with
  | Hst : stands [] _ ?m |- follows _ _ (Ret (Err ?e)) ?m =>
      apply follows_ret; eapply (ticked_err _ _ _ e); [exact Hst|by left]
  | Hst : stands [] _ ?m |- follows _ _ (Ret (Panic ?why)) ?m =>
      apply follows_ret; eapply (ticked_panic _ _ _ why); [exact Hst|by left]
  | Hst : stands [] _ ?m |- ticked (Err _) ?m => eapply ticked_err; [exact Hst|by left]
  | Hst : stands [] _ ?m |- ticked (Panic _) ?m => eapply ticked_panic; [exact Hst|by left]
  end.

Lemma call_planner_alone capabilities (resolver : R) (planner : P) (materializer : M) frontier
    context calls tool_calls m :
  stands [] state0 m → plannable agent state0 →
  follows eq ticked (call_planner agent capabilities resolver planner materializer state0 frontier
                       context calls tool_calls) m.
Proof.
  intros Hst Hplan. unfold call_planner. apply follows_pbind, follows_asks. intros m1 _ <-. cbn [fst snd].
  pose proof (stands_world _ _ _ (Machine.world m) Hst) as Hst1.
  destruct (reserve_call _ _ _ _ _) as [r|?|?]; [|stops_here..].
  apply follows_pbind, (append_alone [] state0); [done| |intros; stops_here..].
  intros event reserved m2 _ Hst2 _. apply follows_bind, follows_asks. intros m3 _ <-.
  set (request := PlannerCallRequest.mk _ _ _).
  pose proof (stands_world _ _ _ (plan planner request (Machine.world m2)).2 Hst2) as Hst3.
  destruct (plan planner request _).1 as [proposal|failure|why].
  - by apply proposal_alone.
  - by apply failure_alone.
  - apply follows_ret. eapply ticked_panic; [exact Hst3|]. right. split; [done|]. by exists r.
Qed.

Lemma plan_turn_alone capabilities (resolver : R) (planner : P) (materializer : M) frontier loop
    calls tool_calls m :
  stands [] state0 m → plannable agent state0 →
  follows eq ticked (plan_turn agent capabilities resolver planner materializer state0 frontier
                       loop calls tool_calls) m.
Proof.
  intros Hst Hplan. unfold plan_turn. apply follows_bind, follows_reads. intros m1 _ <-.
  destruct (load_planning_snapshot _ _ _) as [[snapshot|]|error|?]; [|stops_here| |stops_here].
  - case_bool_decide; [stops_here|].
    destruct (build_context_ordered _ _ _ _ _ _ _ _) as [context|[]|?]; cbn [context_failure];
      try stops_here; [by apply call_planner_alone|..]; by apply ticked_nothing; [|apply ks_quiescent|].
  - destruct error; try stops_here. by apply ticked_nothing; [|apply ks_quiescent|].
Qed.

(** A configuring append. *)
Lemma configured_alone body (t : AgentLoopHead → AgentLoopTick) m :
  stands [] state0 m → (∀ head, tick_script agent (t head) [body]) →
  (∀ head, tick_head (t head) = head) → (∀ x, body ≠ RunEventBody.ModelCallReserved x) →
  follows eq ticked
    (let! commit := append_event state0 body in
     Ret (Ok (t (AgentLoopHead.from_state (Commit.state commit))))) m.
Proof.
  intros Hst Hs Hh Hno. apply follows_pbind, (append_alone [] state0); [done| |intros; stops_here..].
  intros event commit m' _ [Hw Hp _] _. apply follows_ret. exists [body], (Commit.state commit).
  split_and!; [done|done| |done|apply Hh]. intros x Hx%list_elem_of_singleton. by destruct (Hno x).
Qed.

Lemma exhausted_none frontier capabilities l calls :
  exhausted_budget state0 frontier capabilities l calls = None →
  terminal_quiescence frontier = None ∧
  (AgentLoopState.accepted_model_turns l < AgentLoopBudget.max_model_turns (AgentLoopState.budget l))%N ∧
  (ModelCallLifecycleState.reserved_calls calls
   < ModelCallBudget.max_model_calls (ModelCallLifecycleState.budget calls))%N.
Proof.
  unfold exhausted_budget. destruct (terminal_quiescence frontier); [done|].
  case_bool_decide; [done|]. case_bool_decide; [done|]. intros _. split_and!; [done|lia..].
Qed.

Lemma tick_alone (lease : L) capabilities (resolver : R) (planner : P) (materializer : M) m :
  stands [] state0 m → follows eq ticked (tick agent lease capabilities resolver planner materializer) m.
Proof.
  intros Hst. unfold tick. apply follows_pbind, follows_pmap_err, follows_reads. intros m1 _ <-.
  rewrite load_current_projection, (sd_state _ _ _ Hst). cbn [map_err ok_or].
  destruct (verify_lease lease state0); [|stops_here..].
  destruct (RunState.agent_loop state0) as [l|] eqn:Hl.
  2: { apply configured_alone; [done|intros; apply ks_configured|done|done]. }
  case_bool_decide as Hb; [stops_here|].
  destruct (AgentLoopState.model_calls l) as [calls|] eqn:Hcalls.
  2: { apply configured_alone; [done|intros; apply ks_lifecycle|done|done]. }
  case_bool_decide as Hmb; [stops_here|]. unfold advance.
  destruct (derive_frontier state0) as [frontier|?|?] eqn:Hf; cbn [map_err]; [|stops_here..].
  destruct (total_tool_calls state0); [|stops_here..].
  destruct (WorkFrontier.next_action frontier) as [action|] eqn:Hn.
  { destruct (_ && _); by apply ticked_nothing; [|constructor|]. }
  destruct (ModelCallLifecycleState.active_call calls) as [active|] eqn:Hact.
  { unfold recover_active_call. destruct (ModelCallState.status active).
    - eapply settled_alone; [exact Hst|by left|done|intros; apply ks_interrupted|done].
    - by apply ticked_nothing; [|apply ks_unresolved|]. }
  destruct (AgentLoopState.completion_candidate l) as [candidate|] eqn:Hcand.
  { unfold report_candidate.
    destruct (CompletionCandidateState.completion_output_record_digest candidate);
      [|by apply ticked_nothing; [|apply ks_candidate|]].
    apply follows_pbind, follows_pmap_err, follows_reads. intros m2 _ <-.
    destruct (load_completion_output _ _ _) as [[o|]|?|?]; cbn [map_err ok_or]; [|stops_here..].
    destruct (checked_completion_output _ _ _ _); [|stops_here..].
    by apply ticked_nothing; [|apply ks_candidate|]. }
  destruct (exhausted_budget _ _ _ _ _) eqn:Hex; [by apply ticked_nothing; [|apply ks_quiescent|]|].
  apply exhausted_none in Hex as (Hterm & Hturns & Hreserved).
  apply plan_turn_alone; [done|]. rewrite Hb in Hturns. rewrite Hmb in Hreserved.
  split; [by exists frontier|by exists l, calls].
Qed.

(** An abandonment writes the settlement it reports, or nothing. *)
Definition abandoned (call_id : string) (r : res AgentLoopError AgentLoopTick) (m : machine W) : Prop :=
  match r with
  | Ok t => ∃ s, wrote m0 m [RunEventBody.ModelCallSettled call_id
      (ModelCallSettlement.Abandoned ModelCallAbandonmentReason.RecoveryDiscarded)] ∧
      M.projection (Machine.store m) = Some s ∧
      t = AgentLoopTick.ModelCallAbandoned call_id (AgentLoopHead.from_state s)
  | Err _ | Panic _ => wrote m0 m []
  end.

Lemma abandon_alone (lease : L) call_id m :
  stands [] state0 m → follows eq (abandoned call_id) (abandon_model_call agent lease call_id) m.
Proof.
  intros Hst. pose proof (sd_wrote _ _ _ Hst) as Hw.
  unfold abandon_model_call. apply follows_pbind, follows_pmap_err, follows_reads. intros m1 _ <-.
  rewrite load_current_projection, (sd_state _ _ _ Hst). cbn [map_err ok_or].
  destruct (verify_lease lease state0); [|done..]. destruct (require_loop state0) as [l|?|?]; [|done..].
  case_bool_decide; [done|]. destruct (require_calls l) as [calls|?|?]; [|done..]. case_bool_decide; [done|].
  destruct (ok_or _ _) as [active|?|?]; [|done..]. case_bool_decide; [done|].
  apply follows_pbind, (append_alone [] state0); [done| |by intros ? ? []..].
  intros event commit m' _ [Hw' Hs' _] _. apply follows_ret. by exists (Commit.state commit).
Qed.
End alone.
