(* ===== verification/RuntimeTheorems.v ===== *)
(** What the runtime guarantees under concurrency and crashes: an effect is performed only
    after the journal announced it, and again only after reconciliation disproved the last
    announcement. *)

From S2P Require Import Prelude Program Text Wire Domain Resolution Broker Registry Router.
From S2P Require Import DomainWire WorkGraphTypes WorkGraphErrors Planning Material ToolOutput.
From S2P Require Import Completion Journal StepMachine Reducer RunInvariant Receipt StoreTypes.
From S2P Require Import StoreBundles MemoryStore Host Invocation Admission Recovery Adapters.
From S2P Require Import DurableRuntime Verification Executor Attempts StoreSpec StoreProofs.
From S2P Require Import StoreRuns StoreTheorems MachineLogic PlanningContext Proposals Agent.
From S2P Require Import Driver RuntimeSafety AgentSafety DriverSafety Scripts.

Section concurrency.
Context {W : Type} `{Executions W} `{!EventFactory W} `{!PassiveFactory W} {L : Type} `{!RunLease L}.
Context {A I : Type} `{!EffectAdapter W A I} `{!OneShotAdapter W A I}.
Context {V : Type} `{!EffectVerifier W V} `{!PassiveVerifier W V}.
Context {P : Type} `{!InvocationMaterialProvider W P} `{!PassiveProvider W P}.
Context `{Crypto} `{JsonSchema} `{JsonPointer} `{PolicyDecisionSchema} `{Target} `{ReceiptSchema}.
Context `{Rfc3339} {R : Type} `{!ResourceResolver R} `{JsonSchemaErrors}.
Context {PL : Type} `{!PlannerPort W PL} `{!PassivePlanner W PL}.
Context {MT : Type} `{!PlanMaterializer W MT} `{!PassiveMaterializer W MT}.
Context {RP : Type} `{!PlannedRoutePort W RP} `{!PassiveRoutes W RP}.
Context {AP : Type} `{!ApprovalPort W AP} `{!PassiveApprovals W AP}.
Context {OB : Type} `{!ProgressObserver W OB} `{!PassiveObserver W OB}.

Definition forget {B} (p : prog (machine W) B) : prog (machine W) unit := bind p (λ _, Ret tt).

Lemma run_forget {B} (p : prog (machine W) B) m : (run (forget p) m).2 = (run p m).2.
Proof. unfold forget. rewrite run_bind. by destruct (run p m). Qed.

(** The operations of the runtime crate and whole drives, under any lease, catalog, registries and
    host, with a policy that allows at most [K] executions of a step. *)
Inductive runtime_program (K : N) : prog (machine W) unit → Prop :=
| rp_execute policy (lease : L) capabilities (adapters : EffectAdapterRegistry A) step_id material :
    (RuntimePolicy.max_execution_attempts policy ≤ K)%N →
    runtime_program K
      (forget (Executor.drive_step policy lease capabilities adapters step_id material))
| rp_verify (lease : L) capabilities (verifiers : EffectVerifierRegistry V) step_id :
    runtime_program K (forget (Verification.drive_step lease capabilities verifiers step_id))
| rp_prepare (lease : L) registry (resolver : R) request :
    runtime_program K (forget (prepare lease registry resolver request))
| rp_authorize pending inputs registry (lease : L) :
    runtime_program K (forget (authorize_and_commit pending inputs registry lease))
| rp_prepare_planned (lease : L) registry (resolver : R) (providers : MaterialProviderRegistry P) request :
    runtime_program K (forget (prepare_planned_admission lease registry resolver providers request))
| rp_recover (lease : L) registry (resolver : R) (providers : MaterialProviderRegistry P) step_id :
    runtime_program K (forget (recover lease registry resolver providers step_id))
| rp_unavailable (lease : L) step_id reason :
    runtime_program K (forget (mark_unavailable lease step_id reason))
| rp_tick agent (lease : L) capabilities (resolver : R) (planner : PL) (materializer : MT) :
    runtime_program K (forget (tick agent lease capabilities resolver planner materializer))
| rp_abandon agent (lease : L) call_id :
    runtime_program K (forget (abandon_model_call agent lease call_id))
| rp_drive (self : RunDriver) (lease : L) capabilities (resolver : R) (planner : PL) (materializer : MT)
    (providers : MaterialProviderRegistry P) (adapters : EffectAdapterRegistry A)
    (verifiers : EffectVerifierRegistry V) (routes : RP) (approvals : AP) egress (observer : OB) :
    (RuntimePolicy.max_execution_attempts (RunDriver.executor self) ≤ K)%N →
    runtime_program K
      (forget (drive_until_pause_with_model_egress_observed self lease capabilities resolver planner
                 materializer providers adapters verifiers routes approvals egress observer)).

(** What else may happen: another client appends anything but the start of an execution, and
    the world changes without an effect being performed. *)
Inductive other_client (m : machine W) : machine W → Prop :=
| oc_commits expected event commit self' :
    commits (Machine.store m) expected event commit self' →
    (∀ e, starts_body e (RunEvent.body event) = false) →
    other_client m (Machine.set_store self' m)
| oc_world w : (∀ e, executions w e = executions (Machine.world m) e) →
    other_client m (Machine.mk (Machine.store m) w).

Lemma runtime_program_announces K p m :
  runtime_program K p → covers executions starts_body (λ n, n ≤ K)%N anything p no_tokens m.
Proof.
  pose proof (executions_spared (A := A) (V := V) (P := P) K) as Hlaw.
  pose proof (loop_executions_spared (P := PL) (M := MT) (λ n, n ≤ K)%N) as Hloop.
  intros []; (apply covers_then; [|done]).
  - by eapply executor_covers.
  - by eapply verification_covers.
  - by eapply prepare_covers.
  - by eapply authorize_covers.
  - by eapply prepare_planned_covers.
  - by eapply recover_covers.
  - by eapply mark_unavailable_covers.
  - by apply tick_covers.
  - by eapply abandon_covers.
  - by eapply drive_covers, Hloop; [apply driver_executions_spared|].
Qed.

(** The bound on the announcements of an effect. *)
Abbreviation limited K := (bounded (W := W) starts_body (λ n, n ≤ K)%N).

Lemma other_client_allowed K m m' :
  limited K m → other_client m m' →
  allowed (limited K) grows_to (announced starts_body) performed no_tokens no_tokens m m'.
Proof.
  intros [Hre HK] [expected event commit self' Hco Hno|w Hw].
  - destruct (commit_counts starts_body _ _ _ _ _ Hre Hco) as (Hcount & _ & Hre').
    assert (∀ e, marked starts_body e (M.records self')
                 = marked starts_body e (M.records (Machine.store m))) as Hsame.
    { intros e. rewrite Hcount, Hno. lia. }
    apply allowed_intro; [split; cbn; [done|]|by eapply la_commits; [apply la_same|]|];
      intros e; unfold used, announced; cbn; rewrite Hsame; [done|lia].
  - apply allowed_intro; [done|apply la_same|]. intros e. unfold used, announced. cbn.
    rewrite Hw. lia.
Qed.

(** C1: Start from a store that appends built and a world in which no more has been performed
    than the journal announces.  Let any number of the runtime's programs and of whole drives start at any time,
    interleave step by step, and die between any two steps, while other clients append and the
    world changes.  Then the store is always one that appends built, and every effect has been
    performed at most as often as the journal announces its execution; that is at most the
    policy's limit, and at most once more often than reconciliation proved that the effect had
    not been applied: without such a proof an effect is never performed twice. *)
Theorem effects_performed_at_most_once (K : N) (m m' : machine W) (ts : list (prog (machine W) unit)) :
  reachable (Machine.store m) →
  (∀ e, executions (Machine.world m) e ≤ started e (M.records (Machine.store m)) ≤ K)%N →
  rtc (pool_step (runtime_program K) other_client) ([], m) (ts, m') →
  reachable (Machine.store m') ∧
  ∀ e, let records := M.records (Machine.store m') in
    (executions (Machine.world m') e ≤ started e records ∧ started e records ≤ K ∧
     started e records ≤ disproved e records + 1)%N.
Proof.
  intros Hre Hle Hs.
  destruct (pool_covered (limited K) grows_to (announced starts_body) performed (runtime_program K) other_client
    ltac:(intros; by apply runtime_program_announces) ltac:(intros; by apply other_client_allowed) m ts m')
    as [[Hre' HK] Hcov]; [split; [done|]; apply Hle|apply Hle|done|].
  split; [done|]. intros e records. split; [apply Hcov|]. split; [apply HK|].
  destruct (M.projection (Machine.store m')) as [s|] eqn:Hs'.
  - eapply started_bound. eapply projection_replays; [|done]. by apply reachable_inv.
  - pose proof (si_journal _ (reachable_inv _ Hre')) as Hj. rewrite Hs' in Hj. unfold records.
    rewrite Hj. done.
Qed.
End concurrency.

(** C21: However other clients' appends interleave with it, a drive step that reports, of an
    effect or of its verification, reports the truth: the state in the report is the one the
    store holds at that moment, and the driven step has in it the status the reported action
    stands for; no action is reported only for a step that waits for something else. *)
Theorem drive_reports_are_truthful {W L A I V} `{!EffectAdapter W A I} `{!EffectVerifier W V}
    `{!EventFactory W} `{!RunLease L} `{Crypto} `{JsonSchema} `{Target} `{ReceiptSchema} `{Rfc3339}
    (policy : RuntimePolicy) (lease : L) (capabilities : CapabilityRegistry)
    (adapters : EffectAdapterRegistry A) (verifiers : EffectVerifierRegistry V) (step_id : string)
    (material : option InvocationMaterial) (m : machine W) :
  follows grows_to (truthful step_id)
    (Executor.drive_step policy lease capabilities adapters step_id material) m ∧
  follows grows_to (truthful step_id)
    (Verification.drive_step lease capabilities verifiers step_id) m.
Proof. split; [apply executor_follows|apply verification_follows]. Qed.

(** C11: Run alone on a step with a committed effect, the executor's drive step appends to the
    journal, and what it appends is fixed by its result: nothing when it reports no action, the
    start of the execution followed by its outcome when it executed, an unknown outcome when it
    found an execution already started, and at most the start of a reconciliation followed by its
    resolution otherwise.  A failure or a panic at any point leaves either nothing or exactly the
    marker that was written ahead of the call it interrupted. *)
Theorem drive_step_writes_a_script {W L A I} `{!EffectAdapter W A I} `{!EventFactory W}
    `{!RunLease L} `{Crypto} `{JsonSchema} `{Target} `{ReceiptSchema} `{Rfc3339}
    (policy : RuntimePolicy) (lease : L) (capabilities : CapabilityRegistry)
    (adapters : EffectAdapterRegistry A) (step_id e : string) (material : option InvocationMaterial)
    (m m' : machine W) (r : res DirectExecutorError DriveReport) (state : RunState) (step : StepState) :
  reachable (Machine.store m) → M.projection (Machine.store m) = Some state →
  RunState.steps state !! step_id = Some step → effect_of step = Some e →
  run (Executor.drive_step policy lease capabilities adapters step_id material) m = (r, m') →
  reachable (Machine.store m') ∧
  ∃ appended, M.records (Machine.store m') = M.records (Machine.store m) ++ appended ∧
    drive_script step_id e r (body_of <$> appended).
Proof.
  intros Hre Hs Hst He Hrun.
  destruct (follows_run eq _ _ m _ Hre
    (executor_alone m step_id e state step Hst He policy lease capabilities adapters material m
       (conj (wrote_nothing m) Hs))) as ((bodies & (rs & Hrs & <-) & Hscript) & Hre' & _).
  rewrite Hrun in *. cbn in *. split; [done|]. by exists rs.
Qed.
