(* ===== verification/AgentTheorems.v ===== *)
(** What the agent loop guarantees: a provider is called only under a reservation, within the
    durable budget and once per call id; a tick reports what it wrote; a proposal is accepted
    only if it is well formed. *)

From S2P Require Import Prelude Program Text Wire Domain Resolution Registry Receipt DomainWire.
From S2P Require Import WorkGraphTypes WorkGraphErrors WorkGraphWire Planning Material ToolOutput.
From S2P Require Import RecordProofs Completion Frontier Journal AgentLoop StepMachine Reducer.
From S2P Require Import RunInvariant JournalTheorems StoreTypes StoreBundles MemoryStore Host.
From S2P Require Import Invocation PlanningContext Proposals Agent Attempts StoreSpec StoreProofs.
From S2P Require Import StoreRuns StoreTheorems MachineLogic RuntimeSafety AgentSafety Scripts.
From S2P Require Import Resolution Broker Router Admission Recovery Adapters DurableRuntime.
From S2P Require Import Verification Executor Driver DriverSafety AgentScripts RuntimeTheorems ProposalProofs ContextProofs.

Section calls.
Context {W : Type} `{!EventFactory W} {L : Type} `{!RunLease L}.
Context `{Crypto} `{!CryptoLaws} `{JsonSchema} `{JsonSchemaErrors} `{JsonPointer} `{Target}.
Context `{ReceiptSchema} `{Rfc3339} {R : Type} `{!ResourceResolver R}.
Context {P : Type} `{!PlannerPort W P} {M : Type} `{!PlanMaterializer W M}.
Context `{!PlannerLog W} `{!LoggedPlanner W P M} `{PolicyDecisionSchema}.
Context {A I V MP RP AP OB : Type} `{!EffectAdapter W A I} `{!EffectVerifier W V}.
Context `{!InvocationMaterialProvider W MP} `{!PlannedRoutePort W RP} `{!ApprovalPort W AP}.
Context `{!ProgressObserver W OB} `{!LoggedHost W A I V MP RP AP OB}.

(** Ticks and abandonments of any loops and whole drives, under any lease, catalog and ports. *)
Inductive agent_program : prog (machine W) unit → Prop :=
| ap_tick agent (lease : L) capabilities (resolver : R) (planner : P) (materializer : M) :
    agent_program (forget (tick agent lease capabilities resolver planner materializer))
| ap_abandon agent (lease : L) call_id :
    agent_program (forget (abandon_model_call agent lease call_id))
| ap_drive (self : RunDriver) (lease : L) capabilities (resolver : R) (planner : P) (materializer : M)
    (providers : MaterialProviderRegistry MP) (adapters : EffectAdapterRegistry A)
    (verifiers : EffectVerifierRegistry V) (routes : RP) (approvals : AP) egress (observer : OB) :
    agent_program
      (forget (drive_until_pause_with_model_egress_observed self lease capabilities resolver planner
                 materializer providers adapters verifiers routes approvals egress observer)).

(** Anyone else appends anything but a reservation, and asks the provider nothing. *)
Inductive other_writer (m : machine W) : machine W → Prop :=
| ow_commits expected event commit self' :
    commits (Machine.store m) expected event commit self' →
    is_reservation (RunEvent.body event) = false →
    other_writer m (Machine.set_store self' m)
| ow_world w : planner_log w = planner_log (Machine.world m) →
    other_writer m (Machine.mk (Machine.store m) w).

Lemma agent_program_covers (spent : W → tokens) marks within p m :
  (∀ w w' : W, planner_log w = planner_log w' → spent w = spent w') →
  (∀ e body, is_reservation body = false → marks e body = false) →
  spares (P := P) (M := M) spent marks within → agent_program p →
  covers spent marks within anything p no_tokens m.
Proof.
  intros Hspent Hmarks Hlaw []; (apply covers_then; [|done]).
  - by apply tick_covers.
  - by eapply (abandon_covers (P := P) (M := M)).
  - by eapply drive_covers, Hlaw; [apply (logged_driver (PL := P) (MT := M))|].
Qed.

(** An interfering step spends nothing and keeps every record. *)
Lemma other_writer_allowed (spent : W → tokens) marks m m' :
  (∀ w w' : W, planner_log w = planner_log w' → spent w = spent w') →
  (∀ e body, is_reservation body = false → marks e body = false) →
  bounded marks (λ _, True) m → other_writer m m' →
  allowed (bounded marks (λ _, True)) grows_to (announced marks) (used spent) no_tokens no_tokens m m'.
Proof.
  intros Hspent Hmarks [Hre _] [expected event commit self' Hco Hno|w Hw].
  - destruct (commit_counts marks _ _ _ _ _ Hre Hco) as (Hcount & _ & Hre').
    apply allowed_intro; [by split|by eapply la_commits; [apply la_same|]|].
    intros e. unfold used, announced. cbn. rewrite Hcount, Hmarks by done. lia.
  - apply allowed_intro; [done|apply la_same|]. intros e. unfold used, announced. cbn.
    rewrite (Hspent _ _ Hw). lia.
Qed.

Lemma calls_covered (spent : W → tokens) marks m m' ts :
  spares (P := P) (M := M) spent marks (λ _, True) →
  (∀ w w' : W, planner_log w = planner_log w' → spent w = spent w') →
  (∀ e body, is_reservation body = false → marks e body = false) →
  reachable (Machine.store m) → (∀ e, used spent m e ≤ announced marks m e)%N →
  rtc (pool_step agent_program other_writer) ([], m) (ts, m') →
  reachable (Machine.store m') ∧ ∀ e, (used spent m' e ≤ announced marks m' e)%N.
Proof.
  intros Hlaw Hspent Hmarks Hre Hle Hs.
  destruct (pool_covered (bounded marks (λ _, True)) grows_to (announced marks) (used spent)
    agent_program other_writer ltac:(intros; by apply agent_program_covers)
    ltac:(intros; by apply other_writer_allowed) m ts m') as [[Hre' _] Hcov]; done.
Qed.
End calls.

(** What the marks count. *)
Lemma marked_reservations records e :
  marked (λ _, is_reservation) e records = len (reservations records).
Proof.
  unfold marked, len, reservations, reservation_of. induction records as [|r records IH]; cbn; [done|].
  rewrite IH. destruct (body_of r); cbn; lia.
Qed.

Lemma marked_call c records :
  marked reserves c records
  = count (λ r, bool_decide (ModelCallReservation.call_id r = c)) (reservations records).
Proof.
  unfold marked, reservations, reservation_of. induction records as [|r records IH]; cbn; [done|].
  rewrite IH. by destruct (body_of r).
Qed.

(** The model calls the projection's durable budget allows. *)
Definition model_calls_allowed (state : RunState) : N :=
  match l ← RunState.agent_loop state; AgentLoopState.model_calls l with
  | Some calls => ModelCallBudget.max_model_calls (ModelCallLifecycleState.budget calls)
  | None => 0
  end.

Lemma reserved_within_budget `{Crypto} s : run_inv s → (reserved_of s ≤ model_calls_allowed s)%N.
Proof.
  intros Hinv. unfold reserved_of, model_calls_allowed.
  destruct (RunState.agent_loop s) as [l|] eqn:Hl; cbn; [|done].
  destruct (AgentLoopState.model_calls l) as [c|] eqn:Hc; [|done].
  destruct (ri_loop _ Hinv l Hl) as ([_ Hcalls] & _). apply (calls_budget _ _ _ (Hcalls c Hc)).
Qed.

(** C2: Start from a store that appends built and a provider that was asked nothing yet.  Let any
    number of ticks and abandonments of agent loops, and of whole drives, start at any time,
    interleave step by step and die between any two steps, while others append anything but
    reservations.  Then the provider has been asked at most as often as the journal reserves, for
    every call id and in total; that is at most the durable model-call budget, and with one call
    id it was asked at most once, unless two reservations of different calls in the journal have
    that id because the inputs of their ids collide under SHA-256. *)
Theorem planner_calls_are_reserved {W L R P M : Type} `{!EventFactory W} `{!RunLease L} `{Crypto}
    `{!CryptoLaws} `{JsonSchema} `{JsonSchemaErrors} `{JsonPointer} `{Target} `{ReceiptSchema}
    `{Rfc3339} `{!ResourceResolver R} `{!PlannerPort W P} `{!PlanMaterializer W M}
    `{!PlannerLog W} `{!LoggedPlanner W P M} `{PolicyDecisionSchema} {A I V MP RP AP OB : Type}
    `{!EffectAdapter W A I} `{!EffectVerifier W V} `{!InvocationMaterialProvider W MP}
    `{!PlannedRoutePort W RP} `{!ApprovalPort W AP} `{!ProgressObserver W OB}
    `{!LoggedHost W A I V MP RP AP OB} (m m' : machine W) (ts : list (prog (machine W) unit)) :
  reachable (Machine.store m) → planner_log (Machine.world m) = [] →
  rtc (pool_step (agent_program (L := L) (R := R) (P := P) (M := M) (A := A) (V := V) (MP := MP)
                    (RP := RP) (AP := AP) (OB := OB)) other_writer) ([], m) (ts, m') →
  reachable (Machine.store m') ∧
  let log := planner_log (Machine.world m') in
  let reserved := reservations (M.records (Machine.store m')) in
  (len log ≤ len reserved)%N ∧
  (∀ c, (calls_with (Machine.world m') c
         ≤ count (λ r, bool_decide (ModelCallReservation.call_id r = c)) reserved)%N) ∧
  ∀ state, M.projection (Machine.store m') = Some state →
    (len log ≤ model_calls_allowed state)%N ∧
    (ijson_N (RunState.authority_epoch state) → ijson_N (RunState.journal_sequence state) →
     ∀ c, (calls_with (Machine.world m') c ≤ 1)%N ∨ call_id_collides state reserved c).
Proof.
  intros Hre Hlog Hs.
  destruct (calls_covered all_calls (λ _, is_reservation) m m' ts) as [Hre' Hall];
    [apply all_calls_spared|by unfold all_calls; intros ?? ->|done|done| |done|].
  { intros e. unfold used, all_calls. rewrite Hlog. apply N.le_0_l. }
  destruct (calls_covered calls_with reserves m m' ts) as [_ Hwith];
    [apply calls_with_spared|by unfold calls_with; intros ?? ->|by intros e []|done| |done|].
  { intros e. unfold used, calls_with. rewrite Hlog. apply N.le_0_l. }
  split; [done|]. intros log reserved.
  assert (Hlen : (len log ≤ len reserved)%N).
  { specialize (Hall ""). unfold used, announced, all_calls in Hall. by rewrite marked_reservations in Hall. }
  assert (Hc : ∀ c, (calls_with (Machine.world m') c
      ≤ count (λ r, bool_decide (ModelCallReservation.call_id r = c)) reserved)%N).
  { intros c. specialize (Hwith c). unfold used, announced in Hwith. by rewrite marked_call in Hwith. }
  split_and!; [done..|]. intros state Hst.
  pose proof (projection_replays _ _ (reachable_inv _ Hre') Hst) as Hr.
  destruct (replay_calls_counted _ _ Hr) as [Hinv Hcc]. split.
  - pose proof (cc_count _ _ Hcc). pose proof (reserved_within_budget _ Hinv). unfold reserved in *. lia.
  - intros He Hseq c. destruct (reserved_once _ _ c Hr He Hseq) as [Hone|]; [left|by right].
    specialize (Hc c). unfold reserved in *. lia.
Qed.

(** C12: Run alone, a tick appends to the journal, and what it appends is fixed by its result:
    nothing when it reports an action, a quiescence or a recorded outcome, one configuration, the
    unknown outcome of an interrupted call, or the reservation of a planner call followed by the
    outcome it reports, bound to that call.  The head it reports is the store's.  It reserves a
    call only when no step is actionable, blocked, failed or waiting, no call is unresolved, no
    completion is recorded and the budgets have room; a failure leaves nothing or the reservation
    of the call it interrupted. *)
Theorem ticks_report_what_they_wrote {W L R P M : Type} `{!EventFactory W} `{!RunLease L} `{Crypto}
    `{Rfc3339} `{ReceiptSchema} `{JsonSchema} `{JsonSchemaErrors} `{!ResourceResolver R}
    `{JsonPointer} `{Target} `{!PlannerPort W P} `{!PlanMaterializer W M}
    (agent : AgentLoop) (lease : L) (capabilities : CapabilityRegistry) (resolver : R) (planner : P)
    (materializer : M) (m m' : machine W) (r : res AgentLoopError AgentLoopTick) (state : RunState) :
  reachable (Machine.store m) → M.projection (Machine.store m) = Some state →
  run (tick agent lease capabilities resolver planner materializer) m = (r, m') →
  reachable (Machine.store m') ∧
  ∃ appended, M.records (Machine.store m') = M.records (Machine.store m) ++ appended ∧
    let bodies := body_of <$> appended in
    match r with
    | Ok t => tick_script agent t bodies ∧
        (∀ x, RunEventBody.ModelCallReserved x ∈ bodies → plannable agent state) ∧
        ∃ state', M.projection (Machine.store m') = Some state' ∧
          tick_head t = AgentLoopHead.from_state state'
    | Err _ | Panic _ =>
        bodies = [] ∨ plannable agent state ∧ ∃ x, bodies = [RunEventBody.ModelCallReserved x]
    end.
Proof.
  intros Hre Hs Hrun.
  destruct (follows_run eq _ _ m _ Hre
    (tick_alone m agent state lease capabilities resolver planner materializer m
       ltac:(by split; [apply wrote_nothing|..]))) as (Ht & Hre' & _).
  rewrite Hrun in *. cbn in *. split; [done|]. destruct r as [t|?|?].
  - destruct Ht as (bodies & s & (rs & Hrs & <-) & Hscript & Hp & Hs' & Hh). exists rs. split_and!; [done..|].
    by exists s.
  - destruct Ht as (bodies & (rs & Hrs & <-) & Hb). by exists rs.
  - destruct Ht as (bodies & (rs & Hrs & <-) & Hb). by exists rs.
Qed.

(** C14: The structural check of an untrusted proposal never panics and accepts exactly the
    well-formed plans: keys are distinct, bounded and clean and objectives bounded; a step names
    no dependency twice; every dependency is another step of the same proposal, or a step of the
    run that the planner was shown and that can still complete, neither failed nor blocked; the
    dependencies are bounded in number, and those between proposed steps have no cycle. *)
Theorem proposal_structure_checked (state : RunState) (frontier : WorkFrontier)
    (context : PlanningContext) (steps : list ProposedPlanStep) :
  (len steps ≤ usize_max)%N →
  (validate_proposal_structure state frontier context steps = Ok tt ↔
     proposal_ok state frontier context steps) ∧
  ∀ why, validate_proposal_structure state frontier context steps ≠ Panic why.
Proof.
  intros Hlen. pose proof (structure_decides state frontier context steps Hlen) as Hd.
  split; [|by intros why; intros Hp; rewrite Hp in Hd].
  rewrite (decides_Ok _ _ _ tt Hd). naive_solver.
Qed.

(** C32: Building a planning context never panics, and a context it builds is a document of
    its recorded size, within the durable and the absolute bound, under its digest.  It shows
    every step of the run in planning order and every capability in catalog order, each whole
    or counted as omitted, and exactly the outputs of the completed steps that recorded one,
    each verified against its step and released by its receipt. *)
Theorem planning_contexts_are_bounded `{Crypto} (state : RunState)
    (completed : gmap string ToolOutputRecord) (planning_order output_order : list string)
    (frontier : WorkFrontier) (registry : CapabilityRegistry) (constraints : list PlanningConstraint)
    (budget : AgentLoopBudget) :
  match build_context_ordered state completed planning_order output_order frontier registry
          constraints budget with
  | Ok context => context_of state completed planning_order output_order frontier registry
                    constraints budget context
  | Err _ => True
  | Panic _ => False
  end.
Proof.
  pose proof (no_panic_context state completed planning_order output_order frontier registry constraints
    budget) as Hp.
  pose proof (built_context state completed planning_order output_order frontier registry constraints
    budget) as Hb.
  revert Hp Hb. destruct (build_context_ordered _ _ _ _ _ _ _ _) as [context|e|why]; [|done|].
  - intros _ Hb. by apply Hb.
  - intros Hp _. by apply (Hp why).
Qed.
