(* ===== verification/DriverTheorems.v ===== *)
(** What the host's consent means to a drive: without it no model is called, and a drive asks for
    it only where a model call may be next. *)

From S2P Require Import Prelude Program Text Wire Domain Resolution Broker Registry Router.
From S2P Require Import DomainWire WorkGraphTypes WorkGraphErrors Planning Material ToolOutput.
From S2P Require Import Completion Frontier Journal StepMachine Reducer RunInvariant Receipt.
From S2P Require Import StoreTypes StoreBundles MemoryStore Host Invocation Admission Recovery.
From S2P Require Import Adapters DurableRuntime Verification Executor PlanningContext Proposals.
From S2P Require Import Agent Driver Attempts StoreSpec StoreProofs StoreRuns StoreTheorems.
From S2P Require Import MachineLogic RuntimeSafety AgentSafety DriverSafety Scripts AgentScripts.
From S2P Require Import RuntimeTheorems AgentTheorems.

(** A state from which a tick reserves a call is one the driver takes for a call that may be next. *)
Lemma plannable_may_call agent state :
  plannable agent state → call_may_be_next (Some state) = Ok true.
Proof.
  intros [(frontier & Hf & Hnext & Hquiet) (l & calls & Hl & Hc & Hb & Hcb & Hact & Hcand & Ht & Hr)].
  unfold call_may_be_next. rewrite Hl, Hc, Hact, Hcand, Hf. cbn. f_equal.
  unfold frontier_allows_call, terminal_quiescence in *. rewrite Hnext, Hb, Hcb.
  destruct (nonempty (WorkFrontier.manual_required_step_ids frontier)); [done|].
  destruct (nonempty (WorkFrontier.failed_step_ids frontier)); [done|].
  repeat case_bool_decide; cbn; try lia; done.
Qed.

Section alone.
Context {W L A I V MP R P M RP AP OB : Type} `{!EventFactory W} `{!RunLease L}.
Context `{Crypto} `{JsonSchema} `{JsonSchemaErrors} `{JsonPointer} `{PolicyDecisionSchema} `{Target}.
Context `{ReceiptSchema} `{Rfc3339} `{!ResourceResolver R} `{!PlannerPort W P} `{!PlanMaterializer W M}.
Context `{!PlannerLog W} `{!LoggedPlanner W P M} `{!EffectAdapter W A I} `{!EffectVerifier W V}.
Context `{!InvocationMaterialProvider W MP} `{!PlannedRoutePort W RP} `{!ApprovalPort W AP}.
Context `{!ProgressObserver W OB} `{!LoggedHost W A I V MP RP AP OB}.
Context (log0 : list string) (n0 : N).

(** The planner's log is still [log0], and the journal reserves no more than [n0] calls. *)
Definition log_touched (w : W) : tokens := λ _, if bool_decide (planner_log w = log0) then 0%N else 1%N.
Abbreviation reserving := (λ _ : string, is_reservation).
Record untouched (m : machine W) : Prop := {
  ut_reachable : reachable (Machine.store m);
  ut_log : planner_log (Machine.world m) = log0;
  ut_count : marked reserving "" (M.records (Machine.store m)) = n0;
}.
(** A program that leaves it so. *)
Definition quiet {X} (p : prog (machine W) X) : Prop := ∀ m, untouched m → untouched (run p m).2.

Lemma quiet_then {X Y} (p : prog (machine W) X) (k : X → prog (machine W) Y) :
  quiet p → (∀ x, quiet (k x)) → quiet (bind p k).
Proof. intros Hp Hk m Hm. rewrite run_bind. specialize (Hp m Hm). destruct (run p m). by apply Hk. Qed.

Lemma quiet_pthen {E X Y} (p : prog (machine W) (res E X)) (k : X → prog (machine W) (res E Y)) :
  quiet p → (∀ x, quiet (k x)) → quiet (pbind p k).
Proof. intros Hp Hk. apply quiet_then; [done|]. intros [x|e|why]; [apply Hk|by intros m..]. Qed.

Lemma log_untouched (w : W) e : (log_touched w e ≤ 0)%N → planner_log w = log0.
Proof. unfold log_touched. case_bool_decide; [done|lia]. Qed.

(** A program that is covered without reserving anything is quiet. *)
Lemma covered_quiet {X} (p : prog (machine W) X) :
  (∀ m, covers log_touched reserving (λ n, n ≤ n0)%N anything p no_tokens m) → quiet p.
Proof.
  intros Hp m [Hre Hlog Hn].
  assert (bounded reserving (λ n, n ≤ n0)%N m) as Hb.
  { split; [done|]. intros e. change (marked reserving "" (M.records (Machine.store m)) ≤ n0)%N. lia. }
  destruct (covers_run _ _ _ p m Hb (Hp m)) as ([Hre' Hn'] & _ & Hle).
  specialize (Hn' ""). cbn in Hn'. specialize (Hle ""). unfold used, announced in Hle. rewrite Hn in Hle.
  assert (log_touched (Machine.world m) "" = 0%N) as Hzero by (unfold log_touched; by rewrite bool_decide_true).
  split; [done|apply (log_untouched _ ""); lia|lia].
Qed.

(** Writing no reservation. *)
Lemma wrote_free e (m m' : machine W) bodies :
  wrote m m' bodies → (∀ x, RunEventBody.ModelCallReserved x ∉ bodies) →
  marked reserving e (M.records (Machine.store m')) = marked reserving "" (M.records (Machine.store m)).
Proof.
  intros (rs & -> & <-). unfold marked. induction rs as [|r rs IH] using rev_ind; intros Hfree.
  - by rewrite app_nil_r.
  - rewrite app_assoc, count_snoc, IH; [|intros x Hx; apply (Hfree x); rewrite fmap_app; set_solver].
    assert (is_reservation (body_of r) = false) as Hr.
    { destruct (body_of r) eqn:Hb; try done. exfalso. eapply Hfree. rewrite fmap_app. cbn.
      rewrite Hb. apply elem_of_app. right. left. }
    cbn. rewrite Hr. lia.
Qed.

(** A tick that finds no call to be next. *)
Lemma tick_quiet agent (lease : L) capabilities (resolver : R) (planner : P) (materializer : M) m :
  untouched m → call_may_be_next (M.projection (Machine.store m)) = Ok false →
  untouched (run (tick agent lease capabilities resolver planner materializer) m).2.
Proof.
  intros [Hre Hlog Hn] Hno. destruct (M.projection (Machine.store m)) as [state|] eqn:Hs.
  2: { unfold tick. rewrite run_pbind, run_pmap_err. cbn. rewrite Hs. done. }
  destruct (covers_run log_touched reserving (λ _, True)
    (tick agent lease capabilities resolver planner materializer) m ltac:(by split)) as (_ & _ & Hle).
  { apply tick_covers. split; [by intros e []|done|intros st w e|intros mt request w e|intros pl request r w e _];
      unfold log_touched; [by rewrite metadata_logs_nothing|by rewrite materialize_logs_nothing|].
    unfold credit_for. cbn. repeat case_bool_decide; lia. }
  destruct (follows_run eq _ _ m _ Hre (tick_alone m agent state lease capabilities resolver planner
    materializer m ltac:(by split; [apply wrote_nothing|..]))) as (Ht & Hre' & _).
  assert (¬ plannable agent state) as Hnot by (intros Hp; rewrite (plannable_may_call _ _ Hp) in Hno; done).
  assert (∀ e, marked reserving e
    (M.records (Machine.store (run (tick agent lease capabilities resolver planner materializer) m).2)) = n0)
    as Hsame.
  { intros e. rewrite <- Hn. destruct (run _ m) as [[t|?|?] m'].
    - destruct Ht as (bodies & s & Hw & _ & Hp & _). eapply wrote_free; [exact Hw|]. naive_solver.
    - destruct Ht as (bodies & Hw & [->|[]]); [|done]. eapply wrote_free; [exact Hw|]. intros x. apply not_elem_of_nil.
    - destruct Ht as (bodies & Hw & [->|[]]); [|done]. eapply wrote_free; [exact Hw|]. intros x. apply not_elem_of_nil. }
  specialize (Hle ""). unfold used, announced in Hle. rewrite Hsame, Hn in Hle.
  assert (log_touched (Machine.world m) "" = 0%N) as Hzero by (unfold log_touched; by rewrite bool_decide_true).
  split; [done|apply (log_untouched _ ""); lia|apply Hsame].
Qed.

(** ** A drive without consent *)

Section drive.
Context (self : RunDriver) (lease : L) (capabilities : CapabilityRegistry) (resolver : R).
Context (planner : P) (materializer : M) (providers : MaterialProviderRegistry MP).
Context (adapters : EffectAdapterRegistry A) (verifiers : EffectVerifierRegistry V).
Context (routes : RP) (approvals : AP) (observer : OB).
Abbreviation unconsented f := (f false observer).

Lemma act_on_quiet t :
  quiet (act_on self lease capabilities resolver providers adapters verifiers routes approvals observer t).
Proof.
  apply covered_quiet. intros m. eapply (act_on_covers log_touched reserving (λ n, n ≤ n0)%N (λ _, True)); [|done].
  apply (logged_driver (PL := P) (MT := M)); [|by intros e body].
  intros w w' Hw. unfold log_touched. by rewrite Hw.
Qed.

(** What the driver reads before a tick. *)
Lemma may_be_next_run m :
  run (model_call_may_be_next (W := W)) m = (call_may_be_next (M.projection (Machine.store m)), m).
Proof. done. Qed.

Lemma drive_tick_quiet :
  quiet (drive_tick self lease capabilities resolver planner materializer providers adapters verifiers
           routes approvals false observer).
Proof.
  intros m Hm. unfold drive_tick. rewrite run_pbind, may_be_next_run. cbn [fst snd].
  destruct (call_may_be_next _) as [may_call|?|?] eqn:Hno; [|done..].
  unfold unless_stopped, before_tick. destruct may_call; [done|].
  rewrite run_pbind. cbn [run fst snd negb].
  rewrite run_pbind, run_pmap_err. cbn [fst snd].
  pose proof (tick_quiet (RunDriver.agent_loop self) lease capabilities resolver planner materializer m Hm Hno).
  destruct (run (tick _ _ _ _ _ _) m) as [[t|?|?] m']; cbn [map_err fst snd] in *; [|done..].
  by eapply act_on_quiet.
Qed.

Lemma drive_quiet :
  quiet (drive_until_pause_with_model_egress_observed self lease capabilities resolver planner materializer
           providers adapters verifiers routes approvals false observer).
Proof.
  unfold drive_until_pause_with_model_egress_observed.
  induction (N.to_nat (RunDriver.max_ticks self)) as [|ticks IH]; [by intros m Hm|].
  cbn [drive_ticks]. apply quiet_pthen; [apply drive_tick_quiet|]. intros [outcome|]; [by intros m Hm|done].
Qed.
End drive.
End alone.

(** ** Asking for consent *)

(** A result that does not ask for it. *)
Definition unasking (r : res RunDriverError (option DriverOutcome)) : Prop :=
  r ≠ Ok (Some DriverOutcome.ModelEgressRequired).

Section asking.
Context {W L A I V MP R P M RP AP OB : Type} `{!EventFactory W} `{!RunLease L}.
Context `{Crypto} `{JsonSchema} `{JsonSchemaErrors} `{JsonPointer} `{PolicyDecisionSchema} `{Target}.
Context `{ReceiptSchema} `{Rfc3339} `{!ResourceResolver R} `{!PlannerPort W P} `{!PlanMaterializer W M}.
Context `{!EffectAdapter W A I} `{!EffectVerifier W V} `{!InvocationMaterialProvider W MP}.
Context `{!PlannedRoutePort W RP} `{!ApprovalPort W AP} `{!ProgressObserver W OB}.

Definition unasked (p : prog (machine W) (res RunDriverError (option DriverOutcome))) : Prop :=
  ∀ m, unasking (run p m).1.

Lemma unasked_pbind {X} (p : prog (machine W) (res RunDriverError X)) k :
  (∀ x, unasked (k x)) → unasked (pbind p k).
Proof. intros Hk m. rewrite run_pbind. by destruct (run p m).1 as [x|?|?]; [apply Hk|..]. Qed.

Lemma unasked_announce (observer : OB) progress : unasked (announce_progress observer progress).
Proof.
  intros m. unfold announce_progress. rewrite run_bind. by destruct (run _ m).1.
Qed.

Lemma unasked_unless p k : unasked p → unasked k → unasked (unless_stopped p k).
Proof.
  intros Hp Hk m. specialize (Hp m). unfold unless_stopped. rewrite run_pbind.
  destruct (run p m).1 as [[outcome|]|?|?]; try done; apply Hk.
Qed.

Section drive.
Context (self : RunDriver) (lease : L) (capabilities : CapabilityRegistry) (resolver : R).
Context (planner : P) (materializer : M) (providers : MaterialProviderRegistry MP).
Context (adapters : EffectAdapterRegistry A) (verifiers : EffectVerifierRegistry V).
Context (routes : RP) (approvals : AP) (egress : bool) (observer : OB).

Lemma unasked_act_on t :
  unasked (act_on self lease capabilities resolver providers adapters verifiers routes approvals observer t).
Proof.
  destruct t as [| |action head| |candidate output| | | | | | |]; cbn [act_on]; try by intros m.
  - destruct (FrontierAction.action action).
    + unfold drive_effect. apply unasked_pbind. intros state.
      destruct (driven_step state _) as [found|?|?]; [|by intros m..].
      apply unasked_unless; [apply unasked_announce|]. apply unasked_pbind. intros report.
      apply unasked_announce.
    + apply unasked_unless; [apply unasked_announce|]. apply unasked_pbind. intros report.
      apply unasked_announce.
    + unfold admit_step. do 3 (apply unasked_pbind; intros ?). apply unasked_pbind.
      intros [inputs| |]; [|by intros m|].
      * apply unasked_pbind. intros []; [apply unasked_announce|by intros m].
      * apply unasked_pbind. by intros ? m.
  - apply unasked_announce.
  - apply unasked_pbind. by intros ? m.
Qed.

(** A pass that asks for consent has done nothing. *)
Lemma tick_asks m :
  (run (drive_tick self lease capabilities resolver planner materializer providers adapters verifiers
          routes approvals egress observer) m).1 = Ok (Some DriverOutcome.ModelEgressRequired) →
  (run (drive_tick self lease capabilities resolver planner materializer providers adapters verifiers
          routes approvals egress observer) m).2 = m ∧
  egress = false ∧ call_may_be_next (M.projection (Machine.store m)) = Ok true.
Proof.
  unfold drive_tick. rewrite run_pbind, may_be_next_run. cbn [fst snd].
  destruct (call_may_be_next _) as [may_call|?|?] eqn:Hmay; [|done..].
  assert (unasked (let! tick := pmap_err RunDriverError.AgentLoop
       (tick (RunDriver.agent_loop self) lease capabilities resolver planner materializer) in
     act_on self lease capabilities resolver providers adapters verifiers routes approvals observer tick))
    as Hrest by (apply unasked_pbind, unasked_act_on).
  unfold before_tick. destruct may_call, egress; cbn [negb]; intros Hr; try done.
  - destruct (unasked_unless _ _ (unasked_announce observer _) Hrest m Hr).
  - destruct (unasked_unless _ _ (ltac:(by intros m') : unasked (Ret (Ok None))) Hrest m Hr).
  - destruct (unasked_unless _ _ (ltac:(by intros m') : unasked (Ret (Ok None))) Hrest m Hr).
Qed.

(** A drive that asks for consent stops where a model call may be next. *)
Lemma drive_asks m r m' :
  run (drive_until_pause_with_model_egress_observed self lease capabilities resolver planner materializer
         providers adapters verifiers routes approvals egress observer) m = (r, m') →
  r = Ok DriverOutcome.ModelEgressRequired →
  egress = false ∧ call_may_be_next (M.projection (Machine.store m')) = Ok true.
Proof.
  unfold drive_until_pause_with_model_egress_observed. revert m.
  induction (N.to_nat (RunDriver.max_ticks self)) as [|ticks IH]; intros m; [by intros [= <- _]|].
  cbn [drive_ticks]. rewrite run_pbind. pose proof (tick_asks m) as Hask.
  destruct (run (drive_tick _ _ _ _ _ _ _ _ _ _ _ _ _) m) as [[[outcome|]|?|?] m1]; cbn [fst snd run] in *.
  - intros [= <- <-] [= ->]. by destruct (Hask eq_refl) as (-> & ? & ?).
  - apply IH.
  - by intros [= <- _].
  - by intros [= <- _].
Qed.

(** Without consent such a state is where a drive stops. *)
Lemma drive_stops_for_consent m :
  egress = false → (0 < RunDriver.max_ticks self)%N →
  call_may_be_next (M.projection (Machine.store m)) = Ok true →
  run (drive_until_pause_with_model_egress_observed self lease capabilities resolver planner materializer
         providers adapters verifiers routes approvals egress observer) m
  = (Ok DriverOutcome.ModelEgressRequired, m).
Proof.
  intros -> Hticks Hmay. unfold drive_until_pause_with_model_egress_observed.
  destruct (N.to_nat (RunDriver.max_ticks self)) as [|ticks] eqn:Ht; [lia|].
  cbn [drive_ticks]. unfold drive_tick. rewrite run_pbind, run_pbind, may_be_next_run. cbn [fst snd].
  by rewrite Hmay.
Qed.
End drive.
End asking.

(** C7: Run alone without the host's consent to call a model, a drive asks the planner's provider
    nothing and reserves no call, whatever it admits, executes and verifies, and however it ends;
    and a drive stops to ask for consent only where it has not been given and the state of the run
    allows a model call; begun there, it asks at once and does nothing else. *)
Theorem drives_need_consent_to_call_a_model {W L A I V MP R P M RP AP OB : Type} `{!EventFactory W}
    `{!RunLease L} `{Crypto} `{JsonSchema} `{JsonSchemaErrors} `{JsonPointer} `{PolicyDecisionSchema}
    `{Target} `{ReceiptSchema} `{Rfc3339} `{!ResourceResolver R} `{!PlannerPort W P}
    `{!PlanMaterializer W M} `{!PlannerLog W} `{!LoggedPlanner W P M} `{!EffectAdapter W A I}
    `{!EffectVerifier W V} `{!InvocationMaterialProvider W MP} `{!PlannedRoutePort W RP}
    `{!ApprovalPort W AP} `{!ProgressObserver W OB} `{!LoggedHost W A I V MP RP AP OB}
    (self : RunDriver) (lease : L) (capabilities : CapabilityRegistry) (resolver : R) (planner : P)
    (materializer : M) (providers : MaterialProviderRegistry MP) (adapters : EffectAdapterRegistry A)
    (verifiers : EffectVerifierRegistry V) (routes : RP) (approvals : AP) (egress : bool) (observer : OB)
    (m m' : machine W) (r : res RunDriverError DriverOutcome) :
  reachable (Machine.store m) →
  run (drive_until_pause_with_model_egress_observed self lease capabilities resolver planner materializer
         providers adapters verifiers routes approvals egress observer) m = (r, m') →
  (egress = false →
     reachable (Machine.store m') ∧ planner_log (Machine.world m') = planner_log (Machine.world m) ∧
     len (reservations (M.records (Machine.store m'))) = len (reservations (M.records (Machine.store m)))) ∧
  (r = Ok DriverOutcome.ModelEgressRequired →
     egress = false ∧ call_may_be_next (M.projection (Machine.store m')) = Ok true) ∧
  (egress = false → (0 < RunDriver.max_ticks self)%N →
     call_may_be_next (M.projection (Machine.store m)) = Ok true →
     r = Ok DriverOutcome.ModelEgressRequired ∧ m' = m).
Proof.
  intros Hre Hrun. split_and!; [|by eapply drive_asks|].
  2: { intros He Ht Hmay. rewrite drive_stops_for_consent in Hrun by done. by simplify_eq. }
  intros ->.
  pose proof (drive_quiet (planner_log (Machine.world m)) _ self lease capabilities resolver planner
    materializer providers adapters verifiers routes approvals observer m
    (Build_untouched _ _ _ Hre eq_refl eq_refl)) as [Hre' Hlog Hn].
  rewrite Hrun in *. by rewrite !marked_reservations in Hn.
Qed.
