(* ===== verification/StoreEvidence.v ===== *)
(** The evidence a reachable store holds: every step the projection shows to be planned,
    authorized, observed or completed has its recipe, material, output or receipt on record, and a
    planning snapshot is complete. *)

From S2P Require Import Prelude Text Wire WorkGraphTypes WorkGraphErrors Planning Material.
From S2P Require Import ToolOutput Completion Frontier Journal AgentLoop Plans Effects.
From S2P Require Import StepMachine Reducer RunInvariant JournalTheorems Receipt StoreTypes.
From S2P Require Import StoreBundles StoreIndex StoreSidecars MemoryStore StoreSpec StoreProofs.
From S2P Require Import StoreAppends StoreRuns StoreTheorems.

Section evidence.
Context `{Crypto} `{ReceiptSchema} `{Rfc3339}.

(** ** Looking evidence up *)

Lemma agreed_lookup {A B} (m : gmap string A) (m' : gmap string B) k b :
  dom m = dom m' → m' !! k = Some b → is_Some (m !! k).
Proof. intros Hd Hb. apply elem_of_dom. rewrite Hd. apply elem_of_dom. by exists b. Qed.

Lemma step_at self s id st :
  M.projection self = Some s → RunState.steps s !! id = Some st →
  steps_at (M.projection self) !! id = Some st.
Proof. by intros ->. Qed.

Lemma planned_evidence self s id st p :
  reachable self → M.projection self = Some s → RunState.steps s !! id = Some st →
  StepState.planned_invocation st = Some p →
  ∃ x, M.plan_inputs self !! id = Some x ∧
    PlannedInvocationMaterialRecord_verify_for x (RunState.run_id s) id p = Ok tt.
Proof.
  intros Hre Hs Hst Hp. pose proof (reachable_inv _ Hre) as Hinv.
  destruct (sx_planned _ _ _ (rx_steps _ _ (reachable_indexed _ Hre) _ _ (step_at _ _ _ _ Hs Hst)) _ Hp)
    as (x & Hx & <-).
  destruct (si_inputs _ Hinv) as [Hd Hv]. destruct (agreed_lookup _ _ _ _ Hd Hx) as [y Hy].
  exists y. split; [done|]. destruct (Hv _ _ _ Hx Hy) as (s' & Hs' & Hok).
  rewrite (si_state _ Hinv), Hs in Hs'. by injection Hs' as <-.
Qed.

Lemma intent_evidence self s id st a :
  reachable self → M.projection self = Some s → RunState.steps s !! id = Some st →
  StepState.intent st = Some a →
  ∃ x, M.materials self !! EffectIntent.effect_id a = Some x ∧
    InvocationMaterialRecord_verify_for x (RunState.run_id s) id a = Ok tt.
Proof.
  intros Hre Hs Hst Ha. pose proof (reachable_inv _ Hre) as Hinv.
  destruct (sx_intent _ _ _ (rx_steps _ _ (reachable_indexed _ Hre) _ _ (step_at _ _ _ _ Hs Hst)) _ Ha)
    as (x & Hx & <- & Hax).
  destruct (si_materials _ Hinv) as [Hd Hv]. destruct (agreed_lookup _ _ _ _ Hd Hx) as [y Hy].
  exists y. split; [done|]. destruct (Hv _ _ _ Hx Hy) as (s' & Hs' & Hok).
  rewrite (si_state _ Hinv), Hs in Hs'. injection Hs' as <-. by rewrite Hax in Hok.
Qed.

(** What the audit of a stored output checks. *)
Lemma stored_output_Ok i x o :
  verify_stored_tool_output i x o = Ok tt →
  ToolOutputRecord.effect_id (StoredToolOutput.record o) = ToolOutputEventAnchor.effect_id x ∧
  ToolOutputRecord.step_id (StoredToolOutput.record o) = ToolOutputEventAnchor.step_id x ∧
  ToolOutputRecord.record_digest (StoredToolOutput.record o) = ToolOutputEventAnchor.record_digest x.
Proof.
  unfold verify_stored_tool_output. intros Hv.
  match type of Hv with (if ?b then _ else _) = _ => destruct b eqn:Hb; [done|] end.
  apply rbind_ok in Hv as (y & _ & Hr). apply map_err_ok in Hr.
  unfold ToolOutputRecord_verify_for in Hr. repeat res_step.
  match goal with Hm : first_mismatch _ = None |- _ => apply first_mismatch_None in Hm end.
  repeat match goal with Hm : Forall _ (_ :: _) |- _ => apply Forall_cons in Hm as [? Hm] end.
  cbn in *. bool_inv. done.
Qed.

Lemma output_evidence self s id st d :
  reachable self → M.projection self = Some s → RunState.steps s !! id = Some st →
  StepState.output_record_digest st = Some d →
  ∃ a o, StepState.intent st = Some a ∧ M.outputs self !! EffectIntent.effect_id a = Some o ∧
    ToolOutputRecord.step_id (StoredToolOutput.record o) = id ∧
    ToolOutputRecord.record_digest (StoredToolOutput.record o) = d.
Proof.
  intros Hre Hs Hst Hd. pose proof (reachable_inv _ Hre) as Hinv.
  destruct (sx_output _ _ _ (rx_steps _ _ (reachable_indexed _ Hre) _ _ (step_at _ _ _ _ Hs Hst)) _ Hd)
    as (e & x & He & Hx & <- & <-).
  unfold effect_of in He. destruct (StepState.intent st) as [a|]; [|done]. injection He as <-.
  destruct (si_outputs _ Hinv) as [Hdom _ Hv _ _]. destruct (agreed_lookup _ _ _ _ Hdom Hx) as [o Ho].
  exists a, o. by destruct (stored_output_Ok _ _ _ (Hv _ _ _ Hx Ho)) as (_ & ? & ?).
Qed.

(** What the audit of a stored receipt checks of its identity. *)
Lemma stored_receipt_Ok i prev x r :
  verify_stored_receipt i prev x r = Ok tt →
  StoredExecutionReceipt.effect_id r = ReceiptEventAnchor.effect_id x ∧
  ExecutionReceiptBody.receipt_id (StoredExecutionReceipt.receipt r) = ReceiptEventAnchor.receipt_id x ∧
  ExecutionReceiptBody.receipt_digest (StoredExecutionReceipt.receipt r) = ReceiptEventAnchor.receipt_digest x ∧
  ExecutionReceiptBody.step_id (StoredExecutionReceipt.receipt r) = ReceiptEventAnchor.step_id x.
Proof.
  unfold verify_stored_receipt. intros Hv. apply rbind_ok in Hv as (u & _ & Hv).
  match type of Hv with (if ?b then _ else _) = _ => destruct b eqn:Hb; [done|] end. bool_inv. done.
Qed.

Lemma receipt_evidence self s id st :
  reachable self → M.projection self = Some s → RunState.steps s !! id = Some st →
  StepState.status st = StepStatus.Completed →
  ∃ r, r ∈ M.receipts self ∧ effect_of st = Some (StoredExecutionReceipt.effect_id r) ∧
    ExecutionReceiptBody.step_id (StoredExecutionReceipt.receipt r) = id ∧
    StepState.execution_receipt_id st
      = Some (ExecutionReceiptBody.receipt_id (StoredExecutionReceipt.receipt r)) ∧
    StepState.execution_receipt_digest st
      = Some (ExecutionReceiptBody.receipt_digest (StoredExecutionReceipt.receipt r)).
Proof.
  intros Hre Hs Hst Hc. pose proof (reachable_inv _ Hre) as Hinv.
  destruct (sx_completed _ _ _ (rx_steps _ _ (reachable_indexed _ Hre) _ _ (step_at _ _ _ _ Hs Hst)) Hc)
    as (e & x & He & [Hx <-] & <- & _ & -> & ->).
  unfold indexed_receipt in Hx. destruct (V.receipt_event_positions _ !! _) as [k|]; [|done]. cbn in Hx.
  destruct (si_receipts _ Hinv) as [Hlen Hv _ _ _].
  destruct (lookup_lt_is_Some_2 (M.receipts self) (N.to_nat k)) as [r Hr].
  { rewrite <-Hlen. by eapply lookup_lt_Some. }
  exists r. destruct (stored_receipt_Ok _ _ _ _ (Hv _ _ _ Hx Hr)) as (-> & -> & -> & ->).
  split_and!; try done. by eapply list_elem_of_lookup_2.
Qed.

(** C20: The journal never runs ahead of its evidence: in every store that appends reach, a
    step planned from a proposal has its recipe, a step with a committed effect has the
    material that effect was authorized for, a step whose effect returned an output has that
    output, and a completed step has its execution receipt; each of them loads, and is the
    record whose digest and binding the projection holds. *)
Theorem steps_have_durable_evidence (self : MemoryRunStore) (s : RunState) (id : string) (st : StepState) :
  reachable self → load_current self = Ok (Some s) → RunState.steps s !! id = Some st →
  (∀ p, StepState.planned_invocation st = Some p →
     ∃ x, load_planned_invocation self id = Ok (Some x) ∧
       PlannedInvocationMaterialRecord_verify_for x (RunState.run_id s) id p = Ok tt) ∧
  (∀ a, StepState.intent st = Some a →
     ∃ x, load_invocation_material self (EffectIntent.effect_id a) = Ok (Some x) ∧
       InvocationMaterialRecord_verify_for x (RunState.run_id s) id a = Ok tt) ∧
  (∀ d, StepState.output_record_digest st = Some d →
     ∃ a x, StepState.intent st = Some a ∧
       load_tool_output self (EffectIntent.effect_id a) = Ok (Some x) ∧
       ToolOutputRecord.step_id x = id ∧ ToolOutputRecord.record_digest x = d) ∧
  (StepState.status st = StepStatus.Completed →
     ∃ receipts r, load_execution_receipts self = Ok receipts ∧ r ∈ receipts ∧
       ExecutionReceiptBody.step_id r = id ∧
       StepState.execution_receipt_id st = Some (ExecutionReceiptBody.receipt_id r) ∧
       StepState.execution_receipt_digest st = Some (ExecutionReceiptBody.receipt_digest r)).
Proof.
  intros Hre Hs Hst. injection Hs as Hs. pose proof (reachable_inv _ Hre) as Hinv. split_and!.
  - intros p Hp. destruct (planned_evidence _ _ _ _ _ Hre Hs Hst Hp) as (x & Hx & Hok).
    exists x. split; [|done]. cbn. unfold MemoryRunStore_load_planned_invocation.
    rewrite plan_input_point by done. by rewrite Hx.
  - intros a Ha. destruct (intent_evidence _ _ _ _ _ Hre Hs Hst Ha) as (x & Hx & Hok).
    exists x. split; [|done]. cbn. unfold MemoryRunStore_load_invocation_material.
    rewrite material_point by done. by rewrite Hx.
  - intros d Hd. destruct (output_evidence _ _ _ _ _ Hre Hs Hst Hd) as (a & o & Ha & Ho & Hid & Hdg).
    exists a, (StoredToolOutput.record o). split_and!; [done| |done..].
    cbn. unfold MemoryRunStore_load_tool_output. rewrite tool_output_point by done. by rewrite Ho.
  - intros Hc. destruct (receipt_evidence _ _ _ _ Hre Hs Hst Hc) as (r & Hr & _ & ? & ? & ?).
    exists (map StoredExecutionReceipt.receipt (M.receipts self)), (StoredExecutionReceipt.receipt r).
    split_and!; try done. by apply list_elem_of_fmap_2.
Qed.
End evidence.

(** The planning snapshot of a reachable store: which outputs it selects, the byte budget it
    enforces, and that nothing in a store built by appends makes it fail otherwise. *)

(** ** The selection *)

(** The effect and record digest of a completed step with an output. *)
Definition bound_output (st : StepState) : option (string * string) :=
  if bool_decide (StepState.status st = StepStatus.Completed) then
    d ← StepState.output_record_digest st; e ← effect_of st; Some (e, d)
  else None.

Definition selection (entry : string * StepState) : option (string * string * string) :=
  t ← bound_output entry.2; Some (entry.1, t.1, t.2).

Definition stored_size (outputs : gmap string StoredToolOutput) (t : string * string * string) : N :=
  match outputs !! t.1.2 with
  | Some o => ToolOutputRecord.canonical_size_bytes (StoredToolOutput.record o)
  | None => 0
  end.

Definition total_size (outputs : gmap string StoredToolOutput) (l : list (string * string * string)) : N :=
  foldr (λ t n, (stored_size outputs t + n)%N) 0%N l.

(** The bytes the completed outputs of a run take. *)
Definition completed_bytes (self : MemoryRunStore) (s : RunState) : N :=
  total_size (M.outputs self) (omap selection (btree_entries (RunState.steps s))).

(** The budget, within the width of the counter. *)
Definition budget (max_output_bytes : N) : N := N.min max_output_bytes u64_max.

Section planning.
Context `{Crypto} `{ReceiptSchema} `{Rfc3339}.
Context (self : MemoryRunStore) (s : RunState).
Context (Hre : reachable self) (Hs : M.projection self = Some s).

Lemma bound_stored id st e d :
  RunState.steps s !! id = Some st → bound_output st = Some (e, d) →
  ∃ o, M.outputs self !! e = Some o ∧ ToolOutputRecord.step_id (StoredToolOutput.record o) = id ∧
    ToolOutputRecord.record_digest (StoredToolOutput.record o) = d.
Proof.
  unfold bound_output. intros Hst Hb. case_bool_decide as Hc; [|done].
  destruct (StepState.output_record_digest st) as [d'|] eqn:Hd; [|done].
  destruct (output_evidence _ _ _ _ _ Hre Hs Hst Hd) as (a & o & Ha & Ho & Hid & Hdg).
  unfold effect_of in Hb. rewrite Ha in Hb. cbn in Hb. injection Hb as <- <-. by exists o.
Qed.

Lemma index_output_sizes e :
  V.tool_output_sizes (M.index self) !! e
  = (λ o, ToolOutputRecord.canonical_size_bytes (StoredToolOutput.record o)) <$> M.outputs self !! e.
Proof.
  destruct (si_index _ (reachable_inv _ Hre)) as (base & _ & _ & ->). cbn. by rewrite lookup_fmap.
Qed.

Lemma index_output_digests e :
  V.tool_output_digests (M.index self) !! e
  = (λ o, ToolOutputRecord.output_digest (StoredToolOutput.record o)) <$> M.outputs self !! e.
Proof.
  destruct (si_index _ (reachable_inv _ Hre)) as (base & _ & _ & ->). cbn. by rewrite lookup_fmap.
Qed.

Lemma index_receipt_effect e x :
  receipt_at (M.index self) e x → e ∈ V.receipt_effect_ids (M.index self).
Proof.
  intros [Hx <-]. pose proof (reachable_inv _ Hre) as Hinv.
  assert (He : ReceiptEventAnchor.effect_id x ∈ StoredExecutionReceipt.effect_id <$> M.receipts self).
  { apply (si_positions _ Hinv). unfold indexed_receipt in Hx.
    by destruct (V.receipt_event_positions _ !! _). }
  destruct (si_index _ Hinv) as (base & _ & _ & ->). cbn. by apply elem_of_list_to_set.
Qed.

(** One step of the selection, on a step of the run. *)
Lemma select_one max id st sel n :
  RunState.steps s !! id = Some st →
  select_output (M.index self) max (sel, n) (id, st)
  = match selection (id, st) with
    | None => Ok (sel, n)
    | Some t =>
        if bool_decide (n + stored_size (M.outputs self) t ≤ budget max)%N
        then Ok (sel ++ [t], (n + stored_size (M.outputs self) t)%N)
        else Err StoreError.PlanningSnapshotBudgetExceeded
    end.
Proof.
  intros Hst. unfold select_output, selection. cbn [fst snd].
  destruct (decide (StepState.status st = StepStatus.Completed)) as [Hc|Hc].
  2: { unfold bound_output. by rewrite bool_decide_eq_true_2, bool_decide_eq_false_2. }
  rewrite bool_decide_eq_false_2 by auto.
  destruct (StepState.output_record_digest st) as [d|] eqn:Hd.
  2: { unfold bound_output. by rewrite bool_decide_eq_true_2, Hd. }
  destruct (sx_completed _ _ _ (rx_steps _ _ (reachable_indexed _ Hre) _ _ (step_at _ _ _ _ Hs Hst)) Hc)
    as (e & x & He & Hx & Hxs & Hxd & Hrid & Hrdg).
  assert (Hb : bound_output st = Some (e, d)).
  { unfold bound_output. by rewrite bool_decide_eq_true_2, Hd, He. }
  destruct (bound_stored _ _ _ _ Hst Hb) as (o & Ho & _). rewrite Hb. cbn [mbind option_bind fst snd].
  unfold effect_of in He. destruct (StepState.intent st) as [a|] eqn:Ha; [|done]. injection He as He.
  cbn [ok_or rbind]. rewrite Hrid, Hrdg. cbn [ok_or rbind]. rewrite He.
  rewrite (proj1 Hx). cbn [ok_or rbind].
  rewrite !bool_decide_eq_false_2 by (rewrite ?Hxs, ?Hxd; auto; intros Hn; apply Hn; by eapply index_receipt_effect).
  cbn [orb]. unfold stored_size. cbn [fst snd]. rewrite index_output_sizes, Ho. cbn [fmap option_fmap option_map ok_or rbind].
  unfold checked_add, budget. set (z := ToolOutputRecord.canonical_size_bytes _).
  destruct (decide (n + z ≤ u64_max)%N) as [Hle|Hle].
  - rewrite (bool_decide_eq_true_2 (n + z ≤ u64_max)%N) by done. cbn [ok_or rbind].
    destruct (decide (n + z ≤ max)%N) as [Hm|Hm].
    + rewrite bool_decide_eq_false_2, bool_decide_eq_true_2 by lia. done.
    + rewrite bool_decide_eq_true_2, bool_decide_eq_false_2 by lia. done.
  - rewrite !bool_decide_eq_false_2 by lia. done.
Qed.

Lemma select_all max entries sel n :
  (∀ id st, (id, st) ∈ entries → RunState.steps s !! id = Some st) → (n ≤ budget max)%N →
  for_each (select_output (M.index self) max) entries (sel, n)
  = let l := omap selection entries in
    if bool_decide (n + total_size (M.outputs self) l ≤ budget max)%N
    then Ok (sel ++ l, (n + total_size (M.outputs self) l)%N)
    else Err StoreError.PlanningSnapshotBudgetExceeded.
Proof.
  revert sel n. induction entries as [|[id st] entries IH]; intros sel n Hin Hn; cbn [for_each omap list_omap].
  - cbn. rewrite N.add_0_r, app_nil_r. by rewrite bool_decide_eq_true_2.
  - rewrite select_one by (apply Hin; left).
    assert (Hrest : ∀ id st, (id, st) ∈ entries → RunState.steps s !! id = Some st) by (intros; apply Hin; by right).
    destruct (selection (id, st)) as [t|]; [|cbn [rbind]; by apply IH].
    cbn [total_size foldr]. change (foldr _ 0%N ?l) with (total_size (M.outputs self) l).
    case_bool_decide as Hle; cbn [rbind].
    + rewrite IH by done. cbn zeta. rewrite <-app_assoc, <-N.add_assoc. done.
    + rewrite bool_decide_eq_false_2; [done|]. lia.
Qed.

(** ** Loading the selection *)

Definition selected (t : string * string * string) : Prop :=
  ∃ st, RunState.steps s !! t.1.1 = Some st ∧ bound_output st = Some (t.1.2, t.2).

Lemma load_one m t :
  selected t → m !! t.1.1 = None →
  ∃ o, M.outputs self !! t.1.2 = Some o ∧
    load_selection (M.index self) (λ e, Ok (M.outputs self !! e)) m t
    = Ok (<[t.1.1 := StoredToolOutput.record o]> m).
Proof.
  destruct t as [[id e] d]. cbn [fst snd]. intros (st & Hst & Hb) Hm. cbn [fst snd] in *.
  destruct (bound_stored _ _ _ _ Hst Hb) as (o & Ho & Hid & Hdg). exists o. split; [done|].
  unfold load_selection. cbn [rbind]. rewrite tool_output_point by (by apply reachable_inv).
  rewrite Ho. cbn [ok_or rbind]. rewrite index_output_digests, Ho.
  rewrite !bool_decide_eq_false_2 by auto. cbn [orb]. by apply insert_new_fresh.
Qed.

Lemma load_all sels m :
  Forall selected sels → NoDup ((λ t, t.1.1) <$> sels) → (∀ t, t ∈ sels → m !! t.1.1 = None) →
  ∃ m', for_each (load_selection (M.index self) (λ e, Ok (M.outputs self !! e))) sels m = Ok m' ∧
    ∀ id x, m' !! id = Some x ↔ m !! id = Some x ∨
      ∃ t o, t ∈ sels ∧ t.1.1 = id ∧ M.outputs self !! t.1.2 = Some o ∧ x = StoredToolOutput.record o.
Proof.
  revert m. induction sels as [|t sels IH]; intros m Hsel Hnd Hm.
  - exists m. split; [done|]. intros id x. split; [by left|]. intros [?|(t & o & []%elem_of_nil & _)]. done.
  - apply Forall_cons in Hsel as [Ht Hsel]. cbn in Hnd. apply NoDup_cons in Hnd as [Hnt Hnd].
    destruct (load_one m t Ht) as (o & Ho & Hl); [apply Hm; left|]. cbn [for_each]. rewrite Hl. cbn [rbind].
    destruct (IH (<[t.1.1 := StoredToolOutput.record o]> m)) as (m' & Hm' & Hspec); [done|done| |].
    { intros t' Ht'. rewrite lookup_insert_ne; [apply Hm; by right|].
      intros Heq. apply Hnt. rewrite Heq. apply list_elem_of_fmap. by exists t'. }
    exists m'. split; [done|]. intros id x. rewrite Hspec, lookup_insert_Some. split.
    + intros [[[Hid <-]|[_ Hx]]|(t' & o' & Ht' & Hrest)].
      * right. exists t, o. split_and!; [left|done..].
      * by left.
      * right. exists t', o'. split; [by right|done].
    + intros [Hx|(t' & o' & [->|Ht']%elem_of_cons & Hid & Ho' & ->)].
      * left. right. split; [|done]. intros Hid. rewrite <-Hid, Hm in Hx by left. done.
      * left. left. split; [done|]. congruence.
      * right. by exists t', o'.
Qed.

Lemma selection_entry id st t :
  RunState.steps s !! id = Some st → selection (id, st) = Some t → t.1.1 = id ∧ selected t.
Proof.
  unfold selection, selected. cbn. intros Hst Ht.
  destruct (bound_output st) as [[e d]|] eqn:Hb; [|done]. cbn in Ht. injection Ht as <-. cbn.
  split; [done|]. by exists st.
Qed.

Lemma selections_distinct entries :
  (∀ id st, (id, st) ∈ entries → RunState.steps s !! id = Some st) → NoDup (entries.*1) →
  Forall selected (omap selection entries) ∧ NoDup ((λ t, t.1.1) <$> omap selection entries).
Proof.
  induction entries as [|[id st] entries IH]; intros Hin Hnd; [split; constructor|].
  cbn in Hnd. apply NoDup_cons in Hnd as [Hid Hnd].
  destruct IH as [IHs IHn]; [intros; apply Hin; by right|done|]. cbn [omap list_omap].
  destruct (selection (id, st)) as [t|] eqn:Ht; [|done].
  destruct (selection_entry _ _ _ (Hin id st ltac:(left)) Ht) as [<- Hsel].
  split; [by constructor|]. cbn. apply NoDup_cons. split; [|done].
  intros (t' & Heq & ([id' st'] & Hin' & Ht')%list_elem_of_omap)%list_elem_of_fmap.
  destruct (selection_entry _ _ _ (Hin id' st' ltac:(by right)) Ht') as [Hid' _].
  apply Hid. rewrite Heq, Hid'. apply list_elem_of_fmap. by exists (id', st').
Qed.

(** ** The order of the outputs *)

Lemma observe_all l obs order :
  NoDup (ReceiptEventAnchor.step_id <$> l) → (∀ x, x ∈ l → ReceiptEventAnchor.step_id x ∉ obs) →
  for_each observe_receipt l (obs, order)
  = Ok (list_to_set (ReceiptEventAnchor.step_id <$> l) ∪ obs, order ++ (ReceiptEventAnchor.step_id <$> l)).
Proof.
  revert obs order. induction l as [|x l IH]; intros obs order Hnd Hobs; cbn [for_each].
  - cbn. by rewrite union_empty_l_L, app_nil_r.
  - cbn in Hnd. apply NoDup_cons in Hnd as [Hx Hnd]. cbn [observe_receipt].
    unfold observe_receipt at 1. rewrite bool_decide_eq_false_2 by (apply Hobs; left). cbn [rbind].
    rewrite IH; [|done|].
    + cbn. rewrite <-app_assoc. f_equal. f_equal. set_solver.
    + intros y Hy. rewrite not_elem_of_union, not_elem_of_singleton. split; [|apply Hobs; by right].
      intros Heq. apply Hx. rewrite <-Heq. by apply list_elem_of_fmap_2.
Qed.

Lemma receipt_steps_distinct : NoDup (ReceiptEventAnchor.step_id <$> V.receipt_events (M.index self)).
Proof.
  pose proof (reachable_inv _ Hre) as Hinv. destruct (si_receipts _ Hinv) as [Hlen Hv _ _ Hnd].
  apply NoDup_alt. intros i j id Hi Hj. rewrite list_lookup_fmap in Hi, Hj.
  apply fmap_Some in Hi as (x & Hx & ->), Hj as (y & Hy & Hxy).
  assert (Heff : ∀ k z, V.receipt_events (M.index self) !! k = Some z →
            (StoredExecutionReceipt.effect_id <$> M.receipts self) !! k = Some (ReceiptEventAnchor.effect_id z)).
  { intros k z Hz. destruct (lookup_lt_is_Some_2 (M.receipts self) k) as [r Hr].
    { rewrite <-Hlen. by eapply lookup_lt_Some. }
    rewrite list_lookup_fmap, Hr. cbn. by destruct (stored_receipt_Ok _ _ _ _ (Hv _ _ _ Hz Hr)) as (-> & _). }
  pose proof (rx_receipts _ _ (reachable_indexed _ Hre)) as Hrx.
  destruct (Hrx x) as (st & Hst & He); [by eapply list_elem_of_lookup_2|].
  destruct (Hrx y) as (st' & Hst' & He'); [by eapply list_elem_of_lookup_2|].
  assert (ReceiptEventAnchor.effect_id x = ReceiptEventAnchor.effect_id y) as E by congruence.
  eapply NoDup_lookup; [done|by apply Heff|]. rewrite E. by apply Heff.
Qed.

Lemma output_order (expected : gset string) :
  (∀ id, id ∈ expected → ∃ st, RunState.steps s !! id = Some st ∧ StepState.status st = StepStatus.Completed) →
  ∃ order, completed_tool_output_order (M.index self) expected = Ok order ∧ order ≡ₚ elements expected.
Proof.
  intros Hexp. unfold completed_tool_output_order.
  set (l := sort_by receipt_compare _).
  assert (Hl : l ≡ₚ filter (λ x, ReceiptEventAnchor.disposition x = VerificationDisposition.Passed ∧
                 ReceiptEventAnchor.step_id x ∈ expected) (V.receipt_events (M.index self)))
    by apply sort_by_perm.
  assert (Hnd : NoDup (ReceiptEventAnchor.step_id <$> l)).
  { rewrite Hl. eapply sublist_NoDup; [apply receipt_steps_distinct|]. apply fmap_sublist, sublist_filter. }
  rewrite observe_all by (try done; set_solver). cbn [rbind app]. rewrite union_empty_r_L.
  assert (Heq : list_to_set (ReceiptEventAnchor.step_id <$> l) = expected).
  { apply set_eq. intros id. rewrite elem_of_list_to_set, list_elem_of_fmap. split.
    - intros (x & -> & Hx). rewrite Hl in Hx. by apply list_elem_of_filter in Hx as [[_ ?] _].
    - intros Hid. destruct (Hexp _ Hid) as (st & Hst & Hc).
      destruct (sx_completed _ _ _ (rx_steps _ _ (reachable_indexed _ Hre) _ _ (step_at _ _ _ _ Hs Hst)) Hc)
        as (e & x & He & [Hx _] & <- & Hxd & _).
      exists x. split; [done|]. rewrite Hl. apply list_elem_of_filter. split; [done|].
      unfold indexed_receipt in Hx. destruct (V.receipt_event_positions _ !! _); [|done].
      by eapply list_elem_of_lookup_2. }
  rewrite Heq, bool_decide_eq_false_2 by auto. eexists. split; [done|].
  rewrite <-Heq. by rewrite elements_list_to_set.
Qed.

Lemma step_order :
  ∃ order, planning_step_order (M.index self) s = Ok order ∧ order ≡ₚ btree_keys (RunState.steps s).
Proof.
  pose proof (if_steps _ _ (si_facts _ (reachable_inv _ Hre))) as Hdom. rewrite Hs in Hdom. cbn in Hdom.
  unfold planning_step_order.
  rewrite bool_decide_eq_false_2 by (rewrite <-!size_dom, Hdom; auto). cbn [orb].
  destruct (existsb _ _) eqn:Hex.
  { apply existsb_exists in Hex as (id & Hid%list_elem_of_In & Hn%bool_decide_eq_true).
    apply elem_of_btree_keys, elem_of_dom in Hid. rewrite Hdom in Hid.
    apply elem_of_dom in Hid as [? ?]. congruence. }
  eexists. split; [done|]. rewrite sort_by_perm.
  rewrite <-(list_fmap_compose (λ entry : string * StepJournalPosition, (entry.2, entry.1)) snd).
  change (snd ∘ _) with (fst : string * StepJournalPosition → string). rewrite btree_entries_keys.
  apply NoDup_Permutation; [apply NoDup_btree_keys..|]. intros id.
  rewrite !elem_of_btree_keys, <-!elem_of_dom, Hdom. done.
Qed.
End planning.

(** C31: On a store that appends built, a planning snapshot fails for two reasons only: the
    client expects another head, or the outputs of the completed steps exceed the byte budget.
    Otherwise it holds the current state, the steps in the order of the journal, and the
    output of exactly every completed step that has one, as stored, each listed once. *)
Theorem planning_snapshot_complete `{Crypto} `{ReceiptSchema} `{Rfc3339} (self : MemoryRunStore)
    (expected : ExpectedHead) (max_output_bytes : N) :
  reachable self →
  match load_planning_snapshot self expected max_output_bytes with
  | Err (StoreError.HeadConflict e actual) =>
      e = expected ∧ actual = head_of (M.records self) ∧ expected ≠ actual
  | Err StoreError.PlanningSnapshotBudgetExceeded =>
      expected = head_of (M.records self) ∧
      ∃ s, M.projection self = Some s ∧ (budget max_output_bytes < completed_bytes self s)%N
  | Ok None => expected = head_of (M.records self) ∧ M.projection self = None
  | Ok (Some snapshot) =>
      let s := RunPlanningSnapshot.state snapshot in
      let outputs := RunPlanningSnapshot.completed_tool_outputs snapshot in
      expected = head_of (M.records self) ∧ M.projection self = Some s ∧
      (completed_bytes self s ≤ budget max_output_bytes)%N ∧
      RunPlanningSnapshot.planning_step_order snapshot ≡ₚ btree_keys (RunState.steps s) ∧
      RunPlanningSnapshot.completed_tool_output_order snapshot ≡ₚ elements (dom outputs) ∧
      (∀ id x, outputs !! id = Some x ↔
         ∃ st e d, RunState.steps s !! id = Some st ∧ bound_output st = Some (e, d) ∧
           load_tool_output self e = Ok (Some x))
  | _ => False
  end.
Proof.
  intros Hre. pose proof (reachable_inv _ Hre) as Hinv.
  change (load_planning_snapshot self) with (MemoryRunStore_load_planning_snapshot self).
  unfold MemoryRunStore_load_planning_snapshot, build_planning_snapshot.
  rewrite index_head by done. case_bool_decide as Hhead; [done|].
  rewrite (si_state _ Hinv). destruct (M.projection self) as [s|] eqn:Hs; [|done].
  destruct (step_order self s Hre Hs) as (order & -> & Horder). cbn [rbind].
  assert (Hin : ∀ id st, (id, st) ∈ btree_entries (RunState.steps s) → RunState.steps s !! id = Some st)
    by (intros id st; apply elem_of_btree_entries).
  rewrite (select_all self s Hre Hs) by (try done; lia). cbn zeta. rewrite N.add_0_l.
  fold (completed_bytes self s). case_bool_decide as Hb; cbn [rbind fst app]; [|split; [done|]; exists s; split; [done|lia]].
  destruct (selections_distinct s _ Hin) as [Hsel Hnd]; [rewrite btree_entries_keys; apply NoDup_btree_keys|].
  destruct (load_all self s Hre Hs _ ∅ Hsel Hnd) as (outputs & -> & Hspec); [intros; apply lookup_empty|].
  cbn [rbind].
  assert (Hout : ∀ id x, outputs !! id = Some x ↔ ∃ st e d, RunState.steps s !! id = Some st ∧
            bound_output st = Some (e, d) ∧ load_tool_output self e = Ok (Some x)).
  { intros id x. rewrite Hspec, lookup_empty.
    assert (Hload : ∀ e, load_tool_output self e = Ok (StoredToolOutput.record <$> M.outputs self !! e)).
    { intros e. cbn. unfold MemoryRunStore_load_tool_output. by rewrite tool_output_point. }
    setoid_rewrite Hload. split.
    - intros [?|([[id' e] d] & o & Ht & <- & Ho & ->)]; [done|]. cbn [fst snd] in *.
      destruct (proj1 (Forall_forall _ _) Hsel _ Ht) as (st & Hst & Hbo). cbn [fst snd] in *.
      exists st, e, d. split_and!; [done..|]. by rewrite Ho.
    - intros (st & e & d & Hst & Hbo & Hx). right. exists (id, e, d).
      destruct (M.outputs self !! e) as [o|] eqn:Ho; [|done]. injection Hx as <-. exists o. split_and!; [|done..].
      apply list_elem_of_omap. exists (id, st). split; [by apply elem_of_btree_entries|].
      unfold selection. cbn. by rewrite Hbo. }
  destruct (output_order self s Hre Hs (dom outputs)) as (oorder & -> & Hoorder).
  { intros id [x (st & e & d & Hst & Hbo & _)%Hout]%elem_of_dom. exists st. split; [done|].
    unfold bound_output in Hbo. by case_bool_decide. }
  cbn [rbind]. by split_and!.
Qed.
