(* ===== verification/StoreScenario.v ===== *)
(** A run of the in-memory store, evaluated: a plan of two steps is accepted with its recipes,
    one effect is committed with its material, succeeds with an output and is completed by a
    receipt.  The witnesses of the store's theorems instantiate them at this store. *)

From S2P Require Import Prelude Text Wire WorkGraphTypes WorkGraphErrors WorkGraphWire Planning.
From S2P Require Import Material ToolOutput Completion Journal Reducer Domain Receipt StoreTypes.
From S2P Require Import StoreBundles StoreIndex StoreSidecars MemoryStore StoreRuns Scenario.
From S2P Require Import StoreProofs StoreTheorems StoreEvidence.

#[local] Existing Instance reference_crypto.

(** A schema that accepts every document, and one instant. *)
Definition any_schema : ReceiptSchema := inr (λ _, None).
Definition now : string := "2025-01-01T00:00:00Z".
Definition one_instant : Rfc3339 := λ s, if decide (s = now) then Some 1735689600%Z else None.
#[local] Existing Instance any_schema.
#[local] Existing Instance one_instant.

(** ** Driving the store *)

Inductive sidecar : Type :=
| NoSidecar
| PlanInputs (inputs : list PlannedInvocationMaterialRecord)
| EffectMaterial (x : InvocationMaterialRecord)
| Receipt (x : ExecutionReceiptBody)
| Output (x : ToolOutputRecord).

Definition append_any (self : MemoryRunStore) (expected : ExpectedHead) (event : RunEvent)
    (sc : sidecar) : res StoreError (Commit * MemoryRunStore) :=
  match sc with
  | NoSidecar => append self expected event
  | PlanInputs x => append_with_plan_inputs self expected event x
  | EffectMaterial x => append_with_invocation_material self expected event x
  | Receipt x => append_with_execution_receipt self expected event x
  | Output x => append_with_tool_output self expected event x
  end.

Lemma append_any_commits self expected event sc commit self' :
  append_any self expected event sc = Ok (commit, self') → commits self expected event commit self'.
Proof. destruct sc; [apply co_plain|apply co_inputs|apply co_material|apply co_receipt|apply co_output]. Qed.

Definition action : Type := option RunState → res unit (RunEventBody * sidecar).

(** Event ids are distinct by length. *)
Fixpoint event_name (n : nat) : string := match n with O => "event" | S n => ("+" +:+ event_name n)%string end.

Definition event_at (self : MemoryRunStore) (body : RunEventBody) : RunEvent :=
  RunEvent.mk (event_name (length (MemoryRunStore.records self))) "run-1" "local" 1 now body.

Definition head_of_store (self : MemoryRunStore) : ExpectedHead :=
  VerifiedRunIndex_head (MemoryRunStore.index self).

Definition act (self : MemoryRunStore) (a : action) : res unit MemoryRunStore :=
  let? move := a (MemoryRunStore.projection self) in
  let? done := erase (append_any self (head_of_store self) (event_at self move.1) move.2) in
  Ok done.2.

Definition run_store (acts : list action) : res unit MemoryRunStore :=
  for_each act acts MemoryRunStore.new.

Lemma act_commits self a self' :
  act self a = Ok self' → ∃ expected event commit, commits self expected event commit self'.
Proof.
  unfold act. intros (move & _ & Ha)%rbind_ok. apply rbind_ok in Ha as ([c s] & Hc & [= <-]).
  apply erase_Ok in Hc. eexists _, _, c. by eapply append_any_commits.
Qed.

Lemma run_store_reachable acts self : run_store acts = Ok self → reachable self.
Proof.
  intros Hr. refine (for_each_inv _ (λ _, reachable) _ _ _ _ _ Hr); [apply re_new|].
  intros _ a _ t t' _ Ht (expected & event & commit & Hc)%act_commits. by eapply re_commits.
Qed.

(** ** The run *)

Definition without (f : option RunState → res unit RunEventBody) : action := λ s,
  let? body := f s in Ok (body, NoSidecar).

Definition given (f : RunState → res unit (RunEventBody * sidecar)) : action := λ s,
  match s with Some s => f s | None => Err tt end.

Definition bound_step (id : string) : res unit (PlannedInvocationBinding * PlannedInvocationMaterialRecord) :=
  erase (PlannedInvocationMaterialRecord_bind "run-1" id (digest_of "proposal") (plan_spec id) plan_reference).

Definition accept_plan_action : action := given (λ s,
  let? a := bound_step "a" in
  let? b := bound_step "b" in
  Ok (RunEventBody.PlanAccepted (decision 1 s)
        [AcceptedPlanStep.mk "a" "read a file" [] a.1; AcceptedPlanStep.mk "b" "read a file" ["a"] b.1],
      PlanInputs [b.2; a.2])).

Definition rule : ReceiptVerificationRule :=
  ReceiptVerificationRule.mk ReceiptVerificationStrategy.OutputSchema true.

Definition durable_provenance (plan_id : string) : ReceiptProvenance :=
  ReceiptProvenance.mk "xgeny.core-receipt/v2" (Some TOOL_OUTPUT_PROFILE_V1) "invocation" plan_id
    "decision" (digest_of "policy") "executor" ReceiptPlacement.Local "linux-x86_64"
    CORE_RECEIPT_INPUT_SUMMARY_V1 [rule].

Definition durable_intent (s : RunState) : res unit EffectIntent :=
  match RunState.steps s !! "a" ≫= StepState.planned_invocation with
  | None => Err tt
  | Some p =>
      let pr := durable_provenance (PlannedInvocationBinding.plan_id p) in
      let? prd := erase (receipt_provenance_digest pr) in
      let? retention := erase (invocation_material_retention_digest
                                 (InvocationMaterialRetention.ReconstructableReference plan_reference)) in
      let b := AuthorizationBinding.mk "run-1" "a" "local" 1 (RunState.journal_sequence s)
        (RunState.journal_head_digest s) "fs.read" "1.0.0" (digest_of "definition") "instance"
        (digest_of "instance") (digest_of "a") (digest_of "input") retention
        (digest_of "evidence") (Some prd) in
      let? grant := erase (once_authorization_id "run-1" (digest_of "a")) in
      let? gd := erase (authorization_digest b 1) in
      Ok (EffectIntent.mk "effect-a" (digest_of "a")
            (InvocationBinding.mk "fs.read" "1.0.0" (digest_of "definition") "instance"
               (digest_of "instance"))
            WorkGraphTypes.EffectClass.ReadOnly None SinkGuarantee.None (AuthorizationUse.mk grant gd 1 b) (Some pr))
  end.

Definition commit_action : action := given (λ s,
  let? i := durable_intent s in
  let? m := erase (InvocationMaterialRecord_new "run-1" "a" i (digest_of "input")
                     (InvocationMaterialRetention.ReconstructableReference plan_reference)) in
  Ok (RunEventBody.EffectIntentCommitted "a" i, EffectMaterial m)).

Definition intent_of (s : RunState) : res unit EffectIntent :=
  ok_or (RunState.steps s !! "a" ≫= StepState.intent) tt.

Definition output_of (s : RunState) : res unit ToolOutputRecord :=
  let? i := intent_of s in
  erase (ToolOutputRecord_new "run-1" "a" i 1 (digest_of "evidence") (Value.Str "notes")).

Definition succeed_action : action := given (λ s,
  let? o := output_of s in
  Ok (RunEventBody.EffectSucceeded "a" "effect-a" (digest_of "evidence")
        (Some (ToolOutputRecord.record_digest o)), Output o)).

Definition receipt_with (plan_id output_digest receipt_digest : string) : ExecutionReceiptBody :=
  ExecutionReceiptBody.mk "xgeny.dev/v1alpha1" ∅ [] "receipt-a" "run-1" "a" "invocation" plan_id
    (CapabilityRef.mk "fs.read" "1.0.0") "instance" (digest_of "input") CORE_RECEIPT_INPUT_SUMMARY_V1
    (ReceiptPolicy.mk "decision" (digest_of "policy") None None)
    (Executor.mk "executor" Placement.Local "linux-x86_64")
    (ReceiptEffect.mk Domain.EffectClass.ReadOnly true (Some now) None)
    ReceiptStatus.Succeeded now now output_digest
    [ArtifactRef.mk "artifact-1" None "text/plain" 5 (digest_of "artifact")
       (Some (ArtifactProvenance.mk "run-1" "a" (Some "receipt-a"))) ∅ []]
    [VerificationEvidence.mk VerificationStrategy.OutputSchema true VerificationResult.Passed
       (core_verification_summary_v1 VerificationResult.Passed) (Some (digest_of "evidence")) None]
    CORE_RECEIPT_REDACTIONS_V1 None receipt_digest.

Definition receipt_action : action := given (λ s,
  let? i := intent_of s in
  let? o := output_of s in
  let? pr := ok_or (EffectIntent.receipt_provenance i) tt in
  let unsigned := receipt_with (ReceiptProvenance.plan_id pr) (ToolOutputRecord.output_digest o) in
  let? digest := erase (Protocol.canonical_digest_without_field (ExecutionReceipt (unsigned "")) "receiptDigest") in
  Ok (RunEventBody.VerificationRecorded "a" "effect-a" VerificationDisposition.Passed "receipt-a" digest,
      Receipt (unsigned digest))).

Definition actions : list action := [
  without (always (RunEventBody.RunCreated "goal"));
  without (always (RunEventBody.AgentLoopConfigured (AgentLoopBudget.mk 2 4 3 4096)));
  without (always (RunEventBody.ModelCallLifecycleConfigured (ModelCallBudget.mk 2)));
  without reserve;
  accept_plan_action;
  commit_action;
  without (always (RunEventBody.EffectExecutionStarted "a" "effect-a"));
  succeed_action;
  receipt_action].

(** The store after the first [n] appends. *)
Definition store_at (n : nat) : MemoryRunStore :=
  match run_store (take n actions) with Ok self => self | _ => MemoryRunStore.new end.

(** The store's theorems at a concrete run, with the reference digest, a schema that accepts
    every document and a single instant. *)

Section witnesses.
#[local] Existing Instance reference_crypto.
#[local] Existing Instance any_schema.
#[local] Existing Instance one_instant.

Lemma ran n : is_ok (run_store (take n actions)) → reachable (store_at n).
Proof. intros [self Hr]. unfold store_at. rewrite Hr. by eapply run_store_reachable. Qed.

Lemma full_ran : is_ok (run_store (take 9 actions)).
Proof. apply accepted_by. vm_compute. reflexivity. Qed.
Lemma full_run : reachable (store_at 9).
Proof. apply ran, full_ran. Qed.
Lemma observed_run : reachable (store_at 8).
Proof. apply ran, accepted_by. vm_compute. reflexivity. Qed.

(** The last append of the run, the receipt. *)
Lemma last_commit : ∃ expected event commit, commits (store_at 8) expected event commit (store_at 9).
Proof.
  destruct full_ran as [self Hr]. pose proof Hr as Hrun.
  rewrite (eq_refl : take 9 actions = take 8 actions ++ [receipt_action]) in Hrun.
  unfold run_store in Hrun. rewrite for_each_app in Hrun. apply rbind_ok in Hrun as (self8 & H8 & H9).
  apply rbind_ok in H9 as (self9 & H9 & [= ->]). apply act_commits in H9.
  fold (run_store (take 8 actions)) in H8. unfold store_at. by rewrite Hr, H8.
Qed.

(** From here only [vm_compute] runs the store. *)
#[local] Opaque store_at.

Lemma reachable_store_loads_witness :
  length (M.records (store_at 9)) = 9 ∧ load (store_at 9) = Ok (snapshot_of (store_at 9)).
Proof. split; [vm_compute; reflexivity|]. exact (proj1 (reachable_store_loads _ full_run)). Defined.

Lemma append_is_compare_and_swap_witness :
  ∃ event commit, M.records (store_at 9) = M.records (store_at 8) ++ [Commit.record commit] ∧
    EventRecord_next (last (M.records (store_at 8))) event = Ok (Commit.record commit).
Proof.
  destruct last_commit as (expected & event & commit & Hco).
  destruct (append_is_compare_and_swap _ _ _ _ _ observed_run Hco) as (_ & _ & Hrec & Hnext & _).
  exists event, commit. exact (conj Hrec Hnext).
Defined.

Lemma lost_race_stays_lost_witness :
  ∃ expected, ∀ event commit self, ¬ commits (store_at 9) expected event commit self.
Proof.
  destruct last_commit as (expected & event & commit & Hco). exists expected.
  exact (proj1 (lost_race_stays_lost _ _ _ _ _ _ observed_run Hco (la_same _))).
Defined.

Lemma store_never_panics_witness :
  length (M.receipts (store_at 9)) = 1 ∧ ∀ expected event, no_panic (append (store_at 9) expected event).
Proof. split; [vm_compute; reflexivity|]. exact (proj1 (store_never_panics _ full_run)). Defined.

(** The projection and the completed step of the full run. *)
Definition completed_in (self : MemoryRunStore) (id : string) : bool :=
  match M.projection self ≫= λ s, RunState.steps s !! id with
  | Some st => bool_decide (StepState.status st = StepStatus.Completed)
  | None => false
  end.

Lemma completed_in_true self id :
  completed_in self id = true →
  ∃ s st, load_current self = Ok (Some s) ∧ RunState.steps s !! id = Some st ∧
    StepState.status st = StepStatus.Completed.
Proof.
  unfold completed_in. cbn. unfold MemoryRunStore_load_current.
  destruct (M.projection self) as [s|]; [|done]. cbn. destruct (RunState.steps s !! id) as [st|] eqn:Hst; [|done].
  intros Hc%bool_decide_eq_true. by exists s, st.
Qed.

Lemma completed_step : completed_in (store_at 9) "a" = true.
Proof. vm_compute. reflexivity. Qed.

Lemma steps_have_durable_evidence_witness :
  ∃ receipts r, load_execution_receipts (store_at 9) = Ok receipts ∧ r ∈ receipts ∧
    ExecutionReceiptBody.step_id r = "a".
Proof.
  destruct (completed_in_true _ _ completed_step) as (s & st & Hs & Hst & Hc).
  destruct (steps_have_durable_evidence (store_at 9) s "a" st full_run Hs Hst) as (_ & _ & _ & Hr).
  destruct (Hr Hc) as (receipts & r & Hl & Hin & Hid & _).
  exists receipts, r. exact (conj Hl (conj Hin Hid)).
Defined.

Lemma planning_snapshot_taken :
  match load_planning_snapshot (store_at 9) (head_of (M.records (store_at 9))) 100 with
  | Ok (Some snapshot) => bool_decide (size (RunPlanningSnapshot.completed_tool_outputs snapshot) = 1)
  | _ => false end = true.
Proof. vm_compute. reflexivity. Qed.

Lemma planning_snapshot_complete_witness :
  ∃ snapshot, load_planning_snapshot (store_at 9) (head_of (M.records (store_at 9))) 100 = Ok (Some snapshot) ∧
    RunPlanningSnapshot.planning_step_order snapshot
      ≡ₚ btree_keys (RunState.steps (RunPlanningSnapshot.state snapshot)).
Proof.
  pose proof planning_snapshot_taken as Ht.
  pose proof (planning_snapshot_complete (store_at 9) (head_of (M.records (store_at 9))) 100 full_run) as Hp.
  destruct (load_planning_snapshot (store_at 9) _ 100) as [[snapshot|]| |]; try discriminate.
  exists snapshot. destruct Hp as (_ & _ & _ & Horder & _). exact (conj eq_refl Horder).
Defined.
End witnesses.
