(* ===== verification/RuntimeScenario.v ===== *)
(** A run of the whole runtime, evaluated: a step is planned, an invocation is prepared and
    authorized, its effect is executed through an adapter and its outcome verified into a
    receipt.  The witnesses of the runtime's theorems instantiate them at this machine. *)

From S2P Require Import Prelude Program Text Wire Domain Resolution Broker Registry Router.
From S2P Require Import DomainWire WorkGraphTypes WorkGraphErrors Planning Material ToolOutput.
From S2P Require Import Completion Journal Reducer Scenario Receipt StoreTypes StoreBundles.
From S2P Require Import StoreIndex MemoryStore Host Invocation Admission Recovery Adapters.
From S2P Require Import DurableRuntime Verification Executor PolicyWitnesses RouterTheorems.
From S2P Require Import StoreProofs StoreRuns StoreScenario MachineLogic RuntimeSafety.
From S2P Require Import RecordProofs StepMachine VerificationTheorems PlanningContext Proposals.
From S2P Require Import Attempts StoreSpec StoreTheorems AgentSafety AdmissionProofs.
From S2P Require Import AdmissionTheorems Driver DriverSafety Scripts RuntimeTheorems.

#[local] Existing Instance reference_crypto.
#[local] Existing Instance any_schema.
#[local] Existing Instance one_instant.
#[local] Existing Instance Policies.top_level_pointer.

Module Workshop.

(** ** The host *)

(** The next event number, and the effects performed on the outside world. *)
Record World : Type := mk { next_event : nat; log : list string }.

#[export] Instance world_executions : Executions World :=
  λ w e, N.of_nat (length (filter (λ x, x = e) (log w))).

#[export] Instance numbered_events : EventFactory World := λ _ w,
  (Ok (EventMetadata.mk (event_name (next_event w)) now), mk (S (next_event w)) (log w)).

#[export] Instance linux_host : Target := {| OS := "linux"; ARCH := "x86_64" |}.
#[export] Instance any_json : JsonSchema := λ _, Some (λ _, true).
#[export] Instance any_decision : PolicyDecisionSchema := inr (λ _, None).
#[export] Instance named_lease : RunLease string := λ name, name.

(** ** A capability that touches a file, and its adapter *)

Inductive Workspace : Type := workspace.
#[export] Instance workspace_resolver : ResourceResolver Workspace := λ _ _ raw,
  inr ("/workspace/" +:+ raw).

Definition touch : CapabilityDefinitionBody :=
  CapabilityDefinitionBody.mk API_VERSION_V1ALPHA1 ∅ []
    (CapabilityMetadata.mk "fs.touch" "1.0.0" "Touch a file" ∅)
    (CapabilitySpec.mk "Touch a file" (Value.Object []) (Value.Object [])
       (CapabilityEffect.mk Domain.EffectClass.Idempotent
          [ResourceSelector.mk "filesystem.write" "/path"] [])
       [] (CapabilityExecution.mk [ExecutionStyle.Sync] false true false 1000 5000)
       [VerificationRule.mk VerificationStrategy.Postcondition true None] None).

Definition toucher : CapabilityInstanceBody :=
  CapabilityInstanceBody.mk API_VERSION_V1ALPHA1 ∅ [] "toucher" (CapabilityRef.mk "fs.touch" "1.0.0")
    CapabilitySource.Builtin Placement.Local (Platform.mk OperatingSystem.Linux Architecture.Any)
    TrustLevel.Verified DataBoundary.Local (Health.mk HealthStatus.Available now None)
    (Auth.mk AuthState.NotRequired None) (InstanceFeatures.mk true false false false) None
    (InstanceBinding.mk "builtin" None None).

Definition registry : CapabilityRegistry :=
  catalog [Registration.Definition_ touch; Registration.Instance_ toucher].

(** Adapters and verifiers of this host have no state of their own. *)
Inductive Hand : Type := hand.

Definition evidence : AdapterEvidenceDigest := AdapterEvidenceDigest.mk (digest_of "touched").

(** A prepared invocation carries the effect it performs. *)
#[export] Instance hand_adapter : EffectAdapter World Hand string := {|
  adapter_prepare _ request w :=
    (Ok (EffectIntent.effect_id (AdapterPrepareRequest.intent request)), w);
  invocation_execute effect w :=
    (AdapterExecutionObservation.Succeeded evidence, mk (next_event w) (log w ++ [effect]));
  adapter_reconcile _ _ w :=
    (AdapterReconciliationObservation.Inconclusive
       AdapterReconciliationInconclusiveReason.QueryUnavailable, w);
|}.

#[export] Instance hand_verifier : EffectVerifier World Hand := λ _ request w,
  (Ok (VerificationReport.new (VerifierOutputDigest.mk (digest_of "output"))
         [RuleVerificationObservation.new VerificationStrategy.Postcondition VerificationResult.Passed
            (Some evidence)]), w).

Definition adapters : EffectAdapterRegistry Hand :=
  match EffectAdapterRegistry.register EffectAdapterRegistry.new
          (CapabilityInstanceBody.binding toucher) hand with
  | Ok r => r
  | _ => EffectAdapterRegistry.new
  end.
Definition verifiers : EffectVerifierRegistry Hand :=
  match EffectVerifierRegistry.register EffectVerifierRegistry.new
          (CapabilityInstanceBody.binding toucher) hand with
  | Ok r => r
  | _ => EffectVerifierRegistry.new
  end.

(** ** The run *)

Definition resource : ConcreteResource := ConcreteResource.mk "filesystem.write" "/workspace/notes.txt".
Definition allowance : PolicyAllowance :=
  from_trusted_evaluation ["filesystem.write"] [resource] [] [GrantLifetime.Once].
Definition policy (request : ResolvedPermissionRequest) : PolicyInputs :=
  PolicyInputs.local request
    (PolicyContribution.allow (Policies.source PolicySourceKind.Host) allowance)
    (PolicyContribution.allow (Policies.source PolicySourceKind.UserProfile) allowance).

Definition route_request : RouteRequest :=
  RouteRequest.mk (CapabilityRef.mk "fs.touch" "1.0.0")
    (Platform.mk OperatingSystem.Linux Architecture.X86_64)
    (RequiredRouteFeatures.mk ExecutionStyle.Sync false true false)
    [TrustLevel.Verified] [DataBoundary.Local] [TrustLevel.Verified] [] [] None.

Definition request : AdmissionRequest :=
  AdmissionRequest.mk "a" route_request (Value.Object [("path", Value.Str "notes.txt")]).

Abbreviation machine := (Machine MemoryRunStore World).

Definition planned_store : MemoryRunStore :=
  match run_store [without (always (RunEventBody.RunCreated "goal"));
                   without (always (RunEventBody.StepPlanned "a" "touch a file" []))] with
  | Ok self => self
  | _ => MemoryRunStore.new
  end.

Definition start : machine := Machine.mk planned_store (mk 2 []).

(** Preparation reads only, so authorization starts where preparation started. *)
Definition prepared : res AdmissionError PendingInvocation * machine :=
  run (prepare ("run-1" : string) registry workspace request) start.

(** The value a program is known to return. *)
Definition returned {E A} (default : A) (r : res E A) : A :=
  match r with Ok a => a | _ => default end.

Definition no_pending : PendingInvocation :=
  PendingInvocation.mk (PendingRunBinding.mk "" "" 0 0 "") route_request Value.Null Policies.request
    "" "" "" InvocationMaterialRetention.Ephemeral None.
Definition pending : PendingInvocation := returned no_pending prepared.1.
Definition inputs : PolicyInputs := policy (PendingInvocation.permission_request pending).

Definition authorization : prog machine (res AdmissionError AdmissionOutcome) :=
  authorize_and_commit pending inputs registry ("run-1" : string).
Definition authorized : res AdmissionError AdmissionOutcome * machine := run authorization start.

Definition material : option InvocationMaterial :=
  match authorized.1 with
  | Ok (AdmissionOutcome.Authorized effect) =>
      match into_ephemeral_material effect with Ok m => Some m | _ => None end
  | _ => None
  end.

Definition execution : prog machine (res DirectExecutorError DriveReport) :=
  Executor.drive_step RuntimePolicy.default ("run-1" : string) registry adapters "a" material.
Definition executed : res DirectExecutorError DriveReport * machine := run execution authorized.2.

Definition verification : prog machine (res VerificationRunnerError DriveReport) :=
  Verification.drive_step ("run-1" : string) registry verifiers "a".
Definition verified : res VerificationRunnerError DriveReport * machine := run verification executed.2.
End Workshop.

(** The runtime's theorems at the concrete machine of the workshop. *)

Section witnesses.
#[local] Existing Instance reference_crypto.
#[local] Existing Instance reference_laws.
#[local] Existing Instance any_schema.
#[local] Existing Instance one_instant.
#[local] Existing Instance Policies.top_level_pointer.
Import Workshop.

(** ** What the host's collaborators promise *)

#[local] Instance factory_passive : PassiveFactory World.
Proof. by intros state [n l] e. Qed.

#[local] Instance verifier_passive : PassiveVerifier World Hand.
Proof. by intros verifier request' [n l] e. Qed.

(** A provider that knows no reference. *)
#[local] Instance hand_provider : InvocationMaterialProvider World Hand :=
  λ _ _ _ w, (Err MaterialProviderFailure.NotFound, w).
#[local] Instance provider_passive : PassiveProvider World Hand.
Proof. by intros provider reference revision w e. Qed.

(** A planner and a materializer that are never there. *)
#[local] Instance hand_planner : PlannerPort World Hand := {|
  planner_id _ _ := "nobody";
  request_profile_digest _ _ := digest_of "profile";
  plan _ _ w := (Err PlannerPortFailure.Unavailable, w);
|}.
#[local] Instance hand_materializer : PlanMaterializer World Hand :=
  λ _ _ w, (Err PlanMaterializerFailure.Unavailable, w).
#[local] Instance planner_passive : PassivePlanner World Hand.
Proof. by intros planner request' w e. Qed.
#[local] Instance materializer_passive : PassiveMaterializer World Hand.
Proof. by intros materializer request' w e. Qed.
#[local] Instance no_schema_errors : JsonSchemaErrors := λ _ _, None.

(** A host that routes no planned step and approves nothing. *)
#[local] Instance hand_routes : PlannedRoutePort World Hand :=
  λ _ _ _ w, (Err PlannedRouteFailure.Unavailable, w).
#[local] Instance hand_approvals : ApprovalPort World Hand :=
  λ _ _ w, (Ok ApprovalDecision.Denied, w).
#[local] Instance routes_passive : PassiveRoutes World Hand.
Proof. by intros routes state step_id w e. Qed.
#[local] Instance approvals_passive : PassiveApprovals World Hand.
Proof. by intros approvals request' w e. Qed.
#[local] Instance observer_passive : PassiveObserver World unit.
Proof. by intros observer progress w e. Qed.

Lemma executions_performed w n effect e :
  executions (mk n (log w ++ [effect])) e
  = (executions w e + if bool_decide (e = effect) then 1 else 0)%N.
Proof.
  unfold executions, world_executions. cbn [log]. rewrite filter_app, length_app, filter_cons, filter_nil.
  repeat case_decide; case_bool_decide; subst; try done; cbn; lia.
Qed.

#[local] Program Instance hand_one_shot : OneShotAdapter World Hand string := {|
  invocation_effect := λ effect, effect;
|}.
Next Obligation. by intros adapter request' w e. Qed.
Next Obligation. by intros adapter request' w invocation w' [= <- _]. Qed.
Next Obligation. intros effect w e. cbn [fst snd invocation_execute hand_adapter]. by rewrite executions_performed. Qed.
Next Obligation. by intros adapter request' w e. Qed.

(** ** The machines of the run are reachable *)

Lemma reachable_start : reachable (Machine.store start).
Proof.
  unfold start, planned_store. cbn [Machine.store].
  destruct (run_store _) as [self|?|?] eqn:Hr; [by eapply run_store_reachable|apply re_new..].
Qed.

Lemma reachable_authorized : reachable (Machine.store authorized.2).
Proof.
  unfold authorized, authorization. exact (proj1 (proj2 (follows_run eq _ _ start _ reachable_start
    (authorize_alone pending inputs registry ("run-1" : string) start)))).
Qed.

Lemma reachable_executed : reachable (Machine.store executed.2).
Proof.
  unfold executed, execution.
  exact (proj1 (proj2 (follows_run grows_to _ _ authorized.2 _ reachable_authorized
    (executor_follows RuntimePolicy.default ("run-1" : string) registry adapters "a" material authorized.2)))).
Qed.

(** ** What was computed *)

Definition succeeded {E X} (r : res E X) : bool := match r with Ok _ => true | _ => false end.

Lemma returned_Ok {E X} (default : X) (r : res E X) : succeeded r = true → r = Ok (returned default r).
Proof. by destruct r. Qed.

Lemma prepared_Ok : prepared.1 = Ok pending.
Proof. apply returned_Ok. vm_compute. reflexivity. Qed.

Definition admitted (r : res AdmissionError AdmissionOutcome) : option AdmittedEffect :=
  match r with Ok (AdmissionOutcome.Authorized effect) => Some effect | _ => None end.

Lemma authorized_Ok : ∃ effect, authorized.1 = Ok (AdmissionOutcome.Authorized effect).
Proof.
  assert (bool_decide (is_Some (admitted authorized.1)) = true) as [effect He]%bool_decide_eq_true.
  { vm_compute. reflexivity. }
  exists effect. revert He. generalize authorized.1. by intros [[]| |] [= ->].
Qed.

Lemma prepared_run :
  run (prepare ("run-1" : string) registry workspace request) start = (prepared.1, prepared.2).
Proof. unfold prepared. apply surjective_pairing. Qed.
Lemma authorized_run :
  run (authorize_and_commit pending inputs registry ("run-1" : string)) start = (authorized.1, authorized.2).
Proof. unfold authorized, authorization. apply surjective_pairing. Qed.
Lemma executed_run :
  run (Executor.drive_step RuntimePolicy.default ("run-1" : string) registry adapters "a" material)
    authorized.2 = (executed.1, executed.2).
Proof. unfold executed, execution. apply surjective_pairing. Qed.
Lemma executed_machine :
  (run (Executor.drive_step RuntimePolicy.default ("run-1" : string) registry adapters "a" material)
    authorized.2).2 = executed.2.
Proof. unfold executed, execution. reflexivity. Qed.

(** From here only [vm_compute] runs the machine. *)
#[local] Opaque start prepared pending authorized executed verified material inputs.

(** The effect of the step in a store. *)
Definition effect_in (self : MemoryRunStore) : option string :=
  M.projection self ≫= λ s, RunState.steps s !! "a" ≫= effect_of.
Definition effect : string := default "" (effect_in (Machine.store authorized.2)).

Lemma effect_in_Some self e :
  effect_in self = Some e →
  ∃ s step, M.projection self = Some s ∧ RunState.steps s !! "a" = Some step ∧ effect_of step = Some e.
Proof.
  unfold effect_in. intros (s & Hs & (step & Hst & He)%bind_Some)%bind_Some. by exists s, step.
Qed.

Lemma authorized_step : effect_in (Machine.store authorized.2) = Some effect.
Proof.
  unfold effect.
  assert (bool_decide (is_Some (effect_in (Machine.store authorized.2))) = true) as [x ->]%bool_decide_eq_true.
  { vm_compute. reflexivity. }
  done.
Qed.
#[local] Opaque effect.

(** ** The theorems *)

Lemma drive_step_writes_a_script_witness :
  succeeded executed.1 = true ∧
  ∃ appended, M.records (Machine.store executed.2) = M.records (Machine.store authorized.2) ++ appended ∧
    drive_script "a" effect executed.1 (body_of <$> appended).
Proof.
  split; [vm_compute; reflexivity|].
  destruct (effect_in_Some _ _ authorized_step) as (state & step & Hs & Hst & He).
  exact (proj2 (drive_step_writes_a_script RuntimePolicy.default ("run-1" : string) registry adapters
    "a" effect material authorized.2 executed.2 executed.1 state step reachable_authorized Hs Hst He
    executed_run)).
Defined.

Lemma authorization_commits_what_was_allowed_witness :
  ∃ effect, authorized.1 = Ok (AdmissionOutcome.Authorized effect) ∧
    authorized_by pending inputs registry "run-1" (Machine.store start) effect (Machine.store authorized.2).
Proof.
  destruct authorized_Ok as [effect He]. exists effect. split; [exact He|].
  pose proof (authorization_commits_what_was_allowed pending inputs registry ("run-1" : string) start
    authorized.2 authorized.1 reachable_start authorized_run) as [_ Hr].
  rewrite He in Hr. exact (proj1 Hr).
Defined.

Lemma preparation_only_reads_witness :
  prepared_from registry workspace request "run-1" (Machine.store start) pending.
Proof.
  destruct (preparation_only_reads ("run-1" : string) registry workspace
    (MaterialProviderRegistry.new : MaterialProviderRegistry Hand) request
    (PlannedAdmissionRequest.new "a" route_request) "a" start reachable_start) as [Hp _].
  rewrite prepared_run in Hp. exact (proj2 Hp _ prepared_Ok).
Defined.

Lemma unperformed (w : World) records :
  log w = [] →
  forallb (λ r, match body_of r with RunEventBody.EffectExecutionStarted _ _ => false | _ => true end)
    records = true →
  ∀ e, (executions w e ≤ started e records ≤ 3)%N.
Proof.
  intros Hlog Hno e. unfold executions, world_executions. rewrite Hlog. split; [cbn; lia|].
  unfold started. induction records as [|r l IH]; cbn in *; [lia|].
  apply andb_true_iff in Hno as [Hr Hl]. specialize (IH Hl). destruct (body_of r); cbn in *; try done; lia.
Qed.

Lemma authorized_unperformed e :
  (executions (Machine.world authorized.2) e ≤ started e (M.records (Machine.store authorized.2)) ≤ 3)%N.
Proof. apply unperformed; vm_compute; reflexivity. Qed.

Lemma effects_performed_at_most_once_witness :
  executions (Machine.world executed.2) effect = 1%N ∧
  (executions (Machine.world executed.2) effect ≤ started effect (M.records (Machine.store executed.2)) ≤ 3)%N.
Proof.
  split; [vm_compute; reflexivity|].
  pose proof (pool_runs (runtime_program (W := World) (L := string) (A := Hand) (I := string) (V := Hand)
    (P := Hand) (R := Workspace) (PL := Hand) (MT := Hand) (RP := Hand) (AP := Hand) (OB := unit) 3) other_client
    (forget (Executor.drive_step RuntimePolicy.default ("run-1" : string) registry adapters "a" material))
    authorized.2 (rp_execute 3 RuntimePolicy.default _ _ _ _ _ (N.le_refl 3))) as Hpool.
  rewrite run_forget, executed_machine in Hpool.
  destruct (effects_performed_at_most_once (W := World) (L := string) (A := Hand) (I := string) (V := Hand)
    (P := Hand) (R := Workspace) (PL := Hand) (MT := Hand) (RP := Hand) (AP := Hand) (OB := unit) 3
    authorized.2 executed.2 _ reachable_authorized authorized_unperformed Hpool) as [_ Hall].
  destruct (Hall effect) as (H1 & H2 & _). exact (conj H1 H2).
Defined.

(** The executor in the world of the spy, after nothing was asked yet. *)
Definition watched_start : Machine MemoryRunStore (watched World) :=
  Machine.mk (Machine.store authorized.2) (Machine.world authorized.2, []).
Definition watched_end : Machine MemoryRunStore (watched World) :=
  (run (Executor.drive_step (W := watched World) RuntimePolicy.default ("run-1" : string) registry adapters
     "a" material) watched_start).2.

Lemma unasked_yet (self : MemoryRunStore) (w : World) :
  Machine.store (Machine.mk self (w, [] : list AdapterPrepareRequest)) = self ∧
  (Machine.world (Machine.mk self (w, [] : list AdapterPrepareRequest))).2 = [].
Proof. done. Qed.
Lemma watched_store : Machine.store watched_start = Machine.store authorized.2.
Proof. exact (proj1 (unasked_yet _ _)). Qed.
Lemma watched_requests : (Machine.world watched_start).2 = [].
Proof. exact (proj2 (unasked_yet (Machine.store authorized.2) (Machine.world authorized.2))). Qed.
Lemma reachable_watched : reachable (Machine.store watched_start).
Proof. rewrite watched_store. exact reachable_authorized. Qed.
Lemma later_watched : later (Machine.store authorized.2) (Machine.store watched_start).
Proof. rewrite watched_store. apply la_same. Qed.
#[local] Opaque watched_start.

Lemma one_request : length (Machine.world watched_end).2 = 1.
Proof. vm_compute. reflexivity. Qed.

Lemma adapters_see_only_sanctioned_requests_witness :
  ∃ request, (Machine.world watched_end).2 = [request] ∧
    sanctioned RuntimePolicy.default registry (Machine.store authorized.2) "a" request.
Proof.
  destruct (adapters_see_only_sanctioned_requests (W := World) RuntimePolicy.default ("run-1" : string)
    registry adapters "a" material watched_start reachable_watched) as (requests & Hw & _ & Hall).
  fold watched_end in Hw. rewrite watched_requests in Hw. change ([] ++ requests) with requests in Hw.
  pose proof one_request as Hone. rewrite Hw in Hone |- *.
  destruct requests as [|q []]; [discriminate Hone| |discriminate Hone].
  exists q. rewrite <-watched_store. exact (conj eq_refl (Hall q (list_elem_of_here _ _))).
Defined.

(** Objects of one text member are canonical. *)
Definition one_text_member (v : Value) : bool :=
  match v with Value.Object [(_, Value.Str _)] => true | _ => false end.
Lemma one_text_member_canonical v : one_text_member v = true → canonical_input v.
Proof.
  destruct v as [| | | | |[|[k []] []]]; try done. intros _. split; [|done]. cbn.
  split; [repeat constructor|]. split; [by apply NoDup_singleton|done].
Qed.

Lemma pending_canonical : canonical_input (PendingInvocation.normalized_arguments pending).
Proof. apply one_text_member_canonical. vm_compute. reflexivity. Qed.
Lemma asked_canonical q :
  (Machine.world watched_end).2 = [q] → canonical_input (AdapterPrepareRequest.normalized_arguments q).
Proof.
  intros Hq. apply one_text_member_canonical.
  assert (forallb (λ q, one_text_member (AdapterPrepareRequest.normalized_arguments q))
    (Machine.world watched_end).2 = true) as Hall by (vm_compute; reflexivity).
  rewrite Hq in Hall. cbn in Hall. by rewrite andb_true_r in Hall.
Qed.

(** The arguments that were asked for have the canonical bytes of the authorized ones. *)
Lemma asked_apart q :
  (Machine.world watched_end).2 = [q] →
  ¬ digests_collide (material_input (AdapterPrepareRequest.normalized_arguments q))
      (material_input (PendingInvocation.normalized_arguments pending)).
Proof.
  intros Hq (a & b & Ha & Hb & Hne & _).
  assert (forallb (λ q, bool_decide (
    jcs_to_vec (material_input (AdapterPrepareRequest.normalized_arguments q))
    = jcs_to_vec (material_input (PendingInvocation.normalized_arguments pending))))
    (Machine.world watched_end).2 = true) as Hall by (vm_compute; reflexivity).
  rewrite Hq in Hall. cbn [forallb] in Hall. apply andb_true_iff in Hall as [Hall%bool_decide_eq_true _].
  rewrite Ha, Hb in Hall. congruence.
Qed.

Lemma pending_step : ResolvedPermissionRequest.step_id (PendingInvocation.permission_request pending) = "a".
Proof. vm_compute. reflexivity. Qed.

Lemma executed_arguments_are_the_authorized_ones_witness :
  ∃ request effect, (Machine.world watched_end).2 = [request] ∧
    authorized.1 = Ok (AdmissionOutcome.Authorized effect) ∧
    EffectIntent.effect_id (AdapterPrepareRequest.intent request) = AdmittedEffect.effect_id effect ∧
    AdapterPrepareRequest.normalized_arguments request = PendingInvocation.normalized_arguments pending.
Proof.
  destruct authorized_Ok as [effect He]. pose proof authorized_run as Hrun. rewrite He in Hrun.
  pose proof prepared_run as Hprepared. rewrite prepared_Ok in Hprepared.
  destruct (executed_arguments_are_the_authorized_ones (W := World) (W' := World) ("run-1" : string)
    registry registry registry workspace request pending inputs effect RuntimePolicy.default adapters material
    start prepared.2 start authorized.2 watched_start reachable_start reachable_start Hprepared Hrun later_watched)
    as (requests & Hw & _ & Hall).
  rewrite pending_step in Hw.
  fold watched_end in Hw. rewrite watched_requests in Hw. change ([] ++ requests) with requests in Hw.
  pose proof asked_canonical as Hcanonical. pose proof asked_apart as Hapart. pose proof one_request as Hone.
  rewrite Hw in Hone, Hcanonical, Hapart |- *.
  destruct requests as [|q []]; [discriminate Hone| |discriminate Hone].
  destruct (Hall q (list_elem_of_here _ _)) as [Hid Harguments].
  exists q, effect. split; [exact eq_refl|]. split; [exact He|]. split; [exact Hid|].
  destruct (Harguments pending_canonical (Hcanonical q eq_refl)) as [Heq|Hcollide]; [exact Heq|].
  destruct (Hapart q eq_refl Hcollide).
Defined.

(** What the runner does with the report of the workshop's verifier. *)
Definition report : VerificationReport :=
  VerificationReport.new (VerifierOutputDigest.mk (digest_of "output"))
    [RuleVerificationObservation.new VerificationStrategy.Postcondition VerificationResult.Passed
       (Some evidence)].

Definition judged (self : MemoryRunStore)
    : option (RunState * StepState * (ReceiptProvenance * VerificationRequest) * VerifiedStep * ExecutionReceiptBody) :=
  state ← M.projection self;
  step ← RunState.steps state !! "a";
  match verification_request step None registry with
  | Ok (provenance, request) =>
      match accept_report provenance request report with
      | Ok verified =>
          match build_execution_receipt state "a" now now None verified with
          | Ok receipt => Some (state, step, (provenance, request), verified, receipt)
          | _ => None
          end
      | _ => None
      end
  | _ => None
  end.

Lemma judged_facts self state step provenance request verified receipt :
  judged self = Some (state, step, (provenance, request), verified, receipt) →
  verification_request step None registry = Ok (provenance, request) ∧
  accept_report provenance request report = Ok verified ∧
  build_execution_receipt state "a" now now None verified = Ok receipt.
Proof.
  unfold judged. intros (s & _ & (st & _ & Hj)%bind_Some)%bind_Some.
  destruct (verification_request st None registry) as [[p q]| |] eqn:Hq; [|done..].
  destruct (accept_report p q report) as [v| |] eqn:Hv; [|done..].
  destruct (build_execution_receipt s "a" now now None v) as [r| |] eqn:Hr; [|done..].
  injection Hj as <- <- <- <- <- <-. exact (conj Hq (conj Hv Hr)).
Qed.

Lemma executed_judged : ∃ x, judged (Machine.store executed.2) = Some x.
Proof.
  assert (bool_decide (is_Some (judged (Machine.store executed.2))) = true) as Hj by (vm_compute; reflexivity).
  by apply bool_decide_eq_true in Hj.
Qed.

Lemma built_receipts_bind_their_intent_witness :
  ∃ step intent receipt, StepState.intent step = Some intent ∧
    validate_execution_receipt receipt = Ok tt ∧
    ExecutionReceiptBody.receipt_id receipt = core_receipt_id_v1 (EffectIntent.effect_id intent).
Proof.
  destruct executed_judged as [[[[[state step] [provenance request']] verified'] receipt] Hj].
  destruct (judged_facts _ _ _ _ _ _ _ Hj) as (Hq & Hv & Hr).
  destruct (built_receipts_bind_their_intent state step None registry provenance request' report verified'
    "a" now now None receipt Hq (or_introl eq_refl) Hv Hr) as ((intent & Hi & _ & Hid) & Hvalid & _).
  exists step, intent, receipt. exact (conj Hi (conj Hvalid Hid)).
Defined.
End witnesses.
