(* ===== verification/AgentScenario.v ===== *)
(** A run of the agent loop, evaluated: three ticks configure the loop and its model calls and
    have a planner propose a step that is materialized and accepted.  The witnesses of the agent
    loop's theorems instantiate them at this machine. *)

From S2P Require Import Prelude Program Text Wire Domain Resolution Registry Router DomainWire.
From S2P Require Import WorkGraphTypes WorkGraphErrors Planning Material ToolOutput Completion.
From S2P Require Import Frontier Journal Reducer Scenario Receipt StoreTypes StoreBundles.
From S2P Require Import StoreIndex MemoryStore Host Invocation Admission PlanningContext.
From S2P Require Import Proposals Agent PolicyWitnesses RouterTheorems StoreProofs StoreRuns.
From S2P Require Import StoreScenario MachineLogic AgentSafety RuntimeScenario RecordProofs.
From S2P Require Import StepMachine Attempts StoreSpec StoreTheorems RuntimeSafety Scripts.
From S2P Require Import Broker Recovery Adapters DurableRuntime Verification Executor Driver.
From S2P Require Import DriverSafety AgentScripts RuntimeTheorems AgentTheorems DriverTheorems.
From S2P Require Import ProposalProofs.

#[local] Existing Instance reference_crypto.
#[local] Existing Instance any_schema.
#[local] Existing Instance one_instant.
#[local] Existing Instance Policies.top_level_pointer.
#[local] Existing Instance Workshop.linux_host.
#[local] Existing Instance Workshop.any_json.
#[local] Existing Instance Workshop.named_lease.
#[local] Existing Instance Workshop.any_decision.

Module Office.

(** ** The host *)

(** The next event number, and the calls the provider was asked with. *)
Record World : Type := mk { next_event : nat; asked : list string }.

#[export] Instance world_log : PlannerLog World := asked.

#[export] Instance office_events : EventFactory World := λ _ w,
  (Ok (EventMetadata.mk (event_name (next_event w)) now), mk (S (next_event w)) (asked w)).

#[export] Instance no_schema_errors : JsonSchemaErrors := λ _ _, None.

(** Names are resolved against one directory; resolved ones stay. *)
Inductive Cabinet : Type := cabinet.
#[export] Instance cabinet_resolver : ResourceResolver Cabinet := λ _ _ raw,
  inr (if String.prefix "/" raw then raw else "/cabinet/" +:+ raw).

(** The office's planner always proposes to touch one file. *)
Inductive Desk : Type := desk.

Definition proposal : list ProposedPlanStep :=
  [ProposedPlanStep.new "notes" "touch the notes" [] (CapabilityRef.mk "fs.touch" "1.0.0")
     (Value.Object [("path", Value.Str "notes.txt")])].

#[export] Instance desk_planner : PlannerPort World Desk := {|
  planner_id _ _ := "desk";
  request_profile_digest _ _ := digest_of "profile";
  plan _ request w :=
    (Ok (PlanProposal.Plan proposal), mk (next_event w) (asked w ++ [PlannerCallRequest.call_id request]));
|}.

#[export] Instance desk_materializer : PlanMaterializer World Desk :=
  λ _ _ w, (Ok plan_reference, w).

(** Nothing else is there: no adapter prepares, no verifier answers, nothing is reconstructed,
    routed or approved. *)
#[export] Instance desk_adapter : EffectAdapter World Desk string := {|
  adapter_prepare _ _ w := (Err AdapterPrepareFailure.Unavailable, w);
  invocation_execute _ w := (AdapterExecutionObservation.Unknown AdapterExecutionUnknownReason.AdapterTerminated, w);
  adapter_reconcile _ _ w :=
    (AdapterReconciliationObservation.Inconclusive
       AdapterReconciliationInconclusiveReason.QueryUnavailable, w);
|}.
#[export] Instance desk_verifier : EffectVerifier World Desk :=
  λ _ _ w, (Err VerificationPortFailure.Unavailable, w).
#[export] Instance desk_provider : InvocationMaterialProvider World Desk :=
  λ _ _ _ w, (Err MaterialProviderFailure.NotFound, w).
#[export] Instance desk_routes : PlannedRoutePort World Desk :=
  λ _ _ _ w, (Err PlannedRouteFailure.Unavailable, w).
#[export] Instance desk_approvals : ApprovalPort World Desk :=
  λ _ _ w, (Ok ApprovalDecision.Denied, w).

(** ** The run *)

Definition limits : AgentLoopBudget := AgentLoopBudget.mk 3 10 10 65536.
Definition agent : AgentLoop := AgentLoop.with_model_call_budget limits (ModelCallBudget.mk 3).

Abbreviation machine := (Machine MemoryRunStore World).

Definition created_store : MemoryRunStore :=
  match run_store [without (always (RunEventBody.RunCreated "goal"))] with
  | Ok self => self
  | _ => MemoryRunStore.new
  end.

Definition start : machine := Machine.mk created_store (mk 1 []).

Definition one_tick : prog machine (res AgentLoopError AgentLoopTick) :=
  tick agent ("run-1" : string) Workshop.registry cabinet desk desk.

Definition configured : res AgentLoopError AgentLoopTick * machine := run one_tick start.
Definition ready : res AgentLoopError AgentLoopTick * machine := run one_tick configured.2.
Definition planned : res AgentLoopError AgentLoopTick * machine := run one_tick ready.2.

(** A drive of the same run, to which nobody consented. *)
Definition driver : RunDriver := RunDriver.new agent 8.
Definition unconsented : prog machine (res RunDriverError DriverOutcome) :=
  drive_until_pause_with_model_egress driver ("run-1" : string) Workshop.registry cabinet desk desk
    (MaterialProviderRegistry.new : MaterialProviderRegistry Desk)
    (EffectAdapterRegistry.new : EffectAdapterRegistry Desk)
    (EffectVerifierRegistry.new : EffectVerifierRegistry Desk) desk desk false.
Definition waiting : res RunDriverError DriverOutcome * machine := run unconsented start.
End Office.

(** The agent loop's theorems at the concrete machine of the office. *)

Section witnesses.
#[local] Existing Instance reference_crypto.
#[local] Existing Instance reference_laws.
#[local] Existing Instance any_schema.
#[local] Existing Instance one_instant.
#[local] Existing Instance Policies.top_level_pointer.
#[local] Existing Instance Workshop.linux_host.
#[local] Existing Instance Workshop.any_json.
#[local] Existing Instance Workshop.named_lease.
#[local] Existing Instance Workshop.any_decision.
Import Office.

#[local] Instance office_logged : LoggedPlanner World Desk Desk.
Proof. split; [by right|by intros|by intros]. Qed.
#[local] Instance office_host : LoggedHost World Desk string Desk Desk Desk Desk unit.
Proof. by split. Qed.

Lemma office_reachable : reachable (Machine.store start).
Proof.
  unfold start, created_store. cbn [Machine.store].
  destruct (run_store _) as [self|?|?] eqn:Hr; [by eapply run_store_reachable|apply re_new..].
Qed.

Lemma ready_run : run one_tick configured.2 = (ready.1, ready.2).
Proof. unfold ready. apply surjective_pairing. Qed.
Lemma planned_run : run one_tick ready.2 = (planned.1, planned.2).
Proof. unfold planned. apply surjective_pairing. Qed.
Lemma planned_machine : (run one_tick ready.2).2 = planned.2.
Proof. unfold planned. reflexivity. Qed.

Lemma tick_reachable m state :
  reachable (Machine.store m) → M.projection (Machine.store m) = Some state →
  reachable (Machine.store (run one_tick m).2).
Proof.
  intros Hre Hs. exact (proj1 (proj2 (follows_run eq _ _ m _ Hre
    (tick_alone m agent state ("run-1" : string) Workshop.registry cabinet desk desk m
       (Build_stands _ _ _ _ (wrote_nothing m) Hs Hre))))).
Qed.

Lemma projected (self : MemoryRunStore) :
  bool_decide (is_Some (M.projection self)) = true → ∃ state, M.projection self = Some state.
Proof. by intros [state Hs]%bool_decide_eq_true; exists state. Qed.

Lemma start_projected : ∃ state, M.projection (Machine.store start) = Some state.
Proof. apply projected. vm_compute. reflexivity. Qed.
Lemma configured_projected : ∃ state, M.projection (Machine.store configured.2) = Some state.
Proof. apply projected. vm_compute. reflexivity. Qed.
Lemma ready_projected : ∃ state, M.projection (Machine.store ready.2) = Some state.
Proof. apply projected. vm_compute. reflexivity. Qed.

Lemma reachable_configured : reachable (Machine.store configured.2).
Proof.
  destruct start_projected as [state Hs]. unfold configured. exact (tick_reachable start state office_reachable Hs).
Qed.
Lemma reachable_ready : reachable (Machine.store ready.2).
Proof.
  destruct configured_projected as [state Hs]. unfold ready.
  exact (tick_reachable configured.2 state reachable_configured Hs).
Qed.

Lemma ready_unasked : planner_log (Machine.world ready.2) = [].
Proof. vm_compute. reflexivity. Qed.

(** The plan the third tick accepted. *)
Definition accepted_steps (r : res AgentLoopError AgentLoopTick) : list string :=
  match r with Ok (AgentLoopTick.PlanAccepted step_ids _) => step_ids | _ => [] end.
Lemma planned_accepted : length (accepted_steps planned.1) = 1.
Proof. vm_compute. reflexivity. Qed.
Lemma planned_asked : length (planner_log (Machine.world planned.2)) = 1.
Proof. vm_compute. reflexivity. Qed.

(** The drive configures the loop and its calls, and stops. *)
Lemma waiting_run : run unconsented start = (waiting.1, waiting.2).
Proof. unfold waiting. apply surjective_pairing. Qed.
Definition asks_consent (r : res RunDriverError DriverOutcome) : bool :=
  match r with Ok DriverOutcome.ModelEgressRequired => true | _ => false end.
Lemma waiting_asks : asks_consent waiting.1 = true ∧ length (M.records (Machine.store waiting.2)) = 3.
Proof. vm_compute. split; reflexivity. Qed.

(** From here only [vm_compute] runs the machine. *)
#[local] Opaque start configured ready planned one_tick waiting.

Lemma ticks_report_what_they_wrote_witness :
  length (accepted_steps planned.1) = 1 ∧
  ∃ appended, M.records (Machine.store planned.2) = M.records (Machine.store ready.2) ++ appended ∧
    match planned.1 with Ok t => tick_script agent t (body_of <$> appended) | _ => True end.
Proof.
  split; [exact planned_accepted|]. destruct ready_projected as [state Hs].
  pose proof (ticks_report_what_they_wrote agent ("run-1" : string) Workshop.registry cabinet desk desk
    ready.2 planned.2 planned.1 state reachable_ready Hs planned_run) as (_ & appended & Happ & Ht).
  exists appended. split; [exact Happ|]. destruct planned.1; [exact (proj1 Ht)|exact I|exact I].
Defined.

Lemma planner_calls_are_reserved_witness :
  length (planner_log (Machine.world planned.2)) = 1 ∧
  (len (planner_log (Machine.world planned.2)) ≤ len (reservations (M.records (Machine.store planned.2))))%N.
Proof.
  split; [exact planned_asked|].
  pose proof (pool_runs (agent_program (W := World) (L := string) (R := Cabinet) (P := Desk) (M := Desk)
    (A := Desk) (I := string) (V := Desk) (MP := Desk) (RP := Desk) (AP := Desk) (OB := unit))
    other_writer (forget one_tick) ready.2 (ap_tick agent _ _ _ _ _)) as Hpool.
  rewrite run_forget, planned_machine in Hpool.
  exact (proj1 (proj2 (planner_calls_are_reserved (W := World) (L := string) (R := Cabinet) (P := Desk)
    (M := Desk) (A := Desk) (I := string) (V := Desk) (MP := Desk) (RP := Desk) (AP := Desk) (OB := unit)
    ready.2 planned.2 _ reachable_ready ready_unasked Hpool))).
Defined.

Lemma drives_need_consent_to_call_a_model_witness :
  asks_consent waiting.1 = true ∧ length (M.records (Machine.store waiting.2)) = 3 ∧
  planner_log (Machine.world waiting.2) = planner_log (Machine.world start) ∧
  call_may_be_next (M.projection (Machine.store waiting.2)) = Ok true.
Proof.
  split; [exact (proj1 waiting_asks)|]. split; [exact (proj2 waiting_asks)|].
  destruct (drives_need_consent_to_call_a_model driver ("run-1" : string) Workshop.registry cabinet desk desk
    (MaterialProviderRegistry.new : MaterialProviderRegistry Desk)
    (EffectAdapterRegistry.new : EffectAdapterRegistry Desk)
    (EffectVerifierRegistry.new : EffectVerifierRegistry Desk) desk desk false tt
    start waiting.2 waiting.1 office_reachable waiting_run) as (Hquiet & Hasks & _).
  split; [exact (proj1 (proj2 (Hquiet eq_refl)))|].
  refine (proj2 (Hasks _)). destruct waiting_asks as [Ha _]. revert Ha. generalize waiting.1.
  intros [[]| |]; cbn; intros Ha; (discriminate Ha || reflexivity).
Defined.

(** Two steps, the second after the first. *)
Definition two_steps : list ProposedPlanStep :=
  [ProposedPlanStep.new "first" "do this" [] (CapabilityRef.mk "fs.touch" "1.0.0") Value.Null;
   ProposedPlanStep.new "second" "then that" [PlanDependency.ProposedStep "first"]
     (CapabilityRef.mk "fs.touch" "1.0.0") Value.Null].
Definition empty_context : PlanningContext :=
  PlanningContext.mk (PlanningContextPayload.mk "" [] 0 "" "" [] [] 0 [] 0 0 "" "" 0 0 "") "" 0.

Definition nothing_left : WorkFrontier := WorkFrontier.mk "" 0 0 "" 0 [] [] [] [] [] [] [].

Lemma proposal_structure_checked_witness :
  (len two_steps ≤ usize_max)%N ∧ ∃ state, proposal_ok state nothing_left empty_context two_steps.
Proof.
  assert (len two_steps ≤ usize_max)%N as Hlen by (apply N.leb_le; vm_compute; reflexivity).
  split; [exact Hlen|]. destruct ready_projected as [state Hs]. exists state.
  apply (proj1 (proposal_structure_checked state nothing_left empty_context two_steps Hlen)).
  vm_compute. reflexivity.
Defined.
End witnesses.
